(* ===== verification/_CoqProject ===== *)
-Q . S2P
Prelude.v
GoStrings.v
GoUnicode.v
GoStrconv.v
IrcMessage.v
GoFlag.v
Effects.v
CaseMapping.v
Membership.v
Modes.v
WhoX.v
Base64.v
GenMsg.v
GoTime.v
MsgID.v
MemStore.v
Backoff.v
Highlight.v
Caps.v
Database.v
Upstream.v
UpstreamHandlers.v
UpstreamInv.v
UpstreamIdent.v
UpstreamMembers.v
UpstreamPending.v
Downstream.v
DownstreamHandlers.v
DownstreamAuth.v
DownstreamLabel.v
DownstreamMirror.v
UserNetworks.v
UserNetworksInv.v
ServiceWords.v
Service.v
ServiceSafety.v
ServiceInv.v
Dial.v
NetworkRun.v
DownstreamSession.v
DownstreamCommands.v
DownstreamRequests.v
DownstreamExtensions.v
DownstreamWelcome.v
UserLoop.v
ClientSafety.v
UserLoopInv.v
Quiet.v
ClientLabel.v
ClientExamples.v
GoOs.v
ZncLog.v
FsStore.v
FsHistory.v
FsAppend.v
FsDelete.v
SqlTables.v
Sqlite.v
SqliteDelete.v
SqliteSpec.v
SqliteRecords.v
DbStore.v
SqlExamples.v
Postgres.v
PgInv.v
PgBackends.v
PgHistory.v
PgExamples.v
DbUpgrade.v
Identd.v
Config.v
Auth.v
WebPush.v
ServerRun.v
ServerTasks.v
GoPath.v
FileUpload.v
FileUploadSafe.v
Conn.v
Websocket.v
