(* ===== verification/Prelude.v ===== *)
(** * Verification of the soju IRC bouncer

    soju keeps one connection per IRC network for each of its users ("upstream") and lets the
    user attach any number of clients to it ("downstream"). A user has one event loop, which
    is the only code that touches the state of its connections: it takes events (a message of
    a server, a message of a client, a connection that starts or ends, a timer) one at a time.
    The model follows this: a handler is a function from the state before an event to the
    state after it, the list of actions it performed, and its outcome.

    ** Outcomes, state and effects

    A Go function returning [(T, error)] is a function into [res]; a run-time panic is a third
    outcome, so "does not panic" is part of what the theorems say. Code that changes the state
    of a connection is written in the state monad [ST] of [Effects]: for upstream the state [ustate]
    (the fields of [upstreamConn] and of its [network]), a trace of actions (lines sent to the
    server or to a client, entries given to the message store, database writes, timers), and
    an error that stops the handler but keeps the changes made before it, as in Go. What lies
    outside the user's event loop is the class [env] ([denv] for a client): the clock, the message store and the
    database as functions of the trace so far, the connected clients as views. Nothing is
    assumed of them unless a theorem says so. Strings are Go's strings, sequences of bytes;
    64-bit integers are [Z] with their wrap-around written out ([wrap_u64], [wrap_i64]).

    ** Files

    - [Prelude]: outcomes, machine integers, list lemmas and tactics. [Effects]: the state
      monad of the handlers with its proof calculi.
    - [GoStrings], [GoUnicode], [Base64]: what the code uses of Go's packages strings,
      strconv, unicode/utf8, unicode and encoding/base64.
    - [IrcMessage]: messages, tags, sources, and the helpers of irc.go and xirc/xirc.go.
    - [CaseMapping]: xirc/casemapping.go.
    - [Membership], [Modes]: ranks, PREFIX and CHANMODES, mode changes (irc.go, upstream.go).
    - [WhoX], [GenMsg], [Caps]: xirc/whox.go, xirc/genmsg.go, xirc/caps.go.
    - [MsgID], [MemStore]: msgstore/msgstore.go, msgstore/memory.go.
    - [Backoff]: rate.go. [Highlight]: the nickname scan of irc.go.
    - [Database]: the records of database/database.go.
    - [Upstream]: the state of an upstream connection and the functions its handlers share
      (upstream.go, and the [network] part of user.go).
    - [UpstreamHandlers]: one definition per case of [upstreamConn.handleMessage], their
      dispatch, registration, and the events of the user loop that concern an upstream.
    - [UpstreamInv], [UpstreamMembers], [UpstreamPending]: the theorems on them.
    - [Downstream]: the state of a client connection, sending, batches, labels and capabilities
      (downstream.go). [DownstreamHandlers]: what the client sees of its network, SASL, the
      commands before registration and the registration.
    - [DownstreamAuth], [DownstreamLabel], [DownstreamMirror]: the theorems on them.
    - [UserNetworks], [UserNetworksInv]: the networks of a user, created, changed and removed,
      with the connections bound to them (user.go), and their invariant.
    - [GoStrconv], [GoFlag]: what BouncerServ uses of the packages strconv, encoding/hex and
      flag. [ServiceWords]: its word splitting and the quoting of sojuctl. [Service]: every
      command of service.go over the loaded users of the server. [ServiceSafety]: the theorems.
    - [DownstreamSession]: a registered client in the bouncer: the server together with the
      connection, and how what a method of the server does reaches the connection.
      [DownstreamCommands], [DownstreamRequests], [DownstreamExtensions]: one definition per
      command of [downstreamConn.handleMessageRegistered], their dispatch, and the client's
      events in the user's loop. [DownstreamWelcome]: what a new client is told. [ClientSafety],
      [Quiet], [ClientLabel]: the theorems on them. [ClientExamples]: sessions.
    - [Dial]: where a network is dialled, its pinned certificate, and the local address of a
      user (upstream.go, user.go). [NetworkRun]: one connection of a network and the loop that
      reconnects it.
    - [UserLoop]: the goroutine of a user (user.go): networks are loaded, then events handled
      one at a time, over the server and the client connections of the user. [UserLoopInv]: its
      invariant, with [UpstreamIdent] and [ServiceInv] for servers and administrators.
      [ClientExamples]: runs.
    - [GoTime]: the calendar, server times and time zones. [GoOs]: directories, inodes and the
      system calls on them. [ZncLog]: msgstore/znclog. [FsStore]: msgstore/fs.go, with the
      theorems in [FsHistory] (queries), [FsAppend] (appending and resuming) and [FsDelete].
    - [SqlTables]: the tables of database/sqlite_schema.sql with their constraints, and
      statements and transactions that the engine may refuse. [Sqlite]: every method of
      database/sqlite.go, and database/utils.go. [SqliteDelete], [SqliteSpec],
      [SqliteRecords]: the theorems on them. [DbStore]: msgstore/db.go over the database.
      [SqlExamples]: runs.
    - [Postgres]: the tables of database/postgres_schema.sql, with types, sequences and cascading
      deletion, and every method of database/postgres.go. [PgInv]: the calls of them and their
      invariant. [PgBackends]: both databases side by side. [PgHistory]: messages and
      the other records, and the metric of networks per host. [PgExamples]: runs. [DbUpgrade]: opening and upgrading either database.
    - [Identd]: identd/identd.go. [Config]: config/config.go. [Auth]: auth/, and how the
      back ends are combined (cmd/soju/main.go).
    - [ServerRun]: accepting connections, the administration socket, loading and creating users
      (server.go). [ServerTasks]: its periodic tasks. [WebPush]: push notifications (server.go,
      user.go). [Conn]: the goroutines of a connection (conn.go) as a transition system.
      [Websocket]: WebSocket and PROXY connections and the accept loop (conn.go, server.go).
    - [GoPath]: package path. [FileUpload]: fileupload/. [FileUploadSafe]:
      the theorems on it.

    ** What the theorems show

    - The event loop keeps its invariant whatever the server sends: every case-mapped map is
      well formed, the maps of a connection and of its network share one casemapping from
      the moment it is negotiated, and NickServ conversations never reach the message store
      ([UpstreamInv.handleMessages_invariant]).
    - Member lists implement the protocol's relation between channels and nicknames
      ([UpstreamMembers.roster_refinement]).
    - Requests waiting for a server reply are a FIFO queue with each reply routed to its
      requester, while none is made more than 30 seconds after the one in progress; labels survive the trip through the server; a server that refuses every
      nickname ends the registration ([UpstreamPending]).
    - The in-memory store refines an append-only log with a capacity, message IDs and labels
      round-trip ([MemStore], [MsgID]).
    - Case-mapped maps are dictionaries up to case ([CaseMapping]); ranks stay ordered, modes
      and NAMES entries are parsed back from what is printed ([Membership], [Modes]); WHOX
      replies round-trip ([WhoX]); generated messages carry every target once within the
      protocol's limits ([GenMsg]); backoff delays double without overflow ([Backoff]); the
      highlight scan returns on every text and finds exactly delimited mentions ([Highlight]).
    - Nobody registers without authenticating, SASL responses are reassembled exactly and
      within bounds ([DownstreamAuth]); a labelled command gets exactly one labelled answer
      ([DownstreamLabel], [ClientLabel]); the differences of ISUPPORT tokens and capabilities sent to a client
      make it agree with the bouncer ([DownstreamMirror]).
    - The networks of a user keep distinct IDs and names, connections are bound to networks
      that exist, and the quota holds ([UserNetworksInv]).
    - A user who is not an administrator changes nobody else through BouncerServ; its recursion
      ends; the words of sojuctl arrive unchanged ([ServiceSafety], [ServiceWords]). The same
      holds of every command its clients can send, and the invariants of its networks survive
      them ([ClientSafety], for every invariant with the laws of the class [ClientInv]).
    - All users stay healthy, whatever sequence of events a user's goroutine handles
      ([UserLoopInv.user_loop_healthy]); a network tries to connect on the schedule of its
      back-off until it is stopped, disabled or refused for good
      ([NetworkRun.network_reconnects]); a pinned certificate admits exactly the servers that
      have it ([Dial.certificate_pinned]).
    - The files, days, lines and the ring of a history query are equivalent to filtering one
      list, as far back as no hundred days in a row are without a message; while no network
      is renamed, appending keeps the table of open files and gives IDs from which loading
      resumes exactly, within the limit and the same hundred days; deletion removes exactly the old logs; log lines read back ([FsHistory],
      [FsAppend], [FsDelete], [ZncLog]).
    - A deletion in the database removes exactly the rows of the user or nothing; a query for
      messages gives the window it asks for; a network that is stored is listed; a client
      resumes from the ID of a message ([SqliteDelete], [SqliteSpec], [SqliteRecords], [DbStore]).
    - PostgreSQL stores and deletes exactly the records it is told to, or changes nothing, and
      answers them ([PgHistory.postgres_records]), and gives no ID twice ([PgInv]); with the same
      records, it deletes and answers what SQLite does ([PgBackends]); it keeps all
      messages of a call or none and lists the window asked for and no number of its
      metric is about few networks ([PgHistory]); a database is upgraded by exactly the
      migrations it has not seen, or not at all ([DbUpgrade]).
    - Ident queries are answered for the connection they name ([Identd]); a configuration that
      loads is consistent ([Config]); a password is accepted only when a back end vouches for it
      ([Auth]); the administration socket refuses clients ([ServerRun]); exactly the
      inactive users are disabled, in the database too ([ServerTasks]); only dead push subscriptions are removed ([WebPush]).
    - In every interleaving of its goroutines, a connection writes messages in order and loses
      none before a shutdown, and every call on it ends ([Conn]); headers are believed from
      proxies only ([Websocket]); uploads make one new file, in the directory of a
      user whose name is a plain file name, and come back ([FileUploadSafe]).

    ** Bounds and fuel

    Loops over a string that advance by a decoded rune or a match, and [Split], take the
    length of the text as fuel; each step consumes a byte at least, and the theorems on them
    show that the fuel is enough (they relate the result to a specification on every input).
    BouncerServ runs commands of commands ("user run"), each shorter than the last: its fuel
    is the number of words. A history query stops after 100 days without a message, and each
    message found lowers the number that remains: its fuel is 100 rounds per message and 100
    more, which the theorems on it show to be enough.
    Sequence numbers, labels and durations are 64 bits wide; where a theorem needs that a
    counter does not wrap, it says so.

    ** Parameters

    The BARE codec of message IDs (class [Bare], a third-party package) with the law that
    decoding inverts encoding; the Unicode tables outside Latin-1 (class [UnicodeTables]); the
    environment of the event loop (class [env]); the time zone (class [zone]) with the laws of
    one whose days start at midnight; faults of the operating system (class [OsFaults]) and of
    the databases (classes [engine] and [pgengine]); full-text search and the order of equal rows
    (class [search_engine], and [pg_laws] for PostgreSQL); the scripts of an upgrade (class
    [scripts]); and one class per component for the libraries it calls ([sqlenv],
    [cfgenv], [authenv], [pushenv], [uploadenv], [wsenv]). Each theorem that depends on one has a
    witness at a concrete instance.

    ** Not modelled

    Sockets, TLS handshakes, deadlines, logging and most metrics, which only pass data on; the
    text of the migrations of both databases, which are SQL scripts (which of them run is in
    [DbUpgrade]); the set-up and shutdown of the processes in cmd/; and the one-off importers in
    contrib/. The methods of a database start from tables of its last version. Libraries the code calls (password hashing, PAM, HTTP, JSON,
    media types, URLs, X.509, WebSocket framing, push encryption) are parameters. The events
    of a user are a list: the channel that carries them, and the goroutines that fill it, are
    not modelled, and the registration of a server connection, which runs beside the user's
    loop, is one step of it. *)

From Stdlib Require Export ZArith Ascii Lia.
From stdpp Require Export base numbers strings gmap fin_maps sorting list list_basics list_relations list_monad list_misc list_tactics.

(** ** Scopes, tactics and hint databases *)

Declare Scope soju_scope.
Delimit Scope soju_scope with soju.

(** Lemmas that rewrite a term into the form the proofs work with. *)
Create HintDb soju discriminated.

(** Case analysis on the [decide] and [match] of a definition, clearing the
    impossible cases. *)
Ltac soju_cases :=
  repeat (first [ progress simplify_eq/= | case_decide | case_match ]).

(** Boolean conditions of the code as propositions. *)
Ltac bool_to_prop :=
  repeat match goal with
  | H : (_ && _)%bool = true |- _ => apply andb_true_iff in H; destruct H
  | H : (_ && _)%bool = false |- _ => apply andb_false_iff in H
  | H : (_ || _)%bool = false |- _ => apply orb_false_iff in H; destruct H
  | H : (_ || _)%bool = true |- _ => apply orb_true_iff in H
  | H : negb _ = true |- _ => apply negb_true_iff in H
  | H : negb _ = false |- _ => apply negb_false_iff in H
  | H : bool_decide _ = true |- _ => apply bool_decide_eq_true in H
  | H : bool_decide _ = false |- _ => apply bool_decide_eq_false in H
  | H : (_ <? _)%Z = true |- _ => apply Z.ltb_lt in H
  | H : (_ <? _)%Z = false |- _ => apply Z.ltb_ge in H
  | H : (_ <=? _)%Z = true |- _ => apply Z.leb_le in H
  | H : (_ <=? _)%Z = false |- _ => apply Z.leb_gt in H
  | H : (_ =? _)%Z = true |- _ => apply Z.eqb_eq in H
  | H : (_ =? _)%Z = false |- _ => apply Z.eqb_neq in H
  | H : (_ <? _)%nat = true |- _ => apply Nat.ltb_lt in H
  | H : (_ <? _)%nat = false |- _ => apply Nat.ltb_ge in H
  | H : (_ <=? _)%nat = true |- _ => apply Nat.leb_le in H
  | H : (_ <=? _)%nat = false |- _ => apply Nat.leb_gt in H
  | H : (_ =? _)%nat = true |- _ => apply Nat.eqb_eq in H
  | H : (_ =? _)%nat = false |- _ => apply Nat.eqb_neq in H
  end.

(** ** Outcomes of fallible code

    A Go function that returns [(T, error)] is a function into [res T]; a run-time
    panic (index out of range, [panic(...)]) is the third outcome. Error texts are
    the format strings of the source. *)

Inductive res (E A : Type) : Type :=
| Ok (a : A)
| Err (e : E)
| Panic (why : string).
Arguments Ok {E A} _.
Arguments Err {E A} _.
Arguments Panic {E A} _.

Definition res_bind {E A B} (f : A → res E B) (m : res E A) : res E B :=
  match m with
  | Ok a => f a
  | Err e => Err e
  | Panic w => Panic w
  end.

#[export] Instance res_mret E : MRet (res E) := λ A a, Ok a.
#[export] Instance res_mbind E : MBind (res E) := λ A B f m, res_bind f m.

Definition is_ok {E A} (r : res E A) : bool :=
  match r with Ok _ => true | _ => false end.

Lemma res_bind_ok {E A B} (f : A → res E B) m b :
  m ≫= f = Ok b → ∃ a, m = Ok a ∧ f a = Ok b.
Proof. destruct m; simpl; try discriminate. eauto. Qed.

Lemma res_bind_assoc {E A B C} (m : res E A) (f : A → res E B) (g : B → res E C) :
  (m ≫= f) ≫= g = m ≫= (λ a, f a ≫= g).
Proof. by destruct m. Qed.

(** ** Record updates

    [setter eta proj] is the function that replaces the field [proj] of a record, given the
    expansion [eta] of a record into its constructor applied to its projections. *)
Ltac setter eta proj :=
  let e := eval unfold eta in eta in
  let e := eval pattern proj in e in
  match e with
  | ?F proj => let r := eval cbv beta in (fun v x => F (fun _ => v) x) in exact r
  end.

(** ** Machine integers *)

Definition uint64_mod : Z := 2 ^ 64.
Definition wrap_u64 (z : Z) : Z := z mod uint64_mod.
Definition wrap_i64 (z : Z) : Z := (z + 2 ^ 63) mod 2 ^ 64 - 2 ^ 63.

Lemma wrap_u64_small z : (0 ≤ z < uint64_mod)%Z → wrap_u64 z = z.
Proof. apply Z.mod_small. Qed.

Lemma wrap_u64_bounds z : (0 ≤ wrap_u64 z < uint64_mod)%Z.
Proof. apply Z.mod_pos_bound. unfold uint64_mod. lia. Qed.

Lemma wrap_i64_small z : (- 2 ^ 63 ≤ z < 2 ^ 63)%Z → wrap_i64 z = z.
Proof. intros. unfold wrap_i64. rewrite Z.mod_small; lia. Qed.

Lemma wrap_i64_bounds z : (- 2 ^ 63 ≤ wrap_i64 z < 2 ^ 63)%Z.
Proof.
  unfold wrap_i64. pose proof (Z.mod_pos_bound (z + 2 ^ 63) (2 ^ 64)). lia.
Qed.

#[export] Hint Resolve wrap_u64_bounds wrap_i64_bounds : soju.

(** ** Lists *)

Section lists.
Context {A : Type}.
Implicit Types l : list A.

(** The last [n] elements. *)
Definition lastn (n : nat) l : list A := drop (length l - n) l.

Lemma lastn_all n l : (length l ≤ n)%nat → lastn n l = l.
Proof. intros. unfold lastn. by replace (length l - n)%nat with 0%nat by lia. Qed.

Lemma length_lastn n l : length (lastn n l) = Nat.min n (length l).
Proof. unfold lastn. rewrite length_drop. lia. Qed.

Lemma lookup_lastn n l i :
  lastn n l !! i = l !! (length l - n + i)%nat.
Proof. unfold lastn. by rewrite lookup_drop. Qed.

Lemma lastn_lastn n m l : (n ≤ m)%nat → lastn n (lastn m l) = lastn n l.
Proof.
  intros. unfold lastn. rewrite drop_drop, length_drop.
  f_equal. lia.
Qed.

Lemma lastn_app_r n l k :
  lastn n (l ++ k) =
  if decide (n ≤ length k)%nat then lastn n k else lastn (n - length k) l ++ k.
Proof.
  unfold lastn. rewrite length_app. case_decide.
  - rewrite drop_app_ge by lia. f_equal. lia.
  - rewrite drop_app_le by lia. f_equal. f_equal. lia.
Qed.

Lemma lastn_suffix n l : lastn n l `suffix_of` l.
Proof. apply suffix_drop. Qed.

(** Boolean search with its specification. *)
Lemma existsb_elem_of (P : A → bool) l :
  existsb P l = true ↔ ∃ x, x ∈ l ∧ P x = true.
Proof. rewrite existsb_exists. by setoid_rewrite list_elem_of_In. Qed.

Lemma existsb_elem_of_false (P : A → bool) l :
  existsb P l = false ↔ ∀ x, x ∈ l → P x = false.
Proof.
  rewrite <-not_true_iff_false, existsb_elem_of. split.
  - intros H x Hx. destruct (P x) eqn:E; [|done]. destruct H. eauto.
  - intros H (x & Hx & Hp). by rewrite H in Hp.
Qed.
End lists.

Lemma mjoin_cons {A} (x : list A) (l : list (list A)) : mjoin (x :: l) = x ++ mjoin l.
Proof. done. Qed.
