(* ===== verification/GoStrings.v ===== *)
(** * The parts of Go's [strings] and [strconv] packages the bouncer uses

    A Go string is an immutable byte sequence: [string], whose characters are the
    eight-bit [ascii]. Functions carry the names of the Go functions they model. *)

From S2P Require Import Prelude.

Open Scope string_scope.
Open Scope list_scope.

Definition byte_val (c : ascii) : Z := Z.of_nat (nat_of_ascii c).
Definition byte_of (z : Z) : ascii := ascii_of_nat (Z.to_nat z).

(** [len(s)] *)
Abbreviation slen := String.length.

#[global] Arguments String.append !_ _ / : simpl nomatch.

(** [s[:n]] and [s[n:]] for [n <= len(s)]. *)
Fixpoint str_take (n : nat) (s : string) : string :=
  match n, s with
  | S n', String c s' => String c (str_take n' s')
  | _, _ => ""
  end.

Fixpoint str_drop (n : nat) (s : string) : string :=
  match n, s with
  | O, _ => s
  | S n', String _ s' => str_drop n' s'
  | S _, EmptyString => ""
  end.

Fixpoint str_list (s : string) : list ascii :=
  match s with "" => [] | String c s' => c :: str_list s' end.

Fixpoint str_of_list (l : list ascii) : string :=
  match l with [] => "" | c :: l' => String c (str_of_list l') end.

Definition str_rev (s : string) : string := str_of_list (reverse (str_list s)).

Fixpoint str_mem (c : ascii) (s : string) : bool :=
  match s with "" => false | String d s' => bool_decide (c = d) || str_mem c s' end.

Definition HasPrefix (s p : string) : bool := String.prefix p s.
#[global] Arguments HasPrefix : simpl never.
Definition TrimPrefix (s p : string) : string :=
  if HasPrefix s p then str_drop (slen p) s else s.
Definition HasSuffix (s p : string) : bool :=
  (slen p <=? slen s)%nat && bool_decide (str_drop (slen s - slen p) s = p).
Definition TrimSuffix (s p : string) : string :=
  if HasSuffix s p then str_take (slen s - slen p) s else s.

(** [strings.IndexByte], with [None] for -1. *)
Fixpoint IndexByte (s : string) (c : ascii) : option nat :=
  match s with
  | "" => None
  | String d s' => if decide (d = c) then Some O else S <$> IndexByte s' c
  end.

(** [strings.IndexAny] and [strings.LastIndexAny] for a set of ASCII characters. *)
Fixpoint IndexAny (s chars : string) : option nat :=
  match s with
  | "" => None
  | String c s' => if str_mem c chars then Some 0%nat else S <$> IndexAny s' chars
  end.
Fixpoint LastIndexAny (s chars : string) : option nat :=
  match s with
  | "" => None
  | String c s' =>
    match LastIndexAny s' chars with
    | Some i => Some (S i)
    | None => if str_mem c chars then Some 0%nat else None
    end
  end.

(** [strings.Cut]: the text before and after the first instance of [sep]. *)
Fixpoint Cut (s sep : string) : option (string * string) :=
  if HasPrefix s sep then Some ("", str_drop (slen sep) s)
  else match s with
  | "" => None
  | String c s' =>
    match Cut s' sep with
    | Some (a, b) => Some (String c a, b)
    | None => None
    end
  end.

(** [strings.Index], with [None] for -1. *)
Definition Index (s sep : string) : option nat :=
  match Cut s sep with Some (a, _) => Some (slen a) | None => None end.

Definition Contains (s sep : string) : bool :=
  match Cut s sep with Some _ => true | None => false end.

(** At most [n] cuts, hence at most [S n] pieces. *)
Fixpoint split_upto (n : nat) (s sep : string) : list string :=
  match n with
  | O => [s]
  | S n' =>
    match Cut s sep with
    | Some (a, b) => a :: split_upto n' b sep
    | None => [s]
    end
  end.

(** [strings.SplitN(s, sep, n)] for [n > 0] and [sep != ""]. *)
Definition SplitN (s sep : string) (n : nat) : list string := split_upto (n - 1) s sep.

(** [strings.Split(s, sep)] for [sep != ""]: every cut consumes a byte, so [len(s)]
    cuts are enough. *)
Definition Split (s sep : string) : list string := split_upto (slen s) s sep.

Fixpoint Join (l : list string) (sep : string) : string :=
  match l with
  | [] => ""
  | [s] => s
  | s :: l' => s +:+ sep +:+ Join l' sep
  end.

(** [strings.TrimLeft] and [strings.Trim] for ASCII cutsets. *)
Fixpoint TrimLeft (s cutset : string) : string :=
  match s with
  | "" => ""
  | String c s' => if str_mem c cutset then TrimLeft s' cutset else s
  end.

Definition TrimRight (s cutset : string) : string := str_rev (TrimLeft (str_rev s) cutset).
Definition Trim (s cutset : string) : string := TrimRight (TrimLeft s cutset) cutset.

(** [strings.ReplaceAll] of one byte by another. *)
Fixpoint ReplaceByte (s : string) (old new : ascii) : string :=
  match s with
  | "" => ""
  | String c s' => String (if decide (c = old) then new else c) (ReplaceByte s' old new)
  end.

(** A [strings.Replacer]: at each position the first pattern that matches, in
    argument order, is replaced; matches do not overlap. The fuel counts input
    bytes, and every pattern is non-empty. *)
Fixpoint replacer_match (pats : list (string * string)) (s : string) : option (string * string) :=
  match pats with
  | [] => None
  | (old, new) :: pats' =>
    if HasPrefix s old then Some (new, str_drop (slen old) s) else replacer_match pats' s
  end.

Fixpoint replacer_go (fuel : nat) (pats : list (string * string)) (s : string) : string :=
  match fuel with
  | O => s
  | S fuel' =>
    match replacer_match pats s with
    | Some (new, rest) => new +:+ replacer_go fuel' pats rest
    | None =>
      match s with
      | "" => ""
      | String c s' => String c (replacer_go fuel' pats s')
      end
    end
  end.

Definition Replacer (pats : list (string * string)) (s : string) : string :=
  replacer_go (slen s) pats s.

(** ** Numbers *)

Definition is_digit (c : ascii) : bool :=
  (48 <=? byte_val c)%Z && (byte_val c <=? 57)%Z.
Definition digit_val (c : ascii) : Z := byte_val c - 48.

Fixpoint digits_val (acc : Z) (s : string) : option Z :=
  match s with
  | "" => Some acc
  | String c s' => if is_digit c then digits_val (acc * 10 + digit_val c) s' else None
  end.

(** [strconv.ParseUint(s, 10, 64)]; the error is [None]. *)
Definition ParseUint64 (s : string) : option Z :=
  match s with
  | "" => None
  | _ =>
    match digits_val 0 s with
    | Some v => if (v <? uint64_mod)%Z then Some v else None
    | None => None
    end
  end.

(** [strconv.ParseInt(s, 10, 64)] and [strconv.Atoi] on a 64-bit platform. *)
Definition ParseInt64 (s : string) : option Z :=
  let '(neg, body) :=
    match s with
    | String "+" s' => (false, s')
    | String "-" s' => (true, s')
    | _ => (false, s)
    end in
  match body with
  | "" => None
  | _ =>
    match digits_val 0 body with
    | Some v =>
      if neg then (if (v <=? 2 ^ 63)%Z then Some (- v)%Z else None)
      else (if (v <? 2 ^ 63)%Z then Some v else None)
    | None => None
    end
  end.
Definition Atoi := ParseInt64.

(** The value [strconv.Atoi] returns beside its error: the nearest bound when the number does
    not fit, zero when the text is no number. *)
Definition Atoi_err (s : string) : Z :=
  let '(neg, body) :=
    match s with
    | String "+" s' => (false, s')
    | String "-" s' => (true, s')
    | _ => (false, s)
    end in
  match body with
  | "" => 0
  | _ => match digits_val 0 body with
         | Some _ => if neg then (- 2 ^ 63)%Z else (2 ^ 63 - 1)%Z
         | None => 0
         end
  end.

(** Decimal rendering of a non-negative integer ([%d], [%v]). *)
Definition digit_of (z : Z) : ascii := byte_of (z + 48).

Fixpoint format_go (fuel : nat) (z : Z) (acc : string) : string :=
  match fuel with
  | O => acc
  | S fuel' =>
    let acc' := String (digit_of (z mod 10)) acc in
    if (z <? 10)%Z then acc' else format_go fuel' (z / 10) acc'
  end.

(** 20 digits are enough for every [uint64]. *)
Definition FormatUint (z : Z) : string := format_go 20 z "".
Definition FormatInt (z : Z) : string :=
  if (z <? 0)%Z then String "-" (FormatUint (- z)) else FormatUint z.

(** [%02d] of a number below 100. *)
Definition Format02 (z : Z) : string :=
  String (digit_of (z / 10)) (String (digit_of (z mod 10)) "").

(** ** Lemmas *)

Lemma str_app_assoc s1 s2 s3 : (s1 +:+ s2) +:+ s3 = s1 +:+ s2 +:+ s3.
Proof. induction s1; simpl; congruence. Qed.

Lemma str_app_nil_r s : s +:+ "" = s.
Proof. induction s; simpl; congruence. Qed.

Lemma slen_app s1 s2 : slen (s1 +:+ s2) = (slen s1 + slen s2)%nat.
Proof. induction s1; simpl; congruence. Qed.

Lemma slen_zero s : slen s = 0%nat → s = "".
Proof. by destruct s. Qed.

Lemma str_take_drop n s : str_take n s +:+ str_drop n s = s.
Proof. revert s. induction n; intros []; simpl; congruence. Qed.

Lemma slen_take n s : slen (str_take n s) = Nat.min n (slen s).
Proof. revert s. induction n; intros []; simpl; try done. by rewrite IHn. Qed.

Lemma slen_drop n s : slen (str_drop n s) = (slen s - n)%nat.
Proof. revert s. induction n; intros []; simpl; try done. Qed.

Lemma str_drop_app s1 s2 : str_drop (slen s1) (s1 +:+ s2) = s2.
Proof. induction s1; simpl; congruence. Qed.

Lemma str_take_app s1 s2 : str_take (slen s1) (s1 +:+ s2) = s1.
Proof. induction s1; simpl; [by destruct s2|congruence]. Qed.

Lemma str_take_all n s : (slen s ≤ n)%nat → str_take n s = s.
Proof.
  revert s. induction n; intros []; simpl; intros; try done; [lia|].
  rewrite IHn; [done|lia].
Qed.

Lemma str_drop_all n s : (slen s ≤ n)%nat → str_drop n s = "".
Proof.
  revert s. induction n; intros []; simpl; intros; try done; [lia|].
  apply IHn. lia.
Qed.

Lemma str_of_list_of s : str_of_list (str_list s) = s.
Proof. induction s; simpl; congruence. Qed.

Lemma str_list_of l : str_list (str_of_list l) = l.
Proof. induction l; simpl; congruence. Qed.

Lemma str_list_app s1 s2 : str_list (s1 +:+ s2) = str_list s1 ++ str_list s2.
Proof. induction s1; simpl; congruence. Qed.

Lemma str_of_list_app l1 l2 : str_of_list (l1 ++ l2) = str_of_list l1 +:+ str_of_list l2.
Proof. induction l1; simpl; congruence. Qed.

Lemma str_mem_spec c s : str_mem c s = true ↔ c ∈ str_list s.
Proof.
  induction s; simpl; [by rewrite elem_of_nil|].
  by rewrite orb_true_iff, bool_decide_eq_true, elem_of_cons, IHs.
Qed.

Lemma str_mem_app c s1 s2 : str_mem c (s1 +:+ s2) = str_mem c s1 || str_mem c s2.
Proof. induction s1; simpl; [done|]. rewrite IHs1. by destruct bool_decide. Qed.

(** Reversal. *)
Lemma str_rev_rev s : str_rev (str_rev s) = s.
Proof. unfold str_rev. by rewrite str_list_of, reverse_involutive, str_of_list_of. Qed.
Lemma str_rev_app s t : str_rev (s +:+ t) = str_rev t +:+ str_rev s.
Proof. unfold str_rev. by rewrite str_list_app, reverse_app, str_of_list_app. Qed.
Lemma str_mem_rev c s : str_mem c (str_rev s) = str_mem c s.
Proof.
  assert (∀ t, str_mem c t = bool_decide (c ∈ str_list t)) as Hm.
  { intros t. induction t as [|d t IH]; cbn; [done|]. rewrite IH. apply eq_bool_prop_intro.
    rewrite orb_True, !bool_decide_spec, elem_of_cons. naive_solver. }
  rewrite !Hm. unfold str_rev. rewrite str_list_of. apply bool_decide_ext. apply elem_of_reverse.
Qed.

Lemma HasPrefix_spec s p : HasPrefix s p = true ↔ ∃ r, s = p +:+ r.
Proof.
  unfold HasPrefix. revert s. induction p as [|c p IH]; intros [|d s]; simpl.
  - split; [by exists ""|done].
  - split; [by eexists|done].
  - split; [done|by intros [r ?]].
  - destruct (ascii_dec c d) as [->|].
    + rewrite IH. split; intros [r Hr]; exists r; simplify_eq/=; congruence.
    + split; [done|]. intros [r ?]. simplify_eq/=.
Qed.

Lemma HasPrefix_app p r : HasPrefix (p +:+ r) p = true.
Proof. apply HasPrefix_spec. by exists r. Qed.

Lemma TrimPrefix_app p r : TrimPrefix (p +:+ r) p = r.
Proof. unfold TrimPrefix. by rewrite HasPrefix_app, str_drop_app. Qed.

Lemma HasPrefix_String c s d p :
  HasPrefix (String c s) (String d p) = bool_decide (c = d) && HasPrefix s p.
Proof.
  unfold HasPrefix. simpl. destruct (ascii_dec d c), (bool_decide_reflect (c = d)); congruence || done.
Qed.

Lemma HasPrefix_nil s : HasPrefix s "" = true.
Proof. by destruct s. Qed.

Lemma HasPrefix_char s c : HasPrefix s (String c "") = true ↔ ∃ r, s = String c r.
Proof. rewrite HasPrefix_spec. done. Qed.

Lemma HasSuffix_app s p : HasSuffix (s +:+ p) p = true.
Proof.
  unfold HasSuffix. rewrite slen_app.
  apply andb_true_intro. split; [apply Nat.leb_le; lia|].
  replace (slen s + slen p - slen p)%nat with (slen s) by lia.
  rewrite str_drop_app. by apply bool_decide_eq_true.
Qed.

Lemma TrimSuffix_app s p : TrimSuffix (s +:+ p) p = s.
Proof.
  unfold TrimSuffix. rewrite HasSuffix_app, slen_app.
  replace (slen s + slen p - slen p)%nat with (slen s) by lia.
  apply str_take_app.
Qed.

(** *** Cutting and splitting *)

Lemma Cut_sound s sep a b : Cut s sep = Some (a, b) → s = a +:+ sep +:+ b.
Proof.
  revert a b. induction s as [|c s IH]; intros a b; simpl.
  - destruct (HasPrefix "" sep) eqn:E; [|done].
    apply HasPrefix_spec in E as [r Hr].
    destruct sep; simplify_eq/=. by intros [= <- <-].
  - destruct (HasPrefix (String c s) sep) eqn:E.
    + apply HasPrefix_spec in E as [r Hr]. intros [= <- <-].
      by rewrite Hr, str_drop_app.
    + destruct (Cut s sep) as [[a' b']|]; [|done].
      intros [= <- <-]. simpl. f_equal. by apply IH.
Qed.

(** Cutting at a one-byte separator that does not occur before. *)
Lemma Cut_char_app c a b :
  str_mem c a = false → Cut (a +:+ String c b) (String c "") = Some (a, b).
Proof.
  induction a as [|d a IH]; simpl; intros Hm.
  - unfold HasPrefix. simpl. destruct ascii_dec; [|done].
    by destruct b.
  - apply orb_false_iff in Hm as [Hne Hm]. apply bool_decide_eq_false in Hne.
    unfold HasPrefix. simpl. destruct ascii_dec; [congruence|].
    by rewrite IH.
Qed.

Lemma Cut_char_none c s : str_mem c s = false → Cut s (String c "") = None.
Proof.
  induction s as [|d s IH]; simpl; [done|]. intros Hm.
  apply orb_false_iff in Hm as [Hne Hm]. apply bool_decide_eq_false in Hne.
  unfold HasPrefix. simpl. destruct ascii_dec; [congruence|]. by rewrite IH.
Qed.

Lemma Cut_char_before c s a b :
  Cut s (String c "") = Some (a, b) → str_mem c a = false ∧ s = a +:+ String c b.
Proof.
  intros H. split; [|by apply Cut_sound in H]. revert a b H.
  induction s as [|d s IH]; intros a b; simpl; [done|].
  unfold HasPrefix. simpl. destruct ascii_dec as [->|Hne].
  - destruct s; intros H; by simplify_eq/=.
  - destruct (Cut s (String c "")) as [[a' b']|] eqn:E; [|done].
    intros [= <- <-]. simpl. apply orb_false_iff. split; [|by eapply IH].
    by apply bool_decide_eq_false.
Qed.

Lemma Join_cons s l sep :
  l ≠ [] → Join (s :: l) sep = s +:+ sep +:+ Join l sep.
Proof. by destruct l. Qed.

Lemma split_upto_join c l n :
  l ≠ [] → Forall (λ s, str_mem c s = false) l → (length l ≤ S n)%nat →
  split_upto n (Join l (String c "")) (String c "") = l.
Proof.
  intros Hl Hf. revert n Hl. induction Hf as [|s l Hs Hf IH]; intros n Hl Hn; [done|].
  destruct l as [|t l].
  - simpl. destruct n; simpl; [done|]. by rewrite Cut_char_none.
  - rewrite Join_cons by done. destruct n as [|n]; simpl in Hn; [lia|].
    cbn [split_upto]. change (String c "" +:+ ?x) with (String c x).
    rewrite Cut_char_app by done. f_equal. apply IH; [done|simpl; lia].
Qed.

Lemma slen_Join l c :
  (length l ≤ S (slen (Join l (String c ""))))%nat.
Proof.
  induction l as [|s [|t l] IH]; [simpl; lia|simpl; lia|].
  rewrite Join_cons, !slen_app by done.
  change (slen (String c "")) with 1%nat. cbn [length] in *. lia.
Qed.

(** Splitting undoes joining when the separator occurs in no element. *)
Lemma Split_Join c l :
  l ≠ [] → Forall (λ s, str_mem c s = false) l →
  Split (Join l (String c "")) (String c "") = l.
Proof. intros. apply split_upto_join; [done..|]. apply slen_Join. Qed.

Lemma split_upto_Join_inv n s sep : Join (split_upto n s sep) sep = s.
Proof.
  revert s. induction n as [|n IH]; intros s; simpl; [done|].
  destruct (Cut s sep) as [[a b]|] eqn:E; [|done].
  apply Cut_sound in E as ->. specialize (IH b).
  rewrite Join_cons; [by rewrite IH|]. destruct n; simpl; [done|].
  by destruct (Cut b sep) as [[]|].
Qed.

(** Joining undoes splitting. *)
Lemma Join_Split s sep : Join (Split s sep) sep = s.
Proof. apply split_upto_Join_inv. Qed.

Lemma length_split_upto n s sep : (length (split_upto n s sep) ≤ S n)%nat.
Proof.
  revert s. induction n; intros s; simpl; [lia|].
  destruct (Cut s sep) as [[]|]; simpl; [|lia]. specialize (IHn s1). lia.
Qed.

Lemma split_upto_nonempty n s sep : split_upto n s sep ≠ [].
Proof. destruct n; simpl; [done|]. by destruct (Cut s sep) as [[]|]. Qed.

Lemma Join_app l1 l2 sep :
  l1 ≠ [] → l2 ≠ [] → Join (l1 ++ l2) sep = Join l1 sep +:+ sep +:+ Join l2 sep.
Proof.
  intros H1 H2. induction l1 as [|s l1 IH]; [done|].
  destruct l1 as [|t l1].
  - simpl. by destruct l2.
  - rewrite <-app_comm_cons, !Join_cons by (simpl; done).
    by rewrite IH, !str_app_assoc.
Qed.

Lemma IndexByte_spec s c :
  match IndexByte s c with
  | Some i => (i < slen s)%nat ∧ s = str_take i s +:+ String c (str_drop (S i) s)
              ∧ str_mem c (str_take i s) = false
  | None => str_mem c s = false
  end.
Proof.
  induction s as [|d s IH]; simpl; [done|]. case_decide as Hd.
  - subst. simpl. split; [lia|]. by destruct s.
  - destruct (IndexByte s c) as [i|]; simpl.
    + destruct IH as (? & Heq & Hm). split_and!; [lia| |].
      * f_equal. exact Heq.
      * by rewrite Hm, bool_decide_eq_false_2.
    + by rewrite IH, bool_decide_eq_false_2.
Qed.

(** *** Numbers *)

Lemma byte_val_bounds c : (0 ≤ byte_val c < 256)%Z.
Proof. unfold byte_val. pose proof (nat_ascii_bounded c). lia. Qed.

Lemma byte_val_of z : (0 ≤ z < 256)%Z → byte_val (byte_of z) = z.
Proof. intros. unfold byte_val, byte_of. rewrite nat_ascii_embedding; lia. Qed.

Lemma byte_of_val c : byte_of (byte_val c) = c.
Proof. unfold byte_of, byte_val. by rewrite Nat2Z.id, ascii_nat_embedding. Qed.

Lemma byte_val_inj c d : byte_val c = byte_val d → c = d.
Proof. intros H. by rewrite <-(byte_of_val c), H, byte_of_val. Qed.

Lemma digit_of_val z : (0 ≤ z < 10)%Z → byte_val (digit_of z) = (z + 48)%Z.
Proof. intros. apply byte_val_of. lia. Qed.

Lemma digit_of_is_digit z : (0 ≤ z < 10)%Z → is_digit (digit_of z) = true.
Proof.
  intros. unfold is_digit. rewrite digit_of_val by done.
  apply andb_true_intro; split; apply Z.leb_le; lia.
Qed.

Lemma digits_val_digit acc z s :
  (0 ≤ z < 10)%Z → digits_val acc (String (digit_of z) s) = digits_val (acc * 10 + z) s.
Proof.
  intros. simpl. rewrite digit_of_is_digit by done. unfold digit_val.
  rewrite digit_of_val by done. f_equal. lia.
Qed.

Lemma digits_val_format fuel z s :
  (0 ≤ z < 10 ^ Z.of_nat fuel)%Z →
  ∃ k, ∀ acc, digits_val acc (format_go fuel z s) = digits_val (acc * k + z) s.
Proof.
  revert z s. induction fuel as [|fuel IH]; intros z s Hz.
  - simpl in *. exists 1%Z. intros acc. f_equal. lia.
  - cbn [format_go]. destruct (z <? 10)%Z eqn:E; bool_to_prop.
    + exists 10%Z. intros acc. rewrite Z.mod_small, digits_val_digit by lia. done.
    + rewrite Nat2Z.inj_succ, Z.pow_succ_r in Hz by lia.
      destruct (IH (z / 10)%Z (String (digit_of (z mod 10)) s)) as [k Hk].
      { split; [apply Z.div_pos; lia|apply Z.div_lt_upper_bound; lia]. }
      exists (k * 10)%Z. intros acc.
      rewrite Hk, digits_val_digit by (apply Z.mod_pos_bound; lia).
      f_equal. pose proof (Z.div_mod z 10). lia.
Qed.

Lemma format_go_cons fuel z c s : format_go fuel z (String c s) ≠ "".
Proof.
  revert z c s. induction fuel as [|f IH]; intros z c s; simpl; [discriminate|].
  destruct (z <? 10)%Z; [discriminate|apply IH].
Qed.

Lemma FormatUint_nonempty z : FormatUint z ≠ "".
Proof.
  unfold FormatUint. change 20%nat with (S 19). generalize 19%nat. intros f.
  change (format_go (S f) z "") with
    (let acc := String (digit_of (z mod 10)) "" in
     if (z <? 10)%Z then acc else format_go f (z / 10) acc).
  simpl. destruct (z <? 10)%Z; [discriminate|apply format_go_cons].
Qed.

(** Parsing undoes printing on every [uint64]. *)
Lemma ParseUint64_FormatUint z :
  (0 ≤ z < uint64_mod)%Z → ParseUint64 (FormatUint z) = Some z.
Proof.
  intros Hz. pose proof (FormatUint_nonempty z) as Hne.
  assert (digits_val 0 (FormatUint z) = Some z) as Hd.
  { destruct (digits_val_format 20 z "") as [k Hk]; [unfold uint64_mod in Hz; lia|].
    unfold FormatUint. by rewrite Hk. }
  unfold ParseUint64. generalize dependent (FormatUint z). intros f Hne Hd.
  destruct f as [|c f]; [done|]. rewrite Hd.
  by rewrite (proj2 (Z.ltb_lt _ _)) by lia.
Qed.

Lemma format_go_digits fuel z s c :
  (0 ≤ z)%Z → str_mem c (format_go fuel z s) = true → is_digit c = true ∨ str_mem c s = true.
Proof.
  revert z s. induction fuel as [|f IH]; intros z s Hz; simpl; [tauto|].
  assert (is_digit (digit_of (z mod 10)) = true) as Hd
    by (apply digit_of_is_digit, Z.mod_pos_bound; lia).
  destruct (z <? 10)%Z.
  - simpl. intros [H|H]%orb_true_iff; [|tauto]. apply bool_decide_eq_true in H as ->. tauto.
  - intros [H|H]%IH; [tauto| |apply Z.div_pos; lia]. simpl in H.
    apply orb_true_iff in H as [H|H]; [|tauto]. apply bool_decide_eq_true in H as ->. tauto.
Qed.

Lemma FormatUint_no_char z c :
  (0 ≤ z)%Z → is_digit c = false → str_mem c (FormatUint z) = false.
Proof.
  intros Hz Hc. destruct (str_mem c (FormatUint z)) eqn:E; [|done].
  apply format_go_digits in E as [E|E]; [congruence|done|done].
Qed.
