(* ===== verification/GoUnicode.v ===== *)
(** * UTF-8 and Unicode as the bouncer's code sees them

    Runes are integers. Decoding and encoding follow [unicode/utf8]; [IsSpace] is
    complete. The letter and number tables and the case-mapping tables beyond
    ASCII/Latin-1 are large data files of the Go distribution: they are the fields of
    the class [UnicodeTables], an argument of the functions that consult them.
    The last part is about UTF-8 text and [strings.ToValidUTF8]. *)

From S2P Require Import Prelude GoStrings.

Open Scope string_scope.
Open Scope list_scope.
Open Scope Z_scope.

Definition RuneError : Z := 65533.
Definition RuneSelf : Z := 128.

Definition in_range (lo hi v : Z) : bool := (lo <=? v) && (v <=? hi).
Definition is_cont (c : ascii) : bool := in_range 128 191 (byte_val c).

(** [utf8.RuneStart] *)
Definition RuneStart (c : ascii) : bool := negb (is_cont c).

(** The number of bytes of the sequence [b0] starts and the range of its second
    byte; [None] for a byte that starts no sequence. *)
Definition utf8_first (b0 : Z) : option (nat * Z * Z) :=
  if in_range 194 223 b0 then Some (2%nat, 128, 191)
  else if b0 =? 224 then Some (3%nat, 160, 191)
  else if in_range 225 236 b0 then Some (3%nat, 128, 191)
  else if b0 =? 237 then Some (3%nat, 128, 159)
  else if in_range 238 239 b0 then Some (3%nat, 128, 191)
  else if b0 =? 240 then Some (4%nat, 144, 191)
  else if in_range 241 243 b0 then Some (4%nat, 128, 191)
  else if b0 =? 244 then Some (4%nat, 128, 143)
  else None.

(** [utf8.DecodeRuneInString] *)
Definition DecodeRune (s : string) : Z * nat :=
  match s with
  | "" => (RuneError, 0%nat)
  | String c0 s1 =>
    let b0 := byte_val c0 in
    if b0 <? RuneSelf then (b0, 1%nat) else
    match utf8_first b0, s1 with
    | Some (2%nat, lo, hi), String c1 _ =>
      if in_range lo hi (byte_val c1)
      then ((b0 - 192) * 64 + (byte_val c1 - 128), 2%nat) else (RuneError, 1%nat)
    | Some (3%nat, lo, hi), String c1 (String c2 _) =>
      if in_range lo hi (byte_val c1) && is_cont c2
      then ((b0 - 224) * 4096 + (byte_val c1 - 128) * 64 + (byte_val c2 - 128), 3%nat)
      else (RuneError, 1%nat)
    | Some (4%nat, lo, hi), String c1 (String c2 (String c3 _)) =>
      if in_range lo hi (byte_val c1) && is_cont c2 && is_cont c3
      then ((b0 - 240) * 262144 + (byte_val c1 - 128) * 4096
            + (byte_val c2 - 128) * 64 + (byte_val c3 - 128), 4%nat)
      else (RuneError, 1%nat)
    | _, _ => (RuneError, 1%nat)
    end
  end.

(** [utf8.DecodeLastRuneInString]: look back over at most three continuation bytes
    for the start of the last sequence. *)
Fixpoint last_start (back : nat) (start : nat) (s : string) : nat :=
  match back, start with
  | S back', S start' =>
    match String.get start' s with
    | Some c => if RuneStart c then start' else last_start back' start' s
    | None => start'
    end
  | _, _ => start
  end.

Definition DecodeLastRune (s : string) : Z * nat :=
  match slen s with
  | O => (RuneError, 0%nat)
  | S last =>
    match String.get last s with
    | None => (RuneError, 0%nat)
    | Some c =>
      if byte_val c <? RuneSelf then (byte_val c, 1%nat) else
      let start := last_start 3 last s in
      let '(r, size) := DecodeRune (str_drop start s) in
      if (start + size =? slen s)%nat then (r, size) else (RuneError, 1%nat)
    end
  end.

(** [string(rune)], [utf8.AppendRune]: surrogates and out-of-range values encode
    [RuneError]. *)
Definition encode_valid (r : Z) : string :=
  if r <? 128 then String (byte_of r) ""
  else if r <? 2048 then
    String (byte_of (192 + r / 64)) (String (byte_of (128 + r mod 64)) "")
  else if r <? 65536 then
    String (byte_of (224 + r / 4096))
      (String (byte_of (128 + (r / 64) mod 64)) (String (byte_of (128 + r mod 64)) ""))
  else
    String (byte_of (240 + r / 262144))
      (String (byte_of (128 + (r / 4096) mod 64))
        (String (byte_of (128 + (r / 64) mod 64)) (String (byte_of (128 + r mod 64)) ""))).

Definition EncodeRune (r : Z) : string :=
  if (r <? 0) || (1114111 <? r) || in_range 55296 57343 r
  then encode_valid RuneError else encode_valid r.

(** [for _, r := range s]: every step consumes at least a byte. *)
Fixpoint runes_go (fuel : nat) (s : string) : list Z :=
  match fuel, s with
  | S fuel', String _ _ =>
    let '(r, size) := DecodeRune s in r :: runes_go fuel' (str_drop size s)
  | _, _ => []
  end.
Definition runes (s : string) : list Z := runes_go (slen s) s.

Fixpoint str_concat (l : list string) : string :=
  match l with [] => "" | s :: l' => s +:+ str_concat l' end.

(** [strings.Map]; [None] stands for a negative result, which drops the rune. *)
Definition strings_Map (f : Z → option Z) (s : string) : string :=
  str_concat (omap (λ r, EncodeRune <$> f r) (runes s)).

(** [unicode.IsSpace] *)
Definition IsSpace (r : Z) : bool :=
  if r <=? 255 then in_range 9 13 r || (r =? 32) || (r =? 133) || (r =? 160)
  else (r =? 5760) || in_range 8192 8202 r || (r =? 8232) || (r =? 8233)
       || (r =? 8239) || (r =? 8287) || (r =? 12288).

Fixpoint is_ascii (s : string) : bool :=
  match s with "" => true | String c s' => (byte_val c <? RuneSelf) && is_ascii s' end.

Class UnicodeTables := {
  table_letter : Z → bool;     (* Letter, beyond Latin-1 *)
  table_print : Z → bool;      (* strconv.IsPrint, beyond Latin-1 *)
  table_number : Z → bool;     (* Number, beyond Latin-1 *)
  table_lower : Z → Z;         (* LowerCase, beyond ASCII *)
  table_upper : Z → Z;         (* UpperCase, beyond ASCII *)
  table_fold : string → string → bool  (* EqualFold with a non-ASCII argument *)
}.

Section unicode.
Context `{UnicodeTables}.

(** [unicode.IsLetter] and [unicode.IsNumber]: Latin-1 is decided by a property
    table, larger runes by the range tables. *)
Definition IsLetter (r : Z) : bool :=
  if r <=? 255 then
    in_range 65 90 r || in_range 97 122 r || (r =? 170) || (r =? 181) || (r =? 186)
    || in_range 192 214 r || in_range 216 246 r || in_range 248 255 r
  else table_letter r.

Definition IsNumber (r : Z) : bool :=
  if r <=? 255 then
    in_range 48 57 r || (r =? 178) || (r =? 179) || (r =? 185) || in_range 188 190 r
  else table_number r.

Definition rune_lower (r : Z) : Z :=
  if r <=? 127 then (if in_range 65 90 r then r + 32 else r) else table_lower r.
Definition rune_upper (r : Z) : Z :=
  if r <=? 127 then (if in_range 97 122 r then r - 32 else r) else table_upper r.

Fixpoint ascii_map (f : Z → Z) (s : string) : string :=
  match s with "" => "" | String c s' => String (byte_of (f (byte_val c))) (ascii_map f s') end.

Definition ToLower (s : string) : string :=
  if is_ascii s then ascii_map rune_lower s else strings_Map (λ r, Some (rune_lower r)) s.
Definition ToUpper (s : string) : string :=
  if is_ascii s then ascii_map rune_upper s else strings_Map (λ r, Some (rune_upper r)) s.

Definition EqualFold (s t : string) : bool :=
  if is_ascii s && is_ascii t
  then bool_decide (ascii_map rune_lower s = ascii_map rune_lower t) else table_fold s t.
End unicode.

(** [strings.FieldsFunc]: the maximal runs of runes that fail [sep], as slices of
    the input. [cur] is the run being read. *)
Fixpoint fields_go (fuel : nat) (sep : Z → bool) (cur s : string) : list string :=
  let flush := if decide (cur = "") then [] else [cur] in
  match fuel, s with
  | S fuel', String _ _ =>
    let '(r, size) := DecodeRune s in
    if sep r then flush ++ fields_go fuel' sep "" (str_drop size s)
    else fields_go fuel' sep (cur +:+ str_take size s) (str_drop size s)
  | _, _ => flush
  end.
Definition FieldsFunc (s : string) (sep : Z → bool) : list string := fields_go (slen s) sep "" s.
Definition Fields (s : string) : list string := FieldsFunc s IsSpace.

(** [strings.TrimSpace] *)
Fixpoint trim_left_space (fuel : nat) (s : string) : string :=
  match fuel, s with
  | S fuel', String _ _ =>
    let '(r, size) := DecodeRune s in
    if IsSpace r then trim_left_space fuel' (str_drop size s) else s
  | _, _ => s
  end.
Fixpoint trim_right_space (fuel : nat) (s : string) : string :=
  match fuel, s with
  | S fuel', String _ _ =>
    let '(r, size) := DecodeLastRune s in
    if IsSpace r then trim_right_space fuel' (str_take (slen s - size) s) else s
  | _, _ => s
  end.
Definition TrimSpace (s : string) : string :=
  let s' := trim_left_space (slen s) s in trim_right_space (slen s') s'.

(** ** Lemmas *)

Lemma DecodeRune_size s : (snd (DecodeRune s) ≤ slen s)%nat.
Proof.
  destruct s as [|c s]; [simpl; lia|]. unfold DecodeRune.
  destruct (byte_val c <? RuneSelf); [simpl; lia|].
  destruct (utf8_first (byte_val c)) as [[[n lo] hi]|]; [|simpl; lia].
  destruct n as [|[|[|[|[|n]]]]]; try (simpl; lia).
  all: destruct s as [|c1 [|c2 [|c3 s]]]; simpl; try lia.
  all: repeat case_match; simpl; lia.
Qed.

Lemma DecodeRune_progress c s : (0 < snd (DecodeRune (String c s)))%nat.
Proof.
  unfold DecodeRune.
  destruct (byte_val c <? RuneSelf); [simpl; lia|].
  destruct (utf8_first (byte_val c)) as [[[n lo] hi]|]; [|simpl; lia].
  destruct n as [|[|[|[|[|n]]]]]; try (simpl; lia).
  all: destruct s as [|c1 [|c2 [|c3 s]]]; simpl; try lia.
  all: repeat case_match; simpl; lia.
Qed.

Lemma DecodeRune_ascii c s :
  byte_val c < RuneSelf → DecodeRune (String c s) = (byte_val c, 1%nat).
Proof. intros H. unfold DecodeRune. by apply Z.ltb_lt in H as ->. Qed.

Lemma EncodeRune_ascii c : byte_val c < RuneSelf → EncodeRune (byte_val c) = String c "".
Proof.
  intros H. pose proof (byte_val_bounds c). unfold EncodeRune, in_range, RuneSelf in *.
  destruct (byte_val c <? 0) eqn:E1; bool_to_prop; [lia|].
  destruct (1114111 <? byte_val c) eqn:E2; bool_to_prop; [lia|].
  destruct (55296 <=? byte_val c) eqn:E3; bool_to_prop; [lia|]. simpl.
  unfold encode_valid. destruct (byte_val c <? 128) eqn:E4; bool_to_prop; [|lia].
  by rewrite byte_of_val.
Qed.

(** Ranging over an ASCII string yields its bytes. *)
Lemma runes_ascii s : is_ascii s = true → runes s = byte_val <$> str_list s.
Proof.
  unfold runes. induction s as [|c s IH]; [done|].
  cbn [is_ascii slen runes_go str_list]. intros Ha. bool_to_prop.
  rewrite DecodeRune_ascii by lia. cbn [str_drop]. rewrite fmap_cons. f_equal. auto.
Qed.

(** ** Encoding and decoding *)

(** [utf8.ValidRune] *)
Definition ValidRune (r : Z) : bool := (in_range 0 1114111 r) && negb (in_range 55296 57343 r).

(** The text of a list of runes. *)
Definition of_runes (rs : list Z) : string := str_concat (EncodeRune <$> rs).

Lemma EncodeRune_valid r : ValidRune r = true → EncodeRune r = encode_valid r.
Proof.
  unfold ValidRune, EncodeRune, in_range. intros Hv. repeat case_match; bool_to_prop; try lia; try done.
Qed.

Ltac rune_byte := rewrite ?byte_val_of by (try lia; Z.to_euclidean_division_equations; lia).

Lemma DecodeRune_encode r s : ValidRune r = true → DecodeRune (EncodeRune r +:+ s) = (r, slen (EncodeRune r)).
Proof.
  intros Hv. rewrite EncodeRune_valid by done. unfold ValidRune, in_range in Hv. bool_to_prop. unfold encode_valid.
  destruct (r <? 128) eqn:E1; [|destruct (r <? 2048) eqn:E2; [|destruct (r <? 65536) eqn:E3]]; bool_to_prop;
    cbn [String.app String.append slen DecodeRune]; unfold is_cont; rune_byte; unfold RuneSelf.
  - by rewrite (proj2 (Z.ltb_lt _ _)) by lia.
  - rewrite (proj2 (Z.ltb_ge _ _)) by (Z.to_euclidean_division_equations; lia). unfold utf8_first, in_range.
    repeat case_match; bool_to_prop; simplify_eq; try (exfalso; Z.to_euclidean_division_equations; lia).
    f_equal; Z.to_euclidean_division_equations; lia.
  - rewrite (proj2 (Z.ltb_ge _ _)) by (Z.to_euclidean_division_equations; lia). unfold utf8_first, in_range.
    repeat case_match; bool_to_prop; simplify_eq; try (exfalso; Z.to_euclidean_division_equations; lia);
    f_equal; Z.to_euclidean_division_equations; lia.
  - rewrite (proj2 (Z.ltb_ge _ _)) by (Z.to_euclidean_division_equations; lia). unfold utf8_first, in_range.
    repeat case_match; bool_to_prop; simplify_eq; try (exfalso; Z.to_euclidean_division_equations; lia);
    f_equal; Z.to_euclidean_division_equations; lia.
Qed.

Lemma EncodeRune_nonempty r : EncodeRune r ≠ "".
Proof. unfold EncodeRune, encode_valid. by repeat case_match. Qed.

(** Ranging over the text of valid runes yields them. *)
Lemma runes_of_runes rs : Forall (λ r, ValidRune r = true) rs → runes (of_runes rs) = rs.
Proof.
  intros Hrs. unfold runes, of_runes. generalize (le_n (slen (str_concat (EncodeRune <$> rs)))).
  generalize (slen (str_concat (EncodeRune <$> rs))) at 2 3. induction Hrs as [|r rs Hr Hrs IH]; intros fuel Hf.
  - by destruct fuel.
  - cbn [fmap list_fmap str_concat] in Hf |- *. pose proof (EncodeRune_nonempty r) as Hne.
    pose proof (DecodeRune_encode r (str_concat (EncodeRune <$> rs)) Hr) as Hd. pose proof (str_drop_app (EncodeRune r) (str_concat (EncodeRune <$> rs))) as Hdrop.
    rewrite slen_app in Hf. destruct (EncodeRune r) as [|c e] eqn:He; [done|]. destruct fuel as [|fuel]; [cbn in Hf; lia|].
    cbn [String.app String.append] in Hd, Hdrop |- *. cbn [runes_go]. rewrite Hd. f_equal. rewrite Hdrop. apply IH. cbn in Hf. lia.
Qed.

Lemma of_runes_app a b : of_runes (a ++ b) = of_runes a +:+ of_runes b.
Proof.
  unfold of_runes. rewrite fmap_app. induction (EncodeRune <$> a) as [|x l IH]; [done|]. cbn. by rewrite IH, str_app_assoc.
Qed.

Lemma ToLower_ascii `{UnicodeTables} s :
  is_ascii s = true → ToLower s = ascii_map rune_lower s.
Proof. intros. unfold ToLower. by rewrite H0. Qed.

(** Tables for evaluation on Latin-1 texts. *)
Definition latin1_tables : UnicodeTables := {|
  table_letter := λ _, false;
  table_print := λ _, false;
  table_number := λ _, false;
  table_lower := λ r, r;
  table_upper := λ r, r;
  table_fold := λ s t, bool_decide (s = t)
|}.

(** * UTF-8 text (unicode/utf8, strings)

    Which strings are UTF-8, and [strings.ToValidUTF8], which makes every string so. *)

(** [utf8.ValidString]: the runes of the string are its encoding. *)
Definition ValidString (s : string) : bool := bool_decide (s = of_runes (runes s)).

(** [strings.ToValidUTF8]: every run of bytes that are not UTF-8 becomes the replacement. *)
Fixpoint valid_go (fuel : nat) (invalid : bool) (s replacement : string) : string :=
  match fuel, s with
  | S fuel, String c s' =>
    if byte_val c <? RuneSelf then String c (valid_go fuel false s' replacement)
    else
      let wid := (DecodeRune s).2 in
      if (wid =? 1)%nat then (if invalid then "" else replacement) +:+ valid_go fuel true s' replacement
      else str_take wid s +:+ valid_go fuel false (str_drop wid s) replacement
  | _, _ => ""
  end.
Definition ToValidUTF8 (s replacement : string) : string := valid_go (slen s) false s replacement.

(** ** Decoding and encoding *)

Lemma in_range_spec lo hi v : in_range lo hi v = true ↔ lo ≤ v ≤ hi.
Proof. unfold in_range. rewrite andb_true_iff, !Z.leb_le. done. Qed.
Lemma valid_range r : 0 ≤ r < 55296 ∨ 57343 < r ≤ 1114111 → ValidRune r = true.
Proof.
  intros Hr. unfold ValidRune. apply andb_true_iff. split; [apply in_range_spec; lia|]. apply negb_true_iff, not_true_iff_false.
  rewrite in_range_spec. lia.
Qed.
Lemma byte_of_eq c z : z = byte_val c → byte_of z = c.
Proof. intros ->. apply byte_of_val. Qed.

Lemma utf8_first_2 b lo hi : utf8_first b = Some (2%nat, lo, hi) → 194 ≤ b ≤ 223 ∧ lo = 128 ∧ hi = 191.
Proof. unfold utf8_first. repeat case_match; intros [=]; subst. apply in_range_spec in H. lia. Qed.
Lemma utf8_first_3 b lo hi : utf8_first b = Some (3%nat, lo, hi) →
  224 ≤ b ≤ 239 ∧ 128 ≤ lo ∧ hi ≤ 191 ∧ (b = 224 → lo = 160) ∧ (b = 237 → hi = 159).
Proof.
  unfold utf8_first. repeat case_match; intros [=]; subst; rewrite ?in_range_spec, ?Z.eqb_eq in *; lia.
Qed.
Lemma utf8_first_4 b lo hi : utf8_first b = Some (4%nat, lo, hi) →
  240 ≤ b ≤ 244 ∧ 128 ≤ lo ∧ hi ≤ 191 ∧ (b = 240 → lo = 144) ∧ (b = 244 → hi = 143).
Proof.
  unfold utf8_first. repeat case_match; intros [=]; subst; rewrite ?in_range_spec, ?Z.eqb_eq in *; lia.
Qed.
Lemma of_runes_cons' r rs : of_runes (r :: rs) = EncodeRune r +:+ of_runes rs.
Proof. done. Qed.

(** What decoding a rune consumes is its encoding. *)
Lemma EncodeRune_decode s r n :
  DecodeRune s = (r, n) → n ≠ 0%nat → (n ≠ 1%nat ∨ r ≠ RuneError) → ValidRune r = true ∧ str_take n s = EncodeRune r.
Proof.
  intros Hd Hn Hr. assert (ValidRune r = true ∧ str_take n s = encode_valid r) as [Hv Ht];
    [|split; [done|by rewrite EncodeRune_valid]].
  destruct s as [|c0 s]; [by injection Hd as _ <-|]. pose proof (byte_val_bounds c0) as H0. unfold DecodeRune in Hd.
  unfold ValidRune, encode_valid. destruct (Z.ltb_spec (byte_val c0) RuneSelf) as [Hlt|Hge]; unfold RuneSelf in *.
  { injection Hd as <- <-. unfold in_range. cbn [str_take]. destruct (Z.ltb_spec (byte_val c0) 128); [|lia]. rewrite byte_of_val.
    split; [|by destruct s]. apply andb_true_iff. rewrite negb_true_iff, andb_true_iff, andb_false_iff, !Z.leb_le, !Z.leb_gt. lia. }
  destruct (utf8_first (byte_val c0)) as [[[k lo] hi]|] eqn:Hf; [|injection Hd as <- <-; by destruct Hr].
  destruct k as [|[|[|[|[|k]]]]]; try (by injection Hd as <- <-; destruct Hr).
  - apply utf8_first_2 in Hf as (Hb & -> & ->). destruct s as [|c1 s]; [by injection Hd as <- <-; destruct Hr|].
    destruct (in_range 128 191 (byte_val c1)) eqn:H1; [|by injection Hd as <- <-; destruct Hr]. injection Hd as <- <-.
    apply in_range_spec in H1. rewrite (proj2 (Z.ltb_ge _ 128)), (proj2 (Z.ltb_lt _ 2048)) by lia.
    split; [apply valid_range; lia|]. cbn [str_take]. rewrite (byte_of_eq c0), (byte_of_eq c1) by (Z.to_euclidean_division_equations; lia). by destruct s.
  - apply utf8_first_3 in Hf as (Hb & Hlo & Hhi & H224 & H237). destruct s as [|c1 [|c2 s]]; try (by injection Hd as <- <-; destruct Hr).
    destruct (in_range lo hi (byte_val c1)) eqn:H1; [|by injection Hd as <- <-; destruct Hr].
    unfold is_cont in Hd. destruct (in_range 128 191 (byte_val c2)) eqn:H2; [|by injection Hd as <- <-; destruct Hr]. injection Hd as <- <-.
    apply in_range_spec in H1, H2.
    rewrite (proj2 (Z.ltb_ge _ 128)), (proj2 (Z.ltb_ge _ 2048)), (proj2 (Z.ltb_lt _ 65536)) by lia.
    split; [apply valid_range; lia|]. cbn [str_take]. rewrite (byte_of_eq c0), (byte_of_eq c1), (byte_of_eq c2) by (Z.to_euclidean_division_equations; lia). by destruct s.
  - apply utf8_first_4 in Hf as (Hb & Hlo & Hhi & H240 & H244). destruct s as [|c1 [|c2 [|c3 s]]]; try (by injection Hd as <- <-; destruct Hr).
    destruct (in_range lo hi (byte_val c1)) eqn:H1; [|by injection Hd as <- <-; destruct Hr].
    unfold is_cont in Hd. destruct (in_range 128 191 (byte_val c2)) eqn:H2; [|by injection Hd as <- <-; destruct Hr].
    destruct (in_range 128 191 (byte_val c3)) eqn:H3; [|by injection Hd as <- <-; destruct Hr]. injection Hd as <- <-.
    apply in_range_spec in H1, H2, H3.
    rewrite (proj2 (Z.ltb_ge _ 128)), (proj2 (Z.ltb_ge _ 2048)), (proj2 (Z.ltb_ge _ 65536)) by lia.
    split; [apply valid_range; lia|]. cbn [str_take]. rewrite (byte_of_eq c0), (byte_of_eq c1), (byte_of_eq c2), (byte_of_eq c3) by (Z.to_euclidean_division_equations; lia). by destruct s.
Qed.

(** ** Making text valid *)

Lemma ToValidUTF8_runes s : ∃ rs, Forall (λ r, ValidRune r = true) rs ∧ ToValidUTF8 s (EncodeRune RuneError) = of_runes rs.
Proof.
  unfold ToValidUTF8.
  generalize false as inv. generalize (slen s) as fuel. intros fuel. revert s.
  induction fuel as [|fuel IH]; intros s inv; [by exists []|]. destruct s as [|c s]; [by exists []|]. cbn [valid_go].
  destruct (Z.ltb_spec (byte_val c) RuneSelf) as [Hc|Hc].
  { destruct (IH s false) as (rs & Hrs & ->). exists (byte_val c :: rs). split.
    - constructor; [|done]. pose proof (byte_val_bounds c). unfold RuneSelf in Hc. apply valid_range. lia.
    - rewrite of_runes_cons'. by rewrite EncodeRune_ascii. }
  destruct (DecodeRune (String c s)) as [r n] eqn:Hd. cbn [snd]. destruct (Nat.eqb_spec n 1) as [->|Hn].
  { destruct (IH s true) as (rs & Hrs & ->). destruct inv; [by exists rs|]. exists (RuneError :: rs).
    split; [by constructor|]. by rewrite of_runes_cons'. }
  pose proof (DecodeRune_progress c s) as Hp. rewrite Hd in Hp. cbn in Hp.
  destruct (EncodeRune_decode _ _ _ Hd ltac:(lia) (or_introl Hn)) as [Hv ->].
  destruct (IH (str_drop n (String c s)) false) as (rs & Hrs & ->). exists (r :: rs). split; [by constructor|]. by rewrite of_runes_cons'.
Qed.
Lemma ToValidUTF8_id rs replacement : Forall (λ r, ValidRune r = true) rs → ToValidUTF8 (of_runes rs) replacement = of_runes rs.
Proof.
  unfold ToValidUTF8.
  intros Hrs. generalize (le_n (slen (of_runes rs))). generalize (slen (of_runes rs)) at 2 3. intros fuel. generalize false as inv.
  revert fuel. induction Hrs as [|r rs Hr Hrs IH]; intros fuel inv Hf; [by destruct fuel|]. rewrite of_runes_cons' in *.
  pose proof (EncodeRune_nonempty r) as Hne. pose proof (DecodeRune_encode r (of_runes rs) Hr) as Hd.
  pose proof (str_take_app (EncodeRune r) (of_runes rs)) as Htake. pose proof (str_drop_app (EncodeRune r) (of_runes rs)) as Hdrop.
  rewrite slen_app in Hf. destruct (EncodeRune r) as [|c e] eqn:He; [done|]. destruct fuel as [|fuel]; [cbn in Hf; lia|].
  change (String c e +:+ of_runes rs) with (String c (e +:+ of_runes rs)) in *. cbn [valid_go]. cbn [slen] in Hf.
  destruct (Z.ltb_spec (byte_val c) RuneSelf) as [Hc|Hc].
  + rewrite DecodeRune_ascii in Hd by done. injection Hd as _ Hlen. destruct e; [|done]. f_equal. apply IH. cbn in Hf. lia.
  + rewrite Hd. cbn [snd]. destruct (Nat.eqb_spec (slen (String c e)) 1) as [H1|_].
    { exfalso. destruct e; [|done]. rewrite EncodeRune_valid in He by done. pose proof Hr as Hv. unfold ValidRune in Hv.
      apply andb_true_iff in Hv as [Hv _]. apply in_range_spec in Hv. unfold encode_valid in He.
      destruct (Z.ltb_spec r 128); [injection He as <-; rewrite byte_val_of in Hc by lia; unfold RuneSelf in Hc; lia|].
      by destruct (r <? 2048), (r <? 65536). }
    rewrite Htake, Hdrop, IH by lia. done.
Qed.

(** ** Valid strings *)

Lemma DecodeRune_valid c s : ValidRune (DecodeRune (String c s)).1 = true.
Proof.
  destruct (DecodeRune (String c s)) as [r n] eqn:Hd. cbn. pose proof (DecodeRune_progress c s) as Hp. rewrite Hd in Hp. cbn in Hp.
  destruct (decide (r = RuneError)) as [->|Hr]; [done|].
  by apply (EncodeRune_decode _ _ _ Hd ltac:(lia) (or_intror Hr)).
Qed.
Lemma runes_valid s : Forall (λ r, ValidRune r = true) (runes s).
Proof.
  unfold runes. generalize (slen s) as fuel. intros fuel. revert s. induction fuel as [|fuel IH]; intros s; [constructor|].
  destruct s as [|c s]; [constructor|]. pose proof (DecodeRune_valid c s) as Hv. cbn [runes_go].
  destruct (DecodeRune (String c s)) as [r n]. constructor; [done|apply IH].
Qed.
Lemma ValidString_spec s : ValidString s = true ↔ ∃ rs, Forall (λ r, ValidRune r = true) rs ∧ s = of_runes rs.
Proof.
  unfold ValidString. rewrite bool_decide_eq_true. split.
  - intros Hs. exists (runes s). split; [apply runes_valid|done].
  - intros (rs & Hrs & ->). by rewrite runes_of_runes.
Qed.
Lemma ToValidUTF8_ValidString s : ValidString (ToValidUTF8 s (EncodeRune RuneError)) = true.
Proof. apply ValidString_spec, ToValidUTF8_runes. Qed.
Lemma ValidString_of_runes rs : Forall (λ r, ValidRune r = true) rs → ValidString (of_runes rs) = true.
Proof. intros Hrs. apply ValidString_spec. by exists rs. Qed.
