(* ===== verification/GoStrconv.v ===== *)
(** * Go's strconv and encoding/hex, as the program uses them

    [strconv.Quote] for the [%q] verb and for the arguments of sojuctl, [ParseBool] and
    [ParseInt] with base 0 for flags, hexadecimal encoding and decoding.
    The last part is about floating-point numbers. *)

From S2P Require Import Prelude GoStrings GoUnicode.

Open Scope string_scope.
Open Scope list_scope.
Open Scope Z_scope.

Definition dquote : string := String (ascii_of_nat 34) "".
Definition backslash : string := String (ascii_of_nat 92) "".

(** ** Hexadecimal *)

Definition hex_digit (z : Z) : string := String (byte_of (if z <? 10 then 48 + z else 87 + z)) "".

(** The [n] low hexadecimal digits. *)
Fixpoint hex_digits (n : nat) (z : Z) : string :=
  match n with O => "" | S n => hex_digits n (z / 16) +:+ hex_digit (z mod 16) end.

(** [hex.EncodeToString] *)
Fixpoint hex_encode (s : string) : string :=
  match s with "" => "" | String c s => hex_digits 2 (byte_val c) +:+ hex_encode s end.

Definition hex_val (c : ascii) : option Z :=
  let b := byte_val c in
  if in_range 48 57 b then Some (b - 48)
  else if in_range 97 102 b then Some (b - 87)
  else if in_range 65 70 b then Some (b - 55)
  else None.

(** [hex.DecodeString] *)
Fixpoint hex_decode (s : string) : option string :=
  match s with
  | "" => Some ""
  | String c1 (String c2 s) => h ← hex_val c1; l ← hex_val c2; t ← hex_decode s; Some (String (byte_of (16 * h + l)) t)
  | _ => None
  end.

Lemma hex_val_digit z : 0 ≤ z < 16 →
  hex_digit z = String (byte_of (if z <? 10 then 48 + z else 87 + z)) "" ∧
  hex_val (byte_of (if z <? 10 then 48 + z else 87 + z)) = Some z.
Proof.
  intros Hz. split; [done|]. unfold hex_val. destruct (z <? 10) eqn:E; bool_to_prop; rewrite byte_val_of by lia; unfold in_range.
  - rewrite (proj2 (Z.leb_le _ _)), (proj2 (Z.leb_le _ _)) by lia. cbn. f_equal. lia.
  - rewrite (proj2 (Z.leb_le _ _)), (proj2 (Z.leb_gt _ _)) by lia. cbn [andb].
    rewrite (proj2 (Z.leb_le 97 _)), (proj2 (Z.leb_le _ 102)) by lia. cbn. f_equal. lia.
Qed.

Lemma hex_decode_encode s : hex_decode (hex_encode s) = Some s.
Proof.
  induction s as [|c s IH]; [done|]. pose proof (byte_val_bounds c) as Hb. cbn [hex_encode hex_digits].
  assert (0 ≤ byte_val c / 16 mod 16 < 16) as Hh by (apply Z.mod_pos_bound; lia).
  assert (0 ≤ byte_val c mod 16 < 16) as Hl by (apply Z.mod_pos_bound; lia).
  destruct (hex_val_digit _ Hh) as [-> H1]. destruct (hex_val_digit _ Hl) as [-> H2].
  cbn [String.app String.append hex_decode]. rewrite H1, H2. cbn. rewrite IH. cbn. do 2 f_equal.
  rewrite <-(byte_of_val c) at 3. f_equal. rewrite Z.mod_small with (a := byte_val c / 16); Z.to_euclidean_division_equations; lia.
Qed.

(** ** Quoting *)

Section quote.
Context `{UnicodeTables}.

(** [strconv.IsPrint] *)
Definition IsPrint (r : Z) : bool :=
  if r <=? 255 then in_range 32 126 r || (in_range 161 255 r && negb (r =? 173)) else table_print r.

(** [appendEscapedRune] with the double quote as the quote; a decoded rune is valid. *)
Definition quote_rune (r : Z) : string :=
  if (r =? 34) || (r =? 92) then backslash +:+ EncodeRune r
  else if IsPrint r then EncodeRune r
  else if r =? 7 then backslash +:+ "a"
  else if r =? 8 then backslash +:+ "b"
  else if r =? 12 then backslash +:+ "f"
  else if r =? 10 then backslash +:+ "n"
  else if r =? 13 then backslash +:+ "r"
  else if r =? 9 then backslash +:+ "t"
  else if r =? 11 then backslash +:+ "v"
  else if (r <? 32) || (r =? 127) then backslash +:+ "x" +:+ hex_digits 2 r
  else if r <? 65536 then backslash +:+ "u" +:+ hex_digits 4 r
  else backslash +:+ "U" +:+ hex_digits 8 r.

Fixpoint quote_go (fuel : nat) (s : string) : string :=
  match fuel, s with
  | S fuel, String c _ =>
    let '(r, size) := DecodeRune s in
    (if (size =? 1)%nat && (r =? RuneError) then backslash +:+ "x" +:+ hex_digits 2 (byte_val c) else quote_rune r)
    +:+ quote_go fuel (str_drop size s)
  | _, _ => ""
  end.

(** [strconv.Quote], and the [%q] verb. *)
Definition Quote (s : string) : string := dquote +:+ quote_go (slen s) s +:+ dquote.
End quote.

(** ** Booleans and numbers *)

Definition ParseBool (s : string) : option bool :=
  if decide (s ∈ ["1"; "t"; "T"; "true"; "TRUE"; "True"]) then Some true
  else if decide (s ∈ ["0"; "f"; "F"; "false"; "FALSE"; "False"]) then Some false
  else None.

Definition FormatBool (b : bool) : string := if b then "true" else "false".

(** [underscoreOK]: [last] is the kind of the last character, a digit, an underscore or
    something else. *)
Fixpoint underscores_go (hex : bool) (last : Z) (s : string) : bool :=
  match s with
  | "" => negb (last =? 1)
  | String c s =>
    let b := byte_val c in
    if in_range 48 57 b || (hex && (in_range 97 102 b || in_range 65 70 b)) then underscores_go hex 0 s
    else if b =? 95 then if negb (last =? 0) then false else underscores_go hex 1 s
    else if last =? 1 then false else underscores_go hex 2 s
  end.

(** The base a literal announces and its digits. *)
Definition base_prefix (s : string) : Z * bool * string :=
  match s with
  | String "0" (String c ((String _ _) as rest)) =>
    if decide (c = "b"%char ∨ c = "B"%char) then (2, true, rest)
    else if decide (c = "o"%char ∨ c = "O"%char) then (8, true, rest)
    else if decide (c = "x"%char ∨ c = "X"%char) then (16, true, rest)
    else (8, false, str_drop 1 s)
  | String "0" rest => (8, false, rest)
  | _ => (10, false, s)
  end.

Definition underscoreOK (s : string) : bool :=
  match s with
  | String "0" (String c rest) =>
    if decide (c ∈ ["b"; "B"; "o"; "O"; "x"; "X"]%char) then
      underscores_go (bool_decide (c = "x"%char ∨ c = "X"%char)) 0 rest
    else underscores_go false 2 s
  | _ => underscores_go false 2 s
  end.

(** The value of a digit or a letter. *)
Definition digit36 (c : ascii) : option Z :=
  let b := byte_val c in
  if in_range 48 57 b then Some (b - 48)
  else if in_range 97 122 b then Some (b - 87)
  else if in_range 65 90 b then Some (b - 55)
  else None.

Fixpoint digits_base (base acc : Z) (s : string) : option Z :=
  match s with
  | "" => Some acc
  | String c s =>
    if byte_val c =? 95 then digits_base base acc s
    else d ← digit36 c; if base <=? d then None else digits_base base (acc * base + d) s
  end.

(** [strconv.ParseInt(s, 0, 64)] *)
Definition ParseInt0 (s : string) : option Z :=
  let '(neg, t) := match s with
    | String "-" t => (true, t)
    | String "+" t => (false, t)
    | _ => (false, s)
    end in
  if decide (t = "") then None
  else
    let '(base, _, digits) := base_prefix t in
    v ← digits_base base 0 digits;
    if str_mem "_"%char t && negb (underscoreOK t) then None
    else if (neg : bool) then if v <=? 2 ^ 63 then Some (- v) else None
    else if v <? 2 ^ 63 then Some v else None.

Example ParseInt0_examples :
  ParseInt0 "42" = Some 42 ∧ ParseInt0 "-0x10" = Some (-16) ∧ ParseInt0 "010" = Some 8 ∧
  ParseInt0 "1_000" = Some 1000 ∧ ParseInt0 "1__0" = None ∧ ParseInt0 "0x" = None ∧ ParseInt0 "0" = Some 0 ∧
  ParseInt0 "9223372036854775808" = None ∧ ParseInt0 "-9223372036854775808" = Some (- 2 ^ 63).
Proof. by vm_compute. Qed.

(** * Floating-point numbers

    The numbers of Go's float64 as fractions, rounded to 53 bits. Exponents are not bounded: the
    code only turns them into 64-bit integers, which no number outside the range of a float64
    fits. *)

(** The integer nearest to [a / b], the even one of two. *)
Definition round_div (a b : Z) : Z :=
  let q := a / b in
  let r := a mod b in
  if 2 * r <? b then q else if b <? 2 * r then q + 1 else if Z.even q then q else q + 1.

(** The floating-point number nearest to [a / b], for [0 <= a] and [0 < b]. *)
Definition float53 (a b : Z) : Z * Z :=
  if a =? 0 then (0, 1)
  else
    let k := Z.log2 a - Z.log2 b in
    let e := (if b * 2 ^ Z.max k 0 <=? a * 2 ^ Z.max (- k) 0 then k else k - 1) - 52 in
    if 0 <=? e then (round_div a (b * 2 ^ e) * 2 ^ e, 1) else (round_div (a * 2 ^ (- e)) b, 2 ^ (- e)).

(** A value, as a fraction with a positive denominator. *)
Inductive float64 := Fin (num den : Z) | NotFinite.

(** The product of two numbers. *)
Definition fmul (x y : float64) : float64 :=
  match x, y with
  | Fin a b, Fin c d => let '(n, m) := float53 (Z.abs (a * c)) (b * d) in Fin (Z.sgn (a * c) * n) m
  | _, _ => NotFinite
  end.

(** [int64(x)]: towards zero; what becomes of other values is up to the machine. *)
Definition to_int64 (machine : Z) (x : float64) : Z :=
  match x with
  | Fin a b => let z := Z.quot a b in if (- 2 ^ 63 <=? z) && (z <? 2 ^ 63) then z else machine
  | NotFinite => machine
  end.

Lemma round_div_1 a : round_div a 1 = a.
Proof. unfold round_div. rewrite Z.div_1_r, Z.mod_1_r. done. Qed.
(** Integers of 52 bits are kept. *)
Lemma float53_int a : 0 < a < 2 ^ 52 → ∃ e, 0 < e ∧ float53 a 1 = (a * 2 ^ e, 2 ^ e).
Proof.
  intros Ha. unfold float53. rewrite (proj2 (Z.eqb_neq _ _)) by lia. change (Z.log2 1) with 0. rewrite Z.sub_0_r, Z.mul_1_l.
  pose proof (Z.log2_spec a ltac:(lia)) as [Hlo _]. pose proof (Z.log2_nonneg a) as Hl.
  assert (Z.log2 a < 52) as Hlt by (apply Z.log2_lt_pow2; lia).
  rewrite Z.max_l, (Z.max_r (- Z.log2 a)), Z.mul_1_r by lia. rewrite (proj2 (Z.leb_le (2 ^ Z.log2 a) a)) by done.
  rewrite (proj2 (Z.leb_gt _ _)) by lia. exists (- (Z.log2 a - 52)). split; [lia|]. by rewrite round_div_1.
Qed.
