(* ===== verification/IrcMessage.v ===== *)
(** * IRC messages, numerics and errors

    [Message] and [Prefix] are the data carriers of the [irc] library the sources
    build their messages with; only their fields are used here. A tag map that was
    never allocated reads like an empty one, so [Tags] is a finite map. The helpers
    are those of irc.go and the error constructors of downstream.go. *)

From S2P Require Import Prelude GoStrings GoUnicode.

Open Scope string_scope.
Open Scope list_scope.

Record Prefix := mkPrefix { Name : string; User : string; Host : string }.

Record Message := mkMessage {
  Tags : gmap string string;
  MPrefix : option Prefix;
  Command : string;
  Params : list string
}.

#[export] Instance Prefix_eq_dec : EqDecision Prefix.
Proof. solve_decision. Defined.
#[export] Instance Message_eq_dec : EqDecision Message.
Proof. solve_decision. Defined.

(** [&irc.Message{Command: cmd, Params: params}] *)
Definition msg (cmd : string) (params : list string) : Message :=
  mkMessage ∅ None cmd params.
Definition msg_from (p : Prefix) (cmd : string) (params : list string) : Message :=
  mkMessage ∅ (Some p) cmd params.

Definition with_tags (f : gmap string string → gmap string string) (m : Message) : Message :=
  mkMessage (f (Tags m)) (MPrefix m) (Command m) (Params m).
Definition with_prefix (p : option Prefix) (m : Message) : Message :=
  mkMessage (Tags m) p (Command m) (Params m).
Definition with_params (ps : list string) (m : Message) : Message :=
  mkMessage (Tags m) (MPrefix m) (Command m) ps.

(** [m.Tags[k]], the zero value when absent. *)
Definition tag (m : Message) (k : string) : string := default "" (Tags m !! k).

(** Numerics of the irc library. *)
Definition RPL_WELCOME := "001".
Definition RPL_YOURHOST := "002".
Definition RPL_MYINFO := "004".
Definition RPL_ISUPPORT := "005".
Definition RPL_UMODEIS := "221".
Definition RPL_UNAWAY := "305".
Definition RPL_NOWAWAY := "306".
Definition RPL_ENDOFWHO := "315".
Definition RPL_ENDOFWHOIS := "318".
Definition RPL_LISTEND := "323".
Definition RPL_CHANNELMODEIS := "324".
Definition RPL_NOTOPIC := "331".
Definition RPL_TOPIC := "332".
Definition RPL_WHOREPLY := "352".
Definition RPL_NAMREPLY := "353".
Definition RPL_ENDOFNAMES := "366".
Definition RPL_MOTD := "372".
Definition RPL_MOTDSTART := "375".
Definition RPL_ENDOFMOTD := "376".
Definition ERR_UNKNOWNCOMMAND := "421".
Definition ERR_NOMOTD := "422".
Definition ERR_ERRONEUSNICKNAME := "432".
Definition ERR_NICKNAMEINUSE := "433".
Definition ERR_NEEDMOREPARAMS := "461".
Definition ERR_PASSWDMISMATCH := "464".
Definition RPL_CREATED := "003".
Definition RPL_STATSVLINE := "240".
Definition RPL_STATSBLINE := "247".
Definition RPL_STATSDLINE := "250".
Definition RPL_LUSERCLIENT := "251".
Definition RPL_LUSEROP := "252".
Definition RPL_LUSERUNKNOWN := "253".
Definition RPL_LUSERCHANNELS := "254".
Definition RPL_LUSERME := "255".
Definition RPL_TRYAGAIN := "263".
Definition RPL_AWAY := "301".
Definition RPL_WHOISUSER := "311".
Definition RPL_WHOISSERVER := "312".
Definition RPL_WHOISOPERATOR := "313".
Definition RPL_WHOISIDLE := "317".
Definition RPL_WHOISCHANNELS := "319".
Definition RPL_LISTSTART := "321".
Definition RPL_LIST := "322".
Definition RPL_INVITING := "341".
Definition RPL_INVITELIST := "346".
Definition RPL_ENDOFINVITELIST := "347".
Definition RPL_EXCEPTLIST := "348".
Definition RPL_ENDOFEXCEPTLIST := "349".
Definition RPL_BANLIST := "367".
Definition RPL_ENDOFBANLIST := "368".
Definition ERR_NOSUCHNICK := "401".
Definition ERR_NOSUCHSERVER := "402".
Definition ERR_NICKCOLLISION := "436".
Definition ERR_UNAVAILRESOURCE := "437".
Definition ERR_NOPERMFORHOST := "463".
Definition ERR_YOUREBANNEDCREEP := "465".
Definition RPL_MONONLINE := "730".
Definition RPL_MONOFFLINE := "731".
Definition ERR_MONLISTFULL := "734".
Definition ERR_NICKLOCKED := "902".
Definition ERR_SASLTOOLONG := "905".
Definition RPL_LOGGEDIN := "900".
Definition RPL_LOGGEDOUT := "901".
Definition RPL_SASLSUCCESS := "903".
Definition ERR_SASLFAIL := "904".
Definition ERR_SASLABORTED := "906".

(** Numerics and limits of package xirc. *)
Definition maxMessageLength : nat := 512.
Definition maxMessageParams : nat := 15.
Definition MaxSASLLength : nat := 400.
Definition RPL_STATSPING := "246".
Definition RPL_LOCALUSERS := "265".
Definition RPL_GLOBALUSERS := "266".
Definition RPL_WHOISCERTFP := "276".
Definition RPL_WHOISREGNICK := "307".
Definition RPL_WHOISSPECIAL := "320".
Definition RPL_CREATIONTIME := "329".
Definition RPL_WHOISACCOUNT := "330".
Definition RPL_WHOISBOT := "335".
Definition RPL_WHOISACTUALLY := "338".
Definition RPL_WHOISHOST := "378".
Definition RPL_WHOISMODES := "379".
Definition RPL_WHOISSECURE := "671".
Definition RPL_TOPICWHOTIME := "333".
Definition RPL_WHOSPCRPL := "354".
Definition RPL_VISIBLEHOST := "396".
Definition ERR_UNKNOWNERROR := "400".
Definition ERR_INVALIDCAPCMD := "410".
Definition RPL_KEYVALUE := "761".
Definition RPL_METADATASUBOK := "770".
Definition RPL_METADATAUNSUBOK := "771".
Definition RPL_METADATASUBS := "772".

(** Errors: a reply for the client ([ircError]), a failed registration on the
    upstream server ([registrationError]), or any other error, by its format
    string. *)
Inductive goerr :=
| ircError (m : Message)
| registrationError (m : Message)
| Errorf (format : string).

#[export] Instance goerr_eq_dec : EqDecision goerr.
Proof. solve_decision. Defined.

Definition newUnknownCommandError (cmd : string) : goerr :=
  ircError (msg ERR_UNKNOWNCOMMAND ["*"; cmd; "Unknown command"]).
Definition newUnknownIRCError (cmd text : string) : goerr :=
  ircError (msg ERR_UNKNOWNERROR ["*"; cmd; text]).
Definition newNeedMoreParamsError (cmd : string) : goerr :=
  ircError (msg ERR_NEEDMOREPARAMS ["*"; cmd; "Not enough parameters"]).
Definition newChatHistoryError (subcommand target : string) : goerr :=
  ircError (msg "FAIL" ["CHATHISTORY"; "MESSAGE_ERROR"; subcommand; target;
                        "Messages could not be retrieved"]).

(** [registrationError.Reason] *)
Definition registrationError_Reason (m : Message) : string :=
  match Params m !! (length (Params m) - 1)%nat with Some p => p | None => Command m end.

(** [registrationError.Temporary]; a FAIL without a second parameter is an index
    out of range. *)
Definition registrationError_Temporary (m : Message) : res goerr bool :=
  if decide (Command m = ERR_PASSWDMISMATCH ∨ Command m = ERR_ERRONEUSNICKNAME)
  then Ok false
  else if decide (Command m = "FAIL") then
    match Params m !! 1%nat with
    | Some code => Ok (negb (bool_decide (code = "ACCOUNT_REQUIRED")))
    | None => Panic "index out of range"
    end
  else Ok true.

(** [parseMessageParams(msg, out...)] with [n] outputs: the first [n] parameters, or
    the "need more parameters" error. *)
Definition parseMessageParams (m : Message) (n : nat) : res goerr (list string) :=
  if (length (Params m) <? n)%nat then Err (newNeedMoreParamsError (Command m))
  else Ok (take n (Params m)).

(** [out[i]] after a successful parse. *)
Definition param (ps : list string) (i : nat) : string := nth i ps "".

Definition copyClientTags (tags : gmap string string) : gmap string string :=
  filter (λ kv, HasPrefix kv.1 "+" = true) tags.

Definition isNumeric (cmd : string) : bool :=
  if negb (slen cmd =? 3)%nat then false
  else forallb is_digit (str_list cmd).

Definition generateAwayReply (away : bool) : Message :=
  if away then msg RPL_NOWAWAY ["*"; "You have been marked as being away"]
  else msg RPL_UNAWAY ["*"; "You are no longer marked as being away"].

(** [parseBouncerNetID] *)
Definition parseBouncerNetID (subcommand s : string) : res goerr Z :=
  let fail := ircError (msg "FAIL" ["BOUNCER"; "INVALID_NETID"; subcommand; s;
                                    "Invalid network ID"]) in
  match ParseInt64 s with
  | Some id => if (id <=? 0)%Z then Err fail else Ok id
  | None => Err fail
  end.

(** ** Lemmas *)

Lemma parseMessageParams_ok m n ps :
  parseMessageParams m n = Ok ps → length ps = n ∧ ps = take n (Params m).
Proof.
  unfold parseMessageParams. case_match eqn:E; intros; simplify_eq/=.
  bool_to_prop. rewrite length_take. split; [lia|done].
Qed.

Lemma parseMessageParams_err m n e :
  parseMessageParams m n = Err e →
  (length (Params m) < n)%nat ∧ e = newNeedMoreParamsError (Command m).
Proof. unfold parseMessageParams. case_match eqn:E; intros; simplify_eq/=. by bool_to_prop. Qed.

Lemma copyClientTags_lookup tags k :
  copyClientTags tags !! k = if HasPrefix k "+" then tags !! k else None.
Proof.
  unfold copyClientTags. destruct (HasPrefix k "+") eqn:E.
  - destruct (tags !! k) as [v|] eqn:Hk.
    + by apply map_lookup_filter_Some.
    + apply map_lookup_filter_None. by left.
  - apply map_lookup_filter_None. right. intros v _. simpl. congruence.
Qed.
