(* ===== verification/GoFlag.v ===== *)
(** * Go's flag package

    A flag set is a list of flags; each changes the structure the caller reads its values
    from. [Parse] follows [flag.FlagSet.Parse] with [ContinueOnError]. *)

From S2P Require Import Prelude GoStrings GoUnicode GoStrconv IrcMessage.

Open Scope string_scope.
Open Scope list_scope.
Open Scope Z_scope.

(** [flag.ErrHelp] *)
Definition ErrHelp : goerr := Errorf "flag: help requested".

(** A flag: its name, whether it is a boolean flag that needs no argument, and [Set]. *)
Record flagDef (S : Type) := Flag { flagName : string; isBoolFlag : bool; flagSet : string → S → option S }.
Arguments Flag {S}. Arguments flagName {S}. Arguments isBoolFlag {S}. Arguments flagSet {S}.

Definition formal {S} (fs : list (flagDef S)) (name : string) : option (flagDef S) :=
  List.find (λ f, bool_decide (flagName f = name)) fs.

(** The name and the value of [name=value]; the first byte of the name is not a separator. *)
Definition cut_flag (s : string) : string * option string :=
  match s with
  | "" => ("", None)
  | String c s' => match Cut s' "=" with Some (n, v) => (String c n, Some v) | None => (s, None) end
  end.

(** What an argument is to the parser. *)
Inductive flagArg := NotFlag | Terminator | BadFlag | FlagArg (name : string) (value : option string).

Definition classify (s : string) : flagArg :=
  match s with
  | String "-" (String c rest) =>
    if decide (c = "-"%char) then
      match rest with
      | "" => Terminator
      | String d _ => if decide (d = "-"%char ∨ d = "="%char) then BadFlag
                      else FlagArg (cut_flag rest).1 (cut_flag rest).2
      end
    else if decide (c = "="%char) then BadFlag
    else FlagArg (cut_flag (String c rest)).1 (cut_flag (String c rest)).2
  | _ => NotFlag
  end.

(** The structure after the flags, and the arguments left. *)
Fixpoint Parse {S} (fs : list (flagDef S)) (args : list string) (s : S) : res goerr (S * list string) :=
  match args with
  | [] => Ok (s, [])
  | a :: args =>
    match classify a with
    | NotFlag => Ok (s, a :: args)
    | Terminator => Ok (s, args)
    | BadFlag => Err (Errorf "bad flag syntax: %s")
    | FlagArg name value =>
      match formal fs name with
      | None =>
        if decide (name = "help" ∨ name = "h") then Err ErrHelp
        else Err (Errorf "flag provided but not defined: -%s")
      | Some f =>
        if isBoolFlag f then
          match flagSet f (default "true" value) s with
          | Some s => Parse fs args s
          | None => Err (Errorf "invalid boolean value %q for -%s: %v")
          end
        else
          match value, args with
          | Some v, _ =>
            match flagSet f v s with
            | Some s => Parse fs args s
            | None => Err (Errorf "invalid value %q for flag -%s: %v")
            end
          | None, v :: args =>
            match flagSet f v s with
            | Some s => Parse fs args s
            | None => Err (Errorf "invalid value %q for flag -%s: %v")
            end
          | None, [] => Err (Errorf "flag needs an argument: -%s")
          end
      end
    end
  end.

(** ** The values of the flags *)

Section values.
Context {S : Type}.

Definition stringFlag (name : string) (set : string → S → S) : flagDef S := Flag name false (λ v s, Some (set v s)).
Definition boolFlag (name : string) (set : bool → S → S) : flagDef S :=
  Flag name true (λ v s, b ← ParseBool v; Some (set b s)).
Definition intFlag (name : string) (set : Z → S → S) : flagDef S :=
  Flag name false (λ v s, z ← ParseInt0 v; Some (set z s)).

(** [stringPtrFlag], [boolPtrFlag] and [intPtrFlag] of service.go: set or not set. *)
Definition stringPtrFlag (name : string) (set : option string → S → S) : flagDef S :=
  Flag name false (λ v s, Some (set (Some v) s)).
Definition boolPtrFlag (name : string) (set : option bool → S → S) : flagDef S :=
  Flag name false (λ v s, b ← ParseBool v; Some (set (Some b) s)).
Definition intPtrFlag (name : string) (set : option Z → S → S) : flagDef S :=
  Flag name false (λ v s, z ← Atoi v; Some (set (Some z) s)).
(** [stringSliceFlag]: every occurrence adds a value. *)
Definition stringSliceFlag (name : string) (add : string → S → S) : flagDef S :=
  Flag name false (λ v s, Some (add v s)).
End values.

(** ** Reading the flags back *)

(** A flag with a value is read whatever the value looks like: as a separate argument, so
    also when it starts with a dash. *)
Lemma Parse_value {S} fs (f : flagDef S) v args s :
  formal fs (flagName f) = Some f → isBoolFlag f = false →
  classify ("-" +:+ flagName f) = FlagArg (flagName f) None →
  Parse fs (("-" +:+ flagName f) :: v :: args) s =
    match flagSet f v s with Some s => Parse fs args s | None => Err (Errorf "invalid value %q for flag -%s: %v") end.
Proof. intros Hf Hb Hc. cbn [Parse]. by rewrite Hc, Hf, Hb. Qed.

Lemma Parse_nil {S} (fs : list (flagDef S)) s : Parse fs [] s = Ok (s, []).
Proof. done. Qed.
