(* ===== verification/Effects.v ===== *)
(** * Effects: a state monad with Go's outcomes

    Code that changes the state of a connection is a function from the state before to the
    state after and an outcome; an error or a panic keeps the changes made before it. The
    file also has the two proof calculi the components use: [preserves] (an invariant holds
    afterwards, whatever the outcome) and [runs] (the code ends normally and the invariant
    holds). *)

From S2P Require Import Prelude GoStrings IrcMessage.

Definition ST (S A : Type) : Type := S → S * res goerr A.

#[export] Instance M_ret {S} : MRet (ST S) := λ A a s, (s, Ok a).
#[export] Instance M_bind {S} : MBind (ST S) := λ A B f m s,
  match m s with
  | (s', Ok a) => f a s'
  | (s', Err e) => (s', Err e)
  | (s', Panic w) => (s', Panic w)
  end.

Section ops.
Context {S : Type}.

Definition gets {A} (f : S → A) : ST S A := λ s, (s, Ok (f s)).
Definition modify (f : S → S) : ST S unit := λ s, (f s, Ok tt).
Definition fail {A} (e : goerr) : ST S A := λ s, (s, Err e).
Definition panic {A} (w : string) : ST S A := λ s, (s, Panic w).
Definition lift {A} (r : res goerr A) : ST S A := λ s, (s, r).
Definition skip : ST S unit := mret tt.
Definition when (b : bool) (m : ST S unit) : ST S unit := if b then m else skip.

(** A loop over a list; an error leaves it. *)
Fixpoint foreach {A} (f : A → ST S unit) (l : list A) : ST S unit :=
  match l with
  | [] => skip
  | x :: l' => f x ;; foreach f l'
  end.

(** [defer]: the deferred call runs whatever the outcome. *)
Definition finally {A} (body : ST S A) (deferred : ST S unit) : ST S A := λ s,
  let '(s', r) := body s in
  let '(s'', _) := deferred s' in
  (s'', r).

(** [x, err := m(); if err != nil { ... }]: the error as a value. *)
Definition try {A} (m : ST S A) : ST S (A + goerr) := λ s,
  match m s with
  | (s', Ok a) => (s', Ok (inl a))
  | (s', Err e) => (s', Ok (inr e))
  | (s', Panic w) => (s', Panic w)
  end.
End ops.

Lemma foreach_app {S A} (f : A → ST S unit) l1 l2 s :
  foreach f (l1 ++ l2) s = (foreach f l1 ;; foreach f l2) s.
Proof.
  revert s. induction l1 as [|x l1 IH]; intros s; [done|]. cbn [app foreach]. unfold mbind, M_bind in *.
  destruct (f x s) as [s' [[]|e|w]]; [apply IH|done|done].
Qed.
Lemma foreach_fmap {S A B} (g : B → A) (f : A → ST S unit) l s : foreach f (g <$> l) s = foreach (λ x, f (g x)) l s.
Proof.
  revert s. induction l as [|x l IH]; intros s; [done|]. cbn [fmap list_fmap foreach]. unfold mbind, M_bind.
  destruct (f (g x) s) as [s' [[]|e|w]]; [apply IH|done|done].
Qed.

Lemma foreach_ext {S A} (f g : A → ST S unit) l s : (∀ x s, f x s = g x s) → foreach f l s = foreach g l s.
Proof.
  intros Hfg. revert s. induction l as [|x l IH]; intros s; [done|]. cbn [foreach]. unfold mbind, M_bind.
  rewrite Hfg. destruct (g x s) as [s' [[]|e|w]]; [apply IH|done|done].
Qed.
Lemma foreach_single {S A} (f : A → ST S unit) x s : foreach f [x] s = f x s.
Proof. cbn. unfold mbind, M_bind. by destruct (f x s) as [s' [[]|e|w]]. Qed.
Lemma bind_ext {S A B} (m : ST S A) (k1 k2 : A → ST S B) s : (∀ a s, k1 a s = k2 a s) → (m ≫= k1) s = (m ≫= k2) s.
Proof. intros Hk. unfold mbind, M_bind. by destruct (m s) as [s' [a|e|w]]. Qed.
Lemma bind_ext_l {S A B} (m1 m2 : ST S A) (k : A → ST S B) s : m1 s = m2 s → (m1 ≫= k) s = (m2 ≫= k) s.
Proof. intros Hm. unfold mbind, M_bind. by rewrite Hm. Qed.

(** Running the first of two steps. *)
Lemma bind_run {S A B} (m : ST S A) (k : A → ST S B) s s' a : m s = (s', Ok a) → (m ≫= k) s = k a s'.
Proof. intros Hm. unfold mbind, M_bind. by rewrite Hm. Qed.
Lemma bind_err {S A B} (m : ST S A) (k : A → ST S B) s s' e : m s = (s', Err e) → (m ≫= k) s = (s', Err e).
Proof. intros Hm. unfold mbind, M_bind. by rewrite Hm. Qed.
Lemma bind_gets {S A B} (f : S → A) (k : A → ST S B) s : (gets f ≫= k) s = k (f s) s.
Proof. done. Qed.
Lemma bind_modify {S B} (f : S → S) (k : unit → ST S B) s : (modify f ≫= k) s = k tt (f s).
Proof. done. Qed.
Lemma bind_ret {S A B} (a : A) (k : A → ST S B) s : ((mret a : ST S A) ≫= k) s = k a s.
Proof. done. Qed.
Lemma bind_assoc {S A B C} (m : ST S A) (f : A → ST S B) (k : B → ST S C) s :
  ((m ≫= f) ≫= k) s = (m ≫= (λ a, f a ≫= k)) s.
Proof. unfold mbind, M_bind. by destruct (m s) as [s' [a|e|w]]. Qed.

(** ** Preservation *)

Definition preserves {S} (I : S → Prop) {A} (m : ST S A) : Prop := ∀ s, I s → I (m s).1.

Create HintDb pres discriminated.

Section calculus.
Context {S : Type} (I : S → Prop).

Lemma preserves_ret {A} (a : A) : preserves I (mret a).
Proof. by intros s. Qed.
Lemma preserves_gets {A} (f : S → A) : preserves I (gets f).
Proof. by intros s. Qed.
Lemma preserves_fail {A} e : preserves I (fail (A:=A) e).
Proof. by intros s. Qed.
Lemma preserves_panic {A} w : preserves I (panic (A:=A) w).
Proof. by intros s. Qed.
Lemma preserves_lift {A} (r : res goerr A) : preserves I (lift r).
Proof. by intros s. Qed.
Lemma preserves_skip : preserves I skip.
Proof. by intros s. Qed.
Lemma preserves_modify f : (∀ s, I s → I (f s)) → preserves I (modify f).
Proof. by intros Hf s Hs; apply Hf. Qed.

Lemma preserves_bind {A B} (m : ST S A) (k : A → ST S B) :
  preserves I m → (∀ a, preserves I (k a)) → preserves I (m ≫= k).
Proof.
  intros Hm Hk s Hs. unfold mbind, M_bind. specialize (Hm s Hs).
  destruct (m s) as [s' [a|e|w]]; simpl in *; [by apply Hk|done|done].
Qed.

(** What is read from the state comes from a state that satisfies the invariant. *)
(** The first step from one state, the rest from any. *)
Lemma preserves_bind_at {A B} (m : ST S A) (k : A → ST S B) s :
  I (m s).1 → (∀ a, preserves I (k a)) → I ((m ≫= k) s).1.
Proof.
  intros Hm Hk. unfold mbind, M_bind. destruct (m s) as [s' [a|e|w]]; [by apply Hk|done|done].
Qed.
Lemma preserves_bind_gets {A B} (f : S → A) (k : A → ST S B) :
  (∀ s0, I s0 → preserves I (k (f s0))) → preserves I (gets f ≫= k).
Proof. intros Hk s Hs. by apply (Hk s Hs). Qed.

Lemma preserves_bind_ret {A B} (a : A) (k : A → ST S B) : preserves I (k a) → preserves I (mret a ≫= k).
Proof. intros Hk s Hs. by apply Hk. Qed.

Lemma preserves_bind_fail {A B} e (k : A → ST S B) : preserves I (fail e ≫= k).
Proof. by intros s. Qed.

Lemma preserves_bind_assoc {A B C} (m : ST S A) (f : A → ST S B) (k : B → ST S C) :
  preserves I (m ≫= (λ a, f a ≫= k)) → preserves I ((m ≫= f) ≫= k).
Proof.
  intros Hm s Hs. specialize (Hm s Hs). unfold mbind, M_bind in *.
  by destruct (m s) as [s' [a|e|w]].
Qed.

Lemma preserves_foreach {A} (f : A → ST S unit) l :
  (∀ x, x ∈ l → preserves I (f x)) → preserves I (foreach f l).
Proof.
  induction l as [|x l IH]; intros Hf; [by intros s|]. apply preserves_bind.
  - apply Hf. by left.
  - intros _. apply IH. intros y Hy. apply Hf. by right.
Qed.

Lemma preserves_when b m : (b = true → preserves I m) → preserves I (when b m).
Proof. intros Hm. destruct b; [by apply Hm|by intros s]. Qed.

Lemma preserves_finally {A} (body : ST S A) deferred :
  preserves I body → preserves I deferred → preserves I (finally body deferred).
Proof.
  intros Hb Hd s Hs. unfold finally. specialize (Hb s Hs). destruct (body s) as [s' r].
  specialize (Hd s' Hb). by destruct (deferred s') as [s'' r'].
Qed.

Lemma preserves_try {A} (m : ST S A) : preserves I m → preserves I (try m).
Proof.
  intros Hm s Hs. specialize (Hm s Hs). unfold try. by destruct (m s) as [s' [a|e|w]].
Qed.
End calculus.

(** Structural steps; a component extends them with its own combinators, and what changes
    the state is left to the lemmas of the hint database. *)
Ltac pres_more := fail.
Ltac pres_step :=
  match goal with
  | |- preserves _ (mret _) => apply preserves_ret
  | |- preserves _ (gets _) => apply preserves_gets
  | |- preserves _ (fail _) => apply preserves_fail
  | |- preserves _ (panic _) => apply preserves_panic
  | |- preserves _ (lift _) => apply preserves_lift
  | |- preserves _ skip => apply preserves_skip
  | |- preserves _ (gets _ ≫= _) => apply preserves_bind_gets; intros ? ?; cbv beta delta [Datatypes.id]
  | |- preserves _ _ => pres_more
  | |- preserves _ (mret _ ≫= _) => apply preserves_bind_ret; cbv beta
  | |- preserves _ (fail _ ≫= _) => apply preserves_bind_fail
  | |- preserves _ ((_ ≫= _) ≫= _) => apply preserves_bind_assoc
  | |- preserves _ (when _ _) => apply preserves_when; intros ?
  | |- preserves _ (foreach _ _) => apply preserves_foreach; intros ? ?
  | |- preserves _ (finally _ _) => apply preserves_finally
  | |- preserves _ (try _) => apply preserves_try
  | |- preserves _ ((match ?x with _ => _ end) ≫= _) => destruct x eqn:?
  | |- preserves _ (match ?x with _ => _ end) => destruct x eqn:?
  | |- preserves _ (let _ := _ in _) => cbv zeta
  | |- preserves _ (_ ≫= _) => apply preserves_bind; [|intros]
  | |- preserves _ _ => solve [eauto 10 with pres]
  end.
Ltac pres := repeat pres_step.

(** ** Runs without error *)

(** [m] ends normally and preserves [I]. *)
Definition runs {S} (I : S → Prop) {A} (m : ST S A) : Prop :=
  ∀ s, I s → ∃ s' a, m s = (s', Ok a) ∧ I s'.

Section runs.
Context {S : Type} (I : S → Prop).

Lemma runs_ret {A} (a : A) : runs I (mret a).
Proof. intros s Hs. exists s, a. done. Qed.
Lemma runs_modify f : (∀ s, I s → I (f s)) → runs I (modify f).
Proof. intros Hf s Hs. exists (f s), tt. auto. Qed.
Lemma runs_bind {A B} (m : ST S A) (k : A → ST S B) : runs I m → (∀ a, runs I (k a)) → runs I (m ≫= k).
Proof.
  intros Hm Hk s Hs. destruct (Hm s Hs) as (s' & a & Em & Hs'). destruct (Hk a s' Hs') as (s'' & b & Ek & Hs'').
  exists s'', b. split; [|done]. unfold mbind, M_bind. by rewrite Em.
Qed.
Lemma runs_bind_gets {A B} (f : S → A) (k : A → ST S B) :
  (∀ s0, I s0 → runs I (k (f s0))) → runs I (gets f ≫= k).
Proof. intros Hk s Hs. by apply (Hk s Hs). Qed.
Lemma runs_bind_ret {A B} (a : A) (k : A → ST S B) : runs I (k a) → runs I (mret a ≫= k).
Proof. intros Hk s Hs. by apply Hk. Qed.
Lemma runs_bind_assoc {A B C} (m : ST S A) (f : A → ST S B) (k : B → ST S C) :
  runs I (m ≫= (λ a, f a ≫= k)) → runs I ((m ≫= f) ≫= k).
Proof.
  intros Hm s Hs. destruct (Hm s Hs) as (s' & c & Em & Hs'). exists s', c. split; [|done].
  unfold mbind, M_bind in *. by destruct (m s) as [s1 [a|e|w]].
Qed.
Lemma runs_foreach {A} (f : A → ST S unit) l : (∀ x, runs I (f x)) → runs I (foreach f l).
Proof. intros Hf. induction l as [|x l IH]; [apply runs_ret|]. by apply runs_bind. Qed.
Lemma runs_when b m : runs I m → runs I (when b m).
Proof. intros Hm. destruct b; [done|apply runs_ret]. Qed.
End runs.

Create HintDb runs discriminated.

Ltac runs_more := fail.
Ltac runs_step :=
  match goal with
  | |- runs _ (mret _) => apply runs_ret
  | |- runs _ skip => apply runs_ret
  | |- runs _ (gets _ ≫= _) => apply runs_bind_gets; intros ? ?; cbv beta delta [Datatypes.id]
  | |- runs _ (mret _ ≫= _) => apply runs_bind_ret; cbv beta
  | |- runs _ ((_ ≫= _) ≫= _) => apply runs_bind_assoc
  | |- runs _ (when _ _) => apply runs_when
  | |- runs _ (foreach _ _) => apply runs_foreach; intros ?
  | |- runs _ _ => runs_more
  | |- runs _ ((match ?x with _ => _ end) ≫= _) => destruct x eqn:?
  | |- runs _ (match ?x with _ => _ end) => destruct x eqn:?
  | |- runs _ (let _ := _ in _) => cbv zeta
  | |- runs _ (_ ≫= _) => apply runs_bind; [|intros]
  | |- runs _ (modify _) => apply runs_modify; intros ? ?; cbn in *; done
  | |- runs _ _ => solve [eauto with runs]
  end.
Ltac do_runs := repeat runs_step.

(** ** Triples

    From a state that satisfies [P], [m] ends normally with a result and a state that
    satisfy [Q], or with an error or a panic in a state that satisfies [F]. *)
Definition triple {S} (P : S → Prop) {A} (m : ST S A) (Q : A → S → Prop) (F : S → Prop) : Prop :=
  ∀ s, P s → match m s with (s', Ok a) => Q a s' | (s', _) => F s' end.

Section triples.
Context {S : Type}.
Implicit Types (P F I : S → Prop).

Lemma triple_ret {A} P (a : A) (Q : A → S → Prop) F : (∀ s, P s → Q a s) → triple P (mret a) Q F.
Proof. intros HQ s Hs. by apply HQ. Qed.
Lemma triple_fail {A} P e (Q : A → S → Prop) F : (∀ s, P s → F s) → triple P (fail e) Q F.
Proof. intros HF s Hs. by apply HF. Qed.
Lemma triple_panic {A} P w (Q : A → S → Prop) F : (∀ s, P s → F s) → triple P (panic w) Q F.
Proof. intros HF s Hs. by apply HF. Qed.
Lemma triple_modify P f (Q : unit → S → Prop) F : (∀ s, P s → Q tt (f s)) → triple P (modify f) Q F.
Proof. intros HQ s Hs. by apply HQ. Qed.
Lemma triple_bind {A B} P (m : ST S A) (k : A → ST S B) R Q F :
  triple P m R F → (∀ a, triple (R a) (k a) Q F) → triple P (m ≫= k) Q F.
Proof.
  intros Hm Hk s Hs. unfold mbind, M_bind. specialize (Hm s Hs).
  destruct (m s) as [s' [a|e|w]]; [by apply Hk|done|done].
Qed.
Lemma triple_gets {A B} P (f : S → A) (k : A → ST S B) Q F :
  (∀ s0, P s0 → triple (λ s, s = s0) (k (f s0)) Q F) → triple P (gets f ≫= k) Q F.
Proof. intros Hk s Hs. by apply (Hk s Hs). Qed.
Lemma triple_modify_eq {B} f (k : ST S B) s0 Q F :
  triple (λ s, s = f s0) k Q F → triple (λ s, s = s0) (modify f ;; k) Q F.
Proof. intros Hk s ->. by apply Hk. Qed.
Lemma triple_conseq {A} P P' (m : ST S A) (Q Q' : A → S → Prop) F F' :
  triple P m Q F → (∀ s, P' s → P s) → (∀ a s, Q a s → Q' a s) → (∀ s, F s → F' s) → triple P' m Q' F'.
Proof.
  intros Hm HP HQ HF s Hs. specialize (Hm s (HP s Hs)).
  destruct (m s) as [s' [a|e|w]]; auto.
Qed.
Lemma triple_preserves {A} I (m : ST S A) : preserves I m → triple I m (λ _, I) I.
Proof. intros Hm s Hs. specialize (Hm s Hs). by destruct (m s) as [s' [a|e|w]]. Qed.
Lemma triple_try {A} P (m : ST S A) (Q : A → S → Prop) F :
  triple P m Q F → triple P (try m) (λ x, match x with inl a => Q a | inr _ => F end) F.
Proof. intros Hm s Hs. specialize (Hm s Hs). unfold try. by destruct (m s) as [s' [a|e|w]]. Qed.
Lemma preserves_triple {A} I (m : ST S A) : triple I m (λ _, I) I → preserves I m.
Proof. intros Hm s Hs. specialize (Hm s Hs). by destruct (m s) as [s' [a|e|w]]. Qed.
End triples.
