(* ===== verification/CaseMapping.v ===== *)
(** * Case mapping of IRC names (xirc/casemapping.go)

    [CaseMappingMap] is the dictionary every component keys by nick or channel
    name. Its iteration order is Go's map order, which is unspecified: functions that
    iterate take the order as an argument, a list that is a permutation of the
    entries. *)

From S2P Require Import Prelude GoStrings.

Open Scope string_scope.
Open Scope list_scope.

(** ** Operations *)

Definition is_upper (r : ascii) : bool := (65 <=? byte_val r)%Z && (byte_val r <=? 90)%Z.
Definition to_lower_byte (r : ascii) : ascii := byte_of (byte_val r + 97 - 65).

Definition casemapASCII_byte (r : ascii) : ascii :=
  if is_upper r then to_lower_byte r else r.

Definition casemapRFC1459_byte (r : ascii) : ascii :=
  if is_upper r then to_lower_byte r
  else if decide (r = "{"%char) then "["%char
  else if decide (r = "}"%char) then "]"%char
  else if decide (r = "\"%char) then "|"%char
  else if decide (r = "~"%char) then "^"%char
  else r.

Definition casemapRFC1459Strict_byte (r : ascii) : ascii :=
  if is_upper r then to_lower_byte r
  else if decide (r = "{"%char) then "["%char
  else if decide (r = "}"%char) then "]"%char
  else if decide (r = "\"%char) then "|"%char
  else r.

Fixpoint str_map (f : ascii → ascii) (s : string) : string :=
  match s with "" => "" | String c s' => String (f c) (str_map f s') end.

Definition casemapASCII : string → string := str_map casemapASCII_byte.
Definition casemapRFC1459 : string → string := str_map casemapRFC1459_byte.
Definition casemapRFC1459Strict : string → string := str_map casemapRFC1459Strict_byte.

(** The values of Go's function type [CaseMapping] are these three functions. *)
Inductive CaseMapping := CaseMappingASCII | CaseMappingRFC1459 | CaseMappingRFC1459Strict.

#[export] Instance CaseMapping_eq_dec : EqDecision CaseMapping.
Proof. solve_decision. Defined.

Definition cm_apply (cm : CaseMapping) : string → string :=
  match cm with
  | CaseMappingASCII => casemapASCII
  | CaseMappingRFC1459 => casemapRFC1459
  | CaseMappingRFC1459Strict => casemapRFC1459Strict
  end.

(** [ParseCaseMapping]; [None] is the nil function. *)
Definition ParseCaseMapping (s : string) : option CaseMapping :=
  if decide (s = "ascii") then Some CaseMappingASCII
  else if decide (s = "rfc1459") then Some CaseMappingRFC1459
  else if decide (s = "rfc1459-strict") then Some CaseMappingRFC1459Strict
  else None.

Record caseMappingEntry (V : Type) := mkEntry { originalKey : string; value : V }.
Arguments mkEntry {V} _ _.
Arguments originalKey {V} _.
Arguments value {V} _.

Record CaseMappingMap (V : Type) := mkCMM {
  cmm_m : gmap string (caseMappingEntry V);
  casemap : CaseMapping
}.
Arguments mkCMM {V} _ _.
Arguments cmm_m {V} _.
Arguments casemap {V} _.

Module CMM.
Section ops.
Context {V : Type}.
Implicit Types (cmm : CaseMappingMap V) (name : string) (v : V).

Definition New (cm : CaseMapping) : CaseMappingMap V := mkCMM ∅ cm.

Definition Has cmm name : bool :=
  bool_decide (is_Some (cmm_m cmm !! cm_apply (casemap cmm) name)).

Definition Len cmm : nat := size (cmm_m cmm).

(** [Get] returns the zero value of [V] for an absent name; [None] stands for it. *)
Definition Get cmm name : option V := value <$> cmm_m cmm !! cm_apply (casemap cmm) name.

Definition Set_ cmm name v : CaseMappingMap V :=
  let nameCM := cm_apply (casemap cmm) name in
  match cmm_m cmm !! nameCM with
  | None => mkCMM (<[nameCM := mkEntry name v]> (cmm_m cmm)) (casemap cmm)
  | Some entry => mkCMM (<[nameCM := mkEntry (originalKey entry) v]> (cmm_m cmm)) (casemap cmm)
  end.

Definition Del cmm name : CaseMappingMap V :=
  mkCMM (delete (cm_apply (casemap cmm) name) (cmm_m cmm)) (casemap cmm).

(** The entries [ForEach] visits, in the order [gmap] lists them. *)
Definition Entries cmm : list (caseMappingEntry V) := (map_to_list (cmm_m cmm)).*2.

(** [ForEach] with a callback that folds over a state. *)
Definition ForEach {S : Type} (order : list (caseMappingEntry V)) (f : S → string → V → S) (s : S) : S :=
  foldl (λ s e, f s (originalKey e) (value e)) s order.

(** [SetCaseMapping], for a given iteration order of the old map. *)
Definition rebuild (cm : CaseMapping) (order : list (caseMappingEntry V)) :
    gmap string (caseMappingEntry V) :=
  foldl (λ m e, <[cm_apply cm (originalKey e) := e]> m) ∅ order.

Definition SetCaseMapping_in (order : list (caseMappingEntry V)) (new : CaseMapping) : CaseMappingMap V :=
  mkCMM (rebuild new order) new.

Definition SetCaseMapping cmm (new : CaseMapping) : CaseMappingMap V :=
  SetCaseMapping_in (Entries cmm) new.
End ops.
End CMM.

(** ** The mappings are canonical representatives *)

Lemma str_map_idem f s : (∀ c, f (f c) = f c) → str_map f (str_map f s) = str_map f s.
Proof. intros Hf. induction s; simpl; congruence. Qed.

Lemma str_map_coarser f g a b :
  (∀ c d, f c = f d → g c = g d) → str_map f a = str_map f b → str_map g a = str_map g b.
Proof.
  intros Hfg. revert b. induction a as [|c a IH]; intros [|d b]; simpl; try done.
  intros [= Hc Ha]. f_equal; auto.
Qed.

(** Byte-wise facts are decided on the 256 bytes. *)
Definition all_bytes : list ascii := ascii_of_nat <$> seq 0 256.

Lemma all_bytes_complete c : c ∈ all_bytes.
Proof.
  apply list_elem_of_fmap. exists (nat_of_ascii c).
  split; [by rewrite ascii_nat_embedding|].
  apply elem_of_seq. pose proof (nat_ascii_bounded c). lia.
Qed.

Lemma byte_forall (P : ascii → bool) : forallb P all_bytes = true → ∀ c, P c = true.
Proof.
  intros H c. rewrite forallb_forall in H. apply H, list_elem_of_In, all_bytes_complete.
Qed.

Definition cm_byte (cm : CaseMapping) : ascii → ascii :=
  match cm with
  | CaseMappingASCII => casemapASCII_byte
  | CaseMappingRFC1459 => casemapRFC1459_byte
  | CaseMappingRFC1459Strict => casemapRFC1459Strict_byte
  end.

Lemma cm_apply_map cm : cm_apply cm = str_map (cm_byte cm).
Proof. by destruct cm. Qed.

Lemma cm_byte_idem cm c : cm_byte cm (cm_byte cm c) = cm_byte cm c.
Proof.
  cut (bool_decide (cm_byte cm (cm_byte cm c) = cm_byte cm c) = true);
    [apply bool_decide_eq_true|].
  revert c. apply byte_forall. by destruct cm; vm_compute.
Qed.

(** [cm'] absorbs [cm], so it identifies at least the bytes [cm] identifies. *)
Definition cm_byte_coarser (cm cm' : CaseMapping) : bool :=
  forallb (λ c, bool_decide (cm_byte cm' (cm_byte cm c) = cm_byte cm' c)) all_bytes.

Lemma cm_byte_coarser_sound cm cm' c d :
  cm_byte_coarser cm cm' = true → cm_byte cm c = cm_byte cm d → cm_byte cm' c = cm_byte cm' d.
Proof.
  intros H Heq. pose proof (byte_forall _ H) as Habs. simpl in Habs.
  assert (∀ x, cm_byte cm' x = cm_byte cm' (cm_byte cm x)) as Hx.
  { intros x. specialize (Habs x). by bool_to_prop. }
  by rewrite (Hx c), (Hx d), Heq.
Qed.

Lemma cm_coarser_sound cm cm' a b :
  cm_byte_coarser cm cm' = true → cm_apply cm a = cm_apply cm b → cm_apply cm' a = cm_apply cm' b.
Proof.
  intros H. rewrite !cm_apply_map. apply str_map_coarser.
  intros c d. by apply cm_byte_coarser_sound.
Qed.

Lemma slen_cm_apply cm s : slen (cm_apply cm s) = slen s.
Proof. rewrite cm_apply_map. induction s; simpl; congruence. Qed.

(** Every mapping picks a canonical representative: mapping twice changes nothing. *)
Lemma cm_apply_idem cm s : cm_apply cm (cm_apply cm s) = cm_apply cm s.
Proof. rewrite cm_apply_map. apply str_map_idem, cm_byte_idem. Qed.

(** ASCII is the finest mapping, RFC 1459 the coarsest: names equal under a finer
    mapping are equal under a coarser one. *)
Lemma casemap_strictness a b :
  (casemapASCII a = casemapASCII b → casemapRFC1459Strict a = casemapRFC1459Strict b) ∧
  (casemapRFC1459Strict a = casemapRFC1459Strict b → casemapRFC1459 a = casemapRFC1459 b).
Proof.
  split.
  - apply (cm_coarser_sound CaseMappingASCII CaseMappingRFC1459Strict). by vm_compute.
  - apply (cm_coarser_sound CaseMappingRFC1459Strict CaseMappingRFC1459). by vm_compute.
Qed.

(** ** Well-formedness and the dictionary laws *)

Module CMMFacts.
Section facts.
Context {V : Type}.
Implicit Types (cmm : CaseMappingMap V) (name : string) (v : V).

(** Every entry is filed under the mapped form of its original key. *)
Definition wf cmm : Prop :=
  ∀ k e, cmm_m cmm !! k = Some e → cm_apply (casemap cmm) (originalKey e) = k.

Lemma New_wf cm : wf (CMM.New (V := V) cm).
Proof. intros k e. simpl. by rewrite lookup_empty. Qed.

Lemma Set_casemap cmm name v : casemap (CMM.Set_ cmm name v) = casemap cmm.
Proof. unfold CMM.Set_. by case_match. Qed.

Lemma Set_wf cmm name v : wf cmm → wf (CMM.Set_ cmm name v).
Proof.
  intros Hwf k e. rewrite Set_casemap. unfold CMM.Set_.
  case_match eqn:E; simpl; rewrite lookup_insert_Some; intros [[<- <-]|[? ?]]; simpl; eauto.
Qed.

Lemma Del_wf cmm name : wf cmm → wf (CMM.Del cmm name).
Proof. intros Hwf k e. simpl. rewrite lookup_delete_Some. intros [? ?]. eauto. Qed.

Lemma rebuild_snoc cm order e :
  CMM.rebuild (V := V) cm (order ++ [e]) =
  <[cm_apply cm (originalKey e) := e]> (CMM.rebuild cm order).
Proof. unfold CMM.rebuild. by rewrite foldl_snoc. Qed.

Lemma SetCaseMapping_in_wf order cm : wf (CMM.SetCaseMapping_in (V := V) order cm).
Proof.
  unfold wf. simpl. induction order as [|e order IH] using rev_ind.
  - intros k e ?. unfold CMM.rebuild in *. simplify_map_eq.
  - intros k e'. rewrite rebuild_snoc, lookup_insert_Some. intros [[<- <-]|[? ?]]; eauto.
Qed.

Lemma Get_Set cmm name v name' :
  CMM.Get (CMM.Set_ cmm name v) name' =
  if decide (cm_apply (casemap cmm) name = cm_apply (casemap cmm) name')
  then Some v else CMM.Get cmm name'.
Proof.
  unfold CMM.Get. rewrite Set_casemap. unfold CMM.Set_.
  case_match; simpl; rewrite lookup_insert; by case_decide.
Qed.

Lemma Get_Del cmm name name' :
  CMM.Get (CMM.Del cmm name) name' =
  if decide (cm_apply (casemap cmm) name = cm_apply (casemap cmm) name')
  then None else CMM.Get cmm name'.
Proof. unfold CMM.Get. simpl. rewrite lookup_delete. by case_decide. Qed.

Lemma Has_Get cmm name : CMM.Has cmm name = bool_decide (is_Some (CMM.Get cmm name)).
Proof.
  unfold CMM.Has, CMM.Get. apply bool_decide_ext. by rewrite fmap_is_Some.
Qed.

Lemma Get_New cm name : CMM.Get (CMM.New (V := V) cm) name = None.
Proof. done. Qed.

Lemma Get_casemap_eq cmm name name' :
  cm_apply (casemap cmm) name = cm_apply (casemap cmm) name' →
  CMM.Get cmm name = CMM.Get cmm name'.
Proof. unfold CMM.Get. by intros ->. Qed.

Lemma elem_of_Entries cmm e :
  e ∈ CMM.Entries cmm ↔ ∃ k, cmm_m cmm !! k = Some e.
Proof.
  unfold CMM.Entries. rewrite list_elem_of_fmap. split.
  - intros ([k e'] & -> & Hin). exists k. by apply elem_of_map_to_list in Hin.
  - intros (k & Hk). exists (k, e). split; [done|]. by apply elem_of_map_to_list.
Qed.

(** The entries of a well-formed map have pairwise different mapped keys. *)
Lemma Entries_nodup cmm :
  wf cmm → NoDup ((λ e, cm_apply (casemap cmm) (originalKey e)) <$> CMM.Entries cmm).
Proof.
  intros Hwf. unfold CMM.Entries. rewrite <-list_fmap_compose.
  rewrite (list_fmap_ext _ fst).
  { apply NoDup_fst_map_to_list. }
  intros i [k e] Hi. simpl. eapply Hwf, elem_of_map_to_list, list_elem_of_lookup_2, Hi.
Qed.

(** Collision-free rebuilding: an entry is found under its mapped key, and only the
    given entries are. *)
Lemma rebuild_lookup cm order k e :
  NoDup ((λ e, cm_apply cm (originalKey e)) <$> order) →
  CMM.rebuild (V := V) cm order !! k = Some e ↔ e ∈ order ∧ cm_apply cm (originalKey e) = k.
Proof.
  induction order as [|x order IH] using rev_ind; intros Hnd.
  - unfold CMM.rebuild. simpl. rewrite lookup_empty. set_solver.
  - rewrite fmap_app in Hnd. apply NoDup_app in Hnd as (Hnd & Hx & _).
    rewrite rebuild_snoc, lookup_insert_Some, IH by done.
    rewrite elem_of_app, list_elem_of_singleton. split.
    + intros [[<- <-]|(Hne & Hin & Hk)]; auto.
    + intros [[Hin| ->] Hk]; [|auto]. right. split; [|done].
      intros Hxk. apply (Hx k).
      * apply list_elem_of_fmap. by exists e.
      * rewrite fmap_cons. rewrite Hxk. left.
Qed.

Lemma rebuild_perm cm order order' :
  NoDup ((λ e, cm_apply cm (originalKey e)) <$> order) → order ≡ₚ order' →
  CMM.rebuild (V := V) cm order = CMM.rebuild cm order'.
Proof.
  intros Hnd Hp. apply map_eq. intros k. apply option_eq. intros e.
  assert (NoDup ((λ e, cm_apply cm (originalKey e)) <$> order')) by (by rewrite <-Hp).
  rewrite !rebuild_lookup by done. by rewrite Hp.
Qed.

Lemma rebuild_size cm order :
  NoDup ((λ e, cm_apply cm (originalKey e)) <$> order) →
  size (CMM.rebuild (V := V) cm order) = length order.
Proof.
  induction order as [|x order IH] using rev_ind; intros Hnd; [done|].
  rewrite fmap_app in Hnd. apply NoDup_app in Hnd as (Hnd & Hx & _).
  assert (CMM.rebuild cm order !! cm_apply cm (originalKey x) = None) as Hfresh.
  { apply eq_None_not_Some. intros [e (He & Hk)%rebuild_lookup]; [|done].
    apply (Hx (cm_apply cm (originalKey x))); [|left].
    apply list_elem_of_fmap. by exists e. }
  rewrite rebuild_snoc, map_size_insert_None, IH, length_app by done. simpl. lia.
Qed.

Lemma length_Entries cmm : length (CMM.Entries cmm) = CMM.Len cmm.
Proof. unfold CMM.Entries, CMM.Len. by rewrite length_fmap, length_map_to_list. Qed.
End facts.

#[export] Hint Resolve New_wf Set_wf Del_wf SetCaseMapping_in_wf : soju.
End CMMFacts.

Import CMMFacts.

(** One step of a client of the map; [SetCaseMapping] may visit the entries in any
    order. *)
Inductive cmm_step {V} : CaseMappingMap V → CaseMappingMap V → Prop :=
| step_Set cmm name v : cmm_step cmm (CMM.Set_ cmm name v)
| step_Del cmm name : cmm_step cmm (CMM.Del cmm name)
| step_SetCaseMapping cmm order cm :
    order ≡ₚ CMM.Entries cmm → cmm_step cmm (CMM.SetCaseMapping_in order cm).

(** C39: Each entry stays filed under the mapped form of the name it was first stored
    with, whatever operations a client runs and whatever order iteration takes. *)
Theorem cmm_reachable_wf {V} (cm : CaseMapping) (cmm : CaseMappingMap V) :
  rtc cmm_step (CMM.New cm) cmm → wf cmm.
Proof.
  intros H. remember (CMM.New cm) as start eqn:E.
  assert (wf start) as Hs by (subst; auto with soju). clear E.
  induction H as [|x y z [] _ IH]; auto with soju.
Qed.

(** The map is a dictionary on names up to case: reading back what was stored,
    removing, and leaving every other name alone. *)
Theorem cmm_dictionary {V} (cmm : CaseMappingMap V) (a b : string) (v : V) :
  let same := cm_apply (casemap cmm) a = cm_apply (casemap cmm) b in
  (same → CMM.Get (CMM.Set_ cmm a v) b = Some v ∧ CMM.Get (CMM.Del cmm a) b = None ∧
          CMM.Get cmm a = CMM.Get cmm b) ∧
  (¬ same → CMM.Get (CMM.Set_ cmm a v) b = CMM.Get cmm b ∧
            CMM.Get (CMM.Del cmm a) b = CMM.Get cmm b) ∧
  CMM.Has cmm a = bool_decide (is_Some (CMM.Get cmm a)).
Proof.
  intros same. rewrite Get_Set, Get_Del. split_and!.
  - intros H. rewrite !decide_True by done. split_and!; [done..|]. by apply Get_casemap_eq.
  - intros H. by rewrite !decide_False.
  - apply Has_Get.
Qed.

(** Re-keying when no two stored names collide under the new mapping: the result does
    not depend on the iteration order, no entry is lost, and every stored name still
    reads its value. *)
Theorem SetCaseMapping_lossless {V} (cmm : CaseMappingMap V) (new : CaseMapping) order :
  order ≡ₚ CMM.Entries cmm →
  NoDup ((λ e, cm_apply new (originalKey e)) <$> order) →
  CMM.SetCaseMapping_in order new = CMM.SetCaseMapping cmm new ∧
  CMM.Len (CMM.SetCaseMapping_in order new) = CMM.Len cmm ∧
  ∀ e, e ∈ CMM.Entries cmm →
       CMM.Get (CMM.SetCaseMapping_in order new) (originalKey e) = Some (value e).
Proof.
  intros Hp Hnd. split_and!.
  - unfold CMM.SetCaseMapping, CMM.SetCaseMapping_in. f_equal. by apply rebuild_perm.
  - rewrite <-(length_Entries cmm), <-Hp. by apply rebuild_size.
  - intros e He. unfold CMM.Get. simpl.
    rewrite (proj2 (rebuild_lookup new order _ e Hnd)); [done|]. by rewrite Hp.
Qed.

Definition cmm_demo : CaseMappingMap nat :=
  CMM.Set_ (CMM.Set_ (CMM.New CaseMappingASCII) "#Soju" 1%nat) "Simon" 2%nat.

Lemma cmm_reachable_wf_witness : rtc cmm_step (CMM.New CaseMappingASCII) cmm_demo ∧ wf cmm_demo.
Proof.
  assert (rtc cmm_step (CMM.New CaseMappingASCII) cmm_demo) as H.
  { eapply rtc_l; [apply (step_Set _ "#Soju" 1%nat)|].
    eapply rtc_l; [apply (step_Set _ "Simon" 2%nat)|]. apply rtc_refl. }
  split; [exact H|]. apply (cmm_reachable_wf CaseMappingASCII _ H).
Defined.

Lemma SetCaseMapping_lossless_witness :
  CMM.Len (CMM.SetCaseMapping cmm_demo CaseMappingRFC1459) = 2%nat.
Proof.
  apply (SetCaseMapping_lossless cmm_demo CaseMappingRFC1459 (CMM.Entries cmm_demo)).
  - reflexivity.
  - apply (bool_decide_unpack _). vm_compute. exact I.
Defined.

(** Why [newNetwork] starts from the ASCII mapping: with a coarser mapping two
    channels may collapse into one entry. *)
Example SetCaseMapping_collision :
  let cmm := CMM.Set_ (CMM.Set_ (CMM.New CaseMappingASCII) "#a[" 1%nat) "#a{" 2%nat in
  CMM.Len cmm = 2%nat ∧ CMM.Len (CMM.SetCaseMapping cmm CaseMappingRFC1459) = 1%nat.
Proof. by vm_compute. Qed.
