(* ===== verification/Membership.v ===== *)
(** * Channel memberships (xirc/xirc.go, irc.go, upstream.go)

    A [MembershipSet] is the list of a member's ranks in descending order of the
    server's PREFIX list ([availableMemberships]). *)

From S2P Require Import Prelude GoStrings GoUnicode IrcMessage.

Open Scope string_scope.
Open Scope list_scope.

(** ** Data and operations *)

Record Membership := mkMembership { Mode : ascii; MPrefixChar : ascii }.
#[export] Instance Membership_eq_dec : EqDecision Membership.
Proof. solve_decision. Defined.

Abbreviation MembershipSet := (list Membership).

Definition stdMemberships : list Membership :=
  [mkMembership "q" "~"; mkMembership "a" "&"; mkMembership "o" "@";
   mkMembership "h" "%"; mkMembership "v" "+"].

(** The loop of [MembershipSet.Add]: the index to insert at, or [None] for the early
    return when the membership is already there. *)
Fixpoint Add_loop (l : MembershipSet) (new : Membership) (avail : list Membership) (i : nat) :
    option nat :=
  match avail with
  | [] => Some i
  | am :: avail' =>
    if (length l <=? i)%nat then Some i
    else if decide (l !! i = Some am) then
      if decide (am = new) then None else Add_loop l new avail' (S i)
    else if decide (am = new) then Some i
    else Add_loop l new avail' i
  end.

Definition MembershipSet_Add (ms : MembershipSet) (avail : list Membership) (new : Membership) :
    MembershipSet :=
  match Add_loop ms new avail 0 with
  | None => ms
  | Some i => take i ms ++ new :: drop i ms
  end.

Fixpoint MembershipSet_Remove (ms : MembershipSet) (m : Membership) : MembershipSet :=
  match ms with
  | [] => []
  | x :: ms' => if decide (x = m) then ms' else x :: MembershipSet_Remove ms' m
  end.

(** [parseMembershipPrefix]: the index into [s] is the part of [s] still to read. *)
Fixpoint parseMembershipPrefix (avail : list Membership) (s : string) : MembershipSet * string :=
  match avail with
  | [] => ([], s)
  | m :: avail' =>
    match s with
    | "" => ([], s)
    | String c s' =>
      if decide (c = MPrefixChar m) then
        let '(ms, nick) := parseMembershipPrefix avail' s' in (m :: ms, nick)
      else parseMembershipPrefix avail' s
    end
  end.

(** [formatMemberPrefix]: the single prefix is converted as a code point, the list of
    prefixes as bytes. *)
Definition formatMemberPrefix (ms : MembershipSet) (multi_prefix : bool) : string :=
  if negb multi_prefix then
    match ms with
    | [] => ""
    | m :: _ => EncodeRune (byte_val (MPrefixChar m))
    end
  else str_of_list (MPrefixChar <$> ms).

(** [stripMemberPrefixes]: [byte(r)] keeps the low eight bits of the rune. *)
Definition stripMemberPrefixes (flags : string) (avail : list Membership) : string :=
  strings_Map (λ r,
    if existsb (λ v, bool_decide (byte_of (r mod 256) = MPrefixChar v)) avail
    then None else Some r) flags.

(** [handleMemberships]: the new [availableMemberships], or the error that leaves them
    unchanged. Both bytes of the i-th entry are read at checked indices. *)
Definition byte_at (s : string) (i : nat) : res goerr ascii :=
  match String.get i s with Some c => Ok c | None => Panic "index out of range" end.

Fixpoint memberships_loop (s : string) (sep : nat) (n i : nat) : res goerr (list Membership) :=
  match n with
  | O => Ok []
  | S n' =>
    mode ← byte_at s (i + 1);
    prefix ← byte_at s (sep + i + 1);
    rest ← memberships_loop s sep n' (S i);
    Ok (mkMembership mode prefix :: rest)
  end.

Definition handleMemberships (s : string) : res goerr (list Membership) :=
  match s with
  | "" => Ok []
  | String c0 _ =>
    if negb (bool_decide (c0 = "("%char)) then Err (Errorf "malformed ISUPPORT PREFIX value: %v")
    else match IndexByte s ")"%char with
    | None => Err (Errorf "malformed ISUPPORT PREFIX value: %v")
    | Some sep =>
      if negb (slen s =? sep * 2)%nat then Err (Errorf "malformed ISUPPORT PREFIX value: %v")
      else memberships_loop s sep (slen s / 2 - 1) 0
    end
  end.

(** ** Insertion keeps the set sorted by rank *)

(** Insertion by rank, by recursion on the two sorted lists at once. *)
Fixpoint insert_rank (avail : list Membership) (ms : MembershipSet) (new : Membership) :
    MembershipSet :=
  match avail with
  | [] => new :: ms
  | am :: avail' =>
    match ms with
    | [] => [new]
    | m :: ms' =>
      if decide (m = am) then if decide (am = new) then ms else m :: insert_rank avail' ms' new
      else if decide (am = new) then new :: ms
      else insert_rank avail' ms new
    end
  end.

Lemma Add_loop_insert_rank avail pre ms new :
  match Add_loop (pre ++ ms) new avail (length pre) with
  | None => pre ++ ms
  | Some i => take i (pre ++ ms) ++ new :: drop i (pre ++ ms)
  end = pre ++ insert_rank avail ms new.
Proof.
  assert (∀ ms, take (length pre) (pre ++ ms) ++ new :: drop (length pre) (pre ++ ms)
                = pre ++ new :: ms) as Hins.
  { intros. by rewrite take_app_length, drop_app_length. }
  revert pre ms Hins. induction avail as [|am avail IH]; intros pre ms Hins; simpl; [apply Hins|].
  rewrite length_app. destruct ms as [|m ms]; simpl.
  { rewrite (proj2 (Nat.leb_le _ _)) by lia. apply Hins. }
  rewrite (proj2 (Nat.leb_gt _ _)) by lia.
  rewrite lookup_app_r, Nat.sub_diag by lia. simpl.
  destruct (decide (m = am)) as [->|Hne].
  - rewrite decide_True by done. case_decide; [done|].
    specialize (IH (pre ++ [am]) ms). rewrite length_app in IH. simpl in IH.
    rewrite Nat.add_1_r, <-!app_assoc in IH. simpl in IH. apply IH. intros ms'.
    replace (S (length pre)) with (length (pre ++ [am])) by (rewrite length_app; simpl; lia).
    replace (pre ++ am :: ms') with ((pre ++ [am]) ++ ms') by (by rewrite <-app_assoc).
    by rewrite take_app_length, drop_app_length, <-app_assoc.
  - rewrite decide_False by congruence. case_decide; [apply Hins|]. by apply IH.
Qed.

Lemma MembershipSet_Add_insert_rank ms avail new :
  MembershipSet_Add ms avail new = insert_rank avail ms new.
Proof. apply (Add_loop_insert_rank avail [] ms new). Qed.

Lemma insert_rank_sublist avail ms new :
  NoDup avail → ms `sublist_of` avail → new ∈ avail →
  insert_rank avail ms new `sublist_of` avail.
Proof.
  revert ms. induction avail as [|am avail IH]; intros ms Hnd Hsub Hin; [set_solver|].
  apply NoDup_cons in Hnd as [Hna Hnd]. simpl. destruct ms as [|m ms].
  { by apply singleton_sublist_l. }
  apply elem_of_cons in Hin. case_decide as Hm.
  - subst m. case_decide; [done|]. apply sublist_skip, IH; [done| |naive_solver].
    apply sublist_cons_r in Hsub as [Hsub|(l' & [= <-] & ?)]; [|done].
    exfalso. apply Hna. eapply elem_of_sublist; [|exact Hsub]. left.
  - apply sublist_cons_r in Hsub as [Hsub|(l' & [= <-] & ?)]; [|done].
    case_decide; [subst; by apply sublist_skip|].
    apply sublist_cons, IH; [done..|naive_solver].
Qed.

Lemma elem_of_insert_rank avail ms new x :
  x ∈ insert_rank avail ms new ↔ x = new ∨ x ∈ ms.
Proof.
  revert ms. induction avail as [|am avail IH]; intros ms; simpl; [set_solver|].
  destruct ms as [|m ms]; [set_solver|].
  repeat case_decide; subst; rewrite ?elem_of_cons, ?IH, ?elem_of_cons; naive_solver.
Qed.

Lemma Remove_sublist ms m : MembershipSet_Remove ms m `sublist_of` ms.
Proof.
  induction ms as [|x ms IH]; simpl; [done|]. case_decide.
  - by apply sublist_cons.
  - by apply sublist_skip.
Qed.

Lemma elem_of_Remove ms m x :
  NoDup ms → x ∈ MembershipSet_Remove ms m ↔ x ∈ ms ∧ x ≠ m.
Proof.
  induction ms as [|y ms IH]; simpl; intros Hnd; [set_solver|].
  apply NoDup_cons in Hnd as [Hy Hnd]. case_decide as Hd.
  - subst. rewrite elem_of_cons. split; [intros Hx; split; [by right|congruence]|naive_solver].
  - rewrite !elem_of_cons, IH by done. naive_solver.
Qed.

(** Adding a rank that is there changes nothing. *)
Lemma insert_rank_present avail ms new : NoDup avail → ms `sublist_of` avail → new ∈ avail → new ∈ ms → insert_rank avail ms new = ms.
Proof.
  revert ms. induction avail as [|am avail IH]; intros ms Hnd Hsub Hin Hmem; [set_solver|].
  apply NoDup_cons in Hnd as [Hna Hnd]. simpl. destruct ms as [|m ms]; [set_solver|].
  apply sublist_cons_r in Hsub as [Hsub|(l' & [= <- <-] & Hsub)].
  - assert (m ∈ avail) as Hm by (eapply elem_of_sublist; [left|exact Hsub]).
    assert (new ∈ avail) by (by eapply elem_of_sublist).
    rewrite decide_False by congruence. rewrite decide_False by congruence. by apply IH.
  - rewrite decide_True by done. case_decide as Heq; [done|].
    apply elem_of_cons in Hmem as [?|Hmem]; [congruence|].
    f_equal. apply IH; [done..| |done]. by eapply elem_of_sublist.
Qed.

(** Adding and removing ranks of a member keeps them a duplicate-free selection of the
    server's PREFIX list in rank order; adding adds exactly that rank, twice like once, and
    removing removes exactly that rank. *)
Theorem MembershipSet_ranks (avail : list Membership) (ms : MembershipSet) (new old : Membership) :
  NoDup avail → ms `sublist_of` avail → new ∈ avail →
  let added := MembershipSet_Add ms avail new in
  let removed := MembershipSet_Remove ms old in
  added `sublist_of` avail ∧ NoDup added ∧ (∀ x, x ∈ added ↔ x = new ∨ x ∈ ms) ∧ (new ∈ ms → added = ms) ∧
  removed `sublist_of` avail ∧ NoDup removed ∧ (∀ x, x ∈ removed ↔ x ∈ ms ∧ x ≠ old).
Proof.
  intros Hnd Hsub Hin added removed. unfold added, removed. rewrite MembershipSet_Add_insert_rank.
  assert (insert_rank avail ms new `sublist_of` avail) as Hs by (by apply insert_rank_sublist).
  assert (MembershipSet_Remove ms old `sublist_of` avail) as Hr by (etransitivity; [apply Remove_sublist|done]).
  split_and!; [done|by eapply sublist_NoDup|apply elem_of_insert_rank|by apply insert_rank_present|done|by eapply sublist_NoDup|].
  intros x. apply elem_of_Remove. by eapply sublist_NoDup.
Qed.

(** ** Parsing NAMES entries *)

Definition starts_with_prefix (avail : list Membership) (nick : string) : bool :=
  match nick with
  | "" => false
  | String c _ => existsb (λ m, bool_decide (c = MPrefixChar m)) avail
  end.

(** A NAMES entry written with all the prefixes of a member (multi-prefix) is read
    back as the same ranks and nick, when the server's prefixes are pairwise different
    and the nick does not begin with one of them. *)
Theorem parse_format_membership (avail : list Membership) (ms : MembershipSet) (nick : string) :
  NoDup (MPrefixChar <$> avail) → ms `sublist_of` avail →
  starts_with_prefix avail nick = false →
  parseMembershipPrefix avail (formatMemberPrefix ms true +:+ nick) = (ms, nick).
Proof.
  unfold formatMemberPrefix. simpl. intros Hnd Hsub.
  induction Hsub as [|m ms avail Hsub IH|m ms avail Hsub IH]; intros Hnick; rewrite ?fmap_cons in *; simpl in *.
  - done.
  - apply NoDup_cons in Hnd as [_ Hnd]. rewrite decide_True by done.
    rewrite IH; [done..|]. destruct nick; simpl in *; [done|]. by bool_to_prop.
  - apply NoDup_cons in Hnd as [Hm Hnd].
    assert (starts_with_prefix avail nick = false) as Hn.
    { destruct nick; simpl in *; [done|]. by bool_to_prop. }
    destruct (str_of_list (MPrefixChar <$> ms) +:+ nick) as [|c s] eqn:E.
    { destruct ms; simpl in E; [subst; by destruct avail|done]. }
    rewrite decide_False.
    { by apply IH. }
    intros ->. destruct ms as [|m' ms].
    + simpl in E. subst nick. simpl in Hnick. apply orb_false_iff in Hnick as [Hc _]. by apply bool_decide_eq_false in Hc.
    + rewrite fmap_cons in E. simplify_eq/=. apply Hm, list_elem_of_fmap. exists m'. split; [done|].
      eapply elem_of_sublist; [left|exact Hsub].
Qed.

(** ** The ISUPPORT PREFIX value *)

Lemma get_app_ge s1 s2 i : (slen s1 ≤ i)%nat → String.get i (s1 +:+ s2) = String.get (i - slen s1) s2.
Proof.
  revert i. induction s1 as [|c s1 IH]; simpl; intros i Hi; [by rewrite Nat.sub_0_r|].
  destruct i as [|i]; [lia|]. simpl. apply IH. lia.
Qed.

Lemma get_app_lt s1 s2 i : (i < slen s1)%nat → String.get i (s1 +:+ s2) = String.get i s1.
Proof.
  revert i. induction s1 as [|c s1 IH]; simpl; intros i Hi; [lia|].
  destruct i as [|i]; [done|]. simpl. apply IH. lia.
Qed.

Lemma get_is_Some s i : (i < slen s)%nat → ∃ c, String.get i s = Some c.
Proof.
  revert i. induction s as [|c s IH]; simpl; intros i Hi; [lia|].
  destruct i; [by eexists|]. apply IH. lia.
Qed.

Lemma memberships_loop_ok s sep n i :
  (sep + i + n < slen s)%nat → ∃ l, memberships_loop s sep n i = Ok l ∧ length l = n.
Proof.
  revert i. induction n as [|n IH]; intros i Hi; simpl; [by exists []|].
  destruct (get_is_Some s (i + 1)) as [c1 H1]; [lia|].
  destruct (get_is_Some s (sep + i + 1)) as [c2 H2]; [lia|].
  destruct (IH (S i)) as (l & Hl & Hlen); [lia|].
  unfold byte_at. rewrite H1, H2. simpl. rewrite Hl. simpl.
  eexists; split; [done|]. simpl. lia.
Qed.

Lemma slen_str_of_list l : slen (str_of_list l) = length l.
Proof. induction l; simpl; congruence. Qed.

Lemma memberships_loop_zip modes prefixes pre1 pre2 tail :
  length modes = length prefixes →
  slen pre1 = slen pre2 →
  memberships_loop
    ("(" +:+ pre1 +:+ str_of_list modes +:+ ")" +:+ pre2 +:+ str_of_list prefixes +:+ tail)
    (S (slen pre1 + length modes)) (length modes) (slen pre1)
  = Ok (zip_with mkMembership modes prefixes).
Proof.
  revert prefixes pre1 pre2. induction modes as [|m modes IH]; intros [|p prefixes] pre1 pre2 Hl Hp;
    simplify_eq/=; [done|].
  set (s := String "(" _).
  assert (byte_at s (slen pre1 + 1) = Ok m) as ->.
  { unfold byte_at, s. rewrite Nat.add_1_r. simpl. by rewrite get_app_ge, Nat.sub_diag. }
  assert (byte_at s (S (slen pre1 + S (length modes) + slen pre1 + 1)) = Ok p) as ->.
  { unfold byte_at, s. simpl. rewrite get_app_ge by lia.
    replace (slen pre1 + S (length modes) + slen pre1 + 1 - slen pre1)%nat
      with (S (length modes + S (slen pre2))) by lia. simpl.
    rewrite get_app_ge by (rewrite slen_str_of_list; lia). rewrite slen_str_of_list.
    replace (length modes + S (slen pre2) - length modes)%nat with (S (slen pre2)) by lia. simpl.
    by rewrite get_app_ge, Nat.sub_diag. }
  specialize (IH prefixes (pre1 +:+ String m "") (pre2 +:+ String p "")).
  rewrite !slen_app, !str_app_assoc in IH. simpl in IH. rewrite !Nat.add_1_r in IH.
  simpl. unfold s. rewrite Nat.add_succ_r. simpl in IH. rewrite IH by lia. done.
Qed.

Lemma IndexByte_app_char l r c : c ∉ l → IndexByte (str_of_list l +:+ String c r) c = Some (length l).
Proof.
  induction l as [|d l IH]; simpl; intros Hc.
  - by rewrite decide_True.
  - apply not_elem_of_cons in Hc as [? Hc]. rewrite decide_False by congruence. by rewrite IH.
Qed.

(** [handleMemberships] accepts every value of the form [(modes)prefixes] with as many
    modes as prefixes and pairs them up in order, and no value makes it read out of
    range. *)
Theorem handleMemberships_correct (s : string) :
  (∀ w, handleMemberships s ≠ Panic w) ∧
  ∀ modes prefixes,
    s = "(" +:+ str_of_list modes +:+ ")" +:+ str_of_list prefixes →
    ")"%char ∉ modes → length modes = length prefixes →
    handleMemberships s = Ok (zip_with mkMembership modes prefixes).
Proof.
  split.
  - intros w. unfold handleMemberships. destruct s as [|c0 s]; [done|].
    case_match; [done|]. pose proof (IndexByte_spec (String c0 s) ")"%char) as Hi.
    destruct IndexByte as [sep|]; [|done]. case_match eqn:El; [done|]. bool_to_prop.
    destruct (memberships_loop_ok (String c0 s) sep (slen (String c0 s) / 2 - 1) 0) as (l & -> & _);
      [|done].
    rewrite El, Nat.div_mul by done. lia.
  - intros modes prefixes -> Hm Hl. unfold handleMemberships.
    change ("(" +:+ ?x) with (String "(" x). cbv iota beta.
    rewrite bool_decide_eq_true_2 by done. cbn [negb].
    change (IndexByte (String "(" ?x) ")"%char) with (S <$> IndexByte x ")"%char).
    change (")" +:+ ?x) with (String ")" x). rewrite IndexByte_app_char by done. simpl fmap.
    assert (slen (String "(" (str_of_list modes +:+ String ")" (str_of_list prefixes)))
            = S (length modes) * 2)%nat as Hlen.
    { simpl. rewrite slen_app. simpl. rewrite !slen_str_of_list. lia. }
    rewrite Hlen, Nat.eqb_refl, Nat.div_mul by done. simpl. rewrite Nat.sub_0_r.
    pose proof (memberships_loop_zip modes prefixes "" "" "" Hl eq_refl) as Hz.
    simpl in Hz. rewrite str_app_nil_r in Hz. exact Hz.
Qed.

(** ** Witnesses *)

(** Sublists of concrete lists, greedily. *)
Ltac concrete_sublist := repeat first [apply sublist_nil_l | apply sublist_skip | apply sublist_cons].

Definition op := mkMembership "o" "@".
Definition voice := mkMembership "v" "+".

Lemma MembershipSet_ranks_witness :
  MembershipSet_Add [voice] stdMemberships op = [op; voice] ∧ NoDup (MembershipSet_Add [voice] stdMemberships op) ∧
  MembershipSet_Remove [voice] voice `sublist_of` stdMemberships.
Proof.
  split; [by vm_compute|].
  destruct (MembershipSet_ranks stdMemberships [voice] op voice) as (_ & H1 & _ & _ & H2 & _).
  - apply (bool_decide_unpack _). vm_compute. exact I.
  - concrete_sublist.
  - apply (bool_decide_unpack _). vm_compute. exact I.
  - exact (conj H1 H2).
Defined.

Lemma parse_format_membership_witness :
  parseMembershipPrefix stdMemberships (formatMemberPrefix [op; voice] true +:+ "simon")
  = ([op; voice], "simon").
Proof.
  apply (parse_format_membership stdMemberships [op; voice] "simon").
  - apply (bool_decide_unpack _). vm_compute. exact I.
  - concrete_sublist.
  - vm_compute. reflexivity.
Defined.

Lemma handleMemberships_correct_witness :
  handleMemberships "(ov)@+" = Ok [op; voice].
Proof.
  apply (proj2 (handleMemberships_correct "(ov)@+") ["o"; "v"]%char ["@"; "+"]%char).
  - reflexivity.
  - apply (bool_decide_unpack _). vm_compute. exact I.
  - reflexivity.
Defined.
