(* ===== verification/Modes.v ===== *)
(** * User and channel modes (irc.go, upstream.go) *)

From S2P Require Import Prelude GoStrings GoUnicode IrcMessage CaseMapping Membership.

Open Scope string_scope.
Open Scope list_scope.

(** ** User modes *)

Abbreviation userModes := string.

Definition userModes_Has (ms : userModes) (c : ascii) : bool :=
  bool_decide (is_Some (IndexByte ms c)).

(** [*ms += userModes(c)] converts the byte as a code point. *)
Definition userModes_Add (ms : userModes) (c : ascii) : userModes :=
  if userModes_Has ms c then ms else ms +:+ EncodeRune (byte_val c).

Definition userModes_Del (ms : userModes) (c : ascii) : userModes :=
  match IndexByte ms c with
  | Some i => str_take i ms +:+ str_drop (S i) ms
  | None => ms
  end.

Definition sign_of (c : ascii) : option bool :=
  if decide (c = "+"%char) then Some true
  else if decide (c = "-"%char) then Some false
  else None.

(** The loop of [userModes.Apply]; [plusMinus] is [None] before the first sign. On an
    error the modes applied so far stay. *)
Fixpoint Apply_loop (ms : userModes) (plusMinus : option bool) (s : string) :
    userModes * option goerr :=
  match s with
  | "" => (ms, None)
  | String c s' =>
    match sign_of c with
    | Some sg => Apply_loop ms (Some sg) s'
    | None =>
      match plusMinus with
      | Some true => Apply_loop (userModes_Add ms c) plusMinus s'
      | Some false => Apply_loop (userModes_Del ms c) plusMinus s'
      | None => (ms, Some (Errorf "malformed modestring %q: missing plus/minus"))
      end
    end
  end.

Definition userModes_Apply (ms : userModes) (s : string) : userModes * option goerr :=
  Apply_loop ms None s.

(** ** Channel modes *)

Inductive channelModeType := modeTypeA | modeTypeB | modeTypeC | modeTypeD.
#[export] Instance channelModeType_eq_dec : EqDecision channelModeType.
Proof. solve_decision. Defined.

Definition stdChannelModes : gmap ascii channelModeType :=
  list_to_map [("b", modeTypeA); ("e", modeTypeA); ("I", modeTypeA); ("k", modeTypeB);
    ("l", modeTypeC); ("i", modeTypeD); ("m", modeTypeD); ("n", modeTypeD);
    ("s", modeTypeD); ("t", modeTypeD)]%char.

Abbreviation channelModes := (gmap ascii string).

(** What [applyChannelModes] reads and writes of a channel and its connection. A nil
    [modes] map is [None]. *)
Record modeState := mkModeState {
  ms_members : CaseMappingMap MembershipSet;
  ms_modes : option channelModes
}.

Definition set_mode (st : modeState) (mode : ascii) (arg : string) : modeState :=
  mkModeState (ms_members st) (<[mode := arg]> <$> ms_modes st).
Definition del_mode (st : modeState) (mode : ascii) : modeState :=
  mkModeState (ms_members st) (delete mode <$> ms_modes st).

Section apply_modes.
Context (availableMemberships : list Membership)
        (availableChannelModes : gmap ascii channelModeType).

Definition apply_membership (st : modeState) (plus : bool) (member : string) (m : Membership) :
    modeState :=
  match CMM.Get (ms_members st) member with
  | None => st
  | Some ms =>
    let ms' := if plus then MembershipSet_Add ms availableMemberships m
               else MembershipSet_Remove ms m in
    mkModeState (CMM.Set_ (ms_members st) member ms') (ms_modes st)
  end.

(** The loop of [applyChannelModes]; changes made before an error stay. *)
Fixpoint apply_modes_loop (st : modeState) (arguments : list string) (nextArgument : nat)
    (plusMinus : option bool) (modeStr : string) : modeState * option goerr :=
  match modeStr with
  | "" => (st, None)
  | String mode rest =>
    match sign_of mode with
    | Some sg => apply_modes_loop st arguments nextArgument (Some sg) rest
    | None =>
      match plusMinus with
      | None => (st, Some (Errorf "malformed modestring %q: missing plus/minus"))
      | Some plus =>
        match List.find (λ m, bool_decide (Mode m = mode)) availableMemberships with
        | Some membership =>
          match arguments !! nextArgument with
          | None => (st, Some (Errorf "malformed modestring %q: missing mode argument for %c%c"))
          | Some member =>
            apply_modes_loop (apply_membership st plus member membership)
              arguments (S nextArgument) plusMinus rest
          end
        | None =>
          match availableChannelModes !! mode with
          | None => apply_modes_loop st arguments nextArgument plusMinus rest
          | Some mt =>
            if decide (mt = modeTypeA) then
              apply_modes_loop st arguments (S nextArgument) plusMinus rest
            else if decide (mt = modeTypeB ∨ (mt = modeTypeC ∧ plus = true)) then
              let st' := if plus then set_mode st mode (default "" (arguments !! nextArgument))
                         else del_mode st mode in
              apply_modes_loop st' arguments (S nextArgument) plusMinus rest
            else
              let st' := if plus then set_mode st mode "" else del_mode st mode in
              apply_modes_loop st' arguments nextArgument plusMinus rest
          end
        end
      end
    end
  end.

Definition applyChannelModes (st : modeState) (modeStr : string) (arguments : list string) :
    modeState * option goerr :=
  apply_modes_loop st arguments 0 None modeStr.
End apply_modes.

(** [channelModes.Format], for a given iteration order of the map. *)
Definition has_value (kv : ascii * string) : bool := negb (bool_decide (kv.2 = "")).

Definition mode_letters (l : list (ascii * string)) : string :=
  str_concat ((λ kv, EncodeRune (byte_val kv.1)) <$> l).

Definition channelModes_Format (order : list (ascii * string)) : string * list string :=
  let withValues := List.filter has_value order in
  let withoutValues := List.filter (λ kv, negb (has_value kv)) order in
  ("+" +:+ mode_letters withValues +:+ mode_letters withoutValues, withValues.*2).

(** [handleChanModes]: the new [availableChannelModes], or the error. *)
Definition add_mode_class (modes : gmap ascii channelModeType) (part : string) (mt : channelModeType) :=
  foldl (λ m c, <[c := mt]> m) modes (str_list part).

Definition handleChanModes (s : string) : res goerr (gmap ascii channelModeType) :=
  match SplitN s "," 5 with
  | a :: b :: c :: d :: _ =>
    Ok (add_mode_class (add_mode_class (add_mode_class (add_mode_class ∅
          a modeTypeA) b modeTypeB) c modeTypeC) d modeTypeD)
  | _ => Err (Errorf "malformed ISUPPORT CHANMODES value: %v")
  end.

(** ** User modes: the last sign wins *)

Lemma Has_spec ms c : userModes_Has ms c = true ↔ c ∈ str_list ms.
Proof.
  unfold userModes_Has. rewrite bool_decide_eq_true, <-str_mem_spec.
  pose proof (IndexByte_spec ms c) as H. destruct (IndexByte ms c) as [i|].
  - destruct H as (_ & -> & _). rewrite str_mem_app. simpl.
    rewrite (bool_decide_eq_true_2 (c = c)) by done. rewrite orb_true_r.
    split; [done|]. by eexists.
  - rewrite H. by split; [intros []|].
Qed.

Lemma Has_ext ms ms' c : (c ∈ str_list ms ↔ c ∈ str_list ms') → userModes_Has ms c = userModes_Has ms' c.
Proof. intros H. apply eq_bool_prop_intro. by rewrite !Is_true_true, !Has_spec. Qed.

Lemma str_list_Add ms c :
  (byte_val c < RuneSelf)%Z →
  str_list (userModes_Add ms c) = if userModes_Has ms c then str_list ms else str_list ms ++ [c].
Proof.
  intros Hc. unfold userModes_Add. destruct (userModes_Has ms c); [done|].
  by rewrite str_list_app, EncodeRune_ascii.
Qed.

Lemma Add_nodup ms c :
  (byte_val c < RuneSelf)%Z → NoDup (str_list ms) → NoDup (str_list (userModes_Add ms c)).
Proof.
  intros Hc Hnd. rewrite str_list_Add by done. destruct (userModes_Has ms c) eqn:E; [done|].
  apply NoDup_app. split_and!; [done| |apply NoDup_singleton].
  intros x Hx ->%list_elem_of_singleton. apply Has_spec in Hx. congruence.
Qed.

Lemma Has_Add ms c x :
  (byte_val c < RuneSelf)%Z →
  userModes_Has (userModes_Add ms c) x = bool_decide (x = c) || userModes_Has ms x.
Proof.
  intros Hc. apply eq_bool_prop_intro.
  rewrite !Is_true_true, orb_true_iff, bool_decide_eq_true, !Has_spec, str_list_Add by done.
  destruct (userModes_Has ms c) eqn:E.
  - apply Has_spec in E. split; [by right|]. by intros [->|?].
  - rewrite elem_of_app, list_elem_of_singleton. tauto.
Qed.

Lemma str_list_Del ms c :
  ∃ l1 l2, str_list (userModes_Del ms c) = l1 ++ l2 ∧
  (str_list ms = l1 ++ c :: l2 ∧ c ∉ l1 ∨ str_list ms = l1 ++ l2 ∧ c ∉ str_list ms).
Proof.
  unfold userModes_Del. pose proof (IndexByte_spec ms c) as H.
  destruct (IndexByte ms c) as [i|].
  - destruct H as (_ & Heq & Hm).
    exists (str_list (str_take i ms)), (str_list (str_drop (S i) ms)).
    rewrite str_list_app. split; [done|]. left. split.
    + rewrite Heq at 1. by rewrite str_list_app.
    + rewrite <-str_mem_spec. congruence.
  - exists (str_list ms), []. rewrite app_nil_r. split; [done|]. right.
    split; [done|]. rewrite <-str_mem_spec. congruence.
Qed.

Lemma Del_nodup ms c : NoDup (str_list ms) → NoDup (str_list (userModes_Del ms c)).
Proof.
  intros Hnd. destruct (str_list_Del ms c) as (l1 & l2 & -> & [[Heq _]|[Heq _]]); rewrite Heq in Hnd; [|done].
  apply NoDup_app in Hnd as (H1 & H2 & [_ H3]%NoDup_cons).
  apply NoDup_app. set_solver.
Qed.

Lemma Has_Del ms c x :
  NoDup (str_list ms) →
  userModes_Has (userModes_Del ms c) x = negb (bool_decide (x = c)) && userModes_Has ms x.
Proof.
  intros Hnd. apply eq_bool_prop_intro.
  rewrite !Is_true_true, andb_true_iff, negb_true_iff, bool_decide_eq_false, !Has_spec.
  destruct (str_list_Del ms c) as (l1 & l2 & -> & [[Heq Hc]|[Heq Hc]]); rewrite Heq in *.
  - apply NoDup_app in Hnd as (_ & Hd & [Hc2 _]%NoDup_cons). set_solver.
  - set_solver.
Qed.

(** Whether mode [c] is set after the mode string [s]: the sign in force at its last
    occurrence, and its previous value [was] when it does not occur. *)
Fixpoint mode_after (plusMinus : option bool) (s : string) (c : ascii) (was : bool) : bool :=
  match s with
  | "" => was
  | String x s' =>
    match sign_of x with
    | Some sg => mode_after (Some sg) s' c was
    | None => mode_after plusMinus s' c
                (if decide (x = c) then default was plusMinus else was)
    end
  end.

Lemma Apply_loop_spec s : ∀ ms sg,
  is_ascii s = true → NoDup (str_list ms) →
  let '(ms', e) := Apply_loop ms (Some sg) s in
  e = None ∧ NoDup (str_list ms') ∧
  ∀ c, userModes_Has ms' c = mode_after (Some sg) s c (userModes_Has ms c).
Proof.
  induction s as [|x s IH]; intros ms sg Ha Hnd; simpl; [done|].
  simpl in Ha. bool_to_prop. destruct (sign_of x) as [sg'|]; [by apply IH|].
  destruct sg.
  - specialize (IH (userModes_Add ms x) true). destruct (Apply_loop _ _ s) as [ms' e].
    destruct IH as (? & ? & Hc); [done|by apply Add_nodup|]. split_and!; [done..|].
    intros c. rewrite Hc, Has_Add by done. f_equal. simpl. case_decide; subst.
    + by rewrite bool_decide_eq_true_2.
    + by rewrite bool_decide_eq_false_2 by congruence.
  - specialize (IH (userModes_Del ms x) false). destruct (Apply_loop _ _ s) as [ms' e].
    destruct IH as (? & ? & Hc); [done|by apply Del_nodup|]. split_and!; [done..|].
    intros c. rewrite Hc, Has_Del by done. f_equal. simpl. case_decide; subst.
    + by rewrite bool_decide_eq_true_2.
    + by rewrite bool_decide_eq_false_2 by congruence.
Qed.

(** Applying a mode string to a duplicate-free set of user modes keeps it
    duplicate-free; each mode ends as the sign in force at its last occurrence says,
    and a rejected mode string changes nothing. *)
Theorem userModes_Apply_correct (ms : userModes) (s : string) :
  is_ascii s = true → NoDup (str_list ms) →
  let '(ms', e) := userModes_Apply ms s in
  NoDup (str_list ms') ∧
  match e with
  | None => ∀ c, userModes_Has ms' c = mode_after None s c (userModes_Has ms c)
  | Some _ => ms' = ms ∧ ∃ c s', s = String c s' ∧ sign_of c = None
  end.
Proof.
  intros Ha Hnd. unfold userModes_Apply. destruct s as [|x s]; simpl; [done|].
  simpl in Ha. bool_to_prop. destruct (sign_of x) as [sg|] eqn:E.
  - pose proof (Apply_loop_spec s ms sg) as Hl. destruct (Apply_loop ms (Some sg) s) as [ms' e].
    by destruct Hl as (-> & ? & ?).
  - split; [done|]. split; [done|]. by exists x, s.
Qed.

Lemma userModes_Apply_correct_witness :
  userModes_Apply "iw" "+xB-i" = ("wxB", None) ∧ NoDup (str_list "wxB").
Proof.
  split; [by vm_compute|].
  apply (userModes_Apply_correct "iw" "+xB-i").
  - reflexivity.
  - apply (bool_decide_unpack _). vm_compute. exact I.
Defined.

(** ** Channel modes: what is formatted is applied back *)

Definition insert_all (m : channelModes) (l : list (ascii * string)) : channelModes :=
  foldl (λ m kv, <[kv.1 := kv.2]> m) m l.

Lemma insert_all_list_to_map l :
  insert_all ∅ l = list_to_map (reverse l).
Proof.
  induction l as [|kv l IH] using rev_ind; [done|].
  unfold insert_all in *. rewrite foldl_snoc, reverse_snoc, IH. by destruct kv.
Qed.

Lemma insert_all_perm (cm : channelModes) l : l ≡ₚ map_to_list cm → insert_all ∅ l = cm.
Proof.
  intros Hp. rewrite insert_all_list_to_map, <-(list_to_map_to_list cm).
  apply list_to_map_proper.
  - rewrite fmap_reverse, reverse_Permutation, Hp. apply NoDup_fst_map_to_list.
  - by rewrite reverse_Permutation.
Qed.

Lemma filter_partition_perm {A} (f : A → bool) (l : list A) :
  List.filter f l ++ List.filter (λ x, negb (f x)) l ≡ₚ l.
Proof.
  induction l as [|x l IH]; simpl; [done|]. destruct (f x); simpl.
  - by rewrite IH.
  - by rewrite <-Permutation_middle, IH.
Qed.

Section format_roundtrip.
Context (avm : list Membership) (avc : gmap ascii channelModeType).

(** A mode the server announced as a setting that can be shown with this value. *)
Definition formattable (kv : ascii * string) : Prop :=
  (byte_val kv.1 < RuneSelf)%Z ∧ sign_of kv.1 = None ∧
  List.find (λ m, bool_decide (Mode m = kv.1)) avm = None ∧
  ∃ mt, avc !! kv.1 = Some mt ∧ mt ≠ modeTypeA ∧ (kv.2 ≠ "" → mt ≠ modeTypeD).

Lemma mode_letters_cons kv l :
  (byte_val kv.1 < RuneSelf)%Z → mode_letters (kv :: l) = String kv.1 (mode_letters l).
Proof. intros H. unfold mode_letters. rewrite fmap_cons. simpl. by rewrite EncodeRune_ascii. Qed.

Lemma apply_with_values members l pre post m rest :
  Forall formattable l → Forall (λ kv, kv.2 ≠ "") l →
  apply_modes_loop avm avc (mkModeState members (Some m)) (pre ++ l.*2 ++ post) (length pre)
    (Some true) (mode_letters l +:+ rest)
  = apply_modes_loop avm avc (mkModeState members (Some (insert_all m l))) (pre ++ l.*2 ++ post)
      (length pre + length l) (Some true) rest.
Proof.
  intros Hf. revert pre m. induction Hf as [|kv l (Ha & Hs & Hm & mt & Hmt & HA & HD) Hf IH];
    intros pre m Hv; [simpl; by rewrite Nat.add_0_r|].
  apply Forall_cons in Hv as [Hkv Hv]. rewrite mode_letters_cons by done. rewrite fmap_cons.
  cbn [apply_modes_loop String.append]. rewrite Hs, Hm, Hmt, decide_False by done.
  rewrite decide_True by (destruct mt; naive_solver). cbv zeta.
  rewrite lookup_app_r, Nat.sub_diag by lia. cbn [app lookup list_lookup default].
  specialize (IH (pre ++ [kv.2]) (<[kv.1 := kv.2]> m) Hv).
  rewrite <-app_assoc, length_app in IH. simpl in IH. rewrite Nat.add_1_r in IH.
  unfold set_mode. simpl. rewrite IH. f_equal. lia.
Qed.

Lemma apply_without_values members l args next m :
  Forall formattable l → Forall (λ kv, kv.2 = "") l → (length args ≤ next)%nat →
  apply_modes_loop avm avc (mkModeState members (Some m)) args next (Some true) (mode_letters l)
  = (mkModeState members (Some (insert_all m l)), None).
Proof.
  intros Hf. revert next m. induction Hf as [|kv l (Ha & Hs & Hm & mt & Hmt & HA & HD) Hf IH];
    intros next m Hv Hn; [done|].
  apply Forall_cons in Hv as [Hkv Hv]. rewrite mode_letters_cons by done.
  cbn [apply_modes_loop]. rewrite Hs, Hm, Hmt, decide_False by done. cbv zeta.
  rewrite (lookup_ge_None_2 args next) by done. unfold set_mode. simpl.
  case_decide; (rewrite IH by (done || lia)); by rewrite <-Hkv at 1.
Qed.

(** The RPL_CHANNELMODEIS text that [Format] prints for a channel's modes, in any
    map order, makes [applyChannelModes] rebuild exactly those modes. *)
Theorem applyChannelModes_Format (cm : channelModes) (order : list (ascii * string)) members :
  order ≡ₚ map_to_list cm → Forall formattable order →
  let '(modeStr, params) := channelModes_Format order in
  applyChannelModes avm avc (mkModeState members (Some ∅)) modeStr params
  = (mkModeState members (Some cm), None).
Proof.
  intros Hp Hf. unfold channelModes_Format.
  set (l1 := List.filter has_value order). set (l2 := List.filter (λ kv, negb (has_value kv)) order).
  assert (l1 ++ l2 ≡ₚ order) as Hl by apply filter_partition_perm.
  assert (Forall formattable (l1 ++ l2)) as Hff by (by rewrite Hl).
  apply Forall_app in Hff as [Hf1 Hf2].
  assert (Forall (λ kv, kv.2 ≠ "") l1) as Hv1.
  { apply Forall_forall. intros kv Hkv%list_elem_of_In. apply filter_In in Hkv as [_ Hh].
    unfold has_value in Hh. by bool_to_prop. }
  assert (Forall (λ kv, kv.2 = "") l2) as Hv2.
  { apply Forall_forall. intros kv Hkv%list_elem_of_In. apply filter_In in Hkv as [_ Hh].
    unfold has_value in Hh. by bool_to_prop. }
  unfold applyChannelModes.
  change (apply_modes_loop avm avc ?st ?a 0 None ("+" +:+ ?s))
    with (apply_modes_loop avm avc st a 0 (Some true) s).
  pose proof (apply_with_values members l1 [] [] ∅ (mode_letters l2) Hf1 Hv1) as Hw.
  rewrite app_nil_r in Hw. simpl in Hw. rewrite Hw.
  rewrite apply_without_values by (done || (rewrite length_fmap; lia)).
  do 3 f_equal. unfold insert_all. rewrite <-foldl_app. apply insert_all_perm. by rewrite Hl.
Qed.
End format_roundtrip.

Lemma applyChannelModes_Format_witness :
  let cm : channelModes := list_to_map [("k"%char, "secret"); ("n"%char, "")] in
  applyChannelModes stdMemberships stdChannelModes
    (mkModeState (CMM.New CaseMappingASCII) (Some ∅))
    (channelModes_Format (map_to_list cm)).1 (channelModes_Format (map_to_list cm)).2
  = (mkModeState (CMM.New CaseMappingASCII) (Some cm), None).
Proof.
  intros cm.
  apply (applyChannelModes_Format stdMemberships stdChannelModes cm (map_to_list cm)
           (CMM.New CaseMappingASCII)).
  - reflexivity.
  - let l := eval vm_compute in (map_to_list cm) in change (map_to_list cm) with l.
    repeat constructor; simpl; try (vm_compute; reflexivity);
      eexists; (split; [vm_compute; reflexivity|]); split; discriminate || by intros [].
Defined.

(** ** CHANMODES *)

Lemma add_mode_class_lookup modes part mt c :
  add_mode_class modes part mt !! c = if str_mem c part then Some mt else modes !! c.
Proof.
  unfold add_mode_class. revert modes. induction part as [|d part IH]; intros modes; simpl; [done|].
  rewrite IH. destruct (str_mem c part); [by rewrite orb_true_r|]. rewrite orb_false_r.
  rewrite lookup_insert. case_decide; case_bool_decide; congruence.
Qed.

(** From a CHANMODES value with at least four classes each mode letter gets the type of
    the last of the four classes that lists it, extra classes are ignored, and shorter
    values are rejected. *)
Theorem handleChanModes_correct (parts : list string) :
  Forall (λ p, str_mem ","%char p = false) parts → parts ≠ [] →
  match handleChanModes (Join parts ",") with
  | Ok modes =>
    ∃ a b c d rest, parts = a :: b :: c :: d :: rest ∧
    ∀ x, modes !! x =
      if str_mem x d then Some modeTypeD else if str_mem x c then Some modeTypeC
      else if str_mem x b then Some modeTypeB else if str_mem x a then Some modeTypeA else None
  | Err _ => (length parts < 4)%nat
  | Panic _ => False
  end.
Proof.
  intros Hf Hne. unfold handleChanModes, SplitN. change (5 - 1)%nat with 4%nat.
  assert (∀ n (l : list string), Forall (λ p, str_mem ","%char p = false) l → l ≠ [] →
    split_upto n (Join l ",") "," =
    if decide (length l ≤ S n)%nat then l else take n l ++ [Join (drop n l) ","]) as Hsplit.
  { induction n as [|n IH]; intros l Hl Hlne.
    - destruct l as [|x [|y l]]; simpl; done.
    - destruct Hl as [|x l Hx Hl]; [done|]. destruct l as [|y l].
      + simpl. by rewrite Cut_char_none.
      + rewrite Join_cons by done. cbn [split_upto]. change ("," +:+ ?x) with (String "," x).
        rewrite Cut_char_app by done. rewrite IH by done. cbn [length take drop].
        repeat case_decide; try lia; done. }
  rewrite Hsplit by done.
  destruct parts as [|a [|b [|c [|d rest]]]]; simpl; try lia; [].
  case_decide; simpl.
  - exists a, b, c, d, rest. split; [done|]. intros x. rewrite !add_mode_class_lookup.
    by rewrite lookup_empty.
  - exists a, b, c, d, rest. split; [done|]. intros x. rewrite !add_mode_class_lookup.
    by rewrite lookup_empty.
Qed.

Lemma handleChanModes_correct_witness :
  ∃ modes, handleChanModes (Join ["beI"; "k"; "l"; "imnst"] ",") = Ok modes.
Proof.
  pose proof (handleChanModes_correct ["beI"; "k"; "l"; "imnst"]
                ltac:(repeat constructor) ltac:(discriminate)) as H.
  destruct (handleChanModes _) as [modes|e|w]; [by exists modes| |done].
  simpl in H. lia.
Defined.
