(* ===== verification/WhoX.v ===== *)
(** * WHOX replies (xirc/whox.go) *)

From S2P Require Import Prelude GoStrings GoUnicode IrcMessage.

Open Scope string_scope.
Open Scope list_scope.

(** ** Operations *)

Definition whoxFields : list ascii := str_list "tcuihsnfdlaor".

Record WHOXInfo := mkWHOXInfo {
  w_Token : string; w_Channel : string; w_Username : string; w_Hostname : string;
  w_Server : string; w_Nickname : string; w_Flags : string; w_Account : string;
  w_Realname : string
}.

Definition emptyWHOXInfo : WHOXInfo := mkWHOXInfo "" "" "" "" "" "" "" "" "".

(** A hostname that begins with a colon gets a zero in front. *)
Definition whox_hostname (info : WHOXInfo) : string :=
  if HasPrefix (w_Hostname info) ":" then "0" +:+ w_Hostname info else w_Hostname info.
Definition whox_channel (info : WHOXInfo) : string :=
  if decide (w_Channel info = "") then "*" else w_Channel info.

Definition WHOXInfo_get (info : WHOXInfo) (k : ascii) : string :=
  match k with
  | "t"%char => w_Token info
  | "c"%char => whox_channel info
  | "u"%char => w_Username info
  | "i"%char => "255.255.255.255"
  | "h"%char => whox_hostname info
  | "s"%char => w_Server info
  | "n"%char => w_Nickname info
  | "f"%char => w_Flags info
  | "d"%char => "0"
  | "l"%char => "0"
  | "a"%char =>
    if decide (w_Account info ≠ "" ∧ w_Account info ≠ "*") then w_Account info else "0"
  | "o"%char => "0"
  | "r"%char => w_Realname info
  | _ => ""
  end.

Definition WHOXInfo_set (info : WHOXInfo) (k : ascii) (v : string) : WHOXInfo :=
  let '(mkWHOXInfo t c u h s n f a r) := info in
  match k with
  | "t"%char => mkWHOXInfo v c u h s n f a r
  | "c"%char => mkWHOXInfo t v u h s n f a r
  | "u"%char => mkWHOXInfo t c v h s n f a r
  | "h"%char => mkWHOXInfo t c u v s n f a r
  | "s"%char => mkWHOXInfo t c u h v n f a r
  | "n"%char => mkWHOXInfo t c u h s v f a r
  | "f"%char => mkWHOXInfo t c u h s n v a r
  | "a"%char => mkWHOXInfo t c u h s n f v r
  | "r"%char => mkWHOXInfo t c u h s n f a v
  | _ => info
  end.

(** The requested fields, in the order of [whoxFields]; [fieldSet] is the set of bytes
    of [fields]. *)
Definition requested (fields : string) : list ascii :=
  List.filter (λ k, str_mem k fields) whoxFields.

Definition GenerateWHOXReply (fields : string) (info : WHOXInfo) : Message :=
  if decide (fields = "") then
    msg RPL_WHOREPLY ["*"; whox_channel info; w_Username info; whox_hostname info;
      w_Server info; w_Nickname info; w_Flags info; "0 " +:+ w_Realname info]
  else msg RPL_WHOSPCRPL ("*" :: (WHOXInfo_get info <$> requested fields)).

Definition ParseWHOXOptions `{UnicodeTables} (options : string) : string * string :=
  match SplitN options "%" 2 with
  | [_; rest] =>
    match SplitN rest "," 2 with
    | [f; token] =>
      let fields := ToLower f in (fields, if Contains fields "t" then token else "")
    | f :: _ => (ToLower f, "")
    | [] => ("", "")
    end
  | _ => ("", "")
  end.

Fixpoint parse_whox_values (info : WHOXInfo) (fields : list ascii) (values : list string) :
    res goerr WHOXInfo :=
  match fields with
  | [] => Ok info
  | k :: fields' =>
    match values with
    | [] => Err (Errorf "invalid RPL_WHOSPCRPL: missing value for field %q")
    | v :: values' => parse_whox_values (WHOXInfo_set info k v) fields' values'
    end
  end.

Definition ParseWHOXReply (m : Message) (fields : string) : res goerr WHOXInfo :=
  if negb (bool_decide (Command m = RPL_WHOSPCRPL)) then Err (Errorf "invalid WHOX reply %q")
  else match Params m with
  | [] => Err (Errorf "invalid RPL_WHOSPCRPL: no params")
  | _ :: values => parse_whox_values emptyWHOXInfo (requested fields) values
  end.

(** ** Round trip *)

(** Case analysis on a letter of [whoxFields]. *)
Ltac whox_letter H :=
  repeat (apply elem_of_cons in H as [->|H]; [|]); try (by apply elem_of_nil in H).

Lemma get_set_same info0 info k :
  k ∈ whoxFields → WHOXInfo_get (WHOXInfo_set info k (WHOXInfo_get info0 k)) k = WHOXInfo_get info0 k.
Proof.
  intros Hk. unfold whoxFields in Hk. destruct info. simpl in Hk.
  whox_letter Hk; try done; simpl.
  - unfold whox_channel. simpl. by repeat case_decide.
  - unfold whox_hostname. simpl. destruct (HasPrefix (w_Hostname info0) ":") eqn:E.
    + done.
    + by rewrite E.
  - repeat case_decide; naive_solver.
Qed.

Lemma get_set_other info k k' v :
  k ∈ whoxFields → k' ∈ whoxFields → k ≠ k' →
  WHOXInfo_get (WHOXInfo_set info k v) k' = WHOXInfo_get info k'.
Proof.
  intros Hk Hk' Hne. destruct info. unfold whoxFields in *. simpl in Hk, Hk'.
  whox_letter Hk; whox_letter Hk'; done.
Qed.

Lemma parse_whox_values_get info0 info l :
  NoDup l → (∀ k, k ∈ l → k ∈ whoxFields) →
  ∃ info', parse_whox_values info l (WHOXInfo_get info0 <$> l) = Ok info' ∧
  ∀ k, k ∈ whoxFields →
    WHOXInfo_get info' k = if decide (k ∈ l) then WHOXInfo_get info0 k else WHOXInfo_get info k.
Proof.
  revert info. induction l as [|x l IH]; intros info Hnd Hl.
  - exists info. split; [done|]. intros k _. rewrite decide_False; [done|set_solver].
  - apply NoDup_cons in Hnd as [Hx Hnd]. rewrite fmap_cons. simpl.
    destruct (IH (WHOXInfo_set info x (WHOXInfo_get info0 x))) as (info' & -> & Hg); [done|set_solver|].
    exists info'. split; [done|]. intros k Hk. rewrite Hg by done.
    destruct (decide (k = x)) as [->|Hne].
    + rewrite decide_False by done. rewrite decide_True by (by left).
      by rewrite get_set_same.
    + rewrite (decide_ext (k ∈ x :: l) (k ∈ l)) by set_solver.
      case_decide; [done|]. rewrite get_set_other; [done| |done|done]. apply Hl. by left.
Qed.

Lemma elem_of_requested k fields : k ∈ requested fields ↔ k ∈ whoxFields ∧ str_mem k fields = true.
Proof. unfold requested. rewrite !list_elem_of_In. apply filter_In. Qed.

Lemma whoxFields_nodup : NoDup whoxFields.
Proof. apply (bool_decide_unpack _). vm_compute. exact I. Qed.

(** A WHOX reply generated for some fields is parsed, for the same fields, into a
    record that shows the same value in every one of them; fields that were not
    requested read as those of an empty record. *)
Theorem whox_roundtrip (fields : string) (info : WHOXInfo) :
  fields ≠ "" →
  ∃ info', ParseWHOXReply (GenerateWHOXReply fields info) fields = Ok info' ∧
  ∀ k, k ∈ whoxFields →
    WHOXInfo_get info' k =
    WHOXInfo_get (if str_mem k fields then info else emptyWHOXInfo) k.
Proof.
  intros Hf. unfold GenerateWHOXReply. rewrite decide_False by done.
  unfold ParseWHOXReply. simpl.
  destruct (parse_whox_values_get info emptyWHOXInfo (requested fields)) as (info' & Hp & Hg).
  - apply NoDup_ListNoDup, List.NoDup_filter, NoDup_ListNoDup, whoxFields_nodup.
  - intros k. rewrite elem_of_requested. tauto.
  - exists info'. split; [done|]. intros k Hk. rewrite Hg by done.
    case_decide as Hd; rewrite elem_of_requested in Hd.
    + by destruct Hd as [_ ->].
    + destruct (str_mem k fields); tauto.
Qed.

Lemma whox_roundtrip_witness :
  ∃ info', ParseWHOXReply (GenerateWHOXReply "tnf" (mkWHOXInfo "7" "#soju" "u" "::1" "s" "simon" "H" "" "r")) "tnf"
           = Ok info' ∧ WHOXInfo_get info' "n" = "simon".
Proof.
  destruct (whox_roundtrip "tnf" (mkWHOXInfo "7" "#soju" "u" "::1" "s" "simon" "H" "" "r"))
    as (info' & Hp & Hg); [discriminate|].
  exists info'. split; [exact Hp|]. rewrite (Hg "n"%char); [reflexivity|].
  apply (bool_decide_unpack _). vm_compute. exact I.
Defined.

Lemma parse_whox_values_few info l values :
  (length values < length l)%nat →
  parse_whox_values info l values = Err (Errorf "invalid RPL_WHOSPCRPL: missing value for field %q").
Proof.
  revert info values. induction l as [|k l IH]; intros info values Hlen; simpl in *; [lia|].
  destruct values as [|v values]; [done|]. simpl in Hlen. apply IH. lia.
Qed.

(** A reply with fewer values than requested fields, without parameters or with another
    numeric is an error, never a partial record or an out-of-range access. *)
Theorem ParseWHOXReply_errors (m : Message) (fields : string) :
  Command m ≠ RPL_WHOSPCRPL ∨ (length (Params m) ≤ length (requested fields))%nat →
  ∃ e, ParseWHOXReply m fields = Err e.
Proof.
  unfold ParseWHOXReply. intros [Hc|Hl].
  - rewrite bool_decide_eq_false_2 by done. by eexists.
  - case_match; [by eexists|]. destruct (Params m) as [|p ps]; [by eexists|].
    simpl in Hl. rewrite parse_whox_values_few by lia. by eexists.
Qed.

Lemma ParseWHOXReply_errors_witness :
  ∃ e, ParseWHOXReply (msg RPL_WHOSPCRPL ["*"; "7"]) "tn" = Err e.
Proof.
  apply (ParseWHOXReply_errors (msg RPL_WHOSPCRPL ["*"; "7"]) "tn").
  right. vm_compute. lia.
Defined.
