(* ===== verification/Base64.v ===== *)
(** * [encoding/base64]: standard alphabet with padding, and raw URL alphabet

    Used for SASL payloads and message IDs. The decoders follow Go's: carriage returns and
    line feeds are skipped, the padding must be complete and nothing may follow it. *)

From S2P Require Import Prelude GoStrings.

Open Scope string_scope.
Open Scope list_scope.
Open Scope Z_scope.

Definition b64_alphabet : string :=
  "ABCDEFGHIJKLMNOPQRSTUVWXYZabcdefghijklmnopqrstuvwxyz0123456789+/".

Definition b64_char (v : Z) : ascii :=
  match String.get (Z.to_nat v) b64_alphabet with Some c => c | None => "A"%char end.

Definition b64_val (c : ascii) : option Z := Z.of_nat <$> IndexByte b64_alphabet c.

Fixpoint b64_encode (l : list ascii) : string :=
  match l with
  | [] => ""
  | [a] =>
    let v := byte_val a in
    String (b64_char (v / 4)) (String (b64_char (v mod 4 * 16)) "==")
  | [a; b] =>
    let v := byte_val a in let w := byte_val b in
    String (b64_char (v / 4)) (String (b64_char (v mod 4 * 16 + w / 16))
      (String (b64_char (w mod 16 * 4)) "="))
  | a :: b :: c :: l' =>
    let v := byte_val a in let w := byte_val b in let x := byte_val c in
    String (b64_char (v / 4)) (String (b64_char (v mod 4 * 16 + w / 16))
      (String (b64_char (w mod 16 * 4 + x / 64)) (String (b64_char (x mod 64)) (b64_encode l'))))
  end.

(** [base64.StdEncoding.EncodeToString] *)
Definition EncodeToString (s : string) : string := b64_encode (str_list s).

(** Quanta of four characters, line breaks already removed. *)
Fixpoint b64_decode (l : list ascii) : option (list ascii) :=
  match l with
  | [] => Some []
  | a :: b :: c :: d :: l' =>
    va ← b64_val a; vb ← b64_val b;
    if decide (c = "="%char) then
      if decide (d = "="%char) then
        match l' with [] => Some [byte_of (va * 4 + vb / 16)] | _ => None end
      else None
    else
      vc ← b64_val c;
      if decide (d = "="%char) then
        match l' with
        | [] => Some [byte_of (va * 4 + vb / 16); byte_of (vb mod 16 * 16 + vc / 4)]
        | _ => None
        end
      else
        vd ← b64_val d; rest ← b64_decode l';
        Some (byte_of (va * 4 + vb / 16) :: byte_of (vb mod 16 * 16 + vc / 4)
              :: byte_of (vc mod 4 * 64 + vd) :: rest)
  | _ => None
  end.

Definition is_newline (c : ascii) : bool := (byte_val c =? 10) || (byte_val c =? 13).

(** [base64.StdEncoding.DecodeString]; [None] is the error. *)
Definition DecodeString (s : string) : option string :=
  str_of_list <$> b64_decode (List.filter (λ c, negb (is_newline c)) (str_list s)).

(** ** Decoding undoes encoding *)

Definition sextets : list Z := Z.of_nat <$> seq 0 64.

Lemma sextets_complete v : 0 ≤ v < 64 → v ∈ sextets.
Proof.
  intros. apply list_elem_of_fmap. exists (Z.to_nat v). rewrite elem_of_seq. lia.
Qed.

Lemma sextet_forall (P : Z → bool) : forallb P sextets = true → ∀ v, 0 ≤ v < 64 → P v = true.
Proof.
  intros H v Hv. rewrite forallb_forall in H. by apply H, list_elem_of_In, sextets_complete.
Qed.

(** The alphabet is injective and avoids padding and line breaks. *)
Lemma b64_char_spec v :
  0 ≤ v < 64 →
  b64_val (b64_char v) = Some v ∧ b64_char v ≠ "="%char ∧ is_newline (b64_char v) = false.
Proof.
  intros Hv.
  assert (bool_decide (b64_val (b64_char v) = Some v) && negb (bool_decide (b64_char v = "="%char))
          && negb (is_newline (b64_char v)) = true) as H.
  { revert v Hv. apply sextet_forall. by vm_compute. }
  by bool_to_prop.
Qed.

(** The three sextet splits of Go's encoder. *)
Lemma b64_sextets v w :
  0 ≤ v < 256 → 0 ≤ w < 256 →
  0 ≤ v / 4 < 64 ∧ 0 ≤ v mod 4 * 16 < 64 ∧ 0 ≤ v mod 4 * 16 + w / 16 < 64 ∧
  0 ≤ v mod 16 * 4 < 64 ∧ 0 ≤ v mod 16 * 4 + w / 64 < 64 ∧ 0 ≤ v mod 64 < 64.
Proof.
  intros Hv Hw.
  pose proof (Z.div_mod v 4). pose proof (Z.mod_pos_bound v 4).
  pose proof (Z.div_mod w 16). pose proof (Z.mod_pos_bound w 16).
  pose proof (Z.mod_pos_bound v 16). pose proof (Z.div_mod w 64). pose proof (Z.mod_pos_bound w 64).
  pose proof (Z.mod_pos_bound v 64). lia.
Qed.

Lemma b64_join1 v w : 0 ≤ v < 256 → 0 ≤ w < 256 → v / 4 * 4 + (v mod 4 * 16 + w / 16) / 16 = v.
Proof.
  intros. rewrite Z.div_add_l by lia. rewrite (Z.div_small (w / 16) 16).
  - pose proof (Z.div_mod v 4). lia.
  - split; [apply Z.div_pos; lia|apply Z.div_lt_upper_bound; lia].
Qed.

Lemma b64_join2 v w x :
  0 ≤ v < 256 → 0 ≤ w < 256 → 0 ≤ x < 256 →
  (v mod 4 * 16 + w / 16) mod 16 * 16 + (w mod 16 * 4 + x / 64) / 4 = w.
Proof.
  intros. rewrite Z.add_comm, (Z.mul_comm (v mod 4)), Z.add_comm.
  replace (16 * (v mod 4) + w / 16) with (w / 16 + (v mod 4) * 16) by lia.
  rewrite Z.mod_add, (Z.mod_small (w / 16)), Z.div_add_l, (Z.div_small (x / 64) 4); try lia.
  - pose proof (Z.div_mod w 16). lia.
  - split; [apply Z.div_pos; lia|apply Z.div_lt_upper_bound; lia].
  - split; [apply Z.div_pos; lia|apply Z.div_lt_upper_bound; lia].
Qed.

Lemma b64_join3 w x : 0 ≤ w < 256 → 0 ≤ x < 256 → (w mod 16 * 4 + x / 64) mod 4 * 64 + x mod 64 = x.
Proof.
  intros. rewrite Z.add_comm. replace (w mod 16 * 4 + x / 64) with (x / 64 + w mod 16 * 4) by lia.
  rewrite Z.mod_add, (Z.mod_small (x / 64)); try lia.
  - pose proof (Z.div_mod x 64). lia.
  - split; [apply Z.div_pos; lia|apply Z.div_lt_upper_bound; lia].
Qed.

(** Strong induction in steps of three bytes. *)
Lemma list_ind3 {A} (P : list A → Prop) :
  P [] → (∀ a, P [a]) → (∀ a b, P [a; b]) → (∀ a b c l, P l → P (a :: b :: c :: l)) → ∀ l, P l.
Proof.
  intros H0 H1 H2 H3. assert (∀ n l, (length l ≤ n)%nat → P l) as H.
  { induction n as [|n IH]; intros [|a [|b [|c l]]] Hl; simpl in Hl; auto; try lia.
    apply H3, IH. lia. }
  intros l. by apply (H (length l)).
Qed.

Lemma b64_decode_encode l : b64_decode (str_list (b64_encode l)) = Some l.
Proof.
  induction l as [|a|a b|a b c l IH] using list_ind3; [done|..].
  all: pose proof (byte_val_bounds a) as Ha.
  - destruct (b64_sextets _ 0 Ha) as (H1 & H2 & _); [lia|]. simpl.
    rewrite (proj1 (b64_char_spec _ H1)), (proj1 (b64_char_spec _ H2)). simpl.
    pose proof (b64_join1 (byte_val a) 0 Ha) as Hj. rewrite Z.add_0_r in Hj.
    rewrite Hj by lia. by rewrite byte_of_val.
  - pose proof (byte_val_bounds b) as Hb.
    destruct (b64_sextets _ _ Ha Hb) as (H1 & _ & H2 & _).
    destruct (b64_sextets _ 0 Hb) as (_ & _ & _ & H3 & _); [lia|]. simpl.
    rewrite (proj1 (b64_char_spec _ H1)), (proj1 (b64_char_spec _ H2)),
      (proj1 (b64_char_spec _ H3)). simpl.
    rewrite decide_False by apply (b64_char_spec _ H3).
    pose proof (b64_join2 (byte_val a) (byte_val b) 0 Ha Hb) as Hj. rewrite Z.add_0_r in Hj.
    rewrite b64_join1, Hj by lia. by rewrite !byte_of_val.
  - pose proof (byte_val_bounds b) as Hb. pose proof (byte_val_bounds c) as Hc.
    destruct (b64_sextets _ _ Ha Hb) as (H1 & _ & H2 & _).
    destruct (b64_sextets _ _ Hb Hc) as (_ & _ & _ & _ & H3 & _).
    destruct (b64_sextets _ 0 Hc) as (_ & _ & _ & _ & _ & H4); [lia|].
    cbn [b64_encode str_list b64_decode].
    rewrite (proj1 (b64_char_spec _ H1)), (proj1 (b64_char_spec _ H2)),
      (proj1 (b64_char_spec _ H3)), (proj1 (b64_char_spec _ H4)). simpl.
    rewrite !decide_False by (apply (b64_char_spec _ H3) || apply (b64_char_spec _ H4)).
    rewrite IH. simpl. rewrite b64_join1, b64_join2, b64_join3 by done. by rewrite !byte_of_val.
Qed.

Lemma filter_all {A} (f : A → bool) l : Forall (λ x, f x = true) l → List.filter f l = l.
Proof. induction 1 as [|x l Hx _ IH]; simpl; [done|]. by rewrite Hx, IH. Qed.

Lemma b64_encode_no_newline l : Forall (λ c, negb (is_newline c) = true) (str_list (b64_encode l)).
Proof.
  assert (∀ v, 0 ≤ v < 64 → negb (is_newline (b64_char v)) = true) as Hn.
  { intros v Hv. by rewrite (proj2 (proj2 (b64_char_spec v Hv))). }
  induction l as [|a|a b|a b c l IH] using list_ind3; [constructor|..].
  all: pose proof (byte_val_bounds a) as Ha.
  - destruct (b64_sextets _ 0 Ha) as (H1 & H2 & _); [lia|]. simpl. repeat constructor; auto.
  - pose proof (byte_val_bounds b) as Hb.
    destruct (b64_sextets _ _ Ha Hb) as (H1 & _ & H2 & _).
    destruct (b64_sextets _ 0 Hb) as (_ & _ & _ & H3 & _); [lia|]. simpl. repeat constructor; auto.
  - pose proof (byte_val_bounds b) as Hb. pose proof (byte_val_bounds c) as Hc.
    destruct (b64_sextets _ _ Ha Hb) as (H1 & _ & H2 & _).
    destruct (b64_sextets _ _ Hb Hc) as (_ & _ & _ & _ & H3 & _).
    destruct (b64_sextets _ 0 Hc) as (_ & _ & _ & _ & _ & H4); [lia|].
    cbn [b64_encode str_list]. repeat constructor; auto.
Qed.

(** [DecodeString(EncodeToString(s)) = s] for every byte string. *)
Lemma DecodeString_EncodeToString s : DecodeString (EncodeToString s) = Some s.
Proof.
  unfold DecodeString, EncodeToString. rewrite filter_all by apply b64_encode_no_newline.
  rewrite b64_decode_encode. simpl. by rewrite str_of_list_of.
Qed.

(** ** [base64.RawURLEncoding] *)

Definition url_char (c : ascii) : ascii :=
  if decide (c = "+"%char) then "-"%char else if decide (c = "/"%char) then "_"%char else c.
Definition std_char (c : ascii) : ascii :=
  if decide (c = "-"%char) then "+"%char else if decide (c = "_"%char) then "/"%char else c.

(** The padding a quantum lacks; a single left-over character is an error. *)
Fixpoint b64_pad (l : list ascii) : option (list ascii) :=
  match l with
  | [] => Some []
  | [a; b] => Some [a; b; "="%char; "="%char]
  | [a; b; c] => Some [a; b; c; "="%char]
  | a :: b :: c :: d :: l' => rest ← b64_pad l'; Some (a :: b :: c :: d :: rest)
  | _ => None
  end.

Definition not_pad (c : ascii) : bool := negb (bool_decide (c = "="%char)).
Definition url_alphabet (c : ascii) : bool := negb (str_mem c "+/=").

Definition RawURL_EncodeToString (s : string) : string :=
  str_of_list (url_char <$> List.filter not_pad (str_list (EncodeToString s))).

Definition RawURL_DecodeString (s : string) : option string :=
  let l := List.filter (λ c, negb (is_newline c)) (str_list s) in
  if forallb url_alphabet l
  then padded ← b64_pad (std_char <$> l); str_of_list <$> b64_decode padded
  else None.

Lemma raw_char_spec v :
  0 ≤ v < 64 →
  not_pad (b64_char v) = true ∧ std_char (url_char (b64_char v)) = b64_char v ∧
  url_alphabet (url_char (b64_char v)) = true ∧ negb (is_newline (url_char (b64_char v))) = true.
Proof.
  intros Hv.
  assert (not_pad (b64_char v) && bool_decide (std_char (url_char (b64_char v)) = b64_char v)
          && url_alphabet (url_char (b64_char v)) && negb (is_newline (url_char (b64_char v))) = true) as H.
  { revert v Hv. apply sextet_forall. by vm_compute. }
  bool_to_prop. split_and!; auto. by apply negb_true_iff.
Qed.

Lemma raw_encode_spec l :
  let u := url_char <$> List.filter not_pad (str_list (b64_encode l)) in
  b64_pad (std_char <$> u) = Some (str_list (b64_encode l)) ∧
  Forall (λ c, negb (is_newline c) = true) u ∧ forallb url_alphabet u = true.
Proof.
  induction l as [|a|a b|a b c l IH] using list_ind3; [done|..].
  all: pose proof (byte_val_bounds a) as Ha.
  - destruct (b64_sextets _ 0 Ha) as (H1 & H2 & _); [lia|].
    apply raw_char_spec in H1 as (N1 & S1 & U1 & L1), H2 as (N2 & S2 & U2 & L2).
    cbn [b64_encode str_list List.filter]. rewrite N1, N2. simpl. rewrite S1, S2, U1, U2.
    split_and!; [done|by repeat constructor|done].
  - pose proof (byte_val_bounds b) as Hb.
    destruct (b64_sextets _ _ Ha Hb) as (H1 & _ & H2 & _).
    destruct (b64_sextets _ 0 Hb) as (_ & _ & _ & H3 & _); [lia|].
    apply raw_char_spec in H1 as (N1 & S1 & U1 & L1), H2 as (N2 & S2 & U2 & L2), H3 as (N3 & S3 & U3 & L3).
    cbn [b64_encode str_list List.filter]. rewrite N1, N2, N3. simpl.
    rewrite S1, S2, S3, U1, U2, U3. split_and!; [done|by repeat constructor|done].
  - pose proof (byte_val_bounds b) as Hb. pose proof (byte_val_bounds c) as Hc.
    destruct (b64_sextets _ _ Ha Hb) as (H1 & _ & H2 & _).
    destruct (b64_sextets _ _ Hb Hc) as (_ & _ & _ & _ & H3 & _).
    destruct (b64_sextets _ 0 Hc) as (_ & _ & _ & _ & _ & H4); [lia|].
    apply raw_char_spec in H1 as (N1 & S1 & U1 & L1), H2 as (N2 & S2 & U2 & L2),
      H3 as (N3 & S3 & U3 & L3), H4 as (N4 & S4 & U4 & L4).
    destruct IH as (IH1 & IH2 & IH3).
    cbn [b64_encode str_list List.filter]. rewrite N1, N2, N3, N4. rewrite !fmap_cons.
    cbn [b64_pad forallb]. rewrite S1, S2, S3, S4, U1, U2, U3, U4, IH1, IH3. simpl.
    split_and!; [done|by repeat constructor|done].
Qed.

Lemma RawURL_roundtrip s : RawURL_DecodeString (RawURL_EncodeToString s) = Some s.
Proof.
  unfold RawURL_DecodeString, RawURL_EncodeToString, EncodeToString. rewrite str_list_of.
  destruct (raw_encode_spec (str_list s)) as (H1 & H2 & H3). cbv zeta in *.
  rewrite filter_all, H3, H1 by done. simpl. rewrite b64_decode_encode. simpl.
  by rewrite str_of_list_of.
Qed.
