(* ===== verification/GenMsg.v ===== *)
(** * Message generators (xirc/genmsg.go, xirc/xirc.go)

    Each generator packs a list into messages that respect the IRC line and parameter
    limits. String builders are strings; [irc.Message.String], used to measure an empty
    NAMES reply, is a parameter. *)

From S2P Require Import Prelude GoStrings GoUnicode IrcMessage Base64.

Open Scope string_scope.
Open Scope list_scope.

(** ** Byte-wise string order, Go's [<] on strings *)

Fixpoint str_leb (a b : string) : bool :=
  match a, b with
  | "", _ => true
  | String _ _, "" => false
  | String c a', String d b' =>
    if decide (c = d) then str_leb a' b' else (byte_val c <? byte_val d)%Z
  end.
Definition str_le (a b : string) : Prop := str_leb a b = true.
#[export] Instance str_le_dec a b : Decision (str_le a b).
Proof. unfold str_le. apply _. Defined.

(** ** JOIN *)

Definition join_has_key (ck : string * string) : bool := negb (bool_decide (ck.2 = "")).

(** [joinSorter.Less] *)
Definition joinSorter_Less (a b : string * string) : bool :=
  if negb (Bool.eqb (join_has_key a) (join_has_key b)) then join_has_key a
  else negb (str_leb b.1 a.1).

Definition join_le (a b : string * string) : Prop := joinSorter_Less b a = false.
#[export] Instance join_le_dec a b : Decision (join_le a b).
Proof. unfold join_le. apply _. Defined.

Definition join_params (channelsBuf keysBuf : string) : list string :=
  channelsBuf :: (if (0 <? slen keysBuf)%nat then [keysBuf] else []).

(** The packing loop over the sorted channels; "JOIN" and two spaces are reserved. *)
Fixpoint join_loop (channelsBuf keysBuf : string) (l : list (string * string)) : list Message :=
  match l with
  | [] => if (0 <? slen channelsBuf)%nat then [msg "JOIN" (join_params channelsBuf keysBuf)] else []
  | (channel, key) :: l' =>
    let maxLength := (maxMessageLength - (4 + 2))%nat in
    let n := (slen channelsBuf + slen keysBuf + 1 + slen channel
              + (if decide (key = "") then 0 else 1 + slen key))%nat in
    let flush := ((0 <? slen channelsBuf) && (maxLength <? n))%nat in
    let cb := if flush then "" else channelsBuf in
    let kb := if flush then "" else keysBuf in
    let cb' := (if (0 <? slen cb)%nat then cb +:+ "," else cb) +:+ channel in
    let kb' := if decide (key = "") then kb
               else (if (0 <? slen kb)%nat then kb +:+ "," else kb) +:+ key in
    (if flush then [msg "JOIN" (join_params channelsBuf keysBuf)] else [])
      ++ join_loop cb' kb' l'
  end.

(** [GenerateJoin]; the sort reads [keys[i]] for every channel. *)
Definition GenerateJoin (channels keys : list string) : res goerr (list Message) :=
  if (length keys <? length channels)%nat then Panic "index out of range"
  else Ok (join_loop "" "" (merge_sort join_le (zip channels keys))).

(** ** ISUPPORT *)

Definition isupportEncoder : string → string := Replacer [(" ", "\x20"); ("\", "\x5C")].
Definition DecodeIsupportValue : string → string := Replacer [("\x20", " "); ("\x5C", "\")].

Definition isupport_token (kv : string * option string) : string :=
  match kv.2 with Some v => kv.1 +:+ "=" +:+ v | None => kv.1 end.

Definition isupport_msg (tokens : list string) : Message :=
  msg RPL_ISUPPORT (("*" :: (isupportEncoder <$> tokens)) ++ ["are supported"]).

(** The chunking loop; every round consumes tokens, so their number bounds it. *)
Fixpoint isupport_loop (fuel : nat) (tokens : list string) : list Message :=
  let maxTokens := (maxMessageParams - 2)%nat in
  match fuel, tokens with
  | S fuel', _ :: _ =>
    if (maxTokens <? length tokens)%nat
    then isupport_msg (take maxTokens tokens) :: isupport_loop fuel' (drop maxTokens tokens)
    else [isupport_msg tokens]
  | _, _ => []
  end.

Definition GenerateIsupport (isupport : gmap string (option string)) : list Message :=
  let tokens := merge_sort str_le (isupport_token <$> map_to_list isupport) in
  isupport_loop (length tokens) tokens.

(** ** MOTD *)

Definition newline : string := String (ascii_of_nat 10) "".

Definition GenerateMOTD (motd : string) : list Message :=
  msg RPL_MOTDSTART ["*"; "- Message of the Day -"]
  :: ((λ l, msg RPL_MOTD ["*"; l]) <$> Split motd newline)
  ++ [msg RPL_ENDOFMOTD ["*"; "End of /MOTD command."]].

(** ** MONITOR *)

Fixpoint monitor_loop (subcmd : string) (maxLength : Z) (buf : list string) (n : Z)
    (targets : list string) : list Message :=
  match targets with
  | [] => match buf with [] => [] | _ => [msg "MONITOR" [subcmd; Join buf ","]] end
  | target :: targets' =>
    if (maxLength <? n + Z.of_nat (slen target) + 1)%Z then
      msg "MONITOR" [subcmd; Join buf ","]
      :: monitor_loop subcmd maxLength [target] (Z.of_nat (slen target) + 1) targets'
    else monitor_loop subcmd maxLength (buf ++ [target]) (n + Z.of_nat (slen target) + 1) targets'
  end.

Definition monitor_max (subcmd : string) : Z :=
  Z.of_nat maxMessageLength - Z.of_nat (slen ("MONITOR " +:+ subcmd +:+ " ")).

Definition GenerateMonitor (subcmd : string) (targets : list string) : list Message :=
  monitor_loop subcmd (monitor_max subcmd) [] 0 targets.

(** ** NAMES *)

Section names.
Context (Message_String : Message → string).

(** [ChannelStatus] is a byte, converted as a code point. *)
Definition names_msg (status : ascii) (channel text : string) : Message :=
  msg RPL_NAMREPLY ["*"; EncodeRune (byte_val status); channel; text].

Fixpoint names_loop (status : ascii) (channel : string) (maxLength : Z) (buf : string)
    (members : list string) : list Message :=
  match members with
  | [] => if (0 <? slen buf)%nat then [names_msg status channel buf] else []
  | s :: members' =>
    let n := (Z.of_nat (slen buf) + 1 + Z.of_nat (slen s))%Z in
    let flush := (0 <? slen buf)%nat && (maxLength <? n)%Z in
    let b := if flush then "" else buf in
    (if flush then [names_msg status channel buf] else [])
      ++ names_loop status channel maxLength
           ((if (0 <? slen b)%nat then b +:+ " " else b) +:+ s) members'
  end.

Definition GenerateNamesReply (channel : string) (status : ascii) (members : list string) :
    list Message :=
  let maxLength := (Z.of_nat maxMessageLength
    - Z.of_nat (slen (Message_String (names_msg status channel ""))))%Z in
  names_loop status channel maxLength "" members
  ++ [msg RPL_ENDOFNAMES ["*"; channel; "End of /NAMES list"]].
End names.

(** [ParseChannelStatus]: the empty string is an index out of range. *)
Definition ParseChannelStatus (s : string) : res goerr ascii :=
  if (1 <? slen s)%nat then Err (Errorf "invalid channel status %q: more than one character")
  else match s with
  | "" => Panic "index out of range"
  | String c _ =>
    if decide (c = "="%char ∨ c = "@"%char ∨ c = "*"%char) then Ok c
    else Err (Errorf "invalid channel status %q: unknown status")
  end.

(** ** SASL *)

(** The loop [for i := 0; i <= len(encoded); i += 400]; [fuel] counts iterations. *)
Fixpoint sasl_loop (fuel : nat) (encoded : string) : list string :=
  match fuel with
  | O => []
  | S fuel' =>
    let chunk := str_take MaxSASLLength encoded in
    (if decide (chunk = "") then "+" else chunk)
    :: (if (MaxSASLLength <=? slen encoded)%nat
        then sasl_loop fuel' (str_drop MaxSASLLength encoded) else [])
  end.

Definition sasl_chunks (encoded : string) : list string :=
  sasl_loop (S (slen encoded / MaxSASLLength)) encoded.

Definition GenerateSASL (resp : string) : list Message :=
  (λ chunk, msg "AUTHENTICATE" [chunk]) <$> sasl_chunks (EncodeToString resp).

(** ** CTCP *)

Definition ctcp_delim : string := String (ascii_of_nat 1) "".

Definition ParseCTCPMessage `{UnicodeTables} (m : Message) : option (string * string) :=
  if decide ((Command m ≠ "PRIVMSG" ∧ Command m ≠ "NOTICE") ∨ (length (Params m) < 2)%nat) then None
  else
    let text := param (Params m) 1 in
    if negb (HasPrefix text ctcp_delim) then None
    else
      let text := Trim text ctcp_delim in
      match SplitN text " " 2 with
      | w :: rest => Some (ToUpper w, match rest with p :: _ => p | [] => "" end)
      | [] => None
      end.

(** ** The string order *)

Lemma str_leb_total a b : str_leb a b = true ∨ str_leb b a = true.
Proof.
  revert b. induction a as [|c a IH]; intros [|d b]; simpl; auto.
  repeat case_decide; subst; try congruence; auto.
  assert (byte_val c ≠ byte_val d) by (intros E; by apply byte_val_inj in E).
  rewrite !Z.ltb_lt. lia.
Qed.

Lemma str_leb_trans a b c : str_leb a b = true → str_leb b c = true → str_leb a c = true.
Proof.
  revert b c. induction a as [|x a IH]; intros [|y b] [|z c]; simpl; try done.
  repeat case_decide; subst; try congruence; eauto; rewrite ?Z.ltb_lt; lia.
Qed.

Lemma str_leb_antisym a b : str_leb a b = true → str_leb b a = true → a = b.
Proof.
  revert b. induction a as [|x a IH]; intros [|y b]; simpl; try done.
  repeat case_decide; subst; try congruence.
  - intros. f_equal. auto.
  - rewrite !Z.ltb_lt. lia.
Qed.

#[export] Instance str_le_total : Total str_le.
Proof. intros a b. apply str_leb_total. Qed.
#[export] Instance str_le_trans : Transitive str_le.
Proof. intros a b c. apply str_leb_trans. Qed.
#[export] Instance str_le_antisym : AntiSymm (=) str_le.
Proof. intros a b. apply str_leb_antisym. Qed.

(** ** JOIN: nothing lost, keys stay with their channels *)

Lemma join_le_spec a b :
  join_le a b ↔ (join_has_key b = true → join_has_key a = true) ∧
                (join_has_key a = join_has_key b → str_le a.1 b.1).
Proof.
  unfold join_le, joinSorter_Less, str_le.
  destruct (join_has_key a), (join_has_key b); simpl; rewrite ?negb_false_iff; naive_solver.
Qed.

#[export] Instance join_le_total : Total join_le.
Proof.
  intros a b. rewrite !join_le_spec. destruct (str_leb_total a.1 b.1);
    destruct (join_has_key a), (join_has_key b); unfold str_le; naive_solver.
Qed.

#[export] Instance join_le_trans : Transitive join_le.
Proof.
  intros a b c. rewrite !join_le_spec. intros [Hk1 Hs1] [Hk2 Hs2]. split; [auto|].
  intros Hac. assert (join_has_key a = join_has_key b) as Hab.
  { apply eq_true_iff_eq. split; [rewrite Hac; exact Hk2|exact Hk1]. }
  etransitivity; [by apply Hs1|]. apply Hs2. congruence.
Qed.

(** Channels with a key come before channels without. *)
Fixpoint keyed_first (l : list (string * string)) : bool :=
  match l with
  | [] => true
  | x :: l' => if join_has_key x then keyed_first l' else forallb (λ y, negb (join_has_key y)) l'
  end.

Lemma sorted_keyed_first l : StronglySorted join_le l → keyed_first l = true.
Proof.
  induction 1 as [|x l Hs IH Hx]; simpl; [done|]. destruct (join_has_key x) eqn:E; [done|].
  apply forallb_forall. intros y Hy%list_elem_of_In.
  rewrite Forall_forall in Hx. apply Hx, join_le_spec in Hy as [Hy _].
  destruct (join_has_key y); [|done]. rewrite Hy in E; done.
Qed.

Lemma keyed_first_app l1 l2 :
  keyed_first (l1 ++ l2) = true → keyed_first l1 = true ∧ keyed_first l2 = true.
Proof.
  assert (∀ l, forallb (λ y, negb (join_has_key y)) l = true → keyed_first l = true) as Haux.
  { induction l as [|x l IH]; simpl; [done|]. intros H. bool_to_prop. by rewrite H. }
  induction l1 as [|x l1 IH]; simpl; [auto|]. destruct (join_has_key x); [by apply IH|].
  rewrite forallb_app. intros H. bool_to_prop. auto.
Qed.

(** The channels and keys a JOIN message lists; the i-th key belongs to the i-th channel. *)
Fixpoint zip_pad (cs ks : list string) : list (string * string) :=
  match cs, ks with
  | [], _ => []
  | c :: cs', [] => (c, "") :: zip_pad cs' []
  | c :: cs', k :: ks' => (c, k) :: zip_pad cs' ks'
  end.

Definition decode_join (m : Message) : list (string * string) :=
  match Params m with
  | [cs] => zip_pad (Split cs ",") []
  | [cs; ks] => zip_pad (Split cs ",") (Split ks ",")
  | _ => []
  end.

(** The bytes of "JOIN channels keys" without the line terminator. *)
Definition join_line_length (m : Message) : nat :=
  4 + list_sum ((λ p, 1 + slen p)%nat <$> Params m).

Definition join_entry_ok (ck : string * string) : Prop :=
  ck.1 ≠ "" ∧ str_mem ","%char ck.1 = false ∧ str_mem ","%char ck.2 = false.

Definition keys_of (cur : list (string * string)) : list string :=
  List.filter (λ k, negb (bool_decide (k = ""))) cur.*2.

Lemma keys_of_snoc cur c k :
  keys_of (cur ++ [(c, k)]) = if decide (k = "") then keys_of cur else keys_of cur ++ [k].
Proof.
  unfold keys_of. rewrite fmap_app, List.filter_app. simpl. case_decide; subst; simpl.
  - by rewrite app_nil_r.
  - by rewrite bool_decide_eq_false_2.
Qed.

Lemma keys_of_unkeyed cur : forallb (λ y, negb (join_has_key y)) cur = true → keys_of cur = [].
Proof.
  unfold keys_of. induction cur as [|x cur IH]; [done|]. rewrite fmap_cons. simpl. intros H.
  bool_to_prop. unfold join_has_key in H. rewrite H. auto.
Qed.

Lemma zip_pad_keys cur : keyed_first cur = true → zip_pad cur.*1 (keys_of cur) = cur.
Proof.
  assert (∀ l, forallb (λ y, negb (join_has_key y)) l = true → zip_pad l.*1 [] = l) as Haux.
  { induction l as [|[c k] l IH]; [done|]. rewrite fmap_cons. simpl. intros H. bool_to_prop.
    rewrite IH by done. unfold join_has_key in H. simpl in H. bool_to_prop. by rewrite H. }
  induction cur as [|[c k] cur IH]; [done|]. simpl. destruct (join_has_key (c, k)) eqn:E; intros H.
  - unfold keys_of. rewrite !fmap_cons. simpl. unfold join_has_key in E. simpl in E. rewrite E.
    simpl. f_equal. by apply IH.
  - rewrite keys_of_unkeyed by (simpl; by rewrite E). simpl.
    unfold join_has_key in E. simpl in E. bool_to_prop. subst. f_equal. by apply Haux.
Qed.

Lemma Join_snoc l s c : l ≠ [] → Join (l ++ [s]) (String c "") = (Join l (String c "") +:+ String c "") +:+ s.
Proof. intros Hl. rewrite Join_app by done. simpl. by rewrite str_app_assoc. Qed.

Lemma Join_nonempty l sep s : s ∈ l → s ≠ "" → (0 < slen (Join l sep))%nat.
Proof.
  induction l as [|x l IH]; intros Hin Hs; [set_solver|].
  assert (∀ t, t ≠ "" → (0 < slen t)%nat) as Hpos by (intros []; simpl; [done|lia]).
  apply elem_of_cons in Hin as [->|Hin].
  - destruct l; [by apply Hpos|]. rewrite Join_cons, slen_app by done. pose proof (Hpos x Hs). lia.
  - destruct l; [set_solver|]. rewrite Join_cons, !slen_app by done. pose proof (IH Hin Hs). lia.
Qed.

Lemma Join_pos l c :
  Forall (λ s, s ≠ "") l → (0 <? slen (Join l (String c "")))%nat = negb (bool_decide (l = [])).
Proof.
  intros Hf. destruct l as [|x l]; [done|]. rewrite bool_decide_eq_false_2 by done. simpl negb.
  apply Nat.ltb_lt. apply (Join_nonempty _ _ x); [by left|]. by apply Forall_inv in Hf.
Qed.

Lemma keys_of_nonempty cur : Forall (λ s, s ≠ "") (keys_of cur).
Proof.
  apply Forall_forall. intros k Hk%list_elem_of_In. apply filter_In in Hk as [_ Hk]. by bool_to_prop.
Qed.

Lemma keys_of_no_comma cur :
  Forall join_entry_ok cur → Forall (λ s, str_mem ","%char s = false) (keys_of cur).
Proof.
  intros Hf. apply Forall_forall. intros k Hk%list_elem_of_In. apply filter_In in Hk as [Hk _].
  apply list_elem_of_In, list_elem_of_fmap in Hk as (ck & -> & Hck).
  rewrite Forall_forall in Hf. apply (Hf _ Hck).
Qed.

Lemma names_ok cur :
  Forall join_entry_ok cur →
  Forall (λ s, s ≠ "") cur.*1 ∧ Forall (λ s, str_mem ","%char s = false) cur.*1.
Proof.
  induction 1 as [|[c k] cur (Hne & Hc & Hk)]; rewrite ?fmap_cons; simpl; [done|].
  destruct IHForall. auto.
Qed.

(** The message flushed for the batch [cur] decodes to [cur]. *)
Lemma decode_join_batch cur :
  cur ≠ [] → Forall join_entry_ok cur → keyed_first cur = true →
  decode_join (msg "JOIN" (join_params (Join cur.*1 ",") (Join (keys_of cur) ","))) = cur.
Proof.
  intros Hne Hok Hkf. destruct (names_ok cur Hok) as [_ Hnc].
  unfold join_params. rewrite Join_pos by apply keys_of_nonempty.
  assert (cur.*1 ≠ []) by (by destruct cur).
  case_bool_decide as Hk; simpl; unfold decode_join; simpl.
  - rewrite Split_Join by done. rewrite <-Hk. by apply zip_pad_keys.
  - rewrite !Split_Join by (done || by apply keys_of_no_comma). by apply zip_pad_keys.
Qed.

(** One iteration of the loop either extends the batch or flushes it and starts anew. *)
Lemma join_loop_step cur c k l :
  Forall join_entry_ok cur → join_entry_ok (c, k) →
  let n := (slen (Join cur.*1 ",") + slen (Join (keys_of cur) ",") + 1 + slen c
            + (if decide (k = "") then 0 else 1 + slen k))%nat in
  let flush := negb (bool_decide (cur = [])) && (506 <? n)%nat in
  let cur' := (if flush then [] else cur) ++ [(c, k)] in
  join_loop (Join cur.*1 ",") (Join (keys_of cur) ",") ((c, k) :: l) =
  (if flush then [msg "JOIN" (join_params (Join cur.*1 ",") (Join (keys_of cur) ","))] else [])
    ++ join_loop (Join cur'.*1 ",") (Join (keys_of cur') ",") l.
Proof.
  intros Hok Hck n flush cur'. destruct (names_ok cur Hok) as [Hn _].
  cbn [join_loop]. change (maxMessageLength - (4 + 2))%nat with 506%nat. cbv zeta.
  rewrite (Join_pos cur.*1 ",") by done.
  replace (bool_decide (cur.*1 = [])) with (bool_decide (cur = []))
    by (apply bool_decide_ext; by destruct cur).
  fold n. fold flush. f_equal.
  assert (∀ cur0, Forall join_entry_ok cur0 →
    (if (0 <? slen (Join cur0.*1 ","))%nat then Join cur0.*1 "," +:+ "," else Join cur0.*1 ",") +:+ c
    = Join (cur0 ++ [(c, k)]).*1 ",") as Hc.
  { intros cur0 Hok0. rewrite Join_pos by (by apply names_ok). rewrite fmap_app.
    case_bool_decide as E; simpl; [by rewrite E|]. by rewrite Join_snoc. }
  assert (∀ cur0, (if decide (k = "") then Join (keys_of cur0) ","
    else (if (0 <? slen (Join (keys_of cur0) ","))%nat then Join (keys_of cur0) "," +:+ ","
          else Join (keys_of cur0) ",") +:+ k) = Join (keys_of (cur0 ++ [(c, k)])) ",") as Hk.
  { intros cur0. rewrite keys_of_snoc. case_decide; [done|].
    rewrite Join_pos by apply keys_of_nonempty.
    case_bool_decide as E; simpl; [by rewrite E|]. by rewrite Join_snoc. }
  unfold cur'. destruct flush; [|by rewrite Hc, Hk].
  change (Join [(c, k)].*1 ",") with (Join ([] ++ [(c, k)]).*1 ",").
  by rewrite <-(Hc [] (Forall_nil_2 _)), <-(Hk []).
Qed.

Lemma join_loop_decode l cur :
  Forall join_entry_ok (cur ++ l) → keyed_first (cur ++ l) = true →
  mjoin (decode_join <$> join_loop (Join cur.*1 ",") (Join (keys_of cur) ",") l) = cur ++ l.
Proof.
  revert cur. induction l as [|[c k] l IH]; intros cur Hok Hkf.
  - rewrite app_nil_r in *. destruct (names_ok cur Hok) as [Hn _]. simpl. rewrite Join_pos by done.
    case_bool_decide as E; simpl; [by destruct cur|].
    rewrite decode_join_batch by (done || by intros ->). apply app_nil_r.
  - pose proof Hok as [Hcur [Hck Hl]%Forall_cons]%Forall_app.
    pose proof (keyed_first_app _ _ Hkf) as [Hkc Hkl].
    rewrite join_loop_step by done. cbv zeta. rewrite fmap_app.
    destruct (_ && _) eqn:E.
    + bool_to_prop. assert (HIH := IH [(c, k)] (Forall_cons_2 _ _ _ Hck Hl) Hkl).
      change ([] ++ [(c, k)]) with [(c, k)]. rewrite list_fmap_singleton, decode_join_batch by done.
      simpl mjoin. f_equal. exact HIH.
    + cbn [fmap list_fmap app]. rewrite IH; rewrite <-app_assoc; simpl; done.
Qed.

Lemma join_loop_length l cur m :
  Forall join_entry_ok (cur ++ l) →
  ((length cur ≤ 1)%nat ∨ (slen (Join cur.*1 ",") + slen (Join (keys_of cur) ",") ≤ 506)%nat) →
  m ∈ join_loop (Join cur.*1 ",") (Join (keys_of cur) ",") l →
  (join_line_length m ≤ maxMessageLength)%nat ∨
  (∃ c k, (c, k) ∈ cur ++ l ∧ m = msg "JOIN" (join_params c k)).
Proof.
  assert (∀ cur, Forall join_entry_ok cur → cur ≠ [] →
    ((length cur ≤ 1)%nat ∨ (slen (Join cur.*1 ",") + slen (Join (keys_of cur) ",") ≤ 506)%nat) →
    let m := msg "JOIN" (join_params (Join cur.*1 ",") (Join (keys_of cur) ",")) in
    (join_line_length m ≤ maxMessageLength)%nat ∨
    (∃ c k, (c, k) ∈ cur ∧ m = msg "JOIN" (join_params c k))) as Hbatch.
  { intros cur0 Hok Hne [Hlen|Hlen] m0.
    - right. destruct cur0 as [|[c k] [|]]; simpl in Hlen; try done; try lia.
      exists c, k. split; [by left|]. unfold m0. do 2 f_equal.
      unfold keys_of. simpl. by case_bool_decide; subst.
    - left. unfold m0, join_line_length, join_params, maxMessageLength. simpl.
      destruct (0 <? _)%nat; simpl; lia. }
  revert cur. induction l as [|[c k] l IH]; intros cur Hok Hlen Hm.
  - rewrite app_nil_r in *. simpl in Hm. destruct (names_ok cur Hok) as [Hn _].
    rewrite Join_pos in Hm by done. case_bool_decide as E; [set_solver|].
    apply list_elem_of_singleton in Hm as ->. apply Hbatch; [done| |done]. by intros ->.
  - pose proof Hok as [Hcur [Hck Hl]%Forall_cons]%Forall_app.
    rewrite join_loop_step in Hm by done. cbv zeta in Hm. apply elem_of_app in Hm.
    destruct (_ && _) eqn:E.
    + bool_to_prop. destruct Hm as [->%list_elem_of_singleton|Hm].
      { destruct (Hbatch cur Hcur ltac:(done) Hlen) as [?|(c' & k' & Hin & ->)]; [by left|right].
        exists c', k'. set_solver. }
      assert (HIH := IH [(c, k)] (Forall_cons_2 _ _ _ Hck Hl) (or_introl (Nat.le_refl 1)) Hm).
      destruct HIH as [?|(c' & k' & Hin & ->)]; [by left|right]. exists c', k'. set_solver.
    + destruct Hm as [Hm|Hm]; [set_solver|].
      replace (cur ++ (c, k) :: l) with ((cur ++ [(c, k)]) ++ l) in * by (by rewrite <-app_assoc).
      apply (IH (cur ++ [(c, k)])); [done| |done].
      destruct (decide (cur = [])) as [->|Hne]; [left; simpl; lia|right].
      rewrite bool_decide_eq_false_2 in E by done. cbn [negb andb] in E. apply Nat.ltb_ge in E.
      rewrite keys_of_snoc, fmap_app. cbn [fmap list_fmap fst].
      rewrite Join_snoc by (by destruct cur).
      rewrite !slen_app. change (slen ",") with 1%nat. destruct (decide (k = "")); [lia|].
      destruct (keys_of cur) as [|k0 ks] eqn:Ek; [cbn in E |- *; lia|].
      rewrite Join_snoc, !slen_app by done. change (slen ",") with 1%nat. lia.
Qed.

(** [GenerateJoin] asks for exactly the given channels, each once and with its own key:
    decoding its messages positionally, as a server does, gives back the channels sorted
    with the keyed ones first; and every line it produces fits in the 512 bytes of a message
    (terminator not counted) unless it asks for one single channel. *)
Theorem GenerateJoin_correct (channels keys : list string) :
  length keys = length channels →
  Forall join_entry_ok (zip channels keys) →
  ∃ msgs sorted, GenerateJoin channels keys = Ok msgs ∧
    mjoin (decode_join <$> msgs) = sorted ∧
    sorted ≡ₚ zip channels keys ∧ StronglySorted join_le sorted ∧
    ∀ m, m ∈ msgs → (join_line_length m ≤ maxMessageLength)%nat ∨
      ∃ c k, (c, k) ∈ zip channels keys ∧ m = msg "JOIN" (join_params c k).
Proof.
  intros Hlen Hok. unfold GenerateJoin. rewrite (proj2 (Nat.ltb_ge _ _)) by lia.
  set (l := merge_sort join_le (zip channels keys)).
  assert (l ≡ₚ zip channels keys) as Hp by apply merge_sort_Permutation.
  assert (StronglySorted join_le l) as Hs by (apply StronglySorted_merge_sort; apply _).
  assert (Forall join_entry_ok l) as Hokl by (by rewrite Hp).
  exists (join_loop "" "" l), l. split_and!; [done| |done|done|].
  - apply (join_loop_decode l []); simpl; [done|by apply sorted_keyed_first].
  - intros m Hm. destruct (join_loop_length l [] m) as [?|(c & k & Hin & ->)];
      [done|simpl; lia|done|by left|right]. exists c, k. by rewrite <-Hp.
Qed.

Definition join_example : list string := ["#a"; "#b"; "#c"].

Lemma GenerateJoin_correct_witness :
  ∃ msgs sorted, GenerateJoin join_example [""; "k"; ""] = Ok msgs ∧
    mjoin (decode_join <$> msgs) = sorted ∧
    sorted ≡ₚ zip join_example [""; "k"; ""].
Proof.
  destruct (GenerateJoin_correct join_example [""; "k"; ""]) as (msgs & sorted & H1 & H2 & H3 & _).
  - reflexivity.
  - apply (bool_decide_unpack _). vm_compute. exact I.
  - exists msgs, sorted. auto.
Defined.

(** ** ISUPPORT: escaping and chunking *)

Lemma isupportEncoder_cons c s :
  isupportEncoder (String c s) =
  (if decide (c = " "%char) then "\x20" else
   if decide (c = "\"%char) then "\x5C" else String c "") +:+ isupportEncoder s.
Proof.
  unfold isupportEncoder, Replacer. cbn [slen String.length replacer_go replacer_match].
  rewrite !HasPrefix_String, !HasPrefix_nil, !andb_true_r.
  destruct (decide (c = " "%char)) as [->|]; [done|].
  destruct (decide (c = "\"%char)) as [->|]; [done|].
  by rewrite !bool_decide_eq_false_2.
Qed.

Lemma replacer_decode_plain fuel c s :
  c ≠ "\"%char →
  replacer_go (S fuel) [("\x20", " "); ("\x5C", "\")] (String c s) =
  String c (replacer_go fuel [("\x20", " "); ("\x5C", "\")] s).
Proof.
  intros Hc. cbn [replacer_go replacer_match]. rewrite !HasPrefix_String.
  by rewrite !bool_decide_eq_false_2.
Qed.

Lemma isupport_roundtrip s : DecodeIsupportValue (isupportEncoder s) = s.
Proof.
  unfold DecodeIsupportValue, Replacer. assert (∀ fuel, (slen (isupportEncoder s) ≤ fuel)%nat →
    replacer_go fuel [("\x20", " "); ("\x5C", "\")] (isupportEncoder s) = s) as H; [|by apply H].
  induction s as [|c s IH]; intros fuel Hf; [by destruct fuel|].
  rewrite isupportEncoder_cons in *. repeat case_decide; subst; cbn [String.app slen String.length] in *.
  - destruct fuel; [lia|]. cbn [replacer_go replacer_match]. rewrite !HasPrefix_String, HasPrefix_nil.
    simpl. by rewrite IH by lia.
  - destruct fuel; [lia|]. cbn [replacer_go replacer_match]. rewrite !HasPrefix_String, HasPrefix_nil.
    simpl. by rewrite IH by lia.
  - destruct fuel; [lia|]. by rewrite replacer_decode_plain, IH by (done || lia).
Qed.

(** The tokens an RPL_ISUPPORT message carries, between the client and the trailing text. *)
Definition decode_isupport (m : Message) : list string :=
  DecodeIsupportValue <$> drop 1 (take (length (Params m) - 1) (Params m)).

Lemma decode_isupport_msg tokens : decode_isupport (isupport_msg tokens) = tokens.
Proof.
  unfold decode_isupport, isupport_msg. cbn [Params msg]. rewrite length_app, Nat.add_sub.
  rewrite take_app_length. simpl. rewrite drop_0. induction tokens as [|s tokens IH]; [done|].
  rewrite !fmap_cons, isupport_roundtrip. by f_equal.
Qed.

Lemma isupport_loop_decode fuel tokens :
  (length tokens ≤ fuel)%nat → mjoin (decode_isupport <$> isupport_loop fuel tokens) = tokens.
Proof.
  revert tokens. induction fuel as [|fuel IH]; intros [|t tokens] Hf; simpl in Hf; try done; [lia|].
  cbn [isupport_loop]. change (maxMessageParams - 2)%nat with 13%nat.
  set (l := t :: tokens) in *. case_match.
  - rewrite fmap_cons. rewrite mjoin_cons, decode_isupport_msg, IH.
    + apply take_drop.
    + rewrite length_drop. subst l. simpl. lia.
  - rewrite list_fmap_singleton, decode_isupport_msg. apply app_nil_r.
Qed.

Lemma isupport_loop_params fuel tokens m :
  m ∈ isupport_loop fuel tokens → (3 ≤ length (Params m) ≤ maxMessageParams)%nat.
Proof.
  revert tokens. induction fuel as [|fuel IH]; intros [|t tokens]; cbn [isupport_loop];
    try (by intros Hm; inversion Hm).
  change (maxMessageParams - 2)%nat with 13%nat. unfold maxMessageParams.
  destruct (13 <? _)%nat eqn:E; bool_to_prop.
  - intros [->|Hm]%elem_of_cons; [|by apply (IH _ Hm)].
    cbn [Params isupport_msg msg]. rewrite length_app. simpl. rewrite length_fmap, length_take.
    simpl in E. lia.
  - intros ->%list_elem_of_singleton. cbn [Params isupport_msg msg]. rewrite length_app. simpl.
    rewrite length_fmap. simpl in E. lia.
Qed.

(** [GenerateIsupport] advertises exactly the tokens of the map: unescaping the parameters
    between the client name and the trailing text with [DecodeIsupportValue] gives every
    token once, in byte order; and no message has more than 15 parameters, nor none to tell. *)
Theorem GenerateIsupport_correct (isupport : gmap string (option string)) :
  let msgs := GenerateIsupport isupport in
  let tokens := mjoin (decode_isupport <$> msgs) in
  tokens ≡ₚ (isupport_token <$> map_to_list isupport) ∧ StronglySorted str_le tokens ∧
  ∀ m, m ∈ msgs → (3 ≤ length (Params m) ≤ maxMessageParams)%nat.
Proof.
  cbv zeta. unfold GenerateIsupport. rewrite isupport_loop_decode by done.
  split_and!; [apply merge_sort_Permutation|apply StronglySorted_merge_sort; apply _|].
  intros m. apply isupport_loop_params.
Qed.

(** ** MONITOR *)

Definition decode_monitor (m : Message) : list string :=
  match Params m with [_; targets] => Split targets "," | _ => [] end.

Definition monitor_line (m : Message) : string :=
  match Params m with
  | [subcmd; targets] => ("MONITOR " +:+ subcmd +:+ " ") +:+ targets
  | _ => ""
  end.

Definition monitor_target_ok (subcmd target : string) : Prop :=
  str_mem ","%char target = false ∧ (Z.of_nat (slen target) + 1 ≤ monitor_max subcmd)%Z.
#[export] Instance monitor_target_ok_dec subcmd t : Decision (monitor_target_ok subcmd t).
Proof. unfold monitor_target_ok. apply _. Defined.

(** The value of the counter [n] for the buffer [buf]. *)
Definition monitor_count (buf : list string) : Z :=
  Z.of_nat (list_sum ((λ t, slen t + 1)%nat <$> buf)).

Lemma monitor_count_snoc buf t : monitor_count (buf ++ [t]) = (monitor_count buf + Z.of_nat (slen t) + 1)%Z.
Proof. unfold monitor_count. rewrite fmap_app, list_sum_app. simpl. lia. Qed.

Lemma monitor_count_cons t buf :
  monitor_count (t :: buf) = (Z.of_nat (slen t) + 1 + monitor_count buf)%Z.
Proof. unfold monitor_count. rewrite fmap_cons. change (list_sum (?x :: ?l)) with (x + list_sum l)%nat. lia. Qed.

Lemma monitor_count_Join buf :
  buf ≠ [] → Z.of_nat (slen (Join buf ",")) = (monitor_count buf - 1)%Z.
Proof.
  induction buf as [|t [|t' buf] IH]; intros Hne; [done| |].
  - rewrite monitor_count_cons. change (monitor_count []) with 0%Z. change (Join [t] ",") with t. lia.
  - rewrite Join_cons, !slen_app, monitor_count_cons, !Nat2Z.inj_add, IH by done.
    change (slen ",") with 1%nat. lia.
Qed.

Lemma monitor_flush_ok subcmd buf :
  buf ≠ [] → Forall (monitor_target_ok subcmd) buf → (monitor_count buf ≤ monitor_max subcmd)%Z →
  let m := msg "MONITOR" [subcmd; Join buf ","] in
  decode_monitor m = buf ∧ (slen (monitor_line m) ≤ maxMessageLength)%nat.
Proof.
  intros Hne Hok Hn m. split.
  - apply Split_Join; [done|]. eapply Forall_impl; [done|]. by intros t [? _].
  - unfold m, monitor_line. cbn [Params msg]. rewrite slen_app.
    pose proof (monitor_count_Join buf Hne). unfold monitor_max in Hn. lia.
Qed.

Lemma monitor_loop_correct subcmd targets buf n :
  n = monitor_count buf → (n ≤ monitor_max subcmd)%Z →
  Forall (monitor_target_ok subcmd) (buf ++ targets) →
  let msgs := monitor_loop subcmd (monitor_max subcmd) buf n targets in
  mjoin (decode_monitor <$> msgs) = buf ++ targets ∧
  Forall (λ m, (slen (monitor_line m) ≤ maxMessageLength)%nat) msgs.
Proof.
  revert buf n. induction targets as [|t targets IH]; intros buf n -> Hn Hok; cbv zeta.
  - rewrite app_nil_r in *. destruct buf as [|b buf]; [done|]. cbn [monitor_loop].
    destruct (monitor_flush_ok subcmd (b :: buf)) as [Hd Hl]; [done..|].
    rewrite list_fmap_singleton, Hd. split; [apply app_nil_r|auto].
  - pose proof Hok as [Hbuf [[Htc Ht] Htargets]%Forall_cons]%Forall_app. cbn [monitor_loop].
    case_match eqn:E; bool_to_prop.
    + assert (buf ≠ []) by (intros ->; unfold monitor_count in E; simpl in E; lia).
      destruct (monitor_flush_ok subcmd buf) as [Hd Hl]; [done..|].
      destruct (IH [t] (Z.of_nat (slen t) + 1)%Z) as [HIH1 HIH2];
        [unfold monitor_count; simpl; lia|lia|by constructor|].
      rewrite fmap_cons. rewrite mjoin_cons, Hd, HIH1. auto.
    + destruct (IH (buf ++ [t]) (monitor_count buf + Z.of_nat (slen t) + 1)%Z) as [HIH1 HIH2];
        [by rewrite monitor_count_snoc|lia|by rewrite <-app_assoc|].
      rewrite HIH1, <-app_assoc. auto.
Qed.

(** [GenerateMonitor] covers the targets exactly once and in order, in lines of at most
    512 bytes, when each target alone fits. *)
Theorem GenerateMonitor_correct (subcmd : string) (targets : list string) :
  (0 ≤ monitor_max subcmd)%Z → Forall (monitor_target_ok subcmd) targets →
  let msgs := GenerateMonitor subcmd targets in
  mjoin (decode_monitor <$> msgs) = targets ∧
  Forall (λ m, (slen (monitor_line m) ≤ maxMessageLength)%nat) msgs.
Proof. intros H Hok. by apply (monitor_loop_correct subcmd targets [] 0). Qed.

Lemma GenerateMonitor_correct_witness :
  mjoin (decode_monitor <$> GenerateMonitor "+" ["alice"; "bob"]) = ["alice"; "bob"].
Proof.
  apply (GenerateMonitor_correct "+" ["alice"; "bob"]);
    apply (bool_decide_unpack _); vm_compute; exact I.
Defined.

(** A first target that does not fit makes the generator send a MONITOR with an empty list. *)
Lemma GenerateMonitor_long_target subcmd t ts :
  (monitor_max subcmd < Z.of_nat (slen t) + 1)%Z →
  ∃ msgs, GenerateMonitor subcmd (t :: ts) = msg "MONITOR" [subcmd; ""] :: msgs.
Proof.
  intros H. unfold GenerateMonitor. cbn [monitor_loop]. rewrite (proj2 (Z.ltb_lt _ _)) by lia. eauto.
Qed.

(** ** NAMES *)

Definition names_text (m : Message) : string := param (Params m) 3.

Lemma names_flush status channel maxLength cur :
  cur ≠ [] → Forall (λ s, s ≠ "" ∧ str_mem " "%char s = false) cur →
  ((length cur ≤ 1)%nat ∨ (Z.of_nat (slen (Join cur " ")) ≤ maxLength)%Z) →
  let m := names_msg status channel (Join cur " ") in
  Split (names_text m) " " = cur ∧ m = names_msg status channel (names_text m) ∧
  ((Z.of_nat (slen (names_text m)) ≤ maxLength)%Z ∨ names_text m ∈ cur).
Proof.
  intros Hne [_ Hsp]%Forall_and Hlen m. unfold m, names_text. simpl.
  split_and!; [by apply Split_Join|done|]. destruct Hlen as [Hlen|Hlen]; [right|by left].
  destruct cur as [|c [|]]; simpl in Hlen; [done|by left|lia].
Qed.

Lemma names_loop_correct status channel maxLength members cur :
  Forall (λ s, s ≠ "" ∧ str_mem " "%char s = false) (cur ++ members) →
  ((length cur ≤ 1)%nat ∨ (Z.of_nat (slen (Join cur " ")) ≤ maxLength)%Z) →
  let msgs := names_loop status channel maxLength (Join cur " ") members in
  mjoin ((λ m, Split (names_text m) " ") <$> msgs) = cur ++ members ∧
  Forall (λ m, m = names_msg status channel (names_text m) ∧
    ((Z.of_nat (slen (names_text m)) ≤ maxLength)%Z ∨ names_text m ∈ cur ++ members)) msgs.
Proof.
  assert (∀ l, Forall (λ s, s ≠ "" ∧ str_mem " "%char s = false) l →
    Forall (λ s, s ≠ "") l ∧ Forall (λ s, str_mem " "%char s = false) l) as Hsplit
    by (intros l; apply Forall_and).
  revert cur. induction members as [|s members IH]; intros cur Hok Hlen; cbv zeta.
  - rewrite app_nil_r in *. destruct (Hsplit _ Hok) as [Hne Hsp]. cbn [names_loop].
    rewrite Join_pos by done. case_bool_decide as E; [by subst|]. simpl negb. cbn iota.
    destruct (names_flush status channel maxLength cur) as (Hd & Hm & Ht); [done..|].
    rewrite list_fmap_singleton, Hd. split; [apply app_nil_r|auto].
  - pose proof Hok as [Hcur [Hs Hms]%Forall_cons]%Forall_app. destruct (Hsplit _ Hcur) as [Hne Hsp].
    cbn [names_loop]. rewrite (Join_pos cur) by done.
    assert (∀ cur0, Forall (λ s, s ≠ "") cur0 →
      (if (0 <? slen (Join cur0 " "))%nat then Join cur0 " " +:+ " " else Join cur0 " ") +:+ s
      = Join (cur0 ++ [s]) " ") as Hb.
    { intros cur0 H0. rewrite Join_pos by done. case_bool_decide as E; simpl; [by subst|].
      by rewrite Join_snoc. }
    destruct (_ && _) eqn:E.
    + bool_to_prop. cbv zeta. replace (_ +:+ s) with (Join [s] " ") by done.
      destruct (IH [s]) as [HIH1 HIH2]; [by constructor|by left|].
      destruct (names_flush status channel maxLength cur) as (Hd & Hm & Ht); [done..|].
      rewrite fmap_app, list_fmap_singleton, Hd. cbn [app]. rewrite mjoin_cons, HIH1.
      split; [done|]. constructor; [split; [done|]; destruct Ht; [by left|right; set_solver]|].
      eapply Forall_impl; [exact HIH2|]. intros m [? [?|?]]; split; auto. right. set_solver.
    + rewrite Hb by done. destruct (IH (cur ++ [s])) as [HIH1 HIH2]; [by rewrite <-app_assoc| |].
      { destruct (decide (cur = [])) as [->|Hn]; [by left|right].
        rewrite bool_decide_eq_false_2 in E by done. cbn [negb andb] in E. bool_to_prop.
        rewrite Join_snoc, !slen_app by done. change (slen " ") with 1%nat. lia. }
      rewrite <-app_assoc in *. auto.
Qed.

(** A NAMES reply lists the members exactly once and in order, space separated; each text
    stays within what is left of the 512 bytes once the reply's own header, as
    [irc.Message.String] measures it, is taken off, unless it is one single name; and the
    last message is RPL_ENDOFNAMES. *)
Theorem GenerateNamesReply_correct (Message_String : Message → string) (channel : string)
    (status : ascii) (members : list string) :
  Forall (λ s, s ≠ "" ∧ str_mem " "%char s = false) members →
  ∃ msgs, GenerateNamesReply Message_String channel status members
            = msgs ++ [msg RPL_ENDOFNAMES ["*"; channel; "End of /NAMES list"]] ∧
    mjoin ((λ m, Split (names_text m) " ") <$> msgs) = members ∧
    Forall (λ m, m = names_msg status channel (names_text m) ∧
      ((slen (Message_String (names_msg status channel "")) + slen (names_text m) ≤ maxMessageLength)%nat
       ∨ names_text m ∈ members)) msgs.
Proof.
  intros Hok. unfold GenerateNamesReply. cbv zeta. eexists. split; [reflexivity|].
  destruct (names_loop_correct status channel (Z.of_nat maxMessageLength
    - Z.of_nat (slen (Message_String (names_msg status channel "")))) members []) as [H1 H2];
    [done|left; simpl; lia|].
  split; [exact H1|]. eapply Forall_impl; [exact H2|]. intros m [? [?|?]]; split; auto; left; lia.
Qed.

Lemma GenerateNamesReply_correct_witness :
  ∃ msgs, GenerateNamesReply Command "#go" "="%char ["@alice"; "bob"]
            = msgs ++ [msg RPL_ENDOFNAMES ["*"; "#go"; "End of /NAMES list"]] ∧
    mjoin ((λ m, Split (names_text m) " ") <$> msgs) = ["@alice"; "bob"].
Proof.
  destruct (GenerateNamesReply_correct Command "#go" "="%char ["@alice"; "bob"]) as (msgs & H1 & H2 & _).
  - apply (bool_decide_unpack _). vm_compute. exact I.
  - exists msgs. auto.
Defined.

(** ** SASL *)

Lemma sasl_loop_spec fuel encoded :
  (slen encoded / MaxSASLLength < fuel)%nat →
  ∃ full last, sasl_loop fuel encoded = full ++ [if decide (last = "") then "+" else last] ∧
    Forall (λ c, slen c = MaxSASLLength) full ∧ (slen last < MaxSASLLength)%nat ∧
    str_concat full +:+ last = encoded.
Proof.
  revert encoded. induction fuel as [|fuel IH]; intros encoded Hf; [lia|].
  cbn [sasl_loop]. assert (MaxSASLLength = 400%nat) as HM by done.
  destruct (MaxSASLLength <=? slen encoded)%nat eqn:E; bool_to_prop.
  - destruct (IH (str_drop MaxSASLLength encoded)) as (full & last & -> & Hfull & Hlast & Hcat).
    { rewrite slen_drop. assert (slen encoded = (slen encoded - MaxSASLLength) + 1 * MaxSASLLength)%nat
        as Hs by lia. rewrite Hs, Nat.div_add in Hf by lia. lia. }
    assert (slen (str_take MaxSASLLength encoded) = MaxSASLLength) as Hl by (rewrite slen_take; lia).
    exists (str_take MaxSASLLength encoded :: full), last. split_and!; [|by constructor|done|].
    + rewrite decide_False; [done|]. intros H. rewrite H in Hl. done.
    + cbn [str_concat]. by rewrite str_app_assoc, Hcat, str_take_drop.
  - exists [], encoded. rewrite str_take_all by lia. auto.
Qed.

(** The messages are full chunks of 400 bytes followed by a shorter one, "+" when nothing is
    left, and they carry the base64 encoding of the response. *)
Lemma GenerateSASL_spec resp :
  ∃ full last, GenerateSASL resp =
      (λ chunk, msg "AUTHENTICATE" [chunk]) <$> (full ++ [if decide (last = "") then "+" else last]) ∧
    Forall (λ c, slen c = MaxSASLLength) full ∧ (slen last < MaxSASLLength)%nat ∧
    str_concat full +:+ last = EncodeToString resp.
Proof.
  unfold GenerateSASL, sasl_chunks.
  destruct (sasl_loop_spec (S (slen (EncodeToString resp) / MaxSASLLength)) (EncodeToString resp))
    as (full & last & -> & H); [lia|]. eauto.
Qed.
