(* ===== verification/GoTime.v ===== *)
(** * Dates and times (the parts of package time the repository uses)

    An instant is a number of nanoseconds since 1970-01-01T00:00:00Z and a day the number of
    its date since that date. The calendar is proleptic Gregorian. The local time zone is a
    class: the date and the second of the day of an instant, and the instant of a wall-clock
    time, with the laws of a zone whose days start at midnight. *)

From S2P Require Import Prelude GoStrings GenMsg.

Open Scope string_scope.
Open Scope list_scope.
Open Scope Z_scope.

(** ** The calendar *)

Definition is_leap (y : Z) : bool := (y mod 4 =? 0) && (negb (y mod 100 =? 0) || (y mod 400 =? 0)).
Definition leap_days (leap : bool) : Z := if leap then 1 else 0.
Definition daysIn (leap : bool) (m : Z) : Z :=
  if m =? 2 then 28 + leap_days leap
  else if (m =? 4) || (m =? 6) || (m =? 9) || (m =? 11) then 30 else 31.

(** The number of 1970-01-01 counted from 0001-01-01. *)
Definition unixDay : Z := 719162.

(** The first day of a year, from 0001-01-01. *)
Definition year_start (y : Z) : Z := 365 * (y - 1) + (y - 1) / 4 - (y - 1) / 100 + (y - 1) / 400.

(** The year of a day and the day of the year, by cycles of 400, 100, 4 and 1 years; the last
    cycle of each kind is the longer one. *)
Definition year_day (z : Z) : Z * Z :=
  let n400 := z / 146097 in let z := z - 146097 * n400 in
  let n100 := z / 36524 in let n100 := n100 - n100 / 4 in let z := z - 36524 * n100 in
  let n4 := z / 1461 in let z := z - 1461 * n4 in
  let n := z / 365 in let n := n - n / 4 in
  (1 + 400 * n400 + 100 * n100 + 4 * n4 + n, z - 365 * n).

Definition daysBefore : list Z := [0; 31; 59; 90; 120; 151; 181; 212; 243; 273; 304; 334; 365].

(** The month and the day of the month of a day of the year. *)
Definition month_day (leap : bool) (yday : Z) : Z * Z :=
  if leap && (yday =? 59) then (2, 29)
  else
    let day := if leap && (59 <? yday) then yday - 1 else yday in
    let month := day / 31 in
    let end_ := default 0 (daysBefore !! Z.to_nat (month + 1)) in
    if end_ <=? day then (month + 2, day - end_ + 1)
    else (month + 1, day - default 0 (daysBefore !! Z.to_nat month) + 1).

(** [time.Time.Date]: the year, month and day of the month of a date. *)
Definition civil (n : Z) : Z * Z * Z :=
  let '(y, yday) := year_day (n + unixDay) in
  let '(m, d) := month_day (is_leap y) yday in (y, m, d).

(** The date of a valid year, month and day, as [time.Date] computes it. *)
Definition days_of_civil (y m d : Z) : Z :=
  year_start y + default 0 (daysBefore !! Z.to_nat (m - 1)) + (if is_leap y && (3 <=? m) then 1 else 0) + (d - 1) - unixDay.

Lemma year_day_spec z y yday :
  year_day z = (y, yday) → z = year_start y + yday ∧ 0 ≤ yday < 365 + leap_days (is_leap y).
Proof.
  unfold year_day. intros [= <- <-].
  set (n400 := z / 146097). set (z1 := z - 146097 * n400).
  assert (0 ≤ z1 < 146097) as H1 by (unfold z1, n400; Z.to_euclidean_division_equations; lia).
  set (n100 := z1 / 36524 - z1 / 36524 / 4). set (z2 := z1 - 36524 * n100).
  assert (0 ≤ n100 ≤ 3 ∧ 0 ≤ z2 ∧ (n100 < 3 ∧ z2 < 36524 ∨ n100 = 3 ∧ z2 < 36525)) as (H2 & H3 & H4)
    by (unfold z2, n100; Z.to_euclidean_division_equations; lia).
  set (n4 := z2 / 1461). set (z3 := z2 - 1461 * n4).
  assert (0 ≤ n4 ≤ 24 ∧ 0 ≤ z3 < 1461 ∧ (n100 < 3 → n4 = 24 → z3 < 1460)) as (H5 & H6 & H7)
    by (unfold z3, n4; Z.to_euclidean_division_equations; lia).
  set (n := z3 / 365 - z3 / 365 / 4).
  assert (0 ≤ n ≤ 3 ∧ 0 ≤ z3 - 365 * n ∧ (n < 3 ∧ z3 - 365 * n < 365 ∨ n = 3 ∧ z3 - 365 * n < 366)) as (H8 & H9 & H10)
    by (unfold n; Z.to_euclidean_division_equations; lia).
  clearbody n. unfold year_start.
  replace (1 + 400 * n400 + 100 * n100 + 4 * n4 + n - 1) with (400 * n400 + 100 * n100 + 4 * n4 + n) by lia.
  assert ((400 * n400 + 100 * n100 + 4 * n4 + n) / 4 = 100 * n400 + 25 * n100 + n4) as -> by (Z.to_euclidean_division_equations; lia).
  assert ((400 * n400 + 100 * n100 + 4 * n4 + n) / 100 = 4 * n400 + n100) as -> by (Z.to_euclidean_division_equations; lia).
  assert ((400 * n400 + 100 * n100 + 4 * n4 + n) / 400 = n400) as -> by (Z.to_euclidean_division_equations; lia).
  split; [unfold z3, z2, z1; lia|]. split; [done|].
  assert (n = 3 → n4 < 24 ∨ n100 = 3 → is_leap (1 + 400 * n400 + 100 * n100 + 4 * n4 + n) = true) as Hl.
  { intros -> Hc. unfold is_leap.
    rewrite (proj2 (Z.eqb_eq _ 0)) by (Z.to_euclidean_division_equations; lia). cbn [andb].
    destruct Hc as [Hc|Hc].
    - rewrite (proj2 (Z.eqb_neq ((_) mod 100) 0)) by (Z.to_euclidean_division_equations; lia). done.
    - destruct (decide (n4 = 24)) as [->|].
      + rewrite (proj2 (Z.eqb_eq (_ mod 400) 0)) by (Z.to_euclidean_division_equations; lia). by rewrite orb_true_r.
      + rewrite (proj2 (Z.eqb_neq ((_) mod 100) 0)) by (Z.to_euclidean_division_equations; lia). done. }
  destruct (is_leap _); cbn [leap_days]; [lia|].
  destruct H10 as [?|[-> ?]]; [lia|]. destruct (decide (n4 = 24 ∧ n100 < 3)) as [[-> ?]|]; [lia|].
  exfalso. by assert (false = true) by (apply Hl; lia).
Qed.

Definition month_key (md : Z * Z) : Z := 31 * (md.1 - 1) + (md.2 - 1).

Definition month_ok (leap : bool) (yday : Z) : bool :=
  let '(m, d) := month_day leap yday in
  (1 <=? m) && (m <=? 12) && (1 <=? d) && (d <=? daysIn leap m) &&
  (default 0 (daysBefore !! Z.to_nat (m - 1)) + (if leap && (3 <=? m) then 1 else 0) + (d - 1) =? yday) &&
  ((yday =? 364 + leap_days leap) || (month_key (m, d) <? month_key (month_day leap (yday + 1)))).

Lemma month_ok_all leap yday : 0 ≤ yday < 365 + leap_days leap → month_ok leap yday = true.
Proof.
  assert (∀ l, forallb (λ i, month_ok l (Z.of_nat i)) (seq 0 (Z.to_nat (365 + leap_days l))) = true) as Hall
    by (intros []; vm_compute; reflexivity).
  intros Hy. specialize (Hall leap). rewrite forallb_forall in Hall. specialize (Hall (Z.to_nat yday)).
  rewrite Z2Nat.id in Hall by lia. apply Hall. apply in_seq. lia.
Qed.

Lemma month_day_spec leap yday m d :
  0 ≤ yday < 365 + leap_days leap → month_day leap yday = (m, d) →
  1 ≤ m ≤ 12 ∧ 1 ≤ d ≤ daysIn leap m ∧
  default 0 (daysBefore !! Z.to_nat (m - 1)) + (if leap && (3 <=? m) then 1 else 0) + (d - 1) = yday.
Proof.
  intros Hy Hmd. pose proof (month_ok_all leap yday Hy) as Hok. unfold month_ok in Hok. rewrite Hmd in Hok.
  apply andb_true_iff in Hok as [Hok _]. repeat (apply andb_true_iff in Hok as [Hok ?]). bool_to_prop. lia.
Qed.

Lemma month_key_step leap a :
  0 ≤ a → a + 1 < 365 + leap_days leap → month_key (month_day leap a) < month_key (month_day leap (a + 1)).
Proof.
  intros Ha Hb. pose proof (month_ok_all leap a ltac:(lia)) as Hok. unfold month_ok in Hok. destruct (month_day leap a) as [m d].
  apply andb_true_iff in Hok as [_ Hok]. apply orb_true_iff in Hok as [Hok|Hok]; bool_to_prop; lia.
Qed.

Lemma month_key_lt leap a b :
  0 ≤ a → a < b → b < 365 + leap_days leap → month_key (month_day leap a) < month_key (month_day leap b).
Proof.
  intros Ha Hab. replace b with (a + 1 + Z.of_nat (Z.to_nat (b - a - 1))) by lia.
  induction (Z.to_nat (b - a - 1)) as [|k IH]; intros Hb.
  - replace (a + 1 + Z.of_nat 0) with (a + 1) by lia. apply month_key_step; lia.
  - etrans; [apply IH; lia|]. replace (a + 1 + Z.of_nat (S k)) with (a + 1 + Z.of_nat k + 1) by lia. apply month_key_step; lia.
Qed.

(** A date is a valid calendar date, and the calendar date gives the date back. *)
Lemma civil_valid n y m d :
  civil n = (y, m, d) → 1 ≤ m ≤ 12 ∧ 1 ≤ d ≤ daysIn (is_leap y) m ∧ days_of_civil y m d = n.
Proof.
  unfold civil. destruct (year_day (n + unixDay)) as [y0 yday] eqn:Ey. apply year_day_spec in Ey as [Hn Hyd].
  destruct (month_day (is_leap y0) yday) as [m0 d0] eqn:Em. intros [= <- <- <-].
  apply month_day_spec in Em as (Hm & Hd & Hb); [|done]. split_and!; try lia. unfold days_of_civil. lia.
Qed.

Lemma daysIn_bound leap m : daysIn leap m ≤ 31.
Proof. unfold daysIn, leap_days. repeat case_match; lia. Qed.

Lemma year_start_succ y : year_start (y + 1) = year_start y + 365 + leap_days (is_leap y).
Proof.
  unfold year_start, is_leap. replace (y + 1 - 1) with y by lia. unfold leap_days.
  destruct (Z.eqb_spec (y mod 4) 0), (Z.eqb_spec (y mod 100) 0), (Z.eqb_spec (y mod 400) 0); cbn [negb andb orb];
    Z.to_euclidean_division_equations; lia.
Qed.

Lemma year_start_mono y y' : y ≤ y' → year_start y ≤ year_start y'.
Proof.
  intros Hy. replace y' with (y + Z.of_nat (Z.to_nat (y' - y))) by lia. generalize (Z.to_nat (y' - y)) as k.
  induction k as [|k IH]; [by replace (y + Z.of_nat 0) with y by lia|].
  replace (y + Z.of_nat (S k)) with (y + Z.of_nat k + 1) by lia. rewrite year_start_succ. unfold leap_days. case_match; lia.
Qed.

(** A number that orders dates like their year, month and day. *)
Definition civil_key (ymd : Z * Z * Z) : Z := 372 * ymd.1.1 + month_key (ymd.1.2, ymd.2).

Lemma civil_key_lt_1 n n' : n < n' → civil_key (civil n) < civil_key (civil n').
Proof.
  unfold civil, civil_key. destruct (year_day (n + unixDay)) as [y a] eqn:Ey. destruct (year_day (n' + unixDay)) as [y' b] eqn:Ey'.
  apply year_day_spec in Ey as [Hn Ha]. apply year_day_spec in Ey' as [Hn' Hb]. intros Hlt.
  destruct (month_day (is_leap y) a) as [m d] eqn:Em. destruct (month_day (is_leap y') b) as [m' d'] eqn:Em'.
  pose proof (month_day_spec _ _ _ _ Ha Em) as (Hm & Hd & _). pose proof (month_day_spec _ _ _ _ Hb Em') as (Hm' & Hd' & _).
  pose proof (daysIn_bound (is_leap y) m). cbn [fst snd].
  destruct (Z.lt_trichotomy y y') as [Hy|[->|Hy]].
  - unfold month_key. cbn [fst snd]. lia.
  - rewrite <-Em, <-Em'. pose proof (month_key_lt (is_leap y') a b). lia.
  - pose proof (year_start_mono (y' + 1) y ltac:(lia)). rewrite year_start_succ in *. lia.
Qed.

(** Dates are ordered like their year, month and day. *)
Lemma civil_key_lt n n' : n < n' ↔ civil_key (civil n) < civil_key (civil n').
Proof.
  split; [apply civil_key_lt_1|]. intros Hk.
  destruct (Z.lt_trichotomy n n') as [?|[->|?%civil_key_lt_1]]; lia.
Qed.

(** ** Printing *)

Fixpoint zeros (n : nat) : string := match n with O => "" | S n' => String "0" (zeros n') end.
Definition pad0 (w : nat) (s : string) : string := zeros (w - slen s) +:+ s.

(** [%0wd] of package fmt, where the sign counts, and the numbers of [time.Time.Format], where
    it does not. *)
Definition fmt_0d (w : nat) (z : Z) : string :=
  if z <? 0 then "-" +:+ pad0 (w - 1) (FormatUint (- z)) else pad0 w (FormatUint z).
Definition time_0d (w : nat) (z : Z) : string :=
  if z <? 0 then "-" +:+ pad0 w (FormatUint (- z)) else pad0 w (FormatUint z).

(** [fmt.Sprintf("%04d-%02d-%02d", ...)] and [time.Time.Format("2006-01-02")] *)
Definition sprint_date (n : Z) : string :=
  let '(y, m, d) := civil n in fmt_0d 4 y +:+ "-" +:+ fmt_0d 2 m +:+ "-" +:+ fmt_0d 2 d.
Definition FormatDate (n : Z) : string :=
  let '(y, m, d) := civil n in time_0d 4 y +:+ "-" +:+ time_0d 2 m +:+ "-" +:+ time_0d 2 d.

(** The date has a year of four digits. *)
Definition four_digit_year (n : Z) : Prop := 0 ≤ (civil n).1.1 < 10000.
#[export] Instance four_digit_year_dec n : Decision (four_digit_year n).
Proof. unfold four_digit_year. apply _. Defined.

Lemma format_go_step f z acc :
  format_go (S f) z acc = if z <? 10 then String (digit_of (z mod 10)) acc else format_go f (z / 10) (String (digit_of (z mod 10)) acc).
Proof. done. Qed.

Lemma pad0_2 z : 0 ≤ z < 100 → pad0 2 (FormatUint z) = Format02 z.
Proof.
  intros Hz. unfold FormatUint, Format02, pad0. rewrite format_go_step. destruct (Z.ltb_spec z 10).
  - cbn. replace (z / 10) with 0 by (Z.to_euclidean_division_equations; lia). done.
  - rewrite format_go_step, (proj2 (Z.ltb_lt (z / 10) 10)) by (Z.to_euclidean_division_equations; lia).
    cbn. by replace (z / 10 mod 10) with (z / 10) by (Z.to_euclidean_division_equations; lia).
Qed.

Lemma pad0_4 y : 0 ≤ y < 10000 → pad0 4 (FormatUint y) = Format02 (y / 100) +:+ Format02 (y mod 100).
Proof.
  intros Hy. unfold FormatUint, Format02, pad0. cbn [String.app String.append].
  rewrite !format_go_step. replace (y mod 100 mod 10) with (y mod 10) by (Z.to_euclidean_division_equations; lia).
  destruct (Z.ltb_spec y 10).
  { cbn. replace (y / 100) with 0 by (Z.to_euclidean_division_equations; lia).
    by replace (y mod 100 / 10) with 0 by (Z.to_euclidean_division_equations; lia). }
  replace (y / 10 mod 10) with (y mod 100 / 10) by (Z.to_euclidean_division_equations; lia).
  destruct (Z.ltb_spec (y / 10) 10).
  { cbn. by replace (y / 100) with 0 by (Z.to_euclidean_division_equations; lia). }
  replace (y / 10 / 10) with (y / 100) by (Z.to_euclidean_division_equations; lia).
  destruct (Z.ltb_spec (y / 100) 10).
  { cbn. by replace (y / 100 / 10) with 0 by (Z.to_euclidean_division_equations; lia). }
  rewrite (proj2 (Z.ltb_lt (y / 100 / 10) 10)) by (Z.to_euclidean_division_equations; lia).
  cbn. by replace (y / 100 / 10 mod 10) with (y / 100 / 10) by (Z.to_euclidean_division_equations; lia).
Qed.

(** What is printed for a year of four digits. *)
Definition date_digits (y m d : Z) : string :=
  Format02 (y / 100) +:+ Format02 (y mod 100) +:+ "-" +:+ Format02 m +:+ "-" +:+ Format02 d.

Lemma civil_bounds n y m d : civil n = (y, m, d) → 1 ≤ m ≤ 12 ∧ 1 ≤ d ≤ 31.
Proof. intros (? & ? & _)%civil_valid. pose proof (daysIn_bound (is_leap y) m). lia. Qed.

Lemma FormatDate_digits n y m d : civil n = (y, m, d) → 0 ≤ y < 10000 → FormatDate n = date_digits y m d.
Proof.
  intros Hc Hy. pose proof (civil_bounds _ _ _ _ Hc). unfold FormatDate, time_0d, date_digits. rewrite Hc.
  rewrite !(proj2 (Z.ltb_ge _ _)) by lia. rewrite pad0_4, !pad0_2 by lia. by rewrite !str_app_assoc.
Qed.

Lemma sprint_date_digits n y m d : civil n = (y, m, d) → 0 ≤ y < 10000 → sprint_date n = date_digits y m d.
Proof.
  intros Hc Hy. pose proof (civil_bounds _ _ _ _ Hc). unfold sprint_date, fmt_0d, date_digits. rewrite Hc.
  rewrite !(proj2 (Z.ltb_ge _ _)) by lia. rewrite pad0_4, !pad0_2 by lia. by rewrite !str_app_assoc.
Qed.

Lemma str_leb_digit a b s t :
  0 ≤ a < 10 → 0 ≤ b < 10 →
  str_leb (String (digit_of a) s) (String (digit_of b) t) = if a =? b then str_leb s t else a <? b.
Proof.
  intros Ha Hb. cbn [str_leb]. case_decide as Hd.
  - apply (f_equal byte_val) in Hd. rewrite !digit_of_val in Hd by done. by rewrite (proj2 (Z.eqb_eq a b)) by lia.
  - rewrite (proj2 (Z.eqb_neq a b)) by congruence. rewrite !digit_of_val by done.
    destruct (Z.ltb_spec a b); bool_to_prop; [apply Z.ltb_lt|apply Z.ltb_ge]; lia.
Qed.

Lemma str_leb_02 a b s t :
  0 ≤ a < 100 → 0 ≤ b < 100 →
  str_leb (Format02 a +:+ s) (Format02 b +:+ t) = if a =? b then str_leb s t else a <? b.
Proof.
  intros Ha Hb. unfold Format02. cbn [String.app String.append].
  rewrite !str_leb_digit by (Z.to_euclidean_division_equations; lia).
  destruct (Z.eqb_spec (a / 10) (b / 10)), (Z.eqb_spec (a mod 10) (b mod 10)), (Z.eqb_spec a b); try done;
    try (exfalso; Z.to_euclidean_division_equations; lia).
  - destruct (Z.ltb_spec (a mod 10) (b mod 10)), (Z.ltb_spec a b); try done; exfalso; Z.to_euclidean_division_equations; lia.
  - destruct (Z.ltb_spec (a / 10) (b / 10)), (Z.ltb_spec a b); try done; exfalso; Z.to_euclidean_division_equations; lia.
  - destruct (Z.ltb_spec (a / 10) (b / 10)), (Z.ltb_spec a b); try done; exfalso; Z.to_euclidean_division_equations; lia.
Qed.

(** ISO 8601 dates with years of four digits are ordered like their texts. *)
Lemma str_leb_date a b :
  four_digit_year a → four_digit_year b → str_leb (FormatDate a) (FormatDate b) = (a <=? b).
Proof.
  unfold four_digit_year. intros Ha Hb. pose proof (civil_key_lt b a) as Hk.
  destruct (civil a) as [[y m] d] eqn:Ea, (civil b) as [[y' m'] d'] eqn:Eb. cbn [fst] in *.
  pose proof (civil_bounds _ _ _ _ Ea). pose proof (civil_bounds _ _ _ _ Eb).
  rewrite (FormatDate_digits a y m d), (FormatDate_digits b y' m' d') by done. unfold date_digits.
  assert (∀ s t, str_leb ("-" +:+ s) ("-" +:+ t) = str_leb s t) as Hdash by (intros; cbn; done).
  rewrite <-(str_app_nil_r (Format02 d)), <-(str_app_nil_r (Format02 d')).
  rewrite !str_leb_02, Hdash, str_leb_02, Hdash, str_leb_02 by (Z.to_euclidean_division_equations; lia). cbn [str_leb].
  assert ((a <=? b) = (civil_key (y, m, d) <=? civil_key (y', m', d'))) as ->.
  { destruct (Z.leb_spec a b), (Z.leb_spec (civil_key (y, m, d)) (civil_key (y', m', d'))); try done; lia. }
  unfold civil_key, month_key. cbn [fst snd].
  destruct (Z.eqb_spec (y / 100) (y' / 100)), (Z.eqb_spec (y mod 100) (y' mod 100)), (Z.eqb_spec m m'), (Z.eqb_spec d d');
    symmetry; first [apply Z.leb_le; Z.to_euclidean_division_equations; lia |
      match goal with |- _ = (?u <? ?v) => destruct (Z.ltb_spec u v); [apply Z.leb_le|apply Z.leb_gt] end;
      Z.to_euclidean_division_equations; lia].
Qed.

(** ** Server time (xirc/xirc.go) *)

Definition nsPerMs : Z := 1000000.
Definition nsPerSecond : Z := 1000000000.
Definition nsPerDay : Z := 86400 * nsPerSecond.

(** The zero [time.Time], 0001-01-01T00:00:00Z. *)
Definition zeroTime : Z := - unixDay * nsPerDay.
Definition IsZero (t : Z) : bool := t =? zeroTime.

Definition Format03 (z : Z) : string := String (digit_of (z / 100)) (Format02 (z mod 100)).

(** [time.Time.Format] in UTC with the layout "2006-01-02T15:04:05.000Z" *)
Definition FormatServerTime (t : Z) : string :=
  let c := t mod nsPerDay / nsPerSecond in
  FormatDate (t / nsPerDay) +:+ "T" +:+ Format02 (c / 3600) +:+ ":" +:+ Format02 (c / 60 mod 60) +:+ ":" +:+ Format02 (c mod 60)
    +:+ "." +:+ Format03 (t mod nsPerSecond / nsPerMs) +:+ "Z".

(** [getnum]: two digits, or one when that is allowed. *)
Definition getnum (s : string) (fixed : bool) : option (Z * string) :=
  match s with
  | String a s1 =>
    if is_digit a then
      match s1 with
      | String b s2 => if is_digit b then Some (10 * digit_val a + digit_val b, s2)
                       else if fixed then None else Some (digit_val a, s1)
      | "" => if fixed then None else Some (digit_val a, s1)
      end
    else None
  | "" => None
  end.

Definition skip_char (c : ascii) (s : string) : option string :=
  match s with String d s' => if decide (d = c) then Some s' else None | "" => None end.

(** The [atoi] of package time. *)
Definition time_atoi (s : string) : option Z :=
  match s with
  | String "-" s' => Z.opp <$> digits_val 0 s'
  | String "+" s' => digits_val 0 s'
  | _ => digits_val 0 s
  end.

Definition in_bounds (lo hi z : Z) : option unit := if (lo <=? z) && (z <=? hi) then Some tt else None.

(** The four digits of the year, and the fraction of a second with three. *)
Definition parse_year (s : string) : option (Z * string) :=
  match s with
  | String c _ => if is_digit c && (4 <=? slen s)%nat then y ← time_atoi (str_take 4 s); Some (y, str_drop 4 s) else None
  | "" => None
  end.

Definition parse_ms (s : string) : option (Z * string) :=
  match s with
  | String c s' =>
    if decide (c = "."%char ∨ c = ","%char) then
      if (3 <=? slen s')%nat then ms ← time_atoi (str_take 3 s'); Some (ms, str_drop 3 s') else None
    else None
  | "" => None
  end.

(** [time.Parse(ServerTimeLayout, s)] *)
Definition ParseServerTime (s : string) : option Z :=
  '(y, s) ← parse_year s;
  s ← skip_char "-" s; '(m, s) ← getnum s true; _ ← in_bounds 1 12 m;
  s ← skip_char "-" s; '(d, s) ← getnum s true;
  s ← skip_char "T" s; '(hour, s) ← getnum s false; _ ← in_bounds 0 23 hour;
  s ← skip_char ":" s; '(minute, s) ← getnum s true; _ ← in_bounds 0 59 minute;
  s ← skip_char ":" s; '(second, s) ← getnum s true; _ ← in_bounds 0 59 second;
  '(ms, s) ← parse_ms s; _ ← in_bounds 0 999 ms;
  s ← skip_char "Z" s;
  if decide (s = "") then
    _ ← in_bounds 1 (daysIn (is_leap y) m) d;
    Some (days_of_civil y m d * nsPerDay + (3600 * hour + 60 * minute + second) * nsPerSecond + ms * nsPerMs)
  else None.

Lemma getnum_02 z s fixed : 0 ≤ z < 100 → getnum (Format02 z +:+ s) fixed = Some (z, s).
Proof.
  intros Hz. unfold Format02. cbn [String.app String.append getnum]. assert (0 ≤ z / 10 < 10 ∧ 0 ≤ z mod 10 < 10) as [H1 H2]
    by (Z.to_euclidean_division_equations; lia).
  rewrite !digit_of_is_digit by done. unfold digit_val. rewrite !digit_of_val by done. f_equal. f_equal.
  Z.to_euclidean_division_equations; lia.
Qed.

Lemma digits_val_02 acc z s : 0 ≤ z < 100 → digits_val acc (Format02 z +:+ s) = digits_val (acc * 100 + z) s.
Proof.
  intros Hz. unfold Format02. cbn [String.app String.append]. rewrite !digits_val_digit by (Z.to_euclidean_division_equations; lia).
  f_equal. Z.to_euclidean_division_equations; lia.
Qed.

Lemma time_atoi_digits a s : 0 ≤ a < 10 → time_atoi (String (digit_of a) s) = digits_val 0 (String (digit_of a) s).
Proof.
  intros Ha. unfold time_atoi.
  assert (a = 0 ∨ a = 1 ∨ a = 2 ∨ a = 3 ∨ a = 4 ∨ a = 5 ∨ a = 6 ∨ a = 7 ∨ a = 8 ∨ a = 9) as Hc by lia.
  destruct_or! Hc; subst a; reflexivity.
Qed.

Lemma parse_year_digits y s :
  0 ≤ y < 10000 → parse_year (Format02 (y / 100) +:+ Format02 (y mod 100) +:+ s) = Some (y, s).
Proof.
  intros Hy. assert (0 ≤ y / 100 < 100 ∧ 0 ≤ y mod 100 < 100) as [H1 H2] by (Z.to_euclidean_division_equations; lia).
  assert (0 ≤ y / 100 / 10 < 10) as H3 by (Z.to_euclidean_division_equations; lia).
  assert (time_atoi (Format02 (y / 100) +:+ Format02 (y mod 100)) = Some y) as Ha.
  { unfold Format02 at 1. cbn [String.app String.append]. rewrite time_atoi_digits by done.
    change (String (digit_of (y / 100 / 10)) (String (digit_of (y / 100 mod 10)) ?x)) with (Format02 (y / 100) +:+ x).
    rewrite digits_val_02, <-(str_app_nil_r (Format02 (y mod 100))), digits_val_02 by done.
    cbn. f_equal. Z.to_euclidean_division_equations; lia. }
  rewrite <-str_app_assoc. set (ys := Format02 (y / 100) +:+ Format02 (y mod 100)) in *.
  assert (ys = String (digit_of (y / 100 / 10)) (str_drop 1 ys)) as Hys by done.
  unfold parse_year. rewrite Hys at 1. cbn [String.app String.append]. rewrite digit_of_is_digit by done. cbn [andb].
  assert (slen ys = 4%nat) as Hlen by done. rewrite slen_app, Hlen. cbn [Nat.add Nat.leb].
  rewrite <-Hlen, str_take_app, str_drop_app, Ha. done.
Qed.

Lemma parse_ms_digits z s : 0 ≤ z < 1000 → parse_ms (String "." (Format03 z +:+ s)) = Some (z, s).
Proof.
  intros Hz. unfold parse_ms. rewrite decide_True by (by left). change (3 <=? slen (Format03 z +:+ s))%nat with true. cbv iota.
  assert (slen (Format03 z) = 3%nat) as <- by done. rewrite str_take_app, str_drop_app.
  unfold Format03. rewrite time_atoi_digits, digits_val_digit by (Z.to_euclidean_division_equations; lia).
  rewrite <-(str_app_nil_r (Format02 (z mod 100))), digits_val_02 by (Z.to_euclidean_division_equations; lia).
  cbn. do 2 f_equal. Z.to_euclidean_division_equations; lia.
Qed.

Lemma in_bounds_ok lo hi z : lo ≤ z ≤ hi → in_bounds lo hi z = Some tt.
Proof. intros Hz. unfold in_bounds. by rewrite !(proj2 (Z.leb_le _ _)) by lia. Qed.

(** A printed server time is read back to the millisecond. *)
Lemma ParseServerTime_Format t :
  four_digit_year (t / nsPerDay) → ParseServerTime (FormatServerTime t) = Some (t - t mod nsPerMs).
Proof.
  unfold four_digit_year. destruct (civil (t / nsPerDay)) as [[y m] d] eqn:Hc. cbn [fst]. intros Hy.
  pose proof (civil_valid _ _ _ _ Hc) as (Hm & Hd & Hback). pose proof (civil_bounds _ _ _ _ Hc).
  unfold FormatServerTime. rewrite (FormatDate_digits _ y m d) by done. unfold date_digits.
  set (c := t mod nsPerDay / nsPerSecond). set (ms := t mod nsPerSecond / nsPerMs).
  assert (0 ≤ c < 86400) as Hcl by (unfold c, nsPerDay, nsPerSecond; Z.to_euclidean_division_equations; lia).
  assert (0 ≤ ms < 1000) as Hms by (unfold ms, nsPerSecond, nsPerMs; Z.to_euclidean_division_equations; lia).
  assert (0 ≤ c / 3600 < 24 ∧ 0 ≤ c / 60 mod 60 < 60 ∧ 0 ≤ c mod 60 < 60) as (Hh & Hmi & Hs)
    by (Z.to_euclidean_division_equations; lia).
  rewrite !str_app_assoc. unfold ParseServerTime. rewrite parse_year_digits by done.
  assert (∀ ch s, skip_char ch (String ch s) = Some s) as Hskip by (intros; cbn; by rewrite decide_True).
  cbn [mbind option_bind String.app String.append].
  repeat (first [rewrite Hskip | rewrite getnum_02 by lia | rewrite in_bounds_ok by lia | rewrite parse_ms_digits by done];
    cbn [mbind option_bind String.app String.append]).
  rewrite decide_True by done. rewrite Hback. f_equal.
  unfold c, ms, nsPerDay, nsPerSecond, nsPerMs. Z.to_euclidean_division_equations; lia.
Qed.

(** Times of four-digit years are ordered like their texts, to the millisecond. *)
Lemma str_leb_app a b s t :
  slen a = slen b → str_leb (a +:+ s) (b +:+ t) = if decide (a = b) then str_leb s t else str_leb a b.
Proof.
  revert b. induction a as [|c a IH]; intros [|d b] Hl; try done. cbn [String.app String.append str_leb].
  injection Hl as Hl. destruct (decide (c = d)) as [->|Hne]; [|by rewrite decide_False by congruence].
  change (str_leb (a +:+ s) (b +:+ t) = if decide (String d a = String d b) then str_leb s t else str_leb a b).
  rewrite IH by done. destruct (decide (a = b)) as [->|]; [by rewrite decide_True|by rewrite decide_False by congruence].
Qed.

Lemma lex_leb n x x' y y' :
  0 ≤ y < n → 0 ≤ y' < n → (if x =? x' then y <=? y' else x <? x') = (x * n + y <=? x' * n + y').
Proof.
  intros Hy Hy'. destruct (Z.eqb_spec x x') as [->|Hne].
  - destruct (Z.leb_spec y y'), (Z.leb_spec (x' * n + y) (x' * n + y')); done || lia.
  - destruct (Z.ltb_spec x x'), (Z.leb_spec (x * n + y) (x' * n + y')); try done; exfalso; nia.
Qed.

Lemma str_leb_clock a b :
  0 ≤ a < nsPerDay → 0 ≤ b < nsPerDay →
  let text t := let c := t / nsPerSecond in
    Format02 (c / 3600) +:+ ":" +:+ Format02 (c / 60 mod 60) +:+ ":" +:+ Format02 (c mod 60)
      +:+ "." +:+ Format03 (t mod nsPerSecond / nsPerMs) +:+ "Z" in
  str_leb (text a) (text b) = (a / nsPerMs <=? b / nsPerMs).
Proof.
  intros Ha Hb. cbv zeta. assert (∀ c s t, str_leb (String c s) (String c t) = str_leb s t) as Hc
    by (intros; cbn; by rewrite decide_True).
  unfold Format03. rewrite !str_leb_02 by (unfold nsPerDay, nsPerSecond in *; Z.to_euclidean_division_equations; lia).
  cbn [String.app String.append]. rewrite !Hc.
  rewrite !str_leb_02 by (unfold nsPerDay, nsPerSecond in *; Z.to_euclidean_division_equations; lia).
  cbn [String.app String.append]. rewrite !Hc.
  rewrite !str_leb_02 by (unfold nsPerDay, nsPerSecond in *; Z.to_euclidean_division_equations; lia).
  cbn [String.app String.append]. rewrite !Hc.
  rewrite str_leb_digit by (unfold nsPerSecond, nsPerMs; Z.to_euclidean_division_equations; lia).
  rewrite !str_leb_02 by (unfold nsPerSecond, nsPerMs; Z.to_euclidean_division_equations; lia).
  cbn [str_leb]. rewrite decide_True by done.
  assert (∀ x y, (if x =? y then true else x <? y) = (x <=? y)) as Hleb
    by (intros x y; destruct (Z.eqb_spec x y), (Z.ltb_spec x y), (Z.leb_spec x y); done || lia).
  rewrite Hleb, (lex_leb 100), (lex_leb 1000), (lex_leb 60000), (lex_leb 3600000)
    by (unfold nsPerDay, nsPerSecond, nsPerMs in *; Z.to_euclidean_division_equations; lia).
  f_equal; unfold nsPerDay, nsPerSecond, nsPerMs in *; Z.to_euclidean_division_equations; lia.
Qed.

Lemma str_leb_server_time a b :
  four_digit_year (a / nsPerDay) → four_digit_year (b / nsPerDay) →
  str_leb (FormatServerTime a) (FormatServerTime b) = (a / nsPerMs <=? b / nsPerMs).
Proof.
  intros Ha Hb. unfold FormatServerTime.
  assert (∀ n, four_digit_year n → slen (FormatDate n) = 10%nat) as Hlen.
  { intros n Hn. unfold four_digit_year in Hn. destruct (civil n) as [[y m] d] eqn:Hc. by rewrite (FormatDate_digits n y m d). }
  rewrite str_leb_app by (by rewrite !Hlen). rewrite str_leb_date by done.
  assert (∀ t, t / nsPerDay * nsPerDay ≤ t < (t / nsPerDay + 1) * nsPerDay) as Hday
    by (intros t; unfold nsPerDay, nsPerSecond; Z.to_euclidean_division_equations; lia).
  assert (∀ t, t mod nsPerSecond = (t mod nsPerDay) mod nsPerSecond) as Hsec.
  { intros t. unfold nsPerDay, nsPerSecond. Z.to_euclidean_division_equations; lia. }
  case_decide as Heq.
  - assert (a / nsPerDay = b / nsPerDay) as Hab.
    { apply Z.le_antisymm; apply Z.leb_le; rewrite <-str_leb_date by done; rewrite Heq; by destruct (str_leb_total (FormatDate (b / nsPerDay)) (FormatDate (b / nsPerDay))). }
    rewrite (Hsec a), (Hsec b).
    pose proof (str_leb_clock (a mod nsPerDay) (b mod nsPerDay) (Z.mod_pos_bound a nsPerDay eq_refl)
      (Z.mod_pos_bound b nsPerDay eq_refl)) as Hc. cbv zeta in Hc.
    assert (∀ s t, str_leb ("T" +:+ s) ("T" +:+ t) = str_leb s t) as HT by done. rewrite HT, Hc.
    apply eq_true_iff_eq. rewrite !Z.leb_le. unfold nsPerDay, nsPerSecond, nsPerMs in *. Z.to_euclidean_division_equations; lia.
  - assert (a / nsPerDay ≠ b / nsPerDay) as Hab by congruence.
    apply eq_true_iff_eq. rewrite !Z.leb_le. unfold nsPerDay, nsPerSecond, nsPerMs in *. Z.to_euclidean_division_equations; lia.
Qed.

(** ** Time zones *)

(** [wall d s] is [time.Date] of the second [s] of the day [d]; seconds out of range are
    carried over. *)
Class zone := MkZone {
  date_of : Z → Z;
  clock_of : Z → Z;
  wall : Z → Z → Z
}.

(** A zone whose days start at midnight. *)
Class zone_laws `(TZ : zone) : Prop := {
  clock_range t : 0 ≤ clock_of t < 86400;
  midnight_first d t : wall d 0 ≤ t ↔ d ≤ date_of t;
  date_of_wall d s : 0 ≤ s < 86400 → date_of (wall d s) = d;
  wall_before_midnight d s : 0 ≤ s < 86400 → wall d s < wall (d + 1) 0 - 1
}.

#[export] Instance utc : zone := {|
  date_of t := t / nsPerDay;
  clock_of t := t mod nsPerDay / nsPerSecond;
  wall d s := d * nsPerDay + s * nsPerSecond
|}.
#[export] Instance utc_laws : zone_laws utc.
Proof. split; unfold date_of, clock_of, wall, utc, nsPerDay, nsPerSecond; intros; Z.to_euclidean_division_equations; lia. Qed.

(** The instants of a day. *)
Lemma date_of_range `{zone_laws} t : wall (date_of t) 0 ≤ t < wall (date_of t + 1) 0.
Proof. pose proof (midnight_first (date_of t) t). pose proof (midnight_first (date_of t + 1) t). lia. Qed.
