(* ===== verification/MsgID.v ===== *)
(** * Internal message IDs (msgstore/msgstore.go, msgstore/memory.go, msgstore/fs.go)

    A message ID is a BARE-encoded header followed by a store-specific body, in raw URL
    base64. The BARE library is a parameter: [Bare A] has its marshaller and unmarshaller for
    [A], [BareLaws A] that what was written can be read back and leaves the rest of the
    reader's input. *)

From S2P Require Import Prelude GoStrings IrcMessage Base64.

Open Scope string_scope.
Open Scope list_scope.

(** [bare.MarshalWriter] may fail; [bare.UnmarshalBareReader] consumes a prefix. *)
Class Bare (A : Type) := {
  bare_marshal : A → option string;
  bare_unmarshal : string → option (A * string)
}.

Class BareLaws (A : Type) `{Bare A} := {
  bare_read_back a b rest : bare_marshal a = Some b → bare_unmarshal (b +:+ rest) = Some (a, rest)
}.

Definition msgIDType := Z.
Definition msgIDNone : msgIDType := 0.
Definition msgIDMemory : msgIDType := 1.
Definition msgIDFS : msgIDType := 2.
Definition msgIDDB : msgIDType := 3.

Definition msgIDVersion : Z := 0.

Record msgIDHeader := MkMsgIDHeader {
  hVersion : Z;
  hNetwork : Z;
  hTarget : string;
  hType : msgIDType
}.

(** The interface [msgIDBody]. *)
Class msgIDBody (B : Type) := msgIDType_of : msgIDType.
Arguments msgIDType_of B {_}.

Section msgid.
Context `{HBare : Bare msgIDHeader}.

Definition formatMsgID {B} `{Bare B, msgIDBody B} (netID : Z) (target : string) (body : B) :
    res goerr string :=
  let header := MkMsgIDHeader msgIDVersion netID target (msgIDType_of B) in
  match bare_marshal header with
  | None => Panic "bare.MarshalWriter"
  | Some h =>
    match bare_marshal body with
    | None => Panic "bare.MarshalWriter"
    | Some b => Ok (RawURL_EncodeToString (h +:+ b))
    end
  end.

(** The part of [ParseMsgID] before the body: the header and what is left to read. *)
Definition parseMsgIDHeader (s : string) : res goerr (msgIDHeader * string) :=
  match RawURL_DecodeString s with
  | None => Err (Errorf "invalid internal message ID: %v")
  | Some b =>
    match bare_unmarshal b with
    | None => Err (Errorf "invalid internal message ID: %v")
    | Some (header, r) =>
      if decide (hVersion header ≠ msgIDVersion)
      then Err (Errorf "invalid internal message ID: got version %v, want %v")
      else Ok (header, r)
    end
  end.

(** [ParseMsgID] with a nil body *)
Definition ParseMsgID_nil (s : string) : res goerr (Z * string) :=
  '(header, _) ← parseMsgIDHeader s;
  Ok (hNetwork header, hTarget header).

Definition ParseMsgID (B : Type) `{Bare B, msgIDBody B} (s : string) : res goerr (Z * string * B) :=
  '(header, r) ← parseMsgIDHeader s;
  if decide (hType header ≠ msgIDType_of B)
  then Err (Errorf "invalid internal message ID: got type %v, want %v")
  else match bare_unmarshal r with
  | None => Err (Errorf "invalid internal message ID: %v")
  | Some (body, _) => Ok (hNetwork header, hTarget header, body)
  end.

Context `{!BareLaws msgIDHeader}.

Lemma parseMsgIDHeader_format {B} `{Bare B, msgIDBody B} netID target (body : B) s :
  formatMsgID netID target body = Ok s →
  ∃ b, bare_marshal body = Some b ∧
       parseMsgIDHeader s = Ok (MkMsgIDHeader msgIDVersion netID target (msgIDType_of B), b).
Proof.
  unfold formatMsgID, parseMsgIDHeader. destruct (bare_marshal _) as [h|] eqn:Eh; [|done].
  destruct (bare_marshal body) as [b|]; [|done]. intros [= <-]. exists b. split; [done|].
  rewrite RawURL_roundtrip, (bare_read_back _ _ _ Eh). rewrite decide_False; auto.
Qed.

Lemma msgid_roundtrip_parse {B} `{BareLaws B, msgIDBody B} (body : B) netID target s :
  formatMsgID netID target body = Ok s → ParseMsgID B s = Ok (netID, target, body).
Proof.
  intros (b & Eb & Hh)%parseMsgIDHeader_format. unfold ParseMsgID. rewrite Hh. simpl.
  rewrite decide_False by auto. pose proof (bare_read_back _ _ "" Eb) as Hb.
  rewrite str_app_nil_r in Hb. by rewrite Hb.
Qed.

(** Message IDs round-trip: an ID made by [formatMsgID] parses back to its network, its
    target and its body, also with a nil body, and parsing it as another store's ID is an
    error. *)
Theorem msgid_roundtrip {B C} `{BareLaws B, msgIDBody B} `{Bare C, msgIDBody C} netID target (body : B) s :
  formatMsgID netID target body = Ok s →
  ParseMsgID B s = Ok (netID, target, body) ∧
  ParseMsgID_nil s = Ok (netID, target) ∧
  (msgIDType_of C ≠ msgIDType_of B →
   ParseMsgID C s = Err (Errorf "invalid internal message ID: got type %v, want %v")).
Proof.
  intros Hs. split; [by apply msgid_roundtrip_parse|].
  apply parseMsgIDHeader_format in Hs as (b & Eb & Hh). unfold ParseMsgID, ParseMsgID_nil.
  rewrite Hh. simpl. split; [done|].
  intros Hne. by rewrite decide_True by (simpl; congruence).
Qed.
End msgid.

(** ** A codec with the laws

    Numbers in unary, strings with their length in front: a concrete instance of the
    interface, for evaluating the definitions. *)
Module UnaryCodec.

Fixpoint put_nat (n : nat) : string :=
  match n with O => "0" | S n' => String "1"%char (put_nat n') end.
Fixpoint get_nat (s : string) : option (nat * string) :=
  match s with
  | "" => None
  | String c s' =>
    if decide (c = "0"%char) then Some (0%nat, s')
    else '(n, r) ← get_nat s'; Some (S n, r)
  end.
Definition put_str (s : string) : string := put_nat (slen s) +:+ s.
Definition get_str (s : string) : option (string * string) :=
  '(n, r) ← get_nat s; Some (str_take n r, str_drop n r).

Lemma get_put_nat n rest : get_nat (put_nat n +:+ rest) = Some (n, rest).
Proof. induction n as [|n IH]; [done|]. simpl. by rewrite IH. Qed.

Lemma get_put_str s rest : get_str (put_str s +:+ rest) = Some (s, rest).
Proof.
  unfold get_str, put_str. rewrite str_app_assoc, get_put_nat. simpl.
  by rewrite str_take_app, str_drop_app.
Qed.

(** Only natural numbers are encodable. *)
Definition put_Z (z : Z) : option string := guard (0 ≤ z)%Z;; Some (put_nat (Z.to_nat z)).
Definition get_Z (s : string) : option (Z * string) := '(n, r) ← get_nat s; Some (Z.of_nat n, r).

Lemma get_put_Z z b rest : put_Z z = Some b → get_Z (b +:+ rest) = Some (z, rest).
Proof.
  unfold put_Z, get_Z. intros. simplify_option_eq. rewrite get_put_nat. simpl. by rewrite Z2Nat.id.
Qed.

#[export] Instance header_bare : Bare msgIDHeader := {
  bare_marshal h :=
    v ← put_Z (hVersion h); n ← put_Z (hNetwork h); t ← put_Z (hType h);
    Some (v +:+ n +:+ t +:+ put_str (hTarget h));
  bare_unmarshal s :=
    '(v, s) ← get_Z s; '(n, s) ← get_Z s; '(t, s) ← get_Z s; '(g, s) ← get_str s;
    Some (MkMsgIDHeader v n g t, s)
}.

#[export] Instance header_bare_laws : BareLaws msgIDHeader.
Proof.
  split. intros [v n g t] b rest Hb. simpl in *.
  destruct (put_Z v) eqn:E1; [|done]. destruct (put_Z n) eqn:E2; [|done].
  destruct (put_Z t) eqn:E3; [|done]. simpl in Hb. injection Hb as <-.
  rewrite !str_app_assoc. rewrite (get_put_Z _ _ _ E1). simpl. rewrite (get_put_Z _ _ _ E2). simpl.
  rewrite (get_put_Z _ _ _ E3). simpl. by rewrite get_put_str.
Qed.
End UnaryCodec.
