(* ===== verification/MemStore.v ===== *)
(** * The in-memory message store (msgstore/memory.go)

    A ring buffer per network and entity, addressed by 64-bit sequence numbers. The abstract
    specification is a log per key: the list of every message appended to it. *)

From S2P Require Import Prelude GoStrings IrcMessage MsgID.

Open Scope string_scope.
Open Scope list_scope.
Open Scope Z_scope.

(** ** Ring buffers *)

Definition messageRingBufferCap : Z := 4096.

Record messageRingBuffer := MkRing {
  rb_buf : list (option Message);
  rb_cur : Z
}.

Definition newMessageRingBuffer (capacity : Z) : messageRingBuffer :=
  MkRing (replicate (Z.to_nat capacity) None) 1.
#[global] Arguments newMessageRingBuffer : simpl never.

Definition rb_cap (rb : messageRingBuffer) : Z := wrap_u64 (Z.of_nat (length (rb_buf rb))).

Definition rb_Append (m : Message) (rb : messageRingBuffer) : res goerr (messageRingBuffer * Z) :=
  let seq := rb_cur rb in
  if decide (rb_cap rb = 0) then Panic "integer divide by zero"
  else
    let i := wrap_i64 (seq mod rb_cap rb) in
    Ok (MkRing (<[Z.to_nat i := Some m]> (rb_buf rb)) (wrap_u64 (rb_cur rb + 1)), seq).

Definition rb_LoadLatestSeq (seq limit : Z) (rb : messageRingBuffer) :
    res goerr (list (option Message)) :=
  if rb_cur rb <? seq then
    Err (Errorf "loading messages from sequence number (%v) greater than current (%v)")
  else if decide (seq = rb_cur rb) then Ok []
  else
    let diff := wrap_u64 (rb_cur rb - seq - 1) in
    let diff := if rb_cap rb <? diff then rb_cap rb else diff in
    let diff := if limit <? wrap_i64 diff then wrap_u64 limit else diff in
    if wrap_i64 diff <? 0 then Panic "makeslice: len out of range"
    else Ok ((λ i, let j := wrap_u64 (wrap_u64 (rb_cur rb - diff) + Z.of_nat i) mod rb_cap rb in
                   default None (rb_buf rb !! Z.to_nat j))
             <$> List.seq 0 (Z.to_nat (wrap_i64 diff))).

(** ** The store *)

Record memoryMsgID := MkMemoryMsgID { Seq : Z }.
#[export] Instance memoryMsgID_body : msgIDBody memoryMsgID := msgIDMemory.

(** [Close] sets the map to nil, which can be read but not written. *)
Record memoryMessageStore := MkMemStore {
  buffers : option (gmap (Z * string) messageRingBuffer)
}.

Definition NewMemoryStore : memoryMessageStore := MkMemStore (Some ∅).
Definition ms_Close (ms : memoryMessageStore) : memoryMessageStore := MkMemStore None.

Definition ms_lookup (ms : memoryMessageStore) (k : Z * string) : option messageRingBuffer :=
  bs ← buffers ms; bs !! k.

Definition ms_insert (ms : memoryMessageStore) (k : Z * string) (rb : messageRingBuffer) :
    res goerr memoryMessageStore :=
  match buffers ms with
  | None => Panic "assignment to entry in nil map"
  | Some bs => Ok (MkMemStore (Some (<[k := rb]> bs)))
  end.

Record LoadMessageOptions := MkLoadOptions {
  oNetworkID : Z;
  oEntity : string;
  oLimit : Z;
  oEvents : bool
}.

Section store.
Context `{Bare msgIDHeader, Bare memoryMsgID}.

Definition parseMemoryMsgID (s : string) : res goerr (Z * string * Z) :=
  '(netID, entity, id) ← ParseMsgID memoryMsgID s; Ok (netID, entity, Seq id).

Definition formatMemoryMsgID (netID : Z) (entity : string) (seq : Z) : res goerr string :=
  formatMsgID netID entity (MkMemoryMsgID seq).

Definition ms_LastMsgID (networkID : Z) (entity : string) (ms : memoryMessageStore) : res goerr string :=
  let seq := match ms_lookup ms (networkID, entity) with Some rb => rb_cur rb | None => 0 end in
  formatMemoryMsgID networkID entity seq.

Definition ms_Append (networkID : Z) (entity : string) (m : Message) (ms : memoryMessageStore) :
    res goerr (memoryMessageStore * string) :=
  if decide (Command m = "PRIVMSG" ∨ Command m = "NOTICE") then
    let k := (networkID, entity) in
    '(ms, rb) ← (match ms_lookup ms k with
                 | Some rb => Ok (ms, rb)
                 | None =>
                   let rb := newMessageRingBuffer messageRingBufferCap in
                   ms ← ms_insert ms k rb; Ok (ms, rb)
                 end);
    '(rb, seq) ← rb_Append m rb;
    ms ← ms_insert ms k rb;
    id ← formatMemoryMsgID networkID entity seq;
    Ok (ms, id)
  else Ok (ms, "").

Definition ms_LoadLatestID (id : string) (options : LoadMessageOptions) (ms : memoryMessageStore) :
    res goerr (list (option Message)) :=
  if oEvents options then Err (Errorf "events are unsupported for memory message store")
  else
    '(_, _, seq) ← parseMemoryMsgID id;
    match ms_lookup ms (oNetworkID options, oEntity options) with
    | None => Ok []
    | Some rb => rb_LoadLatestSeq seq (oLimit options) rb
    end.
End store.

(** ** The ring buffer implements a log *)

(** [rb] holds the last [rb_cap rb] entries of [log], the [i]-th at sequence number [i + 1]. *)
Record rb_repr (rb : messageRingBuffer) (log : list Message) : Prop := {
  repr_cap : 0 < Z.of_nat (length (rb_buf rb)) < 2 ^ 62;
  repr_cur : rb_cur rb = Z.of_nat (length log) + 1;
  repr_bound : Z.of_nat (length log) + 1 < uint64_mod;
  repr_entry i m : log !! i = Some m → (length log ≤ i + length (rb_buf rb))%nat →
    rb_buf rb !! ((i + 1) mod length (rb_buf rb))%nat = Some (Some m)
}.

Lemma rb_cap_repr rb log : rb_repr rb log → rb_cap rb = Z.of_nat (length (rb_buf rb)).
Proof. intros [? ? ? ?]. apply wrap_u64_small. unfold uint64_mod. lia. Qed.

Lemma newRing_repr capacity : 0 < capacity < 2 ^ 62 → rb_repr (newMessageRingBuffer capacity) [].
Proof.
  intros. unfold newMessageRingBuffer. split; simpl; [rewrite length_replicate; lia|done|unfold uint64_mod; lia|].
  intros i m Hi. by rewrite lookup_nil in Hi.
Qed.

Lemma mod_add_inj (i j n : nat) :
  (0 < n)%nat → (i mod n = j mod n)%nat → (i < j)%nat → (n ≤ j - i)%nat.
Proof.
  intros Hn Hm Hij. pose proof (Nat.div_mod_eq i n). pose proof (Nat.div_mod_eq j n).
  assert (i / n < j / n)%nat by nia. nia.
Qed.

Lemma rb_Append_repr m rb log :
  rb_repr rb log → Z.of_nat (length log) + 2 < uint64_mod →
  ∃ rb', rb_Append m rb = Ok (rb', Z.of_nat (length log) + 1) ∧
         rb_repr rb' (log ++ [m]) ∧ length (rb_buf rb') = length (rb_buf rb).
Proof.
  intros Hr Hb. pose proof (rb_cap_repr rb log Hr) as Hcap. destruct Hr as [Hc Hcur Hbd Hent].
  unfold rb_Append. rewrite Hcap, decide_False by lia. rewrite Hcur.
  set (n := length (rb_buf rb)) in *.
  assert (Z.to_nat (wrap_i64 ((Z.of_nat (length log) + 1) mod Z.of_nat n))
          = ((length log + 1) mod n)%nat) as Hi.
  { rewrite wrap_i64_small by (pose proof (Z.mod_pos_bound (Z.of_nat (length log) + 1) (Z.of_nat n)); lia).
    replace (Z.of_nat (length log) + 1) with (Z.of_nat (length log + 1)) by lia.
    by rewrite <-Nat2Z.inj_mod, Nat2Z.id. }
  rewrite Hi. eexists. split; [reflexivity|]. cbn [rb_buf]. rewrite length_insert. split; [|done].
  split; cbn [rb_buf rb_cur]; rewrite ?length_insert, ?length_app; cbn [length]; fold n; [done| |lia|].
  - rewrite wrap_u64_small; lia.
  - intros i m' Hlk Hle. apply lookup_app_Some in Hlk as [Hlk|[Hge Hlk]].
    + pose proof (lookup_lt_Some _ _ _ Hlk). rewrite list_lookup_insert_ne; [apply Hent; [done|lia]|].
      intros Heq. symmetry in Heq. apply mod_add_inj in Heq; lia.
    + apply list_lookup_singleton_Some in Hlk as [Hlk ->].
      replace (i + 1)%nat with (length log + 1)%nat by lia.
      apply list_lookup_insert_eq. apply Nat.mod_upper_bound. lia.
Qed.

(** The messages of [log] after sequence number [seq] that a query of [limit] returns. *)
Definition log_latest (cap seq limit : Z) (log : list Message) : list Message :=
  lastn (Z.to_nat (Z.min (Z.min (Z.of_nat (length log) - seq) cap) limit)) log.

(** Reading [d] entries back from the current position. *)
Lemma rb_read_back rb log d :
  rb_repr rb log → (d ≤ length log)%nat → (d ≤ length (rb_buf rb))%nat →
  ((λ i, let j := wrap_u64 (wrap_u64 (rb_cur rb - Z.of_nat d) + Z.of_nat i) mod rb_cap rb in
         default None (rb_buf rb !! Z.to_nat j)) <$> List.seq 0 d) = Some <$> lastn d log.
Proof.
  intros Hr Hd Hn. pose proof (rb_cap_repr rb log Hr) as Hcap. destruct Hr as [Hc Hcur Hbd Hent].
  apply list_eq. intros i. rewrite !list_lookup_fmap. unfold lastn. rewrite lookup_drop.
  destruct (decide (i < d)%nat) as [Hi|Hi].
  - rewrite lookup_seq_lt by done. cbn [fmap option_fmap option_map].
    destruct (lookup_lt_is_Some_2 log (length log - d + i)%nat) as [m Hm]; [lia|].
    rewrite Hm, Hcap, Hcur. cbn [fmap option_fmap option_map].
    rewrite (wrap_u64_small (_ - _)), wrap_u64_small by lia.
    replace (Z.of_nat (length log) + 1 - Z.of_nat d + Z.of_nat (0 + i))
      with (Z.of_nat (length log - d + i + 1)) by lia.
    rewrite <-Nat2Z.inj_mod, Nat2Z.id. by rewrite (Hent _ _ Hm) by lia.
  - rewrite lookup_seq_ge by lia. rewrite lookup_ge_None_2 by lia. done.
Qed.

Lemma rb_LoadLatestSeq_repr rb log seq limit :
  rb_repr rb log → 0 ≤ seq → 0 ≤ limit < 2 ^ 63 →
  rb_LoadLatestSeq seq limit rb =
  if Z.of_nat (length log) + 1 <? seq
  then Err (Errorf "loading messages from sequence number (%v) greater than current (%v)")
  else Ok (Some <$> log_latest (Z.of_nat (length (rb_buf rb))) seq limit log).
Proof.
  intros Hr Hseq Hlim. pose proof (rb_cap_repr rb log Hr) as Hcap.
  pose proof (repr_cur _ _ Hr) as Hcur. pose proof (repr_bound _ _ Hr). pose proof (repr_cap _ _ Hr).
  unfold rb_LoadLatestSeq, log_latest. rewrite Hcur. destruct (_ <? seq) eqn:E1; [done|].
  bool_to_prop. case_decide as E2.
  { replace (Z.to_nat _) with 0%nat by lia. unfold lastn. by rewrite drop_ge by lia. }
  rewrite wrap_u64_small by lia. rewrite Hcap. set (n := Z.of_nat (length (rb_buf rb))) in *.
  set (d1 := Z.min (Z.of_nat (length log) - seq) n).
  replace (if n <? _ then n else _) with d1 by (destruct (n <? _) eqn:?; bool_to_prop; lia).
  rewrite (wrap_i64_small d1) by lia.
  replace (if limit <? d1 then wrap_u64 limit else d1) with (Z.min d1 limit).
  2: { destruct (limit <? d1) eqn:?; bool_to_prop; [rewrite wrap_u64_small by lia|]; lia. }
  rewrite wrap_i64_small by lia. rewrite (proj2 (Z.ltb_ge _ _)) by lia. f_equal.
  rewrite <-(rb_read_back rb log) by (done || lia). rewrite Hcur, Hcap.
  by rewrite Z2Nat.id by lia.
Qed.

(** ** The store implements one log per network and entity *)

Definition append_op : Type := Z * string * Message.

Definition loggable (m : Message) : Prop := Command m = "PRIVMSG" ∨ Command m = "NOTICE".
#[export] Instance loggable_dec m : Decision (loggable m).
Proof. unfold loggable. apply _. Defined.

(** The abstract log of a key after a sequence of appends. *)
Definition log_of (k : Z * string) (ops : list append_op) : list Message :=
  (λ op, op.2) <$> filter (λ op, op.1 = k ∧ loggable op.2) ops.

Lemma log_of_app k ops1 ops2 : log_of k (ops1 ++ ops2) = log_of k ops1 ++ log_of k ops2.
Proof. unfold log_of. by rewrite filter_app, fmap_app. Qed.

Lemma log_of_single k op :
  log_of k [op] = if decide (op.1 = k ∧ loggable op.2) then [op.2] else [].
Proof. unfold log_of. rewrite filter_cons, filter_nil. by case_decide. Qed.

Lemma log_of_cons k op ops : log_of k (op :: ops) = log_of k [op] ++ log_of k ops.
Proof. apply (log_of_app k [op]). Qed.

Lemma length_log_of k ops : (length (log_of k ops) ≤ length ops)%nat.
Proof. unfold log_of. rewrite length_fmap. apply length_filter. Qed.

(** Every buffer of the store represents the log of its key. *)
Definition ms_repr (ms : memoryMessageStore) (ops : list append_op) : Prop :=
  ∃ bs, buffers ms = Some bs ∧ ∀ k,
    match bs !! k with
    | Some rb => rb_repr rb (log_of k ops) ∧ Z.of_nat (length (rb_buf rb)) = messageRingBufferCap
    | None => log_of k ops = []
    end.

Lemma NewMemoryStore_repr : ms_repr NewMemoryStore [].
Proof. exists ∅. split; [done|]. intros k. by rewrite lookup_empty. Qed.

Section store_correct.
Context `{BareLaws msgIDHeader, BareLaws memoryMsgID}.

Fixpoint ms_run (ops : list append_op) (ms : memoryMessageStore) :
    res goerr (memoryMessageStore * list string) :=
  match ops with
  | [] => Ok (ms, [])
  | (networkID, entity, m) :: ops' =>
    '(ms, id) ← ms_Append networkID entity m ms;
    '(ms, ids) ← ms_run ops' ms;
    Ok (ms, id :: ids)
  end.

(** The ring [Append] works on, whether it existed or was just created. *)
Lemma ms_repr_ring ms ops k :
  ms_repr ms ops → ∃ bs rb, buffers ms = Some bs ∧
    default (newMessageRingBuffer messageRingBufferCap) (bs !! k) = rb ∧
    rb_repr rb (log_of k ops) ∧ Z.of_nat (length (rb_buf rb)) = messageRingBufferCap.
Proof.
  intros (bs & Hbs & Hk). exists bs. eexists. split_and!; [done|reflexivity|..]; specialize (Hk k);
    destruct (bs !! k); simpl; try naive_solver.
  rewrite Hk. apply newRing_repr. unfold messageRingBufferCap. lia.
Qed.

Lemma ms_Append_repr net entity m ms ops ms' id :
  ms_repr ms ops → Z.of_nat (length ops) + 2 < uint64_mod →
  ms_Append net entity m ms = Ok (ms', id) →
  ms_repr ms' (ops ++ [(net, entity, m)]) ∧
  (loggable m →
   formatMemoryMsgID net entity (Z.of_nat (length (log_of (net, entity) ops)) + 1) = Ok id).
Proof.
  intros Hr Hb. unfold ms_Append. case_decide as Hlog; cycle 1.
  { intros [= <- <-]. split; [|by intros ?]. destruct Hr as (bs & Hbs & Hk). exists bs. split; [done|].
    intros k. rewrite log_of_app, log_of_single, decide_False, app_nil_r by tauto. apply Hk. }
  destruct (ms_repr_ring ms ops (net, entity) Hr) as (bs & rb & Hbs & Hrb & Hrr & Hcap).
  set (k := (net, entity)) in *. pose proof (length_log_of k ops).
  destruct (rb_Append_repr m rb (log_of k ops) Hrr) as (rb' & Happ & Hrr' & Hlen); [lia|].
  assert (∀ bs0, bs0 = bs ∨ bs0 = <[k := rb]> bs →
    ms_repr (MkMemStore (Some (<[k := rb']> bs0))) (ops ++ [(net, entity, m)])) as Hfin.
  { intros bs0 Hbs0. exists (<[k := rb']> bs0). split; [done|]. intros k'.
    rewrite log_of_app, log_of_single. simpl. destruct (decide (k = k')) as [<-|Hne].
    - rewrite lookup_insert_eq, decide_True by done. split; [done|]. by rewrite Hlen.
    - rewrite lookup_insert_ne, decide_False, app_nil_r by naive_solver.
      destruct Hr as (bs1 & Hbs1 & Hk). assert (bs1 = bs) as -> by congruence.
      destruct Hbs0 as [-> | ->]; [apply Hk|]. rewrite lookup_insert_ne by done. apply Hk. }
  unfold ms_lookup, ms_insert. rewrite Hbs. cbn [mbind option_bind].
  destruct (bs !! k) as [rb0|] eqn:Ek; cbn [from_option] in Hrb; unfold Datatypes.id in Hrb; subst;
    cbn [mbind res_mbind res_bind buffers].
  - rewrite Happ. simpl. rewrite Hbs. simpl. destruct (formatMemoryMsgID _ _ _) eqn:Ef; simpl; [|done..].
    intros [= <- <-]. split; [by apply Hfin; left|done].
  - rewrite Happ. simpl. destruct (formatMemoryMsgID _ _ _) eqn:Ef; simpl; [|done..].
    intros [= <- <-]. split; [by apply Hfin; right|done].
Qed.

Lemma ms_run_repr ops ms ms' ids pre :
  ms_repr ms pre → Z.of_nat (length pre + length ops) + 1 < uint64_mod →
  ms_run ops ms = Ok (ms', ids) →
  ms_repr ms' (pre ++ ops) ∧
  ∀ i net entity m, ops !! i = Some (net, entity, m) → loggable m → ∃ id, ids !! i = Some id ∧
    formatMemoryMsgID net entity
      (Z.of_nat (length (log_of (net, entity) (pre ++ take i ops))) + 1) = Ok id.
Proof.
  revert ms ids pre. induction ops as [|[[net entity] m] ops IH]; intros ms ids pre Hr Hb Hrun.
  - simpl in Hrun. injection Hrun as <- <-. rewrite app_nil_r. split; [done|].
    intros i ??? Hi. by rewrite lookup_nil in Hi.
  - cbn [ms_run] in Hrun. apply res_bind_ok in Hrun as ([ms1 id] & Ha & Hrun).
    apply res_bind_ok in Hrun as ([ms2 ids'] & Hrun & Heq). injection Heq as <- <-.
    simpl length in Hb. apply (ms_Append_repr _ _ _ _ pre) in Ha as [Hr1 Hid]; [|done|lia].
    apply (IH _ _ (pre ++ [(net, entity, m)])) in Hrun as [Hr2 Hids];
      [|done|rewrite length_app; simpl; lia].
    rewrite <-app_assoc in Hr2. split; [done|].
    intros [|i] net' entity' m' Hi Hl; simpl in Hi.
    + injection Hi as <- <- <-. exists id. split; [done|]. rewrite take_0, app_nil_r. auto.
    + destruct (Hids i net' entity' m' Hi Hl) as (id' & Hid' & Hf). exists id'. split; [done|].
      rewrite <-app_assoc in Hf. done.
Qed.

Lemma ms_Load_repr ms ops net entity seq limit id :
  ms_repr ms ops → formatMemoryMsgID net entity seq = Ok id → 0 ≤ seq → 0 ≤ limit < 2 ^ 63 →
  ms_LoadLatestID id (MkLoadOptions net entity limit false) ms =
  if Z.of_nat (length (log_of (net, entity) ops)) + 1 <? seq
  then match ms_lookup ms (net, entity) with
       | Some _ => Err (Errorf "loading messages from sequence number (%v) greater than current (%v)")
       | None => Ok []
       end
  else Ok (Some <$> log_latest messageRingBufferCap seq limit (log_of (net, entity) ops)).
Proof.
  intros (bs & Hbs & Hk) Hf Hseq Hlim. specialize (Hk (net, entity)).
  unfold ms_LoadLatestID, parseMemoryMsgID. cbn [oEvents oNetworkID oEntity oLimit].
  apply (msgid_roundtrip_parse (MkMemoryMsgID seq)) in Hf. rewrite Hf. simpl.
  unfold ms_lookup. rewrite Hbs. simpl. destruct (bs !! (net, entity)) as [rb|].
  - destruct Hk as [Hr Hcap]. by rewrite (rb_LoadLatestSeq_repr _ _ _ _ Hr), Hcap by done.
  - rewrite Hk. unfold log_latest, lastn. rewrite drop_nil. by destruct (_ <? _).
Qed.

(** C4: The memory store refines a log per network and entity. After any sequence of appends
    (fewer than 2^64), loading from the ID that [Append] returned for a message gives exactly
    the messages logged for that network and entity after it, oldest first, limited to the
    newest [limit] and to the capacity of 4096; appends to other keys and messages that are
    not PRIVMSG or NOTICE do not show. *)
Theorem memory_store_correct before net entity m after ms ids limit :
  loggable m →
  Z.of_nat (length (before ++ (net, entity, m) :: after)) + 1 < uint64_mod →
  0 ≤ limit < 2 ^ 63 →
  ms_run (before ++ (net, entity, m) :: after) NewMemoryStore = Ok (ms, ids) →
  ∃ id, ids !! length before = Some id ∧
    ms_LoadLatestID id (MkLoadOptions net entity limit false) ms =
    Ok (Some <$> lastn (Z.to_nat (Z.min messageRingBufferCap limit)) (log_of (net, entity) after)).
Proof.
  intros Hm Hb Hlim Hrun. apply (ms_run_repr _ _ _ _ [] NewMemoryStore_repr) in Hrun as [Hr Hids]; [|done].
  destruct (Hids (length before) net entity m) as (id & Hid & Hf);
    [by apply list_lookup_middle|done|]. exists id. split; [done|].
  rewrite take_app_length in Hf. simpl in Hr, Hf. set (k := (net, entity)) in *.
  rewrite (ms_Load_repr _ _ _ _ _ _ _ Hr Hf) by (done || lia). fold k.
  rewrite log_of_app, (log_of_cons _ _ after), log_of_single, decide_True by done.
  unfold log_latest. rewrite !length_app. cbn [length]. rewrite (proj2 (Z.ltb_ge _ _)) by lia.
  f_equal. f_equal. rewrite app_assoc, lastn_app_r, decide_True by lia.
  destruct (Z_le_gt_dec (Z.of_nat (length (log_of k after))) (Z.min messageRingBufferCap limit)).
  - rewrite !lastn_all by lia. done.
  - f_equal. lia.
Qed.

(** The ID [LastMsgID] returns for an existing buffer is the sequence number of the next
    message, and [LoadLatestID] excludes the message of its ID: the first message appended
    after the call is never loaded from that ID. For a key without a buffer it is not so. *)
Lemma LastMsgID_skips_next ms ops net entity m ms' id id' limit :
  ms_repr ms ops → Z.of_nat (length ops) + 2 < uint64_mod → loggable m → 0 ≤ limit < 2 ^ 63 →
  ms_LastMsgID net entity ms = Ok id →
  ms_Append net entity m ms = Ok (ms', id') →
  ms_LoadLatestID id (MkLoadOptions net entity limit false) ms' =
  match ms_lookup ms (net, entity) with
  | Some _ => Ok []
  | None => Ok (Some <$> lastn (Z.to_nat limit) [m])
  end.
Proof.
  intros Hr Hb Hm Hlim Hid Happ. destruct (ms_Append_repr _ _ _ _ _ _ _ Hr Hb Happ) as [Hr' _].
  unfold ms_LastMsgID in Hid. destruct Hr as (bs & Hbs & Hk). specialize (Hk (net, entity)).
  unfold ms_lookup in *. rewrite Hbs in *. cbn [mbind option_bind] in *.
  assert (0 ≤ match bs !! (net, entity) with Some rb => rb_cur rb | None => 0 end) as Hpos.
  { destruct (bs !! (net, entity)) as [rb|]; [|lia]. destruct Hk as [Hk _]. rewrite (repr_cur _ _ Hk). lia. }
  rewrite (ms_Load_repr _ _ _ _ _ _ _ Hr' Hid) by done.
  rewrite log_of_app, log_of_single, decide_True by done. unfold log_latest. rewrite length_app. simpl.
  destruct (bs !! (net, entity)) as [rb|].
  - destruct Hk as [Hk _]. rewrite (repr_cur _ _ Hk). rewrite (proj2 (Z.ltb_ge _ _)) by lia.
    replace (Z.to_nat _) with 0%nat by lia. unfold lastn. rewrite drop_ge by (rewrite length_app; simpl; lia). done.
  - rewrite Hk. simpl. do 2 f_equal. unfold messageRingBufferCap.
    destruct (Z.to_nat limit) eqn:E; [replace (Z.to_nat _) with 0%nat by lia; done|].
    rewrite !lastn_all by (simpl; lia). done.
Qed.
End store_correct.

(** ** Evaluation *)

Import UnaryCodec.

#[local] Instance memoryMsgID_unary : Bare memoryMsgID := {
  bare_marshal id := put_Z (Seq id);
  bare_unmarshal s := '(z, r) ← get_Z s; Some (MkMemoryMsgID z, r)
}.
#[local] Instance memoryMsgID_unary_laws : BareLaws memoryMsgID.
Proof.
  split. intros [z] b rest Hb. simpl in *. by rewrite (get_put_Z _ _ _ Hb).
Qed.

Definition privmsg (text : string) : Message := msg "PRIVMSG" ["#go"; text].

Lemma msgid_roundtrip_witness :
  ∃ s, formatMsgID 1 "#go" (MkMemoryMsgID 7) = Ok s ∧
    ParseMsgID memoryMsgID s = Ok (1, "#go", MkMemoryMsgID 7).
Proof.
  eexists. split; [reflexivity|].
  apply (msgid_roundtrip (B:=memoryMsgID) (C:=memoryMsgID)). reflexivity.
Defined.

Definition three_appends : list append_op :=
  [(1, "#go", privmsg "a"); (2, "#go", privmsg "b"); (1, "#go", privmsg "c")].

Lemma memory_store_correct_witness :
  ∃ ms ids id, ms_run three_appends NewMemoryStore = Ok (ms, ids) ∧ ids !! 0%nat = Some id ∧
    ms_LoadLatestID id (MkLoadOptions 1 "#go" 50 false) ms = Ok [Some (privmsg "c")].
Proof.
  destruct (ms_run three_appends NewMemoryStore) as [[ms ids]| |] eqn:E; [|by vm_compute in E..].
  destruct (memory_store_correct [] 1 "#go" (privmsg "a") (drop 1 three_appends) ms ids 50)
    as (id & Hid & Hl); [by left|reflexivity|lia|exact E|].
  exists ms, ids, id. split_and!; [reflexivity|exact Hid|exact Hl].
Defined.

Definition one_append : memoryMessageStore :=
  match ms_run (take 1 three_appends) NewMemoryStore with Ok (ms, _) => ms | _ => NewMemoryStore end.

Lemma one_append_repr : ms_repr one_append (take 1 three_appends).
Proof.
  unfold one_append. destruct (ms_run _ _) as [[ms ids]| |] eqn:E; [|by vm_compute in E..].
  apply (ms_run_repr _ _ _ _ [] NewMemoryStore_repr) in E; [apply E|reflexivity].
Qed.

Lemma LastMsgID_skips_next_witness :
  ∃ id ms' id', ms_LastMsgID 1 "#go" one_append = Ok id ∧
    ms_Append 1 "#go" (privmsg "c") one_append = Ok (ms', id') ∧
    ms_LoadLatestID id (MkLoadOptions 1 "#go" 50 false) ms' = Ok [].
Proof.
  destruct (ms_LastMsgID 1 "#go" one_append) as [id| |] eqn:E1; [|by vm_compute in E1..].
  destruct (ms_Append 1 "#go" (privmsg "c") one_append) as [[ms' id']| |] eqn:E2; [|by vm_compute in E2..].
  exists id, ms', id'. split_and!; [reflexivity..|].
  rewrite (LastMsgID_skips_next _ _ _ _ (privmsg "c") _ _ _ 50 one_append_repr
    ltac:(reflexivity) ltac:(by left) ltac:(lia) E1 E2).
  destruct (ms_lookup one_append (1, "#go")) eqn:E3; [reflexivity|by vm_compute in E3].
Defined.
