(* ===== verification/Backoff.v ===== *)
(** * Exponential backoff (rate.go)

    Durations are 64-bit signed nanoseconds. The random jitter is the value that
    [rand.Int63n] returns, an argument of [Next] in the range Go documents. *)

From S2P Require Import Prelude.

Open Scope string_scope.
Open Scope list_scope.
Open Scope Z_scope.

Record backoffer := MkBackoffer { b_min : Z; b_max : Z; b_jitter : Z; b_n : Z }.

Definition newBackoffer (min max jitter : Z) : backoffer := MkBackoffer min max jitter 0.

Definition set_n (b : backoffer) (n : Z) : backoffer :=
  MkBackoffer (b_min b) (b_max b) (b_jitter b) n.

Definition backoffer_Reset (b : backoffer) : backoffer := set_n b 0.

(** [rand.Int63n(n)] panics for [n <= 0]; [r] is the value it draws. *)
Definition backoffer_Next (r : Z) (b : backoffer) : res string (backoffer * Z) :=
  if decide (b_n b = 0) then Ok (set_n b 1, 0)
  else
    let d := wrap_i64 (b_n b * b_min b) in
    let '(b, d) := if b_max b <? d then (b, b_max b)
                   else (set_n b (wrap_i64 (b_n b * 2)), d) in
    if decide (b_jitter b = 0) then Ok (b, d)
    else if b_jitter b <? 0 then Panic "invalid argument to Int63n"
    else Ok (b, wrap_i64 (d + r)).

(** A run of [Next] calls with the random values [rs]. *)
Fixpoint backoffer_run (rs : list Z) (b : backoffer) : res string (list Z) :=
  match rs with
  | [] => Ok []
  | r :: rs' =>
    '(b, d) ← backoffer_Next r b;
    ds ← backoffer_run rs' b;
    Ok (d :: ds)
  end.

(** The delay before attempt [k], without jitter: nothing, then powers of two of the minimum
    until the maximum. *)
Definition backoff_base (min max : Z) (k : nat) : Z :=
  match k with O => 0 | S k' => Z.min (2 ^ Z.of_nat k' * min) max end.

Section backoff.
Context (min max jitter : Z).
Context (Hmin : 0 < min ≤ max) (Hjitter : 0 ≤ jitter) (Hmax : 2 * max + jitter < 2 ^ 63).

(** The state before the attempt [S k]: [n] is [2^k], or already past the maximum. *)
Definition backoff_inv (k : nat) (n : Z) : Prop :=
  1 ≤ n ∧ n * min ≤ 2 * max ∧ (n = 2 ^ Z.of_nat k ∨ max < n * min ∧ n ≤ 2 ^ Z.of_nat k).

Definition jitter_of (r : Z) : Z := if decide (jitter = 0) then 0 else r.

Lemma backoff_step r k n :
  0 ≤ r ≤ jitter → backoff_inv k n →
  ∃ n', backoffer_Next r (MkBackoffer min max jitter n)
        = Ok (MkBackoffer min max jitter n', backoff_base min max (S k) + jitter_of r) ∧
        backoff_inv (S k) n'.
Proof using Hmin Hjitter Hmax.
  intros Hr (Hn1 & Hn2 & Hn). unfold backoffer_Next, backoff_base, jitter_of. simpl.
  rewrite decide_False by lia. rewrite wrap_i64_small by lia.
  assert (Z.min (2 ^ Z.of_nat k * min) max = Z.min (n * min) max) as -> by (destruct Hn; nia).
  assert (2 ^ Z.of_nat (S k) = 2 * 2 ^ Z.of_nat k) as Hpow
    by (rewrite Nat2Z.inj_succ, Z.pow_succ_r; lia).
  destruct (max <? n * min) eqn:E; bool_to_prop; simpl.
  - exists n. rewrite (proj2 (Z.ltb_ge jitter 0)) by lia. split.
    + case_decide; do 2 f_equal; [lia|]. rewrite wrap_i64_small; lia.
    + unfold backoff_inv. rewrite Hpow. split_and!; [done|done|]. right. lia.
  - assert (n ≤ max) by nia. exists (n * 2). rewrite (wrap_i64_small (n * 2)) by lia.
    rewrite (proj2 (Z.ltb_ge jitter 0)) by lia. split.
    + case_decide; do 2 f_equal; [lia|]. rewrite wrap_i64_small; lia.
    + unfold backoff_inv. rewrite Hpow. split_and!; [lia|lia|]. destruct Hn as [->|]; [left|right]; lia.
Qed.

Lemma backoff_run_inv rs k n :
  Forall (λ r, 0 ≤ r ≤ jitter) rs → backoff_inv k n →
  backoffer_run rs (MkBackoffer min max jitter n)
  = Ok (imap (λ i r, backoff_base min max (S k + i) + jitter_of r) rs).
Proof using Hmin Hjitter Hmax.
  revert k n. induction rs as [|r rs IH]; intros k n Hrs Hinv; [done|].
  apply Forall_cons in Hrs as [Hr Hrs]. destruct (backoff_step r k n Hr Hinv) as (n' & Hs & Hinv').
  cbn [backoffer_run]. rewrite Hs. simpl. rewrite (IH (S k) n') by done. simpl.
  rewrite Nat.add_0_r. do 2 f_equal. apply imap_ext. intros i x _.
  unfold compose. simpl. by rewrite Nat.add_succ_r.
Qed.
End backoff.

(** C40: After [newBackoffer] or [Reset], the first delay is zero and the [k]-th one is
    [min * 2^(k-1)], capped at [max], plus the jitter drawn; no 64-bit multiplication wraps
    as long as [2 * max + jitter] is representable. *)
Theorem backoffer_exponential (b : backoffer) (r : Z) (rs : list Z) :
  0 < b_min b ≤ b_max b → 0 ≤ b_jitter b → 2 * b_max b + b_jitter b < 2 ^ 63 →
  Forall (λ r, 0 ≤ r ≤ b_jitter b) rs →
  backoffer_run (r :: rs) (backoffer_Reset b)
  = Ok (0 :: imap (λ i r, backoff_base (b_min b) (b_max b) (S i) + jitter_of (b_jitter b) r) rs).
Proof.
  intros Hmin Hj Hmax Hrs. destruct b as [min max jitter n]. simpl in *.
  cbn [backoffer_run]. unfold backoffer_Next, backoffer_Reset, set_n. cbn.
  rewrite (backoff_run_inv min max jitter Hmin Hj Hmax rs 0 1 Hrs); [done|].
  unfold backoff_inv. simpl. lia.
Qed.

Lemma backoffer_exponential_witness :
  backoffer_run [7; 1; 0; 2; 1] (backoffer_Reset (MkBackoffer 60 200 3 5))
  = Ok [0; 61; 120; 202; 201].
Proof.
  rewrite (backoffer_exponential (MkBackoffer 60 200 3 5)); simpl; [reflexivity|lia|lia|lia|].
  repeat constructor; simpl; lia.
Defined.
