(* ===== verification/Highlight.v ===== *)
(** * Highlights (irc.go)

    Whether a text mentions a nickname as a word of its own and outside a URI. The scan
    restarts after every occurrence of the nickname, which shortens the text: its length
    bounds the iterations. *)

From S2P Require Import Prelude GoStrings GoUnicode IrcMessage.

Open Scope string_scope.
Open Scope list_scope.
Open Scope Z_scope.

Definition isWordBoundary `{UnicodeTables} (r : Z) : bool :=
  if (r =? 45) || (r =? 95) || (r =? 124) then false
  else negb (IsLetter r) && negb (IsNumber r).

(** [strings.LastIndexFunc(s, unicode.IsSpace)]: runes are decoded from the end. *)
Fixpoint last_space (fuel : nat) (s : string) : option nat :=
  match fuel with
  | O => None
  | S fuel' =>
    match s with
    | "" => None
    | String _ _ =>
      let '(r, size) := DecodeLastRune s in
      let start := (slen s - size)%nat in
      if IsSpace r then Some start else last_space fuel' (str_take start s)
    end
  end.
Definition LastIndexSpace (s : string) : option nat := last_space (slen s) s.

Definition isURIPrefix (text : string) : bool :=
  let text := match LastIndexSpace text with Some i => str_drop i text | None => text end in
  match Index text "://" with
  | None => false
  | Some i =>
    let '(r, _) := DecodeLastRune (str_take i text) in
    if (r =? 43) || (r =? 45) || (r =? 46) then true
    else in_range 48 57 r || in_range 97 122 r || in_range 65 90 r
  end.

(** The condition on one occurrence, between [before] and [after]. *)
Definition highlight_at `{UnicodeTables} (before after : string) : bool :=
  let '(l, _) := DecodeLastRune before in
  let '(r, _) := DecodeRune after in
  isWordBoundary l && isWordBoundary r && negb (isURIPrefix before).

Fixpoint highlight_loop `{UnicodeTables} (fuel : nat) (text nick : string) : bool :=
  match fuel with
  | O => false
  | S fuel' =>
    match Index text nick with
    | None => false
    | Some i =>
      let after := str_drop (i + slen nick) text in
      if highlight_at (str_take i text) after then true else highlight_loop fuel' after nick
    end
  end.

Definition isHighlight `{UnicodeTables} (text nick : string) : res goerr bool :=
  if decide (nick = "") then Panic "isHighlight called with empty nick"
  else Ok (highlight_loop (S (slen text)) text nick).

(** ** Specification: the scan over non-overlapping occurrences from the left *)

Section highlight.
Context `{UnicodeTables}.

Inductive Highlighted (nick : string) : string → Prop :=
| hl_here before after :
    highlight_at before after = true → Cut (before +:+ nick +:+ after) nick = Some (before, after) →
    Highlighted nick (before +:+ nick +:+ after)
| hl_later before after :
    Cut (before +:+ nick +:+ after) nick = Some (before, after) → Highlighted nick after →
    Highlighted nick (before +:+ nick +:+ after).

Lemma Index_Cut text nick a b :
  Cut text nick = Some (a, b) →
  Index text nick = Some (slen a) ∧ text = a +:+ nick +:+ b ∧
  str_take (slen a) text = a ∧ str_drop (slen a + slen nick) text = b.
Proof.
  intros E. unfold Index. rewrite E. apply Cut_sound in E as ->. split_and!; [done|done|apply str_take_app|].
  by rewrite <-slen_app, <-str_app_assoc, str_drop_app.
Qed.

Lemma highlight_loop_spec fuel text nick :
  nick ≠ "" → (slen text < fuel)%nat → highlight_loop fuel text nick = true ↔ Highlighted nick text.
Proof.
  intros Hn. assert (0 < slen nick)%nat as Hpos by (destruct nick; [done|simpl; lia]).
  revert text. induction fuel as [|fuel IH]; intros text Hf; [lia|]. cbn [highlight_loop].
  destruct (Cut text nick) as [[a b]|] eqn:E.
  - destruct (Index_Cut _ _ _ _ E) as (-> & Ht & -> & ->).
    assert (slen b < fuel)%nat as Hb by (rewrite Ht, !slen_app in Hf; lia).
    specialize (IH b Hb). rewrite Ht in E |- *. clear Ht. split.
    + destruct (highlight_at a b) eqn:Eh; [by constructor|]. intros Hl. apply hl_later; [done|]. by apply IH.
    + intros Hh. inversion Hh as [a' b' Hat Hc Heq|a' b' Hc Hl Heq]; rewrite Heq, E in Hc;
        injection Hc as -> ->.
      * by rewrite Hat.
      * apply IH in Hl. rewrite Hl. by destruct (highlight_at a' b').
  - unfold Index. rewrite E. split; [done|].
    intros Hh. inversion Hh as [a b ? Hc Heq|a b Hc ? Heq]; rewrite Heq in Hc; congruence.
Qed.

(** [isHighlight] terminates on every text and panics exactly for an empty nickname; it
    answers yes exactly when some occurrence found by the scan is delimited by word
    boundaries and not preceded by a URI scheme. *)
Theorem isHighlight_correct (text nick : string) :
  (nick = "" ∧ isHighlight text nick = Panic "isHighlight called with empty nick") ∨
  (nick ≠ "" ∧ ∃ hl, isHighlight text nick = Ok hl ∧ (hl = true ↔ Highlighted nick text)).
Proof.
  unfold isHighlight. destruct (decide (nick = "")) as [->|Hn]; [by left|right]. split; [done|].
  eexists. split; [done|]. apply highlight_loop_spec; [done|lia].
Qed.
End highlight.

(** The scan forgets what precedes the text it restarts on: a nickname repeated inside one
    word counts as a mention. *)
Lemma isHighlight_repeated `{UnicodeTables} :
  table_letter RuneError = false → table_number RuneError = false →
  isHighlight "SojuUserSojuUser" "SojuUser" = Ok true ∧
  isHighlight "OtherSojuUserSan" "SojuUser" = Ok false.
Proof.
  unfold RuneError. intros HL HN. split; cbv -[table_letter table_number]; by rewrite ?HL, ?HN.
Qed.
