(* ===== verification/Caps.v ===== *)
(** * Capability registries (xirc/caps.go) *)

From S2P Require Import Prelude.

Open Scope string_scope.
Open Scope list_scope.

Record CapRegistry := MkCaps {
  Available : gmap string string;
  Enabled : gset string
}.

Definition NewCapRegistry : CapRegistry := MkCaps ∅ ∅.

Definition IsAvailable (cr : CapRegistry) (name : string) : bool :=
  bool_decide (is_Some (Available cr !! name)).
Definition IsEnabled (cr : CapRegistry) (name : string) : bool := bool_decide (name ∈ Enabled cr).

Definition cr_Del (name : string) (cr : CapRegistry) : CapRegistry :=
  MkCaps (delete name (Available cr)) (Enabled cr ∖ {[name]}).
Definition SetEnabled (name : string) (enabled : bool) (cr : CapRegistry) : CapRegistry :=
  MkCaps (Available cr) (if enabled then {[name]} ∪ Enabled cr else Enabled cr ∖ {[name]}).
Definition SetAvailable (name value : string) (cr : CapRegistry) : CapRegistry :=
  MkCaps (<[name := value]> (Available cr)) (Enabled cr).
