(* ===== verification/Database.v ===== *)
(** * Records of the database (database/database.go)

    The rows the bouncer keeps in memory: users, networks, saved channels and message targets,
    with the derived names. Times count nanoseconds. *)

From S2P Require Import Prelude GoStrings GoTime.

Open Scope string_scope.
Open Scope list_scope.
Open Scope Z_scope.

(** [toNullString]: an empty string is stored as NULL; [NullString.String] is its inverse. *)
Definition toNullString (s : string) : option string := if decide (s = "") then None else Some s.
Definition NullString (o : option string) : string := default "" o.

Record dbUser := MkUser {
  uID : Z; uUsername : string; uPassword : string; uNick : string; uRealname : string;
  uAdmin : bool; uEnabled : bool; uDownstreamInteractedAt : Z; uMaxNetworks : Z
}.

Definition NewUser (username : string) : dbUser := MkUser 0 username "" "" "" false true zeroTime (-1).

(** The TLS client certificate of the EXTERNAL mechanism is opaque. *)
Record SASL := MkSASL {
  Mechanism : string; PlainUsername : string; PlainPassword : string;
  CertBlob : option string; PrivKeyBlob : option string
}.
Definition emptySASL : SASL := MkSASL "" "" "" None None.

Record dbNetwork := MkNetwork {
  nID : Z; nName : string; nAddr : string; nNick : string; nUsername : string; nRealname : string;
  nPass : string; nConnectCommands : list string; nCertFP : string; nSASL : SASL;
  nAutoAway : bool; nEnabled : bool
}.
#[export] Instance SASL_eq_dec : EqDecision SASL.
Proof. solve_decision. Defined.
#[export] Instance dbNetwork_eq_dec : EqDecision dbNetwork.
Proof. solve_decision. Defined.

Definition NewNetwork (addr : string) : dbNetwork :=
  MkNetwork 0 "" addr "" "" "" "" [] "" emptySASL true true.

Definition GetName (net : dbNetwork) : string := if decide (nName net ≠ "") then nName net else nAddr net.

Definition GetNick (user : dbUser) (net : option dbNetwork) : string :=
  match net with
  | Some n => if decide (nNick n ≠ "") then nNick n
              else if decide (uNick user ≠ "") then uNick user else uUsername user
  | None => if decide (uNick user ≠ "") then uNick user else uUsername user
  end.

Definition GetUsername (user : dbUser) (net : option dbNetwork) : string :=
  match net with
  | Some n => if decide (nUsername n ≠ "") then nUsername n else GetNick user net
  | None => GetNick user net
  end.

Definition GetRealname (user : dbUser) (net : option dbNetwork) : string :=
  match net with
  | Some n => if decide (nRealname n ≠ "") then nRealname n
              else if decide (uRealname user ≠ "") then uRealname user else GetNick user net
  | None => if decide (uRealname user ≠ "") then uRealname user else GetNick user net
  end.

Inductive MessageFilter := FilterDefault | FilterNone | FilterHighlight | FilterMessage.
#[export] Instance MessageFilter_eq_dec : EqDecision MessageFilter.
Proof. solve_decision. Defined.

Record dbChannel := MkChannel {
  cID : Z; cName : string; cKey : string; cDetached : bool; cDetachedInternalMsgID : string;
  cRelayDetached : MessageFilter; cReattachOn : MessageFilter; cDetachAfter : Z; cDetachOn : MessageFilter
}.

Definition set_cDetached (d : bool) (id : string) (c : dbChannel) : dbChannel :=
  MkChannel (cID c) (cName c) (cKey c) d id (cRelayDetached c) (cReattachOn c) (cDetachAfter c) (cDetachOn c).

Record MessageTarget := MkMessageTarget {
  mtID : Z; mtTarget : string; mtPinned : bool; mtMuted : bool; mtBlocked : bool
}.

Record ReadReceipt := MkReadReceipt { rrID : Z; rrTarget : string; rrTimestamp : Z }.

Record webPushKeys := MkKeys { kAuth : string; kP256DH : string; kVAPID : string }.
#[export] Instance webPushKeys_eq_dec : EqDecision webPushKeys.
Proof. solve_decision. Defined.
Record WebPushSubscription := MkSub { subID : Z; subEndpoint : string; subUpdatedAt : Z; subKeys : webPushKeys }.

Record DeliveryReceipt := MkReceipt { drID : Z; drTarget : string; drClient : string; drInternalMsgID : string }.
Record WebPushConfig := MkPushConfig { pcID : Z; pcPublic : string; pcPrivate : string }.
Record DatabaseStats := MkStats { stUsers : Z; stNetworks : Z; stChannels : Z }.
Record MessageTargetLast := MkTargetLast { tlName : string; tlLatestMessage : Z }.
Record MessageOptions := MkMessageOptions {
  moAfterID : Z; moAfterTime : Z; moBeforeTime : Z; moLimit : Z; moEvents : bool; moSender : string; moText : string;
  moTakeLast : bool
}.

Lemma NullString_to s : NullString (toNullString s) = s.
Proof. unfold toNullString. by case_decide. Qed.

(** Every account has a nickname to use upstream. *)
Lemma GetNick_nonempty user net : uUsername user ≠ "" → GetNick user net ≠ "".
Proof. intros. unfold GetNick. by destruct net; repeat case_decide. Qed.
