(* ===== verification/Upstream.v ===== *)
(** * Upstream connections: state, effects and helpers (upstream.go, user.go)

    One connection to an IRC server, as the user's event loop sees it. The handlers run in a
    state monad whose state is the connection, the network it belongs to and the trace of the
    calls made to the other parts of the bouncer: messages for the server, calls of methods of
    downstream connections, messages given to the message store. What those parts answer (the
    message store, the database, the clock, [irc.ParsePrefix]) is the record [env]; its fields
    take the trace so far. An error keeps the changes made before it. *)

From S2P Require Import Prelude GoStrings GoUnicode IrcMessage CaseMapping Membership Modes WhoX Base64.
From S2P Require Import Effects GenMsg Caps Database Highlight.

Open Scope string_scope.
Open Scope list_scope.
Open Scope Z_scope.

Definition serviceNick : string := "BouncerServ".
Definition serviceNickCM : string := "bouncerserv".
Definition stdChannelTypes : string := "#&+!".
Definition stdCaseMapping : CaseMapping := CaseMappingRFC1459.

(** ** Data *)

Record upstreamChannel := MkUpstreamChannel {
  chName : string; chTopic : string; chTopicWho : option Prefix; chTopicTime : Z;
  chStatus : ascii; chModes : option channelModes; chCreationTime : string;
  chMembers : CaseMappingMap MembershipSet; chComplete : bool;
  chDetachTimer : option Z
}.

Definition eta_ch (x : upstreamChannel) : upstreamChannel :=
  MkUpstreamChannel (chName x) (chTopic x) (chTopicWho x) (chTopicTime x) (chStatus x) (chModes x)
    (chCreationTime x) (chMembers x) (chComplete x) (chDetachTimer x).
Definition set_chTopic : string → upstreamChannel → upstreamChannel := ltac:(setter eta_ch chTopic).
Definition set_chTopicWho : option Prefix → upstreamChannel → upstreamChannel := ltac:(setter eta_ch chTopicWho).
Definition set_chTopicTime : Z → upstreamChannel → upstreamChannel := ltac:(setter eta_ch chTopicTime).
Definition set_chStatus : ascii → upstreamChannel → upstreamChannel := ltac:(setter eta_ch chStatus).
Definition set_chModes : option channelModes → upstreamChannel → upstreamChannel := ltac:(setter eta_ch chModes).
Definition set_chCreationTime : string → upstreamChannel → upstreamChannel := ltac:(setter eta_ch chCreationTime).
Definition set_chMembers : CaseMappingMap MembershipSet → upstreamChannel → upstreamChannel :=
  ltac:(setter eta_ch chMembers).
Definition set_chComplete : bool → upstreamChannel → upstreamChannel := ltac:(setter eta_ch chComplete).
Definition set_chDetachTimer : option Z → upstreamChannel → upstreamChannel := ltac:(setter eta_ch chDetachTimer).

(** [updateAutoDetach]: the timer that is running, by its duration. *)
Definition updateAutoDetach (dur : Z) (ch : upstreamChannel) : upstreamChannel :=
  set_chDetachTimer (if decide (dur = 0) then None else Some dur) ch.

Inductive upstreamBatch := MkUpstreamBatch (bType : string) (bParams : list string)
  (bOuter : option upstreamBatch) (bLabel : string).
Definition batch_Label (b : upstreamBatch) : string := let '(MkUpstreamBatch _ _ _ l) := b in l.

Record upstreamUser := MkUpstreamUser {
  Nickname : string; Username : string; Hostname : string; Server : string; Flags : string;
  Account : string; Realname : string
}.
Definition emptyUser : upstreamUser := MkUpstreamUser "" "" "" "" "" "" "".
Definition user_nick (nick : string) : upstreamUser := MkUpstreamUser nick "" "" "" "" "" "".

Definition has_field (uu : upstreamUser) (c : ascii) : bool :=
  if decide (c = "n"%char) then negb (bool_decide (Nickname uu = ""))
  else if decide (c = "u"%char) then negb (bool_decide (Username uu = ""))
  else if decide (c = "h"%char) then negb (bool_decide (Hostname uu = ""))
  else if decide (c = "s"%char) then negb (bool_decide (Server uu = ""))
  else if decide (c = "f"%char) then negb (bool_decide (Flags uu = ""))
  else if decide (c = "a"%char) then negb (bool_decide (Account uu = ""))
  else if decide (c = "r"%char) then negb (bool_decide (Realname uu = ""))
  else str_mem c "tcidlo".

Definition hasWHOXFields (uu : upstreamUser) (fields : string) : bool :=
  forallb (has_field uu) (str_list fields).

Definition upd_field (old new : string) : string := if decide (new ≠ "") then new else old.

Definition updateFrom (uu update : upstreamUser) : upstreamUser :=
  MkUpstreamUser (upd_field (Nickname uu) (Nickname update)) (upd_field (Username uu) (Username update))
    (upd_field (Hostname uu) (Hostname update)) (upd_field (Server uu) (Server update))
    (upd_field (Flags uu) (Flags update)) (upd_field (Account uu) (Account update))
    (upd_field (Realname uu) (Realname update)).

(** [sentAt] is the time of sending, [None] for the zero time. *)
Record pendingUpstreamCommand := MkPending {
  pDownstreamID : Z; pDownstreamLabel : string; pMsg : Message; pSentAt : option Z
}.

(** What the upstream side reads of a downstream connection. [dc_here] tells whether its
    network is this one; [dc_sasl] is [None] without a SASL exchange in progress and
    [Some (Some (username, password))] when that exchange is a PLAIN one. *)
Record downstreamView := MkDownstreamView {
  dc_id : Z; dc_here : bool; dc_nick : string; dc_prefix : Prefix; dc_caps : CapRegistry; dc_away : bool;
  dc_monitored : CaseMappingMap unit; dc_metadataSubs : gset string;
  dc_sasl : option (option (string * string))
}.

(** Calls of methods of a downstream connection. *)
Inductive dc_call :=
| SendMessage (m : Message)
| sendMessageWithID (m : Message) (msgID : string)
| advanceMessageWithID (m : Message) (msgID : string)
| relayDetachedMessage (m : Message)
| sendTargetBacklog (target msgID : string)
| forwardChannel (channel : string)
| endSASL (m : option Message)
| updateNick | updateRealname | updateHost | updateAccount | updateIsupport | updateSupportedCaps
| updateCasemapping_dc
| ServiceNOTICE (text : string)
| FlushBatch.

(** The calls a handler makes, in order. *)
Inductive action :=
| ToServer (m : Message)
| ToDownstream (id : Z) (c : dc_call)
| LabelContext (id : Z) (label batch : string)
| ClearLabel (id : Z)
| Append (entityCM : string) (m : Message)
| StoreChannel (ch : dbChannel)
| StoreNetwork (net : dbNetwork)
| NotifyNetworkState (attrs : list (string * string))
| WebPush (m : Message)
| WebPushIfUnread (targetCM bufferName : string) (m : Message).

Record ustate := MkUstate {
  (* the network *)
  net_record : dbNetwork;
  net_casemap : CaseMapping;
  net_channels : CaseMappingMap dbChannel;
  net_delivered : CaseMappingMap (gmap string string);
  net_pushTargets : CaseMappingMap Z;
  net_connected : bool;
  net_lastError : option string;
  (* the connection *)
  serverPrefix : Prefix;
  serverName : string;
  availableUserModes : string;
  availableChannelModes : gmap ascii channelModeType;
  availableChannelTypes : string;
  availableStatusMsg : string;
  availableMemberships : list Membership;
  isupport : gmap string (option string);
  registered : bool;
  nick : string;
  username : string;
  realname : string;
  hostname : string;
  modes : string;
  channels : CaseMappingMap upstreamChannel;
  users : CaseMappingMap upstreamUser;
  caps : CapRegistry;
  batches : gmap string upstreamBatch;
  away : bool;
  account : string;
  nextLabelID : Z;
  monitored : CaseMappingMap bool;
  saslClient : option string;
  saslStarted : bool;
  pendingCmds : gmap string (list pendingUpstreamCommand);
  pendingRegainNick : string;
  regainNickTimer : bool;
  gotMotd : bool;
  hasDesiredNick : bool;
  rateLimit : bool;
  trace : list action
}.

Definition eta_u (x : ustate) : ustate :=
  MkUstate
    (net_record x) (net_casemap x) (net_channels x) (net_delivered x) (net_pushTargets x)
    (net_connected x) (net_lastError x) (serverPrefix x) (serverName x) (availableUserModes x)
    (availableChannelModes x) (availableChannelTypes x) (availableStatusMsg x)
    (availableMemberships x) (isupport x) (registered x) (nick x) (username x) (realname x)
    (hostname x) (modes x) (channels x) (users x) (caps x) (batches x) (away x) (account x)
    (nextLabelID x) (monitored x) (saslClient x) (saslStarted x) (pendingCmds x)
    (pendingRegainNick x) (regainNickTimer x) (gotMotd x) (hasDesiredNick x) (rateLimit x)
    (trace x).
Definition set_net_record : dbNetwork → ustate → ustate := ltac:(setter eta_u net_record).
Definition set_net_casemap : CaseMapping → ustate → ustate := ltac:(setter eta_u net_casemap).
Definition set_net_channels : CaseMappingMap dbChannel → ustate → ustate := ltac:(setter eta_u net_channels).
Definition set_net_delivered : CaseMappingMap (gmap string string) → ustate → ustate := ltac:(setter eta_u net_delivered).
Definition set_net_pushTargets : CaseMappingMap Z → ustate → ustate := ltac:(setter eta_u net_pushTargets).
Definition set_net_connected : bool → ustate → ustate := ltac:(setter eta_u net_connected).
Definition set_net_lastError : option string → ustate → ustate := ltac:(setter eta_u net_lastError).
Definition set_serverPrefix : Prefix → ustate → ustate := ltac:(setter eta_u serverPrefix).
Definition set_serverName : string → ustate → ustate := ltac:(setter eta_u serverName).
Definition set_availableUserModes : string → ustate → ustate := ltac:(setter eta_u availableUserModes).
Definition set_availableChannelModes : gmap ascii channelModeType → ustate → ustate := ltac:(setter eta_u availableChannelModes).
Definition set_availableChannelTypes : string → ustate → ustate := ltac:(setter eta_u availableChannelTypes).
Definition set_availableStatusMsg : string → ustate → ustate := ltac:(setter eta_u availableStatusMsg).
Definition set_availableMemberships : list Membership → ustate → ustate := ltac:(setter eta_u availableMemberships).
Definition set_isupport : gmap string (option string) → ustate → ustate := ltac:(setter eta_u isupport).
Definition set_registered : bool → ustate → ustate := ltac:(setter eta_u registered).
Definition set_nick : string → ustate → ustate := ltac:(setter eta_u nick).
Definition set_username : string → ustate → ustate := ltac:(setter eta_u username).
Definition set_realname : string → ustate → ustate := ltac:(setter eta_u realname).
Definition set_hostname : string → ustate → ustate := ltac:(setter eta_u hostname).
Definition set_modes : string → ustate → ustate := ltac:(setter eta_u modes).
Definition set_channels : CaseMappingMap upstreamChannel → ustate → ustate := ltac:(setter eta_u channels).
Definition set_users : CaseMappingMap upstreamUser → ustate → ustate := ltac:(setter eta_u users).
Definition set_caps : CapRegistry → ustate → ustate := ltac:(setter eta_u caps).
Definition set_batches : gmap string upstreamBatch → ustate → ustate := ltac:(setter eta_u batches).
Definition set_away : bool → ustate → ustate := ltac:(setter eta_u away).
Definition set_account : string → ustate → ustate := ltac:(setter eta_u account).
Definition set_nextLabelID : Z → ustate → ustate := ltac:(setter eta_u nextLabelID).
Definition set_monitored : CaseMappingMap bool → ustate → ustate := ltac:(setter eta_u monitored).
Definition set_saslClient : option string → ustate → ustate := ltac:(setter eta_u saslClient).
Definition set_saslStarted : bool → ustate → ustate := ltac:(setter eta_u saslStarted).
Definition set_pendingCmds : gmap string (list pendingUpstreamCommand) → ustate → ustate := ltac:(setter eta_u pendingCmds).
Definition set_pendingRegainNick : string → ustate → ustate := ltac:(setter eta_u pendingRegainNick).
Definition set_regainNickTimer : bool → ustate → ustate := ltac:(setter eta_u regainNickTimer).
Definition set_gotMotd : bool → ustate → ustate := ltac:(setter eta_u gotMotd).
Definition set_hasDesiredNick : bool → ustate → ustate := ltac:(setter eta_u hasDesiredNick).
Definition set_rateLimit : bool → ustate → ustate := ltac:(setter eta_u rateLimit).
Definition set_trace : list action → ustate → ustate := ltac:(setter eta_u trace).

(** A network as [newNetwork] makes it, with a fresh connection of [connectToUpstream]. *)
Definition newConnection (record : dbNetwork) (saved : list dbChannel) : ustate := {|
  net_record := record;
  net_casemap := stdCaseMapping;
  net_channels := foldl (λ m ch, CMM.Set_ m (cName ch) ch) (CMM.New CaseMappingASCII) saved;
  net_delivered := CMM.New CaseMappingASCII;
  net_pushTargets := CMM.New CaseMappingASCII;
  net_connected := false;
  net_lastError := None;
  serverPrefix := mkPrefix "*" "" "";
  serverName := "";
  availableUserModes := "";
  availableChannelModes := stdChannelModes;
  availableChannelTypes := stdChannelTypes;
  availableStatusMsg := "";
  availableMemberships := stdMemberships;
  isupport := ∅;
  registered := false;
  nick := "";
  username := "";
  realname := "";
  hostname := "";
  modes := "";
  channels := CMM.New stdCaseMapping;
  users := CMM.New stdCaseMapping;
  caps := NewCapRegistry;
  batches := ∅;
  away := false;
  account := "";
  nextLabelID := 0;
  monitored := CMM.New stdCaseMapping;
  saslClient := None;
  saslStarted := false;
  pendingCmds := ∅;
  pendingRegainNick := "";
  regainNickTimer := false;
  gotMotd := false;
  hasDesiredNick := true;
  rateLimit := true;
  trace := []
|}.

(** What the rest of the program answers. *)
Class env := MkEnv {
  e_user : dbUser;
  e_downstreams : list downstreamView;
  e_hasStore : bool;
  e_LastMsgID : list action → string → option string;
  e_Append : list action → string → Message → option string;
  e_GetMessageTarget : string → option MessageTarget;
  e_now : list action → Z;
  e_time : option string → string;
  e_ParsePrefix : string → Prefix;
  e_srvPrefix : Prefix;
  e_saslStart : string → option string;
  e_saslNext : string → string → option string
}.

(** ** The monad *)

Abbreviation M := (ST ustate).

Definition emit (a : action) : M unit := modify (λ s, set_trace (trace s ++ [a]) s).

(** ** Helpers of upstreamConn and network *)

Section helpers.
Context `{E : env} `{UnicodeTables}.

Definition here_downstreams : list downstreamView := filter (λ dc, dc_here dc = true) (e_downstreams).

Definition forEachDownstream (f : downstreamView → M unit) : M unit := foreach f here_downstreams.

Definition forEachDownstreamByID (id : Z) (f : downstreamView → M unit) : M unit :=
  forEachDownstream (λ dc, if decide (id ≠ 0 ∧ id ≠ dc_id dc) then skip else f dc).

Definition downstreamByID (id : Z) : option downstreamView :=
  List.find (λ dc, bool_decide (dc_id dc = id)) (e_downstreams).

Definition send_dc (dc : downstreamView) (c : dc_call) : M unit := emit (ToDownstream (dc_id dc) c).

Definition getChannel (name : string) : M upstreamChannel :=
  ch ← gets (λ s, CMM.Get (channels s) name);
  match ch with
  | None => fail (Errorf "unknown channel %q")
  | Some ch => mret ch
  end.

(** Storing back the channel a pointer from [channels.Get(name)] designates. *)
Definition put_channel (name : string) (ch : upstreamChannel) : M unit :=
  modify (λ s, set_channels (CMM.Set_ (channels s) name ch) s).

(** [strings.ContainsRune(types, rune(entity[0]))]: the byte is taken as a code point. *)
Definition isChannel (s : ustate) (entity : string) : bool :=
  match entity with
  | "" => false
  | String c _ => existsb (Z.eqb (byte_val c)) (runes (availableChannelTypes s))
  end.

Definition equalCasemap (s : ustate) (a b : string) : bool :=
  bool_decide (cm_apply (net_casemap s) a = cm_apply (net_casemap s) b).

Definition isOurNick (s : ustate) (n : string) : bool := equalCasemap s (nick s) n.

Definition forwardMessage (m : Message) : M unit := forEachDownstream (λ dc, send_dc dc (SendMessage m)).
Definition forwardMsgByID (id : Z) (m : Message) : M unit :=
  forEachDownstreamByID id (λ dc, send_dc dc (SendMessage m)).

(** [upstreamConn.SendMessage]: tags only with the message-tags capability. *)
Definition SendMessage_uc (m : Message) : M unit :=
  cr ← gets caps;
  emit (ToServer (if IsEnabled cr "message-tags" then m else with_tags (λ _, ∅) m)).

(** [SendMessageLabeled] with no label context left to consume but [label]. *)
Definition SendMessageLabeled (downstreamID : Z) (label : string) (m : Message) : M unit :=
  s ← gets id;
  if IsEnabled (caps s) "labeled-response" then
    modify (set_nextLabelID (wrap_u64 (nextLabelID s + 1))) ;;
    SendMessage_uc (with_tags (λ tags, <["label" := "sd-" +:+ FormatUint downstreamID +:+ "-"
      +:+ FormatUint (nextLabelID s) +:+ "-" +:+ label]> tags) m)
  else SendMessage_uc m.

Definition parseLabel (label : string) : res goerr (Z * string) :=
  if decide (label = "") then Ok (0, "")
  else
    let error := Err (Errorf "unexpected message label: invalid downstream reference for label %q: %v") in
    match SplitN label "-" 4 with
    | p0 :: p1 :: _ :: p3 :: _ =>
      if decide (p0 ≠ "sd") then error
      else match ParseUint64 p1 with
           | Some id => Ok (id, p3)
           | None => error
           end
    | _ => error
    end.

(** ** Pending commands *)

Definition pending (s : ustate) (cmd : string) : list pendingUpstreamCommand :=
  default [] (pendingCmds s !! cmd).
Definition set_pending (cmd : string) (l : list pendingUpstreamCommand) : M unit :=
  modify (λ s, set_pendingCmds (<[cmd := l]> (pendingCmds s)) s).

Definition abort_reply (dc : downstreamView) (m : Message) : M unit :=
  if decide (Command m = "LIST") then
    send_dc dc (SendMessage (msg RPL_LISTEND [dc_nick dc; "Command aborted"]))
  else if decide (Command m = "WHO") then
    let mask := match Params m with p :: _ => p | [] => "*" end in
    send_dc dc (SendMessage (msg RPL_ENDOFWHO [dc_nick dc; mask; "Command aborted"]))
  else if decide (Command m = "WHOIS") then
    match last (Params m) with
    | None => panic "index out of range"
    | Some nick => send_dc dc (SendMessage (msg RPL_ENDOFWHOIS [dc_nick dc; nick; "Command aborted"]))
    end
  else if decide (Command m = "AUTHENTICATE") then
    send_dc dc (endSASL (Some (msg ERR_SASLABORTED [dc_nick dc; "SASL authentication aborted"])))
  else if decide (Command m = "REGISTER" ∨ Command m = "VERIFY") then
    match Params m with
    | [] => panic "index out of range"
    | p :: _ => send_dc dc (SendMessage (msg "FAIL"
                  [Command m; "TEMPORARILY_UNAVAILABLE"; p; "Command aborted"]))
    end
  else panic "Unsupported pending command %q".

Definition abortPendingCommands : M unit :=
  queues ← gets (λ s, (map_to_list (pendingCmds s)).*2);
  foreach (foreach (λ p,
    match downstreamByID (pDownstreamID p) with
    | None => skip
    | Some dc => abort_reply dc (pMsg p)
    end)) queues ;;
  modify (set_pendingCmds ∅).

Definition sendNextPendingCommand (cmd : string) : M unit :=
  l ← gets (λ s, pending s cmd);
  match l with
  | [] => skip
  | p :: rest =>
    SendMessageLabeled (pDownstreamID p) (pDownstreamLabel p) (pMsg p) ;;
    now ← gets (λ s, e_now (trace s));
    set_pending cmd (MkPending (pDownstreamID p) (pDownstreamLabel p) (pMsg p) (Some now) :: rest)
  end.

Definition supported_pending (cmd : string) : bool :=
  existsb (String.eqb cmd) ["LIST"; "WHO"; "WHOIS"; "AUTHENTICATE"; "REGISTER"; "VERIFY"].

(** [copy(l, l[1:])]: every element moves one place down and the last one stays. *)
Definition copy_down {A} (l : list A) : list A := drop 1 l ++ drop (length l - 1) l.

Definition pendingTimeout : Z := 30 * 10 ^ 9.

(** [label] is the label of the downstream's request, taken out of its context. *)
Definition enqueueCommand (dc : downstreamView) (label : string) (m : Message) : M unit :=
  if supported_pending (Command m) then
    let cmd := Command m in
    l ← gets (λ s, pending s cmd);
    set_pending cmd (l ++ [MkPending (dc_id dc) label m None]) ;;
    s ← gets id;
    (match head (pending s cmd) ≫= pSentAt with
     | Some t => when (pendingTimeout <? e_now (trace s) - t) (set_pending cmd (copy_down (pending s cmd)))
     | None => skip
     end) ;;
    l ← gets (λ s, pending s cmd);
    when (length l =? 1)%nat (sendNextPendingCommand cmd)
  else panic "Unsupported pending command %q".

Definition currentPendingCommand (cmd : string) : M (option downstreamView * option Message) :=
  l ← gets (λ s, pending s cmd);
  match l with
  | [] => mret (None, None)
  | p :: _ => mret (downstreamByID (pDownstreamID p), Some (pMsg p))
  end.

Definition dequeueCommand (cmd : string) : M (option downstreamView * option Message) :=
  r ← currentPendingCommand cmd;
  l ← gets (λ s, pending s cmd);
  when (0 <? length l)%nat (set_pending cmd (drop 1 l)) ;;
  sendNextPendingCommand cmd ;;
  mret r.

Definition cancel_queue (downstreamID : Z) (l : list pendingUpstreamCommand) : list pendingUpstreamCommand :=
  match l with
  | [] => []
  | p :: rest => p :: filter (λ q, pDownstreamID q ≠ downstreamID) rest
  end.

Definition cancelPendingCommandsByDownstreamID (downstreamID : Z) : M unit :=
  modify (λ s, set_pendingCmds (cancel_queue downstreamID <$> pendingCmds s) s).

(** ** The cache of users *)

Definition cacheUserInfo (nick : string) (info : upstreamUser) : M unit :=
  if decide (nick = "") then panic "cacheUserInfo called with empty nickname"
  else
    us ← gets users;
    match CMM.Get us nick with
    | None =>
      let info := if decide (Nickname info ≠ "") then info else updateFrom info (user_nick nick) in
      modify (set_users (CMM.Set_ us (Nickname info) info))
    | Some uu =>
      let uu := updateFrom uu info in
      let us := CMM.Set_ us nick uu in
      if decide (Nickname info ≠ "" ∧ nick ≠ Nickname info)
      then modify (set_users (CMM.Set_ (CMM.Del us nick) (Nickname uu) uu))
      else modify (set_users us)
    end.

Definition shouldCacheUserInfo (s : ustate) (nick : string) : bool :=
  if isOurNick s nick then true
  else if CMM.Has (monitored s) nick then true
  else existsb (λ e, CMM.Has (chMembers (value e)) nick) (CMM.Entries (channels s)).

(** [if !uc.shouldCacheUserInfo(nick) { uc.users.Del(nick) }] *)
Definition forget_user (nick : string) : M unit :=
  s ← gets id;
  when (negb (shouldCacheUserInfo s nick)) (modify (set_users (CMM.Del (users s) nick))).

Definition getCachedWHO (s : ustate) (mask fields : string) : option (list upstreamUser) :=
  let fields := if decide (fields = "") then "cuhsnfdr" else fields in
  if str_mem "a"%char fields && negb (IsEnabled (caps s) "account-notify") then None
  else if str_mem "f"%char fields && negb (IsEnabled (caps s) "away-notify") then None
  else match CMM.Get (users s) mask with
  | Some uu => if hasWHOXFields uu fields then Some [uu] else None
  | None =>
    match CMM.Get (channels s) mask with
    | None => None
    | Some uch =>
      mapM (λ e, match CMM.Get (users s) (originalKey e) with
                 | Some uu => if hasWHOXFields uu fields then Some uu else None
                 | None => None
                 end) (CMM.Entries (chMembers uch))
    end
  end.

(** ** Delivery receipts *)

Definition delivered_Empty (d : CaseMappingMap (gmap string string)) : bool := (CMM.Len d =? 0)%nat.
Definition delivered_HasTarget (d : CaseMappingMap (gmap string string)) (target : string) : bool :=
  bool_decide (is_Some (CMM.Get d target)).
Definition delivered_LoadID (d : CaseMappingMap (gmap string string)) (target clientName : string) : string :=
  default "" (clients ← CMM.Get d target; clients !! clientName).
Definition delivered_StoreID (d : CaseMappingMap (gmap string string)) (target clientName msgID : string) :
    CaseMappingMap (gmap string string) :=
  CMM.Set_ d target (<[clientName := msgID]> (default ∅ (CMM.Get d target))).
(** The client names [ForEachClient] visits, each once. *)
Definition delivered_clients (d : CaseMappingMap (gmap string string)) : list string :=
  elements (⋃ ((λ e, dom (value e)) <$> CMM.Entries d) : gset string).

(** ** Logging and forwarding *)

Definition storableMessageTags : list string := ["+draft/react"; "+react"; "+draft/unreact"; "+unreact"].

Definition storable_tagmsg (m : Message) : bool :=
  existsb (λ kv, existsb (String.eqb kv.1) storableMessageTags) (map_to_list (Tags m)).

Definition appendLog (entity : string) (m : Message) : M string :=
  if negb (e_hasStore) then mret ""
  else if bool_decide (Command m = "TAGMSG") && negb (storable_tagmsg m) then mret ""
  else if HasPrefix entity "$" then mret ""
  else
    s ← gets id;
    let entityCM := cm_apply (net_casemap s) entity in
    if decide (entityCM = "nickserv") then mret ""
    else
      let first := negb (delivered_Empty (net_delivered s))
                   && negb (delivered_HasTarget (net_delivered s) entity) in
      let log :=
        s ← gets id;
        emit (Append entityCM m) ;;
        mret (default "" (e_Append (trace s) entityCM m)) in
      if first then
        match e_LastMsgID (trace s) entityCM with
        | None => mret ""
        | Some lastID =>
          modify (λ s, set_net_delivered
            (foldl (λ d clientName, delivered_StoreID d entity clientName lastID)
               (net_delivered s) (delivered_clients (net_delivered s))) s) ;;
          log
        end
      else log.

(** [blocked] is the value of the context key the PRIVMSG handler sets. *)
Definition produce (target : string) (m : Message) (originID : Z) (blocked : bool) : M unit :=
  msgID ← (if decide (target ≠ "") then appendLog target m else mret "");
  s ← gets id;
  let detached := match CMM.Get (net_channels s) target with Some ch => cDetached ch | None => false end in
  forEachDownstream (λ dc,
    if blocked && negb (bool_decide ("soju.im/blocked" ∈ dc_metadataSubs dc)) then skip
    else
      let echo := bool_decide (dc_id dc = originID)
                  && match MPrefix m with Some p => isOurNick s (Name p) | None => false end in
      if negb detached && (negb echo || IsEnabled (dc_caps dc) "echo-message")
      then send_dc dc (sendMessageWithID m msgID)
      else send_dc dc (advanceMessageWithID m msgID)).

Definition updateChannelAutoDetach (name : string) : M unit :=
  s ← gets id;
  match CMM.Get (channels s) name, CMM.Get (net_channels s) name with
  | Some uch, Some ch =>
    if cDetached ch then skip else put_channel name (updateAutoDetach (cDetachAfter ch) uch)
  | _, _ => skip
  end.

Definition updateAway : M unit :=
  s ← gets id;
  if negb (nAutoAway (net_record s)) then skip
  else
    let a := forallb dc_away here_downstreams in
    if Bool.eqb a (away s) then skip
    else
      (if a then
         let reason := if IsAvailable (caps s) "draft/pre-away" then "*" else "Auto away" in
         SendMessage_uc (msg "AWAY" [reason])
       else SendMessage_uc (msg "AWAY" [])) ;;
      modify (set_away a).

(** ** Monitored nicknames *)

(** The targets of the downstream connections: those to add, in order, and those seen. *)
Definition monitor_targets (s : ustate) : list string * list string :=
  let targets := (λ t, cm_apply (net_casemap s) t)
                 <$> mjoin ((λ dc, originalKey <$> CMM.Entries (dc_monitored dc)) <$> here_downstreams) in
  foldl (λ acc t,
    let '(add, seen) := acc in
    if decide (t = serviceNickCM) then acc
    else if CMM.Has (monitored s) t then (add, t :: seen)
    else if decide (t ∈ add) then acc else (add ++ [t], seen)) ([], []) targets.

Definition monitor_add (s : ustate) : list string :=
  let add := (monitor_targets s).1 in
  let wantNick := GetNick (e_user) (Some (net_record s)) in
  let wantNickCM := cm_apply (net_casemap s) wantNick in
  if decide (wantNickCM ∉ add) then
    if negb (CMM.Has (monitored s) wantNick) && negb (isOurNick s wantNick) && negb (hasDesiredNick s)
    then add ++ [wantNickCM] else add
  else add.

Definition monitor_remove (s : ustate) : list string :=
  let seen := (monitor_targets s).2 in
  filter (λ n, cm_apply (net_casemap s) n ∉ seen) (originalKey <$> CMM.Entries (monitored s)).

Definition updateMonitor : M unit :=
  s ← gets id;
  if decide (isupport s !! "MONITOR" = None) then skip
  else
    let addList := monitor_add s in
    let removeList := monitor_remove s in
    let removeAll := (length removeList =? length (CMM.Entries (monitored s)))%nat in
    (if removeAll && (length addList =? 0)%nat && (0 <? length removeList)%nat
     then SendMessage_uc (msg "MONITOR" ["C"])
     else foreach SendMessage_uc (GenerateMonitor "-" removeList ++ GenerateMonitor "+" addList)) ;;
    foreach (λ target,
      modify (λ s, set_monitored (CMM.Del (monitored s) target) s) ;; forget_user target) removeList.

(** ** Regaining the desired nickname *)

Definition stopRegainNickTimer : M unit := modify (set_regainNickTimer false).

Definition startRegainNickTimer : M unit :=
  s ← gets id;
  if regainNickTimer s then panic "startRegainNickTimer called twice"
  else if isOurNick s (GetNick (e_user) (Some (net_record s))) then skip
  else modify (set_regainNickTimer true).

Definition tryRegainNick (n : string) : M unit :=
  s ← gets id;
  if negb (regainNickTimer s) then skip
  else
    let wantNick := GetNick (e_user) (Some (net_record s)) in
    if bool_decide (wantNick ≠ n) || isOurNick s wantNick then stopRegainNickTimer
    else if decide (pendingRegainNick s ≠ "") then skip
    else SendMessage_uc (msg "NICK" [wantNick]) ;; modify (set_pendingRegainNick wantNick).
End helpers.
