(* ===== verification/UpstreamHandlers.v ===== *)
(** * Upstream connections: messages from the server (upstream.go, user.go)

    One definition per case of [upstreamConn.handleMessage], then the dispatcher. A handler
    gets the message with its label and batch tags removed, its prefix filled in and, for
    commands that are not numerics, its time tag normalised, together with the context
    [mctx] computed from the label. *)

From S2P Require Import Prelude GoStrings GoUnicode IrcMessage CaseMapping Membership Modes WhoX Base64.
From S2P Require Import Effects GenMsg Caps Database Highlight Upstream.

Open Scope string_scope.
Open Scope list_scope.
Open Scope Z_scope.

Section handlers.
Context `{E : env} `{UnicodeTables}.

(** ** The network *)

Definition net_updateCasemapping (cm : CaseMapping) : M unit :=
  modify (λ s, set_net_casemap cm
    (set_net_channels (CMM.SetCaseMapping (net_channels s) cm)
    (set_net_delivered (CMM.SetCaseMapping (net_delivered s) cm)
    (set_net_pushTargets (CMM.SetCaseMapping (net_pushTargets s) cm) s)))) ;;
  connected ← gets net_connected;
  when connected (modify (λ s,
    let chs := CMM.SetCaseMapping (channels s) cm in
    set_channels (mkCMM ((λ e, mkEntry (originalKey e)
        (set_chMembers (CMM.SetCaseMapping (chMembers (value e)) cm) (value e))) <$> cmm_m chs) (casemap chs))
    (set_users (CMM.SetCaseMapping (users s) cm)
    (set_monitored (CMM.SetCaseMapping (monitored s) cm) s)))) ;;
  forEachDownstream (λ dc, send_dc dc updateCasemapping_dc).

(** Storing back a saved channel designated by a pointer. *)
Definition put_net_channel (ch : dbChannel) : M unit :=
  modify (λ s, set_net_channels (CMM.Set_ (net_channels s) (cName ch) ch) s).

Definition net_detach (ch : dbChannel) : M unit :=
  if cDetached ch then skip
  else
    s ← gets id;
    let lastID := if e_hasStore
                  then default "" (e_LastMsgID (trace s) (cm_apply (net_casemap s) (cName ch)))
                  else cDetachedInternalMsgID ch in
    put_net_channel (set_cDetached true lastID ch) ;;
    connected ← gets net_connected;
    when connected (
      uch ← gets (λ s, CMM.Get (channels s) (cName ch));
      match uch with
      | Some uch => put_channel (cName ch) (updateAutoDetach 0 uch)
      | None => skip
      end) ;;
    forEachDownstream (λ dc, send_dc dc (SendMessage (msg_from (dc_prefix dc) "PART" [cName ch; "Detach"]))).

Definition net_attach (ch : dbChannel) : M unit :=
  if negb (cDetached ch) then skip
  else
    let detachedMsgID := cDetachedInternalMsgID ch in
    put_net_channel (set_cDetached false "" ch) ;;
    s ← gets id;
    let uch := if net_connected s then CMM.Get (channels s) (cName ch) else None in
    when (net_connected s) (updateChannelAutoDetach (cName ch)) ;;
    forEachDownstream (λ dc,
      send_dc dc (SendMessage (msg_from (dc_prefix dc) "JOIN" [cName ch])) ;;
      when (bool_decide (is_Some uch)) (send_dc dc (forwardChannel (cName ch))) ;;
      when (bool_decide (detachedMsgID ≠ "")) (send_dc dc (sendTargetBacklog (cName ch) detachedMsgID))).

(** [isHighlight] of a network; a PRIVMSG without text is an index out of range. *)
Definition net_isHighlight (m : Message) : M bool :=
  if negb (bool_decide (Command m = "PRIVMSG" ∨ Command m = "NOTICE")) then mret false
  else match Params m !! 1%nat with
  | None => panic "index out of range"
  | Some text =>
    s ← gets id;
    let n := if net_connected s then nick s else GetNick e_user (Some (net_record s)) in
    if decide (match MPrefix m with Some p => Name p | None => "" end = n) then mret false
    else lift (isHighlight text n)
  end.

Definition detachedMessageNeedsRelay (ch : dbChannel) (m : Message) : M bool :=
  highlight ← net_isHighlight m;
  mret (bool_decide (cRelayDetached ch = FilterMessage)
        || (bool_decide (cRelayDetached ch = FilterHighlight ∨ cRelayDetached ch = FilterDefault) && highlight)).

Definition autoSaveSASLPlain (user pass : string) : M unit :=
  net ← gets net_record;
  if decide (Mechanism (nSASL net) ≠ "" ∧ Mechanism (nSASL net) ≠ "PLAIN") then skip
  else
    let sasl := MkSASL "PLAIN" user pass (CertBlob (nSASL net)) (PrivKeyBlob (nSASL net)) in
    let net := MkNetwork (nID net) (nName net) (nAddr net) (nNick net) (nUsername net) (nRealname net)
      (nPass net) (nConnectCommands net) (nCertFP net) sasl (nAutoAway net) (nEnabled net) in
    modify (set_net_record net) ;; emit (StoreNetwork net).

(** ** Capabilities and registration *)

Definition permanentUpstreamCaps : list string :=
  ["account-notify"; "account-tag"; "away-notify"; "batch"; "chghost"; "extended-join";
   "extended-monitor"; "invite-notify"; "labeled-response"; "message-tags"; "multi-prefix";
   "sasl"; "server-time"; "setname"; "draft/account-registration"; "draft/extended-monitor";
   "draft/message-redaction"].

Definition handleSupportedCaps (capsStr : string) : M unit :=
  foreach (λ c,
    let kv := SplitN c "=" 2 in
    let k := ToLower (nth 0 kv "") in
    let v := nth 1 kv "" in
    modify (λ s, set_caps (SetAvailable k v (caps s)) s)) (Fields capsStr).

Definition requested_caps (cr : CapRegistry) : list string :=
  let echoMessage := IsAvailable cr "labeled-response" in
  List.filter (λ c, IsAvailable cr c && negb (IsEnabled cr c)) permanentUpstreamCaps
  ++ (if negb (IsEnabled cr "echo-message") && echoMessage then ["echo-message"]
      else if IsEnabled cr "echo-message" && negb echoMessage then ["-echo-message"] else []).

Definition updateCaps : M unit :=
  cr ← gets caps;
  match requested_caps cr with
  | [] => skip
  | l => SendMessage_uc (msg "CAP" ["REQ"; Join l " "])
  end.

Definition supportsSASL (cr : CapRegistry) (mech : string) : bool :=
  match Available cr !! "sasl" with
  | None => false
  | Some v => if decide (v = "") then true else existsb (λ m, EqualFold m mech) (Split v ",")
  end.

Definition requestSASL (s : ustate) : bool :=
  if decide (Mechanism (nSASL (net_record s)) = "") then false
  else supportsSASL (caps s) (Mechanism (nSASL (net_record s))).

(** The SASL client is the mechanism it was created for. *)
Definition handleCapAck (name : string) (ok : bool) : M unit :=
  modify (λ s, set_caps (SetEnabled name ok (caps s)) s) ;;
  s ← gets id;
  if decide (name = "sasl") then
    if negb (requestSASL s) then skip
    else if negb ok then skip
    else
      let mech := Mechanism (nSASL (net_record s)) in
      if decide (mech = "PLAIN" ∨ mech = "EXTERNAL") then
        modify (set_saslClient (Some mech)) ;;
        SendMessage_uc (msg "AUTHENTICATE" [mech])
      else fail (Errorf "unsupported SASL mechanism %q")
  else skip.

Definition register_uc : M unit :=
  s ← gets id;
  let n := GetNick e_user (Some (net_record s)) in
  let u := GetUsername e_user (Some (net_record s)) in
  let r := GetRealname e_user (Some (net_record s)) in
  modify (set_nick n) ;; modify (set_username u) ;; modify (set_realname r) ;;
  SendMessage_uc (msg "CAP" ["LS"; "302"]) ;;
  when (bool_decide (nPass (net_record s) ≠ "")) (SendMessage_uc (msg "PASS" [nPass (net_record s)])) ;;
  SendMessage_uc (msg "NICK" [n]) ;;
  SendMessage_uc (msg "USER" [u; "0"; "*"; r]).

(** ** Cases of handleMessage *)

Record mctx := MkMctx {
  mc_label : string;
  mc_batch : option upstreamBatch;
  mc_downstreamID : Z;
  mc_downstreamLabel : string
}.

Definition src_name (m : Message) : string := match MPrefix m with Some p => Name p | None => "" end.

Definition handle_PING (m : Message) : M unit := SendMessage_uc (msg "PONG" (Params m)).

Definition handleDetachedMessage (ch : dbChannel) (m : Message) : M unit :=
  relay ← detachedMessageNeedsRelay ch m;
  when relay (forEachDownstream (λ dc, send_dc dc (relayDetachedMessage m))) ;;
  highlight ← (if decide (cReattachOn ch = FilterMessage) then mret true
               else if decide (cReattachOn ch = FilterHighlight) then net_isHighlight m else mret false);
  when highlight (
    net_attach ch ;;
    emit (StoreChannel (if cDetached ch then set_cDetached false "" ch else ch))).

(** NOTICE, PRIVMSG, TAGMSG and REDACT. *)
Definition handle_PRIVMSG (m : Message) (c : mctx) : M unit :=
  let isText := bool_decide (Command m = "NOTICE" ∨ Command m = "PRIVMSG") in
  ps ← lift (parseMessageParams m (if isText then 2 else 1));
  s ← gets id;
  let target := TrimLeft (param ps 0) (availableStatusMsg s) in
  if equalCasemap s (src_name m) serviceNick then skip
  else if equalCasemap s target serviceNick then skip
  else if negb (registered s) || equalCasemap s (src_name m) (Name (serverPrefix s))
          || bool_decide (target = "*") || HasPrefix target "$"
  then produce "" m 0 false
  else
    let direct := isOurNick s target in
    let bufferName := if direct then src_name m else target in
    let '(direct, bufferName) :=
      match Tags m !! "+draft/channel-context" with
      | None => (direct, bufferName)
      | Some t =>
        match CMM.Get (channels s) t with
        | Some ch => if CMM.Has (chMembers ch) (src_name m) then (false, chName ch) else (direct, bufferName)
        | None => (direct, bufferName)
        end
      end in
    let self := isOurNick s (src_name m) in
    '(highlight, detached) ←
      (match CMM.Get (net_channels s) bufferName with
       | Some ch =>
         if isText && negb self then
           when (cDetached ch) (handleDetachedMessage ch m) ;;
           highlight ← net_isHighlight m;
           when (bool_decide (cDetachOn ch = FilterMessage ∨ cDetachOn ch = FilterDefault)
                 || (bool_decide (cDetachOn ch = FilterHighlight) && highlight))
             (updateChannelAutoDetach bufferName) ;;
           s ← gets id;
           let ch := default ch (CMM.Get (net_channels s) bufferName) in
           mret (highlight, cDetached ch && bool_decide (cRelayDetached ch = FilterNone))
         else mret (false, false)
       | None => mret (false, false)
       end);
    s ← gets id;
    let mt := e_GetMessageTarget (cm_apply (net_casemap s) (src_name m)) in
    let blocked := match mt with Some t => mtBlocked t | None => false end in
    let muted := match mt with Some t => mtMuted t || mtBlocked t | None => false end in
    let sendWebPush := negb self && negb detached && isText && (highlight || direct) && negb muted in
    when sendWebPush (emit (WebPushIfUnread (cm_apply (net_casemap s) bufferName) bufferName m)) ;;
    produce bufferName m (mc_downstreamID c) blocked.

Definition handle_CAP (m : Message) : M unit :=
  ps ← lift (parseMessageParams m 2);
  let subCmd := ToUpper (param ps 1) in
  let subParams := drop 2 (Params m) in
  if decide (subCmd = "LS") then
    if (length subParams <? 1)%nat then fail (newNeedMoreParamsError (Command m))
    else
      let capsStr := nth (length subParams - 1) subParams "" in
      let more := (2 <=? length subParams)%nat
                  && bool_decide (nth (length subParams - 2) (Params m) "" = "*") in
      handleSupportedCaps capsStr ;;
      if more then skip
      else
        updateCaps ;;
        s ← gets id;
        if requestSASL s then skip else SendMessage_uc (msg "CAP" ["END"])
  else if decide (subCmd = "ACK" ∨ subCmd = "NAK") then
    if (length subParams <? 1)%nat then fail (newNeedMoreParamsError (Command m))
    else
      foreach (λ name,
        let enable := bool_decide (subCmd = "ACK") && negb (HasPrefix name "-") in
        handleCapAck (ToLower (TrimPrefix name "-")) enable) (Fields (nth 0 subParams "")) ;;
      r ← gets registered;
      when r (forEachDownstream (λ dc, send_dc dc updateSupportedCaps))
  else if decide (subCmd = "NEW") then
    if (length subParams <? 1)%nat then fail (newNeedMoreParamsError (Command m))
    else handleSupportedCaps (nth 0 subParams "") ;; updateCaps
  else if decide (subCmd = "DEL") then
    if (length subParams <? 1)%nat then fail (newNeedMoreParamsError (Command m))
    else
      foreach (λ c, modify (λ s, set_caps (cr_Del c (caps s)) s)) (Fields (nth 0 subParams "")) ;;
      r ← gets registered;
      when r (forEachDownstream (λ dc, send_dc dc updateSupportedCaps))
  else skip.

Definition abort_AUTHENTICATE (e : goerr) : M unit :=
  SendMessage_uc (msg "AUTHENTICATE" ["*"]) ;; fail e.

Definition handle_AUTHENTICATE (m : Message) : M unit :=
  s ← gets id;
  match saslClient s with
  | None => fail (Errorf "received unexpected AUTHENTICATE message")
  | Some mech =>
    match parseMessageParams m 1 with
    | Panic w => panic w
    | Err e => abort_AUTHENTICATE e
    | Ok ps =>
      let challengeStr := param ps 0 in
      match (if decide (challengeStr ≠ "+") then DecodeString challengeStr else Some "") with
      | None => abort_AUTHENTICATE (Errorf "illegal base64 data")
      | Some challenge =>
        let resp := if saslStarted s then e_saslNext mech challenge else e_saslStart mech in
        modify (set_saslStarted true) ;;
        match resp with
        | None => abort_AUTHENTICATE (Errorf "sasl error")
        | Some r => foreach SendMessage_uc (GenerateSASL r)
        end
      end
    end
  end.

Definition set_account_prefix (rawPrefix acct : string) : M unit :=
  let p := e_ParsePrefix rawPrefix in
  modify (set_account acct) ;; modify (set_username (User p)) ;; modify (set_hostname (Host p)) ;;
  forEachDownstream (λ dc, send_dc dc updateAccount ;; send_dc dc updateHost).

Definition handle_LOGGEDIN (m : Message) : M unit :=
  ps ← lift (parseMessageParams m 3); set_account_prefix (param ps 1) (param ps 2).

Definition handle_LOGGEDOUT (m : Message) : M unit :=
  ps ← lift (parseMessageParams m 2); set_account_prefix (param ps 1) "".

Definition handle_VISIBLEHOST (m : Message) : M unit :=
  ps ← lift (parseMessageParams m 2);
  let rawHost := param ps 1 in
  (match SplitN rawHost "@" 2 with
   | [u; h] => modify (set_username u) ;; modify (set_hostname h)
   | _ => modify (set_hostname rawHost)
   end) ;;
  forEachDownstream (λ dc, send_dc dc updateHost).

(** The end of a SASL exchange, successful or not. *)
Definition handle_SASL_end (m : Message) : M unit :=
  _ ← lift (parseMessageParams m 2);
  modify (set_saslClient None) ;; modify (set_saslStarted false) ;;
  '(dc, _) ← dequeueCommand "AUTHENTICATE";
  (match dc with
   | Some dc =>
     match dc_sasl dc with
     | Some plain =>
       (if decide (Command m = RPL_SASLSUCCESS) then
          match plain with
          | Some (u, p) => autoSaveSASLPlain u p
          | None => panic "nil pointer dereference"
          end
        else skip) ;;
       send_dc dc (endSASL (Some m))
     | None => skip
     end
   | None => skip
   end) ;;
  r ← gets registered;
  when (negb r) (SendMessage_uc (msg "CAP" ["END"])).

Definition handle_REGISTER (m : Message) : M unit :=
  '(dc, cmd) ← dequeueCommand (Command m);
  match dc, cmd with
  | Some dc, Some cmd =>
    (if decide (Command m = "REGISTER") then
       ps ← lift (parseMessageParams m 2);
       ps' ← lift (parseMessageParams cmd 3);
       autoSaveSASLPlain (param ps 1) (param ps' 2)
     else skip) ;;
    send_dc dc (SendMessage m)
  | _, _ => skip
  end.

Definition handle_WELCOME (m : Message) : M unit :=
  ps ← lift (parseMessageParams m 1);
  modify (set_nick (param ps 0)) ;; modify (set_registered true) ;;
  match MPrefix m with Some p => modify (set_serverPrefix p) | None => skip end.

Definition handle_MYINFO (m : Message) : M unit :=
  ps ← lift (parseMessageParams m 5);
  modify (set_serverName (param ps 1)) ;; modify (set_availableUserModes (param ps 3)).

(** One token of RPL_ISUPPORT: the parameter in its canonical case, the decoded value and
    whether the token negates. *)
Definition isupport_parse (token : string) : string * string * bool * bool :=
  let negate := HasPrefix token "-" in
  let '(parameter, value, hasValue) :=
    if negate then (TrimPrefix token "-", "", false)
    else match Cut token "=" with Some (p, v) => (p, v, true) | None => (token, "", false) end in
  let parameter := match Cut parameter "/" with
                   | Some (prefix, key) => ToLower prefix +:+ "/" +:+ ToUpper key
                   | None => ToUpper parameter
                   end in
  (parameter, DecodeIsupportValue value, hasValue, negate).

Definition handle_isupport_token (token : string) : M unit :=
  let '(parameter, value, hasValue, negate) := isupport_parse token in
  modify (λ s, set_isupport
    (if hasValue then <[parameter := Some value]> (isupport s)
     else if negb negate then <[parameter := None]> (isupport s)
     else delete parameter (isupport s)) s) ;;
  if decide (parameter = "CASEMAPPING") then
    net_updateCasemapping (default CaseMappingRFC1459 (ParseCaseMapping value))
  else if decide (parameter = "CHANMODES") then
    if negate then modify (set_availableChannelModes stdChannelModes)
    else ms ← lift (handleChanModes value); modify (set_availableChannelModes ms)
  else if decide (parameter = "CHANTYPES") then
    modify (set_availableChannelTypes (if negate then stdChannelTypes else value))
  else if decide (parameter = "STATUSMSG") then
    modify (set_availableStatusMsg (if negate then "" else value))
  else if decide (parameter = "PREFIX") then
    if negate then modify (set_availableMemberships stdMemberships)
    else ms ← lift (handleMemberships value); modify (set_availableMemberships ms)
  else if decide (parameter = "soju.im/SAFERATE") then modify (set_rateLimit negate)
  else skip.

Definition handle_ISUPPORT (m : Message) : M unit :=
  _ ← lift (parseMessageParams m 2);
  foreach handle_isupport_token (drop 1 (take (length (Params m) - 1) (Params m))) ;;
  updateMonitor ;;
  forEachDownstream (λ dc, send_dc dc updateIsupport).

Definition handle_ENDOFMOTD (m : Message) (c : mctx) : M unit :=
  s ← gets id;
  if negb (gotMotd s) then
    modify (set_gotMotd true) ;;
    (* a CASEMAPPING token without a value is a nil pointer in the map *)
    when (bool_decide (mjoin (isupport s !! "CASEMAPPING") = None)) (net_updateCasemapping stdCaseMapping) ;;
    when (bool_decide (isupport s !! "MONITOR" = None)) startRegainNickTimer
  else forwardMsgByID (mc_downstreamID c) m.

Definition handle_BATCH (m : Message) (c : mctx) : M unit :=
  ps ← lift (parseMessageParams m 1);
  let ref := param ps 0 in
  s ← gets id;
  if HasPrefix ref "+" then
    let ref := str_drop 1 ref in
    if decide (is_Some (batches s !! ref))
    then fail (Errorf "unexpected BATCH reference tag: batch was already defined: %q")
    else
      ps ← lift (parseMessageParams m 2);
      let label := if decide (mc_label c = "")
                   then match mc_batch c with Some b => batch_Label b | None => "" end
                   else mc_label c in
      modify (set_batches (<[ref := MkUpstreamBatch (param ps 1) (drop 2 (Params m)) (mc_batch c) label]>
                             (batches s))) ;;
      when (bool_decide (mc_downstreamID c ≠ 0 ∧ mc_downstreamLabel c ≠ ""))
        (forEachDownstreamByID (mc_downstreamID c) (λ dc,
           emit (ClearLabel (dc_id dc)) ;;
           send_dc dc (SendMessage (with_tags (λ _, {["label" := mc_downstreamLabel c]})
             (msg_from e_srvPrefix "BATCH" (Params m))))))
  else if HasPrefix ref "-" then
    let ref := str_drop 1 ref in
    match batches s !! ref with
    | None => fail (Errorf "unknown BATCH reference tag: %q")
    | Some b =>
      modify (set_batches (delete ref (batches s))) ;;
      match parseLabel (batch_Label b) with
      | Ok (id, label) =>
        when (bool_decide (id ≠ 0 ∧ label ≠ ""))
          (forEachDownstreamByID id (λ dc,
             send_dc dc (SendMessage (msg_from e_srvPrefix "BATCH" (Params m)))))
      | _ => skip
      end
    end
  else fail (Errorf "unexpected BATCH reference tag: missing +/- prefix: %q").

Definition handle_NICK (m : Message) : M unit :=
  ps ← lift (parseMessageParams m 1);
  let newNick := param ps 0 in
  s ← gets id;
  let me := isOurNick s (src_name m) in
  when me (
    modify (set_nick newNick) ;;
    when (equalCasemap s (pendingRegainNick s) newNick)
      (modify (set_pendingRegainNick "") ;; stopRegainNickTimer) ;;
    when (equalCasemap s (GetNick e_user (Some (net_record s))) newNick) (modify (set_hasDesiredNick true))) ;;
  entries ← gets (λ s, CMM.Entries (channels s));
  foreach (λ e,
    let ch := value e in
    match CMM.Get (chMembers ch) (src_name m) with
    | Some memberships =>
      put_channel (originalKey e)
        (set_chMembers (CMM.Set_ (CMM.Del (chMembers ch) (src_name m)) newNick memberships) ch) ;;
      _ ← appendLog (chName ch) m; skip
    | None => skip
    end) entries ;;
  cacheUserInfo (src_name m) (user_nick newNick) ;;
  if negb me then forwardMessage m
  else forEachDownstream (λ dc, send_dc dc updateNick) ;; updateMonitor.

Definition handle_SETNAME (m : Message) : M unit :=
  ps ← lift (parseMessageParams m 1);
  let newRealname := param ps 0 in
  cacheUserInfo (src_name m) (MkUpstreamUser "" "" "" "" "" "" newRealname) ;;
  s ← gets id;
  if isOurNick s (src_name m) then
    modify (set_realname newRealname) ;; forEachDownstream (λ dc, send_dc dc updateRealname)
  else forwardMessage m.

Definition handle_CHGHOST (m : Message) : M unit :=
  ps ← lift (parseMessageParams m 2);
  s ← gets id;
  if isOurNick s (src_name m) then
    modify (set_username (param ps 0)) ;; modify (set_hostname (param ps 1)) ;;
    forEachDownstream (λ dc, send_dc dc updateHost)
  else forwardMessage m.

Definition newUpstreamChannel (s : ustate) (name : string) : upstreamChannel :=
  MkUpstreamChannel name "" None 0 zero None "" (CMM.New (net_casemap s)) false None.

(** The message for one channel of a comma-separated list. *)
Definition for_channel (m : Message) (ch : string) : Message := with_params (ch :: drop 1 (Params m)) m.

Definition join_user (s : ustate) (m : Message) : upstreamUser :=
  let p := default (mkPrefix "" "" "") (MPrefix m) in
  let flags :=
    if IsEnabled (caps s) "away-notify" then
      "H" +:+ (match Tags m !! "bot", mjoin (isupport s !! "BOT") with Some _, Some bot => bot | _, _ => "" end)
    else "" in
  let extended := (2 <? length (Params m))%nat in
  MkUpstreamUser "" (User p) (Host p) "" flags
    (if extended then param (Params m) 1 else "") (if extended then param (Params m) 2 else "").

Definition join_channel (m : Message) (ch : string) : M unit :=
  s ← gets id;
  (if isOurNick s (src_name m) then
     modify (λ s, set_channels (CMM.Set_ (channels s) ch (newUpstreamChannel s ch)) s) ;;
     updateChannelAutoDetach ch ;;
     SendMessage_uc (msg "MODE" [ch])
   else
     uch ← getChannel ch;
     put_channel ch (set_chMembers (CMM.Set_ (chMembers uch) (src_name m) []) uch)) ;;
  produce ch (for_channel m ch) 0 false.

Definition handle_JOIN (m : Message) : M unit :=
  ps ← lift (parseMessageParams m 1);
  s ← gets id;
  cacheUserInfo (src_name m) (join_user s m) ;;
  foreach (join_channel m) (Split (param ps 0) ",").

(** Leaving a channel: the channel goes, and with it the users only it kept cached. *)
Definition leave_channel (ch : string) : M unit :=
  uch ← gets (λ s, CMM.Get (channels s) ch);
  match uch with
  | Some uch =>
    modify (λ s, set_channels (CMM.Del (channels s) ch) s) ;;
    foreach (λ e, forget_user (originalKey e)) (CMM.Entries (chMembers uch))
  | None => skip
  end.

(** Another user leaves a channel. *)
Definition remove_member (ch user : string) : M unit :=
  uch ← getChannel ch;
  put_channel ch (set_chMembers (CMM.Del (chMembers uch) user) uch) ;;
  forget_user user.

Definition part_channel (m : Message) (ch : string) : M unit :=
  s ← gets id;
  (if isOurNick s (src_name m) then leave_channel ch else remove_member ch (src_name m)) ;;
  produce ch (for_channel m ch) 0 false.

Definition handle_PART (m : Message) : M unit :=
  ps ← lift (parseMessageParams m 1);
  foreach (part_channel m) (Split (param ps 0) ",").

Definition handle_KICK (m : Message) : M unit :=
  ps ← lift (parseMessageParams m 2);
  let channel := param ps 0 in
  let user := param ps 1 in
  s ← gets id;
  (if isOurNick s user then leave_channel channel else remove_member channel user) ;;
  produce channel m 0 false.

Definition handle_QUIT (m : Message) : M unit :=
  entries ← gets (λ s, CMM.Entries (channels s));
  foreach (λ e,
    let ch := value e in
    if CMM.Has (chMembers ch) (src_name m) then
      put_channel (originalKey e) (set_chMembers (CMM.Del (chMembers ch) (src_name m)) ch) ;;
      _ ← appendLog (chName ch) m; skip
    else skip) entries ;;
  modify (λ s, set_users (CMM.Del (users s) (src_name m)) s) ;;
  n ← gets nick;
  if decide (src_name m ≠ n) then forwardMessage m else skip.

Definition handle_RPL_TOPIC (m : Message) (c : mctx) : M unit :=
  ps ← lift (parseMessageParams m 3);
  ch ← gets (λ s, CMM.Get (channels s) (param ps 1));
  match ch with
  | None => forwardMsgByID (mc_downstreamID c) m
  | Some ch =>
    put_channel (param ps 1) (set_chTopic (if decide (Command m = RPL_TOPIC) then param ps 2 else "") ch)
  end.

Definition handle_TOPIC (m : Message) : M unit :=
  ps ← lift (parseMessageParams m 1);
  ch ← getChannel (param ps 0);
  now ← gets (λ s, e_now (trace s));
  put_channel (param ps 0)
    (if (1 <? length (Params m))%nat
     then set_chTopic (param (Params m) 1) (set_chTopicWho (MPrefix m) (set_chTopicTime now ch))
     else set_chTopic "" ch) ;;
  produce (chName ch) m 0 false.

(** [applyChannelModes] on a channel of the connection. *)
Definition apply_modes (name : string) (ch : upstreamChannel) (modeStr : string) (args : list string) : M unit :=
  s ← gets id;
  let '(st, err) := applyChannelModes (availableMemberships s) (availableChannelModes s)
                      (mkModeState (chMembers ch) (chModes ch)) modeStr args in
  put_channel name (set_chMembers (ms_members st) (set_chModes (ms_modes st) ch)) ;;
  match err with Some e => fail e | None => skip end.

Definition apply_user_modes (modeStr : string) : M unit :=
  ms ← gets modes;
  let '(ms, err) := userModes_Apply ms modeStr in
  modify (set_modes ms) ;;
  match err with Some e => fail e | None => skip end.

(** The channel is not saved, or it is attached. *)
Definition not_detached (s : ustate) (name : string) : bool :=
  match CMM.Get (net_channels s) name with Some c => negb (cDetached c) | None => true end.

Definition handle_MODE (m : Message) : M unit :=
  ps ← lift (parseMessageParams m 2);
  let name := param ps 0 in
  let modeStr := param ps 1 in
  s ← gets id;
  if negb (isChannel s name) then
    if decide (name ≠ nick s) then fail (Errorf "received MODE message for unknown nick %q")
    else apply_user_modes modeStr ;; forwardMessage m
  else
    ch ← getChannel name;
    apply_modes name ch modeStr (drop 2 (Params m)) ;;
    _ ← appendLog (chName ch) m;
    s ← gets id;
    when (not_detached s name) (forwardMessage m).

Definition handle_UMODEIS (m : Message) : M unit :=
  _ ← lift (parseMessageParams m 1);
  modify (set_modes "") ;;
  apply_user_modes (param (Params m) 1) ;;
  forwardMessage m.

Definition handle_CHANNELMODEIS (m : Message) (c : mctx) : M unit :=
  ps ← lift (parseMessageParams m 2);
  let channel := param ps 1 in
  ch ← gets (λ s, CMM.Get (channels s) channel);
  match ch with
  | None => forwardMsgByID (mc_downstreamID c) m
  | Some ch =>
    apply_modes channel (set_chModes (Some ∅) ch) (param (Params m) 2) (drop 3 (Params m)) ;;
    s ← gets id;
    when (bool_decide (chModes ch = None) && not_detached s channel) (forwardMessage m)
  end.

Definition handle_CREATIONTIME (m : Message) (c : mctx) : M unit :=
  ps ← lift (parseMessageParams m 3);
  let channel := param ps 1 in
  ch ← gets (λ s, CMM.Get (channels s) channel);
  match ch with
  | None => forwardMsgByID (mc_downstreamID c) m
  | Some ch =>
    put_channel channel (set_chCreationTime (param ps 2) ch) ;;
    s ← gets id;
    when (bool_decide (chCreationTime ch = "") && not_detached s channel) (forwardMessage m)
  end.

Definition handle_TOPICWHOTIME (m : Message) (c : mctx) : M unit :=
  ps ← lift (parseMessageParams m 4);
  let channel := param ps 1 in
  ch ← gets (λ s, CMM.Get (channels s) channel);
  match ch with
  | None => forwardMsgByID (mc_downstreamID c) m
  | Some ch =>
    let ch' := set_chTopicWho (Some (e_ParsePrefix (param ps 2))) ch in
    put_channel channel ch' ;;
    match ParseInt64 (param ps 3) with
    | None => fail (Errorf "failed to parse topic time: %v")
    | Some sec =>
      put_channel channel (set_chTopicTime (sec * 10 ^ 9) ch') ;;
      s ← gets id;
      when (bool_decide (chTopicWho ch = None) && not_detached s channel) (forwardMessage m)
    end
  end.

(** A reply to the command in progress, [done] if it is the last one; [cmd] is its queue. *)
Definition handle_pending_reply (cmd : string) (last : bool) (no_command : option goerr) (m : Message) : M unit :=
  '(dc, pending) ← (if last then dequeueCommand cmd else currentPendingCommand cmd);
  match pending, dc with
  | None, _ => match no_command with Some e => fail e | None => skip end
  | Some _, None => skip
  | Some _, Some dc => send_dc dc (SendMessage m)
  end.

Definition handle_RPL_LIST (m : Message) : M unit :=
  handle_pending_reply "LIST" false (Some (Errorf "unexpected RPL_LIST: no matching pending LIST")) m.
Definition handle_LISTEND (m : Message) : M unit :=
  handle_pending_reply "LIST" true (Some (Errorf "unexpected RPL_LISTEND: no matching pending LIST")) m.

Definition splitSpace (s : string) : list string := FieldsFunc s (λ r, r =? 32).

Definition handle_NAMREPLY (m : Message) (c : mctx) : M unit :=
  ps ← lift (parseMessageParams m 4);
  let name := param ps 2 in
  ch ← gets (λ s, CMM.Get (channels s) name);
  match ch with
  | None => forwardMsgByID (mc_downstreamID c) m
  | Some ch =>
    status ← lift (ParseChannelStatus (param ps 1));
    s ← gets id;
    let members := foldl (λ ms w,
      let '(memberships, n) := parseMembershipPrefix (availableMemberships s) w in
      CMM.Set_ ms n memberships) (chMembers ch) (splitSpace (param ps 3)) in
    put_channel name (set_chMembers members (set_chStatus status ch))
  end.

Definition handle_ENDOFNAMES (m : Message) (c : mctx) : M unit :=
  ps ← lift (parseMessageParams m 2);
  let name := param ps 1 in
  ch ← gets (λ s, CMM.Get (channels s) name);
  match ch with
  | None => forwardMsgByID (mc_downstreamID c) m
  | Some ch =>
    if chComplete ch then fail (Errorf "received unexpected RPL_ENDOFNAMES")
    else
      put_channel name (set_chComplete true ch) ;;
      s ← gets id;
      when (not_detached s name) (forEachDownstream (λ dc, send_dc dc (forwardChannel (chName ch))))
  end.

(** Caching what a WHO reply tells about a user worth caching. *)
Definition cache_who (n : string) (info : upstreamUser) : M unit :=
  s ← gets id;
  when (shouldCacheUserInfo s n) (cacheUserInfo n info).

Definition handle_WHOREPLY (m : Message) : M unit :=
  ps ← lift (parseMessageParams m 8);
  '(dc, cmd) ← currentPendingCommand "WHO";
  match cmd, dc with
  | None, _ => fail (Errorf "unexpected RPL_WHOREPLY: no matching pending WHO")
  | Some _, None => skip
  | Some _, Some dc =>
    match SplitN (param ps 7) " " 2 with
    | [_; realname] =>
      send_dc dc (SendMessage m) ;;
      s ← gets id;
      cache_who (param ps 5) (MkUpstreamUser (param ps 5) (param ps 2) (param ps 3) (param ps 4)
        (stripMemberPrefixes (param ps 6) (availableMemberships s)) "" realname)
    | _ => fail (Errorf "malformed RPL_WHOREPLY: failed to parse real name")
    end
  end.

Definition handle_WHOSPCRPL (m : Message) : M unit :=
  '(dc, cmd) ← currentPendingCommand "WHO";
  match cmd, dc with
  | None, _ => fail (Errorf "unexpected RPL_WHOSPCRPL: no matching pending WHO")
  | Some _, None => skip
  | Some cmd, Some dc =>
    send_dc dc (SendMessage m) ;;
    if (1 <? length (Params cmd))%nat then
      let '(fields, _) := ParseWHOXOptions (param (Params cmd) 1) in
      if negb (str_mem "n"%char fields) then skip
      else
        info ← lift (ParseWHOXReply m fields);
        s ← gets id;
        cache_who (w_Nickname info) (MkUpstreamUser (w_Nickname info) (w_Username info) (w_Hostname info)
          (w_Server info) (stripMemberPrefixes (w_Flags info) (availableMemberships s)) (w_Account info)
          (w_Realname info))
    else skip
  end.

Definition handle_ENDOFWHO (m : Message) : M unit := handle_pending_reply "WHO" true None m.
Definition handle_WHOIS_reply (m : Message) : M unit :=
  handle_pending_reply "WHOIS" false (Some (Errorf "unexpected WHOIS reply %q: no matching pending WHOIS")) m.
Definition handle_ENDOFWHOIS (m : Message) : M unit :=
  handle_pending_reply "WHOIS" true (Some (Errorf "unexpected RPL_ENDOFWHOIS: no matching pending WHOIS")) m.

Definition handle_INVITE (m : Message) : M unit :=
  ps ← lift (parseMessageParams m 2);
  let channel := param ps 1 in
  s ← gets id;
  let weAreInvited := isOurNick s (param ps 0) in
  let joined := bool_decide (is_Some (CMM.Get (channels s) channel)) in
  match (if weAreInvited && negb joined then CMM.Get (net_channels s) channel else None) with
  | Some c =>
    msgs ← lift (GenerateJoin [cName c] [cKey c]);
    foreach SendMessage_uc msgs
  | None =>
    let blocked := weAreInvited &&
      match e_GetMessageTarget (cm_apply (net_casemap s) (src_name m)) with
      | Some mt => mtBlocked mt | None => false end in
    forEachDownstream (λ dc,
      if negb weAreInvited && negb (IsEnabled (dc_caps dc) "invite-notify") then skip
      else if blocked && negb (bool_decide ("soju.im/blocked" ∈ dc_metadataSubs dc)) then skip
      else send_dc dc (SendMessage m)) ;;
    when weAreInvited (emit (WebPush m))
  end.

Definition handle_INVITING (m : Message) (c : mctx) : M unit :=
  _ ← lift (parseMessageParams m 3);
  forwardMsgByID (mc_downstreamID c) m.

Definition handle_MONONLINE (m : Message) : M unit :=
  ps ← lift (parseMessageParams m 2);
  let targets := Split (param ps 1) "," in
  let online := bool_decide (Command m = RPL_MONONLINE) in
  foreach (λ target, modify (λ s,
    set_monitored (CMM.Set_ (monitored s) (Name (e_ParsePrefix target)) online) s)) targets ;;
  s ← gets id;
  let wantNick := GetNick e_user (Some (net_record s)) in
  when (negb online && negb (isOurNick s wantNick) && negb (hasDesiredNick s)
        && existsb (λ target, equalCasemap s (Name (e_ParsePrefix target)) wantNick) targets)
    (SendMessage_uc (msg "NICK" [wantNick])) ;;
  forEachDownstream (λ dc, foreach (λ target,
    when (CMM.Has (dc_monitored dc) (Name (e_ParsePrefix target)))
      (send_dc dc (SendMessage (msg (Command m) [dc_nick dc; target])))) targets).

Definition handle_MONLISTFULL (m : Message) : M unit :=
  ps ← lift (parseMessageParams m 3);
  forEachDownstream (λ dc, foreach (λ target,
    when (CMM.Has (dc_monitored dc) target)
      (send_dc dc (SendMessage (msg (Command m) [dc_nick dc; param ps 1; target]))))
    (Split (param ps 2) ",")).

Definition handle_AWAY (m : Message) : M unit :=
  uu ← gets (λ s, CMM.Get (users s) (src_name m));
  (match uu with
   | Some uu =>
     if decide (Flags uu ≠ "") then
       let flags := if (0 <? length (Params m))%nat then ReplaceByte (Flags uu) "H" "G"
                    else ReplaceByte (Flags uu) "G" "H" in
       cacheUserInfo (src_name m) (MkUpstreamUser "" "" "" "" flags "" "")
     else skip
   | None => skip
   end) ;;
  forwardMessage m.

Definition handle_ACCOUNT (m : Message) : M unit :=
  ps ← lift (parseMessageParams m 1);
  cacheUserInfo (src_name m) (MkUpstreamUser "" "" "" "" "" (param ps 0) "") ;;
  forwardMessage m.

Definition handle_NOSUCHNICK (m : Message) (c : mctx) : M unit :=
  ps ← lift (parseMessageParams m 3);
  s ← gets id;
  '(dc, cmd) ← currentPendingCommand "WHOIS";
  match cmd with
  | Some cmd =>
    match last (Params cmd) with
    | None => panic "index out of range"
    | Some n =>
      if equalCasemap s n (param ps 1) then
        _ ← dequeueCommand "WHOIS";
        match dc with Some dc => send_dc dc (SendMessage m) | None => skip end
      else forwardMsgByID (mc_downstreamID c) m
    end
  | None => forwardMsgByID (mc_downstreamID c) m
  end.

(** An error that names the command it is about finishes that command. *)
Definition finish_command (command : string) (c : mctx) : M Z :=
  '(dc, _) ← dequeueCommand command;
  mret (match dc with
        | Some dc => if decide (mc_downstreamID c = 0) then dc_id dc else mc_downstreamID c
        | None => mc_downstreamID c
        end).

Definition handle_UNKNOWNERROR (m : Message) (c : mctx) : M unit :=
  ps ← lift (parseMessageParams m 3);
  let command := param ps 1 in
  id ← finish_command command c;
  (if decide (command = "AUTHENTICATE")
   then modify (set_saslClient None) ;; modify (set_saslStarted false) else skip) ;;
  forwardMsgByID id m.

Definition handle_FAIL (m : Message) (c : mctx) : M unit :=
  ps ← lift (parseMessageParams m 2);
  r ← gets registered;
  if negb r && bool_decide (param ps 0 = "*" ∧ param ps 1 = "ACCOUNT_REQUIRED") then fail (registrationError m)
  else
    id ← finish_command (param ps 0) c;
    forwardMsgByID id m.

Definition handle_initial_burst (m : Message) (c : mctx) : M unit :=
  g ← gets gotMotd;
  if negb g then skip else forwardMsgByID (mc_downstreamID c) m.

Definition handle_ERROR (m : Message) : M unit :=
  _ ← lift (parseMessageParams m 1);
  fail (Errorf "fatal server error: %v").

Definition handle_registration_error (m : Message) (c : mctx) : M unit :=
  r ← gets registered;
  if negb r then fail (registrationError m) else forwardMsgByID (mc_downstreamID c) m.

Definition handle_NICKNAMEINUSE (m : Message) (c : mctx) : M unit :=
  s ← gets id;
  if negb (registered s) && (slen (nick s) + 1 <? 30)%nat then
    let n := nick s +:+ "_" in
    modify (set_nick n) ;; modify (set_hasDesiredNick false) ;;
    SendMessage_uc (msg "NICK" [n])
  else
    ps ← lift (parseMessageParams m 2);
    if equalCasemap s (pendingRegainNick s) (param ps 1) then modify (set_pendingRegainNick "")
    else handle_registration_error m c.

(** ** The dispatcher *)

Definition cmd_in (m : Message) (l : list string) : bool := existsb (String.eqb (Command m)) l.

Definition whois_replies : list string :=
  [RPL_WHOISCERTFP; RPL_WHOISREGNICK; RPL_WHOISUSER; RPL_WHOISSERVER; RPL_WHOISCHANNELS;
   RPL_WHOISOPERATOR; RPL_WHOISIDLE; RPL_WHOISSPECIAL; RPL_WHOISACCOUNT; RPL_WHOISACTUALLY;
   RPL_WHOISHOST; RPL_WHOISMODES; RPL_WHOISSECURE].

Definition dispatch (m : Message) (c : mctx) : M unit :=
  if cmd_in m ["PING"] then handle_PING m
  else if cmd_in m ["NOTICE"; "PRIVMSG"; "TAGMSG"; "REDACT"] then handle_PRIVMSG m c
  else if cmd_in m ["CAP"] then handle_CAP m
  else if cmd_in m ["AUTHENTICATE"] then handle_AUTHENTICATE m
  else if cmd_in m [RPL_LOGGEDIN] then handle_LOGGEDIN m
  else if cmd_in m [RPL_LOGGEDOUT] then handle_LOGGEDOUT m
  else if cmd_in m [RPL_VISIBLEHOST] then handle_VISIBLEHOST m
  else if cmd_in m [ERR_NICKLOCKED; RPL_SASLSUCCESS; ERR_SASLFAIL; ERR_SASLTOOLONG; ERR_SASLABORTED]
  then handle_SASL_end m
  else if cmd_in m ["REGISTER"; "VERIFY"] then handle_REGISTER m
  else if cmd_in m [RPL_WELCOME] then handle_WELCOME m
  else if cmd_in m [RPL_MYINFO] then handle_MYINFO m
  else if cmd_in m [RPL_ISUPPORT] then handle_ISUPPORT m
  else if cmd_in m [ERR_NOMOTD; RPL_ENDOFMOTD] then handle_ENDOFMOTD m c
  else if cmd_in m ["BATCH"] then handle_BATCH m c
  else if cmd_in m ["NICK"] then handle_NICK m
  else if cmd_in m ["SETNAME"] then handle_SETNAME m
  else if cmd_in m ["CHGHOST"] then handle_CHGHOST m
  else if cmd_in m ["JOIN"] then handle_JOIN m
  else if cmd_in m ["PART"] then handle_PART m
  else if cmd_in m ["KICK"] then handle_KICK m
  else if cmd_in m ["QUIT"] then handle_QUIT m
  else if cmd_in m [RPL_TOPIC; RPL_NOTOPIC] then handle_RPL_TOPIC m c
  else if cmd_in m ["TOPIC"] then handle_TOPIC m
  else if cmd_in m ["MODE"] then handle_MODE m
  else if cmd_in m [RPL_UMODEIS] then handle_UMODEIS m
  else if cmd_in m [RPL_CHANNELMODEIS] then handle_CHANNELMODEIS m c
  else if cmd_in m [RPL_CREATIONTIME] then handle_CREATIONTIME m c
  else if cmd_in m [RPL_TOPICWHOTIME] then handle_TOPICWHOTIME m c
  else if cmd_in m [RPL_LISTSTART; RPL_LIST] then handle_RPL_LIST m
  else if cmd_in m [RPL_LISTEND] then handle_LISTEND m
  else if cmd_in m [RPL_NAMREPLY] then handle_NAMREPLY m c
  else if cmd_in m [RPL_ENDOFNAMES] then handle_ENDOFNAMES m c
  else if cmd_in m [RPL_WHOREPLY] then handle_WHOREPLY m
  else if cmd_in m [RPL_WHOSPCRPL] then handle_WHOSPCRPL m
  else if cmd_in m [RPL_ENDOFWHO] then handle_ENDOFWHO m
  else if cmd_in m whois_replies then handle_WHOIS_reply m
  else if cmd_in m [RPL_ENDOFWHOIS] then handle_ENDOFWHOIS m
  else if cmd_in m ["INVITE"] then handle_INVITE m
  else if cmd_in m [RPL_INVITING] then handle_INVITING m c
  else if cmd_in m [RPL_MONONLINE; RPL_MONOFFLINE] then handle_MONONLINE m
  else if cmd_in m [ERR_MONLISTFULL] then handle_MONLISTFULL m
  else if cmd_in m [RPL_AWAY] then forwardMsgByID (mc_downstreamID c) m
  else if cmd_in m ["AWAY"] then handle_AWAY m
  else if cmd_in m ["ACCOUNT"] then handle_ACCOUNT m
  else if cmd_in m [RPL_BANLIST; RPL_INVITELIST; RPL_EXCEPTLIST; RPL_ENDOFBANLIST; RPL_ENDOFINVITELIST;
                    RPL_ENDOFEXCEPTLIST] then forwardMsgByID (mc_downstreamID c) m
  else if cmd_in m [ERR_NOSUCHNICK; ERR_NOSUCHSERVER] then handle_NOSUCHNICK m c
  else if cmd_in m [ERR_UNKNOWNERROR; ERR_UNKNOWNCOMMAND; ERR_NEEDMOREPARAMS; RPL_TRYAGAIN]
  then handle_UNKNOWNERROR m c
  else if cmd_in m ["FAIL"] then handle_FAIL m c
  else if cmd_in m ["ACK"; RPL_NOWAWAY; RPL_UNAWAY; RPL_YOURHOST; RPL_CREATED] then skip
  else if cmd_in m [RPL_LUSERCLIENT; RPL_LUSEROP; RPL_LUSERUNKNOWN; RPL_LUSERCHANNELS; RPL_LUSERME;
                    RPL_STATSVLINE; RPL_STATSPING; RPL_STATSBLINE; RPL_STATSDLINE; RPL_LOCALUSERS;
                    RPL_GLOBALUSERS; RPL_MOTDSTART; RPL_MOTD] then handle_initial_burst m c
  else if cmd_in m ["ERROR"] then handle_ERROR m
  else if cmd_in m [ERR_NICKNAMEINUSE] then handle_NICKNAMEINUSE m c
  else if cmd_in m [ERR_PASSWDMISMATCH; ERR_ERRONEUSNICKNAME; ERR_NICKCOLLISION; ERR_UNAVAILRESOURCE;
                    ERR_NOPERMFORHOST; ERR_YOUREBANNEDCREEP] then handle_registration_error m c
  else forwardMsgByID (mc_downstreamID c) m.

(** The message as the cases of the switch see it. *)
Definition prepare_message (s : ustate) (m : Message) : Message :=
  let m := with_tags (λ tags, delete "batch" (delete "label" tags)) m in
  let m := with_prefix (Some (default (serverPrefix s) (MPrefix m))) m in
  if isNumeric (Command m) then m
  else with_tags (λ tags, <["time" := e_time (tags !! "time")]> tags) m.

(** The batch of a message, the label it answers and whether the label is the batch's. *)
Definition message_label (s : ustate) (m : Message) : res goerr (option upstreamBatch * string * bool) :=
  let label := tag m "label" in
  match Tags m !! "batch" with
  | None => Ok (None, label, false)
  | Some batchName =>
    match batches s !! batchName with
    | None => Err (Errorf "unexpected batch reference: batch was not defined: %q")
    | Some b => if decide (label = "") then Ok (Some b, batch_Label b, true) else Ok (Some b, label, false)
    end
  end.

Definition handleMessage (m : Message) : M unit :=
  s ← gets id;
  '(msgBatch, label, batchLabel) ← lift (message_label s m);
  '(downstreamID, downstreamLabel) ← lift (parseLabel label);
  let c := MkMctx label msgBatch downstreamID downstreamLabel in
  let body := dispatch (prepare_message s m) c in
  if decide (downstreamID = 0) then body
  else if decide (batchLabel = true) then
    forEachDownstreamByID downstreamID (λ dc,
      emit (LabelContext (dc_id dc) downstreamLabel (tag m "batch"))) ;;
    body
  else
    forEachDownstreamByID downstreamID (λ dc, emit (LabelContext (dc_id dc) downstreamLabel "")) ;;
    finally body (forEachDownstreamByID downstreamID (λ dc, send_dc dc FlushBatch)).

(** Messages handled one after the other until the first error, as [runUntilRegistered] does. *)
Fixpoint handleMessages (l : list Message) : M unit :=
  match l with
  | [] => skip
  | m :: l' => handleMessage m ;; handleMessages l'
  end.

(** The same once the connection is registered: the loop of the user logs the error of a handler
    and goes on with the next message. *)
Fixpoint handleLogged (l : list Message) : M unit :=
  match l with
  | [] => skip
  | m :: l' => try (handleMessage m) ;; handleLogged l'
  end.

(** How [runUntilRegistered] reports the error of a handler. *)
Definition wrap_registration (body : M unit) : M unit := λ s,
  match body s with
  | (s', Err (registrationError m)) => (s', Err (registrationError m))
  | (s', Err _) => (s', Err (Errorf "failed to handle message %q: %v"))
  | r => r
  end.

(** [runUntilRegistered] on the messages the server sends; [None] is a read error, as is the
    end of the connection. *)
Fixpoint runUntilRegistered (l : list (option Message)) : M unit :=
  s ← gets id;
  if registered s then skip
  else match l with
  | [] | None :: _ => fail (Errorf "failed to read message: %v")
  | Some m :: l' => wrap_registration (handleMessage m) ;; runUntilRegistered l'
  end.

(** ** Events of the user's loop *)

(** [eventUpstreamConnected] *)
Definition upstream_connected : M unit :=
  modify (set_net_connected true) ;;
  updateAway ;;
  updateMonitor ;;
  s ← gets id;
  forEachDownstream (λ dc,
    send_dc dc updateSupportedCaps ;;
    when (negb (IsEnabled (dc_caps dc) "soju.im/bouncer-networks"))
      (send_dc dc (ServiceNOTICE ("connected to " +:+ GetName (net_record s)))) ;;
    send_dc dc updateNick ;; send_dc dc updateHost ;; send_dc dc updateRealname ;;
    send_dc dc updateAccount ;; send_dc dc updateCasemapping_dc) ;;
  emit (NotifyNetworkState [("state", "connected"); ("error", "")]) ;;
  modify (set_net_lastError None).

(** [found] tells whether the network still belongs to the user. *)
Definition handleUpstreamDisconnected (found : bool) : M unit :=
  modify (set_net_connected false) ;;
  stopRegainNickTimer ;;
  abortPendingCommands ;;
  modify (λ s, set_channels (mkCMM ((λ e, mkEntry (originalKey e) (updateAutoDetach 0 (value e)))
                                      <$> cmm_m (channels s)) (casemap (channels s))) s) ;;
  forEachDownstream (λ dc, send_dc dc updateSupportedCaps) ;;
  when found (
    emit (NotifyNetworkState [("state", "disconnected")]) ;;
    s ← gets id;
    when (bool_decide (net_lastError s = None)) (forEachDownstream (λ dc,
      when (negb (IsEnabled (dc_caps dc) "soju.im/bouncer-networks"))
        (send_dc dc (ServiceNOTICE ("disconnected from " +:+ GetName (net_record s))))))).
End handlers.
