(* ===== verification/UpstreamInv.v ===== *)
(** * Upstream connections: the invariant of the event loop

    Every handler of a message from the server keeps the connection's maps well formed and
    keyed by the casemapping of the network, and gives the message store nothing it must not
    see. The proofs go through a small calculus of preservation for the monad. *)

From S2P Require Import Prelude GoStrings GoUnicode IrcMessage CaseMapping Membership Modes WhoX Base64.
From S2P Require Import Effects GenMsg Caps Database Highlight Upstream UpstreamHandlers.

Import CMMFacts.

Open Scope string_scope.
Open Scope list_scope.
Open Scope Z_scope.

(** ** Preservation *)

Lemma preserves_bind_getChannel (I : ustate → Prop) {B} name (k : upstreamChannel → M B) :
  (∀ s0 ch, I s0 → CMM.Get (channels s0) name = Some ch → preserves I (k ch)) →
  preserves I (getChannel name ≫= k).
Proof.
  intros Hk s Hs. unfold getChannel, mbind, M_bind, gets. destruct (CMM.Get (channels s) name) eqn:Eg; [|done].
  by apply (Hk s).
Qed.

Ltac pres_more ::=
  match goal with
  | |- preserves _ (getChannel _ ≫= _) => apply preserves_bind_getChannel; intros ? ? ? ?
  | |- preserves _ (forEachDownstreamByID _ _) => unfold forEachDownstreamByID
  | |- preserves _ (forEachDownstream _) => unfold forEachDownstream
  end.

(** ** The invariant *)

(** A message may be logged for [entityCM]. *)
Definition log_ok (entityCM : string) (m : Message) : Prop :=
  entityCM ≠ "nickserv" ∧ HasPrefix entityCM "$" = false ∧
  (Command m = "TAGMSG" → storable_tagmsg m = true).

Definition action_ok (a : action) : Prop :=
  match a with Append entityCM m => log_ok entityCM m | _ => True end.

(** A well-formed map, keyed by the casemapping [cm] if one is given. *)
Definition map_ok {V} (cm : option CaseMapping) (m : CaseMappingMap V) : Prop :=
  wf m ∧ ∀ c, cm = Some c → casemap m = c.

Definition chans_ok (cm : option CaseMapping) (m : CaseMappingMap upstreamChannel) : Prop :=
  map_ok cm m ∧ ∀ k e, cmm_m m !! k = Some e → map_ok cm (chMembers (value e)).

(** With [cm = None] the maps are well formed; with [Some c] they also all use [c]. *)
Record uinv (cm : option CaseMapping) (s : ustate) : Prop := {
  inv_trace : Forall action_ok (trace s);
  inv_connected c : cm = Some c → net_connected s = true;
  inv_casemap c : cm = Some c → net_casemap s = c;
  inv_net_channels : map_ok cm (net_channels s);
  inv_delivered : map_ok cm (net_delivered s);
  inv_pushTargets : map_ok cm (net_pushTargets s);
  inv_channels : chans_ok cm (channels s);
  inv_users : map_ok cm (users s);
  inv_monitored : map_ok cm (monitored s)
}.

Lemma map_ok_Set {V} cm (m : CaseMappingMap V) k v : map_ok cm m → map_ok cm (CMM.Set_ m k v).
Proof. intros [? ?]. split; [by apply Set_wf|]. rewrite Set_casemap. auto. Qed.
Lemma map_ok_Del {V} cm (m : CaseMappingMap V) k : map_ok cm m → map_ok cm (CMM.Del m k).
Proof. intros [? ?]. split; [by apply Del_wf|done]. Qed.
Lemma map_ok_SetCaseMapping {V} c (m : CaseMappingMap V) : map_ok (Some c) (CMM.SetCaseMapping m c).
Proof. split; [apply SetCaseMapping_in_wf|]. cbn. congruence. Qed.
Lemma map_ok_weaken {V} c (m : CaseMappingMap V) : map_ok c m → map_ok None m.
Proof. intros [? _]. by split. Qed.
Lemma map_ok_New {V} cm cm' : (∀ c, cm = Some c → cm' = c) → map_ok cm (CMM.New (V:=V) cm').
Proof. split; [apply New_wf|auto]. Qed.

Lemma chans_ok_Set cm m k ch : chans_ok cm m → map_ok cm (chMembers ch) → chans_ok cm (CMM.Set_ m k ch).
Proof.
  intros [Hm Hch] Hmem. split; [by apply map_ok_Set|]. intros k' e. unfold CMM.Set_.
  case_match; simpl; rewrite lookup_insert_Some; intros [[<- <-]|[? ?]]; simpl; eauto.
Qed.
Lemma chans_ok_Del cm m k : chans_ok cm m → chans_ok cm (CMM.Del m k).
Proof.
  intros [Hm Hch]. split; [by apply map_ok_Del|]. intros k' e. simpl. rewrite lookup_delete_Some.
  intros [? ?]. eauto.
Qed.
Lemma chans_ok_Get cm m k ch : chans_ok cm m → CMM.Get m k = Some ch → map_ok cm (chMembers ch).
Proof.
  intros [_ Hch] Hg. unfold CMM.Get in Hg. apply fmap_Some in Hg as (e & He & ->). eauto.
Qed.
Lemma chans_ok_Entries cm m e : chans_ok cm m → e ∈ CMM.Entries m → map_ok cm (chMembers (value e)).
Proof. intros [_ Hch] He. apply elem_of_Entries in He as (k & Hk). eauto. Qed.

#[export] Hint Resolve map_ok_Set map_ok_Del map_ok_SetCaseMapping map_ok_New chans_ok_Set chans_ok_Del
  chans_ok_Get chans_ok_Entries inv_net_channels inv_delivered inv_pushTargets inv_channels inv_users
  inv_monitored : pres.

(** A change of the state that leaves the trace and most maps alone. *)
Ltac inv_modify :=
  apply preserves_modify; intros ? [? ? ? ? ? ? ? ? ?]; split; cbn; eauto 10 with pres.

Lemma casemap_dollar cm e : HasPrefix (cm_apply cm e) "$" = HasPrefix e "$".
Proof.
  assert (forallb (λ cm, forallb (λ c, Bool.eqb (bool_decide (cm_byte cm c = "$"%char))
    (bool_decide (c = "$"%char))) all_bytes)
    [CaseMappingASCII; CaseMappingRFC1459; CaseMappingRFC1459Strict] = true) as Hb by (by vm_compute).
  rewrite forallb_forall in Hb. assert (In cm [CaseMappingASCII; CaseMappingRFC1459; CaseMappingRFC1459Strict])
    as Hin by (destruct cm; simpl; auto). specialize (Hb cm Hin). rewrite forallb_forall in Hb.
  destruct e as [|c e]; [by destruct cm|].
  assert (cm_apply cm (String c e) = String (cm_byte cm c) (str_map (cm_byte cm) e)) as -> by (by destruct cm).
  rewrite !HasPrefix_String, !HasPrefix_nil, !andb_true_r.
  apply eqb_prop. apply Hb. apply list_elem_of_In, all_bytes_complete.
Qed.

Section inv.
Context `{E : env} `{UnicodeTables} (cm : option CaseMapping).

Abbreviation keeps := (preserves (uinv cm)).

Lemma keep_emit a : action_ok a → keeps (emit a).
Proof.
  intros Ha. apply preserves_modify. intros s [Ht ? ? ? ? ? ? ? ?]. split; cbn; auto.
  apply Forall_app. split; [done|by constructor].
Qed.
#[local] Hint Resolve keep_emit : pres.
#[local] Hint Extern 1 (action_ok _) => exact I : pres.
#[local] Hint Extern 1 (map_ok _ (chMembers _)) => progress cbn : pres.
#[local] Hint Extern 1 (map_ok _ (chMembers (if ?b then _ else _))) => destruct b : pres.

Lemma keep_send_dc dc c : keeps (send_dc dc c).
Proof. unfold send_dc. pres. Qed.
#[local] Hint Resolve keep_send_dc : pres.

Lemma keep_put_channel name ch : map_ok cm (chMembers ch) → keeps (put_channel name ch).
Proof. intros. unfold put_channel. inv_modify. Qed.

Lemma keep_SendMessage_uc m : keeps (SendMessage_uc m).
Proof. unfold SendMessage_uc. pres. Qed.
#[local] Hint Resolve keep_put_channel keep_SendMessage_uc : pres.

Lemma keep_forward m : keeps (forwardMessage m).
Proof. unfold forwardMessage. pres. Qed.
Lemma keep_forwardByID id m : keeps (forwardMsgByID id m).
Proof. unfold forwardMsgByID. pres. Qed.
Lemma keep_Labeled id l m : keeps (SendMessageLabeled id l m).
Proof. unfold SendMessageLabeled. pres; inv_modify. Qed.
Lemma keep_set_pending cmd l : keeps (set_pending cmd l).
Proof. unfold set_pending. inv_modify. Qed.
#[local] Hint Resolve keep_forward keep_forwardByID keep_Labeled keep_set_pending : pres.

Lemma keep_sendNext cmd : keeps (sendNextPendingCommand cmd).
Proof. unfold sendNextPendingCommand. pres. Qed.
Lemma keep_current cmd : keeps (currentPendingCommand cmd).
Proof. unfold currentPendingCommand. pres. Qed.
#[local] Hint Resolve keep_sendNext keep_current : pres.
Lemma keep_dequeue cmd : keeps (dequeueCommand cmd).
Proof. unfold dequeueCommand. pres. Qed.
Lemma keep_enqueue dc l m : keeps (enqueueCommand dc l m).
Proof. unfold enqueueCommand. pres. Qed.
#[local] Hint Resolve keep_dequeue : pres.

Lemma keep_cacheUserInfo n info : keeps (cacheUserInfo n info).
Proof. unfold cacheUserInfo. pres; inv_modify. Qed.
Lemma keep_forget n : keeps (forget_user n).
Proof. unfold forget_user. pres; inv_modify. Qed.
#[local] Hint Resolve keep_cacheUserInfo keep_forget : pres.

Lemma delivered_fold_ok entity lastID l d :
  map_ok cm d → map_ok cm (foldl (λ d c, delivered_StoreID d entity c lastID) d l).
Proof. revert d. induction l as [|c l IH]; simpl; intros d Hd; [done|]. apply IH. by apply map_ok_Set. Qed.
#[local] Hint Resolve delivered_fold_ok : pres.

(** The guards of [appendLog] are the ones of [log_ok]. *)
Lemma keep_appendLog entity m : keeps (appendLog entity m).
Proof.
  unfold appendLog. pres_step; [apply preserves_ret|]. pres_step; [apply preserves_ret|].
  pres_step; [apply preserves_ret|]. pres_step.
  pres_step; [apply preserves_ret|].
  assert (log_ok (cm_apply (net_casemap s0) entity) m) as Hok.
  { split_and!; [done|by rewrite casemap_dollar|]. intros Hc. rewrite bool_decide_eq_true_2 in Heqb0 by done.
    simpl in Heqb0. by apply negb_false_iff in Heqb0. }
  assert (keeps (emit (Append (cm_apply (net_casemap s0) entity) m))) as Hemit by (by apply keep_emit).
  pres; inv_modify.
Qed.
#[local] Hint Resolve keep_appendLog : pres.

Lemma keep_produce target m origin blocked : keeps (produce target m origin blocked).
Proof. unfold produce. pres. Qed.
Lemma keep_autoDetach name : keeps (updateChannelAutoDetach name).
Proof. unfold updateChannelAutoDetach. pres. Qed.
#[local] Hint Resolve keep_produce keep_autoDetach : pres.

Lemma foldl_forget_ok {A} (f : A → string) l : keeps (foreach (λ e, forget_user (f e)) l).
Proof. pres. Qed.

Lemma keep_updateMonitor : keeps updateMonitor.
Proof. unfold updateMonitor. pres; inv_modify. Qed.
Lemma keep_startRegain : keeps startRegainNickTimer.
Proof. unfold startRegainNickTimer. pres; inv_modify. Qed.
Lemma keep_stopRegain : keeps stopRegainNickTimer.
Proof. unfold stopRegainNickTimer. inv_modify. Qed.
Lemma keep_getChannel name : keeps (getChannel name).
Proof. unfold getChannel. pres. Qed.
#[local] Hint Resolve keep_updateMonitor keep_startRegain keep_stopRegain keep_getChannel : pres.

(** ** The network's operations *)

Lemma keep_put_net_channel ch : keeps (put_net_channel ch).
Proof. unfold put_net_channel. inv_modify. Qed.
#[local] Hint Resolve keep_put_net_channel : pres.
Lemma keep_detach ch : keeps (net_detach ch).
Proof. unfold net_detach. pres. Qed.
Lemma keep_attach ch : keeps (net_attach ch).
Proof. unfold net_attach. pres. Qed.
Lemma keep_isHighlight m : keeps (net_isHighlight m).
Proof. unfold net_isHighlight. pres. Qed.
#[local] Hint Resolve keep_attach keep_isHighlight : pres.
Lemma keep_needsRelay ch m : keeps (detachedMessageNeedsRelay ch m).
Proof. unfold detachedMessageNeedsRelay. pres. Qed.
Lemma keep_autoSave u p : keeps (autoSaveSASLPlain u p).
Proof. unfold autoSaveSASLPlain. pres; inv_modify. Qed.
#[local] Hint Resolve keep_needsRelay keep_autoSave : pres.
Lemma keep_detachedMessage ch m : keeps (handleDetachedMessage ch m).
Proof. unfold handleDetachedMessage. pres. Qed.
#[local] Hint Resolve keep_detachedMessage : pres.

Lemma keep_supportedCaps c : keeps (handleSupportedCaps c).
Proof. unfold handleSupportedCaps. pres; inv_modify. Qed.
Lemma keep_updateCaps : keeps updateCaps.
Proof. unfold updateCaps. pres. Qed.
Lemma keep_capAck n b : keeps (handleCapAck n b).
Proof. unfold handleCapAck. pres; inv_modify. Qed.
#[local] Hint Resolve keep_supportedCaps keep_updateCaps keep_capAck : pres.

(** ** The handlers *)

Lemma keep_handle_PING m : keeps (handle_PING m).
Proof. unfold handle_PING. pres; inv_modify. Qed.
#[local] Hint Resolve keep_handle_PING : pres.
Lemma keep_handle_PRIVMSG m c : keeps (handle_PRIVMSG m c).
Proof. unfold handle_PRIVMSG. pres; inv_modify. Qed.
#[local] Hint Resolve keep_handle_PRIVMSG : pres.
Lemma keep_handle_CAP m : keeps (handle_CAP m).
Proof. unfold handle_CAP. pres; inv_modify. Qed.
#[local] Hint Resolve keep_handle_CAP : pres.
Lemma keep_abort_AUTHENTICATE e : keeps (abort_AUTHENTICATE e).
Proof. unfold abort_AUTHENTICATE. pres; inv_modify. Qed.
#[local] Hint Resolve keep_abort_AUTHENTICATE : pres.
Lemma keep_handle_AUTHENTICATE m : keeps (handle_AUTHENTICATE m).
Proof. unfold handle_AUTHENTICATE. pres; inv_modify. Qed.
#[local] Hint Resolve keep_handle_AUTHENTICATE : pres.
Lemma keep_set_account_prefix p a : keeps (set_account_prefix p a).
Proof. unfold set_account_prefix. pres; inv_modify. Qed.
#[local] Hint Resolve keep_set_account_prefix : pres.
Lemma keep_handle_LOGGEDIN m : keeps (handle_LOGGEDIN m).
Proof. unfold handle_LOGGEDIN. pres; inv_modify. Qed.
#[local] Hint Resolve keep_handle_LOGGEDIN : pres.
Lemma keep_handle_LOGGEDOUT m : keeps (handle_LOGGEDOUT m).
Proof. unfold handle_LOGGEDOUT. pres; inv_modify. Qed.
#[local] Hint Resolve keep_handle_LOGGEDOUT : pres.
Lemma keep_handle_VISIBLEHOST m : keeps (handle_VISIBLEHOST m).
Proof. unfold handle_VISIBLEHOST. pres; inv_modify. Qed.
#[local] Hint Resolve keep_handle_VISIBLEHOST : pres.
Lemma keep_handle_SASL_end m : keeps (handle_SASL_end m).
Proof. unfold handle_SASL_end. pres; inv_modify. Qed.
#[local] Hint Resolve keep_handle_SASL_end : pres.
Lemma keep_handle_REGISTER m : keeps (handle_REGISTER m).
Proof. unfold handle_REGISTER. pres; inv_modify. Qed.
#[local] Hint Resolve keep_handle_REGISTER : pres.
Lemma keep_handle_WELCOME m : keeps (handle_WELCOME m).
Proof. unfold handle_WELCOME. pres; inv_modify. Qed.
#[local] Hint Resolve keep_handle_WELCOME : pres.
Lemma keep_handle_MYINFO m : keeps (handle_MYINFO m).
Proof. unfold handle_MYINFO. pres; inv_modify. Qed.
#[local] Hint Resolve keep_handle_MYINFO : pres.
Lemma keep_handle_BATCH m c : keeps (handle_BATCH m c).
Proof. unfold handle_BATCH. pres; inv_modify. Qed.
#[local] Hint Resolve keep_handle_BATCH : pres.
Lemma keep_handle_NICK m : keeps (handle_NICK m).
Proof. unfold handle_NICK. pres; inv_modify. Qed.
#[local] Hint Resolve keep_handle_NICK : pres.
Lemma keep_handle_SETNAME m : keeps (handle_SETNAME m).
Proof. unfold handle_SETNAME. pres; inv_modify. Qed.
#[local] Hint Resolve keep_handle_SETNAME : pres.
Lemma keep_handle_CHGHOST m : keeps (handle_CHGHOST m).
Proof. unfold handle_CHGHOST. pres; inv_modify. Qed.
#[local] Hint Resolve keep_handle_CHGHOST : pres.
Lemma keep_join_channel m ch : keeps (join_channel m ch).
Proof. unfold join_channel. pres; inv_modify. Qed.
#[local] Hint Resolve keep_join_channel : pres.
Lemma keep_handle_JOIN m : keeps (handle_JOIN m).
Proof. unfold handle_JOIN. pres; inv_modify. Qed.
#[local] Hint Resolve keep_handle_JOIN : pres.
Lemma keep_leave_channel ch : keeps (leave_channel ch).
Proof. unfold leave_channel. pres; inv_modify. Qed.
#[local] Hint Resolve keep_leave_channel : pres.
Lemma keep_remove_member ch u : keeps (remove_member ch u).
Proof. unfold remove_member. pres; inv_modify. Qed.
#[local] Hint Resolve keep_remove_member : pres.
Lemma keep_part_channel m ch : keeps (part_channel m ch).
Proof. unfold part_channel. pres; inv_modify. Qed.
#[local] Hint Resolve keep_part_channel : pres.
Lemma keep_handle_PART m : keeps (handle_PART m).
Proof. unfold handle_PART. pres; inv_modify. Qed.
#[local] Hint Resolve keep_handle_PART : pres.
Lemma keep_handle_KICK m : keeps (handle_KICK m).
Proof. unfold handle_KICK. pres; inv_modify. Qed.
#[local] Hint Resolve keep_handle_KICK : pres.
Lemma keep_handle_QUIT m : keeps (handle_QUIT m).
Proof. unfold handle_QUIT. pres; inv_modify. Qed.
#[local] Hint Resolve keep_handle_QUIT : pres.
Lemma keep_handle_RPL_TOPIC m c : keeps (handle_RPL_TOPIC m c).
Proof. unfold handle_RPL_TOPIC. pres; inv_modify. Qed.
#[local] Hint Resolve keep_handle_RPL_TOPIC : pres.
Lemma keep_handle_TOPIC m : keeps (handle_TOPIC m).
Proof. unfold handle_TOPIC. pres; inv_modify. Qed.
#[local] Hint Resolve keep_handle_TOPIC : pres.
Lemma keep_apply_user_modes str : keeps (apply_user_modes str).
Proof. unfold apply_user_modes. pres; inv_modify. Qed.
#[local] Hint Resolve keep_apply_user_modes : pres.
Lemma keep_handle_UMODEIS m : keeps (handle_UMODEIS m).
Proof. unfold handle_UMODEIS. pres; inv_modify. Qed.
#[local] Hint Resolve keep_handle_UMODEIS : pres.
Lemma keep_handle_CREATIONTIME m c : keeps (handle_CREATIONTIME m c).
Proof. unfold handle_CREATIONTIME. pres; inv_modify. Qed.
#[local] Hint Resolve keep_handle_CREATIONTIME : pres.
Lemma keep_handle_TOPICWHOTIME m c : keeps (handle_TOPICWHOTIME m c).
Proof. unfold handle_TOPICWHOTIME. pres; inv_modify. Qed.
#[local] Hint Resolve keep_handle_TOPICWHOTIME : pres.
Lemma keep_handle_pending_reply cmd l e m : keeps (handle_pending_reply cmd l e m).
Proof. unfold handle_pending_reply. pres; inv_modify. Qed.
#[local] Hint Resolve keep_handle_pending_reply : pres.
Lemma keep_handle_RPL_LIST m : keeps (handle_RPL_LIST m).
Proof. unfold handle_RPL_LIST. pres; inv_modify. Qed.
#[local] Hint Resolve keep_handle_RPL_LIST : pres.
Lemma keep_handle_LISTEND m : keeps (handle_LISTEND m).
Proof. unfold handle_LISTEND. pres; inv_modify. Qed.
#[local] Hint Resolve keep_handle_LISTEND : pres.
Lemma keep_handle_ENDOFNAMES m c : keeps (handle_ENDOFNAMES m c).
Proof. unfold handle_ENDOFNAMES. pres; inv_modify. Qed.
#[local] Hint Resolve keep_handle_ENDOFNAMES : pres.
Lemma keep_cache_who n i : keeps (cache_who n i).
Proof. unfold cache_who. pres; inv_modify. Qed.
#[local] Hint Resolve keep_cache_who : pres.
Lemma keep_handle_WHOREPLY m : keeps (handle_WHOREPLY m).
Proof. unfold handle_WHOREPLY. pres; inv_modify. Qed.
#[local] Hint Resolve keep_handle_WHOREPLY : pres.
Lemma keep_handle_WHOSPCRPL m : keeps (handle_WHOSPCRPL m).
Proof. unfold handle_WHOSPCRPL. pres; inv_modify. Qed.
#[local] Hint Resolve keep_handle_WHOSPCRPL : pres.
Lemma keep_handle_ENDOFWHO m : keeps (handle_ENDOFWHO m).
Proof. unfold handle_ENDOFWHO. pres; inv_modify. Qed.
#[local] Hint Resolve keep_handle_ENDOFWHO : pres.
Lemma keep_handle_WHOIS_reply m : keeps (handle_WHOIS_reply m).
Proof. unfold handle_WHOIS_reply. pres; inv_modify. Qed.
#[local] Hint Resolve keep_handle_WHOIS_reply : pres.
Lemma keep_handle_ENDOFWHOIS m : keeps (handle_ENDOFWHOIS m).
Proof. unfold handle_ENDOFWHOIS. pres; inv_modify. Qed.
#[local] Hint Resolve keep_handle_ENDOFWHOIS : pres.
Lemma keep_handle_INVITE m : keeps (handle_INVITE m).
Proof. unfold handle_INVITE. pres; inv_modify. Qed.
#[local] Hint Resolve keep_handle_INVITE : pres.
Lemma keep_handle_INVITING m c : keeps (handle_INVITING m c).
Proof. unfold handle_INVITING. pres; inv_modify. Qed.
#[local] Hint Resolve keep_handle_INVITING : pres.
Lemma keep_handle_MONONLINE m : keeps (handle_MONONLINE m).
Proof. unfold handle_MONONLINE. pres; inv_modify. Qed.
#[local] Hint Resolve keep_handle_MONONLINE : pres.
Lemma keep_handle_MONLISTFULL m : keeps (handle_MONLISTFULL m).
Proof. unfold handle_MONLISTFULL. pres; inv_modify. Qed.
#[local] Hint Resolve keep_handle_MONLISTFULL : pres.
Lemma keep_handle_AWAY m : keeps (handle_AWAY m).
Proof. unfold handle_AWAY. pres; inv_modify. Qed.
#[local] Hint Resolve keep_handle_AWAY : pres.
Lemma keep_handle_ACCOUNT m : keeps (handle_ACCOUNT m).
Proof. unfold handle_ACCOUNT. pres; inv_modify. Qed.
#[local] Hint Resolve keep_handle_ACCOUNT : pres.
Lemma keep_handle_NOSUCHNICK m c : keeps (handle_NOSUCHNICK m c).
Proof. unfold handle_NOSUCHNICK. pres; inv_modify. Qed.
#[local] Hint Resolve keep_handle_NOSUCHNICK : pres.
Lemma keep_finish_command cmd c : keeps (finish_command cmd c).
Proof. unfold finish_command. pres; inv_modify. Qed.
#[local] Hint Resolve keep_finish_command : pres.
Lemma keep_handle_UNKNOWNERROR m c : keeps (handle_UNKNOWNERROR m c).
Proof. unfold handle_UNKNOWNERROR. pres; inv_modify. Qed.
#[local] Hint Resolve keep_handle_UNKNOWNERROR : pres.
Lemma keep_handle_FAIL m c : keeps (handle_FAIL m c).
Proof. unfold handle_FAIL. pres; inv_modify. Qed.
#[local] Hint Resolve keep_handle_FAIL : pres.
Lemma keep_handle_initial_burst m c : keeps (handle_initial_burst m c).
Proof. unfold handle_initial_burst. pres; inv_modify. Qed.
#[local] Hint Resolve keep_handle_initial_burst : pres.
Lemma keep_handle_ERROR m : keeps (handle_ERROR m).
Proof. unfold handle_ERROR. pres; inv_modify. Qed.
#[local] Hint Resolve keep_handle_ERROR : pres.
Lemma keep_handle_registration_error m c : keeps (handle_registration_error m c).
Proof. unfold handle_registration_error. pres; inv_modify. Qed.
#[local] Hint Resolve keep_handle_registration_error : pres.
Lemma keep_handle_NICKNAMEINUSE m c : keeps (handle_NICKNAMEINUSE m c).
Proof. unfold handle_NICKNAMEINUSE. pres; inv_modify. Qed.
#[local] Hint Resolve keep_handle_NICKNAMEINUSE : pres.


Lemma apply_modes_loop_members avm avc st args n pm modeStr :
  map_ok cm (ms_members st) → map_ok cm (ms_members (apply_modes_loop avm avc st args n pm modeStr).1).
Proof.
  revert st n pm. induction modeStr as [|c modeStr IH]; intros st n pm Hst; [done|]. cbn [apply_modes_loop].
  repeat case_match; try done; apply IH; try done; try (by destruct b).
  unfold apply_membership. case_match; [|done]. cbn. by apply map_ok_Set.
Qed.

Lemma keep_apply_modes name ch str args : map_ok cm (chMembers ch) → keeps (apply_modes name ch str args).
Proof.
  intros Hch. unfold apply_modes. pres_step.
  pose proof (apply_modes_loop_members (availableMemberships s0) (availableChannelModes s0)
    (mkModeState (chMembers ch) (chModes ch)) args 0 None str Hch) as Hm.
  unfold applyChannelModes. destruct (apply_modes_loop _ _ _ _ _ _ _) as [st err]. pres.
Qed.
#[local] Hint Resolve keep_apply_modes : pres.

Lemma keep_handle_MODE m : keeps (handle_MODE m).
Proof. unfold handle_MODE. pres. Qed.
Lemma keep_handle_CHANNELMODEIS m c : keeps (handle_CHANNELMODEIS m c).
Proof. unfold handle_CHANNELMODEIS. pres. Qed.

Lemma names_fold_ok avm l ms :
  map_ok cm ms →
  map_ok cm (foldl (λ ms w, let '(memberships, n) := parseMembershipPrefix avm w in
                            CMM.Set_ ms n memberships) ms l).
Proof.
  revert ms. induction l as [|w l IH]; simpl; intros ms Hms; [done|]. apply IH. case_match. by apply map_ok_Set.
Qed.
#[local] Hint Resolve names_fold_ok : pres.

Lemma keep_handle_NAMREPLY m c : keeps (handle_NAMREPLY m c).
Proof. unfold handle_NAMREPLY. pres. Qed.
#[local] Hint Resolve keep_handle_MODE keep_handle_CHANNELMODEIS keep_handle_NAMREPLY : pres.

(** The cases that keep the casemapping. *)
Lemma keep_dispatch m c :
  cmd_in m [RPL_ISUPPORT] = false → cmd_in m [ERR_NOMOTD; RPL_ENDOFMOTD] = false → keeps (dispatch m c).
Proof.
  intros H1 H2. unfold dispatch.
  repeat (match goal with |- keeps (if ?b then _ else _) => destruct b eqn:?; [congruence || eauto with pres; pres|] end).
  eauto with pres.
Qed.
End inv.

(** ** Changes of the casemapping *)

(** Well formed, and well formed with one casemapping for all the maps. *)
Definition uwf (s : ustate) : Prop := uinv None s.
Definition ucoherent (s : ustate) : Prop := ∃ c, uinv (Some c) s.

Lemma uinv_weaken cm s : uinv cm s → uwf s.
Proof.
  intros [? ? ? ? ? ? [Hch Hmem] ? ?]. split; eauto using map_ok_weaken; try done.
  split; [by eapply map_ok_weaken|]. intros k e He. eapply map_ok_weaken, Hmem, He.
Qed.

(** Operations that change the casemapping preserve one of the two. *)
Definition preserves_any {A} (m : M A) : Prop := preserves uwf m ∧ preserves ucoherent m.

Lemma any_of {A} (m : M A) : (∀ cm, preserves (uinv cm) m) → preserves_any m.
Proof. intros Hm. split; [apply Hm|]. intros s [c Hs]. exists c. by apply Hm. Qed.

Lemma any_bind {A B} (m : M A) (k : A → M B) :
  preserves_any m → (∀ a, preserves_any (k a)) → preserves_any (m ≫= k).
Proof. intros [Hm1 Hm2] Hk. split; apply preserves_bind; auto; intros a; apply Hk. Qed.

Lemma any_foreach {A} (f : A → M unit) l : (∀ x, preserves_any (f x)) → preserves_any (foreach f l).
Proof. intros Hf. split; apply preserves_foreach; intros x _; apply Hf. Qed.

Lemma any_when b m : preserves_any m → preserves_any (when b m).
Proof. intros [? ?]. split; by apply preserves_when. Qed.

Section casemapping.
Context `{E : env} `{UnicodeTables}.

(** A change of the casemapping makes a connected network coherent. *)
Lemma updateCasemapping_establishes c s :
  uwf s → net_connected s = true → uinv (Some c) (net_updateCasemapping c s).1.
Proof.
  intros [Ht _ _ ? ? ? ? ? ?] Hc. unfold net_updateCasemapping.
  cbv beta delta [mbind M_bind modify gets]. cbn [fst snd]. cbn. rewrite Hc. cbn.
  assert (preserves (uinv (Some c)) (forEachDownstream (λ dc, send_dc dc updateCasemapping_dc))) as Hf.
  { apply preserves_foreach. intros dc _. apply keep_send_dc. }
  apply Hf. split; cbn; auto using map_ok_SetCaseMapping; try congruence.
  split; [split; [|cbn; congruence]|].
  - intros k e. cbn. rewrite lookup_fmap. intros (e0 & He0 & ->)%fmap_Some. cbn.
    by apply (SetCaseMapping_in_wf (CMM.Entries (channels s)) c).
  - intros k e. cbn. rewrite lookup_fmap. intros (e0 & He0 & ->)%fmap_Some. cbn.
    apply map_ok_SetCaseMapping.
Qed.

Lemma any_updateCasemapping c : preserves_any (net_updateCasemapping c).
Proof.
  split.
  - intros s Hs. destruct (net_connected s) eqn:Hc.
    { eapply uinv_weaken. by apply updateCasemapping_establishes. }
    unfold net_updateCasemapping. cbv beta delta [mbind M_bind modify gets]. cbn [fst snd]. cbn. rewrite Hc. cbn.
    assert (preserves uwf (forEachDownstream (λ dc, send_dc dc updateCasemapping_dc))) as Hf.
    { apply preserves_foreach. intros dc _. apply keep_send_dc. }
    apply Hf. destruct Hs. split; cbn; eauto using map_ok_weaken, map_ok_SetCaseMapping; done.
  - intros s [c0 Hs]. exists c. apply updateCasemapping_establishes; [by eapply uinv_weaken|].
    by apply (inv_connected _ _ Hs c0).
Qed.

Lemma any_isupport_token token : preserves_any (handle_isupport_token token).
Proof.
  unfold handle_isupport_token. destruct (isupport_parse token) as [[[parameter value] hasValue] negate].
  apply any_bind; [apply any_of; intros cm; inv_modify|]. intros _.
  repeat (case_decide || case_match); try apply any_updateCasemapping;
    apply any_of; intros cm; pres; inv_modify.
Qed.

Lemma any_dispatch m c : preserves_any (dispatch m c).
Proof.
  destruct (cmd_in m [RPL_ISUPPORT] || cmd_in m [ERR_NOMOTD; RPL_ENDOFMOTD]) eqn:Ecmd; cycle 1.
  { bool_to_prop. apply any_of. intros cm. by apply keep_dispatch. }
  assert (dispatch m c = handle_ISUPPORT m ∨ dispatch m c = handle_ENDOFMOTD m c) as [-> | ->].
  { unfold cmd_in in Ecmd. cbn in Ecmd. rewrite !orb_false_r in Ecmd.
    unfold dispatch, cmd_in. destruct m as [tags p cmd ps]. cbn [Command] in *.
    repeat (apply orb_true_iff in Ecmd as [Ecmd|Ecmd]); apply String.eqb_eq in Ecmd as ->; cbn; auto. }
  - unfold handle_ISUPPORT. apply any_bind; [apply any_of; intros; pres|]. intros _.
    apply any_bind; [apply any_foreach; intros; apply any_isupport_token|]. intros _.
    apply any_of. intros cm. apply preserves_bind; [apply keep_updateMonitor|]. intros _.
    apply preserves_foreach. intros. apply keep_send_dc.
  - unfold handle_ENDOFMOTD. apply any_bind; [apply any_of; intros; pres|]. intros s0. case_match; cycle 1.
    { apply any_of. intros cm. apply keep_forwardByID. }
    apply any_bind; [apply any_of; intros cm; inv_modify|]. intros _.
    apply any_bind; [apply any_when; intros; apply any_updateCasemapping|]. intros _.
    apply any_when. apply any_of. intros cm. apply keep_startRegain.
Qed.

Lemma any_handleMessage m : preserves_any (handleMessage m).
Proof.
  unfold handleMessage. apply any_bind; [apply any_of; intros; pres|]. intros s0.
  apply any_bind; [apply any_of; intros; pres|]. intros [[b l] bl].
  apply any_bind; [apply any_of; intros; pres|]. intros [id label].
  assert (∀ f, (∀ dc, preserves_any (f dc)) → preserves_any (forEachDownstreamByID id f)) as Heach.
  { intros f Hf. unfold forEachDownstreamByID, forEachDownstream. apply any_foreach. intros dc.
    case_match; [apply any_of; intros; pres|apply Hf]. }
  assert (∀ a, action_ok a → preserves_any (emit a)) as Hemit.
  { intros a Ha. apply any_of. intros cm. by apply keep_emit. }
  repeat case_match; [apply any_dispatch|..].
  - apply any_bind; [apply Heach; intros; by apply Hemit|]. intros _. apply any_dispatch.
  - apply any_bind; [apply Heach; intros; by apply Hemit|]. intros _.
    assert (preserves_any (forEachDownstreamByID id (λ dc, send_dc dc FlushBatch))) as Hflush.
    { apply Heach. intros. unfold send_dc. by apply Hemit. }
    split; apply preserves_finally; (apply any_dispatch || apply Hflush).
Qed.

(** C1: The invariant of the event loop. Whatever the server sends, the maps of the connection
    and of its network stay well formed, member lists included, and the message store is never
    given a message of NickServ, a message to a server mask, or a TAGMSG without a storable
    tag. Once all the maps use the network's casemapping, which a CASEMAPPING token or the end
    of the MOTD brings about, they keep using it, also across later changes. Errors do not
    break the invariant, whether they end the registration or are logged by the user's loop,
    which goes on with the next message. *)
Theorem handleMessages_invariant (l : list Message) (s : ustate) :
  uwf s →
  (uwf (handleMessages l s).1 ∧ (ucoherent s → ucoherent (handleMessages l s).1)) ∧
  (uwf (handleLogged l s).1 ∧ (ucoherent s → ucoherent (handleLogged l s).1)).
Proof.
  assert (preserves_any (handleMessages l) ∧ preserves_any (handleLogged l)) as [[H1 H2] [H3 H4]].
  { split; (induction l as [|m l IH]; [apply any_of; intros cm; apply preserves_skip|]); cbn [handleMessages handleLogged];
      (apply any_bind; [|intros _; exact IH]); [apply any_handleMessage|]. destruct (any_handleMessage m).
    split; by apply preserves_try. }
  intros Hs. split; (split; [by auto|by auto]).
Qed.
End casemapping.

Lemma newConnection_uwf record saved : uwf (newConnection record saved).
Proof.
  assert (∀ l m, wf m → wf (foldl (λ m ch, CMM.Set_ m (cName ch) ch) m l)) as Hfold.
  { induction l as [|ch l IH]; intros m Hm; [done|]. apply IH. by apply Set_wf. }
  split; cbn; try done; try (by apply map_ok_New).
  split; [|done]. apply Hfold, New_wf.
Qed.

(** ** An environment for evaluation *)

Definition demo_view (id : Z) : downstreamView :=
  MkDownstreamView id true "alice" (mkPrefix "alice" "alice" "host") NewCapRegistry false
    (CMM.New CaseMappingASCII) ∅ None.

Definition demo_env : env := {|
  e_user := MkUser 1 "alice" "" "" "" false true 0 (-1);
  e_downstreams := [demo_view 1; demo_view 2];
  e_hasStore := true;
  e_LastMsgID := λ _ _, Some "last";
  e_Append := λ _ _ _, Some "id";
  e_GetMessageTarget := λ _, None;
  e_now := λ _, 0;
  e_time := λ _, "2024-01-01T00:00:00.000Z";
  e_ParsePrefix := λ p, mkPrefix p "" "";
  e_srvPrefix := mkPrefix "soju.im" "" "";
  e_saslStart := λ _, None;
  e_saslNext := λ _ _, None
|}.

Definition demo_network : dbNetwork := MkNetwork 1 "" "irc.example.org" "" "" "" "" [] "" emptySASL true true.

Definition demo_messages : list Message :=
  [msg RPL_WELCOME ["alice"; "hi"]; msg_from (mkPrefix "alice" "a" "h") "JOIN" ["#go"];
   msg_from (mkPrefix "bob" "b" "h") "JOIN" ["#go"];
   msg_from (mkPrefix "NickServ" "n" "h") "PRIVMSG" ["alice"; "your password"];
   msg_from (mkPrefix "bob" "b" "h") "PRIVMSG" ["#go"; "hello"]].

(** The logged messages of a trace. *)
Definition logged (s : ustate) : list (string * string) :=
  omap (λ a, match a with Append e m => Some (e, Command m) | _ => None end) (trace s).

(** The second JOIN is refused for want of a parameter, and the loop goes on. *)
Definition demo_faulty : list Message := take 2 demo_messages ++ [msg_from (mkPrefix "bob" "b" "h") "JOIN" []] ++ drop 2 demo_messages.

Lemma handleMessages_invariant_witness :
  let s := @handleMessages demo_env latin1_tables demo_messages (newConnection demo_network []) in
  let s' := @handleLogged demo_env latin1_tables demo_faulty (newConnection demo_network []) in
  s.2 = Ok tt ∧ uwf s.1 ∧ uwf s'.1 ∧ logged s.1 = logged s'.1 ∧ logged s.1 = [("#go", "JOIN"); ("#go", "JOIN"); ("#go", "PRIVMSG")].
Proof.
  split_and!.
  - vm_compute. reflexivity.
  - exact (proj1 (proj1 (@handleMessages_invariant demo_env latin1_tables demo_messages _ (newConnection_uwf _ _)))).
  - exact (proj1 (proj2 (@handleMessages_invariant demo_env latin1_tables demo_faulty _ (newConnection_uwf _ _)))).
  - vm_compute. reflexivity.
  - vm_compute. reflexivity.
Defined.
