(* ===== verification/UpstreamIdent.v ===== *)
(** * The identity of a network

    No message of a server changes the ID or the name of its network, or whether it is enabled.
    The handlers are unfolded by a hint database, and the changes of the state are solved one by
    one: only the SASL credentials of the record are ever written. *)

From S2P Require Import Prelude GoStrings GoUnicode IrcMessage CaseMapping Membership Modes WhoX Base64.
From S2P Require Import Effects GenMsg Caps Database Highlight Upstream UpstreamHandlers UpstreamInv.

Open Scope string_scope.
Open Scope list_scope.
Open Scope Z_scope.

Create HintDb upstream.

Definition net_identity (n : ustate) : Z * string * bool :=
  (nID (net_record n), GetName (net_record n), nEnabled (net_record n)).

Section net_identity.
Context `{E : env} `{UnicodeTables} (i : Z * string * bool).

Abbreviation same := (preserves (λ n, net_identity n = i)).

Ltac same_modify := apply preserves_modify; intros ? ?; cbn; assumption.
Ltac pres_more ::=
  match goal with
  | |- preserves _ (getChannel _ ≫= _) => apply preserves_bind_getChannel; intros ? ? ? ?
  | |- preserves _ (forEachDownstreamByID _ _) => unfold forEachDownstreamByID
  | |- preserves _ (forEachDownstream _) => unfold forEachDownstream
  | |- preserves _ (modify _) => same_modify
  end.

Lemma same_emit a : same (emit a).
Proof. same_modify. Qed.
#[local] Hint Resolve same_emit : pres.
Lemma same_send_dc dc c : same (send_dc dc c).
Proof. apply same_emit. Qed.
Lemma same_SendMessage m : same (SendMessage_uc m).
Proof. unfold SendMessage_uc. pres. Qed.
#[local] Hint Resolve same_send_dc same_SendMessage : pres.
Lemma same_appendLog entity m : same (appendLog entity m).
Proof. unfold appendLog. pres. Qed.
#[local] Hint Resolve same_appendLog : pres.

#[local] Hint Unfold net_updateCasemapping put_net_channel net_detach net_attach net_isHighlight detachedMessageNeedsRelay
  autoSaveSASLPlain handleSupportedCaps updateCaps handleCapAck handle_PING handleDetachedMessage handle_PRIVMSG handle_CAP
  abort_AUTHENTICATE handle_AUTHENTICATE set_account_prefix handle_LOGGEDIN handle_LOGGEDOUT handle_VISIBLEHOST
  handle_SASL_end handle_REGISTER handle_WELCOME handle_MYINFO handle_isupport_token handle_ISUPPORT handle_ENDOFMOTD
  handle_BATCH handle_NICK handle_SETNAME handle_CHGHOST for_channel join_user join_channel handle_JOIN leave_channel remove_member
  part_channel handle_PART handle_KICK handle_QUIT handle_RPL_TOPIC handle_TOPIC apply_modes apply_user_modes handle_MODE
  handle_UMODEIS handle_CHANNELMODEIS handle_CREATIONTIME handle_TOPICWHOTIME handle_pending_reply handle_RPL_LIST
  handle_LISTEND handle_NAMREPLY handle_ENDOFNAMES cache_who handle_WHOREPLY handle_WHOSPCRPL handle_ENDOFWHO
  handle_WHOIS_reply handle_ENDOFWHOIS handle_INVITE handle_INVITING handle_MONONLINE handle_MONLISTFULL handle_AWAY
  handle_ACCOUNT handle_NOSUCHNICK finish_command handle_UNKNOWNERROR handle_FAIL handle_initial_burst handle_ERROR
  handle_registration_error handle_NICKNAMEINUSE getChannel put_channel forwardMessage forwardMsgByID SendMessageLabeled
  set_pending sendNextPendingCommand enqueueCommand currentPendingCommand dequeueCommand cacheUserInfo forget_user produce
  updateChannelAutoDetach updateAway updateMonitor stopRegainNickTimer startRegainNickTimer not_detached : upstream.

Ltac pres_more ::=
  match goal with
  | |- preserves _ (getChannel _ ≫= _) => apply preserves_bind_getChannel; intros ? ? ? ?
  | |- preserves _ (forEachDownstreamByID _ _) => unfold forEachDownstreamByID
  | |- preserves _ (forEachDownstream _) => unfold forEachDownstream
  | |- preserves _ (modify _) => same_modify
  | |- preserves _ ?m => solve [eauto 2 with pres nocore]
  | |- preserves _ ?m => progress autounfold with upstream
  end.

(** Every case of the dispatch. *)
Lemma same_dispatch m c : same (dispatch m c).
Proof.
  unfold dispatch. repeat (match goal with |- same (if ?b then _ else _) => destruct b; [solve [pres]|] end). pres.
Qed.
#[local] Hint Resolve same_dispatch : pres.

Lemma same_handleMessage m : same (handleMessage m).
Proof. unfold handleMessage. pres. Qed.
#[local] Hint Resolve same_handleMessage : pres.
Lemma same_handleMessages l : same (handleMessages l).
Proof. induction l as [|m l IH]; cbn [handleMessages]; pres. Qed.

(** ** The other events of a connection *)

Lemma same_updateAway : same updateAway.
Proof. pres. Qed.
Lemma same_updateMonitor : same updateMonitor.
Proof. pres. Qed.
Lemma same_tryRegainNick n : same (tryRegainNick n).
Proof. unfold tryRegainNick. pres. Qed.
Lemma same_cancel id : same (cancelPendingCommandsByDownstreamID id).
Proof. unfold cancelPendingCommandsByDownstreamID. pres. Qed.
Lemma same_detach ch : same (net_detach ch).
Proof. pres. Qed.
Lemma same_attach ch : same (net_attach ch).
Proof. pres. Qed.
Lemma same_autoDetach name : same (updateChannelAutoDetach name).
Proof. pres. Qed.
Lemma same_put_net_channel ch : same (put_net_channel ch).
Proof. pres. Qed.
Lemma same_connected : same upstream_connected.
Proof. unfold upstream_connected. pres. Qed.
Lemma same_disconnected found : same (handleUpstreamDisconnected found).
Proof. unfold handleUpstreamDisconnected, abortPendingCommands, abort_reply. pres. Qed.
Lemma same_register : same register_uc.
Proof. unfold register_uc. pres. Qed.
Lemma same_runUntilRegistered msgs : same (runUntilRegistered msgs).
Proof.
  assert (∀ m, same (wrap_registration (handleMessage m))) as Hwrap.
  { intros m s Hs. unfold wrap_registration. pose proof (same_handleMessage m s Hs) as Hm.
    by destruct (handleMessage m s) as [s' [?|[]|?]]. }
  induction msgs as [|m msgs IH]; cbn [runUntilRegistered]; pres.
Qed.
End net_identity.
