(* ===== verification/UpstreamMembers.v ===== *)
(** * Upstream connections: who is in which channel

    The member lists the bouncer keeps refine the abstract relation between channels and
    nicknames, both up to case, that JOIN, PART, KICK, QUIT and NICK describe. *)

From S2P Require Import Prelude GoStrings GoUnicode IrcMessage CaseMapping Membership Modes WhoX Base64.
From S2P Require Import Effects GenMsg Caps Database Highlight Upstream UpstreamHandlers UpstreamInv.

Import CMMFacts.

Open Scope string_scope.
Open Scope list_scope.
Open Scope Z_scope.

Ltac runs_more ::=
  match goal with
  | |- runs _ (forEachDownstream _) => unfold forEachDownstream
  end.

(** ** What the other operations leave alone *)

(** The channels, the casemapping and our nickname. *)
Definition frame (chs : CaseMappingMap upstreamChannel) (cm : CaseMapping) (n : string) (s : ustate) : Prop :=
  channels s = chs ∧ net_casemap s = cm ∧ nick s = n.

Section frame.
Context `{E : env} `{UnicodeTables} (chs : CaseMappingMap upstreamChannel) (cm : CaseMapping) (n : string).

Abbreviation fr := (runs (frame chs cm n)).

Lemma fr_emit a : fr (emit a).
Proof. unfold emit. do_runs. Qed.
#[local] Hint Resolve fr_emit : runs.
Lemma fr_send_dc dc c : fr (send_dc dc c).
Proof. unfold send_dc. do_runs. Qed.
Lemma fr_SendMessage m : fr (SendMessage_uc m).
Proof. unfold SendMessage_uc. do_runs. Qed.
#[local] Hint Resolve fr_send_dc fr_SendMessage : runs.
Lemma fr_forward m : fr (forwardMessage m).
Proof. unfold forwardMessage. do_runs. Qed.
Lemma fr_cache_user m info : m ≠ "" → fr (cacheUserInfo m info).
Proof. intros Hm. unfold cacheUserInfo. rewrite decide_False by done. do_runs. Qed.
Lemma fr_forget u : fr (forget_user u).
Proof. unfold forget_user. do_runs. Qed.
Lemma fr_appendLog e m : fr (appendLog e m).
Proof. unfold appendLog. do_runs. Qed.
#[local] Hint Resolve fr_forward fr_forget fr_appendLog : runs.
Lemma fr_produce t m o b : fr (produce t m o b).
Proof. unfold produce. do_runs. Qed.
Lemma fr_updateMonitor : fr updateMonitor.
Proof. unfold updateMonitor. do_runs. Qed.
End frame.
#[export] Hint Resolve fr_emit fr_send_dc fr_SendMessage fr_forward fr_forget fr_appendLog fr_produce
  fr_updateMonitor : runs.

(** ** The abstract state: the mapped nicknames of each mapped channel name *)

Abbreviation roster_t := (gmap string (gset string)).

Definition members (ch : upstreamChannel) : gset string := dom (cmm_m (chMembers ch)).
Definition roster_of (chs : CaseMappingMap upstreamChannel) : roster_t := (λ e, members (value e)) <$> cmm_m chs.
Definition roster (s : ustate) : roster_t := roster_of (channels s).

Definition spec_join (self : bool) (nickCM : string) (chCM : string) (r : roster_t) : option roster_t :=
  if self then Some (<[chCM := ∅]> r)
  else ms ← r !! chCM; Some (<[chCM := {[nickCM]} ∪ ms]> r).

Definition spec_leave (self : bool) (nickCM : string) (chCM : string) (r : roster_t) : option roster_t :=
  if self then Some (delete chCM r)
  else ms ← r !! chCM; Some (<[chCM := ms ∖ {[nickCM]}]> r).

Definition spec_quit (nickCM : string) (r : roster_t) : roster_t := (λ ms, ms ∖ {[nickCM]}) <$> r.

Definition rename (oldCM newCM : string) (ms : gset string) : gset string :=
  if decide (oldCM ∈ ms) then {[newCM]} ∪ ms ∖ {[oldCM]} else ms.
Definition spec_nick (oldCM newCM : string) (r : roster_t) : roster_t := rename oldCM newCM <$> r.

(** A comma-separated list of channels, up to the first unknown one. *)
Fixpoint spec_channels (f : string → roster_t → option roster_t) (l : list string) (r : roster_t) :
    roster_t * bool :=
  match l with
  | [] => (r, true)
  | chCM :: l' => match f chCM r with Some r' => spec_channels f l' r' | None => (r, false) end
  end.

Lemma dom_members_Set cm (ms : CaseMappingMap MembershipSet) n v :
  casemap ms = cm → dom (cmm_m (CMM.Set_ ms n v)) = {[cm_apply cm n]} ∪ dom (cmm_m ms).
Proof. intros <-. unfold CMM.Set_. case_match; cbn; apply dom_insert_L. Qed.

Lemma dom_members_Del cm (ms : CaseMappingMap MembershipSet) n :
  casemap ms = cm → dom (cmm_m (CMM.Del ms n)) = dom (cmm_m ms) ∖ {[cm_apply cm n]}.
Proof. intros <-. cbn. apply dom_delete_L. Qed.

Lemma roster_Set cm chs name ch :
  casemap chs = cm → roster_of (CMM.Set_ chs name ch) = <[cm_apply cm name := members ch]> (roster_of chs).
Proof. intros <-. unfold roster_of, CMM.Set_. case_match; cbn; by rewrite fmap_insert. Qed.

Lemma roster_Del cm chs name :
  casemap chs = cm → roster_of (CMM.Del chs name) = delete (cm_apply cm name) (roster_of chs).
Proof. intros <-. unfold roster_of. cbn. by rewrite fmap_delete. Qed.

Lemma roster_Get cm chs name :
  casemap chs = cm → roster_of chs !! cm_apply cm name = members <$> CMM.Get chs name.
Proof.
  intros <-. unfold roster_of, CMM.Get. rewrite lookup_fmap. by destruct (cmm_m chs !! _).
Qed.

(** The roster, with the maps keyed by [cm]. *)
Record tracks (r : roster_t) (cm : CaseMapping) (n : string) (s : ustate) : Prop := {
  tr_roster : roster s = r;
  tr_ok : chans_ok (Some cm) (channels s);
  tr_cm : net_casemap s = cm;
  tr_nick : nick s = n
}.

Lemma tracks_casemap r cm n s : tracks r cm n s → casemap (channels s) = cm.
Proof. intros [_ [[_ Hc] _] _ _]. auto. Qed.

(** Operations that leave the channels alone. *)
Lemma runs_tracks {A} (m : M A) r cm n :
  (∀ chs, runs (frame chs cm n) m) → runs (tracks r cm n) m.
Proof.
  intros Hm s [Hr Hok Hcm Hn]. destruct (Hm (channels s) s) as (s' & a & Em & Hc & Hcm' & Hn'); [done|].
  exists s', a. split; [done|]. split; [|by rewrite Hc|done|done]. unfold roster. by rewrite Hc.
Qed.

(** Rewriting with the result of a loop, up to conversion. *)
Ltac use_loop H :=
  match type of H with
  | _ = ?r => match goal with |- context [foreach ?b ?l ?s] =>
      replace (foreach b l s) with r by (symmetry; exact H) end
  end.

Section members.
Context `{E : env} `{UnicodeTables} (cm : CaseMapping) (n : string).

(** Replacing a channel by one with the same members. *)
Lemma tracks_put_channel r name ch0 ch s :
  tracks r cm n s → CMM.Get (channels s) name = Some ch0 → chMembers ch = chMembers ch0 →
  ∃ s', put_channel name ch s = (s', Ok tt) ∧ tracks r cm n s'.
Proof.
  intros Ht Hg Hch. eexists. split; [reflexivity|]. pose proof (tracks_casemap _ _ _ _ Ht) as Hcc.
  destruct Ht as [Hr Hok Hcm Hn]. split; cbn; try done.
  - unfold roster. cbn. rewrite (roster_Set cm) by done. unfold members. rewrite Hch. rewrite <-Hr.
    apply insert_id. unfold roster. rewrite roster_Get by done. by rewrite Hg.
  - apply chans_ok_Set; [done|]. rewrite Hch. by eapply chans_ok_Get.
Qed.

Lemma tracks_autoDetach r name : runs (tracks r cm n) (updateChannelAutoDetach name).
Proof.
  intros s Ht. unfold updateChannelAutoDetach, mbind, M_bind, gets, Datatypes.id.
  destruct (CMM.Get (channels s) name) as [uch|] eqn:Eg; [|by exists s, tt].
  destruct (CMM.Get (net_channels s) name) as [ch|]; [|by exists s, tt].
  destruct (cDetached ch); [by exists s, tt|].
  destruct (tracks_put_channel r name uch (updateAutoDetach (cDetachAfter ch) uch) s) as (s' & Hs' & Ht');
    [done..|]. by exists s', tt.
Qed.

(** The end of a case: nothing more happens to the channels. *)
Lemma tracks_produce r t m : runs (tracks r cm n) (produce t m 0 false).
Proof. apply runs_tracks. intros chs. apply fr_produce. Qed.
Lemma tracks_forget r {A} (f : A → string) l : runs (tracks r cm n) (foreach (λ e, forget_user (f e)) l).
Proof. apply runs_tracks. intros chs. apply runs_foreach. intros x. apply fr_forget. Qed.
Lemma tracks_send r m : runs (tracks r cm n) (SendMessage_uc m).
Proof. apply runs_tracks. intros chs. apply fr_SendMessage. Qed.

(** The outcome of one channel of a JOIN or PART against its specification. *)
Definition outcome (o : option roster_t) (r : roster_t) (res : ustate * res goerr unit) : Prop :=
  match o with
  | Some r' => ∃ s', res = (s', Ok tt) ∧ tracks r' cm n s'
  | None => ∃ s' e, res = (s', Err e) ∧ tracks r cm n s'
  end.

Lemma then_runs o r (m : M unit) (k : unit → M unit) s :
  outcome o r (m s) → (∀ r', runs (tracks r' cm n) (k tt)) → outcome o r ((m ≫= k) s).
Proof.
  intros Ho Hk. unfold mbind, M_bind. destruct o as [r'|]; simpl in *.
  - destruct Ho as (s' & -> & Ht). destruct (Hk r' s' Ht) as (s'' & [] & -> & Ht'). eauto.
  - destruct Ho as (s' & e & -> & Ht). eauto.
Qed.

Lemma isOurNick_tracks r s x : tracks r cm n s → isOurNick s x = bool_decide (cm_apply cm n = cm_apply cm x).
Proof. intros [_ _ Hcm Hn]. unfold isOurNick, equalCasemap. by rewrite Hcm, Hn. Qed.

Lemma getChannel_spec name s :
  getChannel name s = match CMM.Get (channels s) name with
                      | Some ch => (s, Ok ch)
                      | None => (s, Err (Errorf "unknown channel %q"))
                      end.
Proof. unfold getChannel, mbind, M_bind, gets. by destruct (CMM.Get (channels s) name). Qed.

(** Storing back a channel whose members changed. *)
Lemma tracks_put_members r name ch s :
  tracks r cm n s → map_ok (Some cm) (chMembers ch) →
  tracks (<[cm_apply cm name := members ch]> r) cm n (put_channel name ch s).1.
Proof.
  intros Ht Hch. pose proof (tracks_casemap _ _ _ _ Ht) as Hcc. destruct Ht as [<- Hok Hcm Hn].
  split; cbn; try done.
  - unfold roster. cbn. by rewrite (roster_Set cm).
  - by apply chans_ok_Set.
Qed.

Lemma join_channel_spec r m ch s :
  tracks r cm n s →
  outcome (spec_join (bool_decide (cm_apply cm n = cm_apply cm (src_name m))) (cm_apply cm (src_name m))
             (cm_apply cm ch) r) r (join_channel m ch s).
Proof.
  intros Ht. pose proof (tracks_casemap _ _ _ _ Ht) as Hcc. unfold join_channel.
  unfold mbind at 1, M_bind at 1, gets, Datatypes.id. rewrite (isOurNick_tracks r) by done.
  apply then_runs; [|intros; apply tracks_produce]. case_bool_decide; unfold spec_join.
  - apply (then_runs (Some _)); [|intros r'; apply runs_bind; [apply tracks_autoDetach|intros; apply tracks_send]].
    eexists. split; [reflexivity|].
    pose proof (tracks_put_members r ch (newUpstreamChannel s ch) s Ht) as Hput. apply Hput.
    apply map_ok_New. intros c [= <-]. apply (tr_cm _ _ _ _ Ht).
  - unfold mbind, M_bind. rewrite getChannel_spec.
    rewrite <-(tr_roster _ _ _ _ Ht). unfold roster. rewrite (roster_Get cm) by done.
    destruct (CMM.Get (channels s) ch) as [uch|] eqn:Eg; simpl.
    + eexists. split; [reflexivity|]. assert (map_ok (Some cm) (chMembers uch)) as Hm
        by (eapply chans_ok_Get; [apply (tr_ok _ _ _ _ Ht)|done]).
      pose proof (tracks_put_members r ch
        (set_chMembers (CMM.Set_ (chMembers uch) (src_name m) []) uch) s Ht) as Hput.
      rewrite <-(tr_roster _ _ _ _ Ht) in Hput. unfold members in Hput. cbn [chMembers set_chMembers] in Hput.
      rewrite (dom_members_Set cm) in Hput by (by apply Hm). apply Hput. by apply map_ok_Set.
    + eexists _, _. split; [reflexivity|]. by rewrite <-(tr_roster _ _ _ _ Ht) in Ht.
Qed.

Lemma leave_spec (self : bool) r ch user s :
  tracks r cm n s →
  outcome (spec_leave self (cm_apply cm user) (cm_apply cm ch) r) r
    ((if self then leave_channel ch else remove_member ch user) s).
Proof.
  intros Ht. pose proof (tracks_casemap _ _ _ _ Ht) as Hcc. destruct self; unfold spec_leave.
  - unfold leave_channel, mbind, M_bind, gets. destruct (CMM.Get (channels s) ch) as [uch|] eqn:Eg.
    + destruct (tracks_forget (delete (cm_apply cm ch) r) originalKey (CMM.Entries (chMembers uch))
        (set_channels (CMM.Del (channels s) ch) s)) as (s' & [] & Hs' & Ht').
      * destruct Ht as [<- Hok ? ?]. split; cbn; [|by apply chans_ok_Del|done|done].
        exact (roster_Del cm (channels s) ch Hcc).
      * exists s'. split; [exact Hs'|done].
    + exists s. split; [done|]. rewrite delete_id; [done|].
      rewrite <-(tr_roster _ _ _ _ Ht). unfold roster. rewrite (roster_Get cm) by done. by rewrite Eg.
  - unfold remove_member, mbind, M_bind. rewrite getChannel_spec.
    rewrite <-(tr_roster _ _ _ _ Ht) at 1. unfold roster. rewrite (roster_Get cm) by done.
    destruct (CMM.Get (channels s) ch) as [uch|] eqn:Eg; simpl; [|by eexists _, _].
    assert (map_ok (Some cm) (chMembers uch)) as Hm by (eapply chans_ok_Get; [apply (tr_ok _ _ _ _ Ht)|done]).
    pose proof (tracks_put_members r ch (set_chMembers (CMM.Del (chMembers uch) user) uch) s Ht) as Hput.
    unfold members in Hput. cbn [chMembers set_chMembers] in Hput.
    rewrite (dom_members_Del cm) in Hput by (by apply Hm).
    specialize (Hput (map_ok_Del _ _ _ Hm)).
    destruct (runs_tracks (forget_user user) _ cm n ltac:(intros; apply fr_forget) _ Hput) as (s' & [] & Hs' & Ht').
    exists s'. split; [exact Hs'|done].
Qed.

Lemma part_channel_spec r m ch s :
  tracks r cm n s →
  outcome (spec_leave (bool_decide (cm_apply cm n = cm_apply cm (src_name m))) (cm_apply cm (src_name m))
             (cm_apply cm ch) r) r (part_channel m ch s).
Proof.
  intros Ht. unfold part_channel. unfold mbind at 1, M_bind at 1, gets, Datatypes.id.
  rewrite (isOurNick_tracks r) by done. apply then_runs; [|intros; apply tracks_produce]. by apply leave_spec.
Qed.

(** A list of channels. *)
Lemma channels_spec (f : string → roster_t → option roster_t) (body : string → M unit) l r s :
  (∀ ch r s, tracks r cm n s → outcome (f (cm_apply cm ch) r) r (body ch s)) →
  tracks r cm n s →
  let '(r', ok) := spec_channels f (cm_apply cm <$> l) r in
  ∃ s' res, foreach body l s = (s', res) ∧ tracks r' cm n s' ∧
            if ok then res = Ok tt else ∃ e, res = Err e.
Proof.
  intros Hbody. revert r s. induction l as [|ch l IH]; intros r s Ht; [by exists s, (Ok tt)|].
  rewrite fmap_cons. cbn [spec_channels foreach]. specialize (Hbody ch r s Ht).
  unfold mbind, M_bind. destruct (f (cm_apply cm ch) r) as [r'|]; simpl in Hbody.
  - destruct Hbody as (s' & -> & Ht'). apply (IH r' s' Ht').
  - destruct Hbody as (s' & e & -> & Ht'). exists s', (Err e). eauto.
Qed.

(** ** Loops over the channels *)

Definition key_of (e : caseMappingEntry upstreamChannel) : string := cm_apply cm (originalKey e).

Definition spec_each (g : gset string → gset string) (es : list (caseMappingEntry upstreamChannel))
    (r : roster_t) : roster_t :=
  foldl (λ r e, <[key_of e := g (members (value e))]> r) r es.

Lemma spec_each_lookup g es r k :
  NoDup (key_of <$> es) →
  spec_each g es r !! k =
  match List.find (λ e, bool_decide (key_of e = k)) es with
  | Some e => Some (g (members (value e)))
  | None => r !! k
  end.
Proof.
  unfold spec_each. revert r. induction es as [|e es IH]; intros r Hnd; [done|].
  rewrite fmap_cons in Hnd. apply NoDup_cons in Hnd as [Hni Hnd]. cbn [foldl List.find]. rewrite IH by done.
  case_bool_decide as Hk; [|destruct (List.find _ es); [done|by rewrite lookup_insert_ne]].
  destruct (List.find _ es) as [e'|] eqn:Ef; [|by rewrite Hk, lookup_insert_eq].
  apply find_some in Ef as [He' Hk']. bool_to_prop. exfalso. apply Hni, list_elem_of_fmap.
  exists e'. split; [congruence|]. by apply list_elem_of_In.
Qed.

Lemma spec_each_all g chs :
  map_ok (Some cm) chs → spec_each g (CMM.Entries chs) (roster_of chs) = g <$> roster_of chs.
Proof.
  intros [Hwf Hcm]. specialize (Hcm cm eq_refl). apply map_eq. intros k.
  assert (NoDup (key_of <$> CMM.Entries chs)) as Hnd.
  { pose proof (Entries_nodup chs Hwf) as Hn. by rewrite Hcm in Hn. }
  rewrite spec_each_lookup by done. unfold roster_of. rewrite !lookup_fmap.
  destruct (List.find _ (CMM.Entries chs)) as [e|] eqn:Ef.
  - apply find_some in Ef as [He Hk]. bool_to_prop. apply list_elem_of_In, elem_of_Entries in He as (k' & He).
    pose proof (Hwf _ _ He) as Hk'. rewrite Hcm in Hk'. unfold key_of in Hk.
    assert (k' = k) as -> by congruence. by rewrite He.
  - destruct (cmm_m chs !! k) as [e|] eqn:Ek; [|done]. exfalso.
    assert (e ∈ CMM.Entries chs) as He by (apply elem_of_Entries; eauto).
    apply list_elem_of_In in He. pose proof (find_none _ _ Ef e He) as Hn.
    cbv beta in Hn. bool_to_prop. apply Hn.
    unfold key_of. rewrite <-Hcm. by apply Hwf.
Qed.

Lemma foreach_entries (g : gset string → gset string) (body : caseMappingEntry upstreamChannel → M unit) es r s :
  (∀ e r s, tracks r cm n s → CMM.Get (channels s) (originalKey e) = Some (value e) →
    ∃ s', body e s = (s', Ok tt) ∧ tracks (<[key_of e := g (members (value e))]> r) cm n s' ∧
      ∀ k, k ≠ key_of e → cmm_m (channels s') !! k = cmm_m (channels s) !! k) →
  tracks r cm n s → NoDup (key_of <$> es) →
  (∀ e, e ∈ es → cmm_m (channels s) !! key_of e = Some e) →
  ∃ s', foreach body es s = (s', Ok tt) ∧ tracks (spec_each g es r) cm n s'.
Proof.
  intros Hbody. revert r s. induction es as [|e es IH]; intros r s Ht Hnd Hin; [by exists s|].
  rewrite fmap_cons in Hnd. apply NoDup_cons in Hnd as [Hni Hnd].
  destruct (Hbody e r s Ht) as (s1 & H1 & Ht1 & Hother).
  { unfold CMM.Get. rewrite (tracks_casemap _ _ _ _ Ht). fold (key_of e).
    rewrite (Hin e) by (by left). done. }
  destruct (IH (<[key_of e := g (members (value e))]> r) s1 Ht1 Hnd) as (s' & H2 & Ht2).
  { intros e' He'. rewrite Hother; [apply Hin; by right|]. intros Hk. apply Hni. rewrite <-Hk.
    by apply list_elem_of_fmap_2. }
  exists s'. split; [|done]. cbn [foreach]. unfold mbind, M_bind. by rewrite H1.
Qed.

(** The loop over all the channels of the connection. *)
Lemma foreach_channels g body r s :
  (∀ e r s, tracks r cm n s → CMM.Get (channels s) (originalKey e) = Some (value e) →
    ∃ s', body e s = (s', Ok tt) ∧ tracks (<[key_of e := g (members (value e))]> r) cm n s' ∧
      ∀ k, k ≠ key_of e → cmm_m (channels s') !! k = cmm_m (channels s) !! k) →
  tracks r cm n s →
  ∃ s', foreach body (CMM.Entries (channels s)) s = (s', Ok tt) ∧ tracks (g <$> r) cm n s'.
Proof.
  intros Hbody Ht. destruct (tr_ok _ _ _ _ Ht) as [Hok _]. pose proof Hok as [Hwf Hcm].
  specialize (Hcm cm eq_refl).
  destruct (foreach_entries g body (CMM.Entries (channels s)) r s Hbody Ht) as (s' & Hs' & Ht').
  - pose proof (Entries_nodup _ Hwf) as Hn. by rewrite Hcm in Hn.
  - intros e (k & He)%elem_of_Entries. pose proof (Hwf _ _ He) as Hk. rewrite Hcm in Hk.
    unfold key_of. by rewrite Hk.
  - exists s'. split; [done|]. rewrite <-(tr_roster _ _ _ _ Ht) in Ht' |- *.
    unfold roster in *. by rewrite spec_each_all in Ht'.
Qed.

(** One channel whose members change, followed by a log entry. *)
Lemma entry_body_put r s e (f : upstreamChannel → upstreamChannel) entity m :
  tracks r cm n s → map_ok (Some cm) (chMembers (f (value e))) →
  ∃ s', (put_channel (originalKey e) (f (value e)) ;; _ ← appendLog entity m; skip) s = (s', Ok tt) ∧
    tracks (<[key_of e := members (f (value e))]> r) cm n s' ∧
    ∀ k, k ≠ key_of e → cmm_m (channels s') !! k = cmm_m (channels s) !! k.
Proof.
  intros Ht Hok. pose proof (tracks_put_members r (originalKey e) (f (value e)) s Ht Hok) as Hput.
  set (s1 := (put_channel (originalKey e) (f (value e)) s).1) in *.
  destruct (fr_appendLog (channels s1) cm n entity m s1) as (s' & id & Ha & Hc & Hcm & Hn).
  { destruct Hput. by split_and!. }
  exists s'. split_and!.
  - unfold mbind, M_bind. change (put_channel (originalKey e) (f (value e)) s) with (s1, Ok (E:=goerr) tt).
    cbv beta iota. by rewrite Ha.
  - destruct Hput as [Hr Hk ? ?]. split; [|by rewrite Hc|done|done]. unfold roster. by rewrite Hc.
  - intros k Hk. rewrite Hc. subst s1. cbn. unfold CMM.Set_. rewrite (tracks_casemap _ _ _ _ Ht).
    fold (key_of e). case_match; cbn; by rewrite lookup_insert_ne.
Qed.

(** What a handler promises about the roster and about its result. *)
Definition refines (n' : string) (spec : roster_t * bool) (out : ustate * res goerr unit) : Prop :=
  tracks spec.1 cm n' out.1 ∧ if spec.2 then out.2 = Ok tt else ∃ e, out.2 = Err e.

Lemma refines_channels (f : string → roster_t → option roster_t) body l r s :
  (∀ ch r s, tracks r cm n s → outcome (f (cm_apply cm ch) r) r (body ch s)) →
  tracks r cm n s → refines n (spec_channels f (cm_apply cm <$> l) r) (foreach body l s).
Proof.
  intros Hbody Ht. pose proof (channels_spec f body l r s Hbody Ht) as Hc.
  destruct (spec_channels f (cm_apply cm <$> l) r) as [r' ok]. destruct Hc as (s' & res & -> & Ht' & Hres).
  by split.
Qed.

Lemma parse_ok m k ps : parseMessageParams m k = Ok ps → ps = take k (Params m).
Proof. unfold parseMessageParams. case_match; congruence. Qed.

Lemma handle_JOIN_spec r m chans rest s :
  tracks r cm n s → src_name m ≠ "" → Params m = chans :: rest →
  refines n (spec_channels (spec_join (bool_decide (cm_apply cm n = cm_apply cm (src_name m)))
                              (cm_apply cm (src_name m))) (cm_apply cm <$> Split chans ",") r)
    (handle_JOIN m s).
Proof.
  intros Ht Hsrc Hps. unfold handle_JOIN, parseMessageParams. rewrite Hps. cbn [length Nat.ltb Nat.leb].
  unfold mbind, M_bind, lift, gets, Datatypes.id.
  destruct (runs_tracks (cacheUserInfo (src_name m) (join_user s m)) r cm n
    ltac:(intros; by apply fr_cache_user) s Ht) as (s1 & [] & -> & Ht1).
  cbn [take param nth]. apply refines_channels; [|done]. intros. by apply join_channel_spec.
Qed.

Lemma handle_PART_spec r m chans rest s :
  tracks r cm n s → Params m = chans :: rest →
  refines n (spec_channels (spec_leave (bool_decide (cm_apply cm n = cm_apply cm (src_name m)))
                              (cm_apply cm (src_name m))) (cm_apply cm <$> Split chans ",") r)
    (handle_PART m s).
Proof.
  intros Ht Hps. unfold handle_PART, parseMessageParams. rewrite Hps. cbn [length Nat.ltb Nat.leb].
  unfold mbind at 1, M_bind at 1, lift. cbn [take param nth]. apply refines_channels; [|done].
  intros. by apply part_channel_spec.
Qed.

Lemma handle_KICK_spec r m ch user rest s :
  tracks r cm n s → Params m = ch :: user :: rest →
  refines n (spec_channels (spec_leave (bool_decide (cm_apply cm n = cm_apply cm user))
                              (cm_apply cm user)) [cm_apply cm ch] r) (handle_KICK m s).
Proof.
  intros Ht Hps. unfold handle_KICK, parseMessageParams. rewrite Hps. cbn [length Nat.ltb Nat.leb].
  unfold mbind at 1, M_bind at 1, lift. cbn [take param nth].
  unfold mbind at 1, M_bind at 1, gets, Datatypes.id. rewrite (isOurNick_tracks r) by done.
  assert (outcome (spec_leave (bool_decide (cm_apply cm n = cm_apply cm user)) (cm_apply cm user)
    (cm_apply cm ch) r) r (((if bool_decide (cm_apply cm n = cm_apply cm user) then leave_channel ch
      else remove_member ch user) ;; produce ch m 0 false) s)) as Ho.
  { apply then_runs; [by apply leave_spec|intros; apply tracks_produce]. }
  cbn [spec_channels]. destruct (spec_leave _ _ _ _) as [r'|]; simpl in Ho.
  - destruct Ho as (s' & -> & Ht'). by split.
  - destruct Ho as (s' & e & -> & Ht'). split; [done|]. by exists e.
Qed.

Lemma skip_entry r s e g :
  tracks r cm n s → CMM.Get (channels s) (originalKey e) = Some (value e) → g (members (value e)) = members (value e) →
  ∃ s', skip s = (s', Ok tt) ∧ tracks (<[key_of e := g (members (value e))]> r) cm n s' ∧
    ∀ k, k ≠ key_of e → cmm_m (channels s') !! k = cmm_m (channels s) !! k.
Proof.
  intros Ht Hg Hm. exists s. split_and!; [done| |done]. rewrite Hm, insert_id; [done|].
  rewrite <-(tr_roster _ _ _ _ Ht). unfold roster, key_of.
  rewrite (roster_Get cm) by (by eapply tracks_casemap). by rewrite Hg.
Qed.

Lemma Has_members (ch : upstreamChannel) x :
  map_ok (Some cm) (chMembers ch) →
  CMM.Has (chMembers ch) x = bool_decide (cm_apply cm x ∈ members ch).
Proof.
  intros [_ Hc]. unfold CMM.Has, members. rewrite (Hc cm) by done. apply bool_decide_ext.
  by rewrite elem_of_dom.
Qed.

Lemma handle_QUIT_spec r m s :
  tracks r cm n s → refines n (spec_quit (cm_apply cm (src_name m)) r, true) (handle_QUIT m s).
Proof.
  intros Ht. unfold handle_QUIT. unfold mbind at 1, M_bind at 1, gets at 1.
  destruct (foreach_channels (λ ms, ms ∖ {[cm_apply cm (src_name m)]})
    (λ e, if CMM.Has (chMembers (value e)) (src_name m) then
      put_channel (originalKey e) (set_chMembers (CMM.Del (chMembers (value e)) (src_name m)) (value e)) ;;
      _ ← appendLog (chName (value e)) m; skip else skip) r s) as (s1 & H1 & Ht1); [|done|].
  - intros e r0 s0 Ht0 Hg. assert (map_ok (Some cm) (chMembers (value e))) as Hm
      by (eapply chans_ok_Get; [apply (tr_ok _ _ _ _ Ht0)|done]).
    rewrite Has_members by done. case_bool_decide.
    + pose proof (entry_body_put r0 s0 e
        (λ ch, set_chMembers (CMM.Del (chMembers ch) (src_name m)) ch) (chName (value e)) m Ht0) as Hb.
      unfold members in Hb at 1. cbn [chMembers set_chMembers] in Hb.
      rewrite (dom_members_Del cm) in Hb by (by apply Hm). apply Hb. by apply map_ok_Del.
    + apply (skip_entry _ _ _ (λ ms, ms ∖ {[cm_apply cm (src_name m)]})); [done..|]. set_solver.
  - unfold mbind at 1, M_bind at 1. use_loop H1. unfold mbind at 1, M_bind at 1, modify.
    unfold mbind at 1, M_bind at 1, gets.
    assert (tracks (spec_quit (cm_apply cm (src_name m)) r) cm n
      (set_users (CMM.Del (users s1) (src_name m)) s1)) as Ht2 by (by destruct Ht1).
    case_decide; [|by split].
    destruct (runs_tracks (forwardMessage m) _ cm n ltac:(intros; apply fr_forward) _ Ht2) as (s' & [] & -> & Ht').
    by split.
Qed.
End members.

Section nick.
Context `{E : env} `{UnicodeTables} (cm : CaseMapping).

Lemma handle_NICK_spec n r m newNick rest s :
  tracks r cm n s → src_name m ≠ "" → Params m = newNick :: rest →
  let me := bool_decide (cm_apply cm n = cm_apply cm (src_name m)) in
  refines cm (if me then newNick else n)
    (spec_nick (cm_apply cm (src_name m)) (cm_apply cm newNick) r, true) (handle_NICK m s).
Proof.
  intros Ht Hsrc Hps me. unfold handle_NICK, parseMessageParams. rewrite Hps. cbn [length Nat.ltb Nat.leb].
  unfold mbind at 1, M_bind at 1, lift. cbn [take param nth].
  unfold mbind at 1, M_bind at 1, gets at 1, Datatypes.id.
  rewrite (isOurNick_tracks cm n r) by done. fold me. clearbody me.
  set (n' := if me then newNick else n).
  (* our own nickname *)
  match goal with |- refines _ _ _ ((when me ?first ≫= ?k) s) =>
    assert (∃ s1, when me first s = (s1, Ok tt) ∧ tracks r cm n' s1) as (s1 & H1 & Ht1) end.
  { destruct me; [|by exists s]. unfold mbind, M_bind, modify, when, stopRegainNickTimer.
    destruct Ht, (equalCasemap s (pendingRegainNick s) newNick),
      (equalCasemap s (GetNick e_user (Some (net_record s))) newNick);
      eexists; (split; [reflexivity|]); by split. }
  unfold mbind at 1, M_bind at 1. rewrite H1. unfold mbind at 1, M_bind at 1, gets at 1.
  (* the channels *)
  destruct (foreach_channels cm n'
    (rename (cm_apply cm (src_name m)) (cm_apply cm newNick))
    (λ e, match CMM.Get (chMembers (value e)) (src_name m) with
      | Some memberships =>
        put_channel (originalKey e)
          (set_chMembers (CMM.Set_ (CMM.Del (chMembers (value e)) (src_name m)) newNick memberships) (value e)) ;;
        _ ← appendLog (chName (value e)) m; skip
      | None => skip end) r s1) as (s2 & H2 & Ht2); [|done|].
  - intros e r0 s0 Ht0 Hg. assert (map_ok (Some cm) (chMembers (value e))) as Hm
      by (eapply chans_ok_Get; [apply (tr_ok _ _ _ _ Ht0)|done]).
    pose proof (Has_members cm (value e) (src_name m) Hm) as Hh. rewrite Has_Get in Hh.
    destruct (CMM.Get (chMembers (value e)) (src_name m)) as [memberships|].
    + rewrite bool_decide_eq_true_2 in Hh by eauto. symmetry in Hh. bool_to_prop.
      pose proof (entry_body_put cm n' r0 s0 e (λ ch, set_chMembers
        (CMM.Set_ (CMM.Del (chMembers ch) (src_name m)) newNick memberships) ch) (chName (value e)) m Ht0) as Hb.
      unfold members in Hb at 1. cbn [chMembers set_chMembers] in Hb.
      rewrite (dom_members_Set cm), (dom_members_Del cm) in Hb by (by apply Hm).
      unfold rename. rewrite decide_True by done. apply Hb. by apply map_ok_Set, map_ok_Del.
    + rewrite bool_decide_eq_false_2 in Hh by (by intros []). symmetry in Hh. bool_to_prop.
      apply skip_entry; [done..|]. unfold rename. by rewrite decide_False.
  - unfold mbind at 1, M_bind at 1. use_loop H2. unfold mbind at 1, M_bind at 1.
    destruct (runs_tracks (cacheUserInfo (src_name m) (user_nick newNick)) _ cm n'
      ltac:(intros; by apply fr_cache_user) _ Ht2) as (s3 & [] & -> & Ht3).
    destruct (negb me).
    + destruct (runs_tracks (forwardMessage m) _ cm n' ltac:(intros; apply fr_forward) _ Ht3)
        as (s' & [] & -> & Ht'). by split.
    + assert (∀ chs, runs (frame chs cm n') (forEachDownstream (λ dc, send_dc dc updateNick) ;; updateMonitor)) as Hr.
      { intros chs. apply runs_bind; [apply runs_foreach; intros; apply fr_send_dc|intros; apply fr_updateMonitor]. }
      destruct (runs_tracks _ _ cm n' Hr _ Ht3) as (s' & [] & Hs' & Ht'). rewrite Hs'. by split.
Qed.

(** C2: The member lists refine the protocol's relation between channels and nicknames, both
    up to case: JOIN adds the source to the channels it lists (a channel we join starts
    empty), PART and KICK remove it, leaving a channel drops the channel, QUIT removes the
    nickname from every channel and NICK renames it in every channel where it is. The lists
    are processed in order up to the first channel we are not in, which is the only error. *)
Theorem roster_refinement n r m s :
  tracks r cm n s → src_name m ≠ "" →
  let srcCM := cm_apply cm (src_name m) in
  let me x := bool_decide (cm_apply cm n = cm_apply cm x) in
  (∀ chans rest, Params m = chans :: rest →
    refines cm n (spec_channels (spec_join (me (src_name m)) srcCM) (cm_apply cm <$> Split chans ",") r)
      (handle_JOIN m s) ∧
    refines cm n (spec_channels (spec_leave (me (src_name m)) srcCM) (cm_apply cm <$> Split chans ",") r)
      (handle_PART m s)) ∧
  (∀ ch user rest, Params m = ch :: user :: rest →
    refines cm n (spec_channels (spec_leave (me user) (cm_apply cm user)) [cm_apply cm ch] r)
      (handle_KICK m s)) ∧
  refines cm n (spec_quit srcCM r, true) (handle_QUIT m s) ∧
  (∀ newNick rest, Params m = newNick :: rest →
    refines cm (if me (src_name m) then newNick else n) (spec_nick srcCM (cm_apply cm newNick) r, true)
      (handle_NICK m s)).
Proof.
  intros Ht Hsrc srcCM me. split_and!.
  - intros chans rest Hps. split; [by eapply handle_JOIN_spec|by eapply handle_PART_spec].
  - intros ch user rest Hps. by eapply handle_KICK_spec.
  - by apply handle_QUIT_spec.
  - intros newNick rest Hps. by eapply handle_NICK_spec.
Qed.
End nick.

(** A connection that has joined no channel yet. *)
Definition as_alice : ustate := set_nick "alice" (newConnection demo_network []).

Lemma as_alice_tracks : tracks ∅ CaseMappingRFC1459 "alice" as_alice.
Proof.
  split; [reflexivity| |reflexivity..]. split.
  - apply map_ok_New. intros c [= <-]. reflexivity.
  - intros k e Hk. cbn in Hk. by rewrite lookup_empty in Hk.
Qed.

Lemma roster_refinement_witness :
  let m := msg_from (mkPrefix "Alice" "a" "h") "JOIN" ["#Go,#{rocq}"] in
  let s := @handle_JOIN demo_env m as_alice in
  s.2 = Ok tt ∧ roster s.1 = {["#go" := ∅; "#[rocq]" := ∅]}.
Proof.
  intros m s.
  destruct (@roster_refinement demo_env CaseMappingRFC1459 "alice" ∅ m as_alice as_alice_tracks
    ltac:(discriminate)) as (Hjoin & _).
  destruct (Hjoin "#Go,#{rocq}" [] eq_refl) as [[Ht Hok] _]. split; [exact Hok|].
  etransitivity; [exact (tr_roster _ _ _ _ Ht)|]. vm_compute. reflexivity.
Defined.
