(* ===== verification/UpstreamPending.v ===== *)
(** * Upstream connections: pending commands, labels, forwarding, fallback nicknames *)

From S2P Require Import Prelude GoStrings GoUnicode IrcMessage CaseMapping Membership Modes WhoX Base64.
From S2P Require Import Effects GenMsg Caps Database Highlight Upstream UpstreamHandlers UpstreamInv UpstreamMembers.

Open Scope string_scope.
Open Scope list_scope.
Open Scope Z_scope.

(** ** Commands in progress are queues *)

Definition request : Type := Z * string * Message.
Definition strip (p : pendingUpstreamCommand) : request := (pDownstreamID p, pDownstreamLabel p, pMsg p).
Definition request_params (r : request) : list string := Params r.2.

(** What happens to the pending commands of a connection: a client's request, the last
    message of a reply of the server, a client that goes away, the end of the connection. *)
Inductive pending_op :=
  | Enqueue (dc : downstreamView) (label : string) (m : Message)
  | Dequeue (cmd : string)
  | Cancel (downstreamID : Z)
  | Abort.

(** *** The specification: one queue per command *)

(** The requests answered, those sent to the server and those waiting, each in order. *)
Record fifo := Fifo { answered : list request; issued : list request; waiting : list request }.

Definition fifo_step (cmd : string) (f : fifo) (op : pending_op) : fifo :=
  let '(Fifo a i w) := f in
  match op with
  | Enqueue dc label m =>
    if decide (Command m = cmd) then
      let r := (dc_id dc, label, m) in
      Fifo a (i ++ if decide (w = []) then [r] else []) (w ++ [r])
    else f
  | Dequeue c =>
    if decide (c = cmd) then Fifo (a ++ take 1 w) (i ++ take 1 (drop 1 w)) (drop 1 w) else f
  | Cancel id => Fifo a i (take 1 w ++ filter (λ r : request, r.1.1 ≠ id) (drop 1 w))
  | Abort => Fifo a i []
  end.

Definition fifo_run (cmd : string) (ops : list pending_op) : fifo :=
  foldl (fifo_step cmd) (Fifo [] [] []) ops.

(** The requests of [ops] for the command [cmd]. *)
Definition enqueued (cmd : string) (ops : list pending_op) : list request :=
  omap (λ op, match op with
              | Enqueue dc label m => if decide (Command m = cmd) then Some (dc_id dc, label, m) else None
              | _ => None
              end) ops.

Definition keeps_requests (op : pending_op) : Prop :=
  match op with Cancel _ | Abort => False | _ => True end.

Lemma fifo_run_snoc cmd ops op : fifo_run cmd (ops ++ [op]) = fifo_step cmd (fifo_run cmd ops) op.
Proof. unfold fifo_run. by rewrite foldl_app. Qed.

Lemma enqueued_snoc cmd ops op : enqueued cmd (ops ++ [op]) = enqueued cmd ops ++ enqueued cmd [op].
Proof. apply omap_app. Qed.

Lemma take_drop_1 {A} (l : list A) : take 1 (drop 1 l) ++ drop 1 (drop 1 l) = drop 1 l.
Proof. apply take_drop. Qed.

Lemma fifo_run_sublist cmd ops :
  let f := fifo_run cmd ops in
  answered f ++ take 1 (waiting f) `sublist_of` issued f ∧
  issued f ++ drop 1 (waiting f) `sublist_of` enqueued cmd ops.
Proof.
  induction ops as [|op ops [IH1 IH2]] using rev_ind; [done|]. cbn zeta in *.
  rewrite fifo_run_snoc, enqueued_snoc. destruct (fifo_run cmd ops) as [a i w]. cbn in IH1, IH2.
  destruct op as [dc label m|c|id|]; cbn -[take drop]; [repeat case_decide; cbn -[take drop]..|];
    rewrite ?app_nil_r; try done.
  - subst w. rewrite drop_nil, take_nil, ?app_nil_r in *. cbn. rewrite ?app_nil_r.
    split; by apply sublist_app.
  - destruct w as [|x w]; [done|]. cbn in *. rewrite ?drop_0, ?take_0, app_assoc in *.
    split; [done|]. by apply sublist_app.
  - rewrite <-(app_assoc i), take_drop_1. split; [by apply sublist_app|done].
  - destruct w as [|x w]; [done|]. cbn in *. rewrite ?drop_0, ?take_0 in *. split; [done|]. etrans; [|exact IH2].
    apply sublist_app; [done|]. apply sublist_filter.
  - rewrite ?take_nil, ?drop_nil, ?app_nil_r.
    split; (etrans; [|eassumption]); by apply sublist_inserts_r.
Qed.

Lemma fifo_run_exact cmd ops :
  Forall keeps_requests ops →
  let f := fifo_run cmd ops in
  answered f ++ take 1 (waiting f) = issued f ∧ issued f ++ drop 1 (waiting f) = enqueued cmd ops.
Proof.
  induction ops as [|op ops IH] using rev_ind; [done|]. intros [Hok Hop]%Forall_app.
  rewrite Forall_singleton in Hop. specialize (IH Hok) as [IH1 IH2]. cbn zeta in *.
  rewrite fifo_run_snoc, enqueued_snoc. destruct (fifo_run cmd ops) as [a i w]. cbn in IH1, IH2.
  destruct op as [dc label m|c|id|]; [| |by destruct Hop..]; cbn -[take drop]; repeat case_decide; cbn -[take drop];
    rewrite ?app_nil_r; try done.
  - subst w. rewrite drop_nil, take_nil, ?app_nil_r in *. cbn. rewrite ?app_nil_r. by rewrite IH1, IH2.
  - destruct w as [|x w]; [done|]. cbn in *. rewrite ?drop_0, ?take_0 in *. by rewrite app_assoc, IH2.
  - rewrite <-(app_assoc i), take_drop_1. by rewrite IH1.
Qed.

(** *** The code *)

Section pending.
Context `{E : env}.

(** The parameters of the commands of this kind sent to the server. *)
Definition sent (cmd : string) (s : ustate) : list (list string) :=
  omap (λ a, match a with
             | ToServer m => if decide (Command m = cmd) then Some (Params m) else None
             | _ => None
             end) (trace s).

Definition pending_step (op : pending_op) : M (list (option downstreamView * Message)) :=
  match op with
  | Enqueue dc label m => enqueueCommand dc label m ;; mret []
  | Dequeue cmd =>
    '(dc, m) ← dequeueCommand cmd;
    mret (match m with Some m => [(dc, m)] | None => [] end)
  | Cancel id => cancelPendingCommandsByDownstreamID id ;; mret []
  | Abort => abortPendingCommands ;; mret []
  end.

(** The result lists the replies: the connection each one goes to and the request it answers. *)
Fixpoint pending_run (ops : list pending_op) : M (list (option downstreamView * Message)) :=
  match ops with
  | [] => mret []
  | op :: ops' => out ← pending_step op; rest ← pending_run ops'; mret (out ++ rest)
  end.

(** The requests the handlers of the clients make: of a supported command, with the parameter
    the reply to an aborted command names. *)
Definition request_ok (m : Message) : Prop :=
  supported_pending (Command m) = true ∧
  (Command m = "WHOIS" ∨ Command m = "REGISTER" ∨ Command m = "VERIFY" → Params m ≠ []).

Definition op_ok (op : pending_op) : Prop :=
  match op with Enqueue _ _ m => request_ok m | _ => True end.

(** When a request is made, the command in progress was sent at most 30 seconds ago. *)
Definition timely_op (op : pending_op) (s : ustate) : bool :=
  match op with
  | Enqueue _ _ m =>
    match head (pending s (Command m)) ≫= pSentAt with
    | Some t => e_now (trace s) - t <=? pendingTimeout
    | None => true
    end
  | _ => true
  end.

Fixpoint timely (ops : list pending_op) (s : ustate) : bool :=
  match ops with
  | [] => true
  | op :: ops' => timely_op op s && timely ops' (pending_step op s).1
  end.

Definition route (r : request) : option downstreamView * Message := (downstreamByID r.1.1, r.2).

(** The queue of a command: its requests, of which the first has been sent and the others
    have not. *)
Record queue_ok (cmd : string) (l : list pendingUpstreamCommand) : Prop := {
  qo_msg : Forall (λ p, Command (pMsg p) = cmd ∧ request_ok (pMsg p)) l;
  qo_head p : head l = Some p → is_Some (pSentAt p);
  qo_tail : Forall (λ p, pSentAt p = None) (tail l)
}.

(** [s], reached from [s0] with the replies [out], is described by the queue [f] of [cmd]. *)
Record fifo_sim (s0 : ustate) (out : list (option downstreamView * Message)) (s : ustate)
    (cmd : string) (f : fifo) : Prop := {
  fm_out : filter (λ a : option downstreamView * Message, Command a.2 = cmd) out = route <$> answered f;
  fm_strip : strip <$> pending s cmd = waiting f;
  fm_sent : sent cmd s = sent cmd s0 ++ (request_params <$> issued f);
  fm_queue : queue_ok cmd (pending s cmd)
}.

Lemma sent_emit c a s :
  sent c (set_trace (trace s ++ [a]) s) =
  sent c s ++ match a with ToServer m => if decide (Command m = c) then [Params m] else [] | _ => [] end.
Proof.
  unfold sent. cbn [trace set_trace]. rewrite omap_app. f_equal. destruct a; simpl; try done. by case_decide.
Qed.

Lemma SendMessageLabeled_sent id label m s :
  ∃ s', SendMessageLabeled id label m s = (s', Ok tt) ∧
    (∀ c, sent c s' = sent c s ++ if decide (Command m = c) then [Params m] else []) ∧
    pendingCmds s' = pendingCmds s.
Proof.
  unfold SendMessageLabeled, SendMessage_uc, mbind, M_bind, gets, modify, emit, Datatypes.id.
  destruct (IsEnabled (caps s) "labeled-response"); cbn [caps]; destruct (IsEnabled _ "message-tags");
    eexists; (split; [reflexivity|]); (split; [|reflexivity]); intros c;
    unfold modify; cbn [fst]; rewrite sent_emit; reflexivity.
Qed.

Lemma pending_set_pending cmd l s c :
  pending (set_pendingCmds (<[cmd := l]> (pendingCmds s)) s) c = if decide (cmd = c) then l else pending s c.
Proof. unfold pending. cbn. case_decide; [subst; by rewrite lookup_insert_eq|by rewrite lookup_insert_ne]. Qed.

(** The head of the queue is sent; the other commands keep theirs. *)
Lemma sendNext_spec cmd s l :
  pending s cmd = l → Forall (λ p, Command (pMsg p) = cmd ∧ request_ok (pMsg p)) l →
  Forall (λ p, pSentAt p = None) (tail l) →
  ∃ s', sendNextPendingCommand cmd s = (s', Ok tt) ∧
    queue_ok cmd (pending s' cmd) ∧ strip <$> pending s' cmd = strip <$> l ∧
    sent cmd s' = sent cmd s ++ ((λ p, Params (pMsg p)) <$> take 1 l) ∧
    (∀ c, c ≠ cmd → pending s' c = pending s c ∧ sent c s' = sent c s).
Proof.
  intros El Hcmd Htail. unfold sendNextPendingCommand. unfold mbind at 1, M_bind at 1, gets at 1.
  rewrite El. destruct l as [|p rest].
  - exists s. rewrite El, app_nil_r. split_and!; [done|by split|done|done|done].
  - pose proof Hcmd as [[Hp _] _]%Forall_cons.
    destruct (SendMessageLabeled_sent (pDownstreamID p) (pDownstreamLabel p) (pMsg p) s) as (s1 & H1 & Hs1 & Hq1).
    unfold mbind at 1, M_bind at 1. rewrite H1. unfold mbind, M_bind, gets, set_pending, modify.
    eexists. split; [reflexivity|]. rewrite pending_set_pending, decide_True by done. split_and!.
    + apply Forall_cons in Hcmd as [Hm Hrest]. split; [by constructor|intros ? [= <-]; eauto|done].
    + done.
    + change (sent cmd (set_pendingCmds ?q s1)) with (sent cmd s1). by rewrite Hs1, decide_True.
    + intros c Hc. rewrite pending_set_pending, decide_False by done.
      change (sent c (set_pendingCmds ?q s1)) with (sent c s1). rewrite Hs1, decide_False, app_nil_r by congruence.
      unfold pending. by rewrite Hq1.
Qed.

Lemma dequeue_spec cmd s :
  queue_ok cmd (pending s cmd) →
  ∃ s', dequeueCommand cmd s =
      (s', Ok (match pending s cmd with
               | [] => (None, None)
               | p :: _ => (downstreamByID (pDownstreamID p), Some (pMsg p))
               end)) ∧
    queue_ok cmd (pending s' cmd) ∧ strip <$> pending s' cmd = strip <$> tail (pending s cmd) ∧
    sent cmd s' = sent cmd s ++ ((λ p, Params (pMsg p)) <$> take 1 (tail (pending s cmd))) ∧
    (∀ c, c ≠ cmd → pending s' c = pending s c ∧ sent c s' = sent c s).
Proof.
  intros [Hmsg Hhead Htail]. unfold dequeueCommand, currentPendingCommand.
  unfold mbind, M_bind, gets, mret, M_ret. destruct (pending s cmd) as [|p rest] eqn:El.
  - destruct (sendNext_spec cmd s [] El) as (s' & Hs' & H'); [done..|].
    exists s'. rewrite El. cbn [length Nat.ltb Nat.leb when]. unfold skip, mret, M_ret. by rewrite Hs'.
  - rewrite El. cbn [length Nat.ltb Nat.leb when]. unfold set_pending, modify. cbn [skipn tail]. rewrite drop_0.
    set (s1 := set_pendingCmds (<[cmd := rest]> (pendingCmds s)) s).
    assert (∀ c, pending s1 c = if decide (cmd = c) then rest else pending s c) as Hp1
      by (intros; apply pending_set_pending).
    apply Forall_cons in Hmsg as [_ Hrest].
    destruct (sendNext_spec cmd s1 rest) as (s' & -> & Hq & Hst & Hse & Hfr); [by rewrite Hp1, decide_True|done| |].
    + destruct rest; [done|]. by apply Forall_cons in Htail as [_ ?].
    + exists s'. split_and!; [done|done|done|done|]. intros c Hc. destruct (Hfr c Hc) as [-> ->].
      rewrite Hp1, decide_False by done. done.
Qed.

Lemma enqueue_spec dc label m s :
  request_ok m → timely_op (Enqueue dc label m) s = true → queue_ok (Command m) (pending s (Command m)) →
  ∃ s', enqueueCommand dc label m s = (s', Ok tt) ∧
    queue_ok (Command m) (pending s' (Command m)) ∧
    strip <$> pending s' (Command m) = (strip <$> pending s (Command m)) ++ [(dc_id dc, label, m)] ∧
    sent (Command m) s' =
      sent (Command m) s ++ (if decide (pending s (Command m) = []) then [Params m] else []) ∧
    (∀ c, c ≠ Command m → pending s' c = pending s c ∧ sent c s' = sent c s).
Proof.
  intros Hm Htime [Hmsg Hhead Htail]. unfold enqueueCommand. rewrite (proj1 Hm).
  set (cmd := Command m) in *.
  unfold mbind at 1, M_bind at 1, gets at 1. unfold mbind at 1, M_bind at 1, set_pending at 1, modify at 1.
  set (l := pending s cmd ++ [MkPending (dc_id dc) label m None]).
  set (s1 := set_pendingCmds (<[cmd := l]> (pendingCmds s)) s).
  assert (∀ c, pending s1 c = if decide (cmd = c) then l else pending s c) as Hp
    by (intros; apply pending_set_pending).
  assert (pending s1 cmd = l) as Hp1 by by rewrite Hp, decide_True.
  assert (Forall (λ p, Command (pMsg p) = cmd ∧ request_ok (pMsg p)) l) as Hl
    by (apply Forall_app; split; [done|by constructor]).
  unfold mbind at 1, M_bind at 1, gets at 1, Datatypes.id. rewrite Hp1.
  assert ((match head l ≫= pSentAt with
           | Some t => when (pendingTimeout <? e_now (trace s1) - t) (set_pending cmd (copy_down l))
           | None => skip
           end) s1 = (s1, Ok tt)) as Hto.
  { subst l. destruct (pending s cmd) as [|p rest] eqn:El; [done|].
    destruct (Hhead p eq_refl) as (t & Ht). cbn [mbind option_bind head app]. rewrite Ht.
    rewrite (proj2 (Z.ltb_ge _ _)); [done|]. cbn in Htime. fold cmd in Htime. rewrite El in Htime. cbn in Htime. rewrite Ht in Htime.
    by apply Z.leb_le in Htime. }
  unfold mbind at 1, M_bind at 1. rewrite Hto. unfold mbind, M_bind, gets. rewrite Hp1. subst l.
  destruct (pending s cmd) as [|p rest] eqn:El.
  - cbn [app length Nat.eqb when].
    destruct (sendNext_spec cmd s1 _ Hp1) as (s' & -> & Hq & Hst & Hse & Hfr); [done..|].
    exists s'. rewrite decide_True by done. split_and!; [done|done|done|done|]. intros c Hc.
    destruct (Hfr c Hc) as [-> ->]. by rewrite Hp, decide_False by done.
  - assert ((length ((p :: rest) ++ [MkPending (dc_id dc) label m None]) =? 1)%nat = false) as ->.
    { rewrite length_app. simpl. apply Nat.eqb_neq. lia. }
    exists s1. rewrite Hp1, fmap_app. split_and!; [done| |done|by rewrite app_nil_r|].
    + split; [done|exact Hhead|]. cbn [tail app]. apply Forall_app. split; [done|by constructor].
    + intros c Hc. by rewrite Hp, decide_False.
Qed.

(** The replies to aborted commands go to the clients only. *)
Lemma abort_reply_sent dc m s :
  request_ok m → ∃ s', abort_reply dc m s = (s', Ok tt) ∧ ∀ c, sent c s' = sent c s.
Proof.
  intros [Hsup Hpar]. unfold abort_reply.
  assert (∀ f, ∃ s', send_dc dc f s = (s', Ok tt) ∧ (∀ c, sent c s' = sent c s)) as Hsend.
  { intros f. eexists. split; [reflexivity|]. intros c. unfold send_dc. by rewrite ?sent_emit, ?app_nil_r. }
  repeat case_decide; try done.
  - destruct (last (Params m)) eqn:El; [done|]. apply last_None in El. destruct Hpar; auto.
  - destruct (Params m); [destruct Hpar; tauto|done].
  - exfalso. unfold supported_pending in Hsup. apply existsb_exists in Hsup as (c & Hc & <-%String.eqb_eq).
    cbn in Hc. intuition congruence.
Qed.

Lemma abort_replies_sent (l : list pendingUpstreamCommand) s :
  Forall (λ p, request_ok (pMsg p)) l →
  ∃ s', foreach (λ p, match downstreamByID (pDownstreamID p) with
                      | None => skip
                      | Some dc => abort_reply dc (pMsg p)
                      end) l s = (s', Ok tt) ∧ ∀ c, sent c s' = sent c s.
Proof.
  revert s. induction l as [|p l IH]; intros s Hl; [by exists s|]. apply Forall_cons in Hl as [Hp Hl].
  cbn [foreach]. unfold mbind, M_bind. destruct (downstreamByID (pDownstreamID p)) as [dc|].
  - destruct (abort_reply_sent dc (pMsg p) s Hp) as (s1 & -> & H1). destruct (IH s1 Hl) as (s' & -> & H').
    exists s'. split; [done|]. intros c. by rewrite H', H1.
  - by apply IH.
Qed.

Lemma abort_spec s :
  (∀ c, queue_ok c (pending s c)) →
  ∃ s', abortPendingCommands s = (s', Ok tt) ∧ ∀ c, pending s' c = [] ∧ sent c s' = sent c s.
Proof.
  intros Hq. unfold abortPendingCommands, mbind, M_bind, gets.
  assert (Forall (Forall (λ p, request_ok (pMsg p))) (map_to_list (pendingCmds s)).*2) as Hall.
  { apply Forall_fmap, Forall_forall. intros [c l] Hc%elem_of_map_to_list. cbn.
    specialize (Hq c) as [Hm _ _]. unfold pending in Hm. rewrite Hc in Hm.
    eapply Forall_impl; [exact Hm|]. by intros p [_ ?]. }
  generalize dependent ((map_to_list (pendingCmds s)).*2). intros queues Hall. clear Hq.
  assert (∃ s', foreach (foreach (λ p, match downstreamByID (pDownstreamID p) with
            | None => skip | Some dc => abort_reply dc (pMsg p) end)) queues s = (s', Ok tt) ∧
          ∀ c, sent c s' = sent c s) as (s' & -> & Hs').
  { revert s. induction queues as [|l queues IH]; intros s; [by exists s|].
    apply Forall_cons in Hall as [Hl Hall]. cbn [foreach]. unfold mbind, M_bind.
    destruct (abort_replies_sent l s Hl) as (s1 & -> & H1). destruct (IH Hall s1) as (s' & -> & H').
    exists s'. split; [done|]. intros c. by rewrite H', H1. }
  eexists. split; [reflexivity|]. intros c. split; [done|]. by rewrite <-Hs'.
Qed.

Lemma strip_cancel id l :
  strip <$> cancel_queue id l
  = take 1 (strip <$> l) ++ filter (λ r : request, r.1.1 ≠ id) (drop 1 (strip <$> l)).
Proof.
  destruct l as [|p l]; [done|]. cbn. rewrite drop_0. f_equal.
  rewrite take_0, app_nil_l. induction l as [|q l IH]; [done|]. cbn. case_decide; [cbn; f_equal|]; exact IH.
Qed.

Lemma Forall_filter_mono {A} (P Q : A → Prop) `{∀ x, Decision (Q x)} l : Forall P l → Forall P (filter Q l).
Proof. rewrite !Forall_forall. intros Hl x [_ Hx]%list_elem_of_filter. by apply Hl. Qed.

Lemma queue_ok_cancel c id l : queue_ok c l → queue_ok c (cancel_queue id l).
Proof.
  intros [Hm Hh Ht]. destruct l as [|p l]; [done|]. apply Forall_cons in Hm as [Hp Hm]. cbn in *.
  split; [|exact Hh|]; cbn; [constructor; [done|]|];
    by apply Forall_filter_mono.
Qed.

Lemma pending_cancel id s c :
  pending (set_pendingCmds (cancel_queue id <$> pendingCmds s) s) c = cancel_queue id (pending s c).
Proof. unfold pending. cbn. rewrite lookup_fmap. by destruct (pendingCmds s !! c). Qed.

Lemma request_params_strip (l : list pendingUpstreamCommand) :
  (λ p, Params (pMsg p)) <$> l = request_params <$> (strip <$> l).
Proof. by rewrite <-list_fmap_compose. Qed.

(** One step of the code is one step of the queue of every command. *)
Lemma pending_step_sim s0 out s (F : string → fifo) op :
  op_ok op → timely_op op s = true → (∀ c, fifo_sim s0 out s c (F c)) →
  ∃ s' o, pending_step op s = (s', Ok o) ∧ ∀ c, fifo_sim s0 (out ++ o) s' c (fifo_step c (F c) op).
Proof.
  intros Hop Htime Hsim. destruct op as [dc label m|cmd|id|]; cbn [pending_step]; unfold mbind, M_bind.
  - destruct (enqueue_spec dc label m s Hop Htime (fm_queue _ _ _ _ _ (Hsim _))) as (s' & -> & Hq & Hst & Hse & Hfr).
    exists s', []. split; [done|]. intros c. specialize (Hsim c) as [Ho Hw Hs Hqc]. rewrite app_nil_r.
    destruct (F c) as [a i w]. cbn in Ho, Hw, Hs |- *. destruct (decide (Command m = c)) as [<-|Hc].
    + split; cbn; [done|by rewrite Hst, Hw| |done]. rewrite Hse, Hs, <-app_assoc, fmap_app. do 2 f_equal.
      rewrite <-Hw. destruct (pending s (Command m)); cbn; by repeat case_decide.
    + destruct (Hfr c) as [Hp' Hs']; [done|]. by split; rewrite ?Hp', ?Hs'.
  - pose proof (Hsim cmd) as [_ Hwc _ Hqcmd].
    destruct (dequeue_spec cmd s Hqcmd) as (s' & -> & Hq & Hst & Hse & Hfr).
    exists s', (match pending s cmd with [] => [] | p :: _ => [(downstreamByID (pDownstreamID p), pMsg p)] end).
    split; [by destruct (pending s cmd)|]. intros c. specialize (Hsim c) as [Ho Hw Hs Hqc].
    destruct (F c) as [a i w]. cbn -[take drop] in *. destruct (decide (cmd = c)) as [<-|Hc].
    + rewrite request_params_strip in Hse. destruct Hqcmd as [Hm _ _].
      split; cbn -[take drop]; [| | |done].
      * rewrite filter_app, Ho, fmap_app, <-Hw. f_equal. destruct (pending s cmd) as [|p l]; [done|].
        apply Forall_cons in Hm as [[Hp _] _]. rewrite filter_cons_True; done.
      * rewrite Hst, <-Hw. by destruct (pending s cmd).
      * rewrite Hse, Hs, <-Hw, <-app_assoc, fmap_app. do 3 f_equal.
        destruct (pending s cmd) as [|p [|q l]]; done.
    + destruct (Hfr c) as [Hp' Hs']; [done|]. split; cbn; rewrite ?Hp', ?Hs'; try done.
      rewrite filter_app, Ho. destruct Hqcmd as [Hm _ _]. destruct (pending s cmd) as [|p l]; [by rewrite app_nil_r|].
      apply Forall_cons in Hm as [[Hp _] _]. rewrite filter_cons_False by (cbn; congruence). by rewrite app_nil_r.
  - eexists _, []. split; [reflexivity|]. intros c. specialize (Hsim c) as [Ho Hw Hs Hqc]. rewrite app_nil_r.
    destruct (F c) as [a i w]. cbn -[take drop] in *.
    split; cbn -[take drop]; [done| |done|]; rewrite pending_cancel; [|by apply queue_ok_cancel].
    by rewrite strip_cancel, Hw.
  - destruct (abort_spec s (λ c, fm_queue _ _ _ _ _ (Hsim c))) as (s' & -> & Hs'). exists s', []. split; [done|].
    intros c. specialize (Hsim c) as [Ho Hw Hs Hqc]. destruct (Hs' c) as [Hp Hse]. rewrite app_nil_r.
    destruct (F c) as [a i w]. split; cbn in *; rewrite ?Hp, ?Hse; done.
Qed.

Lemma pending_run_sim s0 ops s out (F : string → fifo) :
  Forall op_ok ops → timely ops s = true → (∀ c, fifo_sim s0 out s c (F c)) →
  ∃ s' o, pending_run ops s = (s', Ok o) ∧ ∀ c, fifo_sim s0 (out ++ o) s' c (foldl (fifo_step c) (F c) ops).
Proof.
  revert s out F. induction ops as [|op ops IH]; intros s out F Hok Ht Hsim.
  - exists s, []. split; [done|]. by rewrite app_nil_r.
  - apply Forall_cons in Hok as [Hop Hok]. apply andb_true_iff in Ht as [Hto Ht].
    destruct (pending_step_sim s0 out s F op Hop Hto Hsim) as (s1 & o & H1 & Hsim1). rewrite H1 in Ht.
    destruct (IH s1 (out ++ o) (λ c, fifo_step c (F c) op) Hok Ht Hsim1) as (s' & o' & H2 & Hsim').
    exists s', (o ++ o'). cbn [pending_run]. unfold mbind, M_bind. rewrite H1, H2. split; [done|].
    intros c. rewrite app_assoc. apply Hsim'.
Qed.
End pending.

(** C3: The requests whose replies must be routed (LIST, WHO, WHOIS, AUTHENTICATE, REGISTER,
    VERIFY) form one FIFO queue per command. Take any sequence of requests of clients,
    complete replies of the server, departures of clients (cancelPendingCommandsByDownstreamID)
    and losses of the connection (abortPendingCommands) from a state where no command is in
    progress, such that each request is made at most 30 seconds after the command then in
    progress was sent (what happens otherwise is [pending_timeout_stuck]), and each WHOIS,
    REGISTER and VERIFY has a parameter. Then every step succeeds and the connection follows
    [fifo_step] for each command, without interference from the others: the replies are routed
    to the clients of the requests the specification has answered, the queue holds those it has
    waiting and the server has been sent those it has issued. In the specification a request is
    never reordered, duplicated or invented: those answered, then the first one waiting, have
    been issued in that order, and those issued, then the others waiting, were made in that
    order; without departures and losses these are all the requests made. *)
Theorem pending_commands_fifo `{E : env} (ops : list pending_op) (s : ustate) :
  pendingCmds s = ∅ → Forall op_ok ops → timely ops s = true →
  ∃ s' out, pending_run ops s = (s', Ok out) ∧
  ∀ cmd, let f := fifo_run cmd ops in
    filter (λ a : option downstreamView * Message, Command a.2 = cmd) out
      = (λ r : request, (downstreamByID r.1.1, r.2)) <$> answered f ∧
    strip <$> pending s' cmd = waiting f ∧
    sent cmd s' = sent cmd s ++ (request_params <$> issued f) ∧
    answered f ++ take 1 (waiting f) `sublist_of` issued f ∧
    issued f ++ drop 1 (waiting f) `sublist_of` enqueued cmd ops ∧
    (Forall keeps_requests ops →
      answered f ++ take 1 (waiting f) = issued f ∧ answered f ++ waiting f = enqueued cmd ops).
Proof.
  intros Hnone Hok Ht.
  destruct (pending_run_sim s ops s [] (λ _, Fifo [] [] []) Hok Ht) as (s' & out & Hrun & Hsim).
  { intros c. assert (pending s c = []) as Hp by (unfold pending; by rewrite Hnone, lookup_empty).
    split; rewrite ?Hp; cbn; rewrite ?app_nil_r; done. }
  exists s', out. split; [exact Hrun|]. intros cmd. destruct (Hsim cmd) as [Ho Hw Hs _].
  destruct (fifo_run_sublist cmd ops) as [H1 H2]. split_and!; [exact Ho|exact Hw|exact Hs|exact H1|exact H2|].
  intros [H3 H4]%(fifo_run_exact cmd). split; [exact H3|]. cbn zeta in *.
  by rewrite <-H4, <-H3, <-app_assoc, take_drop.
Qed.

Definition who (mask : string) : Message := msg "WHO" [mask].

(** Three clients ask; one goes away, a reply comes, then the connection is lost. *)
Definition who_ops : list pending_op :=
  [Enqueue (demo_view 1) "" (who "#a"); Enqueue (demo_view 2) "l" (who "#b"); Enqueue (demo_view 3) "" (who "#c");
   Enqueue (demo_view 1) "" (msg "WHOIS" ["bob"]); Cancel 2; Dequeue "WHO"; Abort;
   Enqueue (demo_view 2) "" (who "#d")].

Lemma pending_commands_fifo_witness :
  let s := newConnection demo_network [] in
  ∃ s' out, @pending_run demo_env who_ops s = (s', Ok out) ∧
    sent "WHO" s' = [["#a"]; ["#c"]; ["#d"]] ∧ sent "WHOIS" s' = [["bob"]] ∧
    strip <$> pending s' "WHO" = [(2, "", who "#d")] ∧ pending s' "WHOIS" = [] ∧
    filter (λ a : option downstreamView * Message, Command a.2 = "WHO") out
      = [(@downstreamByID demo_env 1, who "#a")].
Proof.
  intros s.
  destruct (@pending_commands_fifo demo_env who_ops s) as (s' & out & Hrun & Hq).
  - reflexivity.
  - repeat constructor; cbn; intros; discriminate.
  - vm_compute. reflexivity.
  - exists s', out. split; [exact Hrun|].
    destruct (Hq "WHO") as (Ho & Hw & Hs & _). destruct (Hq "WHOIS") as (_ & Hw' & Hs' & _).
    split; [exact Hs|]. split; [exact Hs'|]. split; [exact Hw|].
    split; [by destruct (pending s' "WHOIS")|exact Ho].
Defined.

(** After a timeout the queue is wrong: the expired request is dropped, but the request
    that follows is neither sent nor moved alone to the front; it is in the queue twice and
    nothing will send it before a reply arrives. *)
Lemma pending_timeout_stuck `{E : env} dc label m s p q :
  supported_pending (Command m) = true →
  pending s (Command m) = [p] → q = MkPending (dc_id dc) label m None →
  (∃ t, pSentAt p = Some t ∧ pendingTimeout < e_now (trace s) - t) →
  ∃ s', enqueueCommand dc label m s = (s', Ok tt) ∧
    pending s' (Command m) = [q; q] ∧ trace s' = trace s.
Proof.
  intros Hsup Hp -> (t & Ht & Hto). unfold enqueueCommand. rewrite Hsup.
  unfold mbind, M_bind, gets, set_pending, modify, Datatypes.id. rewrite Hp. cbn [app].
  set (s1 := set_pendingCmds _ s).
  assert (pending s1 (Command m) = [p; MkPending (dc_id dc) label m None]) as Hp1 by (subst s1; rewrite pending_set_pending; by rewrite decide_True).
  rewrite Hp1. cbn [head mbind option_bind]. rewrite Ht.
  change (trace s1) with (trace s). rewrite (proj2 (Z.ltb_lt _ _)) by lia. cbn [when].
  rewrite pending_set_pending, decide_True by done. unfold copy_down. cbn [length Nat.sub drop skipn app Nat.eqb when].
  eexists. split; [reflexivity|]. split; [|reflexivity]. by rewrite pending_set_pending, decide_True.
Qed.

(** The same environment 31 seconds later. *)
Definition late_env : env := {|
  e_user := @e_user demo_env; e_downstreams := @e_downstreams demo_env; e_hasStore := true;
  e_LastMsgID := @e_LastMsgID demo_env; e_Append := @e_Append demo_env;
  e_GetMessageTarget := @e_GetMessageTarget demo_env; e_now := λ _, 31 * 10 ^ 9;
  e_time := @e_time demo_env; e_ParsePrefix := @e_ParsePrefix demo_env;
  e_srvPrefix := @e_srvPrefix demo_env; e_saslStart := @e_saslStart demo_env; e_saslNext := @e_saslNext demo_env
|}.

Lemma pending_timeout_stuck_witness :
  let p := MkPending 1 "" (who "#a") (Some 0) in
  let q := MkPending 2 "" (who "#b") None in
  ∃ s', @enqueueCommand late_env (demo_view 2) "" (who "#b")
          (set_pendingCmds {["WHO" := [p]]} (newConnection demo_network [])) = (s', Ok tt) ∧
    pending s' "WHO" = [q; q] ∧ trace s' = [].
Proof.
  intros p q. apply (@pending_timeout_stuck late_env (demo_view 2) "" (who "#b")
    (set_pendingCmds {["WHO" := [p]]} (newConnection demo_network [])) p q); [reflexivity..|].
  exists 0. split; reflexivity.
Defined.

(** ** Labels *)

Lemma SplitN4 a b c d :
  str_mem "-"%char a = false → str_mem "-"%char b = false → str_mem "-"%char c = false →
  SplitN (a +:+ String "-"%char (b +:+ String "-"%char (c +:+ String "-"%char d))) "-" 4 = [a; b; c; d].
Proof.
  intros Ha Hb Hc. unfold SplitN. change (4 - 1)%nat with 3%nat. cbn [split_upto].
  by rewrite (Cut_char_app "-"%char a), (Cut_char_app "-"%char b), (Cut_char_app "-"%char c) by done.
Qed.

(** The label [SendMessageLabeled] attaches. *)
Definition upstream_label (id nextID : Z) (label : string) : string :=
  "sd-" +:+ FormatUint id +:+ "-" +:+ FormatUint nextID +:+ "-" +:+ label.

Lemma parseLabel_upstream_label id nextID label :
  0 ≤ id < uint64_mod → 0 ≤ nextID → parseLabel (upstream_label id nextID label) = Ok (id, label).
Proof.
  intros Hid Hn. unfold parseLabel. rewrite decide_False by done.
  change (upstream_label id nextID label) with ("sd" +:+ String "-"%char (FormatUint id +:+ String "-"%char
    (FormatUint nextID +:+ String "-"%char label))).
  rewrite SplitN4 by (done || (apply FormatUint_no_char; [lia|done])).
  rewrite decide_False by auto. by rewrite ParseUint64_FormatUint.
Qed.

(** Labels round-trip through the server: with labeled-response and message-tags enabled,
    [SendMessageLabeled] sends the message once with a label from which [parseLabel] gets back
    the downstream connection and its own label, whatever characters that label has; and two
    consecutive labels differ. *)
Theorem label_roundtrip (s : ustate) (id : Z) (label : string) (m : Message) :
  0 ≤ id < uint64_mod → 0 ≤ nextLabelID s < uint64_mod - 1 →
  IsEnabled (caps s) "labeled-response" = true → IsEnabled (caps s) "message-tags" = true →
  ∃ s' m', SendMessageLabeled id label m s = (s', Ok tt) ∧
    trace s' = trace s ++ [ToServer m'] ∧
    Command m' = Command m ∧ Params m' = Params m ∧
    parseLabel (tag m' "label") = Ok (id, label) ∧
    nextLabelID s' = nextLabelID s + 1 ∧ caps s' = caps s.
Proof.
  intros Hid Hn Hlr Hmt. unfold SendMessageLabeled, mbind at 1, M_bind at 1, gets, Datatypes.id. rewrite Hlr.
  unfold SendMessage_uc, mbind, M_bind, gets, modify, emit. cbn [caps set_nextLabelID]. rewrite Hmt.
  eexists _, _. split; [reflexivity|]. split; [reflexivity|]. split; [reflexivity|]. split; [reflexivity|].
  split.
  - unfold tag. cbn [Tags with_tags]. rewrite lookup_insert_eq. cbn [default from_option].
    by apply parseLabel_upstream_label; [|lia].
  - cbn. split; [|done]. apply wrap_u64_small. lia.
Qed.

Lemma label_roundtrip_witness :
  let s := set_caps (MkCaps ∅ {["labeled-response"; "message-tags"]}) (newConnection demo_network []) in
  ∃ m', parseLabel (tag m' "label") = Ok (7, "a-b") ∧ Command m' = "WHO".
Proof.
  intros s. destruct (label_roundtrip s 7 "a-b" (who "#a")) as (s' & m' & _ & _ & Hc & _ & Hl & _).
  - split; [discriminate|reflexivity].
  - split; [discriminate|reflexivity].
  - reflexivity.
  - reflexivity.
  - exists m'. auto.
Defined.

(** ** Falling back to another nickname *)

Section nickname.
Context `{E : env} `{UnicodeTables}.

Definition nick_in_use (a failed text : string) : Message := msg ERR_NICKNAMEINUSE [a; failed; text].

Fixpoint underscores (k : nat) : string := match k with O => "" | S k' => String "_"%char (underscores k') end.

Lemma underscores_snoc k : underscores k +:+ "_" = underscores (S k).
Proof. induction k as [|k IH]; [done|]. cbn. by rewrite IH. Qed.

Lemma slen_underscores k : slen (underscores k) = k.
Proof. induction k as [|k IH]; [done|]. cbn. by rewrite IH. Qed.

Lemma handle_nick_in_use a failed text s :
  handleMessage (nick_in_use a failed text) s =
  handle_NICKNAMEINUSE (with_prefix (Some (serverPrefix s))
    (with_tags (λ tags, delete "batch" (delete "label" tags)) (nick_in_use a failed text)))
    (MkMctx "" None 0 "") s.
Proof. reflexivity. Qed.

Definition unregistered (s : ustate) : Prop := registered s = false ∧ pendingRegainNick s = "".

Lemma cm_apply_nonempty cm x : x ≠ "" → cm_apply cm "" ≠ cm_apply cm x.
Proof. destruct cm, x; done. Qed.

(** One refusal of a nickname that may still grow. *)
Lemma nick_in_use_retry a failed text s :
  unregistered s → (slen (nick s) + 1 < 30)%nat →
  ∃ s', handleMessage (nick_in_use a failed text) s = (s', Ok tt) ∧
    unregistered s' ∧ nick s' = nick s +:+ "_" ∧ hasDesiredNick s' = false ∧
    trace s' = trace s ++ [ToServer (msg "NICK" [nick s +:+ "_"])].
Proof.
  intros [Hr Hp] Hl. rewrite handle_nick_in_use. unfold handle_NICKNAMEINUSE, mbind at 1, M_bind at 1, gets.
  unfold Datatypes.id. rewrite Hr, (proj2 (Nat.ltb_lt _ _)) by done. cbn [negb andb].
  unfold mbind, M_bind, modify, SendMessage_uc, emit, gets, mbind, M_bind, modify.
  eexists. split; [reflexivity|]. split; [by split|]. split; [reflexivity|]. split; [reflexivity|].
  cbn. do 3 f_equal. by case_match.
Qed.

Lemma nick_in_use_give_up a failed text s :
  unregistered s → failed ≠ "" → (30 ≤ slen (nick s) + 1)%nat →
  ∃ m, handleMessage (nick_in_use a failed text) s = (s, Err (registrationError m)).
Proof.
  intros [Hr Hp] Hf Hl. rewrite handle_nick_in_use. unfold handle_NICKNAMEINUSE, mbind at 1, M_bind at 1, gets.
  unfold Datatypes.id. rewrite Hr, (proj2 (Nat.ltb_ge _ _)) by done. cbn [negb andb].
  unfold mbind, M_bind, lift. cbn -[equalCasemap handle_registration_error]. rewrite Hp.
  unfold equalCasemap. rewrite bool_decide_eq_false_2 by (by apply cm_apply_nonempty).
  unfold handle_registration_error, mbind, M_bind, gets. rewrite Hr. eexists. reflexivity.
Qed.

(** A server that refuses every nickname does not keep the bouncer trying for ever. Each
    refusal before registration appends an underscore to the nickname and sends it; when 29
    bytes are reached the next refusal ends the registration with an error. *)
Theorem nickname_fallback (a failed text : string) (k : nat) (s : ustate) :
  unregistered s → failed ≠ "" → (slen (nick s) ≤ 29)%nat →
  let room := (29 - slen (nick s))%nat in
  let '(s', r) := handleMessages (replicate k (nick_in_use a failed text)) s in
  nick s' = nick s +:+ underscores (k `min` room) ∧ (slen (nick s') ≤ 29)%nat ∧
  (if decide (k ≤ room)%nat then r = Ok tt else ∃ m, r = Err (registrationError m)).
Proof.
  intros Hu Hf Hl room. subst room. revert s Hu Hl. induction k as [|k IH]; intros s Hu Hl.
  { cbn. rewrite str_app_nil_r. split_and!; [done|lia|]. by rewrite decide_True by lia. }
  cbn [replicate handleMessages]. unfold mbind, M_bind.
  destruct (decide (slen (nick s) + 1 < 30)%nat) as [Hroom|Hroom].
  - destruct (nick_in_use_retry a failed text s Hu Hroom) as (s1 & -> & Hu1 & Hn1 & _ & _).
    assert (slen (nick s1) = S (slen (nick s))) as Hs1 by (rewrite Hn1, slen_app; simpl; lia).
    specialize (IH s1 Hu1 ltac:(lia)). destruct (handleMessages _ s1) as [s' r].
    destruct IH as (Hn' & Hl' & Hr). split_and!; [|done|].
    + rewrite Hs1, Hn1 in Hn'. rewrite Hn', str_app_assoc. f_equal.
      replace (S k `min` (29 - slen (nick s)))%nat with (S (k `min` (29 - S (slen (nick s)))))%nat by lia.
      done.
    + rewrite Hs1 in Hr. repeat case_decide; (done || lia).
  - destruct (nick_in_use_give_up a failed text s Hu Hf) as (m & ->); [lia|].
    replace (S k `min` (29 - slen (nick s)))%nat with 0%nat by lia. rewrite str_app_nil_r.
    split_and!; [done|done|]. rewrite decide_False by lia. eauto.
Qed.
End nickname.

Lemma nickname_fallback_witness :
  let s := set_nick "alice" (newConnection demo_network []) in
  let out := @handleMessages demo_env latin1_tables (replicate 25 (nick_in_use "*" "alice" "in use")) s in
  (slen (nick out.1) ≤ 29)%nat ∧ ∃ m, out.2 = Err (registrationError m).
Proof.
  intros s out.
  pose proof (@nickname_fallback demo_env latin1_tables "*" "alice" "in use" 25 s
    (conj eq_refl eq_refl) ltac:(discriminate) ltac:(cbn; lia)) as Hf.
  fold out in Hf. destruct out as [s' r]. destruct Hf as (_ & H1 & H2). split; [exact H1|exact H2].
Defined.
