(* ===== verification/Downstream.v ===== *)
(** * Downstream connections: state, sending, capabilities (downstream.go)

    One connection of a client. The state is [downstreamConn]; the context value that carries
    the label of the message being handled is a field of it for the time of the handler, since
    a connection handles one message at a time. Messages are values: that the tag map of a
    message may be shared with the same message queued on other connections is not modelled. The
    calls made to the rest of the program are recorded in a trace, and what it answers is the
    class [denv], whose fields take the trace so far. *)

From S2P Require Import Prelude GoStrings GoUnicode IrcMessage CaseMapping Membership Modes WhoX Base64.
From S2P Require Import Effects GenMsg Caps Database Highlight Upstream UpstreamHandlers.

Open Scope string_scope.
Open Scope list_scope.
Open Scope Z_scope.

(** ** Data *)

Record labelContext := MkLabel { lc_label : string; lc_batch : string; lc_pendingMsg : option Message }.

Record saslPlain := MkSaslPlain { plIdentity : string; plUsername : string; plPassword : string }.
Record oauthBearer := MkOAuth { oaUsername : string; oaToken : string }.

(** [server] is the responses the SASL server was given so far; [None] is the nil slice. *)
Record downstreamSASL := MkDownstreamSASL {
  sMechanism : string; sServer : list (option string); sPlain : option saslPlain;
  sOAuth : option oauthBearer; sPendingResp : string
}.

Record downstreamRegistration := MkReg {
  rNick : string; rUsername : string; rPass : string; rNetworkName : string; rNetworkID : Z;
  rNegotiatingCaps : bool; rAuthUsername : string
}.
Definition eta_r (x : downstreamRegistration) : downstreamRegistration :=
  MkReg (rNick x) (rUsername x) (rPass x) (rNetworkName x) (rNetworkID x) (rNegotiatingCaps x) (rAuthUsername x).
Definition set_rNick : string → downstreamRegistration → downstreamRegistration := ltac:(setter eta_r rNick).
Definition set_rUsername : string → downstreamRegistration → downstreamRegistration := ltac:(setter eta_r rUsername).
Definition set_rPass : string → downstreamRegistration → downstreamRegistration := ltac:(setter eta_r rPass).
Definition set_rNetworkName : string → downstreamRegistration → downstreamRegistration := ltac:(setter eta_r rNetworkName).
Definition set_rNetworkID : Z → downstreamRegistration → downstreamRegistration := ltac:(setter eta_r rNetworkID).
Definition set_rNegotiatingCaps : bool → downstreamRegistration → downstreamRegistration :=
  ltac:(setter eta_r rNegotiatingCaps).
Definition set_rAuthUsername : string → downstreamRegistration → downstreamRegistration :=
  ltac:(setter eta_r rAuthUsername).

Record DeviceCertificate := MkDevice {
  devID : Z; devLabel : string; devFingerprint : string; devLastUsed : Z; devLastIP : string
}.

(** Requests to the message store, of the history of a target of a network. *)
Inductive historyCall :=
| LoadLatestID_call (netID : Z) (entity : string) (limit : Z) (id : string)
| LoadBeforeTime_call (netID : Z) (entity : string) (start end_ limit : Z) (events : bool)
| LoadAfterTime_call (netID : Z) (entity : string) (start end_ limit : Z) (events : bool).

Record searchCall := MkSearchCall {
  seStart : Z; seEnd : Z; seLimit : Z; seFrom : string; seIn : string; seText : string
}.

(** The calls a handler makes, in order. *)
Inductive daction :=
| DSend (m : Message)
| DShutdown
| DAuthPlain (username password : string)
| DAuthOAuthBearer (token : string)
| DGetUser (username : string)
| DGetDeviceCertificate (fingerprint : string)
| DGetUsernameByID (id : Z)
| DStoreDeviceCertificate (id : Z) (cert : DeviceCertificate)
| DListMessageTargets (networkID : Z)
| DGetMessageTarget (networkID : Z) (target : string)
| DStoreMessageTarget (networkID : Z) (mt : MessageTarget)
| DGetReadReceipt (networkID : Z) (target : string)
| DStoreReadReceipt (networkID : Z) (r : ReadReceipt)
| DLastMsgID (networkID : Z) (entity : string)
| DHistory (c : historyCall)
| DListTargets (networkID start end_ limit : Z) (events : bool)
| DSearch (networkID : Z) (c : searchCall)
| DBroadcastWebPush (m : Message)
| DSendWebPush (sub : WebPushSubscription) (m : Message)
| DListWebPushSubscriptions (userID networkID : Z)
| DStoreWebPushSubscription (userID networkID : Z) (sub : WebPushSubscription)
| DDeleteWebPushSubscription (id : Z).

Record dstate := MkDstate {
  d_registered : bool;
  d_user : option dbUser;
  d_network : option ustate;
  d_clientName : string;
  d_impersonating : bool;
  d_nick : string;
  d_nickCM : string;
  d_realname : string;
  d_username : string;
  d_hostname : string;
  d_account : string;
  d_away : option string;
  d_capVersion : Z;
  d_caps : CapRegistry;
  d_isupport : gmap string (option string);
  d_sasl : option downstreamSASL;
  d_registration : downstreamRegistration;
  d_lastBatchRef : Z;
  d_casemap : CaseMapping;
  d_monitored : CaseMappingMap unit;
  d_metadataSubs : gset string;
  d_label : option labelContext;
  d_trace : list daction
}.

Definition eta_d (x : dstate) : dstate :=
  MkDstate (d_registered x) (d_user x) (d_network x) (d_clientName x) (d_impersonating x) (d_nick x)
    (d_nickCM x) (d_realname x) (d_username x) (d_hostname x) (d_account x) (d_away x)
    (d_capVersion x) (d_caps x) (d_isupport x) (d_sasl x) (d_registration x) (d_lastBatchRef x)
    (d_casemap x) (d_monitored x) (d_metadataSubs x) (d_label x) (d_trace x).
Definition set_d_registered : bool → dstate → dstate := ltac:(setter eta_d d_registered).
Definition set_d_user : option dbUser → dstate → dstate := ltac:(setter eta_d d_user).
Definition set_d_network : option ustate → dstate → dstate := ltac:(setter eta_d d_network).
Definition set_d_clientName : string → dstate → dstate := ltac:(setter eta_d d_clientName).
Definition set_d_impersonating : bool → dstate → dstate := ltac:(setter eta_d d_impersonating).
Definition set_d_nick : string → dstate → dstate := ltac:(setter eta_d d_nick).
Definition set_d_nickCM : string → dstate → dstate := ltac:(setter eta_d d_nickCM).
Definition set_d_realname : string → dstate → dstate := ltac:(setter eta_d d_realname).
Definition set_d_username : string → dstate → dstate := ltac:(setter eta_d d_username).
Definition set_d_hostname : string → dstate → dstate := ltac:(setter eta_d d_hostname).
Definition set_d_account : string → dstate → dstate := ltac:(setter eta_d d_account).
Definition set_d_away : option string → dstate → dstate := ltac:(setter eta_d d_away).
Definition set_d_capVersion : Z → dstate → dstate := ltac:(setter eta_d d_capVersion).
Definition set_d_caps : CapRegistry → dstate → dstate := ltac:(setter eta_d d_caps).
Definition set_d_isupport : gmap string (option string) → dstate → dstate := ltac:(setter eta_d d_isupport).
Definition set_d_sasl : option downstreamSASL → dstate → dstate := ltac:(setter eta_d d_sasl).
Definition set_d_registration : downstreamRegistration → dstate → dstate := ltac:(setter eta_d d_registration).
Definition set_d_lastBatchRef : Z → dstate → dstate := ltac:(setter eta_d d_lastBatchRef).
Definition set_d_casemap : CaseMapping → dstate → dstate := ltac:(setter eta_d d_casemap).
Definition set_d_monitored : CaseMappingMap unit → dstate → dstate := ltac:(setter eta_d d_monitored).
Definition set_d_metadataSubs : gset string → dstate → dstate := ltac:(setter eta_d d_metadataSubs).
Definition set_d_label : option labelContext → dstate → dstate := ltac:(setter eta_d d_label).
Definition set_d_trace : list daction → dstate → dstate := ltac:(setter eta_d d_trace).

(** An authentication error with a message for the user ([auth.Error]), or any other. *)
Inductive autherr := AuthError (ExternalMsg : string) | OtherError.

Definition authErrorReason (err : autherr) : string :=
  match err with AuthError m => m | OtherError => "Authentication failed" end.

(** One step of the SASL server: what its authenticator callback received, the challenge,
    whether the exchange is over, whether it failed. *)
Record saslStep := MkStep {
  st_plain : option saslPlain; st_oauth : option oauthBearer; st_challenge : string;
  st_done : bool; st_failed : bool
}.

Record srvConfig := MkConfig {
  cfgHostname : string; cfgTitle : string; cfgIconURL : string; cfgIconPath : string;
  cfgHTTPIngress : string; cfgFileUploader : bool; cfgClientCertAuth : bool;
  cfgVAPIDPublic : string; cfgHistoryDriver : bool
}.

(** What the rest of the program answers: the configuration, the authentication back ends and
    the database as functions of the calls made so far, the SASL library, the certificate of
    the client with its SHA-512 hash, and the local time and address of a device. *)
Class denv := MkDenv {
  de_config : srvConfig;
  de_srvPrefix : Prefix;
  de_PrefixString : Prefix → string;
  de_remoteHost : string;
  de_AuthPlain : option (list daction → string → string → option autherr);
  de_AuthOAuthBearer : option (list daction → string → string + autherr);
  de_GetUser : list daction → string → dbUser + goerr;
  de_peerCertHash : option string;
  de_GetDeviceCertificate : list daction → string → (Z * option DeviceCertificate) + goerr;
  de_GetUsernameByID : list daction → Z → string + goerr;
  de_StoreDeviceCertificate : list daction → Z → DeviceCertificate → option goerr;
  de_MarkUsed : list daction → DeviceCertificate → DeviceCertificate;
  de_ListMessageTargets : list daction → Z → list MessageTarget + goerr;
  de_saslNext : string → list (option string) → option string → saslStep;
  de_chatHistoryStore : bool
}.

Abbreviation DM := (ST dstate).

Definition demit (a : daction) : DM unit := modify (λ s, set_d_trace (d_trace s ++ [a]) s).
(** A call whose answer is used. *)
Definition dcall {A} (a : daction) (f : list daction → A) : DM A :=
  tr ← gets d_trace; demit a ;; mret (f tr).

Definition permanentDownstreamCaps : gmap string string := list_to_map [
  ("batch", ""); ("cap-notify", ""); ("echo-message", ""); ("invite-notify", ""); ("server-time", "");
  ("setname", ""); ("draft/metadata-2", "before-connect,max-keys=0,max-value-bytes=1");
  ("draft/pre-away", ""); ("draft/read-marker", ""); ("draft/no-implicit-names", "");
  ("draft/extended-isupport", ""); ("soju.im/account-required", ""); ("soju.im/bouncer-networks", "");
  ("soju.im/bouncer-networks-notify", ""); ("soju.im/no-implicit-names", ""); ("soju.im/read", "");
  ("soju.im/webpush", "")].

Definition passthroughDownstreamCaps : gmap string string := list_to_map [
  ("account-notify", ""); ("account-tag", ""); ("away-notify", ""); ("chghost", "");
  ("extended-join", ""); ("extended-monitor", ""); ("labeled-response", ""); ("message-tags", "");
  ("multi-prefix", ""); ("draft/extended-monitor", ""); ("draft/message-redaction", "")].

Definition permanentIsupport : gmap string (option string) := list_to_map [
  ("soju.im/SAFERATE", None); ("draft/ACCOUNTREQUIRED", None)].

Definition passthroughIsupport : list string :=
  ["ACCOUNTEXTBAN"; "AWAYLEN"; "BOT"; "CASEMAPPING"; "CHANLIMIT"; "CHANMODES"; "CHANNELLEN"; "CHANTYPES";
   "CLIENTTAGDENY"; "ELIST"; "EXCEPTS"; "EXTBAN"; "HOSTLEN"; "INVEX"; "KICKLEN"; "LINELEN"; "MAXLIST";
   "MAXTARGETS"; "MODES"; "MONITOR"; "NAMELEN"; "NETWORK"; "NICKLEN"; "PREFIX"; "SAFELIST"; "STATUSMSG";
   "TARGMAX"; "TOPICLEN"; "USERLEN"; "UTF8ONLY"; "WHOX"; "draft/ICON"].

Section downstream.
Context `{DE : denv} `{UnicodeTables}.

Definition serverSASLMechanisms : list string :=
  (if de_AuthPlain then ["PLAIN"] else []) ++ (if de_AuthOAuthBearer then ["OAUTHBEARER"] else []).

Definition newDownstreamConn : dstate :=
  let mechanisms := serverSASLMechanisms ++
    (if cfgClientCertAuth de_config && bool_decide (is_Some de_peerCertHash) then ["EXTERNAL"] else []) in
  let available := <["sasl" := Join mechanisms ","]> permanentDownstreamCaps in
  let available := if cfgHistoryDriver de_config
                   then <["soju.im/search" := ""]> (<["draft/chathistory" := ""]> available) else available in
  let available := if cfgClientCertAuth de_config then <["soju.im/client-cert" := ""]> available else available in
  {| d_registered := false; d_user := None; d_network := None; d_clientName := ""; d_impersonating := false;
     d_nick := "*"; d_nickCM := "*"; d_realname := ""; d_username := "~u"; d_hostname := de_remoteHost;
     d_account := ""; d_away := None; d_capVersion := 0; d_caps := MkCaps available ∅; d_isupport := ∅;
     d_sasl := None; d_registration := MkReg "" "" "" "" 0 false ""; d_lastBatchRef := 0;
     d_casemap := CaseMappingASCII; d_monitored := CMM.New CaseMappingASCII; d_metadataSubs := ∅;
     d_label := None; d_trace := [] |}.

Definition d_prefix (s : dstate) : Prefix := mkPrefix (d_nick s) (d_username s) (d_hostname s).

(** [dc.upstream()]: the network of the connection, if it is connected. *)
Definition d_upstream (s : dstate) : option ustate :=
  match d_network s with
  | Some net => if net_connected net then Some net else None
  | None => None
  end.

(** ** Sending *)

Definition tag_supported (cr : CapRegistry) (name : string) : bool :=
  if decide (name = "time") then IsEnabled cr "server-time"
  else if decide (name = "account") then IsEnabled cr "account-tag"
  else if decide (name = "batch") then IsEnabled cr "batch"
  else false.

(** The commands a client only gets with a capability. *)
Definition command_cap (cmd : string) : option string :=
  if decide (cmd = "SETNAME") then Some "setname"
  else if decide (cmd = "CHGHOST") then Some "chghost"
  else if decide (cmd = "AWAY") then Some "away-notify"
  else if decide (cmd = "ACCOUNT") then Some "account-notify"
  else if decide (cmd = "MARKREAD") then Some "draft/read-marker"
  else if decide (cmd = "READ") then Some "soju.im/read"
  else if decide (cmd = "METADATA") then Some "draft/metadata-2"
  else if decide (cmd = "REDACT") then Some "draft/message-redaction"
  else None.

(** The first part of [SendMessage]: the message the client may see, if any. *)
Definition outgoing (cr : CapRegistry) (m : Message) : res goerr (option Message) :=
  if negb (IsEnabled cr "message-tags") && bool_decide (Command m = "TAGMSG") then Ok None
  else
    let m := if IsEnabled cr "message-tags" then m
             else with_tags (filter (λ kv, tag_supported cr kv.1 = true)) m in
    let m := if negb (IsEnabled cr "batch") && bool_decide (tag m "batch" ≠ "")
             then with_tags (delete "batch") m else m in
    m ← (if bool_decide (Command m = "JOIN") && negb (IsEnabled cr "extended-join") then
           match Params m with
           | [] => Panic "slice bounds out of range"
           | p :: _ => Ok (with_params [p] m)
           end
         else Ok m);
    match command_cap (Command m) with
    | Some cap => if IsEnabled cr cap then Ok (Some m) else Ok None
    | None => Ok (Some m)
    end.

Definition outgoing_prefix (m : Message) : Message :=
  let m := match MPrefix m with
           | Some p => if decide (Name p = "*") then with_prefix None m else m
           | None => m
           end in
  match MPrefix m with
  | None => if isNumeric (Command m) then with_prefix (Some de_srvPrefix) m else m
  | Some _ => m
  end.

(** A message that is in no batch yet is put into [ref]. *)
Definition in_batch (ref : string) (m : Message) : Message :=
  if decide (tag m "batch" = "") then with_tags (<["batch" := ref]>) m else m.

Definition set_label (lc : labelContext) : DM unit := modify (set_d_label (Some lc)).

Definition SendMessage_dc (m : Message) : DM unit :=
  s ← gets id;
  om ← lift (outgoing (d_caps s) m);
  match om with
  | None => skip
  | Some m =>
    let m := outgoing_prefix m in
    match d_label s with
    | Some lc =>
      if decide (lc_label lc = "") then demit (DSend m)
      else
        batch ← (match lc_pendingMsg lc with
          | Some pendingMsg =>
            let ref := wrap_u64 (d_lastBatchRef s + 1) in
            let batch := FormatUint ref in
            modify (set_d_lastBatchRef ref) ;;
            demit (DSend (mkMessage {["label" := lc_label lc]} None "BATCH" ["+" +:+ batch; "labeled-response"])) ;;
            demit (DSend (in_batch batch pendingMsg)) ;;
            set_label (MkLabel (lc_label lc) batch None) ;;
            mret batch
          | None => mret (lc_batch lc)
          end);
        if decide (batch ≠ "") then demit (DSend (in_batch batch m))
        else set_label (MkLabel (lc_label lc) batch (Some m))
    | None => demit (DSend m)
    end
  end.

Definition FlushBatch_dc : DM unit :=
  l ← gets d_label;
  match l with
  | Some lc =>
    if decide (lc_label lc = "") then skip
    else match lc_pendingMsg lc with
    | Some m => demit (DSend (with_tags (<["label" := lc_label lc]>) m))
    | None =>
      if decide (lc_batch lc ≠ "") then demit (DSend (msg "BATCH" ["-" +:+ lc_batch lc]))
      else demit (DSend (mkMessage {["label" := lc_label lc]} None "ACK" []))
    end
  | None => skip
  end.

Definition SendBatch_dc (typ : string) (params : list string) (tags : gmap string string)
    (f : string → DM unit) : DM unit :=
  s ← gets id;
  let ref := wrap_u64 (d_lastBatchRef s + 1) in
  let batch := FormatUint ref in
  modify (set_d_lastBatchRef ref) ;;
  when (IsEnabled (d_caps s) "batch")
    (SendMessage_dc (mkMessage tags None "BATCH" (["+" +:+ batch; typ] ++ params))) ;;
  f batch ;;
  cr ← gets d_caps;
  when (IsEnabled cr "batch") (SendMessage_dc (msg "BATCH" ["-" +:+ batch])).

Definition messageSupportsBacklog (m : Message) : bool :=
  bool_decide (Command m = "PRIVMSG" ∨ Command m = "NOTICE").

Definition sendPing (msgID : string) : DM unit := SendMessage_dc (msg "PING" ["soju-msgid-" +:+ msgID]).

Definition advanceMessageWithID_dc (m : Message) (id : string) : DM unit :=
  cr ← gets d_caps;
  if bool_decide (id = "") || negb (messageSupportsBacklog m) || IsEnabled cr "draft/chathistory" then skip
  else sendPing id.

Definition sendMessageWithID_dc (m : Message) (id : string) : DM unit :=
  SendMessage_dc m ;; advanceMessageWithID_dc m id.

(** ** Capabilities *)

Definition setSupportedCap (name value : string) : DM unit :=
  s ← gets id;
  let changed := negb (bool_decide (Available (d_caps s) !! name = Some value)) in
  modify (set_d_caps (SetAvailable name value (d_caps s))) ;;
  if negb (IsEnabled (d_caps s) "cap-notify") || negb changed then skip
  else
    let cap := if bool_decide (value ≠ "") && (302 <=? d_capVersion s) then name +:+ "=" +:+ value else name in
    SendMessage_dc (msg_from de_srvPrefix "CAP" [d_nick s; "NEW"; cap]).

Definition unsetSupportedCap (name : string) : DM unit :=
  s ← gets id;
  let hasPrev := IsAvailable (d_caps s) name in
  let cr := cr_Del name (d_caps s) in
  modify (set_d_caps cr) ;;
  if negb (IsEnabled cr "cap-notify") || negb hasPrev then skip
  else SendMessage_dc (msg_from de_srvPrefix "CAP" [d_nick s; "DEL"; name]).

(** The values of draft/account-registration, without the first [before-connect]. *)
Fixpoint remove_first (v : string) (l : list string) : list string :=
  match l with
  | [] => []
  | x :: l' => if decide (x = v) then l' else x :: remove_first v l'
  end.

Definition updateSupportedCaps_dc : DM unit :=
  s ← gets id;
  let uc := d_upstream s in
  foreach (λ kv : string * string,
    if match uc with Some uc => IsEnabled (caps uc) kv.1 | None => true end
    then setSupportedCap kv.1 kv.2 else unsetSupportedCap kv.1) (map_to_list passthroughDownstreamCaps) ;;
  (if match uc with Some uc => supportsSASL (caps uc) "PLAIN" | None => false end
   then setSupportedCap "sasl" "PLAIN,ANONYMOUS"
   else when (bool_decide (is_Some (d_network s))) (unsetSupportedCap "sasl")) ;;
  (match uc with
   | Some uc =>
     if IsEnabled (caps uc) "draft/account-registration" then
       setSupportedCap "draft/account-registration"
         (Join (remove_first "before-connect"
           (Split (default "" (Available (caps uc) !! "draft/account-registration")) ",")) ",")
     else unsetSupportedCap "draft/account-registration"
   | None => unsetSupportedCap "draft/account-registration"
   end) ;;
  (if de_chatHistoryStore && bool_decide (is_Some (d_network s))
   then setSupportedCap "draft/event-playback" "" else unsetSupportedCap "draft/event-playback").

(** One name of a CAP REQ: [None] when the whole request is refused, otherwise the changes
    to make, later entries replacing earlier ones. *)
Fixpoint cap_req (s : dstate) (names : list string) (m : gmap string bool) : option (gmap string bool) :=
  match names with
  | [] => Some m
  | name :: names =>
    let name := ToLower name in
    let enable := negb (HasPrefix name "-") in
    let name := if enable then name else TrimPrefix name "-" in
    if Bool.eqb enable (IsEnabled (d_caps s) name) then cap_req s names m
    else if negb (IsAvailable (d_caps s) name) then None
    else if bool_decide (name = "cap-notify") && (302 <=? d_capVersion s) && negb enable then None
    else if decide (name = "soju.im/account-required") then None
    else cap_req s names (<[name := enable]> m)
  end.

Definition cap_reply (sub arg : string) : DM unit :=
  n ← gets d_nick; SendMessage_dc (msg_from de_srvPrefix "CAP" [n; sub; arg]).

Definition modify_reg (f : downstreamRegistration → downstreamRegistration) : DM unit :=
  modify (λ s, set_d_registration (f (d_registration s)) s).
Definition negotiating (b : bool) : DM unit :=
  r ← gets d_registered; when (negb r) (modify_reg (set_rNegotiatingCaps b)).

Definition handleCap (m : Message) : DM unit :=
  ps ← lift (parseMessageParams m 1);
  let args := drop 1 (Params m) in
  let cmd := ToUpper (param ps 0) in
  if decide (cmd = "LS") then
    (match args with
     | [] => skip
     | v :: _ =>
       match Atoi v with
       | Some n => modify (set_d_capVersion n)
       | None => modify (set_d_capVersion (Atoi_err v)) ;; fail (Errorf "strconv.Atoi: parsing %q")
       end
     end) ;;
    s ← gets id;
    when (negb (d_registered s) && (302 <=? d_capVersion s))
      (modify (λ s, set_d_caps (MkCaps (passthroughDownstreamCaps ∪ Available (d_caps s)) (Enabled (d_caps s))) s)) ;;
    s ← gets id;
    cap_reply "LS" (Join ((λ kv : string * string,
      if (302 <=? d_capVersion s) && bool_decide (kv.2 ≠ "") then kv.1 +:+ "=" +:+ kv.2 else kv.1)
      <$> map_to_list (Available (d_caps s))) " ") ;;
    when (302 <=? d_capVersion s) (modify (λ s, set_d_caps (SetEnabled "cap-notify" true (d_caps s)) s)) ;;
    negotiating true
  else if decide (cmd = "LIST") then
    s ← gets id; cap_reply "LIST" (Join (elements (Enabled (d_caps s))) " ")
  else if decide (cmd = "REQ") then
    s ← gets id;
    match args with
    | [] => fail (ircError (msg ERR_INVALIDCAPCMD [d_nick s; cmd; "Missing argument in CAP REQ command"]))
    | arg :: _ =>
      (match cap_req s (Fields arg) ∅ with
       | Some changes =>
         modify (set_d_caps (foldl (λ cr kv, SetEnabled kv.1 kv.2 cr) (d_caps s) (map_to_list changes))) ;;
         cap_reply "ACK" arg
       | None => cap_reply "NAK" arg
       end) ;;
      negotiating true
    end
  else if decide (cmd = "END") then negotiating false
  else
    n ← gets d_nick;
    fail (ircError (msg ERR_INVALIDCAPCMD [n; cmd; "Unknown CAP command"])).
End downstream.
