(* ===== verification/DownstreamHandlers.v ===== *)
(** * Downstream connections: registration and mirrored state (downstream.go)

    What a client sees of its network (nickname, host, account, real name, ISUPPORT tokens,
    capabilities), SASL authentication, the commands accepted before registration, and the
    registration itself. *)

From S2P Require Import Prelude GoStrings GoUnicode GoStrconv IrcMessage CaseMapping Membership Modes WhoX Base64.
From S2P Require Import Effects GenMsg Caps Database Highlight Upstream UpstreamHandlers Downstream.

Open Scope string_scope.
Open Scope list_scope.
Open Scope Z_scope.

(** [unmarshalUsername]: [username], [username/network], [username@client] and both, in
    either order; the result is the user name, the client and the network. *)
Definition unmarshalUsername (raw : string) : string * string * string :=
  let i := IndexAny raw "/@" in
  let j := LastIndexAny raw "/@" in
  let at_sign n := bool_decide (String.get n raw = Some "@"%char) in
  let username := match i with Some i => str_take i raw | None => raw end in
  let '(client, network) :=
    match j with
    | Some j => if at_sign j then (str_drop (j + 1) raw, "") else ("", str_drop (j + 1) raw)
    | None => ("", "")
    end in
  match i, j with
  | Some i, Some j =>
    if (i <? j)%nat then
      let mid := str_take (j - (i + 1)) (str_drop (i + 1) raw) in
      if at_sign i then (username, mid, network) else (username, client, mid)
    else (username, client, network)
  | _, _ => (username, client, network)
  end.

(** [getMessageTargetMetadata] *)
Definition getMessageTargetMetadata (mt : MessageTarget) : gmap string string :=
  let flag (b : bool) := if b then "1" else "0" in
  list_to_map [("soju.im/pinned", flag (mtPinned mt)); ("soju.im/muted", flag (mtMuted mt));
               ("soju.im/blocked", flag (mtBlocked mt))].

Definition metadataKeys : list string := ["soju.im/pinned"; "soju.im/muted"; "soju.im/blocked"].

Section handlers.
Context `{DE : denv} `{UnicodeTables}.

(** ** What the client sees of its network *)

Definition chatHistoryLimit : Z := 1000.

(** [isupport[k] = v] under a condition. *)
Definition put_if (b : bool) (k : string) (v : option string) (m : gmap string (option string)) :
    gmap string (option string) := if b then <[k := v]> m else m.

Definition buildIsupport (s : dstate) : gmap string (option string) :=
  let cfg := de_config in
  let net := d_network s in
  let unbound := bool_decide (net = None) in
  let hasUser := bool_decide (is_Some (d_user s)) in
  let m := permanentIsupport in
  let m := match net with
           | Some net => <["BOUNCER_NETID" := Some (FormatInt (nID (net_record net)))]> m
           | None => m
           end in
  let m := put_if (unbound && bool_decide (cfgTitle cfg ≠ "")) "NETWORK" (Some (cfgTitle cfg)) m in
  let m := if unbound && bool_decide (cfgIconURL cfg ≠ "") then <["draft/ICON" := Some (cfgIconURL cfg)]> m
           else put_if (unbound && bool_decide (cfgIconPath cfg ≠ "")) "draft/ICON"
                  (Some (cfgHTTPIngress cfg +:+ "/icon")) m in
  let m := if hasUser then
      let m := if unbound then
        <["LINELEN" := Some "4096"]> (<["CHANTYPES" := Some ""]> (<["WHOX" := None]>
          (<["CASEMAPPING" := Some "ascii"]> (<["BOT" := Some "B"]> m)))) else m in
      let m := if de_chatHistoryStore && negb unbound then
        <["MSGREFTYPES" := Some "timestamp"]> (<["CHATHISTORY" := Some (FormatInt chatHistoryLimit)]> m) else m in
      let m := put_if (IsEnabled (d_caps s) "soju.im/webpush") "VAPID" (Some (cfgVAPIDPublic cfg)) m in
      put_if (cfgFileUploader cfg) "soju.im/FILEHOST" (Some (cfgHTTPIngress cfg +:+ "/uploads")) m
    else m in
  match d_upstream s with
  | None => m
  | Some uc =>
    let m := put_if (bool_decide (isupport uc !! "CLIENTTAGDENY" = None)
                     && negb (IsEnabled (caps uc) "message-tags")) "CLIENTTAGDENY" (Some "*") m in
    foldl (λ m k, match isupport uc !! k with Some v => <[k := v]> m | None => m end) m passthroughIsupport
  end.

Definition sendIsupport (tokens : gmap string (option string)) : DM unit :=
  cr ← gets d_caps;
  if IsEnabled cr "draft/extended-isupport" then
    SendBatch_dc "draft/isupport" [] ∅ (λ batchRef,
      foreach (λ m, SendMessage_dc (with_tags (<["batch" := batchRef]>) m)) (GenerateIsupport tokens))
  else foreach SendMessage_dc (GenerateIsupport tokens).

(** The tokens that differ; the ones that went away are negated. *)
Definition isupport_changes (old new : gmap string (option string)) : gmap string (option string) :=
  list_to_map ((λ k, ("-" +:+ k, None)) <$> elements (dom old ∖ dom new)) ∪
  filter (λ kv, old !! kv.1 ≠ Some kv.2) new.

Definition updateIsupport_dc : DM unit :=
  s ← gets id;
  if negb (d_registered s) && negb (IsEnabled (d_caps s) "draft/extended-isupport") then skip
  else
    let tokens := buildIsupport s in
    sendIsupport (isupport_changes (d_isupport s) tokens) ;;
    modify (set_d_isupport tokens).

Definition network_record (s : dstate) : option dbNetwork := net_record <$> d_network s.

(** [dc.user.User]; the connection belongs to a user by then. *)
Definition d_user_record (s : dstate) : DM dbUser :=
  match d_user s with Some u => mret u | None => panic "invalid memory address or nil pointer dereference" end.

Definition updateNick_dc : DM unit :=
  s ← gets id;
  n ← (match d_upstream s with
       | Some uc => mret (nick uc)
       | None => u ← d_user_record s; mret (GetNick u (network_record s))
       end);
  if decide (n = d_nick s) then skip
  else
    SendMessage_dc (msg_from (d_prefix s) "NICK" [n]) ;;
    modify (λ s, set_d_nickCM (cm_apply (d_casemap s) n) (set_d_nick n s)).

Definition updateHost_dc : DM unit :=
  s ← gets id;
  match d_upstream s with
  | None => skip
  | Some uc =>
    if decide (hostname uc = "") then skip
    else if decide (hostname uc = d_hostname s ∧ username uc = d_username s) then skip
    else
      (if IsEnabled (d_caps s) "chghost" then
         SendMessage_dc (msg_from (d_prefix s) "CHGHOST" [username uc; hostname uc])
       else if decide (hostname uc ≠ d_hostname s) then
         SendMessage_dc (msg_from (d_prefix s) RPL_VISIBLEHOST [d_nick s; hostname uc; "is now your visible host"])
       else skip) ;;
      modify (λ s, set_d_username (username uc) (set_d_hostname (hostname uc) s))
  end.

Definition updateRealname_dc : DM unit :=
  s ← gets id;
  if negb (IsEnabled (d_caps s) "setname") then skip
  else
    rn ← (match d_upstream s with
          | Some uc => mret (realname uc)
          | None => u ← d_user_record s; mret (GetRealname u (network_record s))
          end);
    if decide (rn = d_realname s) then skip
    else SendMessage_dc (msg_from (d_prefix s) "SETNAME" [rn]) ;; modify (set_d_realname rn).

Definition updateAccount_dc : DM unit :=
  s ← gets id;
  acc ← (match d_network s with
         | None => u ← d_user_record s; mret (Some (uUsername u))
         | Some _ => mret (account <$> d_upstream s)
         end);
  match acc with
  | None => skip
  | Some acc =>
    if bool_decide (d_account s = acc) || negb (IsEnabled (d_caps s) "sasl") then skip
    else
      (if decide (acc ≠ "") then
         SendMessage_dc (msg RPL_LOGGEDIN [d_nick s; de_PrefixString (d_prefix s); acc; "You are logged in as " +:+ acc])
       else SendMessage_dc (msg RPL_LOGGEDOUT [d_nick s; de_PrefixString (d_prefix s); "You are logged out"])) ;;
      modify (set_d_account acc)
  end.

Definition dcUpdateCasemapping : DM unit :=
  modify (λ s,
    let cm := match d_network s with Some net => net_casemap net | None => CaseMappingASCII end in
    set_d_monitored (CMM.SetCaseMapping (d_monitored s) cm)
      (set_d_nickCM (cm_apply cm (d_nick s)) (set_d_casemap cm s))).

(** ** SASL *)

Definition endSASL_dc (om : option Message) : DM unit :=
  s ← gets id;
  match d_sasl s with
  | None => skip
  | Some _ =>
    modify (set_d_sasl None) ;;
    SendMessage_dc (default (msg RPL_SASLSUCCESS [d_nick s; "SASL authentication successful"]) om)
  end.

(** A deferred function that resets [dc.sasl] when an error is returned. *)
Definition resetting_sasl {A} (body : DM A) : DM A := λ s,
  match body s with
  | (s', Err e) => (set_d_sasl None s', Err e)
  | r => r
  end.

Definition sasl_fail {A} (cmd text : string) : DM A :=
  n ← gets d_nick; fail (ircError (msg cmd [n; text])).

(** [dc.sasl.server.Next(resp)] and what follows it. *)
Definition sasl_next (sasl : downstreamSASL) (resp : option string) : DM (option downstreamSASL) :=
  let st := de_saslNext (sMechanism sasl) (sServer sasl) resp in
  let sasl := MkDownstreamSASL (sMechanism sasl) (sServer sasl ++ [resp])
    (match st_plain st with Some p => Some p | None => sPlain sasl end)
    (match st_oauth st with Some o => Some o | None => sOAuth sasl end) (sPendingResp sasl) in
  modify (set_d_sasl (Some sasl)) ;;
  if st_failed st then fail (Errorf "sasl: %v")
  else if st_done st then mret (Some sasl)
  else
    SendMessage_dc (msg "AUTHENTICATE"
      [if decide (st_challenge st = "") then "+" else EncodeToString (st_challenge st)]) ;;
    mret None.

Definition handleAuthenticate (m : Message) : DM (option downstreamSASL) := resetting_sasl (
  s ← gets id;
  if negb (IsEnabled (d_caps s) "sasl") then
    sasl_fail ERR_SASLFAIL ("AUTHENTICATE requires the " +:+ dquote +:+ "sasl" +:+ dquote +:+ " capability to be enabled")
  else match Params m with
  | [] => sasl_fail ERR_SASLFAIL "Missing AUTHENTICATE argument"
  | arg :: _ =>
    if decide (arg = "*") then sasl_fail ERR_SASLABORTED "SASL authentication aborted"
    else match d_sasl s with
    | None =>
      let mech := ToUpper arg in
      if decide (mech ∈ ["PLAIN"; "OAUTHBEARER"; "ANONYMOUS"; "EXTERNAL"]) then
        sasl_next (MkDownstreamSASL mech [] None None "") None
      else sasl_fail ERR_SASLFAIL "Unsupported SASL mechanism"
    | Some sasl =>
      let chunk := if decide (arg = "+") then "" else arg in
      if (10 * 1024 <? slen (sPendingResp sasl) + slen chunk)%nat then sasl_fail ERR_SASLFAIL "Response too long"
      else
        let pending := sPendingResp sasl +:+ chunk in
        let with_pending p :=
          MkDownstreamSASL (sMechanism sasl) (sServer sasl) (sPlain sasl) (sOAuth sasl) p in
        modify (set_d_sasl (Some (with_pending pending))) ;;
        if (slen chunk =? MaxSASLLength)%nat then mret None
        else match DecodeString pending with
        | None => sasl_fail ERR_SASLFAIL "Invalid base64-encoded response"
        | Some resp =>
          modify (set_d_sasl (Some (with_pending ""))) ;;
          sasl_next (with_pending "") (Some resp)
        end
    end
  end).

(** ** Authentication *)

Definition setAuthUsername (username clientName networkName : string) : DM unit :=
  modify (set_d_clientName clientName) ;;
  modify_reg (λ r, set_rNetworkName networkName (set_rAuthUsername username r)).

(** Who a finished SASL exchange authenticates: user name, client, network, and whether an
    administrator acts for somebody else. *)
Definition identity : Type := string * string * string * bool.

Definition auth_sasl_plain (p : saslPlain) : DM (identity + autherr) :=
  let '(u, c, n) := unmarshalUsername (plUsername p) in
  match de_AuthPlain with
  | None => mret (inr OtherError)
  | Some auth =>
    err ← dcall (DAuthPlain u (plPassword p)) (λ tr, auth tr u (plPassword p));
    match err with
    | Some _ => mret (inr OtherError)
    | None =>
      if decide (plIdentity p ≠ "" ∧ plIdentity p ≠ plUsername p) then
        admin ← dcall (DGetUser u) (λ tr, de_GetUser tr u);
        match admin with
        | inr _ => mret (inr OtherError)
        | inl admin =>
          if negb (uAdmin admin) then mret (inr OtherError)
          else
            let '(u', c', n') := unmarshalUsername (plIdentity p) in
            target ← dcall (DGetUser u') (λ tr, de_GetUser tr u');
            match target with
            | inr _ => mret (inr OtherError)
            | inl _ => mret (inl (u', c', n', true))
            end
        end
      else mret (inl (u, c, n, false))
    end
  end.

Definition auth_sasl_oauth (o : oauthBearer) : DM (identity + autherr) :=
  match de_AuthOAuthBearer with
  | None => mret (inr OtherError)
  | Some auth =>
    r ← dcall (DAuthOAuthBearer (oaToken o)) (λ tr, auth tr (oaToken o));
    match r with
    | inr e => mret (inr e)
    | inl u =>
      if decide (oaUsername o ≠ "" ∧ oaUsername o ≠ u) then mret (inr OtherError)
      else mret (inl (u, "", "", false))
    end
  end.

Definition auth_sasl_external : DM (identity + autherr) :=
  if negb (cfgClientCertAuth de_config) then mret (inr OtherError)
  else match de_peerCertHash with
  | None => mret (inr OtherError)
  | Some h =>
    r ← dcall (DGetDeviceCertificate h) (λ tr, de_GetDeviceCertificate tr h);
    match r with
    | inr _ | inl (_, None) => mret (inr OtherError)
    | inl (userID, Some device) =>
      r ← dcall (DGetUsernameByID userID) (λ tr, de_GetUsernameByID tr userID);
      match r with
      | inr _ => mret (inr OtherError)
      | inl u =>
        if decide (u = "") then mret (inl ("", "", "", false))
        else
          device ← gets (λ s, de_MarkUsed (d_trace s) device);
          err ← dcall (DStoreDeviceCertificate userID device) (λ tr, de_StoreDeviceCertificate tr userID device);
          match err with
          | Some _ => mret (inr OtherError)
          | None => mret (inl (u, "", "", false))
          end
      end
    end
  end.

Definition auth_sasl (credentials : downstreamSASL) : DM (identity + autherr) :=
  let nil_deref := panic "invalid memory address or nil pointer dereference" in
  if decide (sMechanism credentials = "PLAIN") then
    match sPlain credentials with None => nil_deref | Some p => auth_sasl_plain p end
  else if decide (sMechanism credentials = "OAUTHBEARER") then
    match sOAuth credentials with
    | None => match de_AuthOAuthBearer with None => mret (inr OtherError) | Some _ => nil_deref end
    | Some o => auth_sasl_oauth o
    end
  else if decide (sMechanism credentials = "EXTERNAL") then auth_sasl_external
  else mret (inr OtherError).

Definition handle_unregistered_AUTHENTICATE (m : Message) : DM unit :=
  credentials ← handleAuthenticate m;
  match credentials with
  | None => skip
  | Some credentials =>
    r ← auth_sasl credentials;
    match r with
    | inr err => n ← gets d_nick; endSASL_dc (Some (msg ERR_SASLFAIL [n; authErrorReason err]))
    | inl (u, c, n, imp) =>
      if decide (u = "") then panic "username unset after SASL authentication"
      else
        setAuthUsername u c n ;;
        modify (set_d_impersonating imp) ;;
        endSASL_dc None
    end
  end.

(** ** Commands before registration *)

Definition handle_unregistered_BOUNCER (m : Message) : DM unit :=
  ps ← lift (parseMessageParams m 1);
  let sub := param ps 0 in
  if decide (ToUpper sub = "BIND") then
    ps ← lift (parseMessageParams m 2);
    r ← gets d_registration;
    if decide (rAuthUsername r = "") then
      fail (ircError (msg "FAIL" ["BOUNCER"; "ACCOUNT_REQUIRED"; "BIND"; "Authentication needed to bind to bouncer network"]))
    else
      id ← lift (parseBouncerNetID sub (param ps 1));
      modify_reg (set_rNetworkID id)
  else fail (ircError (msg "FAIL" ["BOUNCER"; "UNKNOWN_COMMAND"; sub; "Unknown subcommand"])).

(** One key of METADATA SUB and UNSUB. *)
Definition metadata_key (m : Message) (sub k : string) : DM unit :=
  let k := ToLower k in
  if decide (k ∉ metadataKeys) then
    SendMessage_dc (msg "FAIL" [Command m; "KEY_INVALID"; k; "Invalid key"])
  else if decide (sub = "SUB") then
    modify (λ s, set_d_metadataSubs ({[k]} ∪ d_metadataSubs s) s) ;;
    net ← gets d_network;
    (match net with
     | None => skip
     | Some net =>
       let id := nID (net_record net) in
       r ← dcall (DListMessageTargets id) (λ tr, de_ListMessageTargets tr id);
       match r with
       | inr _ => fail (ircError (msg "FAIL" ["METADATA"; "INTERNAL_ERROR"; "*"; "Internal error"]))
       | inl targets =>
         foreach (λ mt, match getMessageTargetMetadata mt !! k with
                        | Some v => SendMessage_dc (msg "METADATA" [mtTarget mt; k; "*"; v])
                        | None => skip
                        end) targets
       end
     end) ;;
    SendMessage_dc (msg RPL_METADATASUBOK ["*"; k])
  else
    modify (λ s, set_d_metadataSubs (d_metadataSubs s ∖ {[k]}) s) ;;
    SendMessage_dc (msg RPL_METADATAUNSUBOK ["*"; k]).

(** Whether the subcommand was handled. *)
Definition handleMetadataSub (m : Message) : DM bool :=
  ps ← lift (parseMessageParams m 2);
  let sub := param ps 1 in
  if decide (sub = "SUB" ∨ sub = "UNSUB") then
    foreach (metadata_key m sub) (drop 2 (Params m)) ;; mret true
  else if decide (sub = "SUBS") then
    subs ← gets d_metadataSubs;
    foreach (λ k, SendMessage_dc (msg RPL_METADATASUBS ["*"; k])) (elements subs) ;; mret true
  else mret false.

Definition handleMessageUnregistered (m : Message) : DM unit :=
  if decide (Command m = "NICK") then
    ps ← lift (parseMessageParams m 1); modify_reg (set_rNick (param ps 0))
  else if decide (Command m = "USER") then
    ps ← lift (parseMessageParams m 4); modify_reg (set_rUsername (param ps 0))
  else if decide (Command m = "PASS") then
    ps ← lift (parseMessageParams m 1); modify_reg (set_rPass (param ps 0))
  else if decide (Command m = "CAP") then handleCap m
  else if decide (Command m = "AUTHENTICATE") then handle_unregistered_AUTHENTICATE m
  else if decide (Command m = "BOUNCER") then handle_unregistered_BOUNCER m
  else if decide (Command m = "AWAY") then
    modify (set_d_away (head (Params m))) ;;
    away ← gets d_away;
    SendMessage_dc (generateAwayReply (bool_decide (is_Some away)))
  else if decide (Command m = "METADATA") then
    ps ← lift (parseMessageParams m 2);
    handled ← handleMetadataSub m;
    if (handled : bool) then skip
    else fail (ircError (msg "FAIL" ["METADATA"; "INVALID_PARAMS"; param ps 1; "Unknown command"]))
  else fail (newUnknownCommandError (Command m)).

(** ** The message loop

    [handleMessageRegistered] is an argument: the commands of a registered client. *)

Definition dispatch_dc (handleMessageRegistered : Message → DM unit) (m : Message) : DM unit :=
  s ← gets id;
  if decide (Command m = "QUIT") then demit DShutdown
  else if decide (Command m = "ISUPPORT") then
    if negb (IsEnabled (d_caps s) "draft/extended-isupport") then fail (newUnknownCommandError (Command m))
    else
      let tokens := buildIsupport s in
      sendIsupport tokens ;; modify (set_d_isupport tokens)
  else
    r ← try (if d_registered s then handleMessageRegistered m else handleMessageUnregistered m);
    match r with
    | inl _ => skip
    | inr (ircError em) => SendMessage_dc (with_prefix (Some de_srvPrefix) em)
    | inr e => fail e
    end.

Definition handleMessage_dc (handleMessageRegistered : Message → DM unit) (m : Message) : DM unit :=
  cr ← gets d_caps;
  (match Tags m !! "label" with
   | Some label => when (IsEnabled cr "labeled-response") (set_label (MkLabel label "" None))
   | None => skip
   end) ;;
  finally (dispatch_dc handleMessageRegistered m ;; FlushBatch_dc) (modify (set_d_label None)).

(** The authentication with PASS, for a client without a SASL account; [s] is the state in
    which the password was taken. *)
Definition register_auth (s : dstate) (password : string) : DM unit :=
  if decide (rAuthUsername (d_registration s) = "") then
    if decide (password = "") then
      if IsEnabled (d_caps s) "sasl"
      then fail (ircError (msg "FAIL" ["*"; "ACCOUNT_REQUIRED"; "Authentication required"]))
      else fail (ircError (msg ERR_PASSWDMISMATCH [d_nick s; "Authentication required"]))
    else match de_AuthPlain with
    | None => fail (ircError (msg ERR_PASSWDMISMATCH [d_nick s; "PASS authentication disabled"]))
    | Some auth =>
      let '(u, c, n) := unmarshalUsername (rUsername (d_registration s)) in
      err ← dcall (DAuthPlain u password) (λ tr, auth tr u password);
      match err with
      | Some e => fail (ircError (msg ERR_PASSWDMISMATCH [d_nick s; authErrorReason e]))
      | None => setAuthUsername u c n
      end
    end
  else skip.

Definition register : DM unit :=
  s ← gets id;
  if d_registered s then panic "tried to register twice"
  else
    when (bool_decide (is_Some (d_sasl s)))
      (endSASL_dc (Some (msg ERR_SASLABORTED [d_nick s; "SASL authentication aborted"]))) ;;
    s ← gets id;
    let password := rPass (d_registration s) in
    modify_reg (set_rPass "") ;;
    register_auth s password ;;
    s ← gets id;
    let '(_, fallbackClient, fallbackNetwork) := unmarshalUsername (rUsername (d_registration s)) in
    (if decide (d_clientName s = "") then modify (set_d_clientName fallbackClient)
     else if decide (fallbackClient ≠ "" ∧ d_clientName s ≠ fallbackClient) then
       fail (ircError (msg ERR_ERRONEUSNICKNAME [d_nick s; "Client name mismatch in usernames"]))
     else skip) ;;
    (if decide (rNetworkName (d_registration s) = "") then modify_reg (set_rNetworkName fallbackNetwork)
     else if decide (fallbackNetwork ≠ "" ∧ rNetworkName (d_registration s) ≠ fallbackNetwork) then
       fail (ircError (msg ERR_ERRONEUSNICKNAME [d_nick s; "Network name mismatch in usernames"]))
     else skip) ;;
    modify (λ s, set_d_username (rAuthUsername (d_registration s)) (set_d_registered true s)).

(** The loop over the messages the client sends; running out of them is the end of the
    connection. *)
Fixpoint runUntilRegistered_dc (handleMessageRegistered : Message → DM unit) (msgs : list Message) : DM unit :=
  r ← gets d_registered;
  if (r : bool) then skip
  else match msgs with
  | [] => fail (Errorf "failed to read IRC command: %w")
  | m :: msgs =>
    r ← try (handleMessage_dc handleMessageRegistered m);
    match r with
    | inr _ => fail (Errorf "failed to handle IRC command %q: %v")
    | inl _ =>
      reg ← gets d_registration;
      if bool_decide (rNick reg = "") || bool_decide (rUsername reg = "") || rNegotiatingCaps reg
      then runUntilRegistered_dc handleMessageRegistered msgs
      else
        r ← try register;
        match r with
        | inl _ => skip
        | inr (ircError em) => SendMessage_dc (with_prefix (Some de_srvPrefix) em) ;; fail (Errorf "EOF")
        | inr _ => fail (Errorf "connection registration failed: %v")
        end
    end
  end.
End handlers.
