(* ===== verification/DownstreamAuth.v ===== *)
(** * Downstream connections: nobody registers without authenticating

    The safety of the registration of a client, the bounds of its SASL buffer and the
    consistency of its capabilities, and the SASL exchange as a round trip. *)

From S2P Require Import Prelude GoStrings GoUnicode GoStrconv IrcMessage CaseMapping Membership Modes WhoX Base64.
From S2P Require Import Effects GenMsg Caps Database Highlight Upstream UpstreamHandlers Downstream DownstreamHandlers.

Open Scope string_scope.
Open Scope list_scope.
Open Scope Z_scope.

Create HintDb auth discriminated.

Section auth.
Context `{DE : denv} `{UnicodeTables}.

(** ** Evidence of an authentication *)

(** The back end that checks passwords accepted one for [u], during [tr]. *)
Definition password_accepted (tr : list daction) (u : string) : Prop :=
  ∃ auth pre pw post, de_AuthPlain = Some auth ∧ tr = pre ++ DAuthPlain u pw :: post ∧ auth pre u pw = None.

Definition token_accepted (tr : list daction) (u : string) : Prop :=
  ∃ auth pre tok post, de_AuthOAuthBearer = Some auth ∧ tr = pre ++ DAuthOAuthBearer tok :: post ∧ auth pre tok = inl u.

(** The certificate of the connection is registered for the user called [u]. *)
Definition certificate_accepted (tr : list daction) (u : string) : Prop :=
  ∃ h pre id dev post, cfgClientCertAuth de_config = true ∧ de_peerCertHash = Some h ∧
    tr = pre ++ DGetDeviceCertificate h :: DGetUsernameByID id :: post ∧
    de_GetDeviceCertificate pre h = inl (id, Some dev) ∧
    de_GetUsernameByID (pre ++ [DGetDeviceCertificate h]) id = inl u.

(** The account of [u] was looked up and has the property [P]. *)
Definition looked_up (tr : list daction) (u : string) (P : dbUser → Prop) : Prop :=
  ∃ pre post record, tr = pre ++ DGetUser u :: post ∧ de_GetUser pre u = inl record ∧ P record.

(** [u] may use the bouncer: itself, or through an administrator when [imp]. *)
Definition authorized (tr : list daction) (u : string) (imp : bool) : Prop :=
  if imp then ∃ admin, password_accepted tr admin ∧ looked_up tr admin (λ r, uAdmin r = true) ∧
                looked_up tr u (λ _, True)
  else password_accepted tr u ∨ token_accepted tr u ∨ certificate_accepted tr u.

Lemma password_accepted_app tr tr' u : password_accepted tr u → password_accepted (tr ++ tr') u.
Proof. intros (a & pre & pw & post & ? & -> & ?). exists a, pre, pw, (post ++ tr'). by rewrite <-app_assoc. Qed.
Lemma token_accepted_app tr tr' u : token_accepted tr u → token_accepted (tr ++ tr') u.
Proof. intros (a & pre & tok & post & ? & -> & ?). exists a, pre, tok, (post ++ tr'). by rewrite <-app_assoc. Qed.
Lemma certificate_accepted_app tr tr' u : certificate_accepted tr u → certificate_accepted (tr ++ tr') u.
Proof.
  intros (h & pre & i & dev & post & ? & ? & -> & ?). exists h, pre, i, dev, (post ++ tr'). by rewrite <-app_assoc.
Qed.
Lemma looked_up_app tr tr' u P : looked_up tr u P → looked_up (tr ++ tr') u P.
Proof. intros (pre & post & r & -> & ?). exists pre, (post ++ tr'), r. by rewrite <-app_assoc. Qed.
#[local] Hint Resolve password_accepted_app token_accepted_app certificate_accepted_app looked_up_app : auth.

Lemma authorized_app tr tr' u imp : authorized tr u imp → authorized (tr ++ tr') u imp.
Proof.
  destruct imp; [intros (a & ? & ? & ?); exists a; auto with auth|].
  intros [?|[?|?]]; [left|right; left|right; right]; auto with auth.
Qed.

(** ** The invariant *)

Definition maxResponse : nat := 10 * 1024.

(** Consistency of the registry of the client: it enables only what is available, never the
    informational account-required, and cap-notify stays available. *)
Definition caps_ok (cr : CapRegistry) : Prop :=
  Enabled cr ⊆ dom (Available cr) ∧ "soju.im/account-required" ∉ Enabled cr ∧
  is_Some (Available cr !! "cap-notify").

(** While the client is not registered: it has a user name only after an authentication, its
    SASL buffer is bounded, and it enables only capabilities it was offered. *)
Record dinv (s : dstate) : Prop := {
  dinv_unregistered : d_registered s = false;
  dinv_auth : if decide (rAuthUsername (d_registration s) = "") then d_impersonating s = false
              else authorized (d_trace s) (rAuthUsername (d_registration s)) (d_impersonating s);
  dinv_sasl sasl : d_sasl s = Some sasl → (slen (sPendingResp sasl) ≤ maxResponse)%nat;
  dinv_caps : caps_ok (d_caps s)
}.

Abbreviation dkeeps := (preserves dinv).

(** A change that touches neither the account, the SASL exchange nor the capabilities, and
    only extends the trace. *)
Lemma dinv_frame s s' :
  dinv s → d_registered s' = d_registered s → d_registration s' = d_registration s →
  d_impersonating s' = d_impersonating s → d_sasl s' = d_sasl s → d_caps s' = d_caps s →
  (∃ tr, d_trace s' = d_trace s ++ tr) → dinv s'.
Proof.
  intros [? ? ? ?] E1 E2 E3 E4 E5 [tr E6]. split; rewrite ?E1, ?E2, ?E3, ?E4, ?E5, ?E6; try done.
  case_decide; [done|]. by apply authorized_app.
Qed.

Ltac frame_modify :=
  apply preserves_modify; intros ? ?; eapply dinv_frame; [eassumption|cbn..];
  try reflexivity; first [by exists []; rewrite app_nil_r | by eexists].

Lemma dkeep_demit a : dkeeps (demit a).
Proof. frame_modify. Qed.
#[local] Hint Resolve dkeep_demit : pres.
Lemma dkeep_dcall {A} a (f : list daction → A) : dkeeps (dcall a f).
Proof. unfold dcall. pres. Qed.
Lemma dkeep_set_label lc : dkeeps (set_label lc).
Proof. frame_modify. Qed.
Lemma dkeep_lastBatchRef r : dkeeps (modify (set_d_lastBatchRef r)).
Proof. frame_modify. Qed.
#[local] Hint Resolve dkeep_dcall dkeep_set_label dkeep_lastBatchRef : pres.
Lemma dkeep_SendMessage m : dkeeps (SendMessage_dc m).
Proof. unfold SendMessage_dc. pres. Qed.
#[local] Hint Resolve dkeep_SendMessage : pres.
Lemma dkeep_Flush : dkeeps FlushBatch_dc.
Proof. unfold FlushBatch_dc. pres. Qed.
Lemma dkeep_SendBatch typ ps tags f : (∀ ref, dkeeps (f ref)) → dkeeps (SendBatch_dc typ ps tags f).
Proof. intros Hf. unfold SendBatch_dc. pres. Qed.
#[local] Hint Resolve dkeep_Flush dkeep_SendBatch : pres.
Lemma dkeep_sendIsupport tokens : dkeeps (sendIsupport tokens).
Proof. unfold sendIsupport. pres. apply dkeep_SendBatch. intros ref. pres. Qed.

(** A change of the registration that leaves the account alone. *)
Lemma dkeep_modify_reg f : (∀ r, rAuthUsername (f r) = rAuthUsername r) → dkeeps (modify_reg f).
Proof.
  intros Hf. apply preserves_modify. intros s [? ? ? ?]. split; cbn; try done. by rewrite Hf.
Qed.
#[local] Hint Resolve dkeep_sendIsupport : pres.
#[local] Hint Extern 1 (dkeeps (modify_reg _)) => apply dkeep_modify_reg; reflexivity : pres.
Lemma dkeep_negotiating b : dkeeps (negotiating b).
Proof. unfold negotiating. pres. Qed.
Lemma dkeep_cap_reply sub arg : dkeeps (cap_reply sub arg).
Proof. unfold cap_reply. pres. Qed.
Lemma dkeep_capVersion v : dkeeps (modify (set_d_capVersion v)).
Proof. frame_modify. Qed.
#[local] Hint Resolve dkeep_negotiating dkeep_cap_reply dkeep_capVersion : pres.

(** ** Capabilities *)

Lemma dkeep_caps f : (∀ s, dinv s → caps_ok (d_caps s) → caps_ok (f s)) → dkeeps (modify (λ s, set_d_caps (f s) s)).
Proof.
  intros Hf. apply preserves_modify. intros s Hs. specialize (Hf s Hs (dinv_caps s Hs)).
  destruct Hs as [? ? ? ?]. by split; cbn.
Qed.

Lemma caps_ok_SetEnabled name b cr :
  caps_ok cr → (b = true → is_Some (Available cr !! name) ∧ name ≠ "soju.im/account-required") →
  caps_ok (SetEnabled name b cr).
Proof.
  intros (Hd & Hr & Hn) Hb. destruct b; split_and!; cbn; try done.
  - destruct (Hb eq_refl) as [Ha _]. apply elem_of_dom in Ha. set_solver +Hd Ha.
  - destruct (Hb eq_refl) as [_ Hne]. rewrite elem_of_union, elem_of_singleton. by intros [?|?].
  - set_solver +Hd.
  - set_solver +Hr.
Qed.

(** What CAP REQ may change. *)
Definition change_ok (s : dstate) (changes : gmap string bool) : Prop :=
  ∀ name, changes !! name = Some true → is_Some (Available (d_caps s) !! name) ∧ name ≠ "soju.im/account-required".

Lemma cap_req_ok s names m changes : change_ok s m → cap_req s names m = Some changes → change_ok s changes.
Proof.
  revert m. induction names as [|name names IH]; intros m Hm; cbn [cap_req]; [by intros [= <-]|].
  set (enable := negb _). set (n := if enable then _ else _).
  destruct (Bool.eqb enable _); [by apply IH|].
  destruct (IsAvailable (d_caps s) n) eqn:Hav; cbn [negb]; [|done].
  destruct (bool_decide (n = "cap-notify") && (302 <=? d_capVersion s) && negb enable); [done|].
  case_decide as Hreq; [done|]. apply IH. intros k. destruct (decide (k = n)) as [->|Hk].
  - rewrite lookup_insert_eq. intros _. split; [by apply bool_decide_eq_true in Hav|done].
  - rewrite lookup_insert_ne by done. apply Hm.
Qed.

Lemma foldl_changes_ok s l cr :
  caps_ok cr → Available cr = Available (d_caps s) →
  (∀ name, (name, true) ∈ l → is_Some (Available (d_caps s) !! name) ∧ name ≠ "soju.im/account-required") →
  caps_ok (foldl (λ cr kv, SetEnabled kv.1 kv.2 cr) cr l).
Proof.
  revert cr. induction l as [|[name b] l IH]; intros cr Hcr Hav Hl; [done|]. apply IH; cbn; [|done|].
  - apply caps_ok_SetEnabled; [done|]. intros ->. rewrite Hav. apply Hl. by left.
  - intros n Hn. apply Hl. by right.
Qed.

Lemma dkeep_offer :
  dkeeps (modify (λ s, set_d_caps (MkCaps (passthroughDownstreamCaps ∪ Available (d_caps s)) (Enabled (d_caps s))) s)).
Proof.
  apply (dkeep_caps (λ s, MkCaps _ _)). intros s _ (Hd & Hr & Hn). split_and!; cbn; [set_solver|done|].
  rewrite lookup_union_is_Some. by right.
Qed.

Lemma dkeep_notify : dkeeps (modify (λ s, set_d_caps (SetEnabled "cap-notify" true (d_caps s)) s)).
Proof.
  apply (dkeep_caps (λ s, SetEnabled "cap-notify" true (d_caps s))). intros s Hs Hc.
  apply caps_ok_SetEnabled; [done|]. intros _. split; [apply Hc|done].
Qed.

Lemma dkeep_handleCap m : dkeeps (handleCap m).
Proof.
  pose proof dkeep_offer. pose proof dkeep_notify. unfold handleCap. pres.
  match goal with Hc : cap_req ?s0 _ _ = Some ?ch |- _ =>
    assert (change_ok s0 ch) as Hch by (eapply cap_req_ok; [|exact Hc]; intros ?; by rewrite lookup_empty) end.
  apply (dkeep_caps (λ _, foldl _ _ _)). intros _ _ _. eapply foldl_changes_ok; [by apply dinv_caps|done|].
  intros name Hin. apply Hch. by apply elem_of_map_to_list.
Qed.
#[local] Hint Resolve dkeep_handleCap : pres.

(** ** SASL *)

Lemma dkeep_sasl o :
  (∀ sasl, o = Some sasl → (slen (sPendingResp sasl) ≤ maxResponse)%nat) → dkeeps (modify (set_d_sasl o)).
Proof. intros Ho. apply preserves_modify. intros s [? ? ? ?]. by split; cbn. Qed.

Lemma dkeep_resetting {A} (body : DM A) : dkeeps body → dkeeps (resetting_sasl body).
Proof.
  intros Hb s Hs. specialize (Hb s Hs). unfold resetting_sasl. destruct (body s) as [s' [a|e|w]]; cbn in *; try done.
  by apply (dkeep_sasl None).
Qed.

Lemma dkeep_endSASL om : dkeeps (endSASL_dc om).
Proof. unfold endSASL_dc. pres. by apply dkeep_sasl. Qed.
#[local] Hint Resolve dkeep_endSASL : pres.

Lemma dkeep_sasl_fail {A} cmd text : dkeeps (sasl_fail (A:=A) cmd text).
Proof. unfold sasl_fail. pres. Qed.
#[local] Hint Resolve dkeep_sasl_fail : pres.

Lemma dkeep_sasl_next sasl resp :
  (slen (sPendingResp sasl) ≤ maxResponse)%nat → dkeeps (sasl_next sasl resp).
Proof. intros Hs. unfold sasl_next. pres. apply dkeep_sasl. by intros ? [= <-]. Qed.

Lemma dkeep_handleAuthenticate m : dkeeps (handleAuthenticate m).
Proof.
  unfold handleAuthenticate. apply dkeep_resetting. pres; try (apply dkeep_sasl; intros ? [= <-]; cbn).
  all: try (apply dkeep_sasl_next; cbn).
  all: bool_to_prop; unfold maxResponse; rewrite ?slen_app; lia.
Qed.

(** ** Who an exchange authenticates *)

Definition identity_ok (r : identity + autherr) (s : dstate) : Prop :=
  dinv s ∧ match r with inl (u, _, _, imp) => (authorized (d_trace s) u imp) | inr _ => True end.

(** A call is recorded, and its answer is that of the environment at that point. *)
Lemma dcall_run {A} a (f : list daction → A) s :
  dcall a f s = (set_d_trace (d_trace s ++ [a]) s, Ok (f (d_trace s))).
Proof. done. Qed.

Lemma dinv_trace s a : dinv s → dinv (set_d_trace (d_trace s ++ [a]) s).
Proof. intros Hs. exact (dkeep_demit a s Hs). Qed.

Lemma auth_sasl_plain_ok p : triple dinv (auth_sasl_plain p) identity_ok dinv.
Proof.
  intros s Hs. unfold auth_sasl_plain. destruct (unmarshalUsername (plUsername p)) as [[u c] n].
  destruct de_AuthPlain as [auth|] eqn:Ea; [|by split].
  unfold mbind at 1, M_bind at 1. rewrite dcall_run. set (s1 := set_d_trace _ s).
  assert (dinv s1) as Hs1 by by apply dinv_trace.
  destruct (auth (d_trace s) u (plPassword p)) eqn:Eauth; [by split|].
  assert (password_accepted (d_trace s1) u) as Hpw by (by exists auth, (d_trace s), (plPassword p), []).
  case_decide; [|by split; [|left]].
  unfold mbind at 1, M_bind at 1. rewrite dcall_run. set (s2 := set_d_trace _ s1).
  assert (dinv s2) as Hs2 by by apply dinv_trace.
  destruct (de_GetUser (d_trace s1) u) as [admin|] eqn:Eadmin; [|by split].
  destruct (uAdmin admin) eqn:Ead; cbn [negb]; [|by split].
  destruct (unmarshalUsername (plIdentity p)) as [[u' c'] n'].
  unfold mbind at 1, M_bind at 1. rewrite dcall_run. set (s3 := set_d_trace _ s2).
  assert (dinv s3) as Hs3 by by apply dinv_trace.
  destruct (de_GetUser (d_trace s2) u') as [target|] eqn:Et; [|by split]. split; [done|]. exists u. split_and!.
  - change (d_trace s3) with ((d_trace s1 ++ [DGetUser u]) ++ [DGetUser u']). auto with auth.
  - change (d_trace s3) with ((d_trace s1 ++ [DGetUser u]) ++ [DGetUser u']). apply looked_up_app.
    by exists (d_trace s1), [], admin.
  - by exists (d_trace s2), [], target.
Qed.

Lemma auth_sasl_oauth_ok o : triple dinv (auth_sasl_oauth o) identity_ok dinv.
Proof.
  intros s Hs. unfold auth_sasl_oauth. destruct de_AuthOAuthBearer as [auth|] eqn:Ea; [|by split].
  unfold mbind at 1, M_bind at 1. rewrite dcall_run. pose proof (dinv_trace s (DAuthOAuthBearer (oaToken o)) Hs).
  destruct (auth (d_trace s) (oaToken o)) as [u|e] eqn:Eauth; [|by split].
  case_decide; [by split|]. split; [done|]. right; left. by exists auth, (d_trace s), (oaToken o), [].
Qed.

Lemma auth_sasl_external_ok : triple dinv auth_sasl_external identity_ok dinv.
Proof.
  intros s Hs. unfold auth_sasl_external. destruct (cfgClientCertAuth de_config) eqn:Ecfg; cbn [negb]; [|by split].
  destruct de_peerCertHash as [h|] eqn:Eh; [|by split].
  unfold mbind at 1, M_bind at 1. rewrite dcall_run. set (s1 := set_d_trace _ s).
  assert (dinv s1) as Hs1 by by apply dinv_trace.
  destruct (de_GetDeviceCertificate (d_trace s) h) as [[uid [dev|]]|e] eqn:Ed; [|by split|by split].
  unfold mbind at 1, M_bind at 1. rewrite dcall_run. set (s2 := set_d_trace _ s1).
  assert (dinv s2) as Hs2 by by apply dinv_trace.
  destruct (de_GetUsernameByID (d_trace s1) uid) as [u|e] eqn:Eu; [|by split].
  assert (certificate_accepted (d_trace s2) u) as Hc.
  { exists h, (d_trace s), uid, dev, []. split_and!; try done. cbn. by rewrite <-app_assoc. }
  case_decide as Hempty.
  { split; [done|]. rewrite <-Hempty. by right; right. }
  unfold mbind at 1, M_bind at 1, gets at 1, mbind at 1, M_bind at 1. rewrite dcall_run. set (s3 := set_d_trace _ s2).
  assert (dinv s3) as Hs3 by by apply dinv_trace.
  destruct (de_StoreDeviceCertificate _ _ _); [by split|]. split; [done|]. right; right.
  by apply certificate_accepted_app.
Qed.

Lemma auth_sasl_ok credentials : triple dinv (auth_sasl credentials) identity_ok dinv.
Proof.
  unfold auth_sasl. repeat case_match.
  all: first [ apply auth_sasl_plain_ok | apply auth_sasl_oauth_ok | apply auth_sasl_external_ok
             | by apply triple_panic | apply triple_ret; by intros s ].
Qed.

(** The account changes only on evidence. *)
Lemma set_account_ok u c n imp :
  u ≠ "" → triple (identity_ok (inl (u, c, n, imp))) (setAuthUsername u c n ;; modify (set_d_impersonating imp))
             (λ _, dinv) dinv.
Proof.
  intros Hu s [[? ? ? ?] Hau]. split; try done. cbn. by rewrite decide_False.
Qed.

Lemma dkeep_AUTHENTICATE m : dkeeps (handle_unregistered_AUTHENTICATE m).
Proof.
  apply preserves_triple. unfold handle_unregistered_AUTHENTICATE.
  eapply triple_bind; [apply triple_preserves, dkeep_handleAuthenticate|]. intros [cr|]; [|by apply triple_ret].
  eapply triple_bind; [apply auth_sasl_ok|]. intros [[[[u c] n] imp]|e].
  - case_decide as Hu; [apply triple_panic; by intros s []|].
    intros s Hs. pose proof (set_account_ok u c n imp Hu s Hs) as Hacc.
    revert Hacc. unfold mbind, M_bind. destruct (setAuthUsername u c n s) as [s1 [?|?|?]]; [|done|done].
    cbn. intros Hacc. exact (triple_preserves _ _ (dkeep_endSASL None) _ Hacc).
  - apply triple_gets. intros s0 [Hs0 _] s ->. exact (triple_preserves _ _ (dkeep_endSASL _) _ Hs0).
Qed.
#[local] Hint Resolve dkeep_AUTHENTICATE : pres.

(** ** Every message keeps the invariant *)

Lemma dkeep_BOUNCER m : dkeeps (handle_unregistered_BOUNCER m).
Proof. unfold handle_unregistered_BOUNCER. pres. Qed.
Lemma dkeep_metadataSubs f : dkeeps (modify (λ s, set_d_metadataSubs (f s) s)).
Proof. frame_modify. Qed.
#[local] Hint Resolve dkeep_BOUNCER dkeep_metadataSubs : pres.
Lemma dkeep_metadata_key m sub k : dkeeps (metadata_key m sub k).
Proof. unfold metadata_key. pres. Qed.
#[local] Hint Resolve dkeep_metadata_key : pres.
Lemma dkeep_metadataSub m : dkeeps (handleMetadataSub m).
Proof. unfold handleMetadataSub. pres. Qed.
Lemma dkeep_away a : dkeeps (modify (set_d_away a)).
Proof. frame_modify. Qed.
#[local] Hint Resolve dkeep_metadataSub dkeep_away : pres.
Lemma dkeep_unregistered m : dkeeps (handleMessageUnregistered m).
Proof. unfold handleMessageUnregistered. pres. Qed.
#[local] Hint Resolve dkeep_unregistered : pres.
Lemma dkeep_isupport tokens : dkeeps (modify (set_d_isupport tokens)).
Proof. frame_modify. Qed.
Lemma dkeep_clear_label : dkeeps (modify (set_d_label None)).
Proof. frame_modify. Qed.
#[local] Hint Resolve dkeep_isupport dkeep_clear_label : pres.

Lemma dkeep_dispatch h m : dkeeps (dispatch_dc h m).
Proof.
  unfold dispatch_dc. apply preserves_bind_gets. intros s0 Hs0. cbv beta delta [Datatypes.id].
  rewrite (dinv_unregistered s0 Hs0). pres.
Qed.
#[local] Hint Resolve dkeep_dispatch : pres.
Lemma dkeep_handleMessage h m : dkeeps (handleMessage_dc h m).
Proof. unfold handleMessage_dc. pres. Qed.

(** ** Registration *)

Definition accounted (s : dstate) : Prop :=
  dinv s ∧ authorized (d_trace s) (rAuthUsername (d_registration s)) (d_impersonating s).

(** A registered connection runs as a user who was authenticated. *)
Definition admitted (s : dstate) : Prop :=
  d_registered s = true ∧ authorized (d_trace s) (d_username s) (d_impersonating s).

Lemma register_auth_ok s0 :
  dinv s0 → triple (λ s, s = set_d_registration (set_rPass "" (d_registration s0)) s0)
    (register_auth s0 (rPass (d_registration s0))) (λ _, accounted) dinv.
Proof.
  intros H0 s ->. set (s1 := set_d_registration _ s0).
  assert (dinv s1) as H1 by (destruct H0 as [? ? ? ?]; by split).
  unfold register_auth. case_decide as Hu; [|by split; [done|]; pose proof (dinv_auth _ H1) as Ha; cbn in Ha; rewrite decide_False in Ha].
  case_decide as Hp; [by destruct (IsEnabled (d_caps s0) "sasl")|].
  destruct de_AuthPlain as [auth|] eqn:Ea; [|done]. destruct (unmarshalUsername _) as [[u c] n].
  unfold mbind at 1, M_bind at 1. rewrite dcall_run. set (s2 := set_d_trace _ s1).
  assert (dinv s2) as H2 by by apply dinv_trace.
  destruct (auth (d_trace s1) u _) eqn:Eauth; [done|]. cbn.
  assert (d_impersonating s1 = false) as Himp.
  { pose proof (dinv_auth _ H1) as Ha. cbn in Ha. by rewrite decide_True in Ha. }
  assert (authorized (d_trace s2) u (d_impersonating s1)) as Hau.
  { rewrite Himp. left. by exists auth, (d_trace s1), (rPass (d_registration s0)), []. }
  split; [|done]. destruct H2 as [? ? ? ?]. split; try done. cbn. destruct (decide (u = "")); [exact Himp|exact Hau].
Qed.

(** A change of what is left of the registration. *)
Lemma accounted_frame s s' :
  accounted s → d_registered s' = d_registered s →
  rAuthUsername (d_registration s') = rAuthUsername (d_registration s) →
  d_impersonating s' = d_impersonating s → d_sasl s' = d_sasl s → d_caps s' = d_caps s →
  d_trace s' = d_trace s → accounted s'.
Proof.
  intros [[? ? ? ?] Ha] E1 E2 E3 E4 E5 E6. split; [split|]; by rewrite ?E1, ?E2, ?E3, ?E4, ?E5, ?E6.
Qed.

Lemma keep_account {A} (m : DM A) : preserves accounted m → triple accounted m (λ _, accounted) dinv.
Proof.
  intros Hm. eapply triple_conseq; [by apply triple_preserves|done|done|]. by intros s [].
Qed.

Ltac frame_account :=
  apply keep_account, preserves_modify; intros ? Hs; eapply accounted_frame; [exact Hs|done..].

Lemma register_ok : triple dinv register (λ _, admitted) dinv.
Proof.
  unfold register. apply triple_gets. intros s0 H0. cbv beta delta [Datatypes.id].
  rewrite (dinv_unregistered s0 H0). eapply triple_bind with (R := λ _, dinv).
  { eapply triple_conseq; [apply triple_preserves, preserves_when; intros _; apply dkeep_endSASL|..]; try done.
    by intros s ->. }
  intros _. apply triple_gets. intros s1 H1. cbv beta zeta delta [Datatypes.id].
  apply triple_modify_eq. eapply (triple_bind _ _ _ (λ _, accounted)); [by apply register_auth_ok|].
  intros _. apply triple_gets. intros s2 H2. cbv beta delta [Datatypes.id].
  destruct (unmarshalUsername _) as [[u c] n].
  apply triple_conseq with (P := accounted) (Q := λ _, admitted) (F := dinv); [|by intros s ->|done|done].
  eapply triple_bind with (R := λ _, accounted).
  { repeat case_decide; [frame_account|apply triple_fail; by intros s []|by apply triple_ret]. }
  intros _. eapply triple_bind with (R := λ _, accounted).
  { repeat case_decide; [frame_account|apply triple_fail; by intros s []|by apply triple_ret]. }
  intros _. apply triple_modify. by intros s [_ Ha].
Qed.

(** ** The theorem *)

Lemma newDownstreamConn_dinv : dinv newDownstreamConn.
Proof.
  assert (permanentDownstreamCaps !! "cap-notify" = Some "") as Hn by (by vm_compute).
  split; [done..|]. split_and!; [apply empty_subseteq|apply not_elem_of_empty|].
  cbn [d_caps newDownstreamConn Available].
  destruct (cfgHistoryDriver de_config), (cfgClientCertAuth de_config).
  all: rewrite ?lookup_insert_ne by discriminate; by rewrite Hn.
Qed.

Lemma run_ok h msgs : triple dinv (runUntilRegistered_dc h msgs) (λ _, admitted) dinv.
Proof.
  induction msgs as [|m msgs IH]; cbn [runUntilRegistered_dc].
  all: apply triple_gets; intros s0 H0; rewrite (dinv_unregistered s0 H0).
  all: apply triple_conseq with (P := dinv) (Q := λ _, admitted) (F := dinv); [|by intros s ->|done|done].
  { by apply triple_fail. }
  eapply triple_bind; [apply triple_preserves, preserves_try, dkeep_handleMessage|].
  intros [[]|e]; [|by apply triple_fail]. apply triple_gets. intros s1 H1.
  apply triple_conseq with (P := dinv) (Q := λ _, admitted) (F := dinv); [|by intros s ->|done|done].
  case_match; [apply IH|]. eapply triple_bind with (R := λ r s, if r is inl _ then admitted s else dinv s).
  { intros s Hs. pose proof (register_ok s Hs) as Hr. unfold try. by destruct (register s) as [s' [[]|e|w]]. }
  intros [[]|e]; [by apply triple_ret|]. destruct e as [em|em|em]; [|by apply triple_fail..].
  eapply (triple_bind _ _ _ (λ _, dinv)); [apply triple_preserves, dkeep_SendMessage|]. intros _. by apply triple_fail.
Qed.

(** C5: Nobody gets in without authenticating. Whatever a client sends, and whatever the
    authentication back ends, the database and the SASL library answer, the registration
    ends normally only with the connection registered, and then the user it runs as was
    authenticated on this connection: its password or token was accepted or the certificate
    of the connection is registered for it; or, for an impersonation, the password of an
    account that the database says is an administrator was accepted and the user exists. If
    the registration fails the connection is not registered. Throughout, the buffer of SASL
    responses holds 10 kB at most and the client only enables capabilities it was offered. *)
Theorem registration_safe h msgs :
  let '(s, r) := runUntilRegistered_dc h msgs newDownstreamConn in
  match r with
  | Ok _ => d_registered s = true ∧ authorized (d_trace s) (d_username s) (d_impersonating s)
  | _ => d_registered s = false ∧ caps_ok (d_caps s) ∧
         ∀ sasl, d_sasl s = Some sasl → (slen (sPendingResp sasl) ≤ maxResponse)%nat
  end.
Proof.
  pose proof (run_ok h msgs newDownstreamConn newDownstreamConn_dinv) as Hr.
  destruct (runUntilRegistered_dc h msgs newDownstreamConn) as [s [[]|e|w]]; [done|..]; by destruct Hr.
Qed.
End auth.

(** ** The SASL exchange *)

Section sasl.
Context `{DE : denv} `{UnicodeTables}.

Definition with_pending (sasl : downstreamSASL) (p : string) : downstreamSASL :=
  MkDownstreamSASL (sMechanism sasl) (sServer sasl) (sPlain sasl) (sOAuth sasl) p.

(** The messages of one response, up to the end of the exchange. *)
Fixpoint feed (msgs : list Message) : DM (option downstreamSASL) :=
  match msgs with
  | [] => mret None
  | m :: msgs =>
    r ← handleAuthenticate m;
    match r with Some credentials => mret (Some credentials) | None => feed msgs end
  end.

Definition too_long (s : dstate) : dstate * res goerr (option downstreamSASL) :=
  (set_d_sasl None s, Err (ircError (msg ERR_SASLFAIL [d_nick s; "Response too long"]))).

(** One chunk, while [p] is already buffered. *)
Lemma handle_chunk s sasl p arg :
  let chunk := if decide (arg = "+") then "" else arg in
  IsEnabled (d_caps s) "sasl" = true → arg ≠ "*" → d_sasl s = Some (with_pending sasl p) →
  handleAuthenticate (msg "AUTHENTICATE" [arg]) s =
    if (maxResponse <? slen p + slen chunk)%nat then too_long s
    else if (slen chunk =? MaxSASLLength)%nat then (set_d_sasl (Some (with_pending sasl (p +:+ chunk))) s, Ok None)
    else resetting_sasl (match DecodeString (p +:+ chunk) with
                         | Some resp => sasl_next (with_pending sasl "") (Some resp)
                         | None => sasl_fail ERR_SASLFAIL "Invalid base64-encoded response"
                         end) (set_d_sasl (Some (with_pending sasl (p +:+ chunk))) s).
Proof.
  intros chunk Hcap Harg Hs. unfold handleAuthenticate, resetting_sasl, mbind, M_bind, gets, Datatypes.id.
  rewrite Hcap. cbn [negb Params msg]. rewrite decide_False by done. rewrite Hs. fold chunk.
  cbn [sPendingResp with_pending sMechanism sServer sPlain sOAuth].
  change (10 * 1024)%nat with maxResponse. destruct (_ <? _)%nat; [done|].
  unfold modify. destruct (_ =? _)%nat; [done|]. by destruct (DecodeString _).
Qed.

Lemma slen_b64_encode l : ∃ k, slen (b64_encode l) = (4 * k)%nat.
Proof.
  induction l as [| |a b|a b c l [k IH]] using list_ind3; [by exists 0%nat|by exists 1%nat|by exists 1%nat|].
  exists (S k). cbn. lia.
Qed.

Lemma feed_chunks sasl s full last p :
  IsEnabled (d_caps s) "sasl" = true → Forall (λ c, slen c = MaxSASLLength) full →
  (slen last < MaxSASLLength)%nat → slen last ≠ 1%nat → d_sasl s = Some (with_pending sasl p) →
  feed ((λ chunk, msg "AUTHENTICATE" [chunk]) <$> (full ++ [if decide (last = "") then "+" else last])) s =
    if decide (slen (p +:+ str_concat full +:+ last) ≤ maxResponse)%nat then
      resetting_sasl (match DecodeString (p +:+ str_concat full +:+ last) with
                      | Some resp => sasl_next (with_pending sasl "") (Some resp)
                      | None => sasl_fail ERR_SASLFAIL "Invalid base64-encoded response"
                      end) (set_d_sasl (Some (with_pending sasl (p +:+ str_concat full +:+ last))) s)
    else too_long s.
Proof.
  intros Hcap Hfull Hlt Hne. revert s p Hcap. induction Hfull as [|c full Hc Hfull IH]; intros s p Hcap Hs.
  - cbn [app fmap list_fmap feed str_concat String.append]. unfold mbind, M_bind.
    set (arg := if decide (last = "") then "+" else last).
    assert (arg ≠ "*") as Harg by (subst arg; case_decide; [done|intros ->; by apply Hne]).
    assert ((if decide (arg = "+") then "" else arg) = last) as Hchunk.
    { subst arg. repeat case_decide; by subst. }
    rewrite (handle_chunk s sasl p arg) by done.
    rewrite Hchunk, slen_app. destruct (maxResponse <? _)%nat eqn:E; bool_to_prop.
    { by rewrite decide_False by lia. }
    rewrite decide_True by lia. rewrite (proj2 (Nat.eqb_neq _ _)) by lia.
    by destruct (resetting_sasl _ _) as [s' [[r|]|e|w]].
  - assert (c ≠ "+" ∧ c ≠ "*") as [H1 H2] by (split; intros ->; done).
    cbn [app fmap list_fmap feed str_concat]. unfold mbind, M_bind.
    rewrite (handle_chunk s sasl p c) by done. rewrite decide_False by done.
    destruct (maxResponse <? slen p + slen c)%nat eqn:E; bool_to_prop.
    { rewrite (decide_False (P := (slen _ ≤ maxResponse)%nat)); [done|]. rewrite !slen_app. lia. }
    rewrite (proj2 (Nat.eqb_eq _ _)) by done.
    rewrite (IH (set_d_sasl (Some (with_pending sasl (p +:+ c))) s) (p +:+ c)) by done.
    by rewrite !str_app_assoc.
Qed.

(** C11: A SASL response survives its transport. When a client splits a response into
    AUTHENTICATE messages of 400 bytes as the bouncer itself does, the connection gives its
    SASL server exactly that response, once, whatever its bytes and also when its encoding is
    a multiple of 400 bytes long; a response whose encoding is longer than 10 kB is refused
    and ends the exchange. *)
Theorem sasl_reassembly (s : dstate) (sasl : downstreamSASL) (resp : string) :
  IsEnabled (d_caps s) "sasl" = true → d_sasl s = Some sasl → sPendingResp sasl = "" →
  feed (GenerateSASL resp) s =
    if decide (slen (EncodeToString resp) ≤ maxResponse)%nat
    then resetting_sasl (sasl_next sasl (Some resp)) s
    else too_long s.
Proof.
  intros Hcap Hs Hp. assert (sasl = with_pending sasl "") as Heq by (by destruct sasl; cbn in *; subst).
  destruct (GenerateSASL_spec resp) as (full & last & -> & Hfull & Hlast & Hcat).
  rewrite (feed_chunks sasl s full last ""); [|done|done|done| |congruence].
  - cbn [String.append]. rewrite Hcat, DecodeString_EncodeToString, <-Heq. by case_decide.
  - destruct (slen_b64_encode (str_list resp)) as [k Hk]. fold (EncodeToString resp) in Hk.
    rewrite <-Hcat, slen_app in Hk. assert (∃ j, slen (str_concat full) = 4 * j)%nat as [j Hj].
    { clear -Hfull. induction Hfull as [|c full Hc _ [j IH]]; [by exists 0%nat|]. exists (100 + j)%nat.
      cbn [str_concat]. rewrite slen_app, IH, Hc. unfold MaxSASLLength. lia. }
    lia.
Qed.
End sasl.

(** ** A concrete bouncer *)

Definition nul : string := String (ascii_of_nat 0) "".

(** A PLAIN server, as RFC 4616 describes it. *)
Definition plain_next (mech : string) (previous : list (option string)) (resp : option string) : saslStep :=
  match resp with
  | None => MkStep None None "" false false
  | Some r =>
    match SplitN r nul 3 with
    | [identity; username; password] =>
      MkStep (Some (MkSaslPlain identity username password)) None "" true (negb (bool_decide (mech = "PLAIN")))
    | _ => MkStep None None "" false true
    end
  end.

(** One account, "alice", with the password "sesame". *)
Definition demo_denv : denv := {|
  de_config := MkConfig "bouncer.example" "" "" "" "" false false "" false;
  de_srvPrefix := mkPrefix "bouncer.example" "" "";
  de_PrefixString := Name;
  de_remoteHost := "192.0.2.1";
  de_AuthPlain := Some (λ _ u p, if decide (u = "alice" ∧ p = "sesame") then None else Some (AuthError "Invalid credentials"));
  de_AuthOAuthBearer := None;
  de_GetUser := λ _ u, if decide (u = "alice") then inl (NewUser u) else inr (Errorf "not found");
  de_peerCertHash := None;
  de_GetDeviceCertificate := λ _ _, inr (Errorf "no certificate");
  de_GetUsernameByID := λ _ _, inr (Errorf "no user");
  de_StoreDeviceCertificate := λ _ _ _, None;
  de_MarkUsed := λ _ d, d;
  de_ListMessageTargets := λ _ _, inl [];
  de_saslNext := plain_next;
  de_chatHistoryStore := false
|}.

(** A client that negotiates and authenticates with SASL PLAIN. *)
Definition demo_login (password : string) : list Message :=
  [msg "CAP" ["LS"; "302"]; msg "NICK" ["al"]; msg "USER" ["alice/net@phone"; "0"; "*"; "Alice"];
   msg "CAP" ["REQ"; "sasl"]; msg "AUTHENTICATE" ["PLAIN"]]
  ++ GenerateSASL (nul +:+ "alice" +:+ nul +:+ password) ++ [msg "CAP" ["END"]].

Definition demo_run (password : string) : dstate * res goerr unit :=
  runUntilRegistered_dc (DE:=demo_denv) (H:=latin1_tables) (λ _, skip) (demo_login password)
    (newDownstreamConn (DE:=demo_denv)).

Lemma registration_safe_witness :
  is_ok (demo_run "sesame").2 = true ∧ d_username (demo_run "sesame").1 = "alice" ∧
  authorized (DE:=demo_denv) (d_trace (demo_run "sesame").1) "alice" false ∧
  is_ok (demo_run "guess").2 = false ∧ d_registered (demo_run "guess").1 = false.
Proof.
  pose proof (registration_safe (DE:=demo_denv) (H:=latin1_tables) (λ _, skip) (demo_login "sesame")) as H1.
  pose proof (registration_safe (DE:=demo_denv) (H:=latin1_tables) (λ _, skip) (demo_login "guess")) as H2.
  assert (is_ok (demo_run "sesame").2 = true) as E1 by (vm_compute; reflexivity).
  assert (is_ok (demo_run "guess").2 = false) as E2 by (vm_compute; reflexivity).
  assert (d_username (demo_run "sesame").1 = "alice") as E3 by (vm_compute; reflexivity).
  assert (d_impersonating (demo_run "sesame").1 = false) as E4 by (vm_compute; reflexivity).
  fold (demo_run "sesame") in H1. fold (demo_run "guess") in H2.
  destruct (demo_run "sesame") as [s [[]|e|w]]; [|discriminate E1..]. cbn [fst snd] in *. rewrite E3, E4 in H1.
  destruct (demo_run "guess") as [s' [[]|e|w]]; [discriminate E2|..]; cbn [fst snd] in *; tauto.
Defined.

Definition demo_exchange : dstate :=
  set_d_sasl (Some (MkDownstreamSASL "PLAIN" [None] None None ""))
    (set_d_caps (MkCaps ∅ {["sasl"]}) (newDownstreamConn (DE:=demo_denv))).
Definition demo_response : string := nul +:+ "alice" +:+ nul +:+ "sesame".

Lemma sasl_reassembly_witness :
  feed (DE:=demo_denv) (H:=latin1_tables) (GenerateSASL demo_response) demo_exchange =
  resetting_sasl (sasl_next (DE:=demo_denv) (MkDownstreamSASL "PLAIN" [None] None None "") (Some demo_response)) demo_exchange.
Proof.
  rewrite (sasl_reassembly (DE:=demo_denv) (H:=latin1_tables) demo_exchange
    (MkDownstreamSASL "PLAIN" [None] None None "") demo_response); [|reflexivity..].
  rewrite decide_True; [reflexivity|]. apply Nat.leb_le. vm_compute. reflexivity.
Defined.

(** ** User names with a client and a network *)

Definition undelimited (s : string) : Prop := str_mem "/"%char s = false ∧ str_mem "@"%char s = false.

Lemma undelimited_cons c s :
  undelimited (String c s) → str_mem c "/@" = false ∧ undelimited s.
Proof.
  intros [H1 H2]. cbn in *. apply orb_false_iff in H1 as [H1 H1'], H2 as [H2 H2'].
  apply bool_decide_eq_false in H1, H2. split; [|done].
  rewrite !bool_decide_eq_false_2 by congruence. done.
Qed.

Lemma IndexAny_undelimited a c b :
  undelimited a → str_mem c "/@" = true → IndexAny (a +:+ String c b) "/@" = Some (slen a).
Proof.
  intros Ha Hc. induction a as [|d a IH]; cbn [String.append IndexAny]; [by rewrite Hc|].
  apply undelimited_cons in Ha as [Hd Ha]. by rewrite Hd, IH.
Qed.

Lemma LastIndexAny_none a : undelimited a → LastIndexAny a "/@" = None ∧ IndexAny a "/@" = None.
Proof.
  induction a as [|d a IH]; intros Ha; [done|]. apply undelimited_cons in Ha as [Hd Ha].
  destruct (IH Ha) as [H1 H2]. cbn [LastIndexAny IndexAny]. by rewrite H1, H2, Hd.
Qed.

Lemma LastIndexAny_undelimited a c b :
  undelimited b → str_mem c "/@" = true → LastIndexAny (a +:+ String c b) "/@" = Some (slen a).
Proof.
  intros Hb Hc. induction a as [|d a IH]; cbn [String.append LastIndexAny].
  - by rewrite (proj1 (LastIndexAny_none b Hb)), Hc.
  - by rewrite IH.
Qed.

Lemma get_append a c b : String.get (slen a) (a +:+ String c b) = Some c.
Proof. by induction a. Qed.

Lemma str_drop_snoc a c b : str_drop (slen a + 1) (a +:+ String c b) = b.
Proof. by induction a. Qed.

(** One delimiter. *)
Lemma unmarshal_one u c x :
  undelimited u → undelimited x → str_mem c "/@" = true →
  unmarshalUsername (u +:+ String c x) =
    if decide (c = "@"%char) then (u, x, "") else (u, "", x).
Proof.
  intros Hu Hx Hc. unfold unmarshalUsername.
  rewrite (IndexAny_undelimited u c x), (LastIndexAny_undelimited u c x) by done.
  rewrite Nat.ltb_irrefl, get_append, str_drop_snoc, str_take_app.
  case_decide as Hcc; [subst; by rewrite bool_decide_eq_true_2|].
  by rewrite bool_decide_eq_false_2 by congruence.
Qed.

(** Two delimiters. *)
Lemma unmarshal_two u c x d y :
  undelimited u → undelimited x → undelimited y → str_mem c "/@" = true → str_mem d "/@" = true →
  unmarshalUsername (u +:+ String c (x +:+ String d y)) =
    if decide (c = "@"%char) then (u, x, if decide (d = "@"%char) then "" else y)
    else (u, if decide (d = "@"%char) then y else "", x).
Proof.
  intros Hu Hx Hy Hc Hd. unfold unmarshalUsername.
  assert (u +:+ String c (x +:+ String d y) = (u +:+ String c x) +:+ String d y) as Heq by (by rewrite str_app_assoc).
  rewrite (IndexAny_undelimited u c) by done. rewrite Heq, (LastIndexAny_undelimited (u +:+ String c x) d y) by done.
  rewrite get_append, str_drop_snoc, <-Heq, get_append, str_drop_snoc, str_take_app.
  assert (slen (u +:+ String c x) = slen u + S (slen x))%nat as Hlen by (by rewrite slen_app).
  rewrite Hlen, (proj2 (Nat.ltb_lt _ _)) by lia.
  replace (slen u + S (slen x) - (slen u + 1))%nat with (slen x) by lia. rewrite str_take_app.
  destruct (decide (c = "@"%char)) as [->|Hcc], (decide (d = "@"%char)) as [->|Hdd].
  all: rewrite ?(bool_decide_eq_true_2 (Some "@"%char = Some "@"%char)) by done.
  all: rewrite ?(bool_decide_eq_false_2 (Some c = Some "@"%char)), ?(bool_decide_eq_false_2 (Some d = Some "@"%char)) by congruence.
  all: done.
Qed.

(** A client tells its user name, its own name and its network in one word, the last two
    in either order and both optional, and gets the same three back. *)
Theorem unmarshalUsername_roundtrip u c n :
  undelimited u → undelimited c → undelimited n →
  unmarshalUsername u = (u, "", "") ∧
  unmarshalUsername (u +:+ "/" +:+ n) = (u, "", n) ∧
  unmarshalUsername (u +:+ "@" +:+ c) = (u, c, "") ∧
  unmarshalUsername (u +:+ "/" +:+ n +:+ "@" +:+ c) = (u, c, n) ∧
  unmarshalUsername (u +:+ "@" +:+ c +:+ "/" +:+ n) = (u, c, n).
Proof.
  intros Hu Hc Hn. split_and!.
  - unfold unmarshalUsername. by destruct (LastIndexAny_none u Hu) as [-> ->].
  - by apply (unmarshal_one u "/"%char n).
  - by apply (unmarshal_one u "@"%char c).
  - by apply (unmarshal_two u "/"%char n "@"%char c).
  - by apply (unmarshal_two u "@"%char c "/"%char n).
Qed.

Lemma unmarshalUsername_roundtrip_witness :
  unmarshalUsername ("alice" +:+ "/" +:+ "libera" +:+ "@" +:+ "phone") = ("alice", "phone", "libera").
Proof. apply (unmarshalUsername_roundtrip "alice" "phone" "libera"); split; reflexivity. Defined.
