(* ===== verification/DownstreamLabel.v ===== *)
(** * Downstream connections: labelled responses

    The labeled-response extension: a command sent with a label gets exactly one labelled
    answer, which is a message, a batch or an acknowledgement. *)

From S2P Require Import Prelude GoStrings GoUnicode IrcMessage CaseMapping Membership Modes WhoX Base64.
From S2P Require Import Effects GenMsg Caps Database Highlight Upstream UpstreamHandlers Downstream DownstreamHandlers.
From S2P Require Import DownstreamAuth.

Open Scope string_scope.
Open Scope list_scope.
Open Scope Z_scope.

(** The lines sent to the client. *)
Definition lines (tr : list daction) : list Message :=
  omap (λ a, match a with DSend m => Some m | _ => None end) tr.

Lemma lines_app tr tr' : lines (tr ++ tr') = lines tr ++ lines tr'.
Proof. apply omap_app. Qed.

Definition batch_start (label ref : string) : Message :=
  mkMessage {["label" := label]} None "BATCH" ["+" +:+ ref; "labeled-response"].
Definition batch_end (ref : string) : Message := msg "BATCH" ["-" +:+ ref].
Definition acknowledgement (label : string) : Message := mkMessage {["label" := label]} None "ACK" [].

(** One answer to a command with a label. *)
Inductive labelled_response (label : string) : list Message → Prop :=
| LabelledACK : labelled_response label [acknowledgement label]
| LabelledMessage m : labelled_response label [with_tags (<["label" := label]>) m]
| LabelledBatch ref ms : ref ≠ "" → (2 ≤ length ms)%nat → Forall (λ m, tag m "batch" ≠ "") ms →
    labelled_response label (batch_start label ref :: ms ++ [batch_end ref]).

(** What was sent since [tr0] matches the label context. *)
Definition label_state (label : string) (out : list Message) (lc : labelContext) : Prop :=
  lc_label lc = label ∧
  match lc_pendingMsg lc with
  | Some _ => lc_batch lc = "" ∧ out = []
  | None => if decide (lc_batch lc = "") then out = []
            else ∃ ms, out = batch_start label (lc_batch lc) :: ms ∧ (2 ≤ length ms)%nat ∧
                   Forall (λ m, tag m "batch" ≠ "") ms
  end.

Record linv (reg : bool) (tr0 : list daction) (label : string) (s : dstate) : Prop := {
  linv_registered : d_registered s = reg;
  linv_label : ∃ tr lc, d_trace s = tr0 ++ tr ∧ d_label s = Some lc ∧ label_state label (lines tr) lc
}.

Section label.
Context `{DE : denv} `{UnicodeTables} (reg : bool) (tr0 : list daction) (label : string) (Hlabel : label ≠ "").

Abbreviation lkeeps := (preserves (linv reg tr0 label)).

Lemma linv_frame s s' :
  linv reg tr0 label s → d_registered s' = d_registered s → d_label s' = d_label s →
  (d_trace s' = d_trace s ∨ ∃ a, d_trace s' = d_trace s ++ [a] ∧ lines [a] = []) → linv reg tr0 label s'.
Proof.
  intros [H1 (tr & lc & Htr & Hlc & Hst)] E1 E2 E3. split; [by rewrite E1|]. destruct E3 as [E3|(a & E3 & Ea)].
  - exists tr, lc. by rewrite E2, E3.
  - exists (tr ++ [a]), lc. rewrite E2, E3, Htr, lines_app, Ea, app_nil_r, app_assoc. done.
Qed.

Ltac lframe :=
  apply preserves_modify; intros ? ?; eapply linv_frame; [eassumption|cbn..];
  try reflexivity; first [by left | right; eexists; split; [reflexivity|done]].

Lemma in_batch_tag ref m : ref ≠ "" → tag (in_batch ref m) "batch" ≠ "".
Proof.
  intros Hr. unfold in_batch. case_decide as Ht; [|done]. unfold tag. cbn. by rewrite lookup_insert_eq.
Qed.

Lemma lkeep_SendMessage m : lkeeps (SendMessage_dc m).
Proof.
  intros s Hs. pose proof Hs as [Hr (tr & lc & Htr & Hlc & Hl & Hst)].
  unfold SendMessage_dc, mbind at 1, M_bind at 1, gets at 1, Datatypes.id. unfold mbind at 1, M_bind at 1, lift at 1.
  destruct (outgoing (d_caps s) m) as [[om|]|e|w]; [|done|done|done]. cbn zeta. rewrite Hlc.
  rewrite decide_False by congruence. set (m' := outgoing_prefix om).
  destruct (lc_pendingMsg lc) as [p|] eqn:Hp.
  - destruct Hst as [Hb Hout]. pose proof (FormatUint_nonempty (wrap_u64 (d_lastBatchRef s + 1))) as Hne.
    revert Hne. generalize (FormatUint (wrap_u64 (d_lastBatchRef s + 1))) as ref. intros ref Hne.
    unfold mbind, M_bind, demit, set_label, modify, mret, M_ret. cbv beta iota.
    rewrite decide_True by done. split; [done|].
    eexists (tr ++ [_; _; _]), _. split_and!; [cbn; by rewrite Htr, <-!app_assoc|done|split; [done|]].
    cbn [lc_pendingMsg lc_batch]. rewrite decide_False by done. rewrite lines_app, Hout.
    eexists [_; _]. rewrite Hl. split_and!; [done|done|]. repeat constructor; by apply in_batch_tag.
  - unfold mbind, M_bind, demit, set_label, modify, mret, M_ret. cbv beta iota.
    destruct (decide (lc_batch lc = "")) as [Hb|Hb].
    + rewrite decide_False by naive_solver. split; [done|]. eexists tr, _. cbn. by rewrite Hb.
    + rewrite decide_True by done. destruct Hst as (ms & Hout & Hlen & Hall). split; [done|].
      eexists (tr ++ [_]), lc. split_and!; [cbn; by rewrite Htr, <-app_assoc|done|split; [done|]]. rewrite Hp.
      rewrite decide_False by done. exists (ms ++ [in_batch (lc_batch lc) m']).
      rewrite lines_app, Hout, length_app. split_and!; [done|lia|]. apply Forall_app. split; [done|].
      repeat constructor. by apply in_batch_tag.
Qed.
#[local] Hint Resolve lkeep_SendMessage : pres.
#[local] Hint Extern 2 (lkeeps (modify _)) => lframe : pres.
#[local] Hint Extern 2 (lkeeps (modify_reg _)) => lframe : pres.
#[local] Hint Extern 2 (lkeeps (demit _)) => lframe : pres.

Lemma lkeep_dcall {A} a (f : list daction → A) : lines [a] = [] → lkeeps (dcall a f).
Proof. intros Ha. unfold dcall. pres. Qed.
#[local] Hint Extern 2 (lkeeps (dcall _ _)) => by apply lkeep_dcall : pres.

Lemma lkeep_SendBatch typ ps tags f : (∀ ref, lkeeps (f ref)) → lkeeps (SendBatch_dc typ ps tags f).
Proof. intros Hf. unfold SendBatch_dc. pres. Qed.
Lemma lkeep_sendIsupport tokens : lkeeps (sendIsupport tokens).
Proof. unfold sendIsupport. pres. apply lkeep_SendBatch. intros ref. pres. Qed.
Lemma lkeep_negotiating b : lkeeps (negotiating b).
Proof. unfold negotiating. pres. Qed.
Lemma lkeep_cap_reply sub arg : lkeeps (cap_reply sub arg).
Proof. unfold cap_reply. pres. Qed.
#[local] Hint Resolve lkeep_sendIsupport lkeep_negotiating lkeep_cap_reply : pres.
Lemma lkeep_handleCap m : lkeeps (handleCap m).
Proof. unfold handleCap. pres. Qed.
Lemma lkeep_endSASL om : lkeeps (endSASL_dc om).
Proof. unfold endSASL_dc. pres. Qed.
Lemma lkeep_resetting {A} (body : DM A) : lkeeps body → lkeeps (resetting_sasl body).
Proof.
  intros Hb s Hs. specialize (Hb s Hs). unfold resetting_sasl. destruct (body s) as [s' [a|e|w]]; cbn in *; try done.
  eapply linv_frame; [exact Hb|done..|by left].
Qed.
Lemma lkeep_sasl_fail {A} cmd text : lkeeps (sasl_fail (A:=A) cmd text).
Proof. unfold sasl_fail. pres. Qed.
Lemma lkeep_sasl_next sasl resp : lkeeps (sasl_next sasl resp).
Proof. unfold sasl_next. pres. Qed.
#[local] Hint Resolve lkeep_handleCap lkeep_endSASL lkeep_resetting lkeep_sasl_fail lkeep_sasl_next : pres.
Lemma lkeep_handleAuthenticate m : lkeeps (handleAuthenticate m).
Proof. unfold handleAuthenticate. apply lkeep_resetting. pres. Qed.
Lemma lkeep_auth_sasl credentials : lkeeps (auth_sasl credentials).
Proof. unfold auth_sasl, auth_sasl_plain, auth_sasl_oauth, auth_sasl_external. pres. Qed.
Lemma lkeep_setAuth u c n : lkeeps (setAuthUsername u c n).
Proof. unfold setAuthUsername. pres. Qed.
#[local] Hint Resolve lkeep_handleAuthenticate lkeep_auth_sasl lkeep_setAuth : pres.
Lemma lkeep_AUTHENTICATE m : lkeeps (handle_unregistered_AUTHENTICATE m).
Proof. unfold handle_unregistered_AUTHENTICATE. pres. Qed.
Lemma lkeep_BOUNCER m : lkeeps (handle_unregistered_BOUNCER m).
Proof. unfold handle_unregistered_BOUNCER. pres. Qed.
Lemma lkeep_metadata_key m sub k : lkeeps (metadata_key m sub k).
Proof. unfold metadata_key. pres. Qed.
#[local] Hint Resolve lkeep_AUTHENTICATE lkeep_BOUNCER lkeep_metadata_key : pres.
Lemma lkeep_metadataSub m : lkeeps (handleMetadataSub m).
Proof. unfold handleMetadataSub. pres. Qed.
#[local] Hint Resolve lkeep_metadataSub : pres.
Lemma lkeep_unregistered m : lkeeps (handleMessageUnregistered m).
Proof. unfold handleMessageUnregistered. pres. Qed.
#[local] Hint Resolve lkeep_unregistered : pres.

Lemma lkeep_dispatch h m : reg = false → lkeeps (dispatch_dc h m).
Proof.
  intros Hreg.
  unfold dispatch_dc. apply preserves_bind_gets. intros s0 Hs0. cbv beta delta [Datatypes.id].
  assert (d_registered s0 = false) as -> by (rewrite <-Hreg; apply Hs0). pres.
Qed.

(** The flush completes what was sent into one answer. *)
Lemma flush_answers s :
  linv reg tr0 label s → ∃ s' tr, FlushBatch_dc s = (s', Ok tt) ∧ d_trace s' = tr0 ++ tr ∧
    d_registered s' = reg ∧ labelled_response label (lines tr).
Proof.
  intros [Hr (tr & lc & Htr & Hlc & Hl & Hst)].
  unfold FlushBatch_dc, mbind, M_bind, gets, demit, modify. rewrite Hlc, decide_False by congruence. rewrite Hl.
  destruct (lc_pendingMsg lc) as [p|]; [destruct Hst as [_ Hout]|case_decide as Hb].
  - eexists _, (tr ++ [_]). split_and!; [done|cbn; by rewrite Htr, <-app_assoc|done|].
    rewrite lines_app, Hout. apply LabelledMessage.
  - rewrite decide_False by naive_solver.
    eexists _, (tr ++ [_]). split_and!; [done|cbn; by rewrite Htr, <-app_assoc|done|].
    rewrite lines_app, Hst. apply LabelledACK.
  - rewrite decide_True by done. destruct Hst as (ms & Hout & Hlen & Hall).
    eexists _, (tr ++ [_]). split_and!; [done|cbn; by rewrite Htr, <-app_assoc|done|].
    rewrite lines_app, Hout. by apply LabelledBatch.
Qed.
End label.

(** A command with a label gets exactly one labelled answer. When a client that enabled
    labeled-response sends a command with a label before registration, the bouncer's lines in
    reply to it are one message with the label, or an ACK with the label when there is
    nothing to say, or a batch that is opened with the label, holds at least two messages,
    each in a batch, and is closed; errors the command causes are part of the answer. Only
    an error that ends the connection leaves the answer incomplete. *)
Theorem labelled_command `{DE : denv} `{UnicodeTables} h m label s :
  d_registered s = false → IsEnabled (d_caps s) "labeled-response" = true →
  Tags m !! "label" = Some label → label ≠ "" →
  ∃ s' r, handleMessage_dc h m s = (s', r) ∧
    (r = Ok tt → d_label s' = None ∧
      ∃ tr, d_trace s' = d_trace s ++ tr ∧ labelled_response label (lines tr)).
Proof.
  intros Hr Hcap Htag Hlabel. unfold handleMessage_dc, mbind at 1, M_bind at 1, gets at 1. rewrite Htag, Hcap.
  cbn [when]. unfold mbind at 1, M_bind at 1, set_label, modify at 1.
  set (s1 := set_d_label _ s). assert (linv false (d_trace s) label s1) as H1.
  { split; [done|]. eexists [], _. split_and!; [cbn; by rewrite app_nil_r|done|]. by split; cbn. }
  pose proof (lkeep_dispatch false (d_trace s) label Hlabel h m eq_refl s1 H1) as H2.
  unfold finally. unfold mbind at 1, M_bind at 1. destruct (dispatch_dc h m s1) as [s2 [[]|e|w]].
  - destruct (flush_answers false (d_trace s) label Hlabel s2 H2) as (s3 & tr & -> & Htr & _ & Hans).
    eexists _, _. split; [reflexivity|]. intros _. split; [done|]. by exists tr.
  - by eexists _, _.
  - by eexists _, _.
Qed.

(** Two subscriptions in one labelled command: the answer is a batch. *)
Definition demo_labelled : dstate :=
  set_d_caps (MkCaps ∅ {["labeled-response"; "message-tags"; "batch"]}) (newDownstreamConn (DE:=demo_denv)).
Definition demo_subscribe : Message :=
  mkMessage {["label" := "L1"]} None "METADATA" ["*"; "SUB"; "soju.im/pinned"; "soju.im/muted"].
Definition demo_answer : dstate * res goerr unit :=
  handleMessage_dc (DE:=demo_denv) (H:=latin1_tables) (λ _, skip) demo_subscribe demo_labelled.

Lemma labelled_command_witness :
  length (lines (d_trace demo_answer.1)) = 4%nat ∧ labelled_response "L1" (lines (d_trace demo_answer.1)).
Proof.
  split; [vm_compute; reflexivity|].
  destruct (labelled_command (DE:=demo_denv) (H:=latin1_tables) (λ _, skip) demo_subscribe "L1" demo_labelled)
    as (s' & r & Hrun & Hans); [reflexivity|reflexivity|reflexivity|discriminate|].
  fold demo_answer in Hrun. assert (demo_answer.2 = Ok tt) as Hok by (vm_compute; reflexivity).
  rewrite Hrun in *. cbn [fst snd] in *. destruct (Hans Hok) as (_ & tr & -> & Hl). exact Hl.
Defined.
