(* ===== verification/DownstreamMirror.v ===== *)
(** * Downstream connections: what the client knows follows what the bouncer knows

    The bouncer tells a client about changes of its network with differences: changed and
    negated ISUPPORT tokens, CAP NEW and CAP DEL lines. A client that applies them to what it
    knew ends up with what the bouncer has. *)

From S2P Require Import Prelude GoStrings GoUnicode IrcMessage CaseMapping Membership Modes WhoX Base64.
From S2P Require Import Effects GenMsg Caps Database Highlight Upstream UpstreamHandlers Downstream DownstreamHandlers.
From S2P Require Import DownstreamAuth DownstreamLabel.

Open Scope string_scope.
Open Scope list_scope.
Open Scope Z_scope.

(** ** The client *)

(** A change: a key and its new value, [None] for none. *)
Abbreviation change V := (string * option V)%type.
Definition apply_change {V} (m : gmap string V) (c : change V) : gmap string V :=
  partial_alter (λ _, c.2) c.1 m.

(** A token of RPL_ISUPPORT: [KEY], [KEY=value] or [-KEY]. *)
Definition parse_token (tok : string) : change (option string) :=
  match tok with
  | String "-" k => (k, None)
  | _ => match Cut tok "=" with Some (k, v) => (k, Some (Some v)) | None => (tok, Some None) end
  end.

Definition client_isupport (st : gmap string (option string)) (m : Message) : gmap string (option string) :=
  if decide (Command m = RPL_ISUPPORT)
  then foldl apply_change st (parse_token <$> decode_isupport m) else st.

(** ** Changes with distinct keys *)

Section changes.
Context {V : Type}.
Implicit Types (l : list (change V)) (m : gmap string V).

Lemma apply_changes_other l m k : k ∉ l.*1 → foldl apply_change m l !! k = m !! k.
Proof.
  revert m. induction l as [|[k' v] l IH]; intros m Hk; [done|]. cbn in *. apply not_elem_of_cons in Hk as [Hk Hl].
  rewrite (IH _ Hl). unfold apply_change. cbn. by rewrite lookup_partial_alter_ne.
Qed.

Lemma apply_changes_in l m k v : NoDup l.*1 → (k, v) ∈ l → foldl apply_change m l !! k = v.
Proof.
  revert m. induction l as [|[k' v'] l IH]; intros m Hnd Hin; [by inversion Hin|]. cbn in *.
  apply NoDup_cons in Hnd as [Hk' Hnd]. apply elem_of_cons in Hin as [[= <- <-]|Hin]; [|by apply IH].
  rewrite apply_changes_other by done. unfold apply_change. cbn. by rewrite lookup_partial_alter_eq.
Qed.

Lemma apply_changes_app m (ls : list (list (change V))) :
  foldl (λ st l, foldl apply_change st l) m ls = foldl apply_change m (mjoin ls).
Proof.
  revert m. induction ls as [|l ls IH]; intros m; [done|]. rewrite mjoin_cons, foldl_app. cbn. apply IH.
Qed.
End changes.

(** ** ISUPPORT *)

(** The keys the bouncer uses: no sign in front, no equals sign. *)
Definition token_key (k : string) : Prop := k ≠ "" ∧ HasPrefix k "-" = false ∧ str_mem "="%char k = false.
#[global] Instance token_key_dec k : Decision (token_key k).
Proof. unfold token_key. apply _. Defined.

Lemma parse_token_key k v : token_key k → parse_token (isupport_token (k, v)) = (k, Some v).
Proof.
  intros (Hne & Hp & He). unfold isupport_token. cbn [fst snd].
  assert (∀ r, parse_token (k +:+ r) = match Cut (k +:+ r) "=" with
    Some (k', v') => (k', Some (Some v')) | None => (k +:+ r, Some None) end) as Hpt.
  { intros r. destruct k as [|c k]; [done|]. cbn [String.append].
    unfold parse_token. rewrite HasPrefix_String, HasPrefix_nil, andb_true_r in Hp.
    apply bool_decide_eq_false in Hp. by destruct c as [[] [] [] [] [] [] [] []]. }
  destruct v as [v|].
  - rewrite Hpt. change ("=" +:+ v) with (String "="%char v). by rewrite Cut_char_app.
  - rewrite <-(str_app_nil_r k), Hpt, str_app_nil_r. by rewrite Cut_char_none.
Qed.

Lemma parse_token_removed k : parse_token (isupport_token ("-" +:+ k, None)) = (k, None).
Proof. done. Qed.

(** The changes a list of tokens makes. *)
Definition token_changes (tokens : gmap string (option string)) : list (change (option string)) :=
  (parse_token ∘ isupport_token) <$> map_to_list tokens.

Section difference.
Context (old new : gmap string (option string)).
Context (Hnew : ∀ k, is_Some (new !! k) → token_key k).

Lemma isupport_changes_lookup k v :
  isupport_changes old new !! k = Some v ↔
  (new !! k = Some v ∧ old !! k ≠ Some v) ∨
  (v = None ∧ ∃ k', k = "-" +:+ k' ∧ is_Some (old !! k') ∧ new !! k' = None).
Proof.
  unfold isupport_changes. rewrite lookup_union_Some.
  2: { apply map_disjoint_spec. intros k' v1 v2 H1 H2. apply elem_of_list_to_map_2 in H1.
       apply list_elem_of_fmap in H1 as (x & [= -> _] & _). apply map_lookup_filter_Some in H2 as [H2 _].
       destruct (Hnew ("-" +:+ x)) as (_ & Hp & _); [by eexists|]. by rewrite HasPrefix_app in Hp. }
  rewrite map_lookup_filter_Some. cbn. split; intros [Hl|Hr].
  - right. apply elem_of_list_to_map_2 in Hl. apply list_elem_of_fmap in Hl as (x & [= -> ->] & Hx).
    apply elem_of_elements, elem_of_difference in Hx as [Hx Hx']. split; [done|]. exists x.
    by rewrite <-elem_of_dom, <-not_elem_of_dom.
  - by left.
  - by right.
  - left. destruct Hr as (-> & k' & -> & Hk & Hk'). apply elem_of_list_to_map_1.
    + rewrite <-list_fmap_compose. apply NoDup_fmap_2; [|apply NoDup_elements]. by intros ? ? [= ->].
    + apply list_elem_of_fmap. exists k'. split; [done|]. apply elem_of_elements, elem_of_difference.
      by rewrite elem_of_dom, not_elem_of_dom.
Qed.

Lemma elem_of_token_changes k o :
  (k, o) ∈ token_changes (isupport_changes old new) ↔
  new !! k = o ∧ old !! k ≠ o.
Proof.
  unfold token_changes. rewrite list_elem_of_fmap. split.
  - intros ([k' v] & Heq & Hin). apply elem_of_map_to_list, isupport_changes_lookup in Hin.
    destruct Hin as [[Hn Ho]|(-> & x & -> & Hx & Hx')].
    + cbn in Heq. rewrite parse_token_key in Heq by eauto. by injection Heq as -> ->.
    + cbn [compose] in Heq. rewrite parse_token_removed in Heq. injection Heq as -> ->.
      split; [done|]. by destruct Hx as [? ->].
  - intros [Hn Ho]. destruct o as [v|].
    + exists (k, v). cbn. rewrite parse_token_key by eauto. split; [done|].
      apply elem_of_map_to_list, isupport_changes_lookup. by left.
    + exists ("-" +:+ k, None). split; [done|]. apply elem_of_map_to_list, isupport_changes_lookup. right.
      split; [done|]. exists k. split; [done|]. split; [|done]. by destruct (old !! k) eqn:E; [eexists|].
Qed.

Lemma token_changes_nodup : NoDup (token_changes (isupport_changes old new)).*1.
Proof.
  assert (NoDup (token_changes (isupport_changes old new))) as Hnd.
  { apply NoDup_fmap_2_strong; [|apply NoDup_map_to_list]. intros [k v] [k' v'] H1 H2 Heq. cbn in Heq.
    apply elem_of_map_to_list, isupport_changes_lookup in H1, H2.
    destruct H1 as [[Hn Ho]|(-> & x & -> & Hx & Hx')], H2 as [[Hn' Ho']|(-> & y & -> & Hy & Hy')].
    - rewrite !parse_token_key in Heq by eauto. congruence.
    - rewrite parse_token_removed, (parse_token_key k) in Heq by eauto. congruence.
    - rewrite parse_token_removed, (parse_token_key k') in Heq by eauto. congruence.
    - rewrite !parse_token_removed in Heq. congruence. }
  apply NoDup_fmap_2_strong; [|done]. intros [k v] [k' v'] H1 H2 Heq. cbn in Heq. subst k'.
  apply elem_of_token_changes in H1 as [H1 _], H2 as [H2 _]. congruence.
Qed.

(** A client that knows the old tokens and gets the difference knows the new ones. *)
Lemma difference_applied l :
  l ≡ₚ token_changes (isupport_changes old new) → foldl apply_change old l = new.
Proof.
  intros Hl. apply map_eq. intros k. destruct (decide (old !! k = new !! k)) as [He|He].
  - rewrite <-He. apply apply_changes_other. rewrite Hl. intros (c & -> & Hc)%list_elem_of_fmap.
    destruct c as [k' o]. apply elem_of_token_changes in Hc as [Hn Ho]. cbn in *. congruence.
  - apply apply_changes_in; [rewrite Hl; apply token_changes_nodup|]. rewrite Hl. by apply elem_of_token_changes.
Qed.
End difference.

(** ** Lines that reach the client unchanged *)

Definition same_line (m m' : Message) : Prop := Command m' = Command m ∧ Params m' = Params m.

(** Commands every client gets. *)
Definition plain_command (cmd : string) : Prop := cmd ≠ "TAGMSG" ∧ cmd ≠ "JOIN" ∧ command_cap cmd = None.
#[global] Instance plain_command_dec cmd : Decision (plain_command cmd).
Proof. unfold plain_command. apply _. Defined.

(** The part of the state that sending changes. *)
Definition sent_more (s : dstate) (out : list Message) (s' : dstate) : Prop :=
  ∃ ref, s' = set_d_trace (d_trace s ++ (DSend <$> out)) (set_d_lastBatchRef ref s).

Section lines.
Context `{DE : denv}.

Lemma plain_outgoing cr m :
  plain_command (Command m) → ∃ m', outgoing cr m = Ok (Some m') ∧ same_line m m'.
Proof.
  intros (H1 & H2 & H3). unfold outgoing. rewrite (bool_decide_eq_false_2 (Command m = "TAGMSG")), andb_false_r by done.
  set (m1 := if IsEnabled cr "message-tags" then m else _).
  assert (same_line m m1) as [C1 P1] by (subst m1; by case_match).
  set (m2 := if negb _ && _ then _ else m1).
  assert (same_line m m2) as [C2 P2] by (subst m2; by case_match).
  rewrite C2, (bool_decide_eq_false_2 (Command m = "JOIN")) by done. cbn. rewrite C2, H3. by exists m2.
Qed.

Lemma outgoing_prefix_same m : same_line m (outgoing_prefix m).
Proof. unfold outgoing_prefix. repeat case_match; by cbn. Qed.

Lemma SendMessage_plain s m :
  d_label s = None → plain_command (Command m) →
  ∃ m', SendMessage_dc m s = (set_d_trace (d_trace s ++ [DSend m']) s, Ok tt) ∧ same_line m m'.
Proof.
  intros Hl Hp. destruct (plain_outgoing (d_caps s) m Hp) as (m1 & Ho & [C1 P1]).
  unfold SendMessage_dc, mbind, M_bind, gets, lift, Datatypes.id. rewrite Ho, Hl.
  destruct (outgoing_prefix_same m1) as [C2 P2]. eexists. split; [reflexivity|]. split; congruence.
Qed.

Lemma foreach_plain (g : Message → Message) ms s :
  d_label s = None → (∀ m, same_line m (g m)) → Forall (λ m, plain_command (Command m)) ms →
  ∃ out, foreach (λ m, SendMessage_dc (g m)) ms s = (set_d_trace (d_trace s ++ (DSend <$> out)) s, Ok tt) ∧
    Forall2 same_line ms out.
Proof.
  intros Hl Hg Hms. revert s Hl. induction Hms as [|m ms Hm Hms IH]; intros s Hl.
  { exists []. split; [|done]. cbn. rewrite app_nil_r. by destruct s. }
  destruct (Hg m) as [Cg Pg]. destruct (SendMessage_plain s (g m) Hl) as (m' & Hs & [C1 P1]); [by rewrite Cg|].
  destruct (IH (set_d_trace (d_trace s ++ [DSend m']) s) Hl) as (out & Hrun & Hout).
  exists (m' :: out). split; [|constructor; [split; congruence|done]].
  cbn [foreach]. unfold mbind, M_bind. rewrite Hs, Hrun. cbn. by rewrite <-app_assoc.
Qed.

Lemma client_same st ms out : Forall2 same_line ms out → foldl client_isupport st out = foldl client_isupport st ms.
Proof.
  intros Hm. revert st. induction Hm as [|m m' ms out [C P] Hm IH]; intros st; [done|]. cbn. rewrite IH. f_equal.
  unfold client_isupport, decode_isupport. by rewrite C, P.
Qed.

Lemma isupport_lines tokens m : m ∈ GenerateIsupport tokens → Command m = RPL_ISUPPORT.
Proof.
  unfold GenerateIsupport. generalize (length (merge_sort str_le (isupport_token <$> map_to_list tokens))).
  generalize (merge_sort str_le (isupport_token <$> map_to_list tokens)). intros l n. revert l.
  induction n as [|n IH]; intros [|tok l]; cbn [isupport_loop]; try (by intros Hm; inversion Hm).
  case_match; [intros [->|Hm]%elem_of_cons; [done|by eapply IH]|by intros ->%list_elem_of_singleton].
Qed.

Lemma isupport_lines_plain tokens : Forall (λ m, plain_command (Command m)) (GenerateIsupport tokens).
Proof.
  apply Forall_forall. intros m ->%isupport_lines. by apply (bool_decide_unpack _); vm_compute.
Qed.

(** A BATCH line, when the client gets them at all. *)
Lemma when_batch b s params tags :
  d_label s = None → ∃ out, when b (SendMessage_dc (mkMessage tags None "BATCH" params)) s =
    (set_d_trace (d_trace s ++ (DSend <$> out)) s, Ok tt) ∧ ∀ st, foldl client_isupport st out = st.
Proof.
  intros Hl. destruct b; cbn [when].
  - destruct (SendMessage_plain s (mkMessage tags None "BATCH" params) Hl) as (m' & Hs & [C _]).
    { by apply (bool_decide_unpack _); vm_compute. }
    exists [m']. split; [done|]. intros st. cbn. unfold client_isupport. by rewrite C.
  - exists []. split; [|done]. cbn. rewrite app_nil_r. by destruct s.
Qed.

Lemma sendIsupport_run tokens s :
  d_label s = None → ∃ s' out, sendIsupport tokens s = (s', Ok tt) ∧ sent_more s out s' ∧
    ∀ st, foldl client_isupport st out = foldl client_isupport st (GenerateIsupport tokens).
Proof.
  intros Hl. unfold sendIsupport, mbind at 1, M_bind at 1, gets at 1. destruct (IsEnabled (d_caps s) _).
  - unfold SendBatch_dc, mbind at 1, M_bind at 1, gets at 1, Datatypes.id.
    generalize (FormatUint (wrap_u64 (d_lastBatchRef s + 1))) as ref. intros ref.
    unfold mbind at 1, M_bind at 1, modify at 1. set (s1 := set_d_lastBatchRef _ s).
    destruct (when_batch (IsEnabled (d_caps s) "batch") s1 (["+" +:+ ref; "draft/isupport"] ++ []) ∅ Hl) as (o1 & E1 & C1).
    unfold mbind at 1, M_bind at 1. rewrite E1. set (s2 := set_d_trace _ s1).
    destruct (foreach_plain (with_tags (<["batch" := ref]>)) (GenerateIsupport tokens) s2 Hl) as (o2 & E2 & C2);
      [done|apply isupport_lines_plain|].
    unfold mbind at 1, M_bind at 1. rewrite E2. set (s3 := set_d_trace _ s2).
    unfold mbind at 1, M_bind at 1, gets at 1.
    destruct (when_batch (IsEnabled (d_caps s3) "batch") s3 ["-" +:+ ref] ∅ Hl) as (o3 & E3 & C3).
    exists (set_d_trace (d_trace s3 ++ (DSend <$> o3)) s3), (o1 ++ o2 ++ o3). split; [exact E3|]. split.
    + eexists. cbn. rewrite !fmap_app, !app_assoc. reflexivity.
    + intros st. by rewrite !foldl_app, C1, C3, (client_same _ _ _ C2).
  - destruct (foreach_plain (λ m, m) (GenerateIsupport tokens) s Hl) as (out & E & Hout);
      [done|apply isupport_lines_plain|].
    eexists _, out. split; [exact E|]. split; [|intros st; by apply client_same]. exists (d_lastBatchRef s). by destruct s.
Qed.

(** The tokens a client reads are those of the map. *)
Lemma client_reads tokens st :
  ∃ l, foldl client_isupport st (GenerateIsupport tokens) = foldl apply_change st l ∧ l ≡ₚ token_changes tokens.
Proof.
  exists (parse_token <$> mjoin (decode_isupport <$> GenerateIsupport tokens)). split.
  - pose proof (isupport_lines tokens) as Hc. revert st Hc. induction (GenerateIsupport tokens) as [|m ms IH]; intros st Hc; [done|].
    rewrite fmap_cons, mjoin_cons, fmap_app, foldl_app. cbn [foldl].
    rewrite (IH (client_isupport st m)) by (intros m' Hm'; apply Hc; by right).
    f_equal. unfold client_isupport. rewrite decide_True by (apply Hc; by left). done.
  - unfold GenerateIsupport. rewrite isupport_loop_decode by done. unfold token_changes.
    rewrite list_fmap_compose. apply fmap_Permutation, merge_sort_Permutation.
Qed.
End lines.

(** ** The theorem *)

Definition keys_ok (m : gmap string (option string)) : Prop := ∀ k, is_Some (m !! k) → token_key k.

Lemma keys_ok_insert k v m : token_key k → keys_ok m → keys_ok (<[k := v]> m).
Proof. intros Hk Hm k' Hk'. destruct (decide (k = k')) as [<-|Hne]; [done|]. rewrite lookup_insert_ne in Hk' by done. eauto. Qed.
Lemma keys_ok_put_if b k v m : token_key k → keys_ok m → keys_ok (put_if b k v m).
Proof. intros. destruct b; [by apply keys_ok_insert|done]. Qed.

Lemma keys_ok_passthrough uc l m :
  Forall token_key l → keys_ok m →
  keys_ok (foldl (λ m k, match isupport uc !! k with Some v => <[k := v]> m | None => m end) m l).
Proof.
  intros Hl. revert m. induction Hl as [|k l Hk Hl IH]; intros m Hm; [done|]. apply IH. case_match; [|done].
  by apply keys_ok_insert.
Qed.

Lemma permanentIsupport_keys : keys_ok permanentIsupport.
Proof.
  assert (Forall (λ kv, token_key kv.1) (map_to_list permanentIsupport)) as Hall
    by (by apply (bool_decide_unpack _); vm_compute).
  intros k [v Hv]. apply elem_of_map_to_list in Hv. rewrite Forall_forall in Hall. exact (Hall _ Hv).
Qed.

Ltac key := by apply (bool_decide_unpack _); vm_compute.
Ltac keys :=
  repeat match goal with
  | |- keys_ok (put_if _ _ _ _) => apply keys_ok_put_if; [key|]
  | |- keys_ok (<[_ := _]> _) => apply keys_ok_insert; [key|]
  | |- keys_ok (foldl _ _ _) => apply keys_ok_passthrough; [key|]
  | |- keys_ok (if ?b then _ else _) => destruct b
  | |- keys_ok (match ?x with _ => _ end) => destruct x
  end; try apply permanentIsupport_keys.

Lemma buildIsupport_keys `{DE : denv} s : keys_ok (buildIsupport s).
Proof. unfold buildIsupport. cbv zeta. keys. Qed.

(** C10: A client that keeps track of ISUPPORT tokens agrees with the bouncer. Whenever the
    tokens of a registered connection are updated, the lines sent make a client that knew the
    previous tokens know exactly the current ones: changed and new tokens are set, the ones
    that are gone are negated. *)
Theorem isupport_mirrored `{DE : denv} (s : dstate) :
  d_label s = None → d_registered s = true ∨ IsEnabled (d_caps s) "draft/extended-isupport" = true →
  ∃ s' out, updateIsupport_dc s = (s', Ok tt) ∧ d_trace s' = d_trace s ++ (DSend <$> out) ∧
    foldl client_isupport (d_isupport s) out = buildIsupport s ∧ d_isupport s' = buildIsupport s.
Proof.
  intros Hl Hreg. unfold updateIsupport_dc, mbind at 1, M_bind at 1, gets at 1, Datatypes.id.
  replace (negb (d_registered s) && negb (IsEnabled (d_caps s) "draft/extended-isupport")) with false
    by (destruct Hreg as [-> | ->]; cbn [negb andb]; by rewrite ?andb_false_r).
  destruct (sendIsupport_run (isupport_changes (d_isupport s) (buildIsupport s)) s Hl) as (s1 & out & E1 & [ref ->] & Hread).
  unfold mbind, M_bind. rewrite E1. eexists _, out. split; [reflexivity|]. split; [done|].
  split; [|done]. rewrite Hread.
  destruct (client_reads (isupport_changes (d_isupport s) (buildIsupport s)) (d_isupport s)) as (l & -> & Hperm).
  apply difference_applied; [exact (buildIsupport_keys s)|exact Hperm].
Qed.

(** A client bound to no network, whose previous tokens include one that is gone. *)
Definition demo_tokens : dstate :=
  set_d_isupport {["NETWORK" := Some "old"; "BOT" := Some "b"]} (set_d_user (Some (NewUser "alice"))
    (set_d_registered true (newDownstreamConn (DE:=demo_denv)))).

Lemma isupport_mirrored_witness :
  ∃ s' out, updateIsupport_dc (DE:=demo_denv) demo_tokens = (s', Ok tt) ∧
    d_trace s' = DSend <$> out ∧
    foldl client_isupport (d_isupport demo_tokens) out = buildIsupport (DE:=demo_denv) demo_tokens.
Proof.
  destruct (isupport_mirrored (DE:=demo_denv) demo_tokens) as (s' & out & H1 & H2 & H3 & _).
  - reflexivity.
  - left. reflexivity.
  - exists s', out. auto.
Defined.

(** ** Capabilities *)

(** A client that follows CAP NEW and CAP DEL; a line names one capability. *)
Definition client_cap (st : gmap string string) (m : Message) : gmap string string :=
  match Command m, Params m with
  | "CAP", [_; "NEW"; c] => match Cut c "=" with Some (k, v) => <[k := v]> st | None => <[c := ""]> st end
  | "CAP", [_; "DEL"; c] => delete c st
  | _, _ => st
  end.

(** A connection whose client gets CAP NEW and CAP DEL with values. *)
Definition notified (s : dstate) : Prop :=
  d_label s = None ∧ IsEnabled (d_caps s) "cap-notify" = true ∧ 302 ≤ d_capVersion s.

(** The names of the capabilities that come and go. *)
Definition cap_name (k : string) : Prop := str_mem "="%char k = false ∧ k ≠ "cap-notify".
#[global] Instance cap_name_dec k : Decision (cap_name k).
Proof. unfold cap_name. apply _. Defined.

Section caps.
Context `{DE : denv} `{UnicodeTables}.

Definition change_cap (c : change string) : DM unit :=
  match c.2 with Some v => setSupportedCap c.1 v | None => unsetSupportedCap c.1 end.

Definition upstream_has (s : dstate) (k : string) : bool :=
  match d_upstream s with Some uc => IsEnabled (caps uc) k | None => true end.

Definition account_registration (s : dstate) : option string :=
  uc ← d_upstream s;
  if IsEnabled (caps uc) "draft/account-registration" then
    Some (Join (remove_first "before-connect"
      (Split (default "" (Available (caps uc) !! "draft/account-registration")) ",")) ",")
  else None.

(** What [updateSupportedCaps] makes available or withdraws. *)
Definition cap_changes (s : dstate) : list (change string) :=
  ((λ kv : string * string, (kv.1, if upstream_has s kv.1 then Some kv.2 else None)) <$> map_to_list passthroughDownstreamCaps)
  ++ (if match d_upstream s with Some uc => supportsSASL (caps uc) "PLAIN" | None => false end
      then [("sasl", Some "PLAIN,ANONYMOUS")]
      else if decide (is_Some (d_network s)) then [("sasl", None)] else [])
  ++ [("draft/account-registration", account_registration s)]
  ++ [("draft/event-playback", if de_chatHistoryStore && bool_decide (is_Some (d_network s)) then Some "" else None)].

Lemma updateSupportedCaps_changes s : updateSupportedCaps_dc s = foreach change_cap (cap_changes s) s.
Proof.
  unfold updateSupportedCaps_dc, mbind at 1, M_bind at 1, gets at 1, Datatypes.id. unfold cap_changes.
  rewrite foreach_app. symmetry. etrans.
  { apply bind_ext_l. rewrite foreach_fmap. apply (foreach_ext _ (λ kv : string * string,
      if match d_upstream s with Some uc => IsEnabled (caps uc) kv.1 | None => true end
      then setSupportedCap kv.1 kv.2 else unsetSupportedCap kv.1)).
    intros kv s'. unfold change_cap, upstream_has. cbn. by destruct (match d_upstream s with Some _ => _ | None => _ end). }
  apply bind_ext. intros _ s1. rewrite foreach_app. etrans.
  { apply bind_ext_l. instantiate (1 := if match d_upstream s with Some uc => supportsSASL (caps uc) "PLAIN" | None => false end
      then setSupportedCap "sasl" "PLAIN,ANONYMOUS"
      else when (bool_decide (is_Some (d_network s))) (unsetSupportedCap "sasl")).
    destruct (match d_upstream s with Some _ => _ | None => _ end); [by rewrite foreach_single|].
    destruct (decide (is_Some (d_network s))) as [Hn|Hn].
    - rewrite bool_decide_eq_true_2 by done. by rewrite foreach_single.
    - by rewrite bool_decide_eq_false_2. }
  apply bind_ext. intros _ s2. rewrite foreach_app. etrans.
  { apply bind_ext_l. rewrite foreach_single. instantiate (1 := match d_upstream s with
     | Some uc => if IsEnabled (caps uc) "draft/account-registration" then
         setSupportedCap "draft/account-registration" (Join (remove_first "before-connect"
           (Split (default "" (Available (caps uc) !! "draft/account-registration")) ",")) ",")
         else unsetSupportedCap "draft/account-registration"
     | None => unsetSupportedCap "draft/account-registration" end).
    unfold account_registration. destruct (d_upstream s) as [uc|]; cbn [mbind option_bind]; [|done].
    by destruct (IsEnabled (caps uc) _). }
  apply bind_ext. intros _ s3. rewrite foreach_single.
  by destruct (de_chatHistoryStore && bool_decide (is_Some (d_network s))).
Qed.

(** One change: the client learns it and the registry has it. *)
Lemma change_cap_run c s :
  notified s → cap_name c.1 →
  ∃ s' out, change_cap c s = (s', Ok tt) ∧ notified s' ∧ d_trace s' = d_trace s ++ (DSend <$> out) ∧
    Available (d_caps s') = apply_change (Available (d_caps s)) c ∧
    foldl client_cap (Available (d_caps s)) out = Available (d_caps s') ∧
    Enabled (d_caps s') = (if c.2 then Enabled (d_caps s) else Enabled (d_caps s) ∖ {[c.1]}).
Proof.
  destruct c as [k [v|]]; intros (Hl & Hn & Hv) [He Hne]; cbn [fst snd] in *; unfold change_cap; cbn [fst snd].
  - unfold setSupportedCap, mbind at 1, M_bind at 1, gets at 1, Datatypes.id. unfold mbind at 1, M_bind at 1, modify at 1.
    rewrite Hn. set (s1 := set_d_caps _ s). cbn [negb orb].
    assert (notified s1) as H1 by done.
    assert (Available (d_caps s1) = apply_change (Available (d_caps s)) (k, Some v)) as Ha by done.
    destruct (decide (Available (d_caps s) !! k = Some v)) as [Heq|Heq].
    + rewrite bool_decide_eq_true_2 by done. cbn [negb]. exists s1, []. split_and!; try done; [cbn; by rewrite app_nil_r|].
      cbn. by rewrite insert_id.
    + rewrite bool_decide_eq_false_2 by done. cbn [negb].
      match goal with |- context [SendMessage_dc (msg_from _ _ [_; _; ?c])] => set (cap := c) end.
      destruct (SendMessage_plain s1 (msg_from de_srvPrefix "CAP" [d_nick s; "NEW"; cap])) as (m' & -> & [C P]);
        [done|key|].
      eexists _, [m']. split_and!; try done. cbn [foldl]. unfold client_cap. rewrite C, P. cbn [Command Params msg_from].
      subst cap. rewrite (proj2 (Z.leb_le _ _)) by done. rewrite andb_true_r.
      destruct (decide (v ≠ "")) as [Hve|Hve].
      * rewrite bool_decide_eq_true_2 by done. change ("=" +:+ v) with (String "="%char v).
        by rewrite Cut_char_app.
      * rewrite bool_decide_eq_false_2 by done. rewrite Cut_char_none by done. cbn.
        assert (v = "") as -> by (by apply dec_stable). done.
  - unfold unsetSupportedCap, mbind at 1, M_bind at 1, gets at 1, Datatypes.id. unfold mbind at 1, M_bind at 1, modify at 1.
    set (s1 := set_d_caps _ s).
    assert (IsEnabled (d_caps s1) "cap-notify" = true) as Hn1.
    { apply bool_decide_eq_true in Hn. apply bool_decide_eq_true. cbn. set_solver. }
    change (IsEnabled (cr_Del k (d_caps s)) "cap-notify") with (IsEnabled (d_caps s1) "cap-notify"). rewrite Hn1.
    cbn [negb orb]. unfold IsAvailable. destruct (decide (is_Some (Available (d_caps s) !! k))) as [Heq|Heq].
    + rewrite bool_decide_eq_true_2 by done. cbn [negb].
      destruct (SendMessage_plain s1 (msg_from de_srvPrefix "CAP" [d_nick s; "DEL"; k])) as (m' & -> & [C P]);
        [done|key|].
      eexists _, [m']. split_and!; try done. cbn [foldl]. unfold client_cap. by rewrite C, P.
    + rewrite bool_decide_eq_false_2 by done. cbn [negb]. exists s1, []. split_and!; try done; [cbn; by rewrite app_nil_r|].
      cbn. rewrite delete_id; [done|]. by apply eq_None_not_Some.
Qed.

Lemma change_caps_run l s :
  notified s → Forall (λ c, cap_name c.1) l →
  ∃ s' out, foreach change_cap l s = (s', Ok tt) ∧ notified s' ∧ d_trace s' = d_trace s ++ (DSend <$> out) ∧
    Available (d_caps s') = foldl apply_change (Available (d_caps s)) l ∧
    foldl client_cap (Available (d_caps s)) out = Available (d_caps s') ∧
    Enabled (d_caps s') ⊆ Enabled (d_caps s) ∧
    (Enabled (d_caps s) ⊆ dom (Available (d_caps s)) → Enabled (d_caps s') ⊆ dom (Available (d_caps s'))).
Proof.
  intros Hs Hl. revert s Hs. induction Hl as [|c l Hc Hl IH]; intros s Hs.
  { exists s, []. split_and!; try done. cbn. by rewrite app_nil_r. }
  destruct (change_cap_run c s Hs Hc) as (s1 & o1 & E1 & N1 & T1 & A1 & C1 & En1).
  destruct (IH s1 N1) as (s2 & o2 & E2 & N2 & T2 & A2 & C2 & En2 & D2). exists s2, (o1 ++ o2).
  cbn [foreach foldl]. unfold mbind, M_bind. rewrite E1. split_and!; try done.
  - by rewrite T2, T1, fmap_app, app_assoc.
  - by rewrite A2, A1.
  - by rewrite foldl_app, C1.
  - rewrite En2, En1. destruct (c.2); set_solver.
  - intros Hd. apply D2. rewrite A1, En1. unfold apply_change. destruct c as [k [v|]]; cbn in *.
    + change (partial_alter (λ _, Some v) k) with (insert (M:=gmap string string) k v). rewrite dom_insert_L. set_solver.
    + change (partial_alter (λ _, None) k) with (delete (M:=gmap string string) k). rewrite dom_delete_L. set_solver.
Qed.

Lemma cap_changes_names s : Forall (λ c, cap_name c.1) (cap_changes s).
Proof.
  unfold cap_changes. rewrite !Forall_app. split_and!.
  - rewrite Forall_fmap. cbn. key.
  - repeat case_match; repeat constructor; key.
  - repeat constructor; key.
  - repeat constructor; key.
Qed.

Lemma cap_changes_nodup s : NoDup (cap_changes s).*1.
Proof.
  unfold cap_changes. rewrite !fmap_app, <-list_fmap_compose.
  assert (NoDup ((map_to_list passthroughDownstreamCaps).*1 ++ ["sasl"] ++ ["draft/account-registration"] ++ ["draft/event-playback"]))
    as Hnd by key.
  assert (NoDup ((map_to_list passthroughDownstreamCaps).*1 ++ [] ++ ["draft/account-registration"] ++ ["draft/event-playback"]))
    as Hnd' by key.
  destruct (match d_upstream s with Some _ => _ | None => _ end); [exact Hnd|]. case_decide; [exact Hnd|exact Hnd'].
Qed.
End caps.

(** A client with cap-notify follows the capabilities of its network. When the
    capabilities the upstream server supports change, the CAP NEW and CAP DEL lines the client
    gets make its list of available capabilities the bouncer's; the passed-through ones are
    available exactly when the upstream connection has them enabled, or when there is no
    upstream connection; and no capability stays enabled that is no longer available. *)
Theorem caps_mirrored `{DE : denv} `{UnicodeTables} (s : dstate) :
  d_label s = None → IsEnabled (d_caps s) "cap-notify" = true → 302 ≤ d_capVersion s →
  Enabled (d_caps s) ⊆ dom (Available (d_caps s)) →
  ∃ s' out, updateSupportedCaps_dc s = (s', Ok tt) ∧ d_trace s' = d_trace s ++ (DSend <$> out) ∧
    foldl client_cap (Available (d_caps s)) out = Available (d_caps s') ∧
    (∀ k v, passthroughDownstreamCaps !! k = Some v →
      Available (d_caps s') !! k =
        if match d_upstream s with Some uc => IsEnabled (caps uc) k | None => true end then Some v else None) ∧
    Enabled (d_caps s') ⊆ Enabled (d_caps s) ∩ dom (Available (d_caps s')).
Proof.
  intros Hl Hn Hv Hen. rewrite updateSupportedCaps_changes.
  destruct (change_caps_run (cap_changes s) s (conj Hl (conj Hn Hv)) (cap_changes_names s))
    as (s' & out & -> & _ & Ht & Ha & Hc & He & Hd).
  exists s', out. split; [reflexivity|]. split; [exact Ht|]. split; [exact Hc|]. split.
  - intros k v Hk. rewrite Ha. apply apply_changes_in; [apply cap_changes_nodup|].
    apply elem_of_app. left. apply list_elem_of_fmap. exists (k, v). split; [reflexivity|]. by apply elem_of_map_to_list.
  - specialize (Hd Hen). clear -Hd He. set_solver.
Qed.

(** A connection to a network whose server supports message-tags and no longer chghost. *)
Definition demo_bound : dstate :=
  set_d_network (Some (set_net_connected true (set_caps (MkCaps ∅ {["message-tags"]})
    (newConnection (NewNetwork "irc.example") []))))
  (set_d_capVersion 302 (set_d_caps
    (MkCaps {["cap-notify" := ""; "chghost" := ""]} {["cap-notify"; "chghost"]}) (newDownstreamConn (DE:=demo_denv)))).

Lemma caps_mirrored_witness :
  ∃ s' out, updateSupportedCaps_dc (DE:=demo_denv) (H:=latin1_tables) demo_bound = (s', Ok tt) ∧
    d_trace s' = DSend <$> out ∧ foldl client_cap (Available (d_caps demo_bound)) out = Available (d_caps s') ∧
    Available (d_caps s') !! "message-tags" = Some "" ∧ Available (d_caps s') !! "chghost" = None.
Proof.
  destruct (caps_mirrored (DE:=demo_denv) (H:=latin1_tables) demo_bound) as (s' & out & H1 & H2 & H3 & H4 & _).
  - reflexivity.
  - reflexivity.
  - cbn. lia.
  - apply (bool_decide_unpack _). vm_compute. exact I.
  - exists s', out. split_and!; [exact H1|exact H2|exact H3|..].
    + rewrite (H4 "message-tags" ""); [reflexivity|vm_compute; reflexivity].
    + rewrite (H4 "chghost" ""); [reflexivity|vm_compute; reflexivity].
Defined.
