(* ===== verification/UserNetworks.v ===== *)
(** * The networks of a user (user.go, downstream.go)

    A user owns a list of networks and a list of client connections; a connection may be
    bound to a network. Both refer to networks by pointer, and updating a network replaces
    its object by another one with the same ID, so the model has a heap of network objects:
    [us_networks] and the connections hold addresses. The URL parser and the database are
    parameters. *)

From S2P Require Import Prelude GoStrings GoUnicode GoStrconv IrcMessage CaseMapping Membership Modes WhoX Base64.
From S2P Require Import Effects GenMsg Caps Database Highlight Upstream UpstreamHandlers Downstream DownstreamHandlers.

Open Scope string_scope.
Open Scope list_scope.
Open Scope Z_scope.

Record URL := MkURL {
  urlScheme : string; urlHasUser : bool; urlHost : string; urlPath : string; urlRawQuery : string; urlFragment : string
}.

(** What the networks of a user need to know of a client connection. *)
Record downConn := MkDown { dn_id : Z; dn_network : option nat; dn_notify : bool; dn_closed : bool }.

Definition set_dn_network (p : option nat) (d : downConn) : downConn := MkDown (dn_id d) p (dn_notify d) (dn_closed d).
Definition close_dn (d : downConn) : downConn := MkDown (dn_id d) (dn_network d) (dn_notify d) true.

Inductive uaction :=
| UStoreNetwork (record : dbNetwork)
| UDeleteNetwork (id : Z)
| UStoreUser (record : dbUser)
| UStart (p : nat)
| UStop (p : nat)
| URename (old new : dbNetwork)
| UDial (addr : string)
(** what a network did: messages to its server, calls of client connections, database *)
| UNet (p : nat) (a : action)
(** a call of a method of a client connection *)
| UDown (dc : Z) (c : dc_call)
| UNetworkState (dc : Z) (id : Z) (attrs : option (gmap string string)).

Record userState := MkUserState {
  us_record : dbUser;
  us_networks : list nat;
  us_heap : gmap nat ustate;
  us_next : nat;
  us_downstreams : list downConn;
  us_trace : list uaction
}.
Definition eta_us (x : userState) : userState :=
  MkUserState (us_record x) (us_networks x) (us_heap x) (us_next x) (us_downstreams x) (us_trace x).
Definition set_us_record : dbUser → userState → userState := ltac:(setter eta_us us_record).
Definition set_us_networks : list nat → userState → userState := ltac:(setter eta_us us_networks).
Definition set_us_heap : gmap nat ustate → userState → userState := ltac:(setter eta_us us_heap).
Definition set_us_next : nat → userState → userState := ltac:(setter eta_us us_next).
Definition set_us_downstreams : list downConn → userState → userState := ltac:(setter eta_us us_downstreams).
Definition set_us_trace : list uaction → userState → userState := ltac:(setter eta_us us_trace).

(** The URL and address parsers of Go, the database and the configuration. [ue_StoreNetwork]
    is given the IDs of the networks the user has and answers the ID of the row. *)
Class uenv := MkUenv {
  ue_urlParse : string → option URL;
  ue_SplitHostPort : string → option (string * string);
  ue_StoreNetwork : list uaction → list Z → Z → dbNetwork → Z + goerr;
  ue_DeleteNetwork : list uaction → Z → option goerr;
  ue_StoreUser : list uaction → dbUser → option goerr;
  ue_MaxUserNetworks : Z;
  ue_renameStore : bool;
  ue_dialTLS : list uaction → string → bool
}.

Abbreviation UM := (ST userState).

Definition uemit (a : uaction) : UM unit := modify (λ s, set_us_trace (us_trace s ++ [a]) s).
Definition ucall {A} (a : uaction) (f : list uaction → A) : UM A :=
  tr ← gets us_trace; uemit a ;; mret (f tr).

Definition set_nID (id : Z) (n : dbNetwork) : dbNetwork :=
  MkNetwork id (nName n) (nAddr n) (nNick n) (nUsername n) (nRealname n) (nPass n) (nConnectCommands n)
    (nCertFP n) (nSASL n) (nAutoAway n) (nEnabled n).
Definition set_nNick (x : string) (n : dbNetwork) : dbNetwork :=
  MkNetwork (nID n) (nName n) (nAddr n) x (nUsername n) (nRealname n) (nPass n) (nConnectCommands n)
    (nCertFP n) (nSASL n) (nAutoAway n) (nEnabled n).
Definition set_nRealname (x : string) (n : dbNetwork) : dbNetwork :=
  MkNetwork (nID n) (nName n) (nAddr n) (nNick n) (nUsername n) x (nPass n) (nConnectCommands n)
    (nCertFP n) (nSASL n) (nAutoAway n) (nEnabled n).

(** The record of a network object. *)
Definition rec_of (h : gmap nat ustate) (p : nat) : dbNetwork :=
  match h !! p with Some n => net_record n | None => NewNetwork "" end.
Definition rec_at (s : userState) (p : nat) : dbNetwork := rec_of (us_heap s) p.

(** The IDs of the rows of the user. *)
Definition stored_ids (s : userState) : list Z := (λ p, nID (rec_at s p)) <$> us_networks s.

Section user.
Context `{UE : uenv} `{E : env} `{UnicodeTables}.

Definition Network_URL (net : dbNetwork) : option URL :=
  let s := if Contains (nAddr net) "://" then nAddr net else "ircs://" +:+ nAddr net in
  u ← ue_urlParse s;
  Some (if decide (urlScheme u = "irc+unix" ∨ urlScheme u = "unix")
        then MkURL (urlScheme u) (urlHasUser u) "" (urlHost u +:+ urlPath u) (urlRawQuery u) (urlFragment u)
        else u).

Definition fillNetworkAddrAttrs (attrs : gmap string string) (net : dbNetwork) : gmap string string :=
  match Network_URL net with
  | None => attrs
  | Some u =>
    let '(hasHostPort, attrs) :=
      if decide (urlScheme u = "ircs") then (true, <["tls" := "1"]> attrs)
      else if decide (urlScheme u = "irc+insecure") then (true, <["tls" := "0"]> attrs)
      else (false, attrs) in
    match ue_SplitHostPort (urlHost u) with
    | Some (host, port) => if (hasHostPort : bool) then <["port" := port]> (<["host" := host]> attrs) else attrs
    | None => if hasHostPort then <["host" := urlHost u]> attrs else attrs
    end
  end.

Definition put_attr (b : bool) (k v : string) (m : gmap string string) : gmap string string :=
  if b then <[k := v]> m else m.

Definition getNetworkAttrs (u : dbUser) (n : ustate) : gmap string string :=
  let r := net_record n in
  let attrs := list_to_map [("name", GetName r); ("state", if net_connected n then "connected" else "disconnected");
                            ("nickname", GetNick u (Some r))] in
  let attrs := put_attr (bool_decide (nUsername r ≠ "")) "username" (nUsername r) attrs in
  let attrs := put_attr (bool_decide (GetRealname u (Some r) ≠ "")) "realname" (GetRealname u (Some r)) attrs in
  let attrs := match net_lastError n with Some e => <["error" := e]> attrs | None => attrs end in
  fillNetworkAddrAttrs attrs r.

Definition networkAddrFromAttrs (attrs : gmap string string) : string :=
  let get k := default "" (attrs !! k) in
  if decide (get "host" = "") then ""
  else
    let addr := if decide (get "port" ≠ "") then get "host" +:+ ":" +:+ get "port" else get "host" in
    if decide (get "tls" = "0") then "irc+insecure://" +:+ addr else addr.

Definition getNetwork (s : userState) (name : string) : option nat :=
  List.find (λ p, bool_decide (nAddr (rec_at s p) = name)
                  || (bool_decide (nName (rec_at s p) ≠ "") && bool_decide (nName (rec_at s p) = name))) (us_networks s).

Definition getNetworkByID (s : userState) (id : Z) : option nat :=
  List.find (λ p, bool_decide (nID (rec_at s p) = id)) (us_networks s).

Definition notifyBouncerNetworkState (netID : Z) (attrs : gmap string string) : UM unit :=
  s ← gets id;
  if existsb (λ p, bool_decide (nID (rec_at s p) = netID)) (us_networks s) then
    foreach (λ d, when (dn_notify d) (uemit (UNetworkState (dn_id d) netID (Some attrs)))) (us_downstreams s)
  else skip.

(** The order of [sort.Slice] in [addNetwork]. *)
Definition by_id (h : gmap nat ustate) (p q : nat) : Prop := nID (rec_of h p) ≤ nID (rec_of h q).
#[global] Instance by_id_dec h : RelDecision (by_id h).
Proof. unfold by_id. intros p q. apply _. Defined.

Definition addNetwork (p : nat) : UM unit :=
  modify (λ s, set_us_networks (merge_sort (by_id (us_heap s)) (us_networks s ++ [p])) s) ;;
  uemit (UStart p).

(** The list without its first occurrence of [p]. *)
Fixpoint remove_ptr (p : nat) (l : list nat) : option (list nat) :=
  match l with
  | [] => None
  | q :: l => if decide (q = p) then Some l else cons q <$> remove_ptr p l
  end.

Definition removeNetwork (p : nat) : UM unit :=
  uemit (UStop p) ;;
  modify (λ s, set_us_downstreams
    ((λ d, if decide (dn_network d = Some p) then close_dn d else d) <$> us_downstreams s) s) ;;
  s ← gets id;
  match remove_ptr p (us_networks s) with
  | Some l => modify (set_us_networks l)
  | None => panic "tried to remove a non-existing network"
  end.

Definition max_networks (s : userState) : Z :=
  if uMaxNetworks (us_record s) <? 0 then ue_MaxUserNetworks else uMaxNetworks (us_record s).

Definition enabled_networks (s : userState) : Z :=
  Z.of_nat (length (filter (λ p, nEnabled (rec_at s p) = true) (us_networks s))).

Definition canEnableNewNetwork (s : userState) : res goerr unit :=
  if max_networks s <? 0 then Ok tt
  else if max_networks s <=? enabled_networks s then Err (Errorf "maximum number of enabled networks reached")
  else Ok tt.

Definition checkURL (s : userState) (url : URL) : res goerr unit :=
  if urlHasUser url then Err (Errorf "%v:// URL must not have username and password information")
  else if decide (urlRawQuery url ≠ "") then Err (Errorf "%v:// URL must not have query values")
  else if decide (urlFragment url ≠ "") then Err (Errorf "%v:// URL must not have a fragment")
  else if decide (urlScheme url = "ircs" ∨ urlScheme url = "irc+insecure") then
    if decide (urlHost url = "") then Err (Errorf "%v:// URL must have a host")
    else if decide (urlPath url ≠ "") then Err (Errorf "%v:// URL must not have a path")
    else Ok tt
  else if decide (urlScheme url = "irc+unix" ∨ urlScheme url = "unix") then
    if negb (uAdmin (us_record s)) then Err (Errorf "non-admin users cannot add networks with a unix address")
    else if decide (urlHost url ≠ "") then Err (Errorf "%v:// URL must not have a host")
    else if decide (urlPath url = "") then Err (Errorf "%v:// URL must have a path")
    else Ok tt
  else Err (Errorf "unknown URL scheme %q").

Definition checkNetwork (s : userState) (record : dbNetwork) : res goerr unit :=
  match Network_URL record with
  | None => Err (Errorf "failed to parse upstream server URL: %v")
  | Some url =>
    _ ← checkURL s url;
    if decide (GetName record = "") then Err (Errorf "network name cannot be empty")
    else if HasPrefix (GetName record) "-" then Err (Errorf "network name cannot start with a dash character")
    else if existsb (λ p, bool_decide (GetName (rec_at s p) = GetName record ∧ nID (rec_at s p) ≠ nID record))
              (us_networks s)
    then Err (Errorf "a network with the name %q already exists")
    else Ok tt
  end.

(** A new network object. *)
Definition alloc (n : ustate) : UM nat :=
  p ← gets us_next;
  modify (λ s, set_us_next (S p) (set_us_heap (<[p := n]> (us_heap s)) s)) ;;
  mret p.

(** The connections of the user as the network at [p] sees them. *)
Definition set_dc_here (b : bool) (v : downstreamView) : downstreamView :=
  MkDownstreamView (dc_id v) b (dc_nick v) (dc_prefix v) (dc_caps v) (dc_away v) (dc_monitored v)
    (dc_metadataSubs v) (dc_sasl v).
Definition views_at (s : userState) (p : nat) : list downstreamView :=
  omap (λ d, set_dc_here (bool_decide (dn_network d = Some p))
             <$> List.find (λ v, bool_decide (dc_id v = dn_id d)) e_downstreams) (us_downstreams s).
Definition env_at (s : userState) (p : nat) : env :=
  MkEnv (us_record s) (views_at s p) e_hasStore e_LastMsgID e_Append e_GetMessageTarget e_now e_time
    e_ParsePrefix e_srvPrefix e_saslStart e_saslNext.

(** A method of the network at [p]; what it does is part of what the user does. *)
Definition on_network {A} (p : nat) (m : env → M A) : UM A := λ s,
  match us_heap s !! p with
  | Some n =>
    let '(n', r) := m (env_at s p) n in
    let done := UNet p <$> drop (length (trace n)) (trace n') in
    (set_us_trace (us_trace s ++ done) (set_us_heap (<[p := n']> (us_heap s)) s), r)
  | None => (s, Panic "invalid memory address or nil pointer dereference")
  end.

Definition check_limit (enforceLimit : bool) (record : dbNetwork) : UM unit :=
  s ← gets id; when (enforceLimit && nEnabled record) (lift (canEnableNewNetwork s)).

Definition createNetwork (record : dbNetwork) (enforceLimit : bool) : UM nat :=
  if decide (nID record ≠ 0) then panic "tried creating an already-existing network"
  else
    check_limit enforceLimit record ;;
    s ← gets id;
    lift (checkNetwork s record) ;;
    r ← ucall (UStoreNetwork record) (λ tr, ue_StoreNetwork tr (stored_ids s) (uID (us_record s)) record);
    match r with
    | inr e => fail e
    | inl newID =>
      p ← alloc (newConnection (set_nID newID record) []);
      addNetwork p ;;
      s ← gets id;
      notifyBouncerNetworkState newID (getNetworkAttrs (us_record s) (default (newConnection record []) (us_heap s !! p))) ;;
      mret p
    end.

(** [record.Nick == u.Nick] and the like: back to the default. *)
Definition wipe_defaults (u : dbUser) (record : dbNetwork) : dbNetwork :=
  let record := if decide (nNick record = uNick u) then set_nNick "" record else record in
  if decide (nRealname record = uRealname u) then set_nRealname "" record else record.

(** Connections bound to [p] are bound to [q] instead. *)
Definition rebind (p q : nat) : UM unit :=
  modify (λ s, set_us_downstreams
    ((λ d, if decide (dn_network d = Some p) then set_dn_network (Some q) d else d) <$> us_downstreams s) s).

Definition net_at (s : userState) (p : nat) : ustate := default (newConnection (NewNetwork "") []) (us_heap s !! p).

(** The replacement of the object [p] by a new one for [record]. *)
Definition replaceNetwork (p : nat) (record : dbNetwork) : UM nat :=
  s ← gets id;
  q ← alloc (newConnection record (value <$> CMM.Entries (net_channels (net_at s p))));
  uemit (UStop p) ;;
  when (net_connected (net_at s p)) (on_network p (λ E, handleUpstreamDisconnected (E:=E) true)) ;;
  rebind p q ;;
  removeNetwork p ;;
  s ← gets id;
  let old := net_at s p in
  on_network q (λ E,
    modify (λ n, set_net_pushTargets (net_pushTargets old) (set_net_delivered (net_delivered old) n)) ;;
    when (nEnabled record) (modify (set_net_lastError (net_lastError old))) ;;
    net_updateCasemapping (E:=E) (net_casemap old)) ;;
  when (ue_renameStore && negb (bool_decide (GetName record = GetName (net_record old))))
    (uemit (URename (net_record old) record)) ;;
  addNetwork q ;;
  mret q.

Definition updateNetwork (record : dbNetwork) (enforceLimit : bool) : UM nat :=
  if decide (nID record = 0) then panic "tried updating a new network"
  else
    check_limit enforceLimit record ;;
    s ← gets id;
    let record := wipe_defaults (us_record s) record in
    lift (checkNetwork s record) ;;
    match getNetworkByID s (nID record) with
    | None => panic "tried updating a non-existing network"
    | Some p =>
      r ← ucall (UStoreNetwork record) (λ tr, ue_StoreNetwork tr (stored_ids s) (uID (us_record s)) record);
      match r with
      | inr e => fail e
      | inl _ =>
        q ← replaceNetwork p record;
        s ← gets id;
        notifyBouncerNetworkState (nID record) (getNetworkAttrs (us_record s) (net_at s q)) ;;
        mret q
      end
    end.

Definition deleteNetwork (id : Z) : UM unit :=
  s ← gets (λ s, s);
  match getNetworkByID s id with
  | None => panic "tried deleting a non-existing network"
  | Some p =>
    err ← ucall (UDeleteNetwork id) (λ tr, ue_DeleteNetwork tr id);
    match err with
    | Some e => fail e
    | None =>
      removeNetwork p ;;
      ds ← gets us_downstreams;
      foreach (λ d, when (dn_notify d) (uemit (UNetworkState (dn_id d) id None))) ds
    end
  end.

(** [updateUser]: the new default nickname goes to the networks that use it. *)
Definition user_nick_update (p : nat) : UM unit :=
  s ← gets id;
  let n := net_at s p in
  if bool_decide (nNick (net_record n) ≠ "") || negb (net_connected n) then skip
  else on_network p (λ _, SendMessage_uc (msg "NICK" [GetNick (us_record s) (Some (net_record n))])).

(** [updateUser]: the networks that must reconnect, by their records, and the commands for
    the others. *)
Definition user_network_update (realnameUpdated enabledUpdated : bool) (p : nat) : UM (option dbNetwork) :=
  s ← gets id;
  let n := net_at s p in
  if realnameUpdated && negb enabledUpdated then
    if decide (nRealname (net_record n) ≠ "") then mret None
    else if net_connected n && IsEnabled (caps n) "setname" then
      on_network p (λ _, SendMessage_uc (msg "SETNAME" [GetRealname (us_record s) (Some (net_record n))])) ;; mret None
    else mret (Some (net_record n))
  else mret (Some (net_record n)).

Fixpoint collect {A B} (f : A → UM (option B)) (l : list A) : UM (list B) :=
  match l with
  | [] => mret []
  | x :: l => y ← f x; ys ← collect f l; mret (option_list y ++ ys)
  end.

(** All the updates are tried; the last error is the result. *)
Fixpoint update_all (records : list dbNetwork) (err : option goerr) : UM unit :=
  match records with
  | [] => match err with Some e => fail e | None => skip end
  | r :: records =>
    o ← try (updateNetwork r false);
    update_all records (match o with inl _ => err | inr e => Some e end)
  end.

Definition updateUser (update : dbUser → dbUser + goerr) : UM unit :=
  u ← gets us_record;
  match update u with
  | inr e => fail e
  | inl record =>
    let nickUpdated := negb (bool_decide (uNick u = uNick record)) in
    let realnameUpdated := negb (bool_decide (uRealname u = uRealname record)) in
    let enabledUpdated := negb (Bool.eqb (uEnabled u) (uEnabled record)) in
    err ← ucall (UStoreUser record) (λ tr, ue_StoreUser tr record);
    match err with
    | Some _ => fail (Errorf "failed to update user %q: %v")
    | None =>
      modify (set_us_record record) ;;
      s ← gets id;
      when nickUpdated (foreach user_nick_update (us_networks s)) ;;
      when (realnameUpdated || enabledUpdated)
        (records ← collect (user_network_update realnameUpdated enabledUpdated) (us_networks s);
         update_all records None) ;;
      s ← gets id;
      when (negb (uEnabled (us_record s)))
        (modify (λ s, set_us_downstreams (close_dn <$> us_downstreams s) s))
    end
  end.

(** ** Connections *)

(** [illegalNickChars] are ASCII. *)
Definition illegalNickChars : string := " :@!*?$,.".
Definition ContainsAny (s chars : string) : bool := bool_decide (is_Some (IndexAny s chars)).

(** [loadNetwork]: the network a new connection is bound to. *)
Definition loadNetwork (nick : string) (reg : downstreamRegistration) : UM (option nat) :=
  s ← gets id;
  if decide (rNetworkID reg ≠ 0) then
    match getNetworkByID s (rNetworkID reg) with
    | None => fail (ircError (msg "FAIL" ["BOUNCER"; "INVALID_NETID"; FormatInt (rNetworkID reg); "Unknown network ID"]))
    | Some p => mret (Some p)
    end
  else if decide (rNetworkName reg = "*") then
    fail (ircError (msg ERR_PASSWDMISMATCH [nick; "Multi-upstream mode is no longer supported"]))
  else if decide (rNetworkName reg = "") then mret None
  else match getNetwork s (rNetworkName reg) with
  | Some p => mret (Some p)
  | None =>
    let addr := if Contains (rNetworkName reg) ":" then rNetworkName reg else rNetworkName reg +:+ ":6697" in
    ok ← ucall (UDial addr) (λ tr, ue_dialTLS tr addr);
    if negb ok then
      fail (ircError (msg ERR_PASSWDMISMATCH
        [nick; "Failed to connect to " +:+ Quote (rNetworkName reg)]))
    else
      let '(n, _, _) := unmarshalUsername (rNick reg) in
      if bool_decide (n = "") || ContainsAny n illegalNickChars then
        fail (ircError (msg ERR_ERRONEUSNICKNAME [nick; rNick reg; "Nickname contains illegal characters"]))
      else if decide (casemapASCII n = serviceNickCM) then
        fail (ircError (msg ERR_NICKNAMEINUSE [nick; rNick reg; "Nickname reserved for bouncer service"]))
      else
        p ← createNetwork (set_nNick n (NewNetwork (rNetworkName reg))) true;
        mret (Some p)
  end.

(** The binding of a connection that joins the user, and its departure. *)
Definition connect_dc (id : Z) (nick : string) (notify : bool) (reg : downstreamRegistration) : UM unit :=
  net ← loadNetwork nick reg;
  modify (λ s, set_us_downstreams (us_downstreams s ++ [MkDown id net notify false]) s).

Definition disconnect_dc (id : Z) : UM unit :=
  modify (λ s, set_us_downstreams (filter (λ d, dn_id d ≠ id) (us_downstreams s)) s).
(** ** Events

    What the clients and administrators of a user ask for, with the limit enforced the way
    the commands do: unless [-ignore-limit] is given, and on an update only when the
    network was disabled. *)
Inductive uevent :=
| ECreate (record : dbNetwork) (ignoreLimit : bool)
| EUpdate (record : dbNetwork) (ignoreLimit : bool)
| EDelete (id : Z)
| EUser (update : dbUser → dbUser + goerr)
| EConnect (id : Z) (nick : string) (notify : bool) (reg : downstreamRegistration)
| EDisconnect (id : Z).

Definition handle_uevent (e : uevent) : UM unit :=
  match e with
  | ECreate record ign => createNetwork record (negb ign) ;; skip
  | EUpdate record ign =>
    s ← gets id;
    match getNetworkByID s (nID record) with
    | Some p => updateNetwork record (negb ign && negb (nEnabled (rec_at s p))) ;; skip
    | None => fail (Errorf "unknown network")
    end
  | EDelete i =>
    s ← gets id;
    match getNetworkByID s i with Some _ => deleteNetwork i | None => fail (Errorf "unknown network") end
  | EUser f => updateUser f
  | EConnect i nick notify reg => connect_dc i nick notify reg
  | EDisconnect i => disconnect_dc i
  end.

(** The events one after the other; an event that fails leaves its partial effects. *)
Definition run_uevents (es : list uevent) (s : userState) : userState := foldl (λ s e, (handle_uevent e s).1) s es.
End user.
