(* ===== verification/UserNetworksInv.v ===== *)
(** * The networks of a user: invariant and limit

    Creating, changing and deleting networks, changing the user, and connections that come
    and go keep the networks sorted by ID with distinct names, and every open connection
    bound to a network the user has.
    The last part shows that the connections of the networks keep theirs. *)

From S2P Require Import Prelude GoStrings GoUnicode GoStrconv IrcMessage Effects CaseMapping Membership Modes WhoX Base64 GenMsg Highlight Caps Database Upstream UpstreamHandlers UpstreamInv Downstream DownstreamHandlers UserNetworks.

Open Scope string_scope.
Open Scope list_scope.
Open Scope Z_scope.

(** ** The networks *)

(** A name the service commands can take. *)
Definition name_ok (r : dbNetwork) : Prop := GetName r ≠ "" ∧ HasPrefix (GetName r) "-" = false.

Record nets_ok (h : gmap nat ustate) (next : nat) (l : list nat) : Prop := {
  no_heap p : is_Some (h !! p) → (p < next)%nat;
  no_alive : Forall (λ p, is_Some (h !! p)) l;
  no_sorted : StronglySorted (λ p q, nID (rec_of h p) < nID (rec_of h q)) l;
  no_nonzero : Forall (λ p, nID (rec_of h p) ≠ 0) l;
  no_names : NoDup ((λ p, GetName (rec_of h p)) <$> l);
  no_valid : Forall (λ p, name_ok (rec_of h p)) l
}.

(** The invariant depends on the IDs and the names of the networks. *)
Lemma nets_ok_ids h h' next next' l :
  nets_ok h next l → (∀ p, is_Some (h' !! p) → (p < next')%nat) →
  (∀ p, p ∈ l → is_Some (h' !! p) ∧ nID (rec_of h' p) = nID (rec_of h p) ∧ GetName (rec_of h' p) = GetName (rec_of h p)) →
  nets_ok h' next' l.
Proof.
  intros [H1 H2 H3 H4 H5 H6] Hlt Heq. split; [done|..].
  - apply Forall_forall. intros p Hp. by apply Heq.
  - clear -H3 Heq. induction H3 as [|p l H3 IH Hall]; constructor.
    + apply IH. intros q Hq. apply Heq. by right.
    + rewrite Forall_forall in *. intros q Hq.
      rewrite (proj1 (proj2 (Heq p ltac:(by left)))), (proj1 (proj2 (Heq q ltac:(by right)))). by apply Hall.
  - rewrite Forall_forall in *. intros p Hp. rewrite (proj1 (proj2 (Heq p Hp))). by apply H4.
  - assert ((λ p, GetName (rec_of h' p)) <$> l = (λ p, GetName (rec_of h p)) <$> l) as ->; [|done].
    apply list_fmap_ext. intros i p Hp. apply Heq. by eapply list_elem_of_lookup_2.
  - rewrite Forall_forall in *. intros p Hp. unfold name_ok. rewrite (proj2 (proj2 (Heq p Hp))). by apply H6.
Qed.

Lemma nets_ok_heap h h' next next' l :
  nets_ok h next l → (∀ p, is_Some (h' !! p) → (p < next')%nat) →
  (∀ p, p ∈ l → is_Some (h' !! p) ∧ rec_of h' p = rec_of h p) → nets_ok h' next' l.
Proof.
  intros Hok Hlt Heq. apply (nets_ok_ids h h' next next'); [done|done|]. intros p Hp.
  destruct (Heq p Hp) as [Ha ->]. done.
Qed.

#[global] Instance by_id_total h : Total (by_id h).
Proof. intros p q. unfold by_id. lia. Qed.
#[global] Instance by_id_trans h : Transitive (by_id h).
Proof. intros p q r. unfold by_id. lia. Qed.

Lemma nets_ok_nodup h next l : nets_ok h next l → NoDup ((λ p, nID (rec_of h p)) <$> l).
Proof.
  intros [_ _ H3 _ _ _]. induction H3 as [|p l H3 IH Hall]; [constructor|]. cbn. apply NoDup_cons. split; [|done].
  intros (q & Hq & Hin)%list_elem_of_fmap. rewrite Forall_forall in Hall. specialize (Hall q Hin). lia.
Qed.

(** Sorted and without equal IDs: strictly sorted. *)
Lemma strictly_sorted h l :
  StronglySorted (by_id h) l → NoDup ((λ p, nID (rec_of h p)) <$> l) →
  StronglySorted (λ p q, nID (rec_of h p) < nID (rec_of h q)) l.
Proof.
  intros Hs. induction Hs as [|p l Hs IH Hall]; cbn; [constructor|]. intros [Hp Hnd]%NoDup_cons. constructor; [by apply IH|].
  rewrite Forall_forall in *. intros q Hq. specialize (Hall q Hq). unfold by_id in Hall.
  destruct (decide (nID (rec_of h p) = nID (rec_of h q))) as [He|He]; [|lia].
  destruct Hp. apply list_elem_of_fmap. by exists q.
Qed.

Lemma nets_ok_add h next l p :
  nets_ok h next l → is_Some (h !! p) → nID (rec_of h p) ≠ 0 → name_ok (rec_of h p) →
  (∀ q, q ∈ l → nID (rec_of h q) ≠ nID (rec_of h p) ∧ GetName (rec_of h q) ≠ GetName (rec_of h p)) →
  nets_ok h next (merge_sort (by_id h) (l ++ [p])).
Proof.
  intros Hok Ha Hz Hv Hnew. pose proof (nets_ok_nodup _ _ _ Hok) as Hnd. destruct Hok as [H1 H2 H3 H4 H5 H6].
  pose proof (merge_sort_Permutation (by_id h) (l ++ [p])) as Hperm.
  split; [done|..]; rewrite ?Hperm; rewrite ?Forall_app, ?Forall_singleton; try done.
  - apply strictly_sorted; [apply StronglySorted_merge_sort; apply _|]. rewrite Hperm, fmap_app. cbn.
    apply NoDup_app. split_and!; [done| |apply NoDup_singleton].
    intros x (q & -> & Hq)%list_elem_of_fmap Hx%list_elem_of_singleton. by destruct (Hnew q Hq).
  - rewrite fmap_app. cbn. apply NoDup_app. split_and!; [done| |apply NoDup_singleton].
    intros x (q & -> & Hq)%list_elem_of_fmap Hx%list_elem_of_singleton. by destruct (Hnew q Hq).
Qed.

Lemma remove_ptr_spec p l l' :
  remove_ptr p l = Some l' → ∃ l1 l2, l = l1 ++ p :: l2 ∧ l' = l1 ++ l2.
Proof.
  revert l'. induction l as [|q l IH]; intros l'; cbn; [done|]. case_decide as Hq.
  - intros [= <-]. exists [], l. by subst.
  - intros (l0 & Hr & ->)%fmap_Some. destruct (IH l0 Hr) as (l1 & l2 & -> & ->). by exists (q :: l1), l2.
Qed.
Lemma remove_ptr_in p l : p ∈ l → ∃ l', remove_ptr p l = Some l'.
Proof.
  induction l as [|q l IH]; intros Hin; [by inversion Hin|]. cbn. case_decide; [by eexists|].
  apply elem_of_cons in Hin as [->|Hin]; [done|]. destruct (IH Hin) as [l' ->]. by eexists.
Qed.

Lemma nets_ok_sublist h next l l' : l' `sublist_of` l → nets_ok h next l → nets_ok h next l'.
Proof.
  intros Hsub [H1 H2 H3 H4 H5 H6].
  assert (∀ P : nat → Prop, Forall P l → Forall P l') as Hall.
  { intros P HP. rewrite Forall_forall in *. intros p Hp. apply HP. by eapply elem_of_sublist. }
  split; [done|by apply Hall| |by apply Hall| |by apply Hall].
  - clear -Hsub H3. induction Hsub as [|p l1 l2 Hsub IH|p l1 l2 Hsub IH]; [done|..].
    + inversion H3 as [|? ? Hs Hf]; subst. constructor; [by apply IH|]. rewrite Forall_forall in *.
      intros q Hq. apply Hf. by eapply elem_of_sublist.
    + inversion H3; subst. by apply IH.
  - eapply sublist_NoDup; [exact H5|]. by apply fmap_sublist.
Qed.

(** ** The user *)

Record user_ok (s : userState) : Prop := {
  uo_nets : nets_ok (us_heap s) (us_next s) (us_networks s);
  uo_bound d p : d ∈ us_downstreams s → dn_closed d = false → dn_network d = Some p → p ∈ us_networks s
}.

Abbreviation ukeeps := (preserves user_ok).

(** What the invariant depends on. *)
Lemma user_ok_frame s s' :
  user_ok s → us_heap s' = us_heap s → us_next s' = us_next s → us_networks s' = us_networks s →
  us_downstreams s' = us_downstreams s → user_ok s'.
Proof. intros [H1 H2] E1 E2 E3 E4. split; rewrite ?E1, ?E2, ?E3, ?E4; eauto. Qed.

Lemma ukeep_uemit a : ukeeps (uemit a).
Proof. apply preserves_modify. intros s Hs. by eapply user_ok_frame. Qed.
#[export] Hint Resolve ukeep_uemit : pres.
Lemma ukeep_ucall {A} a (f : list uaction → A) : ukeeps (ucall a f).
Proof. unfold ucall. pres. Qed.
#[export] Hint Resolve ukeep_ucall : pres.
Lemma ukeep_notify id attrs : ukeeps (notifyBouncerNetworkState id attrs).
Proof. unfold notifyBouncerNetworkState. pres. Qed.
#[export] Hint Resolve ukeep_notify : pres.

(** A method that leaves the record of its network alone. *)
Definition keeps_record {A} (m : M A) : Prop := ∀ n, net_record (m n).1 = net_record n.

Lemma ukeep_on_network `{E : env} {A} p (m : env → M A) : (∀ E, keeps_record (m E)) → ukeeps (on_network p m).
Proof.
  intros Hm s [H1 H2]. unfold on_network. destruct (us_heap s !! p) as [n|] eqn:Hp; [|done].
  specialize (Hm (env_at s p) n). destruct (m (env_at s p) n) as [n' r]. cbn in *. split; [|done]. cbn.
  eapply nets_ok_heap; [exact H1|..].
  - intros q Hq. apply (no_heap _ _ _ H1). destruct (decide (p = q)) as [<-|Hne]; [by eexists|].
    by rewrite lookup_insert_ne in Hq.
  - intros q Hq. pose proof (no_alive _ _ _ H1) as Ha. rewrite Forall_forall in Ha. specialize (Ha q Hq).
    unfold rec_of. destruct (decide (p = q)) as [<-|Hne].
    + rewrite lookup_insert_eq, Hp. split; [by eexists|done].
    + by rewrite lookup_insert_ne.
Qed.

(** ** Operations *)

Section ops.
Context `{UE : uenv} `{E : env} `{UnicodeTables}.

(** The record as an invariant of the upstream monad. *)
Lemma keeps_record_of {A} (m : M A) : (∀ r, preserves (λ n, net_record n = r) m) → keeps_record m.
Proof. intros Hm n. by apply Hm. Qed.

Ltac rec_modify := apply preserves_modify; intros ? ?; cbn; assumption.
#[local] Hint Extern 3 (preserves _ (modify _)) => rec_modify : pres.

Lemma rec_emit r a : preserves (λ n, net_record n = r) (emit a).
Proof. rec_modify. Qed.
#[local] Hint Resolve rec_emit : pres.
Lemma rec_send_dc r dc c : preserves (λ n, net_record n = r) (send_dc dc c).
Proof. unfold send_dc. pres. Qed.
#[local] Hint Resolve rec_send_dc : pres.
Lemma rec_SendMessage r m : preserves (λ n, net_record n = r) (SendMessage_uc m).
Proof. unfold SendMessage_uc. pres. Qed.
#[local] Hint Resolve rec_SendMessage : pres.
Lemma rec_abort `{E0 : env} r : preserves (λ n, net_record n = r) (abortPendingCommands (E:=E0)).
Proof. unfold abortPendingCommands, abort_reply. pres. Qed.
Lemma rec_stopRegain r : preserves (λ n, net_record n = r) stopRegainNickTimer.
Proof. unfold stopRegainNickTimer. pres. Qed.
#[local] Hint Resolve rec_abort rec_stopRegain : pres.
Lemma rec_disconnected `{E0 : env} r found : preserves (λ n, net_record n = r) (handleUpstreamDisconnected (E:=E0) found).
Proof. unfold handleUpstreamDisconnected, forEachDownstream. pres. Qed.
Lemma rec_updateCasemapping `{E0 : env} r cm : preserves (λ n, net_record n = r) (net_updateCasemapping (E:=E0) cm).
Proof. unfold net_updateCasemapping, forEachDownstream. pres. Qed.

Lemma checkNetwork_ok s r :
  checkNetwork s r = Ok tt →
  name_ok r ∧ ∀ p, p ∈ us_networks s → GetName (rec_at s p) = GetName r → nID (rec_at s p) = nID r.
Proof.
  unfold checkNetwork. destruct (Network_URL r); [|done]. intros (? & _ & Hr)%res_bind_ok. revert Hr.
  case_decide as Hn; [done|]. destruct (HasPrefix _ _) eqn:Hd; [done|].
  destruct (existsb _ _) eqn:Hex; [done|]. intros _. split; [done|]. intros p Hp Hname.
  apply existsb_elem_of_false with (x := p) in Hex; [|done]. apply bool_decide_eq_false in Hex.
  apply dec_stable. naive_solver.
Qed.

Lemma rec_of_insert_ne h p q n : q ≠ p → rec_of (<[p := n]> h) q = rec_of h q.
Proof. intros Hne. unfold rec_of. by rewrite lookup_insert_ne. Qed.
Lemma rec_of_insert_eq h p n : rec_of (<[p := n]> h) p = net_record n.
Proof. unfold rec_of. by rewrite lookup_insert_eq. Qed.

(** The heap with a new object, not in the list yet. *)
Lemma nets_ok_alloc h next l n : nets_ok h next l → nets_ok (<[next := n]> h) (S next) l ∧ next ∉ l.
Proof.
  intros Hok. assert (∀ p, p ∈ l → is_Some (h !! p) ∧ p ≠ next) as Hl.
  { intros p Hp. pose proof (no_alive _ _ _ Hok) as Ha. rewrite Forall_forall in Ha. specialize (Ha p Hp).
    split; [done|]. pose proof (no_heap _ _ _ Hok p Ha). lia. }
  split; [|intros Hin; by destruct (Hl _ Hin)]. eapply nets_ok_heap; [exact Hok|..].
  - intros p Hp. destruct (decide (p = next)) as [->|Hne]; [lia|]. rewrite lookup_insert_ne in Hp by done.
    pose proof (no_heap _ _ _ Hok p Hp). lia.
  - intros p Hp. destruct (Hl p Hp) as [Ha Hne]. rewrite lookup_insert_ne by done. split; [done|]. by apply rec_of_insert_ne.
Qed.

Lemma ucall_run {A} a (f : list uaction → A) s :
  ucall a f s = (set_us_trace (us_trace s ++ [a]) s, Ok (f (us_trace s))).
Proof. done. Qed.

(** The state after creating and adding an object. *)
Definition installed (n : ustate) (s : userState) : userState :=
  set_us_trace (us_trace s ++ [UStart (us_next s)])
    (set_us_networks (merge_sort (by_id (<[us_next s := n]> (us_heap s))) (us_networks s ++ [us_next s]))
      (set_us_next (S (us_next s)) (set_us_heap (<[us_next s := n]> (us_heap s)) s))).

Lemma install_run {B} n (k : nat → UM B) s :
  (p ← alloc n; addNetwork p ;; k p) s = k (us_next s) (installed n s).
Proof. done. Qed.

(** Creating and adding an object for a record that collides with none. *)
Lemma install_ok n s :
  let s' := installed n s in let p := us_next s in
  user_ok s → nID (net_record n) ≠ 0 → name_ok (net_record n) →
  (∀ q, q ∈ us_networks s → nID (rec_at s q) ≠ nID (net_record n) ∧ GetName (rec_at s q) ≠ GetName (net_record n)) →
  user_ok s' ∧ p ∈ us_networks s' ∧ rec_at s' p = net_record n ∧
  us_networks s' ≡ₚ us_networks s ++ [p] ∧ (∀ q, q ∈ us_networks s → rec_at s' q = rec_at s q) ∧ us_record s' = us_record s.
Proof.
  intros s' p [Hok Hb] Hz Hv Hnew. subst s' p.
  destruct (nets_ok_alloc _ _ _ n Hok) as [Hok1 Hnotin].
  pose proof (merge_sort_Permutation (by_id (<[us_next s := n]> (us_heap s))) (us_networks s ++ [us_next s])) as Hperm.
  assert (∀ q, q ∈ us_networks s → rec_of (<[us_next s := n]> (us_heap s)) q = rec_at s q) as Hsame.
  { intros q Hq. apply rec_of_insert_ne. by intros ->. }
  split_and!; cbn.
  - split; cbn.
    + apply nets_ok_add; [done|rewrite lookup_insert_eq; by eexists|by rewrite rec_of_insert_eq|by rewrite rec_of_insert_eq|].
      intros q Hq. rewrite rec_of_insert_eq, Hsame by done. by apply Hnew.
    + intros d q Hd Hc Hq. rewrite Hperm. apply elem_of_app. left. eauto.
  - rewrite Hperm. apply elem_of_app. right. by apply list_elem_of_singleton.
  - apply rec_of_insert_eq.
  - done.
  - done.
  - done.
Qed.

(** Sending notifications only extends the trace. *)
Lemma foreach_uemit {A} (f : A → UM unit) l s :
  (∀ x s, ∃ tr, f x s = (set_us_trace tr s, Ok tt)) → ∃ tr, foreach f l s = (set_us_trace tr s, Ok tt).
Proof.
  intros Hf. revert s. induction l as [|x l IH]; intros s; [exists (us_trace s); by destruct s|].
  cbn [foreach]. unfold mbind, M_bind. destruct (Hf x s) as [tr ->]. destruct (IH (set_us_trace tr s)) as [tr' ->].
  by exists tr'.
Qed.

Lemma notify_run id attrs s : ∃ tr, notifyBouncerNetworkState id attrs s = (set_us_trace tr s, Ok tt).
Proof.
  unfold notifyBouncerNetworkState, mbind, M_bind, gets, Datatypes.id. destruct (existsb _ _).
  - apply foreach_uemit. intros d s'. destruct (dn_notify d); [by eexists|exists (us_trace s'); by destruct s'].
  - exists (us_trace s). by destruct s.
Qed.

Lemma user_ok_trace tr s : user_ok s → user_ok (set_us_trace tr s).
Proof. intros Hs. by eapply user_ok_frame. Qed.

(** The networks and their records are those of [s]. *)
Definition same_nets (s s' : userState) : Prop :=
  us_networks s' = us_networks s ∧ us_record s' = us_record s ∧
  ∀ q, q ∈ us_networks s → rec_at s' q = rec_at s q.

Lemma filter_enabled_same s s' (l : list nat) :
  (∀ q, q ∈ l → rec_at s' q = rec_at s q) →
  filter (λ p, nEnabled (rec_at s' p) = true) l = filter (λ p, nEnabled (rec_at s p) = true) l.
Proof.
  induction l as [|q l IH]; intros Hq; [done|]. rewrite !filter_cons, (Hq q) by (by left).
  rewrite IH by (intros; apply Hq; by right). done.
Qed.

Lemma enabled_same s s' : same_nets s s' → enabled_networks s' = enabled_networks s.
Proof.
  intros (E1 & _ & E3). unfold enabled_networks. rewrite E1. by rewrite (filter_enabled_same s s').
Qed.

Context (store_fresh : ∀ tr ids uid r id, nID r = 0 → ue_StoreNetwork tr ids uid r = inl id → id ≠ 0 ∧ id ∉ ids).

Definition enabled_count (b : bool) : Z := if b then 1 else 0.

Lemma enabled_perm s s' p :
  us_networks s' ≡ₚ us_networks s ++ [p] → (∀ q, q ∈ us_networks s → rec_at s' q = rec_at s q) →
  enabled_networks s' = enabled_networks s + enabled_count (nEnabled (rec_at s' p)).
Proof.
  intros Hperm Hsame. unfold enabled_networks. rewrite Hperm, filter_app, length_app.
  assert (same_nets s (set_us_networks (us_networks s) (set_us_record (us_record s) s'))) as Hs by by split_and!.
  pose proof (enabled_same _ _ Hs) as He. unfold enabled_networks in He. cbn in He.
  change (rec_at (set_us_networks _ _)) with (rec_at s') in He.
  rewrite Nat2Z.inj_add. f_equal; [exact He|]. rewrite filter_cons, filter_nil.
  by destruct (nEnabled (rec_at s' p)); cbn.
Qed.

Lemma check_limit_run enf r s :
  ∃ o, check_limit enf r s = (s, o) ∧ (o = Ok tt → enf && nEnabled r = true → canEnableNewNetwork s = Ok tt).
Proof.
  unfold check_limit. rewrite bind_gets. change (Datatypes.id s) with s.
  destruct (enf && nEnabled r); [by eexists|by exists (Ok tt)].
Qed.

Lemma create_spec r enf s :
  user_ok s →
  match createNetwork r enf s with
  | (s', Ok p) => user_ok s' ∧ p ∈ us_networks s' ∧ us_record s' = us_record s ∧
      enabled_networks s' = enabled_networks s + enabled_count (nEnabled r) ∧
      (enf && nEnabled r = true → canEnableNewNetwork s = Ok tt)
  | (s', _) => user_ok s' ∧ same_nets s s'
  end.
Proof.
  intros Hs. unfold createNetwork. case_decide as Hid; [by split|].
  unfold mbind at 1, M_bind at 1. destruct (check_limit_run enf r s) as (o & -> & Ho).
  destruct o as [[]|e|w]; [|by split..]. specialize (Ho eq_refl).
  unfold mbind at 1, M_bind at 1, gets at 1, Datatypes.id. unfold mbind at 1, M_bind at 1, lift at 1.
  destruct (checkNetwork s r) as [[]|e|w] eqn:Hcheck; [|by split..].
  apply checkNetwork_ok in Hcheck as [Hname Huniq].
  unfold mbind at 1, M_bind at 1. rewrite ucall_run.
  destruct (ue_StoreNetwork _ _ _ r) as [newID|e] eqn:Hstore; [|by split; [apply user_ok_trace|]].
  destruct (store_fresh _ _ _ _ _ Hid Hstore) as [Hz Hfresh].
  set (s1 := set_us_trace _ s). set (n := newConnection (set_nID newID r) []). rewrite install_run.
  destruct (install_ok n s1) as (H1 & H2 & H3 & H4 & H5 & H6).
  { by apply user_ok_trace. } { done. } { done. }
  { intros q Hq. split.
    - intros Heq. apply Hfresh. apply list_elem_of_fmap. by exists q.
    - intros Hn. pose proof (no_nonzero _ _ _ (uo_nets _ Hs)) as Hnz. rewrite Forall_forall in Hnz.
      apply (Hnz q Hq). rewrite <-Hid. by apply Huniq. }
  unfold mbind at 1, M_bind at 1, gets at 1, Datatypes.id. unfold mbind at 1, M_bind at 1.
  match goal with |- context [notifyBouncerNetworkState ?i ?a ?st] => destruct (notify_run i a st) as [tr ->] end.
  cbn [mret M_ret]. split_and!; [by apply user_ok_trace|done|done| |done].
  transitivity (enabled_networks (installed n s1)); [done|].
  rewrite (enabled_perm s1 (installed n s1) (us_next s1)) by done. rewrite H3. done.
Qed.

(** ** Replacing an object *)

(** The new object [q] for [record] exists beside the networks of [s]. *)
Record staged (s : userState) (q : nat) (record : dbNetwork) (s' : userState) : Prop := {
  sg_ok : user_ok s';
  sg_same : same_nets s s';
  sg_downstreams : us_downstreams s' = us_downstreams s;
  sg_new : q ∉ us_networks s';
  sg_record : ∃ n, us_heap s' !! q = Some n ∧ net_record n = record
}.

Lemma staged_alloc s n :
  user_ok s → staged s (us_next s) (net_record n) (set_us_next (S (us_next s)) (set_us_heap (<[us_next s := n]> (us_heap s)) s)).
Proof.
  intros [Hok Hb]. destruct (nets_ok_alloc _ _ _ n Hok) as [Hok1 Hnotin]. split; try done.
  - split_and!; try done. intros q Hq. apply rec_of_insert_ne. by intros ->.
  - exists n. split; [apply lookup_insert_eq|done].
Qed.

Lemma staged_uemit s q r a : preserves (staged s q r) (uemit a).
Proof.
  apply preserves_modify. intros s' [H1 H2 H3 H4 H5]. split; try done. by apply user_ok_trace.
Qed.

Lemma staged_on_network {A} s q r p (m : env → M A) :
  p ∈ us_networks s → (∀ E, keeps_record (m E)) → preserves (staged s q r) (on_network p m).
Proof.
  intros Hp Hm s' [H1 (E1 & E2 & E3) H3 H4 (n & Hn & Hr)].
  assert (q ≠ p) as Hne by (intros ->; by rewrite E1 in H4).
  pose proof (ukeep_on_network p m Hm s' H1) as H1'. revert H1'. unfold on_network.
  destruct (us_heap s' !! p) as [np|] eqn:Hnp; [|intros _; split; try done; by exists n].
  specialize (Hm (env_at s' p) np). destruct (m (env_at s' p) np) as [np' o]. cbn in Hm |- *. intros H1'. split; try done.
  - split_and!; try done. intros x Hx. rewrite <-E3 by done. unfold rec_at. cbn.
    destruct (decide (x = p)) as [->|Hx'].
    + rewrite rec_of_insert_eq. unfold rec_of. by rewrite Hnp.
    + by apply rec_of_insert_ne.
  - exists n. cbn. by rewrite lookup_insert_ne.
Qed.

Lemma fmap_rebind_close p q (l : list downConn) :
  q ≠ p → (λ d, if decide (dn_network d = Some p) then close_dn d else d) <$>
    ((λ d, if decide (dn_network d = Some p) then set_dn_network (Some q) d else d) <$> l) =
    (λ d, if decide (dn_network d = Some p) then set_dn_network (Some q) d else d) <$> l.
Proof.
  intros Hne. rewrite <-list_fmap_compose. apply list_fmap_ext. intros i d _. cbn.
  destruct (decide (dn_network d = Some p)) as [Hd|Hd]; cbn; [|by rewrite decide_False].
  rewrite decide_False; [done|]. congruence.
Qed.

Lemma updateCasemapping_run (E0 : env) cm n :
  ∃ n', net_updateCasemapping (E:=E0) cm n = (n', Ok tt) ∧ net_record n' = net_record n.
Proof.
  pose proof (rec_updateCasemapping (E0:=E0) (net_record n) cm n eq_refl) as Hrec.
  assert (∀ A (f : A → M unit) l n, (∀ x n, (f x n).2 = Ok tt) → (foreach f l n).2 = Ok tt) as Hf.
  { intros A f l. induction l as [|x l IH]; intros n0 Hx; [done|]. cbn [foreach]. unfold mbind, M_bind.
    specialize (Hx x n0) as Hx0. destruct (f x n0) as [n1 o]. cbn in Hx0. subst o. by apply IH. }
  destruct (net_updateCasemapping (E:=E0) cm n) as [n' o] eqn:Hrun. cbn in Hrec. exists n'. split; [|done]. f_equal.
  assert ((net_updateCasemapping (E:=E0) cm n).2 = Ok tt) as Ho; [|by rewrite Hrun in Ho].
  unfold net_updateCasemapping, mbind at 1, M_bind at 1, modify at 1. unfold mbind at 1, M_bind at 1, gets at 1.
  unfold mbind at 1, M_bind at 1. unfold when. destruct (net_connected _); cbn [modify skip mret M_ret]; by apply Hf.
Qed.

(** The connections after those bound to [p] are closed. *)
Definition closed_of (p : nat) (l : list downConn) : list downConn :=
  (λ d, if decide (dn_network d = Some p) then close_dn d else d) <$> l.

Lemma remove_run_closed p l1 l2 s :
  us_networks s = l1 ++ p :: l2 → p ∉ l1 →
  removeNetwork p s =
    (set_us_networks (l1 ++ l2) (set_us_downstreams (closed_of p (us_downstreams s)) (set_us_trace (us_trace s ++ [UStop p]) s)), Ok tt).
Proof.
  intros Hl Hp. unfold removeNetwork, mbind, M_bind, uemit, modify, gets, Datatypes.id. cbn [us_networks set_us_trace set_us_downstreams us_downstreams].
  assert (remove_ptr p (us_networks s) = Some (l1 ++ l2)) as ->; [|done].
  rewrite Hl. clear Hl. induction l1 as [|x l1 IH]; cbn; [by rewrite decide_True|].
  apply not_elem_of_cons in Hp as [Hx Hp]. rewrite decide_False by done. by rewrite IH.
Qed.

Lemma remove_run p l1 l2 s :
  us_networks s = l1 ++ p :: l2 → p ∉ l1 →
  (∀ d, d ∈ us_downstreams s → dn_network d ≠ Some p) →
  removeNetwork p s = (set_us_networks (l1 ++ l2) (set_us_trace (us_trace s ++ [UStop p]) s), Ok tt).
Proof.
  intros Hl Hp Hd. rewrite (remove_run_closed p l1 l2) by done. f_equal.
  assert (closed_of p (us_downstreams s) = us_downstreams s) as Hds.
  { clear -Hd. induction (us_downstreams s) as [|d l IH]; [done|]. cbn. rewrite decide_False by (apply Hd; by left).
    f_equal. apply IH. intros d' Hd'. apply Hd. by right. }
  destruct s. cbn in *. by rewrite Hds.
Qed.

Lemma enabled_remove s p l1 l2 :
  us_networks s = l1 ++ p :: l2 →
  enabled_networks s = Z.of_nat (length (filter (λ q, nEnabled (rec_at s q) = true) (l1 ++ l2)))
    + enabled_count (nEnabled (rec_at s p)).
Proof.
  intros Hl. unfold enabled_networks. rewrite Hl, !filter_app, filter_cons, !length_app.
  destruct (decide (nEnabled (rec_at s p) = true)) as [He|He].
  - rewrite He. cbn. lia.
  - apply not_true_is_false in He. rewrite He. cbn. lia.
Qed.

(** Adding an object of the heap whose record collides with none. *)
Lemma add_ok s q :
  nets_ok (us_heap s) (us_next s) (us_networks s) → is_Some (us_heap s !! q) →
  nID (rec_at s q) ≠ 0 → name_ok (rec_at s q) →
  (∀ x, x ∈ us_networks s → nID (rec_at s x) ≠ nID (rec_at s q) ∧ GetName (rec_at s x) ≠ GetName (rec_at s q)) →
  (∀ d x, d ∈ us_downstreams s → dn_closed d = false → dn_network d = Some x → x ∈ us_networks s ∨ x = q) →
  ∃ s', addNetwork q s = (s', Ok tt) ∧ user_ok s' ∧ us_networks s' ≡ₚ us_networks s ++ [q] ∧
  us_record s' = us_record s ∧ (∀ x, rec_at s' x = rec_at s x).
Proof.
  intros Hok Ha Hz Hv Hnew Hb. pose proof (merge_sort_Permutation (by_id (us_heap s)) (us_networks s ++ [q])) as Hperm.
  eexists. split; [done|]. cbn. split_and!; try done.
  split; cbn; [by apply nets_ok_add|]. intros d x Hd Hc Hx. rewrite Hperm.
  apply elem_of_app. destruct (Hb d x Hd Hc Hx) as [Hin| ->]; [by left|right; by apply list_elem_of_singleton].
Qed.

(** A network taken out of the list is not in the rest, and neither is another one with its ID. *)
Lemma nets_ok_split h next l1 p l2 :
  nets_ok h next (l1 ++ p :: l2) →
  nets_ok h next (l1 ++ l2) ∧ p ∉ l1 ++ l2 ∧ (∀ x, x ∈ l1 ++ l2 → nID (rec_of h x) ≠ nID (rec_of h p)).
Proof.
  intros Hok. assert (∀ x, x ∈ l1 ++ l2 → nID (rec_of h x) ≠ nID (rec_of h p)) as Hids.
  { pose proof (nets_ok_nodup _ _ _ Hok) as Hnd. rewrite fmap_app, fmap_cons in Hnd.
    apply NoDup_app in Hnd as (_ & Hd1 & [Hd2 _]%NoDup_cons). intros x Hx He.
    apply elem_of_app in Hx as [Hx|Hx].
    - apply (Hd1 (nID (rec_of h p))); [apply list_elem_of_fmap; by exists x|by left].
    - apply Hd2. apply list_elem_of_fmap. by exists x. }
  split_and!; [|by intros Hp%Hids|done].
  eapply nets_ok_sublist; [|exact Hok]. apply sublist_app; [done|]. by apply sublist_cons.
Qed.

(** The networks after [q] has taken the place of [p]. *)
Definition in_place (s : userState) (p q : nat) (record : dbNetwork) (s' : userState) : Prop :=
  q ∈ us_networks s' ∧ rec_at s' q = record ∧
  ∀ x, x ∈ us_networks s' → x ≠ q → x ∈ us_networks s ∧ rec_at s' x = rec_at s x.

(** The object [q] for [record] takes the place of [p]. *)
Lemma readd_ok s s' p q record l1 l2 :
  user_ok s → us_networks s = l1 ++ p :: l2 → nID record = nID (rec_at s p) → name_ok record →
  (∀ x, x ∈ us_networks s → GetName (rec_at s x) = GetName record → nID (rec_at s x) = nID record) →
  us_networks s' = l1 ++ l2 → us_record s' = us_record s → nets_ok (us_heap s') (us_next s') (l1 ++ l2) →
  (∀ x, x ∈ l1 ++ l2 → rec_at s' x = rec_at s x) → is_Some (us_heap s' !! q) → rec_at s' q = record →
  (∀ d x, d ∈ us_downstreams s' → dn_closed d = false → dn_network d = Some x → x ∈ l1 ++ l2 ∨ x = q) →
  ∃ s2, (addNetwork q ;; mret q) s' = (s2, Ok q) ∧
    user_ok s2 ∧ in_place s p q record s2 ∧ us_record s2 = us_record s ∧
    enabled_networks s2 = enabled_networks s - enabled_count (nEnabled (rec_at s p)) + enabled_count (nEnabled record).
Proof.
  intros Hs Hl Hid Hname Huniq Hl' Hr Hnets Hsame Ha Hq Hb.
  pose proof (uo_nets _ Hs) as Hold. rewrite Hl in Hold. destruct (nets_ok_split _ _ _ _ _ Hold) as (_ & _ & Hids).
  assert (∀ x, x ∈ l1 ++ l2 → x ∈ us_networks s) as Hsub by (rewrite Hl; set_solver).
  destruct (add_ok s' q) as (s2 & Hrun & Hok & Hperm & Hr2 & Hrec2); rewrite ?Hl', ?Hq; try done.
  { pose proof (no_nonzero _ _ _ Hold) as Hnz. rewrite Forall_forall in Hnz. rewrite Hid. apply Hnz. set_solver. }
  { intros x Hx. rewrite Hsame by done. split; [rewrite Hid; by apply Hids|].
    intros Hn. apply (Hids x Hx). change (nID (rec_at s x) = nID (rec_at s p)). rewrite <-Hid. apply Huniq; auto. }
  exists s2. unfold mbind, M_bind. rewrite Hrun. split; [done|]. split_and!; [done|split_and!|congruence|].
  { rewrite Hperm. set_solver. } { by rewrite Hrec2. }
  { intros x. rewrite Hperm, Hl'. intros [Hx|Hx%list_elem_of_singleton]%elem_of_app ?; [|done].
    rewrite Hrec2. auto. }
  rewrite (enabled_perm s' _ q Hperm) by (intros; by apply Hrec2). rewrite Hrec2, Hq. f_equal.
  rewrite (enabled_remove s p l1 l2 Hl). unfold enabled_networks. rewrite Hl'.
  rewrite (filter_enabled_same s s') by done. lia.
Qed.

(** From a staged object to the new list. *)
Lemma replace_finish s s2 p q record :
  user_ok s → staged s q record s2 → p ∈ us_networks s → nID record = nID (rec_at s p) → name_ok record →
  (∀ x, x ∈ us_networks s → GetName (rec_at s x) = GetName record → nID (rec_at s x) = nID record) →
  ∃ s', (rebind p q ;; removeNetwork p ;;
         s ← gets id;
         let old := net_at s p in
         on_network q (λ E,
           modify (λ n, set_net_pushTargets (net_pushTargets old) (set_net_delivered (net_delivered old) n)) ;;
           when (nEnabled record) (modify (set_net_lastError (net_lastError old))) ;;
           net_updateCasemapping (E:=E) (net_casemap old)) ;;
         when (ue_renameStore && negb (bool_decide (GetName record = GetName (net_record old))))
           (uemit (URename (net_record old) record)) ;;
         addNetwork q ;;
         mret q) s2 = (s', Ok q) ∧
    user_ok s' ∧ in_place s p q record s' ∧ us_record s' = us_record s ∧
    enabled_networks s' = enabled_networks s - enabled_count (nEnabled (rec_at s p)) + enabled_count (nEnabled record).
Proof.
  intros Hs [Hok2 (E1 & E2 & E3) Hds Hq (n & Hn & Hrec)] Hp Hid Hname Huniq.
  assert (q ≠ p) as Hne by (intros ->; by rewrite E1 in Hq).
  pose proof Hp as Hpin. apply list_elem_of_split in Hp as (l1 & l2 & Hl). pose proof Hl as Hl2. rewrite <-E1 in Hl2.
  pose proof (uo_nets _ Hok2) as Hnets. rewrite Hl2 in Hnets. apply nets_ok_split in Hnets as (Hnets & Hpl & Hids).
  unfold mbind at 1, M_bind at 1, rebind, modify at 1. set (ds := _ <$> us_downstreams s2). set (s3 := set_us_downstreams ds s2).
  unfold mbind at 1, M_bind at 1. rewrite (remove_run p l1 l2 s3); [|done|set_solver|].
  2: { subst s3 ds. cbn. intros d (d0 & -> & _)%list_elem_of_fmap. case_decide; cbn; congruence. }
  set (s4 := set_us_networks _ _). unfold mbind at 1, M_bind at 1, gets at 1, Datatypes.id. cbn zeta.
  set (old := net_at s4 p). unfold mbind at 1, M_bind at 1, on_network. change (us_heap s4 !! q) with (us_heap s2 !! q).
  rewrite Hn. unfold mbind at 1, M_bind at 1, modify at 1. set (n1 := set_net_pushTargets _ _).
  assert (∃ n2, when (nEnabled record) (modify (set_net_lastError (net_lastError old))) n1 = (n2, Ok tt) ∧
    net_record n2 = record) as (n2 & En2 & Hn2) by (destruct (nEnabled record); by eexists).
  unfold mbind at 1, M_bind at 1. rewrite En2.
  destruct (updateCasemapping_run (env_at s4 q) (net_casemap old) n2) as (n3 & -> & Hn3).
  set (s5 := set_us_trace _ (set_us_heap _ s4)).
  assert (∃ tr, when (ue_renameStore && negb (bool_decide (GetName record = GetName (net_record old))))
    (uemit (URename (net_record old) record)) s5 = (set_us_trace tr s5, Ok tt)) as (tr & Etr)
    by (destruct (_ && _); [by eexists|exists (us_trace s5); by destruct s5]).
  unfold mbind at 1, M_bind at 1. rewrite Etr. clear Etr.
  assert (∀ x, x ∈ l1 ++ l2 → x ≠ q) as Hxq by (intros x Hx ->; apply Hq; rewrite Hl2; set_solver).
  assert (∀ x, x ∈ l1 ++ l2 → rec_of (<[q := n3]> (us_heap s2)) x = rec_of (us_heap s2) x) as Hsame
    by (intros x Hx; apply rec_of_insert_ne; auto).
  eapply (readd_ok s _ p q record l1 l2); try done.
  - cbn. eapply nets_ok_heap; [exact Hnets| |].
    + intros x Hx. apply (no_heap _ _ _ Hnets). destruct (decide (x = q)) as [->|Hx']; [by rewrite Hn|].
      by rewrite lookup_insert_ne in Hx.
    + intros x Hx. pose proof (no_alive _ _ _ Hnets) as Ha. rewrite Forall_forall in Ha.
      rewrite lookup_insert_ne by (symmetry; auto). split; [by apply Ha|by apply Hsame].
  - intros x Hx. unfold rec_at. cbn. rewrite Hsame by done. apply E3. rewrite Hl. set_solver.
  - cbn. rewrite lookup_insert_eq. by eexists.
  - unfold rec_at. cbn. rewrite rec_of_insert_eq. congruence.
  - cbn. intros d x (d0 & -> & Hd0)%list_elem_of_fmap. destruct (decide (dn_network d0 = Some p)) as [Hp0|Hp0].
    + cbn. intros _ [= <-]. by right.
    + intros Hc Hx. left. pose proof (uo_bound _ Hok2 d0 x Hd0 Hc Hx) as Hin. rewrite Hl2 in Hin. set_solver.
Qed.

(** What an operation that puts an object for [record] in the place of [p] does. *)
Definition replaced (s : userState) (p : nat) (record : dbNetwork) (x : userState * res goerr nat) : Prop :=
  match x with
  | (s', Ok q) => user_ok s' ∧ in_place s p q record s' ∧ us_record s' = us_record s ∧
      enabled_networks s' = enabled_networks s - enabled_count (nEnabled (rec_at s p)) + enabled_count (nEnabled record)
  | (s', _) => user_ok s' ∧ same_nets s s'
  end.

Lemma replace_spec s p record :
  user_ok s → p ∈ us_networks s → nID record = nID (rec_at s p) → name_ok record →
  (∀ x, x ∈ us_networks s → GetName (rec_at s x) = GetName record → nID (rec_at s x) = nID record) →
  replaced s p record (replaceNetwork p record s).
Proof.
  intros Hs Hp Hid Hname Huniq. unfold replaceNetwork. rewrite bind_gets. change (Datatypes.id s) with s.
  set (n := newConnection record _). pose proof (staged_alloc s n Hs) as Hst.
  set (s1 := set_us_next _ _) in Hst. rewrite (bind_run (alloc n) _ s s1 (us_next s)) by done.
  pose proof (staged_uemit s (us_next s) record (UStop p) s1 Hst) as Hst2.
  rewrite (bind_run (uemit (UStop p)) _ s1 (uemit (UStop p) s1).1 tt) by done.
  set (s2 := (uemit (UStop p) s1).1) in *.
  assert (preserves (staged s (us_next s) record)
    (when (net_connected (net_at s p)) (on_network p (λ E, handleUpstreamDisconnected (E:=E) true)))) as Hpres.
  { destruct (net_connected _); [|apply preserves_skip]. apply staged_on_network; [done|].
    intros E'. apply keeps_record_of. intros r. apply rec_disconnected. }
  specialize (Hpres s2 Hst2). unfold mbind at 1, M_bind at 1.
  destruct (when _ _ s2) as [s3 [[]|e|w]]; cbn in Hpres; [|by destruct Hpres..].
  destruct (replace_finish s s3 p (us_next s) record) as (s' & Hrun & Hres); try done.
  cbv zeta in Hrun. rewrite Hrun. exact Hres.
Qed.

Lemma wipe_same u r :
  let r' := wipe_defaults u r in nID r' = nID r ∧ GetName r' = GetName r ∧ nEnabled r' = nEnabled r.
Proof. unfold wipe_defaults. repeat case_decide; done. Qed.

Lemma getNetworkByID_spec s id p :
  getNetworkByID s id = Some p → p ∈ us_networks s ∧ nID (rec_at s p) = id.
Proof.
  intros Hf%find_some. destruct Hf as [Hin Hid]. split; [by apply list_elem_of_In|]. by apply bool_decide_eq_true in Hid.
Qed.

Lemma update_spec r enf s :
  user_ok s →
  match updateNetwork r enf s with
  | (s', Ok q) => ∃ p, p ∈ us_networks s ∧ nID (rec_at s p) = nID r ∧
      replaced s p (wipe_defaults (us_record s) r) (s', Ok q) ∧
      (enf && nEnabled r = true → canEnableNewNetwork s = Ok tt)
  | (s', _) => user_ok s' ∧ same_nets s s'
  end.
Proof.
  intros Hs. unfold updateNetwork. case_decide as Hid; [by split|].
  unfold mbind at 1, M_bind at 1. destruct (check_limit_run enf r s) as (o & -> & Ho).
  destruct o as [[]|e|w]; [|by split..]. specialize (Ho eq_refl).
  rewrite bind_gets. change (Datatypes.id s) with s. cbn zeta.
  set (r' := wipe_defaults (us_record s) r). destruct (wipe_same (us_record s) r) as (Wid & Wn & We). fold r' in Wid, Wn, We.
  unfold mbind at 1, M_bind at 1, lift at 1.
  destruct (checkNetwork s r') as [[]|e|w] eqn:Hcheck; [|by split..].
  apply checkNetwork_ok in Hcheck as [Hname Huniq].
  destruct (getNetworkByID s (nID r')) as [p|] eqn:Hget; [|by split]. apply getNetworkByID_spec in Hget as [Hp Hpid].
  unfold mbind at 1, M_bind at 1. rewrite ucall_run. set (s1 := set_us_trace _ s).
  assert (user_ok s1) as Hs1 by by apply user_ok_trace.
  destruct (ue_StoreNetwork _ _ _ r') as [i|e]; [|by split].
  pose proof (replace_spec s1 p r' Hs1 Hp (eq_sym Hpid) Hname Huniq) as Hrep. unfold mbind at 1, M_bind at 1.
  destruct (replaceNetwork p r' s1) as [s2 [q|e|w]]; [|exact Hrep..].
  rewrite bind_gets. unfold mbind at 1, M_bind at 1.
  match goal with |- context [notifyBouncerNetworkState ?i ?a ?st] => destruct (notify_run i a st) as [tr ->] end.
  exists p. split_and!; [done|congruence| |done]. destruct Hrep as (Hr1 & Hr2 & Hr3 & Hr4).
  split; [by apply user_ok_trace|]. by split_and!.
Qed.

Lemma ukeep_updateNetwork r enf : ukeeps (updateNetwork r enf).
Proof.
  intros s Hs. pose proof (update_spec r enf s Hs) as Hu. destruct (updateNetwork r enf s) as [s' [q|e|w]].
  - destruct Hu as (p & _ & _ & Hr & _). apply Hr.
  - apply Hu.
  - apply Hu.
Qed.
Lemma ukeep_createNetwork r enf : ukeeps (createNetwork r enf).
Proof.
  intros s Hs. pose proof (create_spec r enf s Hs) as Hu. destruct (createNetwork r enf s) as [s' [q|e|w]]; apply Hu.
Qed.

(** Without a network of the list: the connections bound to it are closed. *)
Lemma user_ok_remove s l1 p l2 s' :
  user_ok s → us_networks s = l1 ++ p :: l2 → us_heap s' = us_heap s → us_next s' = us_next s →
  us_networks s' = l1 ++ l2 → us_downstreams s' = closed_of p (us_downstreams s) → user_ok s'.
Proof.
  intros Hs Hl E1 E2 E3 E4. pose proof (uo_nets _ Hs) as Hok. rewrite Hl in Hok.
  apply nets_ok_split in Hok as (Hok & _). split; rewrite ?E1, ?E2, ?E3, ?E4; [done|].
  intros d x (d0 & -> & Hd0)%list_elem_of_fmap. case_decide as Hp; [done|].
  intros Hc Hx. pose proof (uo_bound _ Hs d0 x Hd0 Hc Hx) as Hin. rewrite Hl in Hin. set_solver.
Qed.

Lemma delete_spec id s :
  user_ok s →
  match deleteNetwork id s with
  | (s', Ok _) => user_ok s' ∧ us_record s' = us_record s ∧ id ∉ stored_ids s' ∧ enabled_networks s' ≤ enabled_networks s
  | (s', _) => user_ok s' ∧ same_nets s s'
  end.
Proof.
  intros Hs. unfold deleteNetwork. rewrite bind_gets.
  destruct (getNetworkByID s id) as [p|] eqn:Hget; [|by split]. apply getNetworkByID_spec in Hget as [Hp Hpid].
  unfold mbind at 1, M_bind at 1. rewrite ucall_run. set (s1 := set_us_trace _ s).
  destruct (ue_DeleteNetwork _ id); [by split; [apply user_ok_trace|]|].
  apply list_elem_of_split in Hp as (l1 & l2 & Hl).
  pose proof (uo_nets _ Hs) as Hok. rewrite Hl in Hok. apply nets_ok_split in Hok as (_ & Hpl & Hids).
  erewrite bind_run by (apply (remove_run_closed p l1 l2 s1); [done|set_solver]). set (s2 := set_us_networks _ _).
  rewrite bind_gets.
  destruct (foreach_uemit (λ d, when (dn_notify d) (uemit (UNetworkState (dn_id d) id None))) (us_downstreams s2) s2) as [tr ->].
  { intros d s'. destruct (dn_notify d); [by eexists|exists (us_trace s'); by destruct s']. }
  split_and!; [by eapply user_ok_remove|done| |].
  - intros (x & Hx & Hin)%list_elem_of_fmap. apply (Hids x Hin).
    change (nID (rec_at s x) = nID (rec_at s p)). rewrite Hpid. exact (eq_sym Hx).
  - rewrite (enabled_remove s p l1 l2 Hl). unfold enabled_networks. cbn [us_networks set_us_trace s2 set_us_networks].
    change (rec_at _) with (rec_at s). unfold enabled_count. destruct (nEnabled _); lia.
Qed.

Lemma ukeep_deleteNetwork id : ukeeps (deleteNetwork id).
Proof.
  intros s Hs. pose proof (delete_spec id s Hs) as Hd. destruct (deleteNetwork id s) as [s' [[]|e|w]]; apply Hd.
Qed.

(** ** Changing the user *)

(** The user record is [u], [c] networks are enabled, and [en] says which, by ID. *)
Definition enabled_as (u : dbUser) (en : Z → bool) (c : Z) (s : userState) : Prop :=
  user_ok s ∧ us_record s = u ∧ enabled_networks s = c ∧
  ∀ p, p ∈ us_networks s → nEnabled (rec_at s p) = en (nID (rec_at s p)).

Lemma enabled_as_same u en c s s' : enabled_as u en c s → user_ok s' → same_nets s s' → enabled_as u en c s'.
Proof.
  intros (_ & H2 & H3 & H4) Hok Hsame. pose proof (enabled_same _ _ Hsame) as He. destruct Hsame as (E1 & E2 & E3).
  split_and!; [done|congruence|congruence|]. intros p. rewrite E1. intros Hp. rewrite E3 by done. by apply H4.
Qed.

Lemma on_network_same {A} p (m : env → M A) s : (∀ E, keeps_record (m E)) → same_nets s (on_network p m s).1.
Proof.
  intros Hm. unfold on_network. destruct (us_heap s !! p) as [n|] eqn:Hn; [|done].
  specialize (Hm (env_at s p) n). destruct (m (env_at s p) n) as [n' o]. cbn in *. split_and!; [done|done|]. intros q _.
  unfold rec_at. cbn. destruct (decide (q = p)) as [->|Hne]; [|by apply rec_of_insert_ne].
  rewrite rec_of_insert_eq. unfold rec_of. by rewrite Hn.
Qed.

Lemma as_on_network {A} u en c p (m : env → M A) : (∀ E, keeps_record (m E)) → preserves (enabled_as u en c) (on_network p m).
Proof.
  intros Hm s Hs. eapply enabled_as_same; [exact Hs| |by apply on_network_same].
  apply ukeep_on_network; [done|apply Hs].
Qed.

Lemma as_SendMessage u en c p m : preserves (enabled_as u en c) (on_network p (λ _, SendMessage_uc m)).
Proof. apply as_on_network. intros _. apply keeps_record_of. intros r. apply rec_SendMessage. Qed.

Lemma rec_net_at s p : user_ok s → p ∈ us_networks s → net_record (net_at s p) = rec_at s p.
Proof.
  intros Hs Hp. pose proof (no_alive _ _ _ (uo_nets _ Hs)) as Ha. rewrite Forall_forall in Ha.
  destruct (Ha p Hp) as [n Hn]. unfold net_at, rec_at, rec_of. by rewrite Hn.
Qed.

(** The records to update are those of the networks. *)
Lemma collect_spec u en c rn eu l0 l :
  l ⊆ l0 →
  triple (λ s, enabled_as u en c s ∧ us_networks s = l0) (collect (user_network_update rn eu) l)
    (λ rs s, enabled_as u en c s ∧ Forall (λ r, nEnabled r = en (nID r)) rs) (enabled_as u en c).
Proof.
  induction l as [|p l IH]; intros Hl; [apply triple_ret; intros s [? ?]; by split|]. cbn [collect].
  apply triple_bind with (R := λ o s, (enabled_as u en c s ∧ us_networks s = l0) ∧
    Forall (λ r, nEnabled r = en (nID r)) (option_list o)).
  - unfold user_network_update. apply triple_gets. intros s0 [Has Hn]. unfold Datatypes.id.
    assert (Forall (λ r, nEnabled r = en (nID r)) [net_record (net_at s0 p)]) as Hrec.
    { apply Forall_singleton. rewrite rec_net_at; [|apply Has|rewrite Hn; set_solver]. apply Has. rewrite Hn. set_solver. }
    repeat case_match; try (apply triple_ret; intros s ->; by split_and!).
    intros s ->. pose proof (as_SendMessage u en c p (msg "SETNAME" [GetRealname (us_record s0) (Some (net_record (net_at s0 p)))]) s0 Has) as Hsend.
    pose proof (on_network_same p (λ _, SendMessage_uc (msg "SETNAME" [GetRealname (us_record s0) (Some (net_record (net_at s0 p)))])) s0
      (λ _, keeps_record_of _ (λ r, rec_SendMessage r _))) as (Hnets & _).
    unfold mbind, M_bind. destruct (on_network _ _ s0) as [s1 [[]|e|w]]; cbn in *; [|done..].
    split_and!; [done|congruence|done].
  - intros o. apply triple_bind with (R := λ rs s, enabled_as u en c s ∧
      Forall (λ r, nEnabled r = en (nID r)) rs ∧ Forall (λ r, nEnabled r = en (nID r)) (option_list o)).
    + intros s [Hs Ho]. specialize (IH ltac:(set_solver) s Hs). destruct (collect _ l s) as [s' [rs|e|w]]; [|done..].
      by destruct IH.
    + intros rs. apply triple_ret. intros s (Hs & Hrs & Ho). split; [done|]. by apply Forall_app.
Qed.

Lemma as_updateNetwork u en c r : nEnabled r = en (nID r) → preserves (enabled_as u en c) (updateNetwork r false).
Proof.
  intros Hr s Hs. pose proof (update_spec r false s (proj1 Hs)) as Hu.
  destruct (updateNetwork r false s) as [s' [q|e|w]]; [|by eapply enabled_as_same; [exact Hs|apply Hu..]..].
  destruct Hu as (p & Hp & Hid & (Hok & (Hq & Hqr & Hrest) & Hrec & Hen) & _). destruct Hs as (Hs & Hu & Hc & Has).
  destruct (wipe_same (us_record s) r) as (Wid & _ & We). cbn in *. split_and!; [done|congruence| |].
  - rewrite Hen, We, Hr, <-Hid, (Has p Hp). lia.
  - intros x Hx. destruct (decide (x = q)) as [->|Hne].
    + rewrite Hqr. congruence.
    + destruct (Hrest x Hx Hne) as [Hin ->]. by apply Has.
Qed.

Lemma as_update_all u en c rs err :
  Forall (λ r, nEnabled r = en (nID r)) rs → preserves (enabled_as u en c) (update_all rs err).
Proof.
  intros Hrs. revert err. induction Hrs as [|r rs Hr Hrs IH]; intros err; cbn [update_all].
  - destruct err; [apply preserves_fail|apply preserves_skip].
  - apply preserves_bind; [|intros o; apply IH]. apply preserves_try. by apply as_updateNetwork.
Qed.

Lemma id_inj s p q :
  user_ok s → p ∈ us_networks s → q ∈ us_networks s → nID (rec_at s p) = nID (rec_at s q) → p = q.
Proof.
  intros Hs Hp Hq Heq. apply list_elem_of_split in Hp as (l1 & l2 & Hl).
  pose proof (uo_nets _ Hs) as Hok. rewrite Hl in Hok. apply nets_ok_split in Hok as (_ & _ & Hids).
  destruct (decide (q = p)) as [|Hne]; [done|]. destruct (Hids q); [|exact (eq_sym Heq)]. rewrite Hl in Hq. set_solver.
Qed.

Lemma getNetworkByID_self s p : user_ok s → p ∈ us_networks s → getNetworkByID s (nID (rec_at s p)) = Some p.
Proof.
  intros Hs Hp. destruct (getNetworkByID s (nID (rec_at s p))) as [q|] eqn:Hget.
  - apply getNetworkByID_spec in Hget as [Hq Hid]. f_equal. by apply (id_inj s).
  - eapply List.find_none with (x := p) in Hget; [|by apply list_elem_of_In]. by rewrite bool_decide_eq_false in Hget.
Qed.

(** Which networks are enabled. *)
Lemma enabled_as_now u s :
  user_ok s →
  enabled_as u (λ id, match getNetworkByID s id with Some p => nEnabled (rec_at s p) | None => false end)
    (enabled_networks s) (set_us_record u s).
Proof.
  intros Hs. split_and!; [by eapply user_ok_frame|done|done|]. intros p Hp.
  change (rec_at (set_us_record u s) p) with (rec_at s p). by rewrite getNetworkByID_self.
Qed.

Lemma as_close_all u en c : preserves (enabled_as u en c) (modify (λ s, set_us_downstreams (close_dn <$> us_downstreams s) s)).
Proof.
  apply preserves_modify. intros s Hs. eapply enabled_as_same; [exact Hs| |done]. destruct Hs as [[Hok Hb] _].
  split; cbn; [done|]. intros d p (d0 & -> & _)%list_elem_of_fmap. by intros.
Qed.

(** The part of [updateUser] after the record has changed. *)
Lemma as_after_update u en c nu rn eu :
  preserves (enabled_as u en c)
    (s ← gets Datatypes.id;
      when nu (foreach user_nick_update (us_networks s)) ;;
      when (rn || eu)
        (records ← collect (user_network_update rn eu) (us_networks s);
         update_all records None) ;;
      s ← gets Datatypes.id;
      when (negb (uEnabled (us_record s)))
        (modify (λ s, set_us_downstreams (close_dn <$> us_downstreams s) s))).
Proof.
  intros s0 Hs0. rewrite bind_gets. change (Datatypes.id s0) with s0.
  assert (preserves (λ s, enabled_as u en c s ∧ us_networks s = us_networks s0)
    (when nu (foreach user_nick_update (us_networks s0)))) as Hw.
  { apply preserves_when. intros _. apply preserves_foreach. intros p _. unfold user_nick_update.
    apply preserves_bind_gets. intros s1 _. cbn zeta.
    destruct (_ || _); [apply preserves_skip|]. intros s2 [Hs2 Hn2]. split; [by apply as_SendMessage|].
    rewrite <-Hn2. apply (on_network_same p). intros _. apply keeps_record_of. intros r. apply rec_SendMessage. }
  specialize (Hw s0 (conj Hs0 eq_refl)). unfold mbind at 1, M_bind at 1.
  destruct (when nu _ s0) as [s1 [[]|e|w]]; cbn in Hw; [|by apply Hw..].
  assert (triple (λ s, enabled_as u en c s ∧ us_networks s = us_networks s0)
    (when (rn || eu) (records ← collect (user_network_update rn eu) (us_networks s0); update_all records None))
    (λ _, enabled_as u en c) (enabled_as u en c)) as Ht.
  { destruct (rn || eu); [|apply triple_ret; by intros s [? _]].
    eapply triple_bind; [by apply collect_spec|]. intros rs s [Hs Hrs].
    by apply (triple_preserves _ _ (as_update_all u en c rs None Hrs)). }
  specialize (Ht s1 Hw). unfold mbind at 1, M_bind at 1. destruct (when _ _ s1) as [s2 [[]|e|w]]; cbn; [|done..].
  rewrite bind_gets. destruct (negb _); [by apply as_close_all|done].
Qed.

Lemma updateUser_spec f s :
  user_ok s →
  let s' := (updateUser f s).1 in
  user_ok s' ∧ enabled_networks s' = enabled_networks s ∧
  (us_record s' = us_record s ∨ f (us_record s) = inl (us_record s')).
Proof.
  intros Hs. cbn zeta. unfold updateUser. rewrite bind_gets.
  destruct (f (us_record s)) as [u|e]; [|split; [done|split; [done|by left]]].
  cbn zeta. erewrite bind_run by apply ucall_run. set (s1 := set_us_trace _ s).
  assert (user_ok s1) as Hs1 by by apply user_ok_trace.
  destruct (ue_StoreUser _ u); [split; [done|split; [done|by left]]|]. rewrite bind_modify.
  pose proof (as_after_update u _ _ (negb (bool_decide (uNick (us_record s) = uNick u)))
    (negb (bool_decide (uRealname (us_record s) = uRealname u)))
    (negb (Bool.eqb (uEnabled (us_record s)) (uEnabled u))) _ (enabled_as_now u s1 Hs1)) as (H1 & H2 & H3 & _).
  split_and!; [exact H1|exact H3|right; f_equal; symmetry; exact H2].
Qed.

(** ** The limit *)

Definition limit_ok (s : userState) : Prop := max_networks s < 0 ∨ enabled_networks s ≤ max_networks s.

Lemma limit_le s s' :
  limit_ok s → us_record s' = us_record s → enabled_networks s' ≤ enabled_networks s → limit_ok s'.
Proof. unfold limit_ok, max_networks. intros Hl -> He. lia. Qed.
Lemma limit_same s s' : limit_ok s → same_nets s s' → limit_ok s'.
Proof. intros Hl Hs. pose proof (enabled_same _ _ Hs). eapply limit_le; [done|apply Hs|lia]. Qed.
Lemma limit_one s s' :
  canEnableNewNetwork s = Ok tt → us_record s' = us_record s → enabled_networks s' ≤ enabled_networks s + 1 → limit_ok s'.
Proof.
  unfold canEnableNewNetwork, limit_ok, max_networks. intros Hc -> He. revert Hc.
  destruct (_ <? 0) eqn:E1; [intros _; left; lia|]. destruct (_ <=? _) eqn:E2; [done|]. intros _. right. lia.
Qed.

Lemma create_limit r s : user_ok s → limit_ok s → limit_ok (createNetwork r true s).1.
Proof.
  intros Hs Hl. pose proof (create_spec r true s Hs) as Hc.
  destruct (createNetwork r true s) as [s' [p|e|w]]; [|by eapply limit_same; [exact Hl|apply Hc]..].
  destruct Hc as (_ & _ & Hr & He & Hcan). cbn in *. destruct (nEnabled r); cbn in *.
  - eapply limit_one; [by apply Hcan|done|lia].
  - eapply limit_le; [done|done|lia].
Qed.

(** The callers enforce the limit on an update exactly when it enables the network. *)
Lemma update_limit r s :
  user_ok s → limit_ok s →
  (∀ p, p ∈ us_networks s → nID (rec_at s p) = nID r → limit_ok (updateNetwork r (negb (nEnabled (rec_at s p))) s).1).
Proof.
  intros Hs Hl p Hp Hid. pose proof (update_spec r (negb (nEnabled (rec_at s p))) s Hs) as Hu.
  destruct (updateNetwork r _ s) as [s' [q|e|w]]; [|by eapply limit_same; [exact Hl|apply Hu]..].
  destruct Hu as (p' & Hp' & Hid' & (_ & _ & Hr & He) & Hcan). cbn in *.
  assert (p' = p) as -> by (apply (id_inj s); [done..|congruence]).
  rewrite (proj2 (proj2 (wipe_same (us_record s) r))) in He.
  destruct (nEnabled (rec_at s p)), (nEnabled r); cbn in *; try (eapply limit_le; [done|done|lia]).
  eapply limit_one; [by apply Hcan|done|lia].
Qed.

(** ** Connections *)

Definition user_inv (s : userState) : Prop := user_ok s ∧ limit_ok s.

Lemma inv_same s s' : user_inv s → user_ok s' → same_nets s s' → user_inv s'.
Proof. intros [_ Hl] Hok Hsame. split; [done|by eapply limit_same]. Qed.

Lemma find_in {A} (f : A → bool) l x : List.find f l = Some x → x ∈ l.
Proof. intros [Hin _]%find_some. by apply list_elem_of_In. Qed.

Section connection.
(** [user_ok] and [user_inv] alike. *)
Context (I : userState → Prop) (I_ok : ∀ s, I s → user_ok s) (I_trace : ∀ tr s, I s → I (set_us_trace tr s))
  (I_downstreams : ∀ ds s, I s → user_ok (set_us_downstreams ds s) → I (set_us_downstreams ds s))
  (I_create : ∀ r, preserves I (createNetwork r true)).

Lemma loadNetwork_spec nick reg :
  triple I (loadNetwork nick reg) (λ o s, I s ∧ ∀ p, o = Some p → p ∈ us_networks s) I.
Proof.
  intros s Hs. unfold loadNetwork. rewrite bind_gets. change (Datatypes.id s) with s.
  case_decide.
  { destruct (getNetworkByID _ _) as [p|] eqn:Hget; [|done]. apply find_in in Hget. split; [done|by intros ? [= <-]]. }
  case_decide; [done|]. case_decide; [by split|].
  destruct (getNetwork _ _) as [p|] eqn:Hget; [apply find_in in Hget; split; [done|by intros ? [= <-]]|].
  erewrite bind_run by apply ucall_run. set (s1 := set_us_trace _ s). assert (I s1) as Hs1 by by apply I_trace.
  destruct (negb _); [done|]. destruct (unmarshalUsername (rNick reg)) as [[n cl] nn].
  destruct (_ || _); [done|]. case_decide; [done|].
  pose proof (I_create (set_nNick n (NewNetwork (rNetworkName reg))) s1 Hs1) as Hl.
  pose proof (create_spec (set_nNick n (NewNetwork (rNetworkName reg))) true s1 (I_ok _ Hs1)) as Hc.
  unfold mbind at 1, M_bind at 1. destruct (createNetwork _ true s1) as [s2 [p|e|w]]; cbn in *; [|done..].
  destruct Hc as (Hok & Hp & _). split; [done|]. by intros ? [= <-].
Qed.

Lemma connect_keeps id nick notify reg : preserves I (connect_dc id nick notify reg).
Proof.
  apply preserves_triple. eapply triple_bind; [apply loadNetwork_spec|]. intros o. apply triple_modify.
  intros s [Hs Ho]. apply I_downstreams; [done|]. destruct (I_ok _ Hs) as [Hn Hb]. split; [done|]. cbn. intros d p Hd Hc Hp.
  apply elem_of_app in Hd as [Hd| ->%list_elem_of_singleton]; [eauto|]. by apply Ho.
Qed.

Lemma disconnect_keeps id : preserves I (disconnect_dc id).
Proof.
  apply preserves_modify. intros s Hs. apply I_downstreams; [done|]. destruct (I_ok _ Hs) as [Hn Hb].
  split; [done|]. cbn. intros d p [_ Hd]%list_elem_of_filter. eauto.
Qed.
End connection.

(** ** Events *)

Lemma ukeep_event e : ukeeps (handle_uevent e).
Proof.
  destruct e as [r ign|r ign|id|f|id nick notify reg|id]; unfold handle_uevent.
  - apply preserves_bind; [apply ukeep_createNetwork|intros; apply preserves_skip].
  - apply preserves_bind_gets. intros s Hs. destruct (getNetworkByID _ _); [|apply preserves_fail].
    apply preserves_bind; [apply ukeep_updateNetwork|intros; apply preserves_skip].
  - apply preserves_bind_gets. intros s Hs. destruct (getNetworkByID _ _); [|apply preserves_fail].
    apply ukeep_deleteNetwork.
  - intros s Hs. by apply updateUser_spec.
  - apply connect_keeps; auto using user_ok_trace, ukeep_createNetwork.
  - apply disconnect_keeps; auto.
Qed.

(** What keeps the limit: it is not ignored, and the quota of the user does not change. *)
Definition limits_event (e : uevent) : Prop :=
  match e with
  | ECreate _ ign | EUpdate _ ign => ign = false
  | EUser f => ∀ u u', f u = inl u' → uMaxNetworks u' = uMaxNetworks u
  | _ => True
  end.

Lemma inv_create r : preserves user_inv (createNetwork r true).
Proof. intros s [Hs Hl]. split; [by apply ukeep_createNetwork|by apply create_limit]. Qed.

Lemma limit_max s s' :
  limit_ok s → uMaxNetworks (us_record s') = uMaxNetworks (us_record s) → enabled_networks s' = enabled_networks s → limit_ok s'.
Proof. unfold limit_ok, max_networks. by intros Hl -> ->. Qed.

Lemma inv_event e : limits_event e → preserves user_inv (handle_uevent e).
Proof.
  intros He s [Hs Hl]. split; [by apply ukeep_event|].
  destruct e as [r ign|r ign|id|f|id nick notify reg|id]; cbn in He; unfold handle_uevent.
  - subst ign. pose proof (create_limit r s Hs Hl) as Hc. cbn [negb]. unfold mbind, M_bind.
    by destruct (createNetwork r true s) as [s' [q|e|w]].
  - subst ign. rewrite bind_gets. change (Datatypes.id s) with s.
    destruct (getNetworkByID s (nID r)) as [p|] eqn:Hget; [|done]. apply getNetworkByID_spec in Hget as [Hp Hid].
    pose proof (update_limit r s Hs Hl p Hp Hid) as Hu. cbn [negb andb]. unfold mbind, M_bind.
    by destruct (updateNetwork _ _ s) as [s' [q|e|w]].
  - rewrite bind_gets. destruct (getNetworkByID _ _); [|done].
    pose proof (delete_spec id s Hs) as Hd. destruct (deleteNetwork id s) as [s' [[]|e|w]];
      [|by eapply limit_same; [exact Hl|apply Hd]..]. destruct Hd as (_ & Hr & _ & He'). by eapply limit_le.
  - destruct (updateUser_spec f s Hs) as (_ & Hen & Hr). eapply limit_max; [exact Hl| |done].
    destruct Hr as [->|Hr]; [done|by apply He].
  - apply (proj2 (A := user_ok (connect_dc id nick notify reg s).1)).
    apply (connect_keeps user_inv); [by intros ? []| | |apply inv_create|done].
    + intros tr s' Hs'. eapply inv_same; [exact Hs'|apply user_ok_trace; apply Hs'|done].
    + intros ds s' Hs' Hok. by eapply inv_same.
  - exact Hl.
Qed.

(** C12: Whatever networks are created, changed and deleted, however the user is changed and
    whichever connections come and go, the networks of a user stay sorted by ID, with
    distinct IDs other than zero and distinct names that are not empty and do not start
    with a dash, and every open connection bound to a network is bound to one the user has.
    The database is assumed to give a new row an ID that is not in use. *)
Theorem networks_invariant (es : list uevent) (s : userState) :
  user_ok s → user_ok (run_uevents es s).
Proof.
  revert s. induction es as [|e es IH]; intros s Hs; [done|]. cbn. apply IH. by apply ukeep_event.
Qed.

(** As long as nobody ignores the limit or changes the quota, the user never has more
    enabled networks than the quota allows, through any sequence of requests. *)
Theorem networks_limit (es : list uevent) (s : userState) :
  user_ok s → limit_ok s → Forall limits_event es → limit_ok (run_uevents es s).
Proof.
  intros Hs Hl Hes. assert (user_inv s) as Hi by done. clear Hs Hl. apply (proj2 (A := user_ok (run_uevents es s))).
  revert s Hi. induction Hes as [|e es He Hes IH]; intros s Hi; [done|]. cbn. apply IH. by apply inv_event.
Qed.
End ops.

(** ** A user with two networks *)

Definition demo_url (s : string) : option URL :=
  '(scheme, host) ← Cut s "://"; Some (MkURL scheme false host "" "" "").

(** Rows are numbered from one. *)
Definition demo_uenv : uenv := {|
  ue_urlParse := demo_url;
  ue_SplitHostPort := λ _, None;
  ue_StoreNetwork := λ _ ids _ r, inl (if decide (nID r = 0) then 1 + foldr Z.max 0 ids else nID r);
  ue_DeleteNetwork := λ _ _, None; ue_StoreUser := λ _ _, None;
  ue_MaxUserNetworks := 2; ue_renameStore := true; ue_dialTLS := λ _ _, true
|}.

Definition demo_user_state : userState :=
  MkUserState (MkUser 1 "alice" "" "alice" "Alice" false true 0 (-1)) [] ∅ 0%nat [] [].

Definition demo_reg (net : string) : downstreamRegistration := MkReg "alice" "alice" "" net 0 false "".

Definition demo_uevents : list uevent :=
  [ECreate (NewNetwork "irc.example.org") false; EConnect 7 "alice" true (demo_reg "irc.example.org");
   ECreate (NewNetwork "irc.example.net") false; ECreate (NewNetwork "irc.example.com") false;
   EUpdate (set_nID 1 (NewNetwork "irc.example.com")) false;
   EUser (λ u, inl (MkUser (uID u) (uUsername u) (uPassword u) (uNick u) "Alice B." (uAdmin u) (uEnabled u) 0 (uMaxNetworks u)));
   EDelete 2; EConnect 8 "alice" false (demo_reg "irc.example.info")].

Lemma demo_store_fresh tr ids uid r i :
  nID r = 0 → ue_StoreNetwork (uenv:=demo_uenv) tr ids uid r = inl i → i ≠ 0 ∧ i ∉ ids.
Proof.
  cbn. intros Hr. rewrite decide_True by done. intros [= <-].
  assert (0 ≤ foldr Z.max 0 ids ∧ ∀ x, x ∈ ids → x ≤ foldr Z.max 0 ids) as [Hpos Hmax].
  { clear. induction ids as [|y ids IH]; cbn; [split; [lia|intros x Hx; by inversion Hx]|]. split; [lia|].
    intros x [->|Hx]%elem_of_cons; [lia|]. pose proof (proj2 IH x Hx). lia. }
  split; [lia|]. intros Hin%Hmax. lia.
Qed.

Lemma demo_user_ok : user_ok demo_user_state.
Proof.
  split; [|cbn; intros d p Hd; by inversion Hd]. split; cbn; try constructor. intros p. rewrite lookup_empty. by intros [? ?].
Qed.

(** Three networks are asked for and two allowed; the connection that was bound to the
    first one follows its replacement. *)
Lemma networks_invariant_witness :
  let s := @run_uevents demo_uenv demo_env latin1_tables demo_uevents demo_user_state in
  user_ok s ∧ (GetName ∘ rec_at s) <$> us_networks s = ["irc.example.com"; "irc.example.info"] ∧
  dn_network <$> us_downstreams s = Some <$> us_networks s.
Proof.
  split; [|by split; vm_compute].
  apply (@networks_invariant demo_uenv demo_env latin1_tables demo_store_fresh demo_uevents demo_user_state demo_user_ok).
Defined.

Lemma networks_limit_witness :
  let s := @run_uevents demo_uenv demo_env latin1_tables demo_uevents demo_user_state in
  @limit_ok demo_uenv s ∧ enabled_networks s = 2 ∧ @max_networks demo_uenv s = 2.
Proof.
  split; [|by split; vm_compute].
  apply (@networks_limit demo_uenv demo_env latin1_tables demo_store_fresh demo_uevents demo_user_state demo_user_ok).
  - right. vm_compute. discriminate.
  - repeat constructor; cbn; try done. by intros u u' [= <-].
Defined.

(** * The networks of a user keep the invariant of their connections

    Every network object of a user satisfies [uwf], the invariant of the server connections,
    and creating, updating, renaming and removing networks keeps it. *)

Definition nets_wf (s : userState) : Prop := map_Forall (λ _, uwf) (us_heap s).

Lemma uwf_fields s :
  uwf s → map_ok None (net_channels s) ∧ map_ok None (net_delivered s) ∧ map_ok None (net_pushTargets s).
Proof. by intros []. Qed.

Lemma nets_wf_at s p : nets_wf s → uwf (net_at s p).
Proof. intros Hs. unfold net_at. destruct (us_heap s !! p) as [n|] eqn:Hn; [by apply (Hs p)|apply newConnection_uwf]. Qed.

Section wf.
Context `{UE : uenv} `{E : env} `{UnicodeTables}.

Abbreviation wkeeps := (preserves nets_wf).

Lemma wf_modify (f : userState → userState) : (∀ s, us_heap (f s) = us_heap s) → wkeeps (modify f).
Proof. intros Hf. apply preserves_modify. intros s. unfold nets_wf. by rewrite Hf. Qed.
#[local] Hint Extern 2 (wkeeps (modify _)) => by apply wf_modify : pres.

Lemma wf_uemit a : wkeeps (uemit a).
Proof. by apply wf_modify. Qed.
#[local] Hint Resolve wf_uemit : pres.
Lemma wf_ucall {A} a (f : list uaction → A) : wkeeps (ucall a f).
Proof. unfold ucall. pres. Qed.
#[local] Hint Resolve wf_ucall : pres.
Lemma wf_notify id attrs : wkeeps (notifyBouncerNetworkState id attrs).
Proof. unfold notifyBouncerNetworkState. pres. Qed.
Lemma wf_addNetwork p : wkeeps (addNetwork p).
Proof. unfold addNetwork. pres. Qed.
Lemma wf_removeNetwork p : wkeeps (removeNetwork p).
Proof. unfold removeNetwork. pres. Qed.
Lemma wf_rebind p q : wkeeps (rebind p q).
Proof. unfold rebind. pres. Qed.
Lemma wf_check_limit b r : wkeeps (check_limit b r).
Proof. unfold check_limit. pres. Qed.
#[local] Hint Resolve wf_notify wf_addNetwork wf_removeNetwork wf_rebind wf_check_limit : pres.

Lemma wf_alloc n : uwf n → wkeeps (alloc n).
Proof.
  intros Hn. unfold alloc. pres. apply preserves_modify. intros s Hs. unfold nets_wf. cbn.
  by apply map_Forall_insert_2.
Qed.
#[local] Hint Resolve wf_alloc newConnection_uwf : pres.

Lemma wf_on_network {A} p (m : env → M A) : (∀ E, preserves uwf (m E)) → wkeeps (on_network p m).
Proof.
  intros Hm s Hs. unfold on_network. destruct (us_heap s !! p) as [n|] eqn:Hn; [|done].
  specialize (Hm (env_at s p) n (Hs p n Hn)). destruct (m (env_at s p) n) as [n' r]. cbn in *.
  unfold nets_wf. cbn. by apply map_Forall_insert_2.
Qed.

Lemma uwf_emit a : action_ok a → preserves uwf (emit a).
Proof. apply keep_emit. Qed.
Lemma uwf_send dc c : preserves uwf (send_dc dc c).
Proof. apply keep_send_dc. Qed.
#[local] Hint Resolve uwf_send : pres.

Lemma uwf_frame s s' :
  uwf s → trace s' = trace s → net_channels s' = net_channels s → net_delivered s' = net_delivered s →
  net_pushTargets s' = net_pushTargets s → channels s' = channels s → users s' = users s →
  monitored s' = monitored s → uwf s'.
Proof. intros [] E1 E2 E3 E4 E5 E6 E7. split; by rewrite ?E1, ?E2, ?E3, ?E4, ?E5, ?E6, ?E7. Qed.
#[local] Hint Extern 2 (preserves uwf (modify _)) => apply preserves_modify; intros; by eapply uwf_frame : pres.
#[local] Hint Extern 2 (preserves uwf (emit _)) => apply uwf_emit; done : pres.

Lemma uwf_abort `{E0 : env} : preserves uwf abortPendingCommands.
Proof. unfold abortPendingCommands, abort_reply. pres. Qed.
#[local] Hint Resolve uwf_abort : pres.

Lemma uwf_disconnected `{E0 : env} found : preserves uwf (handleUpstreamDisconnected found).
Proof.
  unfold handleUpstreamDisconnected, forEachDownstream, stopRegainNickTimer. pres.
  apply preserves_modify. intros s [? ? ? ? ? ? [Hch Hm] ? ?]. split; cbn; try done. split; [split; [|done]|].
  - intros k e. cbn. rewrite lookup_fmap. intros (e0 & He0 & ->)%fmap_Some. cbn. by apply (proj1 Hch).
  - intros k e. cbn. rewrite lookup_fmap. intros (e0 & He0 & ->)%fmap_Some. cbn. by apply (Hm k).
Qed.

Lemma wf_replaceNetwork p record : wkeeps (replaceNetwork p record).
Proof.
  unfold replaceNetwork. apply preserves_bind_gets. intros s0 _. cbv beta delta [Datatypes.id].
  apply preserves_bind; [pres|]. intros q. apply preserves_bind; [pres|]. intros _.
  apply preserves_bind; [apply preserves_when; intros _; apply wf_on_network; intros ?; apply uwf_disconnected|]. intros _.
  apply preserves_bind; [pres|]. intros _. apply preserves_bind; [pres|]. intros _.
  apply preserves_bind_gets. intros s1 Hs1. cbv beta delta [Datatypes.id] zeta. apply preserves_bind; [|intros; pres].
  destruct (uwf_fields _ (nets_wf_at s1 p Hs1)) as (_ & Hd & Hp).
  apply wf_on_network. intros E0. apply preserves_bind.
  - apply preserves_modify. intros n []. by split.
  - intros _. apply preserves_bind; [pres|]. intros _. apply any_updateCasemapping.
Qed.
#[local] Hint Resolve wf_replaceNetwork : pres.

Lemma wf_createNetwork r b : wkeeps (createNetwork r b).
Proof. unfold createNetwork. pres. Qed.
Lemma wf_updateNetwork r b : wkeeps (updateNetwork r b).
Proof. unfold updateNetwork. pres. Qed.
Lemma wf_deleteNetwork id : wkeeps (deleteNetwork id).
Proof. unfold deleteNetwork. pres. Qed.
#[local] Hint Resolve wf_updateNetwork : pres.

Lemma uwf_SendMessage m : preserves uwf (SendMessage_uc m).
Proof. apply keep_SendMessage_uc. Qed.
Lemma wf_send p m : wkeeps (on_network p (λ _, SendMessage_uc m)).
Proof. apply wf_on_network. intros _. apply uwf_SendMessage. Qed.
#[local] Hint Resolve wf_send : pres.

Lemma wf_nick_update p : wkeeps (user_nick_update p).
Proof. unfold user_nick_update. pres. Qed.
Lemma wf_network_update b1 b2 p : wkeeps (user_network_update b1 b2 p).
Proof. unfold user_network_update. pres. Qed.
#[local] Hint Resolve wf_nick_update wf_network_update : pres.
Lemma wf_collect {A B} (f : A → UM (option B)) l : (∀ x, wkeeps (f x)) → wkeeps (collect f l).
Proof. intros Hf. induction l as [|x l IH]; cbn [collect]; pres. Qed.
Lemma wf_update_all l err : wkeeps (update_all l err).
Proof. revert err. induction l as [|r l IH]; intros err; cbn [update_all]; pres. Qed.
#[local] Hint Resolve wf_collect wf_update_all : pres.
Lemma wf_updateUser f : wkeeps (updateUser f).
Proof. unfold updateUser. pres. Qed.
End wf.
