(* ===== verification/ServiceWords.v ===== *)
(** * Splitting a BouncerServ command into words (service.go, cmd/sojuctl)

    [splitWords] takes a command apart the way a shell does; sojuctl quotes the words of its
    command line with [strconv.Quote] before it sends them. *)

From S2P Require Import Prelude GoStrings GoUnicode GoStrconv IrcMessage.

Open Scope string_scope.
Open Scope list_scope.
Open Scope Z_scope.

(** The variables of the loop of [splitWords]. *)
Record wordState := MkWords { swWords : list string; swLast : string; swEscape : bool; swPrev : Z; swDelim : Z }.

Definition splitWords_step (s : wordState) (r : Z) : wordState :=
  let '(MkWords words last escape prev delim) := s in
  if escape then MkWords words (last +:+ EncodeRune r) false r delim
  else if r =? 92 then MkWords words last true r delim
  else if (delim =? 32) && IsSpace r then
    if negb (IsSpace prev) then MkWords (words ++ [last]) "" false r delim else MkWords words last false r delim
  else if r =? delim then MkWords words last false r 32
  else if (r =? 34) || (r =? 39) then
    if delim =? 32 then MkWords words last false r r else MkWords words (last +:+ EncodeRune r) false r delim
  else MkWords words (last +:+ EncodeRune r) false r delim.

Definition splitWords (s : string) : res goerr (list string) :=
  let '(MkWords words last escape prev delim) :=
    foldl splitWords_step (MkWords [] "" false 32 32) (runes s) in
  let words := if negb (IsSpace prev) then words ++ [last] else words in
  if negb (delim =? 32) then Err (Errorf "unterminated quoted string")
  else if escape then Err (Errorf "unterminated backslash sequence")
  else Ok words.

Section quote.
Context `{UnicodeTables}.

(** [quoteWords] of sojuctl *)
Fixpoint quoteWords_go (s : string) (words : list string) : string :=
  match words with
  | [] => s
  | w :: words => quoteWords_go ((if decide (s = "") then s else s +:+ " ") +:+ Quote w) words
  end.
Definition quoteWords (words : list string) : string := quoteWords_go "" words.

(** ** Words that survive *)

Definition printable (r : Z) : Prop := ValidRune r = true ∧ IsPrint r = true.

Definition esc (r : Z) : list Z := if (r =? 34) || (r =? 92) then [92; r] else [r].

Lemma of_runes_cons r rs : of_runes (r :: rs) = EncodeRune r +:+ of_runes rs.
Proof. done. Qed.

(** What [Quote] prints for printable runes. *)
Lemma Quote_runes rs : Forall printable rs → Quote (of_runes rs) = of_runes (34 :: (rs ≫= esc) ++ [34]).
Proof.
  intros Hrs. unfold Quote. rewrite of_runes_cons, of_runes_app.
  change (EncodeRune 34) with dquote. change (of_runes [34]) with dquote. f_equal.
  assert (∀ fuel, (slen (of_runes rs) ≤ fuel)%nat → quote_go fuel (of_runes rs) = of_runes (rs ≫= esc)) as Hgo;
    [|by rewrite Hgo].
  induction Hrs as [|r rs [Hv Hp] Hrs IH]; intros fuel Hf; [by destruct fuel|].
  pose proof (DecodeRune_encode r (of_runes rs) Hv) as Hd. pose proof (str_drop_app (EncodeRune r) (of_runes rs)) as Hdrop.
  pose proof (EncodeRune_nonempty r) as Hne. rewrite of_runes_cons in Hf |- *. rewrite slen_app in Hf.
  cbn [mbind list_bind]. rewrite of_runes_app.
  destruct (EncodeRune r) as [|c e] eqn:He; [done|]. destruct fuel as [|fuel]; [cbn in Hf; lia|].
  cbn [String.app String.append] in Hd, Hdrop |- *. cbn [quote_go]. rewrite Hd, Hdrop.
  rewrite IH by (cbn in Hf; lia). f_equal.
  assert ((slen (String c e) =? 1)%nat && (r =? RuneError) = false) as ->.
  { destruct (r =? RuneError) eqn:E; [|by rewrite andb_false_r]. apply Z.eqb_eq in E. subst r. vm_compute in He.
    injection He as <- <-. done. }
  unfold quote_rune, esc. destruct ((r =? 34) || (r =? 92)).
  - unfold of_runes. cbn [fmap list_fmap str_concat]. rewrite str_app_nil_r, He. done.
  - rewrite Hp. unfold of_runes. cbn [fmap list_fmap str_concat]. by rewrite str_app_nil_r, He.
Qed.

(** Between double quotes every rune is taken literally. *)
Lemma split_inside words last prev rs :
  ∃ prev', foldl splitWords_step (MkWords words last false prev 34) (rs ≫= esc) =
    MkWords words (last +:+ of_runes rs) false prev' 34.
Proof.
  revert last prev. induction rs as [|r rs IH]; intros last prev.
  - exists prev. cbn. by rewrite str_app_nil_r.
  - cbn [mbind list_bind]. rewrite foldl_app, of_runes_cons, <-str_app_assoc.
    destruct ((r =? 34) || (r =? 92)) eqn:E.
    { assert (esc r = [92; r]) as -> by (unfold esc; by rewrite E). apply IH. }
    assert (esc r = [r]) as -> by (unfold esc; by rewrite E). cbn [foldl splitWords_step].
    apply orb_false_iff in E as [-> ->]. cbn [andb]. change (34 =? 32) with false. cbn [andb].
    destruct (_ || _); apply IH.
Qed.

Definition quoted (rs : list Z) : list Z := 34 :: (rs ≫= esc) ++ [34].

Lemma split_quoted words prev rs :
  foldl splitWords_step (MkWords words "" false prev 32) (quoted rs) = MkWords words (of_runes rs) false 34 32.
Proof.
  unfold quoted. cbn [foldl]. rewrite foldl_app. change (splitWords_step _ 34) with (MkWords words "" false 34 34).
  destruct (split_inside words "" 34 rs) as [prev' ->]. done.
Qed.

Lemma split_rest words last rss :
  ∃ words' last', foldl splitWords_step (MkWords words last false 34 32) (rss ≫= (λ rs, 32 :: quoted rs)) =
    MkWords words' last' false 34 32 ∧ words' ++ [last'] = words ++ [last] ++ (of_runes <$> rss).
Proof.
  revert words last. induction rss as [|rs rss IH]; intros words last.
  - exists words, last. split; [done|]. by rewrite app_nil_r.
  - cbn [mbind list_bind]. rewrite foldl_app. cbn [foldl].
    change (splitWords_step (MkWords words last false 34 32) 32) with (MkWords (words ++ [last]) "" false 32 32).
    rewrite split_quoted. destruct (IH (words ++ [last]) (of_runes rs)) as (w' & l' & -> & Hw).
    exists w', l'. split; [done|]. rewrite Hw. cbn. by rewrite <-app_assoc.
Qed.

Lemma quoteWords_rest s rss :
  s ≠ "" → Forall (Forall printable) rss →
  quoteWords_go s (of_runes <$> rss) = s +:+ of_runes (rss ≫= (λ rs, 32 :: quoted rs)).
Proof.
  intros Hs Hrss. revert s Hs. induction Hrss as [|rs rss Hrs Hrss IH]; intros s Hs; cbn [fmap list_fmap quoteWords_go].
  - cbn. by rewrite str_app_nil_r.
  - rewrite decide_False by done. rewrite IH by (by destruct s). rewrite Quote_runes by done.
    cbn [mbind list_bind]. change (32 :: quoted rs) with ([32] ++ quoted rs). rewrite !of_runes_app, !str_app_assoc. done.
Qed.

Lemma printable_valid rss : Forall (Forall printable) rss → Forall (λ r, ValidRune r = true) (rss ≫= (λ rs, 32 :: quoted rs)).
Proof.
  intros Hrss. apply Forall_forall. intros r (rs & Hr & Hin)%list_elem_of_bind.
  apply elem_of_cons in Hr as [->|Hr]; [done|]. apply elem_of_cons in Hr as [->|Hr]; [done|].
  apply elem_of_app in Hr as [(x & Hr & Hx)%list_elem_of_bind| ->%list_elem_of_singleton]; [|done].
  rewrite Forall_forall in Hrss. specialize (Hrss rs Hin). rewrite Forall_forall in Hrss. specialize (Hrss x Hx) as [Hv _].
  unfold esc in Hr. destruct (_ || _).
  - apply elem_of_cons in Hr as [->|Hr]; [done|]. by apply list_elem_of_singleton in Hr as ->.
  - by apply list_elem_of_singleton in Hr as ->.
Qed.

(** C15: The words of a sojuctl command line reach the bouncer unchanged, whatever spaces,
    quotes and backslashes they hold, as long as their characters are printable: splitting
    the text sojuctl sends gives the words back. *)
Theorem sojuctl_roundtrip (words : list (list Z)) :
  Forall (Forall printable) words → splitWords (quoteWords (of_runes <$> words)) = Ok (of_runes <$> words).
Proof.
  intros Hw. destruct words as [|rs rss]; [done|]. unfold quoteWords. cbn [fmap list_fmap quoteWords_go].
  pose proof Hw as [Hrs Hrss]%Forall_cons. rewrite decide_True by done. cbn [String.app String.append].
  rewrite quoteWords_rest; [|by rewrite Quote_runes|done]. rewrite Quote_runes, <-of_runes_app by done.
  unfold splitWords. rewrite runes_of_runes.
  2: { pose proof (printable_valid _ Hw) as Hv. cbn [mbind list_bind] in Hv. by inversion Hv. }
  rewrite foldl_app. change (34 :: (rs ≫= esc) ++ [34]) with (quoted rs). rewrite split_quoted.
  destruct (split_rest [] (of_runes rs) rss) as (w' & l' & -> & Hw'). cbn in *. by rewrite Hw'.
Qed.
End quote.

(** An argument with an apostrophe, a backslash and double quotes, an empty one, and one
    that looks like a flag. *)
Definition demo_words : list (list Z) := (λ w, byte_val <$> str_list w) <$>
  ["user"; "create"; "-realname"; "it's a \ " +:+ dquote +:+ "test" +:+ dquote; ""; "-x y"].

Lemma sojuctl_roundtrip_witness :
  let text := @quoteWords latin1_tables (of_runes <$> demo_words) in
  splitWords text = Ok (of_runes <$> demo_words) ∧ length (of_runes <$> demo_words) = 6%nat.
Proof.
  split; [|done]. apply (@sojuctl_roundtrip latin1_tables demo_words).
  apply Forall_forall. intros w Hw. apply Forall_forall. intros r Hr. revert r Hr. apply Forall_forall.
  revert w Hw. apply Forall_forall. unfold demo_words. cbn. repeat (constructor || split).
Defined.

(** A tab is not printable: [strconv.Quote] writes an escape sequence that [splitWords] does
    not know, and the word arrives with the letter of the sequence. *)
Lemma sojuctl_tab : splitWords (@quoteWords latin1_tables ["a" +:+ String (ascii_of_nat 9) "b"]) = Ok ["atb"].
Proof. by vm_compute. Qed.

(** An escaped space at the end of a command drops the word it belongs to. *)
Lemma splitWords_escaped_space : splitWords ("help a\ ") = Ok ["help"].
Proof. by vm_compute. Qed.
