(* ===== verification/Service.v ===== *)
(** * BouncerServ (service.go)

    The commands of the bouncer's service and the server state they act on: the users that
    are loaded, each with its networks. A command runs in the goroutine of a user, or of
    the administration socket, and may hand work to the goroutine of another user and wait
    for it; the context of the model lists the users whose goroutines are waiting, because a
    request to one of them is not served before the wait ends. *)

From S2P Require Import Prelude GoStrings GoUnicode GoStrconv IrcMessage GoFlag CaseMapping Membership Modes WhoX Base64.
From S2P Require Import Effects GenMsg Caps Database Highlight Upstream UpstreamHandlers Downstream DownstreamHandlers.
From S2P Require Import GoTime UserNetworks ServiceWords.

Open Scope string_scope.
Open Scope list_scope.
Open Scope Z_scope.

(** ** The server *)

Inductive saction :=
| SStoreUser (u : dbUser)
| SDeleteUser (id : Z)
| SListNetworks (id : Z)
| SStoreChannel (netID : Z) (ch : dbChannel)
| SDeleteChannel (id : Z)
| SListDeviceCertificates (id : Z)
| SStoreDeviceCertificate (id : Z) (cert : DeviceCertificate)
| SDeleteDeviceCertificate (id : Z) (fingerprint : string)
| SStats
| SGenerateKey (keyType : string) (bits : Z)
| SStop (username : string)
| SBroadcast (username : string) (m : Message)
(** a request left in the queue of a user whose goroutine is waiting *)
| SQueued (username : string)
(** the goroutine waits for one that waits for it *)
| SBlocked (username : string)
(** what a user did, and what the command answered *)
| SUser (username : string) (a : uaction)
| SPrint (text : string).

Record server := MkServer {
  srv_users : gmap string userState;
  srv_debug : bool;
  srv_out : list string;
  srv_trace : list saction
}.
Definition eta_srv (x : server) : server := MkServer (srv_users x) (srv_debug x) (srv_out x) (srv_trace x).
Definition set_srv_users : gmap string userState → server → server := ltac:(setter eta_srv srv_users).
Definition set_srv_debug : bool → server → server := ltac:(setter eta_srv srv_debug).
Definition set_srv_out : list string → server → server := ltac:(setter eta_srv srv_out).
Definition set_srv_trace : list saction → server → server := ltac:(setter eta_srv srv_trace).

Record peer := MkPeer { peer_cert : option string; peer_ip : string }.

Record serviceContext := MkContext {
  sc_nick : string;
  sc_network : option nat;
  sc_user : option string;
  sc_dc : option peer;
  sc_admin : bool;
  sc_waiting : list string
}.

(** The database, the cryptographic and parsing libraries, and the configuration. *)
Class svenv := MkSvenv {
  sv_StoreUser : list saction → dbUser → Z + goerr;
  sv_DeleteUser : list saction → Z → option goerr;
  sv_ListNetworks : list saction → Z → list dbNetwork + goerr;
  sv_StoreChannel : list saction → Z → dbChannel → Z + goerr;
  sv_DeleteChannel : list saction → Z → option goerr;
  sv_ListDeviceCertificates : list saction → Z → list DeviceCertificate + goerr;
  sv_StoreDeviceCertificate : list saction → Z → DeviceCertificate → option goerr;
  sv_DeleteDeviceCertificate : list saction → Z → string → option goerr;
  sv_Stats : list saction → (Z * Z * Z) + goerr;
  sv_GenerateKey : list saction → string → Z → string + goerr;
  sv_CreateCertificate : list saction → string → string + goerr;
  sv_bcrypt : string → string + goerr;
  sv_sha1 : string → string;
  sv_sha256 : string → string;
  sv_sha512 : string → string;
  sv_ParseMessage : string → Message + goerr;
  sv_ParseDuration : string → option Z;
  sv_now : list saction → Z;
  sv_DateTime : Z → string;
  sv_clientCertAuth : bool;
  sv_hostname : string;
  sv_downstreams : Z;
  sv_upstreams : Z
}.

(** [database.ErrDuplicateDeviceCertificate] *)
Definition ErrDuplicateDeviceCertificate : goerr := Errorf "duplicate device certificate".

Abbreviation SM := (ST server).

Definition semit (a : saction) : SM unit := modify (λ s, set_srv_trace (srv_trace s ++ [a]) s).
Definition scall {A} (a : saction) (f : list saction → A) : SM A :=
  tr ← gets srv_trace; semit a ;; mret (f tr).
Definition print (text : string) : SM unit :=
  modify (λ s, set_srv_out (srv_out s ++ [text]) s) ;; semit (SPrint text).

Definition of_sum {A} (x : A + goerr) : SM A := match x with inl a => mret a | inr e => fail e end.

(** A method of the user [name]; what it does is part of what the server does. *)
Definition on_user {A} (name : string) (m : UM A) : SM A := λ sv,
  match srv_users sv !! name with
  | Some s =>
    let '(s', r) := m s in
    let done := SUser name <$> drop (length (us_trace s)) (us_trace s') in
    (set_srv_trace (srv_trace sv ++ done) (set_srv_users (<[name := s']> (srv_users sv)) sv), r)
  | None => (sv, Panic "invalid memory address or nil pointer dereference")
  end.

(** [ctx.user] where the code uses it without a check. *)
Definition ctx_user (ctx : serviceContext) : SM string :=
  match sc_user ctx with Some name => mret name | None => panic "invalid memory address or nil pointer dereference" end.

(** ** The commands *)

Inductive handler :=
| HHelp | HNetworkCreate | HNetworkStatus | HNetworkUpdate | HNetworkDelete | HNetworkQuote
| HCertFPGenerate | HCertFPFingerprints | HSASLStatus | HSASLSetPlain | HSASLReset
| HUserStatus | HUserCreate | HUserUpdate | HUserDelete | HUserRun
| HChannelStatus | HChannelCreate | HChannelUpdate | HChannelDelete
| HDeviceCertificateStatus | HDeviceCertificateCreate | HDeviceCertificateDelete
| HServerStatus | HServerNotice | HServerDebug.

Inductive serviceCommand :=
| Cmd (usage desc : string) (handle : option handler) (children : list (string * serviceCommand)) (admin global : bool).

Definition cmd_usage (c : serviceCommand) : string := let '(Cmd x _ _ _ _ _) := c in x.
Definition cmd_desc (c : serviceCommand) : string := let '(Cmd _ x _ _ _ _) := c in x.
Definition cmd_handle (c : serviceCommand) : option handler := let '(Cmd _ _ x _ _ _) := c in x.
Definition cmd_children (c : serviceCommand) : list (string * serviceCommand) := let '(Cmd _ _ _ x _ _) := c in x.
Definition cmd_admin (c : serviceCommand) : bool := let '(Cmd _ _ _ _ x _) := c in x.
Definition cmd_global (c : serviceCommand) : bool := let '(Cmd _ _ _ _ _ x) := c in x.

Definition leaf (name usage desc : string) (h : handler) (admin global : bool) : string * serviceCommand :=
  (name, Cmd usage desc (Some h) [] admin global).
Definition group (name : string) (children : list (string * serviceCommand)) (admin global : bool) : string * serviceCommand :=
  (name, Cmd "" "" None children admin global).

Definition network_usage : string := "[-name name] [-username username] [-pass pass] [-realname realname] [-certfp fingerprint] [-nick nick] [-auto-away auto-away] [-enabled enabled] [-ignore-limit ignore-limit] [-connect-command command]...".
Definition channel_usage : string := "<name> [-detached true|false] [-relay-detached default|none|highlight|message] [-reattach-on default|none|highlight|message] [-detach-after <duration>] [-detach-on default|none|highlight|message]".

Definition serviceCommands : list (string * serviceCommand) := [
  leaf "help" "[command]" "print help message" HHelp false true;
  group "network" [
    leaf "create" ("-addr <addr> " +:+ network_usage) "add a new network" HNetworkCreate false false;
    leaf "status" "" "show a list of saved networks and their current status" HNetworkStatus false false;
    leaf "update" ("[name] [-addr addr] " +:+ network_usage) "update a network" HNetworkUpdate false false;
    leaf "delete" "[name]" "delete a network" HNetworkDelete false false;
    leaf "quote" "[name] <command>" "send a raw line to a network" HNetworkQuote false false] false false;
  group "certfp" [
    leaf "generate" "[-key-type rsa|ecdsa|ed25519] [-bits N] [-network name]"
      "generate a new self-signed certificate, defaults to using RSA-3072 key" HCertFPGenerate false false;
    leaf "fingerprint" "[-network name]" "show fingerprints of certificate" HCertFPFingerprints false false] false false;
  group "sasl" [
    leaf "status" "[-network name]" "show SASL status" HSASLStatus false false;
    leaf "set-plain" "[-network name] <username> <password>" "set SASL PLAIN credentials" HSASLSetPlain false false;
    leaf "reset" "[-network name]" "disable SASL authentication and remove stored credentials" HSASLReset false false] false false;
  group "user" [
    leaf "status" "[username]" "show a list of users and their current status" HUserStatus true true;
    leaf "create" "-username <username> -password <password> [-disable-password] [-admin true|false] [-nick <nick>] [-realname <realname>] [-enabled true|false]  [-max-networks <max-networks>]"
      "create a new soju user" HUserCreate true true;
    leaf "update" "[username] [-password <password>] [-disable-password] [-admin true|false] [-nick <nick>] [-realname <realname>] [-enabled true|false] [-max-networks <max-networks>]"
      "update a user" HUserUpdate false true;
    leaf "delete" "<username> [confirmation token]" "delete a user" HUserDelete false true;
    leaf "run" "<username> <command>" "run a command as another user" HUserRun true true] false true;
  group "channel" [
    leaf "status" "[-network name]" "show a list of saved channels and their current status" HChannelStatus false false;
    leaf "create" channel_usage "create a channel" HChannelCreate false false;
    leaf "update" channel_usage "update a channel" HChannelUpdate false false;
    leaf "delete" "<name>" "delete a channel" HChannelDelete false false] false false;
  group "device-certificate" [
    leaf "status" "" "show a list of device certificates" HDeviceCertificateStatus false false;
    leaf "create" "-fingerprint <fingerprint> -label <label>" "create a new device certificate" HDeviceCertificateCreate false false;
    leaf "delete" "<fingerprint>" "delete a device certificate" HDeviceCertificateDelete false false] false false;
  group "server" [
    leaf "status" "" "show server statistics" HServerStatus true true;
    leaf "notice" "<notice>" "broadcast a notice to all connected bouncer users" HServerNotice true true;
    leaf "debug" "true|false" "enable/disable debug logging to stderr (will leak sensitive information)" HServerDebug true true] true false].

(** The command called [name], or the only one it abbreviates. *)
Definition lookupCommand (cmds : list (string * serviceCommand)) (name : string) : res goerr serviceCommand :=
  match List.find (λ kc, bool_decide (kc.1 = name)) cmds with
  | Some (_, c) => Ok c
  | None =>
    match List.filter (λ kc, HasPrefix kc.1 name) cmds with
    | [] => Err (Errorf "command %q not found")
    | [(_, c)] => Ok c
    | _ => Err (Errorf "command %q is ambiguous")
    end
  end.

(** [serviceCommandSet.Get] *)
Fixpoint Get (cmds : list (string * serviceCommand)) (params : list string) : res goerr (serviceCommand * list string) :=
  match params with
  | [] => Err (Errorf "no command specified")
  | name :: params =>
    match lookupCommand cmds name with
    | Ok cmd =>
      match params, cmd_children cmd with
      | [], _ | _, [] => Ok (cmd, params)
      | _, children => Get children params
      end
    | Err e => Err e
    | Panic w => Panic w
    end
  end.

(** [serviceCommandSet.Names] orders the names. *)
Definition by_name (a b : string * serviceCommand) : Prop := str_le a.1 b.1.
#[global] Instance by_name_dec a b : Decision (by_name a b).
Proof. unfold by_name. apply _. Defined.

(** [appendServiceCommandSetHelp]; the commands are two levels deep. *)
Fixpoint appendHelp (depth : nat) (cmds : list (string * serviceCommand)) (prefix : list string) (admin global : bool) : list string :=
  match depth with
  | O => []
  | S depth =>
    flat_map (λ '(name, cmd),
      if cmd_admin cmd && negb admin then []
      else if negb (cmd_global cmd) && global then []
      else
        let words := prefix ++ [name] in
        match cmd_children cmd with
        | [] => [Join words " "]
        | children => appendHelp depth children words admin global
        end) (merge_sort by_name cmds)
  end.
Definition helpDepth : nat := 3.

(** [handleServiceHelp] *)
Definition print_available (cmds : list (string * serviceCommand)) (prefix : list string) (ctx : serviceContext) : SM unit :=
  print ("available commands: " +:+
         Join (appendHelp helpDepth cmds prefix (sc_admin ctx) (bool_decide (sc_user ctx = None))) ", ").

Definition handleServiceHelp (ctx : serviceContext) (params : list string) : SM unit :=
  match params with
  | [] => print_available serviceCommands [] ctx
  | _ =>
    '(cmd, rest) ← lift (Get serviceCommands params);
    let words := take (length params - length rest) params in
    match cmd_children cmd with
    | [] =>
      let text := Join words " " in
      let text := if decide (cmd_usage cmd ≠ "") then text +:+ " " +:+ cmd_usage cmd else text in
      print (text +:+ ": " +:+ cmd_desc cmd)
    | children => print_available children words ctx
    end
  end.

Definition popArg (params : list string) : string * list string :=
  match params with
  | p :: rest => if negb (HasPrefix p "-") then (p, rest) else ("", params)
  | [] => ("", [])
  end.

(** No argument may be left after the flags. *)
Definition parse_flags {S} (fs : list (flagDef S)) (params : list string) (s : S) : SM S :=
  '(s, rest) ← lift (Parse fs params s);
  match rest with [] => mret s | _ => fail (Errorf "unexpected argument: %v") end.

Section handlers.
Context `{UE : uenv} `{SV : svenv} `{UnicodeTables} (E : string → env).

(** A method of the network at [p] of a user. *)
Definition on_net {A} (user : string) (p : nat) (m : env → M A) : SM A :=
  on_user user (on_network (E:=E user) p m).

(** The network a command is about, by name or by default. *)
Definition select_network (ctx : serviceContext) (user name missing : string) : SM nat :=
  if decide (name = "") then
    match sc_network ctx with Some p => mret p | None => fail (Errorf missing) end
  else
    o ← on_user user (gets (λ s, getNetwork s name));
    match o with Some p => mret p | None => fail (Errorf "unknown network %q") end.

Definition getNetworkFromArg (ctx : serviceContext) (user : string) (params : list string) : SM (nat * list string) :=
  let '(name, params) := popArg params in
  p ← select_network ctx user name "no network selected, a name argument is required";
  mret (p, params).

Definition getNetworkFromFlag (ctx : serviceContext) (user name : string) : SM nat :=
  select_network ctx user name "no network selected, -network is required".

(** ** Networks *)

Record networkFlags := MkNetworkFlags {
  nfAddr : option string; nfName : option string; nfNick : option string; nfUsername : option string;
  nfPass : option string; nfRealname : option string; nfCertFP : option string;
  nfAutoAway : option bool; nfEnabled : option bool; nfIgnoreLimit : bool; nfConnectCommands : list string
}.
Definition eta_nf (x : networkFlags) : networkFlags :=
  MkNetworkFlags (nfAddr x) (nfName x) (nfNick x) (nfUsername x) (nfPass x) (nfRealname x) (nfCertFP x)
    (nfAutoAway x) (nfEnabled x) (nfIgnoreLimit x) (nfConnectCommands x).
Definition noNetworkFlags : networkFlags := MkNetworkFlags None None None None None None None None None false [].

Definition newNetworkFlagSet : list (flagDef networkFlags) := [
  stringPtrFlag "addr" ltac:(setter eta_nf nfAddr);
  stringPtrFlag "name" ltac:(setter eta_nf nfName);
  stringPtrFlag "nick" ltac:(setter eta_nf nfNick);
  stringPtrFlag "username" ltac:(setter eta_nf nfUsername);
  stringPtrFlag "pass" ltac:(setter eta_nf nfPass);
  stringPtrFlag "realname" ltac:(setter eta_nf nfRealname);
  stringPtrFlag "certfp" ltac:(setter eta_nf nfCertFP);
  boolPtrFlag "auto-away" ltac:(setter eta_nf nfAutoAway);
  boolPtrFlag "enabled" ltac:(setter eta_nf nfEnabled);
  boolFlag "ignore-limit" ltac:(setter eta_nf nfIgnoreLimit);
  stringSliceFlag "connect-command" (λ v x, ltac:(setter eta_nf nfConnectCommands) (nfConnectCommands x ++ [v]) x)].

(** The fingerprint of a server certificate, normalised. *)
Definition certFP_value (v : string) : res goerr string :=
  let certFP := ToLower (Replacer [(":", "")] v) in
  match hex_decode certFP with
  | None => Err (Errorf "the certificate fingerprint must be hex-encoded")
  | Some _ =>
    if (slen certFP =? 0)%nat then Ok ""
    else if (slen certFP =? 64)%nat then Ok ("sha-256:" +:+ certFP)
    else if (slen certFP =? 128)%nat then Ok ("sha-512:" +:+ certFP)
    else Err (Errorf "the certificate fingerprint must be a SHA256 or SHA512 hash")
  end.

Definition addr_scheme_ok (addr : string) : bool :=
  match SplitN addr "://" 2 with
  | [scheme; _] => bool_decide (scheme ∈ ["ircs"; "irc+insecure"; "unix"])
  | _ => true
  end.

Definition connectCommands_value (cmds old : list string) : res goerr (list string) :=
  match cmds with
  | [] => Ok old
  | [""] => Ok []
  | _ =>
    if (20 <? length cmds)%nat then Err (Errorf "too many -connect-command flags supplied")
    else if forallb (λ c, match sv_ParseMessage c with inl _ => true | inr _ => false end) cmds then Ok cmds
    else Err (Errorf "flag -connect-command must be a valid raw irc command string: %q: %v")
  end.

(** [networkFlagSet.update], on a copy of the record. *)
Definition networkFlags_update (fs : networkFlags) (n : dbNetwork) : res goerr dbNetwork :=
  _ ← (if match nfAddr fs with Some a => negb (addr_scheme_ok a) | None => false end
       then Err (Errorf "unknown scheme %q (supported schemes: ircs, irc+insecure, unix)") else Ok tt);
  _ ← (if bool_decide (nfName fs = Some "*") then Err (Errorf "the network name %q is reserved") else Ok tt);
  certFP ← match nfCertFP fs with Some v => certFP_value v | None => Ok (nCertFP n) end;
  cmds ← connectCommands_value (nfConnectCommands fs) (nConnectCommands n);
  Ok (MkNetwork (nID n) (default (nName n) (nfName fs)) (default (nAddr n) (nfAddr fs)) (default (nNick n) (nfNick fs))
        (default (nUsername n) (nfUsername fs)) (default (nRealname n) (nfRealname fs)) (default (nPass n) (nfPass fs))
        cmds certFP (nSASL n) (default (nAutoAway n) (nfAutoAway fs)) (default (nEnabled n) (nfEnabled fs))).

(** The error of a method, with a text before it. *)
Definition wrap_err {A} (text : string) (m : SM A) : SM A :=
  o ← try m; match o with inl a => mret a | inr _ => fail (Errorf text) end.

Definition check_ignore_limit (ctx : serviceContext) (fs : networkFlags) : SM unit :=
  when (nfIgnoreLimit fs && negb (sc_admin ctx)) (fail (Errorf "you must be an admin to use the flag -ignore-limit")).

Definition handleServiceNetworkCreate (ctx : serviceContext) (params : list string) : SM unit :=
  fs ← parse_flags newNetworkFlagSet params noNetworkFlags;
  match nfAddr fs with
  | None => fail (Errorf "flag -addr is required")
  | Some addr =>
    check_ignore_limit ctx fs ;;
    record ← lift (networkFlags_update fs (NewNetwork addr));
    user ← ctx_user ctx;
    p ← wrap_err "could not create network: %v"
          (on_user user (createNetwork record (negb (nfIgnoreLimit fs))));
    name ← on_user user (gets (λ s, GetName (rec_at s p)));
    print ("created network " +:+ Quote name)
  end.

(** The line of a network in [network status]. *)
Definition network_status_line (ctx : serviceContext) (p : nat) (n : ustate) : string :=
  let r := net_record n in
  let '(status, details) :=
    if net_connected n then
      (if bool_decide (sc_nick ctx ≠ "") && bool_decide (sc_nick ctx ≠ nick n) then "connected as " +:+ nick n else "connected",
       FormatInt (Z.of_nat (CMM.Len (channels n))) +:+ " channels")
    else if negb (nEnabled r) then ("disabled", "")
    else ("disconnected", default "" (net_lastError n)) in
  let statuses := status :: (if decide (sc_network ctx = Some p) then ["current"] else []) in
  let name := if decide (GetName r ≠ nAddr r) then GetName r +:+ " (" +:+ nAddr r +:+ ")" else GetName r in
  let line := name +:+ " [" +:+ Join statuses ", " +:+ "]" in
  if decide (details ≠ "") then line +:+ ": " +:+ details else line.

Definition handleServiceNetworkStatus (ctx : serviceContext) (params : list string) : SM unit :=
  match params with
  | _ :: _ => fail (Errorf "expected no argument")
  | [] =>
    user ← ctx_user ctx;
    s ← on_user user (gets id);
    foreach (λ p, print (network_status_line ctx p (net_at s p))) (us_networks s) ;;
    when (bool_decide (us_networks s = []))
      (print ("No network configured, add one with " +:+ dquote +:+ "network create" +:+ dquote +:+ "."))
  end.

Definition handleServiceNetworkUpdate (ctx : serviceContext) (params : list string) : SM unit :=
  user ← ctx_user ctx;
  '(p, params) ← getNetworkFromArg ctx user params;
  fs ← parse_flags newNetworkFlagSet params noNetworkFlags;
  check_ignore_limit ctx fs ;;
  s ← on_user user (gets id);
  let record := rec_at s p in
  let wasEnabled := nEnabled record in
  record ← lift (networkFlags_update fs record);
  q ← wrap_err "could not update network: %v"
        (on_user user (updateNetwork (E:=E user) record (negb (nfIgnoreLimit fs) && negb wasEnabled)));
  name ← on_user user (gets (λ s, GetName (rec_at s q)));
  print ("updated network " +:+ Quote name).

Definition handleServiceNetworkDelete (ctx : serviceContext) (params : list string) : SM unit :=
  match params with
  | [_] =>
    user ← ctx_user ctx;
    '(p, _) ← getNetworkFromArg ctx user params;
    record ← on_user user (gets (λ s, rec_at s p));
    on_user user (deleteNetwork (nID record)) ;;
    print ("deleted network " +:+ Quote (GetName record))
  | _ => fail (Errorf "expected exactly one argument")
  end.

Definition handleServiceNetworkQuote (ctx : serviceContext) (params : list string) : SM unit :=
  let quote (raw : string) (params : list string) : SM unit :=
    user ← ctx_user ctx;
    '(p, _) ← getNetworkFromArg ctx user params;
    n ← on_user user (gets (λ s, net_at s p));
    if negb (net_connected n) then fail (Errorf "network %q is not currently connected")
    else
      match sv_ParseMessage raw with
      | inr _ => fail (Errorf "failed to parse command %q: %v")
      | inl m =>
        on_net user p (λ _, SendMessage_uc m) ;;
        print ("sent command to " +:+ Quote (GetName (net_record n)))
      end in
  match params with
  | [raw] => quote raw []
  | [name; raw] => quote raw [name]
  | _ => fail (Errorf "expected one or two arguments")
  end.

(** ** Certificates and SASL *)

(** [generateCertFP] of certfp.go: the key of an unknown type is nil, which has no encoding. *)
Definition generateCertFP (keyType : string) (bits : Z) : SM (string * string) :=
  if decide (keyType ∈ ["rsa"; "ecdsa"; "ed25519"]) then
    key ← scall (SGenerateKey keyType bits) (λ tr, sv_GenerateKey tr keyType bits);
    privKey ← of_sum key;
    tr ← gets srv_trace;
    cert ← of_sum (sv_CreateCertificate tr privKey);
    mret (privKey, cert)
  else fail (Errorf "x509: unknown key type while marshaling PKCS#8: %T").

Definition sendCertfpFingerprints (cert : string) : SM unit :=
  print ("SHA-1 fingerprint: " +:+ hex_encode (sv_sha1 cert)) ;;
  print ("SHA-256 fingerprint: " +:+ hex_encode (sv_sha256 cert)) ;;
  print ("SHA-512 fingerprint: " +:+ hex_encode (sv_sha512 cert)).

Definition set_nSASL (sasl : SASL) (n : dbNetwork) : dbNetwork :=
  MkNetwork (nID n) (nName n) (nAddr n) (nNick n) (nUsername n) (nRealname n) (nPass n) (nConnectCommands n)
    (nCertFP n) sasl (nAutoAway n) (nEnabled n).

(** [net.SASL] is changed in place, then stored. *)
Definition change_sasl (user : string) (p : nat) (f : SASL → SASL) : SM unit :=
  on_net user p (λ _, modify (λ n, set_net_record (set_nSASL (f (nSASL (net_record n))) (net_record n)) n)) ;;
  r ← on_user user (
    s ← gets id;
    ucall (UStoreNetwork (rec_at s p)) (λ tr, ue_StoreNetwork tr (stored_ids s) (uID (us_record s)) (rec_at s p)));
  match r with inl _ => skip | inr e => fail e end.

Definition maxRSABits : Z := 8192.

Record certFlags := MkCertFlags { cfNetwork : string; cfKeyType : string; cfBits : Z }.

Definition handleServiceCertFPGenerate (ctx : serviceContext) (params : list string) : SM unit :=
  fs ← parse_flags [
      stringFlag "network" (λ v x, MkCertFlags v (cfKeyType x) (cfBits x));
      stringFlag "key-type" (λ v x, MkCertFlags (cfNetwork x) v (cfBits x));
      intFlag "bits" (λ v x, MkCertFlags (cfNetwork x) (cfKeyType x) v)] params (MkCertFlags "" "rsa" 3072);
  if (cfBits fs <=? 0) || (maxRSABits <? cfBits fs) then fail (Errorf "invalid value for -bits")
  else
    user ← ctx_user ctx;
    p ← getNetworkFromFlag ctx user (cfNetwork fs);
    '(privKey, cert) ← generateCertFP (cfKeyType fs) (cfBits fs);
    change_sasl user p (λ a, MkSASL "EXTERNAL" (PlainUsername a) (PlainPassword a) (Some cert) (Some privKey)) ;;
    print "certificate generated" ;;
    sendCertfpFingerprints cert.

(** The commands with a single [-network] flag. *)
Definition network_flag : list (flagDef string) := [stringFlag "network" (λ v _, v)].

Definition handleServiceCertFPFingerprints (ctx : serviceContext) (params : list string) : SM unit :=
  netName ← parse_flags network_flag params "";
  user ← ctx_user ctx;
  p ← getNetworkFromFlag ctx user netName;
  record ← on_user user (gets (λ s, rec_at s p));
  if decide (Mechanism (nSASL record) ≠ "EXTERNAL") then fail (Errorf "CertFP not set up")
  else sendCertfpFingerprints (default "" (CertBlob (nSASL record))).

Definition handleServiceSASLStatus (ctx : serviceContext) (params : list string) : SM unit :=
  netName ← parse_flags network_flag params "";
  user ← ctx_user ctx;
  p ← getNetworkFromFlag ctx user netName;
  n ← on_user user (gets (λ s, net_at s p));
  let sasl := nSASL (net_record n) in
  (if decide (Mechanism sasl = "PLAIN") then print ("SASL PLAIN enabled with username " +:+ Quote (PlainUsername sasl))
   else if decide (Mechanism sasl = "EXTERNAL") then print "SASL EXTERNAL (CertFP) enabled"
   else if decide (Mechanism sasl = "") then print "SASL is disabled"
   else skip) ;;
  if net_connected n then
    if decide (account n ≠ "") then print ("Authenticated on upstream network with account " +:+ Quote (account n))
    else print "Unauthenticated on upstream network"
  else print "Disconnected from upstream network".

Definition handleServiceSASLSetPlain (ctx : serviceContext) (params : list string) : SM unit :=
  '(netName, rest) ← lift (Parse network_flag params "");
  match rest with
  | [username; password] =>
    user ← ctx_user ctx;
    p ← getNetworkFromFlag ctx user netName;
    change_sasl user p (λ a, MkSASL "PLAIN" username password (CertBlob a) (PrivKeyBlob a)) ;;
    print "credentials saved"
  | _ => fail (Errorf "expected exactly 2 arguments")
  end.

Definition handleServiceSASLReset (ctx : serviceContext) (params : list string) : SM unit :=
  netName ← parse_flags network_flag params "";
  user ← ctx_user ctx;
  p ← getNetworkFromFlag ctx user netName;
  change_sasl user p (λ _, emptySASL) ;;
  print "credentials reset".

(** ** Users *)

Definition user_status_line (user : dbUser) (networks : Z) : string :=
  let attrs := (if uAdmin user then ["admin"] else []) ++ (if negb (uEnabled user) then ["disabled"] else []) in
  let line := match attrs with [] => uUsername user | _ => uUsername user +:+ " (" +:+ Join attrs ", " +:+ ")" end in
  let line := line +:+ ": " +:+ FormatInt networks +:+ " networks" in
  if 0 <=? uMaxNetworks user then line +:+ " (" +:+ FormatInt (uMaxNetworks user) +:+ " max)" else line.

Definition print_users (users : list dbUser) (n : Z) : SM unit :=
  foreach (λ user,
    r ← scall (SListNetworks (uID user)) (λ tr, sv_ListNetworks tr (uID user));
    match r with
    | inr _ => fail (Errorf "could not get networks of user %q: %v")
    | inl networks => print (user_status_line user (Z.of_nat (length networks)))
    end) users ;;
  let shown := Z.of_nat (length users) in
  when (shown <? n) (print ("(" +:+ FormatInt (n - shown) +:+ " more users omitted)")).

(** [handleUserStatus]: at most 50 users, in the order of the map. *)
Definition handleUserStatus (ctx : serviceContext) (params : list string) : SM unit :=
  users ← gets srv_users;
  match params with
  | [] => print_users (take 50 ((us_record ∘ snd) <$> map_to_list users)) (Z.of_nat (size users))
  | [username] =>
    match users !! username with
    | None => fail (Errorf "unknown username %q")
    | Some u => print_users [us_record u] 1
    end
  | _ => fail (Errorf "expected 0 or 1 argument")
  end.

Definition SetPassword (password : string) : SM string :=
  match sv_bcrypt password with inl h => mret h | inr _ => fail (Errorf "failed to hash password: %v") end.

(** The state of a user that has just been created: no network. *)
Definition newUserState (record : dbUser) : userState := MkUserState record [] ∅ 0 [] [].

Definition set_uID (id : Z) (u : dbUser) : dbUser :=
  MkUser id (uUsername u) (uPassword u) (uNick u) (uRealname u) (uAdmin u) (uEnabled u) (uDownstreamInteractedAt u) (uMaxNetworks u).

(** [Server.createUser] *)
Definition createUser (user : dbUser) : SM unit :=
  users ← gets srv_users;
  match users !! uUsername user with
  | Some _ => fail (Errorf "user %q already exists")
  | None =>
    r ← scall (SStoreUser user) (λ tr, sv_StoreUser tr user);
    match r with
    | inr _ => fail (Errorf "could not create user in db: %v")
    | inl id => modify (λ sv, set_srv_users (<[uUsername user := newUserState (set_uID id user)]> (srv_users sv)) sv)
    end
  end.

Record userCreateFlags := MkUserCreate {
  ucUsername : string; ucPassword : string; ucDisablePassword : bool; ucNick : string; ucRealname : string;
  ucAdmin : bool; ucEnabled : bool; ucMaxNetworks : Z
}.
Definition eta_uc (x : userCreateFlags) : userCreateFlags :=
  MkUserCreate (ucUsername x) (ucPassword x) (ucDisablePassword x) (ucNick x) (ucRealname x) (ucAdmin x) (ucEnabled x) (ucMaxNetworks x).

Definition userCreateFlagSet : list (flagDef userCreateFlags) := [
  stringFlag "username" ltac:(setter eta_uc ucUsername);
  stringFlag "password" ltac:(setter eta_uc ucPassword);
  boolFlag "disable-password" ltac:(setter eta_uc ucDisablePassword);
  stringFlag "nick" ltac:(setter eta_uc ucNick);
  stringFlag "realname" ltac:(setter eta_uc ucRealname);
  boolFlag "admin" ltac:(setter eta_uc ucAdmin);
  boolFlag "enabled" ltac:(setter eta_uc ucEnabled);
  intFlag "max-networks" ltac:(setter eta_uc ucMaxNetworks)].

Definition handleUserCreate (ctx : serviceContext) (params : list string) : SM unit :=
  fs ← parse_flags userCreateFlagSet params (MkUserCreate "" "" false "" "" false true (-1));
  if decide (ucUsername fs = "") then fail (Errorf "flag -username is required")
  else if bool_decide (ucPassword fs ≠ "") && ucDisablePassword fs then
    fail (Errorf "flags -password and -disable-password are mutually exclusive")
  else if bool_decide (ucPassword fs = "") && negb (ucDisablePassword fs) then
    fail (Errorf "flag -password is required")
  else
    hashed ← (if ucDisablePassword fs then mret "" else SetPassword (ucPassword fs));
    wrap_err "could not create user: %v"
      (createUser (MkUser 0 (ucUsername fs) hashed (ucNick fs) (ucRealname fs) (ucAdmin fs) (ucEnabled fs) zeroTime (ucMaxNetworks fs))) ;;
    print ("created user " +:+ Quote (ucUsername fs)).

Record userUpdateFlags := MkUserUpdate {
  uuPassword : option string; uuDisablePassword : bool; uuNick : option string; uuRealname : option string;
  uuAdmin : option bool; uuEnabled : option bool; uuMaxNetworks : option Z
}.
Definition eta_uu (x : userUpdateFlags) : userUpdateFlags :=
  MkUserUpdate (uuPassword x) (uuDisablePassword x) (uuNick x) (uuRealname x) (uuAdmin x) (uuEnabled x) (uuMaxNetworks x).

Definition userUpdateFlagSet : list (flagDef userUpdateFlags) := [
  stringPtrFlag "password" ltac:(setter eta_uu uuPassword);
  boolFlag "disable-password" ltac:(setter eta_uu uuDisablePassword);
  stringPtrFlag "nick" ltac:(setter eta_uu uuNick);
  stringPtrFlag "realname" ltac:(setter eta_uu uuRealname);
  boolPtrFlag "admin" ltac:(setter eta_uu uuAdmin);
  boolPtrFlag "enabled" ltac:(setter eta_uu uuEnabled);
  intPtrFlag "max-networks" ltac:(setter eta_uu uuMaxNetworks)].

(** The handler of [eventUserUpdate]: a new password closes the connections. *)
Definition apply_user_update (hashed : option string) (fs : userUpdateFlags) `{E0 : env} : UM unit :=
  o ← try (updateUser (λ u, inl (MkUser (uID u) (uUsername u) (default (uPassword u) hashed) (uNick u) (uRealname u)
        (default (uAdmin u) (uuAdmin fs)) (default (uEnabled u) (uuEnabled fs)) (uDownstreamInteractedAt u)
        (default (uMaxNetworks u) (uuMaxNetworks fs)))));
  when (bool_decide (is_Some hashed)) (modify (λ s, set_us_downstreams (close_dn <$> us_downstreams s) s)) ;;
  match o with inl _ => skip | inr e => fail e end.

(** A request to the goroutine of [username], which answers unless it waits itself. *)
Definition request {A} (ctx : serviceContext) (username : string) (m : SM A) : SM A :=
  if decide (username ∈ sc_waiting ctx) then semit (SQueued username) ;; fail (Errorf "timeout executing command")
  else m.

Definition update_other_user (ctx : serviceContext) (username : string) (fs : userUpdateFlags) : SM unit :=
  if negb (sc_admin ctx) then fail (Errorf "you must be an admin to update other users")
  else if decide (uuNick fs ≠ None) then fail (Errorf "cannot update -nick of other user")
  else if decide (uuRealname fs ≠ None) then fail (Errorf "cannot update -realname of other user")
  else
    hashed ← match uuPassword fs with Some pw => h ← SetPassword pw; mret (Some h) | None => mret None end;
    let hashed := if uuDisablePassword fs then Some "" else hashed in
    users ← gets srv_users;
    match users !! username with
    | None => fail (Errorf "unknown username %q")
    | Some _ =>
      request ctx username (on_user username (apply_user_update hashed fs (E0:=E username))) ;;
      print ("updated user " +:+ Quote username)
    end.

(** The function given to [updateUser] for one's own account. *)
Definition own_update (fs : userUpdateFlags) (u : dbUser) : dbUser + goerr :=
  match match uuPassword fs with Some pw => sv_bcrypt pw | None => inl (uPassword u) end with
  | inr _ => inr (Errorf "failed to hash password: %v")
  | inl password =>
    inl (MkUser (uID u) (uUsername u) (if uuDisablePassword fs then "" else password) (default (uNick u) (uuNick fs))
      (default (uRealname u) (uuRealname fs)) (uAdmin u) (uEnabled u) (uDownstreamInteractedAt u)
      (default (uMaxNetworks u) (uuMaxNetworks fs)))
  end.

Definition update_own_user (ctx : serviceContext) (fs : userUpdateFlags) : SM unit :=
  if decide (uuAdmin fs ≠ None) then fail (Errorf "cannot update -admin of own user")
  else if decide (uuEnabled fs ≠ None) then fail (Errorf "cannot update -enabled of own user")
  else if bool_decide (uuMaxNetworks fs ≠ None) && negb (sc_admin ctx) then
    fail (Errorf "cannot update -max-networks of own user")
  else
    user ← ctx_user ctx;
    on_user user (updateUser (E:=E user) (own_update fs)) ;;
    print ("updated user " +:+ Quote user).

Definition handleUserUpdate (ctx : serviceContext) (params : list string) : SM unit :=
  let '(username, params) := popArg params in
  fs ← parse_flags userUpdateFlagSet params (MkUserUpdate None false None None None None None);
  if bool_decide (username = "") && bool_decide (sc_user ctx = None) then
    fail (Errorf "cannot determine the user to update")
  else if bool_decide (uuPassword fs ≠ None) && uuDisablePassword fs then
    fail (Errorf "flags -password and -disable-password are mutually exclusive")
  else if bool_decide (username ≠ "") && bool_decide (sc_user ctx ≠ Some username)
  then update_other_user ctx username fs
  else update_own_user ctx fs.

(** [user.stop] and what follows it: the goroutine of the user ends and the server forgets
    it. A goroutine that waits for its own end, or for one that waits for it, never
    returns. *)
Definition stop_user (ctx : serviceContext) (username : string) : SM unit :=
  if decide (username ∈ sc_waiting ctx) then semit (SBlocked username) ;; panic "blocked"
  else
    semit (SStop username) ;;
    modify (λ sv, set_srv_users (delete username (srv_users sv)) sv).

(** The confirmation token: three bytes of a hash of the name. *)
Definition delete_token (username : string) : string := hex_encode (str_take 3 (sv_sha1 username)).

(** The two steps of [handleUserDelete]: the token is announced, then required. *)
Definition delete_user (ctx : serviceContext) (username : string) (token : option string) : SM unit :=
  let self := bool_decide (sc_user ctx = Some username) in
  if negb (sc_admin ctx) && negb self then fail (Errorf "only admins may delete other users")
  else
    users ← gets srv_users;
    match users !! username, token with
    | None, _ => fail (Errorf "unknown username %q")
    | Some u, Some token =>
      if decide (token ≠ delete_token username) then fail (Errorf "provided confirmation token doesn't match user")
      else
        when self (print ("Goodbye " +:+ username +:+ ", deleting your account. There will be no further confirmation.")) ;;
        stop_user ctx username ;;
        err ← scall (SDeleteUser (uID (us_record u))) (λ tr, sv_DeleteUser tr (uID (us_record u)));
        match err with
        | Some _ => fail (Errorf "failed to delete user: %v")
        | None => when (negb self) (print ("deleted user " +:+ Quote username))
        end
    | Some _, None =>
      print ("To confirm user deletion, send " +:+ dquote +:+ "user delete " +:+ username +:+ " " +:+ delete_token username +:+ dquote)
    end.

Definition handleUserDelete (ctx : serviceContext) (params : list string) : SM unit :=
  match params with
  | [username] => delete_user ctx username None
  | [username; token] => delete_user ctx username (Some token)
  | _ => fail (Errorf "expected one or two arguments")
  end.

(** [handleUserRun]; [run] is [handleServiceCommand]. The command runs with the rights of an
    administrator in the goroutine of the user. *)
Definition handleUserRun (run : serviceContext → list string → SM unit) (ctx : serviceContext) (params : list string) : SM unit :=
  match params with
  | username :: ((_ :: _) as params) =>
    if decide (sc_user ctx = Some username) then run ctx params
    else
      users ← gets srv_users;
      match users !! username with
      | None => fail (Errorf "unknown username %q")
      | Some _ =>
        request ctx username
          (run (MkContext "" None (Some username) None true (username :: sc_waiting ctx)) params)
      end
  | _ => fail (Errorf "expected at least two arguments")
  end.

(** ** Channels *)

Definition parseFilter (filter : string) : res goerr MessageFilter :=
  if decide (filter = "default") then Ok FilterDefault
  else if decide (filter = "none") then Ok FilterNone
  else if decide (filter = "highlight") then Ok FilterHighlight
  else if decide (filter = "message") then Ok FilterMessage
  else Err (Errorf "unknown filter: %q").

Record channelFlags := MkChannelFlags {
  chfDetached : option bool; chfRelayDetached : option string; chfReattachOn : option string;
  chfDetachAfter : option string; chfDetachOn : option string
}.
Definition eta_chf (x : channelFlags) : channelFlags :=
  MkChannelFlags (chfDetached x) (chfRelayDetached x) (chfReattachOn x) (chfDetachAfter x) (chfDetachOn x).

Definition newChannelFlagSet : list (flagDef channelFlags) := [
  boolPtrFlag "detached" ltac:(setter eta_chf chfDetached);
  stringPtrFlag "relay-detached" ltac:(setter eta_chf chfRelayDetached);
  stringPtrFlag "reattach-on" ltac:(setter eta_chf chfReattachOn);
  stringPtrFlag "detach-after" ltac:(setter eta_chf chfDetachAfter);
  stringPtrFlag "detach-on" ltac:(setter eta_chf chfDetachOn)].

Definition set_cRelayDetached (v : MessageFilter) (c : dbChannel) : dbChannel :=
  MkChannel (cID c) (cName c) (cKey c) (cDetached c) (cDetachedInternalMsgID c) v (cReattachOn c) (cDetachAfter c) (cDetachOn c).
Definition set_cReattachOn (v : MessageFilter) (c : dbChannel) : dbChannel :=
  MkChannel (cID c) (cName c) (cKey c) (cDetached c) (cDetachedInternalMsgID c) (cRelayDetached c) v (cDetachAfter c) (cDetachOn c).
Definition set_cDetachAfter (v : Z) (c : dbChannel) : dbChannel :=
  MkChannel (cID c) (cName c) (cKey c) (cDetached c) (cDetachedInternalMsgID c) (cRelayDetached c) (cReattachOn c) v (cDetachOn c).
Definition set_cDetachOn (v : MessageFilter) (c : dbChannel) : dbChannel :=
  MkChannel (cID c) (cName c) (cKey c) (cDetached c) (cDetachedInternalMsgID c) (cRelayDetached c) (cReattachOn c) (cDetachAfter c) v.
Definition set_cID (v : Z) (c : dbChannel) : dbChannel :=
  MkChannel v (cName c) (cKey c) (cDetached c) (cDetachedInternalMsgID c) (cRelayDetached c) (cReattachOn c) (cDetachAfter c) (cDetachOn c).

(** A field that may be set: the channel after it, and the error that stops the update. *)
Definition set_field {V} (parse : string → res goerr V) (set : V → dbChannel → dbChannel) (v : option string)
    (x : dbChannel * option goerr) : dbChannel * option goerr :=
  match x, v with
  | (ch, None), Some v => match parse v with Ok a => (set a ch, None) | Err e => (ch, Some e) | Panic _ => x end
  | _, _ => x
  end.

Definition parse_detach_after (v : string) : res goerr Z :=
  match sv_ParseDuration v with
  | Some d => if d <? 0 then Err (Errorf "unknown duration for -detach-after %q (duration format: 0, 300s, 22h30m, ...)") else Ok d
  | None => Err (Errorf "unknown duration for -detach-after %q (duration format: 0, 300s, 22h30m, ...)")
  end.

(** [channelFlagSet.update] changes the channel in place: an error leaves the fields before
    it changed. *)
Definition channelFlags_update (fs : channelFlags) (ch : dbChannel) : dbChannel * option goerr :=
  set_field parseFilter set_cDetachOn (chfDetachOn fs)
    (set_field parse_detach_after set_cDetachAfter (chfDetachAfter fs)
      (set_field parseFilter set_cReattachOn (chfReattachOn fs)
        (set_field parseFilter set_cRelayDetached (chfRelayDetached fs) (ch, None)))).

Definition stripNetworkSuffix (ctx : serviceContext) (user name : string) : SM (string * nat) :=
  match sc_network ctx with
  | Some p => mret (name, p)
  | None =>
    match SplitN name "/" 2 with
    | [name; netName] =>
      s ← on_user user (gets id);
      match List.find (λ p, bool_decide (netName = GetName (rec_at s p))) (us_networks s) with
      | Some p => mret (name, p)
      | None => fail (Errorf "unknown network %q")
      end
    | _ => fail (Errorf "missing network name")
    end
  end.

Definition channel_status_line (all : bool) (n : ustate) (ch : dbChannel) : string :=
  let name := if all then cName ch +:+ "/" +:+ GetName (net_record n) else cName ch in
  let status :=
    if net_connected n then if CMM.Has (channels n) (cName ch) then "joined" else "parted" else "disconnected" in
  let status := if cDetached ch then status +:+ ", detached" else status in
  name +:+ " [" +:+ status +:+ "]".

Definition by_channel_name (a b : dbChannel) : Prop :=
  str_le (Replacer [("#", "")] (cName a)) (Replacer [("#", "")] (cName b)).
#[global] Instance by_channel_name_dec a b : Decision (by_channel_name a b).
Proof. unfold by_channel_name. apply _. Defined.

(** The lines of a network in [channel status]. *)
Definition channel_lines (all : bool) (n : ustate) : list string :=
  channel_status_line all n <$> merge_sort by_channel_name (value <$> CMM.Entries (net_channels n)).

Definition handleServiceChannelStatus (ctx : serviceContext) (params : list string) : SM unit :=
  user ← ctx_user ctx;
  s ← on_user user (gets id);
  let defaultName := match sc_network ctx with Some p => GetName (rec_at s p) | None => "" end in
  networkName ← parse_flags network_flag params defaultName;
  lines ← (if decide (networkName = "") then mret (flat_map (λ p, channel_lines true (net_at s p)) (us_networks s))
           else match getNetwork s networkName with
           | None => fail (Errorf "unknown network %q")
           | Some p => mret (channel_lines false (net_at s p))
           end);
  foreach print lines ;;
  when (bool_decide (lines = [])) (print "No channel configured.").

Definition illegalChanChars : string := " ," +:+ String (ascii_of_nat 7) "".

Definition parse_channel_args (params : list string) : SM (string * channelFlags) :=
  match params with
  | [] => fail (Errorf "expected at least one argument")
  | name :: params =>
    fs ← parse_flags newChannelFlagSet params (MkChannelFlags None None None None None);
    mret (name, fs)
  end.

Definition handleServiceChannelCreate (ctx : serviceContext) (params : list string) : SM unit :=
  '(name, fs) ← parse_channel_args params;
  user ← ctx_user ctx;
  '(name, p) ← stripNetworkSuffix ctx user name;
  n ← on_user user (gets (λ s, net_at s p));
  if bool_decide (name = "") || ContainsAny name illegalChanChars then fail (Errorf "invalid channel name: %v")
  else if net_connected n && negb (isChannel n name) then fail (Errorf "not a channel name: %v")
  else if CMM.Has (net_channels n) name then fail (Errorf "channel %q already exists")
  else
    match channelFlags_update fs (MkChannel 0 name "" false "" FilterDefault FilterDefault 0 FilterDefault) with
    | (_, Some e) => fail e
    | (ch, None) =>
      on_net user p (λ _, put_net_channel ch) ;;
      r ← scall (SStoreChannel (nID (net_record n)) ch) (λ tr, sv_StoreChannel tr (nID (net_record n)) ch);
      match r with
      | inr _ => fail (Errorf "failed to create channel: %v")
      | inl id =>
        on_net user p (λ _, put_net_channel (set_cID id ch)) ;;
        when (net_connected n) (on_net user p (λ _, SendMessage_uc (msg "JOIN" [cName ch]))) ;;
        print ("created channel " +:+ Quote name)
      end
    end.

Definition handleServiceChannelUpdate (ctx : serviceContext) (params : list string) : SM unit :=
  '(name, fs) ← parse_channel_args params;
  user ← ctx_user ctx;
  '(name, p) ← stripNetworkSuffix ctx user name;
  n ← on_user user (gets (λ s, net_at s p));
  match CMM.Get (net_channels n) name with
  | None => fail (Errorf "unknown channel %q")
  | Some ch =>
    let '(ch, err) := channelFlags_update fs ch in
    on_net user p (λ _, put_net_channel ch) ;;
    match err with
    | Some e => fail e
    | None =>
      match chfDetached fs with
      | Some detached =>
        if Bool.eqb detached (cDetached ch) then skip
        else on_net user p (λ E, if detached then net_detach (E:=E) ch else net_attach (E:=E) ch)
      | None => skip
      end ;;
      n ← on_user user (gets (λ s, net_at s p));
      when (net_connected n) (on_net user p (λ _, updateChannelAutoDetach name)) ;;
      let ch := default ch (CMM.Get (net_channels n) name) in
      r ← scall (SStoreChannel (nID (net_record n)) ch) (λ tr, sv_StoreChannel tr (nID (net_record n)) ch);
      match r with
      | inr _ => fail (Errorf "failed to update channel: %v")
      | inl _ => print ("updated channel " +:+ Quote name)
      end
    end
  end.

(** [uch.updateAutoDetach(0)], for a channel that is joined *)
Definition stop_autoDetach (name : string) : M unit :=
  uch ← gets (λ n, CMM.Get (channels n) name);
  match uch with
  | Some uch => put_channel name (updateAutoDetach 0 uch)
  | None => skip
  end.

(** [network.deleteChannel] *)
Definition deleteChannel (user : string) (p : nat) (name : string) : SM unit :=
  n ← on_user user (gets (λ s, net_at s p));
  match CMM.Get (net_channels n) name with
  | None => fail (Errorf "unknown channel %q")
  | Some ch =>
    when (net_connected n) (on_net user p (λ _, stop_autoDetach (cName ch))) ;;
    err ← scall (SDeleteChannel (cID ch)) (λ tr, sv_DeleteChannel tr (cID ch));
    match err with
    | Some e => fail e
    | None => on_net user p (λ _, modify (λ n, set_net_channels (CMM.Del (net_channels n) name) n))
    end
  end.

Definition handleServiceChannelDelete (ctx : serviceContext) (params : list string) : SM unit :=
  match params with
  | [name] =>
    user ← ctx_user ctx;
    '(name, p) ← stripNetworkSuffix ctx user name;
    wrap_err "failed to delete channel: %v" (deleteChannel user p name) ;;
    n ← on_user user (gets (λ s, net_at s p));
    when (net_connected n && CMM.Has (channels n) name)
      (on_net user p (λ _, SendMessage_uc (msg "PART" [name]))) ;;
    print ("deleted channel " +:+ Quote name)
  | _ => fail (Errorf "expected exactly one argument")
  end.

(** ** Device certificates *)

Definition deviceCertificateDisplayBytes : nat := 6.

(** Colons between the bytes of an upper-case hash. *)
Fixpoint colons (s : string) : string :=
  match s with
  | String a (String b ((String _ _) as rest)) => String a (String b (":" +:+ colons rest))
  | _ => s
  end.
Definition show_fingerprint (bytes : string) : string := colons (ToUpper (hex_encode bytes)).

Definition user_id (user : string) : SM Z := on_user user (gets (λ s, uID (us_record s))).

Definition handleServiceDeviceCertificateStatus (ctx : serviceContext) (params : list string) : SM unit :=
  match params with
  | _ :: _ => fail (Errorf "expected no argument")
  | [] =>
    user ← ctx_user ctx;
    uid ← user_id user;
    r ← scall (SListDeviceCertificates uid) (λ tr, sv_ListDeviceCertificates tr uid);
    match r with
    | inr _ => fail (Errorf "could not get device certificates: %v")
    | inl [] => print "No device certificate configured."
    | inl certs =>
      foreach (λ cert,
        if (slen (devFingerprint cert) <? deviceCertificateDisplayBytes)%nat then panic "slice bounds out of range"
        else print (show_fingerprint (str_take deviceCertificateDisplayBytes (devFingerprint cert)) +:+ " [" +:+
               devLastIP cert +:+ "] [" +:+ devLabel cert +:+ "] [" +:+ sv_DateTime (devLastUsed cert) +:+ "]")) certs
    end
  end.

Definition deviceCertificateFlagSet : list (flagDef (string * string)) := [
  stringFlag "fingerprint" (λ v x, (v, x.2));
  stringFlag "label" (λ v x, (x.1, v))].

(** The fingerprint given, or the one of the connection. *)
Definition chosen_fingerprint (ctx : serviceContext) (fingerprint : string) : string :=
  if decide (fingerprint ≠ "") then fingerprint
  else match sc_dc ctx with
  | Some dc => match peer_cert dc with Some raw => show_fingerprint (sv_sha512 raw) | None => "" end
  | None => ""
  end.

Definition sha512_Size : nat := 64.

Definition handleServiceDeviceCertificateCreate (ctx : serviceContext) (params : list string) : SM unit :=
  if negb sv_clientCertAuth then fail (Errorf "client certification authentication is disabled")
  else
    '(fingerprint, label) ← parse_flags deviceCertificateFlagSet params ("", "");
    let fingerprint := chosen_fingerprint ctx fingerprint in
    if decide (fingerprint = "") then fail (Errorf "flag -fingerprint is required when no TLS client certificate is used")
    else if decide (label = "") then fail (Errorf "flag -label is required")
    else
      match hex_decode (Replacer [(":", "")] fingerprint) with
      | Some h =>
        if negb (slen h =? sha512_Size)%nat then fail (Errorf "the certificate fingerprint must be hex-encoded SHA-512")
        else
          user ← ctx_user ctx;
          uid ← user_id user;
          tr ← gets srv_trace;
          let cert := MkDevice 0 label h (sv_now tr) (match sc_dc ctx with Some dc => peer_ip dc | None => "" end) in
          err ← scall (SStoreDeviceCertificate uid cert) (λ tr, sv_StoreDeviceCertificate tr uid cert);
          match err with
          | Some e =>
            if decide (e = ErrDuplicateDeviceCertificate) then fail (Errorf "this device certificate fingerprint already exists")
            else fail (Errorf "could not create device certificate: %v")
          | None => print ("created device certificate " +:+ Quote fingerprint)
          end
      | None => fail (Errorf "the certificate fingerprint must be hex-encoded SHA-512")
      end.

Definition handleServiceDeviceCertificateDelete (ctx : serviceContext) (params : list string) : SM unit :=
  match params with
  | [fingerprint] =>
    match hex_decode (Replacer [(":", "")] fingerprint) with
    | Some h =>
      if (sha512_Size <? slen h)%nat || (slen h <? deviceCertificateDisplayBytes)%nat
      then fail (Errorf "the certificate fingerprint must be hex-encoded SHA-256")
      else
        user ← ctx_user ctx;
        uid ← user_id user;
        r ← scall (SListDeviceCertificates uid) (λ tr, sv_ListDeviceCertificates tr uid);
        match r with
        | inr _ => fail (Errorf "could not get device certificate: %v")
        | inl certs =>
          match List.filter (λ c, HasPrefix (devFingerprint c) h) certs with
          | [] => fail (Errorf "no device certificate found for fingerprint %q")
          | [c] =>
            err ← scall (SDeleteDeviceCertificate uid (devFingerprint c)) (λ tr, sv_DeleteDeviceCertificate tr uid (devFingerprint c));
            match err with
            | Some _ => fail (Errorf "could not delete device certificate: %v")
            | None => print ("deleted device certificate " +:+ Quote fingerprint)
            end
          | _ => fail (Errorf "multiple device certificates match this fingerprint prefix; pass the full fingerprint")
          end
        end
    | None => fail (Errorf "the certificate fingerprint must be hex-encoded SHA-256")
    end
  | _ => fail (Errorf "expected exactly one argument")
  end.

(** ** The server *)

Definition handleServiceServerStatus (ctx : serviceContext) (params : list string) : SM unit :=
  match params with
  | _ :: _ => fail (Errorf "expected no argument")
  | [] =>
    r ← scall SStats sv_Stats;
    '(users, networks, channels) ← of_sum r;
    loaded ← gets (λ sv, Z.of_nat (size (srv_users sv)));
    print (FormatInt loaded +:+ "/" +:+ FormatInt users +:+ " users, " +:+ FormatInt sv_downstreams +:+ " downstreams, " +:+
      FormatInt sv_upstreams +:+ " upstreams, " +:+ FormatInt networks +:+ " networks, " +:+ FormatInt channels +:+ " channels")
  end.

Definition servicePrefix : Prefix := mkPrefix "BouncerServ" "BouncerServ" "BouncerServ".

(** The event queues of the users have room. *)
Definition handleServiceServerNotice (ctx : serviceContext) (params : list string) : SM unit :=
  match params with
  | [text] =>
    users ← gets srv_users;
    foreach (λ u, semit (SBroadcast (u : string * userState).1 (msg_from servicePrefix "NOTICE" ["$" +:+ sv_hostname; text])))
      (map_to_list users) ;;
    let total := FormatInt (Z.of_nat (size users)) in
    print ("sent to " +:+ total +:+ "/" +:+ total +:+ " downstream connections")
  | _ => fail (Errorf "expected exactly one argument")
  end.

Definition handleServiceServerDebug (ctx : serviceContext) (params : list string) : SM unit :=
  match params with
  | [p] =>
    match ParseBool p with
    | None => fail (Errorf "strconv.ParseBool: parsing %q: invalid syntax")
    | Some enabled => modify (set_srv_debug enabled)
    end
  | _ => fail (Errorf "expected exactly one argument")
  end.

(** ** Dispatch *)

Definition run_handler (run : serviceContext → list string → SM unit) (h : handler) : serviceContext → list string → SM unit :=
  match h with
  | HHelp => handleServiceHelp
  | HNetworkCreate => handleServiceNetworkCreate
  | HNetworkStatus => handleServiceNetworkStatus
  | HNetworkUpdate => handleServiceNetworkUpdate
  | HNetworkDelete => handleServiceNetworkDelete
  | HNetworkQuote => handleServiceNetworkQuote
  | HCertFPGenerate => handleServiceCertFPGenerate
  | HCertFPFingerprints => handleServiceCertFPFingerprints
  | HSASLStatus => handleServiceSASLStatus
  | HSASLSetPlain => handleServiceSASLSetPlain
  | HSASLReset => handleServiceSASLReset
  | HUserStatus => handleUserStatus
  | HUserCreate => handleUserCreate
  | HUserUpdate => handleUserUpdate
  | HUserDelete => handleUserDelete
  | HUserRun => handleUserRun run
  | HChannelStatus => handleServiceChannelStatus
  | HChannelCreate => handleServiceChannelCreate
  | HChannelUpdate => handleServiceChannelUpdate
  | HChannelDelete => handleServiceChannelDelete
  | HDeviceCertificateStatus => handleServiceDeviceCertificateStatus
  | HDeviceCertificateCreate => handleServiceDeviceCertificateCreate
  | HDeviceCertificateDelete => handleServiceDeviceCertificateDelete
  | HServerStatus => handleServiceServerStatus
  | HServerNotice => handleServiceServerNotice
  | HServerDebug => handleServiceServerDebug
  end.

(** [err == flag.ErrHelp] becomes a hint. *)
Definition hint_help (m : SM unit) : SM unit := λ sv,
  match m sv with
  | (sv', Err e) =>
    (sv', Err (if decide (e = ErrHelp) then Errorf ("unsupported flag (type " +:+ dquote +:+ "help %v" +:+ dquote +:+ " for a help message)") else e))
  | x => x
  end.

(** The body of [handleServiceCommand]; [run] is the function itself, which [user run]
    calls. *)
Definition service_body (run : serviceContext → list string → SM unit) (ctx : serviceContext) (words : list string) : SM unit :=
  match Get serviceCommands words with
  | Err _ => fail (Errorf ("%v (type " +:+ dquote +:+ "help" +:+ dquote +:+ " for a list of commands)"))
  | Panic w => panic w
  | Ok (cmd, params) =>
    if cmd_admin cmd && negb (sc_admin ctx) then fail (Errorf "you must be an admin to use this command")
    else if negb (cmd_global cmd) && bool_decide (sc_user ctx = None) then
      fail (Errorf "this command must be run as a user (try running with user run)")
    else
      match cmd_handle cmd, cmd_children cmd with
      | Some h, _ => hint_help (run_handler run h ctx params)
      | None, _ :: _ => print_available (cmd_children cmd) words ctx
      | None, [] => fail (Errorf "command %q not found")
      end
  end.

(** [user run] calls the function with fewer words, so their number is enough fuel. *)
Fixpoint handleServiceCommand (fuel : nat) (ctx : serviceContext) (words : list string) : SM unit :=
  match fuel with
  | O => panic "out of fuel"
  | S fuel => service_body (handleServiceCommand fuel) ctx words
  end.

Definition handleServicePRIVMSG (ctx : serviceContext) (text : string) : SM unit :=
  match splitWords text with
  | Ok words => handleServiceCommand (S (length words)) ctx words
  | Err _ => fail (Errorf "failed to parse command: %v")
  | Panic w => panic w
  end.
End handlers.
