(* ===== verification/ServiceSafety.v ===== *)
(** * BouncerServ: what a user may do to the bouncer

    A command of a user who is not an administrator changes only that user: the other users
    stay as they are, and so do the rights and the quota of the user, who cannot get around
    the limit on networks either. *)

From S2P Require Import Prelude GoStrings GoUnicode GoStrconv IrcMessage GoFlag CaseMapping Membership Modes WhoX Base64.
From S2P Require Import Effects GenMsg Caps Database Highlight Upstream UpstreamHandlers UpstreamInv Downstream DownstreamHandlers.
From S2P Require Import UserNetworks UserNetworksInv ServiceWords Service.

Open Scope string_scope.
Open Scope list_scope.
Open Scope Z_scope.

(** ** The commands that can be reached *)

Definition all_commands : list serviceCommand :=
  (snd <$> serviceCommands) ++ flat_map (λ kc, snd <$> cmd_children kc.2) serviceCommands.

Lemma lookupCommand_in cmds name c : lookupCommand cmds name = Ok c → c ∈ cmds.*2.
Proof.
  unfold lookupCommand. destruct (List.find _ cmds) as [[k c']|] eqn:Hf.
  - intros [= <-]. apply find_some in Hf as [Hin _]. apply list_elem_of_fmap. exists (k, c'). split; [done|by apply list_elem_of_In].
  - destruct (List.filter _ cmds) as [|[k c'] [|]] eqn:Hfl; [done| |done]. intros [= <-].
    assert (In (k, c') cmds) as Hin by (eapply proj1, List.filter_In; rewrite Hfl; by left).
    apply list_elem_of_fmap. exists (k, c'). split; [done|by apply list_elem_of_In].
Qed.

Lemma subcommands_leaves : Forall (λ c, cmd_children c = []) (flat_map (λ kc, snd <$> cmd_children kc.2) serviceCommands).
Proof. repeat constructor. Qed.

Lemma children_in cmd : cmd ∈ all_commands → (cmd_children cmd).*2 ⊆ all_commands.
Proof.
  unfold all_commands. intros [Hin|Hin]%elem_of_app c Hc.
  - apply list_elem_of_fmap in Hin as (kc & -> & Hkc). apply elem_of_app. right.
    apply list_elem_of_In, in_flat_map. exists kc. split; by apply list_elem_of_In.
  - pose proof subcommands_leaves as Hl. rewrite Forall_forall in Hl. rewrite (Hl cmd Hin) in Hc. by inversion Hc.
Qed.

Lemma Get_in cmds params c rest :
  cmds.*2 ⊆ all_commands → Get cmds params = Ok (c, rest) → c ∈ all_commands ∧ (length rest < length params)%nat.
Proof.
  revert cmds. induction params as [|name params IH]; intros cmds Hsub; [done|]. cbn [Get].
  destruct (lookupCommand cmds name) as [cmd|e|w] eqn:Hl; [|done..].
  assert (cmd ∈ all_commands) as Hcmd by by apply Hsub, (lookupCommand_in cmds name).
  destruct params as [|p params]; [intros [= <- <-]; split; [done|cbn; lia]|].
  destruct (cmd_children cmd) as [|ch chs] eqn:Hch; [intros [= <- <-]; split; [done|cbn; lia]|].
  intros Hg. destruct (IH (ch :: chs)) as [Hin Hlen]; [|done|].
  - rewrite <-Hch. by apply children_in.
  - split; [done|]. cbn in *. lia.
Qed.

(** The handlers only administrators may reach. *)
Definition admin_handler (h : handler) : bool :=
  match h with
  | HUserStatus | HUserCreate | HUserRun | HServerStatus | HServerNotice | HServerDebug => true
  | _ => false
  end.

Lemma admin_commands : Forall (λ c, match cmd_handle c with Some h => admin_handler h = true → cmd_admin c = true | None => True end) all_commands.
Proof. repeat (constructor; [by cbn|]). constructor. Qed.

(** ** Confinement *)

(** What a user may not change of itself. *)
Definition privileges (u : dbUser) : Z * string * bool * bool * Z :=
  (uID u, uUsername u, uAdmin u, uEnabled u, uMaxNetworks u).

Section safety.
Context `{UE : uenv} `{SV : svenv} `{UnicodeTables} (E : string → env).
Context (store_fresh : ∀ tr ids uid r id, nID r = 0 → ue_StoreNetwork tr ids uid r = inl id → id ≠ 0 ∧ id ∉ ids).
Context (strict : bool) (name : string) (pr : Z * string * bool * bool * Z) (others : gmap string userState) (debug : bool)
  (tr0 : list saction).

(** The user after a command; the limit on networks is part of it when [strict]. *)
Definition own_ok (s : userState) : Prop :=
  (user_ok s ∧ (strict = true → limit_ok s)) ∧ privileges (us_record s) = pr ∧ nets_wf s.

(** A step that concerns only the user [name]. *)
Definition harmless (a : saction) : Prop :=
  match a with SBroadcast _ _ => False | SUser n _ => n = name | _ => True end.

(** The server after a command: only the user [name] has changed, and nothing was sent to the
    others. *)
Definition confined (sv : server) : Prop :=
  delete name (srv_users sv) = others ∧ srv_debug sv = debug ∧
  (∀ s, srv_users sv !! name = Some s → own_ok s) ∧
  ∃ tr, srv_trace sv = tr0 ++ tr ∧ Forall harmless tr.

Abbreviation stays := (preserves confined).

Lemma traced_app tr l sv :
  Forall harmless l → (∃ tr', srv_trace sv = tr ++ tr' ∧ Forall harmless tr') →
  ∃ tr', srv_trace sv ++ l = tr ++ tr' ∧ Forall harmless tr'.
Proof. intros Hl (tr' & -> & Htr). exists (tr' ++ l). rewrite <-app_assoc. split; [done|by apply Forall_app]. Qed.
Lemma conf_semit a : harmless a → stays (semit a).
Proof.
  intros Ha. apply preserves_modify. intros sv (? & ? & ? & Htr). split_and!; try done. cbn. apply traced_app; [|done]. by constructor.
Qed.
#[local] Hint Resolve conf_semit : pres.
#[local] Hint Extern 1 (harmless _) => exact I : pres.
Lemma conf_print t : stays (print t).
Proof. unfold print. pres. by apply preserves_modify. Qed.
#[local] Hint Resolve conf_print : pres.
Lemma conf_scall {A} a (f : list saction → A) : harmless a → stays (scall a f).
Proof. intros Ha. unfold scall. pres. Qed.
Lemma conf_of_sum {A} (x : A + goerr) : stays (of_sum x).
Proof. unfold of_sum. pres. Qed.
Lemma conf_ctx_user ctx : stays (ctx_user ctx).
Proof. unfold ctx_user. pres. Qed.
Lemma conf_parse_flags {S} (fs : list (flagDef S)) params (x : S) : stays (parse_flags fs params x).
Proof. unfold parse_flags. pres. Qed.
#[local] Hint Resolve conf_scall conf_of_sum conf_ctx_user conf_parse_flags : pres.
Lemma conf_wrap_err {A} t (m : SM A) : stays m → stays (wrap_err t m).
Proof. intros Hm. unfold wrap_err. apply preserves_bind; [by apply preserves_try|]. intros o. pres. Qed.

(** A method of the user keeps the server confined when it keeps the user so. *)
Lemma harmless_user l : Forall harmless (SUser name <$> l).
Proof. apply Forall_fmap, Forall_true. done. Qed.
(** The user after a method. *)
Lemma conf_put_user sv s' l :
  confined sv → own_ok s' →
  confined (set_srv_trace (srv_trace sv ++ (SUser name <$> l)) (set_srv_users (<[name := s']> (srv_users sv)) sv)).
Proof.
  intros (Hd & Hdbg & _ & Htr) Hs'. split_and!; cbn; [by rewrite delete_insert_eq|done| |].
  - intros s'' Hs''. rewrite lookup_insert_eq in Hs''. by injection Hs'' as <-.
  - by apply traced_app; [apply harmless_user|].
Qed.

Lemma conf_on_user {A} (m : UM A) : preserves own_ok m → stays (on_user name m).
Proof.
  intros Hm sv Hc. unfold on_user. destruct (srv_users sv !! name) as [s|] eqn:Hl; [|done].
  specialize (Hm s (proj1 (proj2 (proj2 Hc)) s Hl)). destruct (m s) as [s' r]. by apply conf_put_user.
Qed.

Lemma conf_on_user_gets {A} (f : userState → A) : stays (on_user name (gets f)).
Proof. apply conf_on_user. apply preserves_gets. Qed.
#[local] Hint Resolve conf_on_user_gets : pres.

(** ** The user's own methods *)

Lemma own_same s s' : own_ok s → user_ok s' → same_nets s s' → nets_wf s' → own_ok s'.
Proof.
  intros [[_ Hl] [Hp _]] Hok Hs Hw. split_and!; [done| |by rewrite (proj1 (proj2 Hs))|done].
  intros Hst. by eapply limit_same; [apply Hl|].
Qed.

Lemma own_ucall {A} a (f : list uaction → A) : preserves own_ok (ucall a f).
Proof. intros s Hs. rewrite ucall_run. eapply own_same; [exact Hs|apply user_ok_trace, Hs|done|apply Hs]. Qed.
#[local] Hint Resolve own_ucall : pres.

Lemma own_on_network `{E0 : env} {A} p (m : env → M A) :
  (∀ E, keeps_record (m E)) → (∀ E, preserves uwf (m E)) → preserves own_ok (on_network p m).
Proof.
  intros Hm Hw s Hs. eapply own_same; [exact Hs| |by apply on_network_same|].
  - apply ukeep_on_network; [done|apply Hs].
  - apply wf_on_network; [done|apply Hs].
Qed.

Lemma own_create r : preserves own_ok (createNetwork r true).
Proof.
  intros s Hs. pose proof (wf_createNetwork r true s (proj2 (proj2 Hs))) as Hw.
  pose proof (create_spec store_fresh r true s (proj1 (proj1 Hs))) as Hc.
  assert (strict = true → limit_ok (createNetwork r true s).1) as Hl
    by (intros Hst; apply (create_limit store_fresh); [apply Hs|by apply Hs]).
  destruct (createNetwork r true s) as [s' [p|e|w]]; [|by eapply own_same; [exact Hs|apply Hc..|]..].
  destruct Hc as (Hok & _ & Hr & _). split_and!; [done|done|cbn; by rewrite Hr, (proj1 (proj2 Hs))|done].
Qed.

Lemma own_delete id : preserves own_ok (deleteNetwork id).
Proof.
  intros s Hs. pose proof (wf_deleteNetwork id s (proj2 (proj2 Hs))) as Hw.
  pose proof (delete_spec store_fresh id s (proj1 (proj1 Hs))) as Hd.
  destruct (deleteNetwork id s) as [s' [[]|e|w]]; [|by eapply own_same; [exact Hs|apply Hd..|]..].
  destruct Hd as (Hok & Hr & _ & Hle). split_and!; [done| |cbn; by rewrite Hr, (proj1 (proj2 Hs))|done].
  intros Hst. by eapply limit_le; [by apply Hs|..].
Qed.

Lemma own_updateUser `{E0 : env} f :
  (∀ u u', f u = inl u' → privileges u' = privileges u) → preserves own_ok (updateUser f).
Proof.
  intros Hf s Hs. destruct (updateUser_spec store_fresh f s (proj1 (proj1 Hs))) as (Hok & Hen & Hr).
  assert (privileges (us_record (updateUser f s).1) = privileges (us_record s)) as Hp
    by (destruct Hr as [->|Hr]; [done|by apply Hf]).
  split_and!; [done| |by rewrite Hp, (proj1 (proj2 Hs))|apply wf_updateUser, Hs].
  intros Hst. eapply limit_max; [by apply Hs| |done]. by injection Hp.
Qed.

(** A method that changes neither the ID nor the name of its network, nor whether it is
    enabled. *)
Definition keeps_identity {A} (m : M A) : Prop := ∀ n,
  let r := net_record n in let r' := net_record (m n).1 in
  nID r' = nID r ∧ GetName r' = GetName r ∧ nEnabled r' = nEnabled r.

Lemma own_on_network_identity `{E0 : env} {A} p (m : env → M A) :
  (∀ E, keeps_identity (m E)) → (∀ E, preserves uwf (m E)) → preserves own_ok (on_network p m).
Proof.
  intros Hm Hwf s Hs. pose proof (wf_on_network p m Hwf s (proj2 (proj2 Hs))) as Hw. revert Hw.
  destruct Hs as [[[Hn Hb] Hl] [Hp Hw0]]. unfold on_network. destruct (us_heap s !! p) as [n|] eqn:Hh; [|done].
  specialize (Hm (env_at s p) n). destruct (m (env_at s p) n) as [n' o]. cbn in *. set (h := <[p := n']> (us_heap s)). intros Hw.
  assert (∀ q, nID (rec_of h q) = nID (rec_at s q) ∧ GetName (rec_of h q) = GetName (rec_at s q) ∧
    nEnabled (rec_of h q) = nEnabled (rec_at s q)) as Hq.
  { intros q. unfold rec_at, h. destruct (decide (q = p)) as [->|Hne]; [|by rewrite rec_of_insert_ne].
    rewrite rec_of_insert_eq. unfold rec_of. by rewrite Hh. }
  split_and!; [split; cbn| |done|done].
  - eapply nets_ok_ids; [exact Hn|..].
    + intros q Hq'. apply (no_heap _ _ _ Hn). destruct (decide (q = p)) as [->|Hne]; [by rewrite Hh|].
      unfold h in Hq'. by rewrite lookup_insert_ne in Hq'.
    + intros q Hin. pose proof (no_alive _ _ _ Hn) as Ha. rewrite Forall_forall in Ha. split; [|by destruct (Hq q) as (? & ? & _)].
      unfold h. destruct (decide (q = p)) as [->|Hne]; [by rewrite lookup_insert_eq|rewrite lookup_insert_ne by done; auto].
  - exact Hb.
  - intros Hst. eapply limit_le; [by apply Hl|done|]. unfold enabled_networks. cbn.
    rewrite (list_filter_iff _ (λ x, nEnabled (rec_at s x) = true)); [done|].
    intros q. change (rec_at (set_us_trace _ (set_us_heap h s)) q) with (rec_of h q). by rewrite (proj2 (proj2 (Hq q))).
Qed.

Lemma conf_change_sasl p f : stays (change_sasl E name p f).
Proof.
  unfold change_sasl. apply preserves_bind.
  - apply conf_on_user, own_on_network_identity; [by intros ? n|]. intros _. apply preserves_modify. intros. by eapply uwf_frame.
  - intros _. apply preserves_bind; [apply conf_on_user; pres|]. intros r. pres.
Qed.
#[local] Hint Resolve conf_change_sasl : pres.

(** ** Handlers *)

Lemma conf_select ctx n missing : stays (select_network ctx name n missing).
Proof. unfold select_network. pres. Qed.
#[local] Hint Resolve conf_select : pres.
Lemma conf_fromArg ctx params : stays (getNetworkFromArg ctx name params).
Proof. unfold getNetworkFromArg. pres. Qed.
Lemma conf_fromFlag ctx n : stays (getNetworkFromFlag ctx name n).
Proof. unfold getNetworkFromFlag. pres. Qed.
Lemma conf_fingerprints cert : stays (sendCertfpFingerprints cert).
Proof. unfold sendCertfpFingerprints. pres. Qed.
Lemma conf_generate kt bits : stays (generateCertFP kt bits).
Proof. unfold generateCertFP. pres. Qed.
Lemma conf_user_id : stays (user_id name).
Proof. unfold user_id. pres. Qed.
Lemma conf_strip ctx n : stays (stripNetworkSuffix ctx name n).
Proof. unfold stripNetworkSuffix. pres. Qed.
#[local] Hint Resolve conf_fromArg conf_fromFlag conf_fingerprints conf_generate conf_user_id conf_strip : pres.

(** ** Channels and networks keep the records *)

Ltac pres_more ::=
  match goal with
  | |- preserves _ (forEachDownstream _) => unfold forEachDownstream
  | |- preserves _ (modify _) => apply preserves_modify; intros ? ?; cbn; assumption
  end.
#[local] Hint Resolve rec_emit rec_send_dc rec_SendMessage : pres.

Lemma rec_net_channel r ch : preserves (λ n, net_record n = r) (put_net_channel ch).
Proof. unfold put_net_channel. pres. Qed.
Lemma rec_channel r n ch : preserves (λ n, net_record n = r) (put_channel n ch).
Proof. unfold put_channel. pres. Qed.
#[local] Hint Resolve rec_net_channel rec_channel : pres.
Lemma rec_autoDetach r n : preserves (λ n, net_record n = r) (updateChannelAutoDetach n).
Proof. unfold updateChannelAutoDetach. pres. Qed.
#[local] Hint Resolve rec_autoDetach : pres.
Lemma rec_detach `{E0 : env} r ch : preserves (λ n, net_record n = r) (net_detach ch).
Proof. unfold net_detach. pres. Qed.
Lemma rec_attach `{E0 : env} r ch : preserves (λ n, net_record n = r) (net_attach ch).
Proof. unfold net_attach. pres. Qed.
#[local] Hint Resolve rec_detach rec_attach : pres.

Lemma conf_on_net {A} p (m : env → M A) : (∀ E r, preserves (λ n, net_record n = r) (m E)) → (∀ E, preserves uwf (m E)) →
  stays (on_net E name p m).
Proof. intros Hm Hw. apply conf_on_user, own_on_network; [|done]. intros E0. by apply keeps_record_of. Qed.

Lemma uwf_net_channel ch : preserves uwf (put_net_channel ch).
Proof. apply keep_put_net_channel. Qed.
Lemma uwf_autoDetach n : preserves uwf (updateChannelAutoDetach n).
Proof. apply keep_autoDetach. Qed.
Lemma uwf_detach `{E0 : env} ch : preserves uwf (net_detach ch).
Proof. apply keep_detach. Qed.
Lemma uwf_attach `{E0 : env} ch : preserves uwf (net_attach ch).
Proof. apply keep_attach. Qed.
Lemma uwf_del_channel n : preserves uwf (modify (λ u, set_net_channels (CMM.Del (net_channels u) n) u)).
Proof. apply preserves_modify. intros s []. split; cbn; auto using map_ok_Del. Qed.
Lemma uwf_stop n : preserves uwf (stop_autoDetach n).
Proof.
  apply preserves_bind_gets. intros s0 Hs0. destruct (CMM.Get (channels s0) n) as [uch|] eqn:Hg; [|apply preserves_skip].
  apply keep_put_channel. cbn. eapply chans_ok_Get; [apply Hs0|exact Hg].
Qed.
Lemma rec_stop r n : preserves (λ n, net_record n = r) (stop_autoDetach n).
Proof. unfold stop_autoDetach. pres. Qed.
#[local] Hint Resolve uwf_stop rec_stop uwf_SendMessage uwf_net_channel uwf_autoDetach uwf_detach uwf_attach uwf_del_channel : pres.

(** ** Handlers *)

Lemma conf_bind_ctx {B} ctx (k : string → SM B) :
  sc_user ctx = Some name → stays (k name) → stays (ctx_user ctx ≫= k).
Proof. intros Hu Hk. unfold ctx_user. rewrite Hu. by apply preserves_bind_ret. Qed.

Ltac pres_more ::=
  match goal with
  | |- preserves _ (ctx_user _ ≫= _) => apply conf_bind_ctx; [assumption|]; cbv beta
  | |- preserves _ (wrap_err _ _) => apply conf_wrap_err
  | |- preserves _ (on_net _ _ _ _) => apply conf_on_net; intros
  | |- preserves (λ n, net_record n = _) (modify _) => apply preserves_modify; intros ? ?; cbn; assumption
  | |- preserves _ (on_user _ (deleteNetwork _)) => apply conf_on_user, own_delete
  end.

Context (ctx : serviceContext) (Hu : sc_user ctx = Some name) (Ha : sc_admin ctx = false).

Lemma conf_available cmds prefix c : stays (print_available cmds prefix c).
Proof. unfold print_available. pres. Qed.
#[local] Hint Resolve conf_available : pres.

Lemma conf_help params : stays (handleServiceHelp ctx params).
Proof. unfold handleServiceHelp. pres. Qed.

Lemma conf_networkCreate params : stays (handleServiceNetworkCreate ctx params).
Proof.
  unfold handleServiceNetworkCreate. apply preserves_bind; [pres|]. intros fs. destruct (nfAddr fs) as [addr|]; [|pres].
  unfold check_ignore_limit. rewrite Ha. destruct (nfIgnoreLimit fs); [apply preserves_bind_fail|].
  apply preserves_bind; [pres|]. intros _. apply preserves_bind; [pres|]. intros record.
  apply conf_bind_ctx; [done|]. apply preserves_bind; [|intros p; pres]. apply conf_wrap_err, conf_on_user, own_create.
Qed.
Lemma conf_networkStatus params : stays (handleServiceNetworkStatus ctx params).
Proof. unfold handleServiceNetworkStatus. pres. Qed.
Lemma conf_networkDelete params : stays (handleServiceNetworkDelete ctx params).
Proof. unfold handleServiceNetworkDelete. pres. Qed.
Lemma conf_networkQuote params : stays (handleServiceNetworkQuote E ctx params).
Proof. unfold handleServiceNetworkQuote. pres. Qed.
Lemma conf_certGenerate params : stays (handleServiceCertFPGenerate E ctx params).
Proof. unfold handleServiceCertFPGenerate. pres. Qed.
Lemma conf_certFingerprints params : stays (handleServiceCertFPFingerprints ctx params).
Proof. unfold handleServiceCertFPFingerprints. pres. Qed.
Lemma conf_saslStatus params : stays (handleServiceSASLStatus ctx params).
Proof. unfold handleServiceSASLStatus. pres. Qed.
Lemma conf_saslSetPlain params : stays (handleServiceSASLSetPlain E ctx params).
Proof. unfold handleServiceSASLSetPlain. pres. Qed.
Lemma conf_saslReset params : stays (handleServiceSASLReset E ctx params).
Proof. unfold handleServiceSASLReset. pres. Qed.
Lemma conf_channelStatus params : stays (handleServiceChannelStatus ctx params).
Proof. unfold handleServiceChannelStatus. pres. Qed.
Lemma conf_channelArgs params : stays (parse_channel_args params).
Proof. unfold parse_channel_args. pres. Qed.
#[local] Hint Resolve conf_channelArgs : pres.
Lemma conf_channelCreate params : stays (handleServiceChannelCreate E ctx params).
Proof. unfold handleServiceChannelCreate. pres. Qed.
Lemma conf_channelUpdate params : stays (handleServiceChannelUpdate E ctx params).
Proof. unfold handleServiceChannelUpdate. pres. Qed.
Lemma conf_deleteChannel p n : stays (deleteChannel E name p n).
Proof. unfold deleteChannel. pres. Qed.
#[local] Hint Resolve conf_deleteChannel : pres.
Lemma conf_channelDelete params : stays (handleServiceChannelDelete E ctx params).
Proof. unfold handleServiceChannelDelete. pres. Qed.
Lemma conf_deviceStatus params : stays (handleServiceDeviceCertificateStatus ctx params).
Proof. unfold handleServiceDeviceCertificateStatus. pres. Qed.
Lemma conf_deviceCreate params : stays (handleServiceDeviceCertificateCreate ctx params).
Proof. unfold handleServiceDeviceCertificateCreate. pres. Qed.
Lemma conf_deviceDelete params : stays (handleServiceDeviceCertificateDelete ctx params).
Proof. unfold handleServiceDeviceCertificateDelete. pres. Qed.

Lemma own_update_privileges fs u u' :
  uuMaxNetworks fs = None → own_update fs u = inl u' → privileges u' = privileges u.
Proof. intros Hm. unfold own_update. rewrite Hm. destruct (uuPassword fs) as [pw|]; [destruct (sv_bcrypt pw); [|done]|]; by intros [= <-]. Qed.

Lemma conf_userUpdate params : stays (handleUserUpdate E ctx params).
Proof.
  unfold handleUserUpdate. destruct (popArg params) as [username rest]. apply preserves_bind; [pres|]. intros fs.
  destruct (_ && _); [pres|]. destruct (_ && _); [pres|]. destruct (_ && _).
  - unfold update_other_user. rewrite Ha. cbn [negb]. pres.
  - unfold update_own_user. case_decide; [pres|]. case_decide; [pres|]. rewrite Ha.
    destruct (bool_decide (uuMaxNetworks fs ≠ None)) eqn:Hm; [cbn [andb negb]; pres|].
    apply bool_decide_eq_false, dec_stable in Hm. cbn [andb]. apply conf_bind_ctx; [done|].
    apply preserves_bind; [|intros; pres]. apply conf_on_user, own_updateUser.
    intros u u'. by apply own_update_privileges.
Qed.

Lemma conf_stop : stays (stop_user ctx name).
Proof.
  unfold stop_user. case_decide; [pres|]. apply preserves_bind; [pres|]. intros _. apply preserves_modify.
  intros sv (Hd & Hdbg & Hs & Htr). split_and!; cbn; [by rewrite delete_delete_eq|done|by rewrite lookup_delete_eq|done].
Qed.

Lemma conf_userDelete params : stays (handleUserDelete ctx params).
Proof.
  assert (∀ username token, stays (delete_user ctx username token)) as Hbody.
  { intros username token. unfold delete_user. rewrite Ha, Hu. cbn [negb andb].
    destruct (bool_decide (Some name = Some username)) eqn:Hself; [|cbn; pres].
    apply bool_decide_eq_true in Hself as [= <-]. pose proof conf_stop. pres. }
  unfold handleUserDelete. pres.
Qed.

(** *** Updating a network *)

(** The network of the context is one of the user's. *)
Definition bound (sv : server) : Prop :=
  ∃ s, srv_users sv !! name = Some s ∧ (strict = true → ∀ p, sc_network ctx = Some p → p ∈ us_networks s).

Lemma on_user_gets {A} (f : userState → A) sv s :
  srv_users sv !! name = Some s → on_user name (gets f) sv = (sv, Ok (f s)).
Proof. intros Hs. unfold on_user. rewrite Hs. cbn. rewrite insert_id, drop_all, app_nil_r by done. by destruct sv. Qed.

Lemma select_run n missing sv s :
  (strict = true → ∀ p, sc_network ctx = Some p → p ∈ us_networks s) → srv_users sv !! name = Some s →
  (∃ p, select_network ctx name n missing sv = (sv, Ok p) ∧ (strict = true → p ∈ us_networks s)) ∨
  ∃ e, select_network ctx name n missing sv = (sv, Err e).
Proof.
  intros Hb Hs. unfold select_network. case_decide.
  - destruct (sc_network ctx) as [p|] eqn:Hp; [left; eauto|right; by eexists].
  - erewrite bind_run by by apply on_user_gets. destruct (getNetwork s n) as [p|] eqn:Hg; [|right; by eexists].
    left. exists p. split; [done|]. by apply find_in in Hg.
Qed.

Lemma own_update_network `{E0 : env} p r b s :
  own_ok s → (strict = true → p ∈ us_networks s ∧ nID r = nID (rec_at s p) ∧ b = negb (nEnabled (rec_at s p))) →
  own_ok (updateNetwork r b s).1.
Proof.
  intros Hs Hst. pose proof (wf_updateNetwork r b s (proj2 (proj2 Hs))) as Hw.
  pose proof (update_spec store_fresh r b s (proj1 (proj1 Hs))) as Hc.
  assert (strict = true → limit_ok (updateNetwork r b s).1) as Hl.
  { intros Ht. destruct (Hst Ht) as (Hp & Hid & ->). by eapply (update_limit store_fresh); [apply Hs|by apply Hs|..]. }
  destruct (updateNetwork r b s) as [s' [q|e|w]]; [|by eapply own_same; [exact Hs|apply Hc..|]..].
  destruct Hc as (p' & _ & _ & (Hok & _ & Hr & _) & _). split_and!; [done|done|cbn; by rewrite Hr, (proj1 (proj2 Hs))|done].
Qed.

Lemma networkFlags_update_id fs n n' : networkFlags_update fs n = Ok n' → nID n' = nID n.
Proof.
  unfold networkFlags_update. intros Hr. repeat (apply res_bind_ok in Hr as (? & _ & Hr)). by injection Hr as <-.
Qed.

Lemma conf_networkUpdate params sv :
  confined sv → bound sv → confined (handleServiceNetworkUpdate E ctx params sv).1.
Proof.
  intros Hc (s & Hs & Hb). unfold handleServiceNetworkUpdate, ctx_user. rewrite Hu, bind_ret.
  unfold getNetworkFromArg. destruct (popArg params) as [n rest]. rewrite bind_assoc.
  destruct (select_run n "no network selected, a name argument is required" sv s Hb Hs) as [(p & Hrun & Hp)|(e & Hrun)];
    [|by rewrite (bind_err _ _ _ _ _ Hrun)].
  rewrite (bind_run _ _ _ _ _ Hrun), bind_ret. unfold parse_flags. rewrite bind_assoc.
  unfold mbind at 1, M_bind at 1, lift at 1.
  destruct (Parse newNetworkFlagSet rest noNetworkFlags) as [[fs [|a args]]|e|w]; [|done..].
  rewrite bind_ret. unfold check_ignore_limit. rewrite Ha. destruct (nfIgnoreLimit fs); [done|]. cbn [andb when].
  unfold skip. rewrite bind_ret, (bind_run _ _ _ _ _ (on_user_gets id sv s Hs)). cbn zeta.
  unfold mbind at 1, M_bind at 1, lift at 1.
  destruct (networkFlags_update fs _) as [r|e|w] eqn:Hr; [|done..]. apply networkFlags_update_id in Hr. cbn [negb andb].
  apply preserves_bind_at; [|intros q; pres]. unfold wrap_err. apply preserves_bind_at; [|intros o; pres].
  assert (confined (on_user name (updateNetwork (E:=E name) r (negb (nEnabled (rec_at s p)))) sv).1) as Hup.
  { pose proof (proj1 (proj2 (proj2 Hc))) as Hown. unfold on_user. rewrite Hs.
    pose proof (own_update_network (E0:=E name) p r _ s (Hown s Hs) (λ Hst, conj (Hp Hst) (conj Hr eq_refl))) as Hn.
    destruct (updateNetwork _ _ s) as [s' o]. by apply conf_put_user. }
  unfold try. by destruct (on_user name _ sv) as [sv' [a|e|w]].
Qed.

(** *** Any command *)

Lemma conf_hint (m : SM unit) sv : confined (m sv).1 → confined (hint_help m sv).1.
Proof. intros Hm. unfold hint_help. by destruct (m sv) as [sv' [[]|e|w]]. Qed.

Lemma conf_handler run h params sv :
  admin_handler h = false → confined sv → bound sv → confined (run_handler E run h ctx params sv).1.
Proof.
  intros Hh Hc Hb. destruct h; try done; cbn [run_handler].
  all: first [ by apply conf_networkUpdate | revert sv Hc Hb; intros sv Hc _; revert sv Hc ].
  all: first [apply conf_help|apply conf_networkCreate|apply conf_networkStatus|apply conf_networkDelete
    |apply conf_networkQuote|apply conf_certGenerate|apply conf_certFingerprints|apply conf_saslStatus
    |apply conf_saslSetPlain|apply conf_saslReset|apply conf_userUpdate|apply conf_userDelete
    |apply conf_channelStatus|apply conf_channelCreate|apply conf_channelUpdate|apply conf_channelDelete
    |apply conf_deviceStatus|apply conf_deviceCreate|apply conf_deviceDelete].
Qed.

Lemma conf_command fuel words sv :
  confined sv → bound sv → confined (handleServiceCommand E fuel ctx words sv).1.
Proof.
  intros Hc Hb. destruct fuel as [|fuel]; [done|]. cbn [handleServiceCommand]. unfold service_body.
  destruct (Get serviceCommands words) as [[cmd params]|e|w] eqn:Hget; [|done..].
  apply Get_in in Hget as [Hin _]; [|apply list_subseteq_app_l; set_solver].
  rewrite Ha. destruct (cmd_admin cmd) eqn:Hadm; [done|]. cbn [andb]. destruct (_ && _); [done|].
  destruct (cmd_handle cmd) as [h|] eqn:Hh.
  - apply conf_hint, conf_handler; [|done..]. pose proof admin_commands as Hac. rewrite Forall_forall in Hac.
    specialize (Hac cmd Hin). rewrite Hh in Hac. destruct (admin_handler h); [|done]. by rewrite Hac in Hadm.
  - destruct (cmd_children cmd); [done|]. by apply conf_available.
Qed.

Lemma conf_text text sv : confined sv → bound sv → confined (handleServicePRIVMSG E ctx text sv).1.
Proof.
  intros Hc Hb. unfold handleServicePRIVMSG. destruct (splitWords text); [by apply conf_command|done|done].
Qed.
End safety.

(** ** The recursion of [user run] *)

Section recursion.
Context `{UE : uenv} `{SV : svenv} `{UnicodeTables} (E : string → env).

(** Two functions that agree on fewer words make the same body. *)
Lemma service_body_ext run1 run2 ctx words sv :
  (∀ c ws sv, (length ws < length words)%nat → run1 c ws sv = run2 c ws sv) →
  service_body E run1 ctx words sv = service_body E run2 ctx words sv.
Proof.
  intros Hrun. unfold service_body. destruct (Get serviceCommands words) as [[cmd params]|e|w] eqn:Hget; [|done..].
  apply Get_in in Hget as [_ Hlen]; [|apply list_subseteq_app_l; set_solver].
  destruct (_ && _); [done|]. destruct (_ && _); [done|]. destruct (cmd_handle cmd) as [h|]; [|done].
  unfold hint_help. assert (run_handler E run1 h ctx params sv = run_handler E run2 h ctx params sv) as ->; [|done].
  destruct h; try done. cbn [run_handler]. unfold handleUserRun.
  destruct params as [|u [|p ps]]; [done|done|]. case_decide; [apply Hrun; cbn in *; lia|].
  rewrite !bind_gets. destruct (srv_users sv !! u); [|done]. unfold request. case_decide; [done|]. apply Hrun. cbn in *. lia.
Qed.

Lemma service_unique (f : serviceContext → list string → SM unit) :
  (∀ ctx words sv, f ctx words sv = service_body E f ctx words sv) →
  ∀ fuel ctx words sv, (length words < fuel)%nat → handleServiceCommand E fuel ctx words sv = f ctx words sv.
Proof.
  intros Hf fuel. induction fuel as [|fuel IH]; intros ctx words sv Hl; [lia|]. cbn [handleServiceCommand]. rewrite Hf.
  apply service_body_ext. intros c ws sv' Hws. apply IH. lia.
Qed.

Lemma service_fixpoint fuel ctx words sv :
  (length words < fuel)%nat →
  handleServiceCommand E fuel ctx words sv =
    service_body E (λ c ws, handleServiceCommand E (S (length ws)) c ws) ctx words sv.
Proof.
  revert ctx words sv. induction (lt_wf fuel) as [fuel _ IH]. intros ctx words sv Hl.
  destruct fuel as [|fuel]; [lia|]. change (handleServiceCommand E (S fuel) ctx words) with (service_body E (handleServiceCommand E fuel) ctx words).
  apply service_body_ext. intros c ws sv' Hws. rewrite (IH fuel) by lia. cbv beta. rewrite (IH (S (length ws))) by lia. done.
Qed.
End recursion.

(** BouncerServ terminates: the recursion of [handleServiceCommand] through [user run]
    has exactly one solution, and the definition by fuel is it, so for every function that
    satisfies the recursion of the source the commands of a text give the same result. *)
Theorem service_terminates `{UE : uenv} `{SV : svenv} `{UnicodeTables} (E : string → env)
    (ctx : serviceContext) (words : list string) (sv : server) :
  let run ctx words := handleServiceCommand E (S (length words)) ctx words in
  run ctx words sv = service_body E run ctx words sv ∧
  ∀ f, (∀ ctx words sv, f ctx words sv = service_body E f ctx words sv) → f ctx words sv = run ctx words sv.
Proof.
  split; [apply service_fixpoint; lia|]. intros f Hf. symmetry. apply service_unique; [done|lia].
Qed.

(** C13: Whatever a user who is not an administrator sends to BouncerServ, the other users of
    the bouncer and its logging stay as they are and nothing is sent to them; the rights, the name and the quota of the
    user stay too, its networks keep their invariants, that of the list and those of the
    connections, and it never gets more enabled networks than its quota. *)
Theorem service_confined `{UE : uenv} `{SV : svenv} `{UnicodeTables} (E : string → env)
    (name text : string) (ctx : serviceContext) (sv : server) (s : userState) :
  (∀ tr ids uid r id, nID r = 0 → ue_StoreNetwork tr ids uid r = inl id → id ≠ 0 ∧ id ∉ ids) →
  sc_user ctx = Some name → sc_admin ctx = false → srv_users sv !! name = Some s →
  user_ok s → limit_ok s → nets_wf s → (∀ p, sc_network ctx = Some p → p ∈ us_networks s) →
  let sv' := (handleServicePRIVMSG E ctx text sv).1 in
  (∀ other, other ≠ name → srv_users sv' !! other = srv_users sv !! other) ∧
  srv_debug sv' = srv_debug sv ∧
  (∃ tr, srv_trace sv' = srv_trace sv ++ tr ∧ Forall (harmless name) tr) ∧
  ∀ s', srv_users sv' !! name = Some s' →
    user_ok s' ∧ limit_ok s' ∧ nets_wf s' ∧ privileges (us_record s') = privileges (us_record s).
Proof.
  intros Hfresh Hu Ha Hs Hok Hl Hw Hb.
  destruct (conf_text E Hfresh true name (privileges (us_record s)) (delete name (srv_users sv)) (srv_debug sv) (srv_trace sv) ctx Hu Ha text sv)
    as (Hd & Hdbg & Hown & Htr).
  - split_and!; [done|done| |exists []; by rewrite app_nil_r]. intros s' Hs'. rewrite Hs in Hs'. by injection Hs' as <-.
  - by exists s.
  - cbn zeta. split_and!; [|done|done|].
    + intros other Hne. rewrite <-(lookup_delete_ne _ name other) by done. rewrite Hd. by rewrite lookup_delete_ne.
    + intros s' Hs'. destruct (Hown s' Hs') as [[? Hl'] [? ?]]. split_and!; auto.
Qed.

(** ** A bouncer with two users *)

Definition demo_svenv : svenv := {|
  sv_StoreUser := λ _ _, inl 10; sv_DeleteUser := λ _ _, None; sv_ListNetworks := λ _ _, inl [];
  sv_StoreChannel := λ _ _ _, inl 5; sv_DeleteChannel := λ _ _, None;
  sv_ListDeviceCertificates := λ _ _, inl []; sv_StoreDeviceCertificate := λ _ _ _, None;
  sv_DeleteDeviceCertificate := λ _ _ _, None; sv_Stats := λ _, inl (2, 0, 0);
  sv_GenerateKey := λ _ _ _, inl "key"; sv_CreateCertificate := λ _ _, inl "certificate";
  sv_bcrypt := λ p, inl ("$" +:+ p); sv_sha1 := λ s, s +:+ "xyz"; sv_sha256 := id; sv_sha512 := id;
  sv_ParseMessage := λ s, inl (msg s []); sv_ParseDuration := Atoi; sv_now := λ _, 0; sv_DateTime := FormatInt;
  sv_clientCertAuth := false; sv_hostname := "irc.example.org"; sv_downstreams := 1; sv_upstreams := 0
|}.

Definition demo_server : server :=
  MkServer {["alice" := demo_user_state; "bob" := newUserState (MkUser 2 "bob" "" "" "" true true 0 (-1))]} false [] [].

Definition demo_ctx (name : string) (admin : bool) : serviceContext :=
  MkContext name None (Some name) None admin [name].

Definition demo_say (name : string) (admin : bool) (text : string) (sv : server) : server * res goerr unit :=
  @handleServicePRIVMSG demo_uenv demo_svenv latin1_tables (λ _, demo_env) (demo_ctx name admin) text sv.

Lemma service_confined_witness :
  let sv := (demo_say "alice" false "net create -addr irc.example.net" demo_server).1 in
  srv_out sv = ["created network " +:+ dquote +:+ "irc.example.net" +:+ dquote] ∧
  srv_users sv !! "bob" = srv_users demo_server !! "bob" ∧
  (demo_say "alice" false "user update bob -admin false" sv).2 = Err (Errorf "you must be an admin to update other users") ∧
  (demo_say "alice" false "network create -addr irc.example.com -ignore-limit" sv).2
    = Err (Errorf "you must be an admin to use the flag -ignore-limit").
Proof.
  cbn zeta. split; [by vm_compute|]. split; [|by split; vm_compute].
  apply (@service_confined demo_uenv demo_svenv latin1_tables (λ _, demo_env) "alice" "net create -addr irc.example.net"
    (demo_ctx "alice" false) demo_server demo_user_state demo_store_fresh eq_refl eq_refl eq_refl demo_user_ok).
  - right. vm_compute. discriminate.
  - apply map_Forall_empty.
  - intros p [=].
  - done.
Defined.

(** ** Behaviours that differ from what the commands promise *)

(** [channel create] takes the flag [-detached] and ignores it. *)
Lemma channel_create_detached_ignored `{SV : svenv} fs ch : cDetached (channelFlags_update fs ch).1 = cDetached ch.
Proof.
  unfold channelFlags_update, set_field. repeat case_match; simplify_eq; done.
Qed.

(** A user that confirms the deletion of its own account waits for its own goroutine: the
    account stays and nothing is deleted from the database. *)
Lemma self_delete_blocks :
  let '(sv, r) := demo_say "alice" false ("user delete alice " +:+ @delete_token demo_svenv "alice") demo_server in
  r = Panic "blocked" ∧ is_Some (srv_users sv !! "alice") ∧
  srv_trace sv = [SPrint "Goodbye alice, deleting your account. There will be no further confirmation."; SBlocked "alice"].
Proof. vm_compute. split_and!; [done|by eexists|done]. Qed.

(** The administration socket can run [server status], but its help does not list it. *)
Lemma help_omits_server :
  let admin := MkContext "" None None None true [] in
  let run text := @handleServicePRIVMSG demo_uenv demo_svenv latin1_tables (λ _, demo_env) admin text demo_server in
  srv_out (run "server status").1 = ["2/2 users, 1 downstreams, 0 upstreams, 0 networks, 0 channels"] ∧
  srv_out (run "help").1 = ["available commands: help, user create, user delete, user run, user status, user update"].
Proof. by vm_compute. Qed.

(** An update with a bad value changes the settings before it and reports an error. *)
Lemma channel_update_partial :
  let fs := MkChannelFlags None (Some "none") None None (Some "sometimes") in
  let ch := MkChannel 1 "#soju" "" false "" FilterDefault FilterDefault 0 FilterDefault in
  @channelFlags_update demo_svenv fs ch = (set_cRelayDetached FilterNone ch, Some (Errorf "unknown filter: %q")).
Proof. done. Qed.
