(* ===== verification/ServiceInv.v ===== *)
(** * BouncerServ keeps every user healthy

    [ServiceSafety] bounds what a user without rights may do. Here the context is arbitrary,
    administrators and commands run for other users included: every user of the server keeps the
    invariants of its networks and of their connections. *)

From S2P Require Import Prelude GoStrings GoUnicode GoStrconv IrcMessage GoFlag CaseMapping Membership Modes WhoX Base64.
From S2P Require Import Effects GenMsg Caps Database Highlight Upstream UpstreamHandlers UpstreamInv UpstreamIdent Downstream DownstreamHandlers.
From S2P Require Import UserNetworks UserNetworksInv ServiceWords Service ServiceSafety.

Open Scope string_scope.
Open Scope list_scope.
Open Scope Z_scope.

Create HintDb service.

(** A user whose list of networks and whose connections keep their invariants. *)
Definition healthy (s : userState) : Prop := user_ok s ∧ nets_wf s.
Definition all_healthy (sv : server) : Prop := map_Forall (λ _, healthy) (srv_users sv).

Section users.
Context `{UE : uenv} `{UnicodeTables}.
Context (store_fresh : ∀ tr ids uid r id, nID r = 0 → ue_StoreNetwork tr ids uid r = inl id → id ≠ 0 ∧ id ∉ ids).

Abbreviation hkeeps := (preserves healthy).

Lemma healthy_own s : healthy s ↔ own_ok false (privileges (us_record s)) s.
Proof. split; [intros [? ?]; by split_and!|intros [[? _] [_ ?]]; by split]. Qed.

(** What keeps a user healthy whatever its rights are. *)
Lemma healthy_of {A} (m : UM A) : (∀ pr, preserves (own_ok false pr) m) → preserves healthy m.
Proof.
  intros Hm s Hs%healthy_own. specialize (Hm _ s Hs). by destruct Hm as [[? _] [_ ?]].
Qed.

Lemma healthy_spec {A} (m : UM A) : (∀ s, user_ok s → user_ok (m s).1) → preserves nets_wf m → hkeeps m.
Proof. intros Ho Hw s [H1 H2]. split; [by apply Ho|by apply Hw]. Qed.

Lemma h_create r b : hkeeps (createNetwork r b).
Proof.
  apply healthy_spec; [|apply wf_createNetwork]. intros s Hs. pose proof (create_spec store_fresh r b s Hs) as Hc.
  destruct (createNetwork r b s) as [s' [p|e|w]]; apply Hc.
Qed.
Lemma h_update `{E : env} r b : hkeeps (updateNetwork r b).
Proof.
  apply healthy_spec; [|apply wf_updateNetwork]. intros s Hs. pose proof (update_spec store_fresh r b s Hs) as Hc.
  destruct (updateNetwork r b s) as [s' [p|e|w]]; [|apply Hc..]. destruct Hc as (q & _ & _ & (Hok & _) & _). exact Hok.
Qed.
Lemma h_delete id : hkeeps (deleteNetwork id).
Proof.
  apply healthy_spec; [|apply wf_deleteNetwork]. intros s Hs. pose proof (delete_spec store_fresh id s Hs) as Hc.
  destruct (deleteNetwork id s) as [s' [p|e|w]]; apply Hc.
Qed.
Lemma h_updateUser `{E : env} f : hkeeps (updateUser f).
Proof.
  apply healthy_spec; [|apply wf_updateUser]. intros s Hs. apply (updateUser_spec store_fresh f s Hs).
Qed.
Lemma h_ucall {A} a (f : list uaction → A) : hkeeps (ucall a f).
Proof. apply healthy_of. intros pr. apply own_ucall. Qed.

(** Fewer open connections, or another list bound the same way. *)
Lemma h_downstreams (f : list downConn → list downConn) :
  (∀ l d p, d ∈ f l → dn_closed d = false → dn_network d = Some p → ∃ d0, d0 ∈ l ∧ dn_closed d0 = false ∧ dn_network d0 = Some p) →
  hkeeps (modify (λ s, set_us_downstreams (f (us_downstreams s)) s)).
Proof.
  intros Hf. apply preserves_modify. intros s [[Hn Hb] Hw]. split; [|done]. split; [done|]. cbn.
  intros d p Hd Hc Hp. destruct (Hf _ d p Hd Hc Hp) as (d0 & Hd0 & Hc0 & Hp0). by apply (Hb d0).
Qed.
Lemma h_close_all : hkeeps (modify (λ s, set_us_downstreams (close_dn <$> us_downstreams s) s)).
Proof. apply h_downstreams. intros l d p (d0 & -> & Hd0)%list_elem_of_fmap. done. Qed.

(** A method of a network that keeps its identity. *)
Lemma identity_keeps {A} (m : M A) : (∀ i, preserves (λ n, net_identity n = i) m) → keeps_identity m.
Proof. intros Hm n. specialize (Hm (net_identity n) n eq_refl). by injection Hm. Qed.
Lemma h_on_network `{E : env} {A} p (m : env → M A) :
  (∀ E i, preserves (λ n, net_identity n = i) (m E)) → (∀ E, preserves uwf (m E)) → hkeeps (on_network p m).
Proof.
  intros Hi Hw. apply healthy_of. intros pr. apply own_on_network_identity; [|done]. intros E0. apply identity_keeps, Hi.
Qed.

Lemma h_apply_user_update `{E : env} hashed fs : hkeeps (apply_user_update hashed fs).
Proof.
  unfold apply_user_update. apply preserves_bind; [apply preserves_try, h_updateUser|]. intros o.
  apply preserves_bind; [apply preserves_when; intros _; apply h_close_all|]. intros _. pres.
Qed.

Lemma healthy_new u : healthy (newUserState u).
Proof.
  split; [|by intros p n Hp]. split; [|by intros d p Hd; inversion Hd].
  split; cbn; try constructor. intros p [n Hp]. done.
Qed.
End users.

(** ** The commands *)

Section service.
Context `{UE : uenv} `{SV : svenv} `{UnicodeTables} (E : string → env).
Context (store_fresh : ∀ tr ids uid r id, nID r = 0 → ue_StoreNetwork tr ids uid r = inl id → id ≠ 0 ∧ id ∉ ids).

Abbreviation akeeps := (preserves all_healthy).

Lemma ah_on_user {A} name (m : UM A) : preserves healthy m → akeeps (on_user name m).
Proof.
  intros Hm sv Hsv. unfold on_user. destruct (srv_users sv !! name) as [s|] eqn:Hs; [|done].
  specialize (Hm s (Hsv name s Hs)). destruct (m s) as [s' r]. by apply map_Forall_insert_2.
Qed.
Lemma ah_semit a : akeeps (semit a).
Proof. by apply preserves_modify. Qed.
Lemma ah_on_net {A} user p (m : env → M A) :
  (∀ E i, preserves (λ n, net_identity n = i) (m E)) → (∀ E, preserves uwf (m E)) → akeeps (on_net E user p m).
Proof. intros Hi Hw. apply ah_on_user. by apply h_on_network. Qed.

Ltac pres_more ::=
  match goal with
  | |- preserves (λ n, net_identity n = _) (modify _) => apply preserves_modify; intros ? ?; cbn; assumption
  | |- preserves _ (on_net _ _ _ _) => apply ah_on_net; intros
  | |- preserves _ (on_user _ _) => apply ah_on_user
  | |- preserves _ (request _ _ _) => unfold request
  | |- preserves _ (wrap_err _ _) => unfold wrap_err
  | |- preserves _ (scall _ _) => unfold scall
  end.
#[local] Hint Resolve ah_semit h_create h_update h_delete h_updateUser h_ucall h_apply_user_update : pres.
#[local] Hint Resolve same_SendMessage same_put_net_channel same_detach same_attach same_autoDetach : pres.
#[local] Hint Resolve uwf_SendMessage uwf_net_channel uwf_detach uwf_attach uwf_autoDetach uwf_stop uwf_del_channel : pres.

Lemma same_stop i n : preserves (λ n, net_identity n = i) (stop_autoDetach n).
Proof. unfold stop_autoDetach, put_channel. pres. Qed.
#[local] Hint Resolve same_stop : pres.
Lemma ah_print t : akeeps (print t).
Proof. unfold print. pres. by apply preserves_modify. Qed.
Lemma ah_stop ctx u : akeeps (stop_user ctx u).
Proof. unfold stop_user. pres. apply preserves_modify. intros sv Hsv. cbn. by apply map_Forall_delete. Qed.
Lemma ah_createUser u : akeeps (createUser u).
Proof.
  unfold createUser. pres. apply preserves_modify. intros sv Hsv. apply map_Forall_insert_2; [apply healthy_new|done].
Qed.
Lemma ah_debug b : akeeps (modify (set_srv_debug b)).
Proof. by apply preserves_modify. Qed.
Lemma ah_change_sasl u p f : akeeps (change_sasl E u p f).
Proof. unfold change_sasl. pres. apply preserves_modify. intros n Hn. by apply (uwf_frame n). Qed.
Lemma ah_deleteChannel u p n : akeeps (deleteChannel E u p n).
Proof. unfold deleteChannel. pres. Qed.
#[local] Hint Resolve ah_print ah_stop ah_createUser ah_debug ah_change_sasl ah_deleteChannel : pres.

#[local] Hint Unfold of_sum ctx_user parse_flags select_network print_available getNetworkFromArg getNetworkFromFlag
  sendCertfpFingerprints user_id stripNetworkSuffix parse_channel_args SetPassword : service.

Lemma ah_handler run h ctx params : (∀ c ps, akeeps (run c ps)) → akeeps (run_handler E run h ctx params).
Proof.
  intros Hrun. destruct h; cbn [run_handler].
  all: unfold handleServiceHelp, handleServiceNetworkCreate, handleServiceNetworkStatus, handleServiceNetworkUpdate,
    handleServiceNetworkDelete, handleServiceNetworkQuote, check_ignore_limit, handleServiceCertFPGenerate, generateCertFP,
    handleServiceCertFPFingerprints, handleServiceSASLStatus, handleServiceSASLSetPlain, handleServiceSASLReset,
    handleUserStatus, print_users, handleUserCreate, handleUserUpdate, update_other_user, update_own_user, handleUserDelete,
    delete_user, handleUserRun, handleServiceChannelStatus, handleServiceChannelCreate, handleServiceChannelUpdate,
    handleServiceChannelDelete, handleServiceDeviceCertificateStatus, handleServiceDeviceCertificateCreate,
    handleServiceDeviceCertificateDelete, handleServiceServerStatus, handleServiceServerNotice, handleServiceServerDebug.
  all: autounfold with service; pres.
Qed.

Lemma ah_command fuel ctx words : akeeps (handleServiceCommand E fuel ctx words).
Proof.
  revert ctx words. induction fuel as [|fuel IH]; intros ctx words; [apply preserves_panic|].
  cbn [handleServiceCommand]. unfold service_body. destruct (Get serviceCommands words) as [[cmd ps]|e|w]; [|pres..].
  destruct (_ && _); [pres|]. destruct (_ && _); [pres|].
  destruct (cmd_handle cmd) as [h|]; [|autounfold with service; pres].
  intros sv Hsv. pose proof (ah_handler _ h ctx ps IH sv Hsv) as Hh. unfold hint_help.
  by destruct (run_handler _ _ h ctx ps sv) as [sv' [[]|e|w]].
Qed.
Lemma ah_text ctx text : akeeps (handleServicePRIVMSG E ctx text).
Proof. unfold handleServicePRIVMSG. pose proof ah_command. pres. Qed.
End service.
