(* ===== verification/Dial.v ===== *)
(** * Dialling a server (upstream.go, user.go)

    Which address a network is dialled at and how its certificate is verified, and the local
    address of a user. Hash functions, the private key parser and the resolver are parameters;
    IP addresses are strings of 4 or 16 bytes, as in the package net. *)

From S2P Require Import Prelude GoStrings GoUnicode GoStrconv IrcMessage GoFlag CaseMapping Membership Modes WhoX Base64.
From S2P Require Import Effects GenMsg Caps Database Highlight Upstream UpstreamHandlers Downstream DownstreamHandlers.
From S2P Require Import UpstreamInv UserNetworks UserNetworksInv ServiceWords Service ServiceSafety.

Open Scope string_scope.
Open Scope list_scope.
Open Scope Z_scope.

(** ** Where to connect *)

(** A TLS connection presents a client certificate if there is one; [tls_certFP] replaces the
    verification of the server certificate. *)
Record tlsConfig := MkTLS { tls_serverName : string; tls_certificate : option (string * string); tls_certFP : option string }.

Inductive dialTarget :=
| DialTLS (addr : string) (config : tlsConfig)
| DialTCP (addr : string)
| DialUnix (path : string).

Section dial.
Context `{UE : uenv} (ParsePKCS8PrivateKey : string → option string).

(** The client certificate of SASL EXTERNAL. *)
Definition external_certificate (sasl : SASL) : res goerr (option (string * string)) :=
  if decide (Mechanism sasl = "EXTERNAL") then
    match CertBlob sasl, PrivKeyBlob sasl with
    | None, _ => Err (Errorf "missing certificate for authentication")
    | Some _, None => Err (Errorf "missing private key for authentication")
    | Some cert, Some blob =>
      match ParsePKCS8PrivateKey blob with
      | None => Err (Errorf "failed to parse private key: %v")
      | Some key => Ok (Some (cert, key))
      end
    end
  else Ok None.

Definition dial_target (net : dbNetwork) : res goerr dialTarget :=
  match Network_URL net with
  | None => Err (Errorf "failed to parse upstream server URL: %v")
  | Some u =>
    if decide (urlScheme u = "ircs") then
      let '(host, addr) := match ue_SplitHostPort (urlHost u) with
                           | Some (host, _) => (host, urlHost u)
                           | None => (urlHost u, urlHost u +:+ ":6697")
                           end in
      cert ← external_certificate (nSASL net);
      Ok (DialTLS addr (MkTLS host cert (if decide (nCertFP net = "") then None else Some (nCertFP net))))
    else if decide (urlScheme u = "irc+insecure") then
      Ok (DialTCP (match ue_SplitHostPort (urlHost u) with Some _ => urlHost u | None => urlHost u +:+ ":6667" end))
    else if decide (urlScheme u = "irc+unix" ∨ urlScheme u = "unix") then Ok (DialUnix (urlPath u))
    else Err (Errorf "failed to dial %q: unknown scheme: %v")
  end.
End dial.

(** ** Pinned certificates *)

Section certificates.
Context `{SV : svenv} `{UnicodeTables}.

Definition certificate_fingerprint (algo rawCert : string) : string :=
  if decide (algo = "sha-512") then hex_encode (sv_sha512 rawCert)
  else if decide (algo = "sha-256") then hex_encode (sv_sha256 rawCert)
  else "".

(** [VerifyPeerCertificate] of a network with a fingerprint. *)
Definition verifyPeerCertificate (certFP : string) (rawCerts : list string) : res goerr unit :=
  match rawCerts with
  | [] => Err (Errorf "the server didn't present any TLS certificate")
  | _ =>
    match SplitN certFP ":" 2 with
    | [algo; localCertFP] =>
      if existsb (λ c, bool_decide (certificate_fingerprint algo c = localCertFP)) rawCerts then Ok tt
      else Err (Errorf "the configured TLS certificate fingerprint doesn't match the server's - %s")
    | _ => Panic "index out of range"
    end
  end.

(** A fingerprint as a user writes it, without colons and in lower case. *)
Definition normalise (v : string) : string := ToLower (Replacer [(":", "")] v).

Lemma SplitN_algo algo fp : algo ∈ ["sha-256"; "sha-512"] → SplitN (algo +:+ ":" +:+ fp) ":" 2 = [algo; fp].
Proof.
  intros Ha. unfold SplitN. cbn [Nat.sub split_upto].
  assert (Cut (algo +:+ ":" +:+ fp) ":" = Some (algo, fp)) as ->; [|done].
  repeat (apply elem_of_cons in Ha as [->|Ha]; [by destruct fp|]). by inversion Ha.
Qed.

(** The fingerprint a network has after [-certfp v], and the certificates it admits. *)
Lemma certFP_pins v fp rawCerts :
  certFP_value v = Ok fp → fp ≠ "" →
  verifyPeerCertificate fp rawCerts = Ok tt ↔
  ∃ c, c ∈ rawCerts ∧
    (normalise v = hex_encode (sv_sha256 c) ∧ slen (normalise v) = 64%nat ∨
     normalise v = hex_encode (sv_sha512 c) ∧ slen (normalise v) = 128%nat).
Proof.
  unfold certFP_value. fold (normalise v). set (x := normalise v). intros Hfp Hne.
  assert (∀ algo, algo ∈ ["sha-256"; "sha-512"] → verifyPeerCertificate (algo +:+ ":" +:+ x) rawCerts = Ok tt ↔
    ∃ c, c ∈ rawCerts ∧ x = certificate_fingerprint algo c) as Hv.
  { intros algo Ha. unfold verifyPeerCertificate. destruct rawCerts as [|c0 cs]; [split; [done|intros (c & Hc & _); by inversion Hc]|].
    rewrite SplitN_algo by done. destruct (existsb _ _) eqn:E.
    - split; [intros _|done]. apply existsb_exists in E as (c & Hc & Heq%bool_decide_eq_true). exists c.
      split; [by apply list_elem_of_In|done].
    - split; [done|]. intros (c & Hc & Heq). apply not_true_iff_false in E. destruct E. apply existsb_exists. exists c.
      split; [by apply list_elem_of_In|]. by apply bool_decide_eq_true. }
  destruct (hex_decode x); [|done].
  destruct (slen x =? 0)%nat eqn:E0; [by injection Hfp as <-|].
  destruct (slen x =? 64)%nat eqn:E1; [|destruct (slen x =? 128)%nat eqn:E2; [|done]]; injection Hfp as <-; bool_to_prop.
  - rewrite (Hv "sha-256") by set_solver. split; intros (c & Hc & Hx); exists c; (split; [done|]).
    + left. done.
    + destruct Hx as [[Hx _]|[_ Hx]]; [done|lia].
  - rewrite (Hv "sha-512") by set_solver. split; intros (c & Hc & Hx); exists c; (split; [done|]).
    + right. done.
    + destruct Hx as [[_ Hx]|[Hx _]]; [lia|done].
Qed.
End certificates.

(** C9: A pinned certificate. When a user sets the certificate fingerprint of a network to
    [v], with or without colons and in either case, the network is dialled with TLS unless its
    address names another scheme, and a server is accepted exactly when one of the
    certificates it presents has the SHA-256 or SHA-512 hash, as the length of [v] says, that
    [v] denotes. *)
Theorem certificate_pinned `{UE : uenv} `{SV : svenv} `{UnicodeTables} (parseKey : string → option string)
    (v fp : string) (net : dbNetwork) (target : dialTarget) :
  certFP_value v = Ok fp → fp ≠ "" → nCertFP net = fp → dial_target parseKey net = Ok target →
  match target with
  | DialTLS _ config => tls_certFP config = Some fp ∧
      ∀ rawCerts, verifyPeerCertificate fp rawCerts = Ok tt ↔
        ∃ c, c ∈ rawCerts ∧
          (normalise v = hex_encode (sv_sha256 c) ∧ slen (normalise v) = 64%nat ∨
           normalise v = hex_encode (sv_sha512 c) ∧ slen (normalise v) = 128%nat)
  | DialTCP _ => ∃ u, Network_URL net = Some u ∧ urlScheme u = "irc+insecure"
  | DialUnix _ => ∃ u, Network_URL net = Some u ∧ (urlScheme u = "irc+unix" ∨ urlScheme u = "unix")
  end.
Proof.
  intros Hv Hne Hnet. unfold dial_target. destruct (Network_URL net) as [u|]; [|done].
  case_decide; [|case_decide; [|case_decide; [|done]]].
  - destruct (match ue_SplitHostPort _ with Some _ => _ | None => _ end) as [host addr].
    destruct (external_certificate parseKey (nSASL net)) as [cert|e|w]; [|done..]. intros [= <-]. cbn.
    rewrite Hnet, decide_False by done. split; [done|]. intros rawCerts. by apply certFP_pins.
  - intros [= <-]. eauto.
  - intros [= <-]. eauto.
Qed.

(** A fingerprint with colons and capital letters; the hash of the certificate is itself. *)
Definition demo_cert : string := "0123456789:;<=>?0123456789:;<=>?".
Definition demo_fingerprint : string :=
  "30:31:32:33:34:35:36:37:38:39:3A:3B:3C:3D:3E:3F:30:31:32:33:34:35:36:37:38:39:3A:3B:3C:3D:3E:3F".
Definition demo_pinned : dbNetwork :=
  MkNetwork 1 "" "irc.example.org" "" "" "" "" [] ("sha-256:" +:+ hex_encode demo_cert) emptySASL true true.

Lemma certificate_pinned_witness :
  dial_target (UE:=demo_uenv) Some demo_pinned
    = Ok (DialTLS "irc.example.org:6697" (MkTLS "irc.example.org" None (Some (nCertFP demo_pinned)))) ∧
  verifyPeerCertificate (SV:=demo_svenv) (nCertFP demo_pinned) ["intermediate"; demo_cert] = Ok tt ∧
  verifyPeerCertificate (SV:=demo_svenv) (nCertFP demo_pinned) ["another"] ≠ Ok tt.
Proof.
  assert (dial_target (UE:=demo_uenv) Some demo_pinned
    = Ok (DialTLS "irc.example.org:6697" (MkTLS "irc.example.org" None (Some (nCertFP demo_pinned))))) as Hdial by (vm_compute; reflexivity).
  destruct (certificate_pinned (UE:=demo_uenv) (SV:=demo_svenv) (H:=latin1_tables) Some demo_fingerprint (nCertFP demo_pinned)
    demo_pinned _ ltac:(vm_compute; reflexivity) ltac:(discriminate) eq_refl Hdial) as [_ Hv].
  split; [exact Hdial|]. split.
  - apply Hv. exists demo_cert. split; [by right; left|]. left. vm_compute. split; reflexivity.
  - intros (c & Hc & Hx)%Hv. apply list_elem_of_singleton in Hc as ->. destruct Hx as [[Hx _]|[Hx _]]; vm_compute in Hx; discriminate Hx.
Defined.

(** ** Addresses *)

(** Big-endian numbers: [big.Int.SetBytes] and [big.Int.Bytes], which has no leading zeros. *)
Definition SetBytes (s : string) : Z := foldl (λ z c, 256 * z + byte_val c) 0 (str_list s).
Fixpoint Bytes_go (fuel : nat) (z : Z) (acc : string) : string :=
  match fuel with
  | O => acc
  | S fuel => if z =? 0 then acc else Bytes_go fuel (z / 256) (String (byte_of (z mod 256)) acc)
  end.
Definition Bytes (z : Z) : string := Bytes_go (Z.to_nat (Z.log2 z + 1)) z "".

(** [IP.To4]: the four bytes of an IPv4 address, in either form. *)
Definition v4_in_6 : string := str_of_list (replicate 10 (byte_of 0) ++ [byte_of 255; byte_of 255]).
Definition To4 (ip : string) : option string :=
  if (slen ip =? 4)%nat then Some ip
  else if (slen ip =? 16)%nat && HasPrefix ip v4_in_6 then Some (str_drop 12 ip)
  else None.

Record IPNet := MkIPNet { in_IP : string; in_Mask : string }.

Definition networkNumberAndMask (n : IPNet) : option (string * string) :=
  match To4 (in_IP n), slen (in_Mask n) with
  | Some ip, 4%nat => Some (ip, in_Mask n)
  | Some ip, 16%nat => Some (ip, str_drop 12 (in_Mask n))
  | None, 16%nat => if (slen (in_IP n) =? 16)%nat then Some (in_IP n, in_Mask n) else None
  | _, _ => None
  end.

Definition Contains_ip (n : IPNet) (ip : string) : bool :=
  match networkNumberAndMask n with
  | None => (slen ip =? 0)%nat
  | Some (nn, m) =>
    let ip := default ip (To4 ip) in
    (slen ip =? slen nn)%nat &&
    forallb (λ x : ascii * ascii * ascii, let '(a, b, c) := x in Z.land (byte_val a) (byte_val c) =? Z.land (byte_val b) (byte_val c))
      (zip (zip (str_list nn) (str_list ip)) (str_list m))
  end.

(** The network of the family of the remote address. *)
Definition user_network (upstreamUserIPs : list IPNet) (remoteIP : string) : option IPNet :=
  let wantIPv6 := bool_decide (To4 remoteIP = None) in
  List.find (λ n, Bool.eqb wantIPv6 (bool_decide (To4 (in_IP n) = None))) upstreamUserIPs.

(** [localTCPAddr] of the user with the given ID; [None] leaves the choice to the system. *)
Definition localTCPAddr (upstreamUserIPs : list IPNet) (id : Z) (remoteIP : string) : res goerr (option string) :=
  match upstreamUserIPs with
  | [] => Ok None
  | _ =>
    match user_network upstreamUserIPs remoteIP with
    | None => Ok None
    | Some n =>
      let ip := Bytes (SetBytes (in_IP n) + wrap_i64 (id + 1)) in
      if Contains_ip n ip then Ok (Some ip) else Err (Errorf "IP network %v too small")
    end
  end.

(** [resolveIPAddr]: a random one of the addresses, of the IPv6 ones if there are any; an empty
    answer of the resolver panics. *)
Definition resolveIPAddr (lookup : string → list string + goerr) (rand : nat → nat) (host : string) : res goerr string :=
  match lookup host with
  | inr e => Err e
  | inl ipAddrs =>
    let ip6Addrs := filter (λ ip, To4 ip = None) ipAddrs in
    let ipAddrs := match ip6Addrs with [] => ipAddrs | _ => ip6Addrs end in
    match ipAddrs !! rand (length ipAddrs) with
    | Some ip => Ok ip
    | None => Panic "invalid argument to Intn"
    end
  end.

(** [dialTCP] up to the connection: the address to dial and the local address. *)
Definition dialTCP `{UE : uenv} (upstreamUserIPs : list IPNet) (id : Z) (lookup : string → list string + goerr)
    (rand : nat → nat) (JoinHostPort : string → string → string) (addr : string) : res goerr (string * option string) :=
  match upstreamUserIPs with
  | [] => Ok (addr, None)
  | _ =>
    match ue_SplitHostPort addr with
    | None => Err (Errorf "address %s: missing port in address")
    | Some (host, port) =>
      ip ← match resolveIPAddr lookup rand host with
           | Err _ => Err (Errorf "failed to resolve host %q: %v")
           | r => r
           end;
      local ← match localTCPAddr upstreamUserIPs id ip with
              | Err _ => Err (Errorf "failed to pick local IP for remote host %q: %v")
              | r => r
              end;
      Ok (JoinHostPort ip port, local)
    end
  end.

(** The addresses of two users differ: bytes and numbers determine each other. *)
Lemma SetBytes_String c s : SetBytes (String c s) = byte_val c * 256 ^ Z.of_nat (slen s) + SetBytes s.
Proof.
  unfold SetBytes. cbn [str_list foldl]. rewrite Z.mul_0_r, Z.add_0_l.
  assert (∀ l z, foldl (λ z c, 256 * z + byte_val c) z l
    = z * 256 ^ Z.of_nat (length l) + foldl (λ z c, 256 * z + byte_val c) 0 l) as Hl.
  { induction l as [|d l IH]; intros z; cbn [foldl length]; [rewrite Z.pow_0_r; lia|].
    rewrite IH, (IH (256 * 0 + _)), Nat2Z.inj_succ, Z.pow_succ_r by lia. ring. }
  rewrite Hl. enough (length (str_list s) = slen s) as -> by done. by induction s; cbn; f_equal.
Qed.

Lemma SetBytes_go fuel z acc :
  0 ≤ z < 256 ^ Z.of_nat fuel → SetBytes (Bytes_go fuel z acc) = z * 256 ^ Z.of_nat (slen acc) + SetBytes acc.
Proof.
  revert z acc. induction fuel as [|fuel IH]; intros z acc Hz; cbn [Bytes_go]; [rewrite Z.pow_0_r in Hz; lia|].
  destruct (z =? 0) eqn:E; bool_to_prop; [lia|].
  rewrite Nat2Z.inj_succ, Z.pow_succ_r in Hz by lia. rewrite IH by (Z.to_euclidean_division_equations; lia).
  rewrite SetBytes_String, byte_val_of by (apply Z.mod_pos_bound; lia). cbn [slen].
  rewrite Nat2Z.inj_succ, Z.pow_succ_r by lia. rewrite (Z.div_mod z 256) at 3 by lia. ring.
Qed.

Lemma SetBytes_Bytes z : 0 ≤ z → SetBytes (Bytes z) = z.
Proof.
  intros Hz. unfold Bytes. pose proof (Z.log2_nonneg z). rewrite SetBytes_go; [cbn; lia|]. split; [done|].
  destruct (decide (z = 0)) as [->|]; [done|]. rewrite Z2Nat.id by lia.
  apply Z.lt_le_trans with (2 ^ (Z.log2 z + 1)); [apply Z.log2_lt_pow2; lia|]. apply Z.pow_le_mono_l. lia.
Qed.

Lemma local_addresses_distinct nets id1 id2 r1 r2 a1 a2 :
  user_network nets r1 = user_network nets r2 → 0 ≤ id1 < 2 ^ 63 - 1 → 0 ≤ id2 < 2 ^ 63 - 1 → id1 ≠ id2 →
  localTCPAddr nets id1 r1 = Ok (Some a1) → localTCPAddr nets id2 r2 = Ok (Some a2) → a1 ≠ a2.
Proof.
  intros Hn H1 H2 Hne. unfold localTCPAddr. destruct nets as [|n0 nets]; [done|]. rewrite <-Hn.
  destruct (user_network _ r1) as [n|]; [|done]. cbv zeta. rewrite !wrap_i64_small by lia.
  assert (0 ≤ SetBytes (in_IP n)) as Hb.
  { unfold SetBytes. cut (∀ l z, 0 ≤ z → 0 ≤ foldl (λ z c, 256 * z + byte_val c) z l); [intros Hl; by apply Hl|].
    induction l as [|c l IH]; intros z Hz; [done|]. apply IH. pose proof (byte_val_bounds c). lia. }
  destruct (Contains_ip n (Bytes _)); [|done]. intros [= <-]. destruct (Contains_ip n (Bytes _)); [|done]. intros [= <-].
  intros Heq. apply (f_equal SetBytes) in Heq. rewrite !SetBytes_Bytes in Heq by lia. lia.
Qed.
