(* ===== verification/NetworkRun.v ===== *)
(** * The connection of a network (user.go, upstream.go)

    The goroutine of a network connects to its server, registers, and hands the messages of
    the server to the user's event loop; when the connection ends it tries again, with growing
    delays after errors, until the network is stopped or the server says that its configuration
    is wrong. *)

From S2P Require Import Prelude GoStrings GoUnicode IrcMessage CaseMapping Membership Modes WhoX Base64.
From S2P Require Import Effects GenMsg Caps Database Backoff Highlight Upstream UpstreamHandlers UpstreamInv GoTime.

Open Scope string_scope.
Open Scope list_scope.
Open Scope Z_scope.

(** ** One connection *)

(** The network with the connection that [connectToUpstream] makes. *)
Definition connectToUpstream (n : ustate) : ustate :=
  let c := newConnection (net_record n) [] in
  set_trace (trace n) (set_net_lastError (net_lastError n) (set_net_connected (net_connected n)
    (set_net_pushTargets (net_pushTargets n) (set_net_delivered (net_delivered n) (set_net_channels (net_channels n)
      (set_net_casemap (net_casemap n) c)))))).

Section conn.
Context `{E : env} `{UnicodeTables} (ParseMessage : string → option Message).

(** [runConn] until the connection is given to the event loop; [msgs] are the messages of the
    server during the registration. *)
Definition runConn (msgs : list (option Message)) : M unit :=
  modify connectToUpstream ;;
  register_uc ;;
  runUntilRegistered msgs ;;
  s ← gets id;
  foreach (λ command, match ParseMessage command with Some m => SendMessage_uc m | None => skip end)
    (nConnectCommands (net_record s)) ;;
  s ← gets id;
  let saved := value <$> CMM.Entries (net_channels s) in
  when (0 <? length saved)%nat (joins ← lift (GenerateJoin (cName <$> saved) (cKey <$> saved)); foreach SendMessage_uc joins).
End conn.

(** ** The loop *)

Definition retryConnectMinDelay : Z := 60 * nsPerSecond.
Definition retryConnectMaxDelay : Z := 10 * 60 * nsPerSecond.
Definition retryConnectJitter : Z := 60 * nsPerSecond.

Record runState := MkRun { rs_backoff : backoffer; rs_lastTry : Z; rs_now : Z }.

(** [Time.Sub] saturates. *)
Definition Sub (t u : Z) : Z := Z.max (- 2 ^ 63) (Z.min (2 ^ 63 - 1) (t - u)).

(** The wait before an attempt; [r] is the random value of the jitter. *)
Definition wait_attempt (r : Z) (s : runState) : res string runState :=
  '(b, d) ← backoffer_Next r (rs_backoff s);
  let delay := wrap_i64 (d - Sub (rs_now s) (rs_lastTry s)) in
  let now := if 0 <? delay then rs_now s + delay else rs_now s in
  Ok (MkRun b now now).

(** Whether an error of [runConn] may go away by itself. *)
Definition temporary (e : goerr) : res goerr bool :=
  match e with registrationError m => registrationError_Temporary m | _ => Ok true end.

Section run.
(** What happens at the [k]-th attempt: whether the network was stopped before it, the value
    drawn for the jitter, and, when it starts at a given time, how [runConn] ends ([None]
    without error) and how long it takes. *)
Context (stopped : nat → bool) (jitter : nat → Z) (outcome : nat → Z → option goerr) (duration : nat → Z → Z).

(** The attempts made, with their starting times, in at most [fuel] rounds. *)
Fixpoint net_run (fuel k : nat) (s : runState) : list (Z * option goerr) :=
  match fuel with
  | O => []
  | S fuel =>
    if stopped k then []
    else match wait_attempt (jitter k) s with
    | Ok s =>
      let t := rs_now s in
      let next b := net_run fuel (S k) (MkRun b (rs_lastTry s) (t + duration k t)) in
      (t, outcome k t) ::
        match outcome k t with
        | None => next (backoffer_Reset (rs_backoff s))
        | Some e => match temporary e with Ok true => next (rs_backoff s) | _ => [] end
        end
    | _ => []
    end
  end.

Definition network_run (userEnabled netEnabled : bool) (now : Z) (fuel : nat) : list (Z * option goerr) :=
  if negb userEnabled || negb netEnabled then []
  else net_run fuel 0 (MkRun (newBackoffer retryConnectMinDelay retryConnectMaxDelay retryConnectJitter) zeroTime now).
End run.

(** ** Retrying *)

Definition retry (n : Z) : backoffer := MkBackoffer retryConnectMinDelay retryConnectMaxDelay retryConnectJitter n.
Abbreviation retry_inv := (backoff_inv retryConnectMinDelay retryConnectMaxDelay).

(** The delay between the beginnings of two attempts after [m] failures in a row, [r] being
    the value of the jitter: none after a success, else twice as long after each failure,
    from the minimum up to the maximum. *)
Definition reconnect_delay (m : nat) (r : Z) : Z :=
  match m with O => 0 | S _ => backoff_base retryConnectMinDelay retryConnectMaxDelay m + r end.

(** The failures in a row at the end of a list of attempts, [m] failures coming before it. *)
Definition failures (m : nat) (l : list (Z * option goerr)) : nat :=
  foldl (λ m a, match a.2 with None => 0%nat | Some _ => S m end) m l.

(** The counter of the backoff after [m] failures in a row. *)
Definition fail_inv (m : nat) (n : Z) : Prop :=
  match m with O => n = 0 | S m' => retry_inv m' n end.

Lemma backoff_next_delay r m n :
  0 ≤ r < retryConnectJitter → fail_inv m n →
  ∃ n', backoffer_Next r (retry n) = Ok (retry n', reconnect_delay m r) ∧ fail_inv (S m) n'.
Proof.
  intros Hr Hn. destruct m as [|m]; cbn in Hn.
  - subst n. exists 1. split; [done|]. cbn. unfold backoff_inv, retryConnectMinDelay, retryConnectMaxDelay, nsPerSecond.
    cbn. lia.
  - pose proof (backoff_step retryConnectMinDelay retryConnectMaxDelay retryConnectJitter) as Hstep.
    unfold reconnect_delay, fail_inv, retry, retryConnectMinDelay, retryConnectMaxDelay, retryConnectJitter, nsPerSecond in *.
    destruct (Hstep ltac:(lia) ltac:(lia) ltac:(lia) r m n ltac:(lia) Hn) as (n' & -> & Hn').
    exists n'. split; [|done]. unfold jitter_of. by rewrite decide_False by lia.
Qed.

Lemma reconnect_delay_bounds m r :
  0 ≤ r < retryConnectJitter →
  (m ≠ 0%nat → retryConnectMinDelay ≤ reconnect_delay m r) ∧
  0 ≤ reconnect_delay m r < retryConnectMaxDelay + retryConnectJitter.
Proof.
  intros Hr. destruct m as [|m]; [split; [done|]|];
    unfold reconnect_delay, backoff_base, retryConnectMinDelay, retryConnectMaxDelay, retryConnectJitter, nsPerSecond in *; [lia|].
  assert (1 ≤ 2 ^ Z.of_nat m) by (apply (Z.pow_le_mono_r 2 0); lia). lia.
Qed.

(** An attempt starts when the delay has passed since the beginning of the last one at [p],
    but not before that one has ended, at [q]. *)
Lemma wait_attempt_step r n m p q :
  0 ≤ r < retryConnectJitter → fail_inv m n → p ≤ q →
  ∃ n', let t := Z.max q (p + reconnect_delay m r) in
    wait_attempt r (MkRun (retry n) p q) = Ok (MkRun (retry n') t t) ∧ fail_inv (S m) n'.
Proof.
  intros Hr Hn Hpq. destruct (backoff_next_delay r m n Hr Hn) as (n' & Hnext & Hn'). exists n'.
  split; [|done]. unfold wait_attempt. cbn [rs_backoff rs_now rs_lastTry]. rewrite Hnext.
  unfold mbind, res_mbind, res_bind. cbv zeta. pose proof (proj2 (reconnect_delay_bounds m r Hr)) as Hd.
  unfold retryConnectMaxDelay, retryConnectJitter, nsPerSecond, Sub in *.
  rewrite wrap_i64_small by lia. do 2 f_equal; destruct (0 <? _) eqn:E; bool_to_prop; lia.
Qed.

Section schedule.
Context (stopped : nat → bool) (jitter : nat → Z) (outcome : nat → Z → option goerr) (duration : nat → Z → Z).
Context (Hjitter : ∀ k, 0 ≤ jitter k < retryConnectJitter) (Hduration : ∀ k t, 0 ≤ duration k t).

Abbreviation attempts := (net_run stopped jitter outcome duration).

(** The attempts [l] from the [k]-th one on, after [m] failures in a row, the last attempt
    having lasted from [p] to [q]. *)
Fixpoint scheduled (k m : nat) (p q : Z) (l : list (Z * option goerr)) : Prop :=
  match l with
  | [] => True
  | (t, o) :: l' =>
    t = Z.max q (p + reconnect_delay m (jitter k)) ∧ o = outcome k t ∧ stopped k = false ∧
    (∀ e, o = Some e → temporary e ≠ Ok true → l' = []) ∧
    scheduled (S k) (match o with None => 0 | Some _ => S m end) t (t + duration k t) l'
  end.

(** The loop gave up in the round after the attempts [l]. *)
Definition gave_up (k : nat) (l : list (Z * option goerr)) : Prop :=
  stopped (k + length l) = true ∨ ∃ t e, last l = Some (t, Some e) ∧ temporary e ≠ Ok true.

Lemma net_run_scheduled fuel k m n p q :
  fail_inv m n → p ≤ q →
  let l := attempts fuel k (MkRun (retry n) p q) in
  scheduled k m p q l ∧ (length l = fuel ∨ (length l < fuel)%nat ∧ gave_up k l).
Proof using Hjitter Hduration.
  revert k m n p q. induction fuel as [|fuel IH]; intros k m n p q Hn Hpq; [split; [done|by left]|].
  cbn [net_run]. destruct (stopped k) eqn:Hs.
  { split; [done|]. right. split; [cbn; lia|]. left. by rewrite Nat.add_0_r. }
  destruct (wait_attempt_step (jitter k) n m p q (Hjitter k) Hn Hpq) as (n' & Hw & Hn'). cbn zeta in Hw. rewrite Hw.
  cbn [rs_now rs_lastTry rs_backoff]. set (t := Z.max q _). pose proof (Hduration k t) as Hd.
  assert (∀ m' n' l, fail_inv m' n' → l = attempts fuel (S k) (MkRun (retry n') t (t + duration k t)) →
    m' = (match outcome k t with None => 0 | Some _ => S m end)%nat →
    (∀ e, outcome k t = Some e → temporary e = Ok true) →
    scheduled k m p q ((t, outcome k t) :: l) ∧
    (length ((t, outcome k t) :: l) = S fuel ∨
     (length ((t, outcome k t) :: l) < S fuel)%nat ∧ gave_up k ((t, outcome k t) :: l))) as Hnext.
  { intros m' n1 l Hn1 -> Hm' Htemp. destruct (IH (S k) m' n1 t (t + duration k t) Hn1 ltac:(lia)) as [Hsch Hlen].
    split; [|cbn [length]; destruct Hlen as [->|[? Hup]]; [by left|right; split; [lia|]]].
    - subst m'. cbn. split_and!; [done|done|done|intros e He []; by apply Htemp|done].
    - destruct Hup as [Hstop|(t' & e & Hl & He)]; [left|right].
      + rewrite <-Hstop. f_equal. cbn. lia.
      + exists t', e. split; [|done]. rewrite last_cons, Hl. done. }
  destruct (outcome k t) as [e|] eqn:Ho; [|by apply (Hnext 0%nat 0)].
  assert (temporary e = Ok true ∨ temporary e ≠ Ok true) as [He|He]
    by (destruct (temporary e) as [[|]| |]; (by left) || (by right)).
  - rewrite He. apply (Hnext (S m) n'); [done|done|done|]. by intros e' [= <-].
  - assert ((match temporary e with Ok true => attempts fuel (S k) (MkRun (retry n') t (t + duration k t))
                              | _ => [] end) = []) as -> by (destruct (temporary e) as [[|]| |]; done).
    split; [cbn; split_and!; try done; by rewrite Ho|]. destruct fuel as [|fuel]; [by left|right].
    split; [cbn; lia|]. right. eauto.
Qed.

Lemma scheduled_outcome k m p q l j t o :
  scheduled k m p q l → l !! j = Some (t, o) →
  o = outcome (k + j) t ∧ stopped (k + j) = false ∧
  (∀ e, o = Some e → temporary e ≠ Ok true → length l = S j).
Proof.
  revert k m p q j. induction l as [|[t0 o0] l IH]; intros k m p q j; [done|]. intros (H1 & H2 & H3 & H4 & H5).
  destruct j as [|j]; cbn.
  - intros [= <- <-]. rewrite Nat.add_0_r. split_and!; [done|done|]. intros e He Ht. by rewrite (H4 e He Ht).
  - intros Hj. destruct (IH _ _ _ _ _ H5 Hj) as (Ho & Hs & He). rewrite Nat.add_succ_r.
    split_and!; [done|done|]. intros e He1 He2. f_equal. eauto.
Qed.

Lemma scheduled_gap k m p q l j t o t' o' :
  scheduled k m p q l → l !! j = Some (t, o) → l !! S j = Some (t', o') →
  t' = Z.max (t + duration (k + j) t) (t + reconnect_delay (failures m (take (S j) l)) (jitter (k + S j))).
Proof.
  revert k m p q j. induction l as [|[t0 o0] l IH]; intros k m p q j; [done|]. intros (H1 & H2 & H3 & H4 & H5).
  destruct j as [|j].
  - intros [= <- <-] Hj. destruct l as [|[t1 o1] l]; [done|]. cbn in Hj. injection Hj as -> ->.
    destruct H5 as (-> & _). rewrite Nat.add_0_r, Nat.add_1_r. done.
  - intros Hj Hj'. pose proof (IH (S k) _ _ _ _ H5 Hj Hj') as ->. by rewrite <-!Nat.add_succ_comm.
Qed.
End schedule.

(** The first entry of a list of growing times that reaches [T]. *)
Lemma first_reaching (l : list (Z * option goerr)) (T : Z) j t o :
  l !! j = Some (t, o) → T ≤ t →
  ∃ i t' o', l !! i = Some (t', o') ∧ T ≤ t' ∧
    (i = 0%nat ∨ ∃ i0 t0 o0, i = S i0 ∧ l !! i0 = Some (t0, o0) ∧ t0 < T).
Proof.
  revert t o. induction j as [|j IH]; intros t o Hj HT; [by exists 0%nat, t, o; eauto|].
  destruct (lookup_lt_is_Some_2 l j) as [[t0 o0] Hj0]; [apply lookup_lt_Some in Hj; lia|].
  destruct (decide (T ≤ t0)) as [Hge|Hlt]; [by apply (IH t0 o0)|].
  exists (S j), t, o. split_and!; [done|done|]. right. exists j, t0, o0. split_and!; [done|done|lia].
Qed.

(** C8: The attempts of [network.run] to connect, for an enabled network of an enabled user,
    whatever [runConn] answers and however long it takes, provided that a connection that ends
    without error has lasted. The first attempt is made at once. Each other attempt starts when
    the one before has ended and the delay since its beginning has passed: none when that one
    ended without error, else one that doubles with each failure in a row, from one minute to
    ten, plus the jitter. The loop goes on until the network is stopped or an attempt ends in a
    registration error that is not temporary, and no attempt follows these. So it never gives
    up for another reason: for every time [T], either one of these two happens, or there is an
    attempt at [T] or later, the first such one beginning at once or not later than the end of
    the attempt under way at [T], or eleven minutes after its beginning. *)
Theorem network_reconnects (stopped : nat → bool) (jitter : nat → Z) (outcome : nat → Z → option goerr)
    (duration : nat → Z → Z) (now : Z) :
  let run := network_run stopped jitter outcome duration true true now in
  let gave_up l := stopped (length l) = true ∨ ∃ t e, last l = Some (t, Some e) ∧ temporary e ≠ Ok true in
  zeroTime ≤ now → (∀ k, 0 ≤ jitter k < retryConnectJitter) →
  (∀ k t, 0 ≤ duration k t) → (∀ k t, outcome k t = None → 0 < duration k t) →
  (∀ fuel, let l := run fuel in
    (∀ t o, head l = Some (t, o) → t = now) ∧
    (∀ j t o, l !! j = Some (t, o) → o = outcome j t ∧ stopped j = false) ∧
    (∀ j t o t' o', l !! j = Some (t, o) → l !! S j = Some (t', o') →
      t' = Z.max (t + duration j t) (t + reconnect_delay (failures 0 (take (S j) l)) (jitter (S j)))) ∧
    (∀ j t e, l !! j = Some (t, Some e) → temporary e ≠ Ok true → length l = S j) ∧
    (length l = fuel ∨ (length l < fuel)%nat ∧ gave_up l)) ∧
  (∀ T, ∃ fuel,
    gave_up (run fuel) ∨
    ∃ j t o, run fuel !! j = Some (t, o) ∧ T ≤ t ∧
      (j = 0%nat ∧ t = now ∨
       ∃ i t0 o0, j = S i ∧ run fuel !! i = Some (t0, o0) ∧ t0 < T ∧
         t ≤ Z.max (t0 + duration i t0) (t0 + retryConnectMaxDelay + retryConnectJitter))).
Proof.
  intros run gave_up0 Hnow Hj Hd Hs.
  assert (∀ fuel, scheduled stopped jitter outcome duration 0 0 zeroTime now (run fuel) ∧
    (length (run fuel) = fuel ∨ (length (run fuel) < fuel)%nat ∧ gave_up0 (run fuel))) as Hrun
    by (intros fuel; apply (net_run_scheduled stopped jitter outcome duration Hj Hd fuel 0 0 0); done).
  assert (∀ fuel t o, head (run fuel) = Some (t, o) → t = now) as Hfirst.
  { intros fuel t o Hl. destruct (Hrun fuel) as [Hsch _]. destruct (run fuel) as [|[t0 o0] l]; [done|].
    injection Hl as <- <-. destruct Hsch as (-> & _). cbn. lia. }
  assert (∀ fuel j t o t' o', run fuel !! j = Some (t, o) → run fuel !! S j = Some (t', o') →
    t' = Z.max (t + duration j t) (t + reconnect_delay (failures 0 (take (S j) (run fuel))) (jitter (S j)))) as Hgap
    by (intros fuel j t o t' o'; apply (scheduled_gap stopped jitter outcome duration 0 0 zeroTime now), Hrun).
  split.
  { intros fuel. destruct (Hrun fuel) as [Hsch Hlen]. split_and!; [apply Hfirst| |apply Hgap| |exact Hlen];
      intros j t o Hl; destruct (scheduled_outcome _ _ _ _ _ _ _ _ _ _ _ _ Hsch Hl) as (H1 & H2 & H3); eauto. }
  intros T. exists (S (Z.to_nat (T - now))). set (fuel := S _).
  destruct (proj2 (Hrun fuel)) as [Hlen|[_ ?]]; [right|by left].
  assert (∀ j t o, run fuel !! j = Some (t, o) → now + Z.of_nat j ≤ t) as Hgrow.
  { intros j. induction j as [|j IH]; intros t' o' Hl.
    - rewrite <-head_lookup in Hl. apply Hfirst in Hl. lia.
    - destruct (lookup_lt_is_Some_2 (run fuel) j) as [[t o] Hl0]; [apply lookup_lt_Some in Hl; lia|].
      pose proof (IH _ _ Hl0) as Ht. pose proof (Hgap fuel j _ _ _ _ Hl0 Hl) as ->.
      destruct (scheduled_outcome _ _ _ _ _ _ _ _ _ _ _ _ (proj1 (Hrun fuel)) Hl0) as (Ho & _). cbn in Ho.
      pose proof (Hd j t). destruct o as [e|]; [|specialize (Hs j t (eq_sym Ho)); lia].
      assert (failures 0 (take (S j) (run fuel)) ≠ 0%nat) as Hf.
      { rewrite (take_S_r _ _ _ Hl0). unfold failures. by rewrite foldl_app. }
      pose proof (proj1 (reconnect_delay_bounds _ _ (Hj (S j))) Hf). unfold retryConnectMinDelay, nsPerSecond in *. lia. }
  destruct (lookup_lt_is_Some_2 (run fuel) (Z.to_nat (T - now))) as [[t o] Hl]; [lia|].
  destruct (first_reaching _ T _ _ _ Hl) as (j & t' & o' & Hl' & HT & Hc); [apply Hgrow in Hl; lia|].
  exists j, t', o'. split_and!; [done|done|]. destruct Hc as [->|(i & t0 & o0 & -> & Hl0 & Hlt)].
  - left. split; [done|]. rewrite <-head_lookup in Hl'. by eapply Hfirst.
  - right. exists i, t0, o0. split_and!; [done|done|done|]. rewrite (Hgap fuel i _ _ _ _ Hl0 Hl').
    pose proof (proj2 (reconnect_delay_bounds (failures 0 (take (S i) (run fuel))) _ (Hj (S i)))). lia.
Qed.

(** A server that refuses connections for five minutes, tried from the beginning. *)
Definition demo_outcome (k : nat) (t : Z) : option goerr :=
  if t <? 300 * nsPerSecond then Some (Errorf "failed to connect: %w") else None.

Lemma network_reconnects_witness :
  let run := network_run (λ _, false) (λ _, 0) demo_outcome (λ _ _, nsPerSecond) true true 0 in
  run 5%nat = (λ t, (t * nsPerSecond, demo_outcome 0 (t * nsPerSecond))) <$> [0; 60; 180; 420; 421] ∧
  ∃ fuel j t, run fuel !! j = Some (t, None) ∧ t ≤ 960 * nsPerSecond.
Proof.
  cbn zeta. split; [vm_compute; reflexivity|].
  assert (∀ e, demo_outcome 0 e = None ∨ ∃ m, demo_outcome 0 e = Some (Errorf m)) as Herr
    by (intros e; unfold demo_outcome; destruct (_ <? _); eauto).
  destruct (network_reconnects (λ _, false) (λ _, 0) demo_outcome (λ _ _, nsPerSecond) 0) as [Hall Hlive].
  - vm_compute. discriminate.
  - intros _. unfold retryConnectJitter, nsPerSecond. lia.
  - intros _ t. unfold nsPerSecond. lia.
  - intros _ t _. unfold nsPerSecond. lia.
  - destruct (Hlive (300 * nsPerSecond)) as (fuel & [[Hs|(t & e & Hl & He)]|(j & t & o & Hl & HT & Hb)]).
    + discriminate.
    + destruct (Hall fuel) as (_ & Ho & _). rewrite last_lookup in Hl. destruct (Ho _ _ _ Hl) as [Ho' _].
      change (Some e = demo_outcome 0 t) in Ho'.
      destruct (Herr t) as [Hn|(m & Hm)]; [congruence|]. rewrite Hm in Ho'. injection Ho' as ->. destruct He. reflexivity.
    + exists fuel, j, t. destruct (Hall fuel) as (_ & Ho & _). destruct (Ho _ _ _ Hl) as [-> _].
      assert (demo_outcome j t = None) as Hn
        by (unfold demo_outcome; destruct (t <? _) eqn:E; [apply Z.ltb_lt in E; lia|reflexivity]).
      rewrite <-Hn. split; [exact Hl|].
      unfold retryConnectMaxDelay, retryConnectJitter, nsPerSecond in *.
      destruct Hb as [[_ ->]|(i & t0 & o0 & _ & _ & Ht0 & Ht)]; lia.
Defined.
