(* ===== verification/DownstreamSession.v ===== *)
(** * A registered client within the bouncer (downstream.go, user.go)

    A registered connection acts on the whole bouncer: its user, the networks of the user and
    the server connections behind them. The state is the server together with the connection;
    the commands run methods of the server, and what these do to the connection itself (calls
    of its methods, notifications, answers of the service) is taken from their traces and
    executed on it in the same order. The connection sees its user and its network as they are
    in the server. The other connections are the views of [re_env]; what is sent to them stays
    in the traces. *)

From S2P Require Import Prelude GoStrings GoUnicode GoStrconv IrcMessage GoFlag CaseMapping Membership Modes WhoX Base64.
From S2P Require Import Effects GenMsg Caps Database Highlight Upstream UpstreamHandlers Downstream DownstreamHandlers.
From S2P Require Import MsgID UserNetworks ServiceWords Service GoTime.

Open Scope string_scope.
Open Scope list_scope.
Open Scope Z_scope.

Record rstate := MkR { r_srv : server; r_dc : dstate }.

(** What the rest of the program answers to a registered client: the identity of the
    connection, the views of the other connections, the IRC library's tag codec, the clock,
    the database and the message store, whose answers depend on the calls made so far. *)
Class renv := MkRenv {
  re_self : Z;
  re_user : string;
  re_env : string → env;
  re_MessageString : Message → string;
  re_ParseTags : string → gmap string string;
  re_TagsString : gmap string string → string;
  re_now : list daction → Z;
  re_FormatLocal : Z → string;
  re_errorText : goerr → string;
  re_fsStore : bool;
  re_searchStore : bool;
  re_GetMessageTarget : list daction → Z → string → MessageTarget + goerr;
  re_StoreMessageTarget : list daction → Z → MessageTarget → option goerr;
  re_GetReadReceipt : list daction → Z → string → option ReadReceipt + goerr;
  re_StoreReadReceipt : list daction → Z → ReadReceipt → option goerr;
  re_LastMsgID : list daction → Z → string → string + goerr;
  re_history : list daction → historyCall → list Message + goerr;
  re_ListTargets : list daction → Z → Z → Z → Z → bool → list (string * Z) + goerr;
  re_Search : list daction → Z → searchCall → list Message + goerr;
  re_ListWebPush : list daction → Z → Z → list WebPushSubscription + goerr;
  re_StoreWebPush : list daction → Z → Z → WebPushSubscription → option goerr;
  re_DeleteWebPush : list daction → Z → option goerr;
  re_SendWebPush : list daction → WebPushSubscription → Message → option goerr
}.

Abbreviation RM := (ST rstate).

Definition serviceRealname : string := "soju bouncer service".
Definition backlogLimit : Z := 4000.

Section session.
Context `{DE : denv} `{UE : uenv} `{SV : svenv} `{RE : renv} `{UnicodeTables} `{HBare : Bare msgIDHeader}.

(** ** Messages about channels *)

Definition sendTopic (ch : upstreamChannel) : DM unit :=
  n ← gets d_nick;
  if decide (chTopic ch ≠ "") then
    SendMessage_dc (msg RPL_TOPIC [n; chName ch; chTopic ch]) ;;
    match chTopicWho ch with
    | Some who => SendMessage_dc (msg RPL_TOPICWHOTIME [n; chName ch; de_PrefixString who; FormatInt (chTopicTime ch / nsPerSecond)])
    | None => skip
    end
  else SendMessage_dc (msg RPL_NOTOPIC [n; chName ch; "No topic is set"]).

Definition sendNames (ch : upstreamChannel) : DM unit :=
  cr ← gets d_caps;
  let members := (λ e, formatMemberPrefix (value e) (IsEnabled cr "multi-prefix") +:+ originalKey e)
                 <$> CMM.Entries (chMembers ch) in
  foreach SendMessage_dc (GenerateNamesReply re_MessageString (chName ch) (chStatus ch) members).

(** The read marker of a target, as [timestamp=...] or a star. *)
Definition marker (r : option ReadReceipt) : string :=
  match r with Some r => "timestamp=" +:+ FormatServerTime (rrTimestamp r) | None => "*" end.

Definition forward_marker (net : ustate) (name : string) : DM unit :=
  s ← gets id;
  let cmd := if IsEnabled (d_caps s) "draft/read-marker" then "MARKREAD"
             else if IsEnabled (d_caps s) "soju.im/read" then "READ" else "" in
  if decide (cmd = "") then skip
  else
    let target := cm_apply (net_casemap net) name in
    let id := nID (net_record net) in
    r ← dcall (DGetReadReceipt id target) (λ tr, re_GetReadReceipt tr id target);
    match r with
    | inr _ => skip
    | inl r => SendMessage_dc (msg_from (d_prefix s) cmd [name; marker r])
    end.

(** [forwardChannel]; [net] is the network of the channel. *)
Definition forwardChannel_dc (net : ustate) (ch : upstreamChannel) : DM unit :=
  if negb (chComplete ch) then panic "Tried to forward a partial channel"
  else
    when (bool_decide (chTopic ch ≠ "")) (sendTopic ch) ;;
    forward_marker net (chName ch) ;;
    cr ← gets d_caps;
    when (negb (IsEnabled cr "soju.im/no-implicit-names") && negb (IsEnabled cr "draft/no-implicit-names"))
      (sendNames ch).

Definition sendServiceNOTICE (text : string) : DM unit :=
  n ← gets d_nick; SendMessage_dc (msg_from servicePrefix "NOTICE" [n; text]).
Definition sendServicePRIVMSG (text : string) : DM unit :=
  n ← gets d_nick; SendMessage_dc (msg_from servicePrefix "PRIVMSG" [n; text]).

(** ** Backlog *)

(** A method of the network that changes nothing, called for its result. *)
Definition ask_net {A} (net : ustate) (m : env → M A) : DM A := lift (m (re_env re_user) net).2.

Definition relayDetachedMessage_dc (net : ustate) (m : Message) : DM unit :=
  if negb (bool_decide (Command m = "PRIVMSG" ∨ Command m = "NOTICE")) then skip
  else match MPrefix m, Params m with
  | Some p, target :: text :: _ =>
    highlight ← ask_net net (λ E, net_isHighlight (E:=E) m);
    sendServiceNOTICE ((if (highlight : bool) then "highlight" else "message") +:+ " in " +:+ target +:+ ": <" +:+ Name p +:+ "> " +:+ text)
  | None, _ => panic "invalid memory address or nil pointer dereference"
  | _, _ => panic "index out of range"
  end.

Definition history_call (c : historyCall) : DM (list Message + goerr) := dcall (DHistory c) (λ tr, re_history tr c).

Definition sendTargetBacklog_dc (net : ustate) (target msgID : string) : DM unit :=
  cr ← gets d_caps;
  if IsEnabled cr "draft/chathistory" || negb (e_hasStore (env := re_env re_user)) then skip
  else
    let ch := CMM.Get (net_channels net) target in
    history ← history_call (LoadLatestID_call (nID (net_record net)) (cm_apply (net_casemap net) target) backlogLimit msgID);
    match history with
    | inr _ => skip
    | inl history =>
      SendBatch_dc "chathistory" [target] ∅ (λ batchRef, foreach (λ m,
        match ch with
        | Some ch =>
          if cDetached ch then
            relay ← ask_net net (λ E, detachedMessageNeedsRelay (E:=E) ch m);
            when relay (relayDetachedMessage_dc net m)
          else SendMessage_dc (with_tags (<["batch" := batchRef]>) m)
        | None => SendMessage_dc (with_tags (<["batch" := batchRef]>) m)
        end) history)
    end.

(** ** Calls of the connection's methods *)

Definition exec_call (c : dc_call) : DM unit :=
  net ← gets d_network;
  let with_net (f : ustate → DM unit) : DM unit :=
    match net with Some net => f net | None => panic "invalid memory address or nil pointer dereference" end in
  match c with
  | SendMessage m => SendMessage_dc m
  | sendMessageWithID m id => sendMessageWithID_dc m id
  | advanceMessageWithID m id => advanceMessageWithID_dc m id
  | relayDetachedMessage m => with_net (λ net, relayDetachedMessage_dc net m)
  | sendTargetBacklog target id => with_net (λ net, sendTargetBacklog_dc net target id)
  | forwardChannel name => with_net (λ net,
      match CMM.Get (channels net) name with
      | Some ch => forwardChannel_dc net ch
      | None => panic "invalid memory address or nil pointer dereference"
      end)
  | endSASL m => endSASL_dc m
  | updateNick => updateNick_dc
  | updateRealname => updateRealname_dc
  | updateHost => updateHost_dc
  | updateAccount => updateAccount_dc
  | updateIsupport => updateIsupport_dc
  | updateSupportedCaps => updateSupportedCaps_dc
  | updateCasemapping_dc => dcUpdateCasemapping
  | ServiceNOTICE text => sendServiceNOTICE text
  | FlushBatch => FlushBatch_dc
  end.

(** ** The connection in the server *)

Definition own_user (sv : server) : option userState := srv_users sv !! re_user.
Definition own_net (sv : server) : option nat :=
  s ← own_user sv; d ← List.find (λ d, bool_decide (dn_id d = re_self)) (us_downstreams s); dn_network d.
Definition heap_net (sv : server) (p : nat) : option ustate := s ← own_user sv; us_heap s !! p.

(** The connection with the current state of its user and of the network at [p]. *)
Definition synced (sv : server) (p : option nat) (dc : dstate) : dstate :=
  let dc := match own_user sv with Some s => set_d_user (Some (us_record s)) dc | None => dc end in
  set_d_network (p ≫= heap_net sv) dc.

Definition on_dc_at {A} (p : server → option nat) (m : DM A) : RM A := λ r,
  let '(dc, x) := m (synced (r_srv r) (p (r_srv r)) (r_dc r)) in (MkR (r_srv r) dc, x).
(** A method of the connection. *)
Definition on_dc {A} (m : DM A) : RM A := on_dc_at own_net m.

Definition bouncer_network (id : Z) (attrs : option (gmap string string)) : Message :=
  msg "BOUNCER" ["NETWORK"; FormatInt id; match attrs with Some attrs => re_TagsString attrs | None => "*" end].

(** What one step of the server does to the connection. *)
Definition deliver_net (p : nat) (a : action) : RM unit :=
  match a with
  | ToDownstream id c => when (bool_decide (id = re_self)) (on_dc_at (λ _, Some p) (exec_call c))
  | LabelContext id label batch =>
    when (bool_decide (id = re_self)) (on_dc (set_label (MkLabel label batch None)))
  | ClearLabel id => when (bool_decide (id = re_self)) (on_dc (modify (set_d_label None)))
  | NotifyNetworkState attrs =>
    r ← gets id;
    match own_user (r_srv r), heap_net (r_srv r) p with
    | Some s, Some n =>
      when (existsb (λ q, bool_decide (nID (rec_at s q) = nID (net_record n))) (us_networks s)
            && IsEnabled (d_caps (r_dc r)) "soju.im/bouncer-networks-notify")
        (on_dc (SendMessage_dc (bouncer_network (nID (net_record n)) (Some (list_to_map attrs)))))
    | _, _ => skip
    end
  | _ => skip
  end.

Definition deliver (a : saction) : RM unit :=
  match a with
  | SPrint text => on_dc (sendServicePRIVMSG text)
  | SUser name a =>
    if decide (name = re_user) then
      match a with
      | UNet p a => deliver_net p a
      | UDown id c => when (bool_decide (id = re_self)) (on_dc (exec_call c))
      | UNetworkState id netID attrs =>
        when (bool_decide (id = re_self)) (on_dc (SendMessage_dc (bouncer_network netID attrs)))
      | _ => skip
      end
    else skip
  | _ => skip
  end.

(** The connection as its networks see it; [dc_here] is set for the network. *)
Definition own_view (dc : dstate) : downstreamView :=
  MkDownstreamView re_self true (d_nick dc) (d_prefix dc) (d_caps dc) (bool_decide (is_Some (d_away dc)))
    (d_monitored dc) (d_metadataSubs dc)
    ((λ s, (λ p, (plUsername p, plPassword p)) <$> sPlain s) <$> d_sasl dc).

Definition session_env (dc : dstate) (name : string) : env :=
  let E := re_env name in
  if decide (name = re_user) then
    MkEnv (e_user (env := E)) (own_view dc :: filter (λ v, dc_id v ≠ re_self) (e_downstreams (env := E)))
      (e_hasStore (env := E)) (e_LastMsgID (env := E)) (e_Append (env := E)) (e_GetMessageTarget (env := E))
      (e_now (env := E)) (e_time (env := E)) (e_ParsePrefix (env := E)) (e_srvPrefix (env := E))
      (e_saslStart (env := E)) (e_saslNext (env := E))
  else E.

(** A method of the server, then its effects on the connection. *)
Definition on_srv {A} (m : (string → env) → SM A) : RM A := λ r,
  let '(sv, x) := m (session_env (r_dc r)) (r_srv r) in
  let done := drop (length (srv_trace (r_srv r))) (srv_trace sv) in
  (foreach deliver done ;; lift x) (MkR sv (r_dc r)).

Definition own_on_user {A} (m : env → UM A) : RM A := on_srv (λ E, on_user re_user (m (E re_user))).
Definition own_on_net {A} (p : nat) (m : env → M A) : RM A := on_srv (λ E, on_net E re_user p m).

(** ** Access *)

Definition get_dc : RM dstate := gets r_dc.
Definition get_user : RM dbUser :=
  u ← gets (λ r, us_record <$> own_user (r_srv r));
  match u with Some u => mret u | None => panic "invalid memory address or nil pointer dereference" end.
Definition get_network : RM (option (nat * ustate)) :=
  gets (λ r, p ← own_net (r_srv r); n ← heap_net (r_srv r) p; Some (p, n)).
(** [dc.upstream()] *)
Definition get_upstream : RM (option (nat * ustate)) :=
  net ← get_network;
  mret (match net with Some (p, n) => if net_connected n then Some (p, n) else None | None => None end).

Definition upstreamForCommand (cmd : string) : RM (nat * ustate) :=
  net ← get_network;
  match net with
  | None => fail (newUnknownIRCError cmd "Cannot interact with channels and users on the bouncer connection. Did you mean to use a specific network?")
  | Some (p, n) => if net_connected n then mret (p, n) else fail (newUnknownIRCError cmd "Disconnected from upstream network")
  end.

Definition reply (m : Message) : RM unit := on_dc (SendMessage_dc m).
Definition replies (ms : list Message) : RM unit := foreach reply ms.
Definition reply_batch (typ : string) (params : list string) (ms : list Message) : RM unit :=
  on_dc (SendBatch_dc typ params ∅ (λ ref, foreach (λ m, SendMessage_dc (with_tags (<["batch" := ref]>) m)) ms)).
Definition refuse {A} (cmd : string) (params : list string) : RM A := fail (ircError (msg cmd params)).
Definition call_db {A} (a : daction) (f : list daction → A) : RM A := on_dc (dcall a f).
Definition get_now : RM Z := gets (λ r, re_now (d_trace (r_dc r))).

(** [user.FormatServerTime] *)
Definition user_FormatServerTime (t : Z) : string :=
  FormatServerTime (if e_hasStore (env := re_env re_user) && re_fsStore then t - t mod nsPerSecond else t).

(** ** Labels and the server connection *)

(** The label of the command, given away to a server connection. *)
Definition take_label : RM string :=
  l ← gets (λ r, d_label (r_dc r));
  match l with
  | Some lc => on_dc (set_label (MkLabel "" (lc_batch lc) (lc_pendingMsg lc))) ;; mret (lc_label lc)
  | None => mret ""
  end.
Definition drop_label : RM unit := take_label ;; skip.

(** [SendMessageLabeled(ctx, dc.id, m)] *)
Definition send_labeled (p : nat) (m : Message) : RM unit :=
  l ← gets (λ r, d_label (r_dc r));
  if match l with Some lc => bool_decide (is_Some (lc_pendingMsg lc)) || bool_decide (lc_batch lc ≠ "") | None => false end
  then panic "called both downstreamConn.SendMessage and upstreamConn.SendMessage with the same label"
  else
    label ← take_label;
    own_on_net p (λ _, SendMessageLabeled re_self label m).

(** [uc.enqueueCommand(ctx, dc, m)] *)
Definition enqueue (p : nat) (m : Message) : RM unit :=
  label ← take_label;
  dc ← get_dc;
  own_on_net p (λ E, enqueueCommand (E:=E) (own_view dc) label m).

(** [ackMsgID] *)
Definition ackMsgID (id : string) : RM unit :=
  match ParseMsgID_nil id with
  | Ok (netID, entity) =>
    sv ← gets r_srv;
    dc ← get_dc;
    match own_user sv ≫= (λ s, getNetworkByID s netID) with
    | Some p => own_on_net p (λ _, modify (λ n,
        set_net_delivered (delivered_StoreID (net_delivered n) entity (d_clientName dc) id) n))
    | None => skip
    end
  | _ => skip
  end.

Definition handlePong (token : string) : RM unit :=
  if HasPrefix token "soju-msgid-" then ackMsgID (TrimPrefix token "soju-msgid-") else skip.
End session.
