(* ===== verification/DownstreamCommands.v ===== *)
(** * Commands of a registered client (downstream.go)

    One definition per case of [downstreamConn.handleMessageRegistered], then the dispatcher
    and the handling of a message of a connected client. *)

From S2P Require Import Prelude GoStrings GoUnicode GoStrconv IrcMessage GoFlag CaseMapping Membership Modes WhoX Base64.
From S2P Require Import Effects GenMsg Caps Database Highlight Upstream UpstreamHandlers Downstream DownstreamHandlers.
From S2P Require Import MsgID UserNetworks ServiceWords Service GoTime DownstreamSession.

Open Scope string_scope.
Open Scope list_scope.
Open Scope Z_scope.

Definition RPL_INFO := "371".
Definition RPL_ENDOFINFO := "374".
Definition ERR_NOSUCHCHANNEL := "403".
Definition ERR_BADMASK := "415".
Definition ERR_NONICKNAMEGIVEN := "431".
Definition ERR_ALREADYREGISTERED := "462".
Definition ERR_BADCHANMASK := "476".
Definition ERR_USERSDONTMATCH := "502".
Definition RPL_MONLIST := "732".
Definition RPL_ENDOFMONLIST := "733".

Definition set_uNick (x : string) (u : dbUser) : dbUser :=
  MkUser (uID u) (uUsername u) (uPassword u) x (uRealname u) (uAdmin u) (uEnabled u) (uDownstreamInteractedAt u) (uMaxNetworks u).
Definition set_uRealname (x : string) (u : dbUser) : dbUser :=
  MkUser (uID u) (uUsername u) (uPassword u) (uNick u) x (uAdmin u) (uEnabled u) (uDownstreamInteractedAt u) (uMaxNetworks u).

Definition set_cKey (key : string) (c : dbChannel) : dbChannel :=
  MkChannel (cID c) (cName c) key (cDetached c) (cDetachedInternalMsgID c) (cRelayDetached c) (cReattachOn c)
    (cDetachAfter c) (cDetachOn c).
Definition new_channel (name key : string) (detached : bool) : dbChannel :=
  MkChannel 0 name key detached "" FilterDefault FilterDefault 0 FilterDefault.

Section commands.
Context `{DE : denv} `{UE : uenv} `{SV : svenv} `{RE : renv} `{UnicodeTables} `{HBare : Bare msgIDHeader}.

(** ** The connection and its identity *)

Definition handle_PING_dc (m : Message) : RM unit :=
  ps ← lift (parseMessageParams m 1);
  dc ← get_dc;
  let destination := nth 1 (Params m) "" in
  let hostname := cfgHostname de_config in
  if decide (destination ≠ "" ∧ destination ≠ hostname) then
    refuse ERR_NOSUCHSERVER [d_nick dc; destination; "No such server"]
  else reply (msg_from de_srvPrefix "PONG" [hostname; param ps 0]).

Definition handle_PONG_dc (m : Message) : RM unit :=
  match last (Params m) with
  | None => fail (newNeedMoreParamsError (Command m))
  | Some token => handlePong token
  end.

(** The connections of the user that are bound to no network, each asked for [c]. *)
Definition for_unbound (c : dc_call) : RM unit :=
  own_on_user (λ _,
    s ← gets id;
    foreach (λ d, when (bool_decide (dn_network d = None)) (uemit (UDown (dn_id d) c))) (us_downstreams s)).

(** [dc.srv.db.StoreNetwork] *)
Definition store_network (record : dbNetwork) : RM (Z + goerr) :=
  own_on_user (λ _,
    s ← gets id;
    ucall (UStoreNetwork record) (λ tr, ue_StoreNetwork tr (stored_ids s) (uID (us_record s)) record)).

Definition change_user (f : dbUser → dbUser) : RM unit :=
  own_on_user (λ E, updateUser (E:=E) (λ u, inl (f u))).

(** The database part of NICK; the result tells whether it failed. *)
Definition save_nick (net : option (nat * ustate)) (n : string) : RM bool :=
  match net with
  | Some (_, net) => r ← store_network (set_nNick n (net_record net)); mret (match r with inl _ => false | inr _ => true end)
  | None => r ← try (change_user (set_uNick n)); mret (match r with inl _ => false | inr _ => true end)
  end.

Definition handle_NICK_dc (m : Message) : RM unit :=
  ps ← lift (parseMessageParams m 1);
  let n := param ps 0 in
  dc ← get_dc;
  if bool_decide (n = "") || ContainsAny n illegalNickChars then
    refuse ERR_ERRONEUSNICKNAME [d_nick dc; n; "Nickname contains illegal characters"]
  else if decide (cm_apply (d_casemap dc) n = serviceNickCM) then
    refuse ERR_NICKNAMEINUSE [d_nick dc; n; "Nickname reserved for bouncer service"]
  else
    net ← get_network;
    failed ← save_nick net n;
    if (failed : bool) then refuse ERR_UNKNOWNERROR [d_nick dc; "NICK"; "Failed to update nick"]
    else match net with
    | Some (p, _) =>
      own_on_net p (λ _, modify (λ u, set_net_record (set_nNick n (net_record u)) u)) ;;
      uc ← get_upstream;
      match uc with
      | Some (p, _) => send_labeled p (msg "NICK" [n])
      | None => on_dc updateNick_dc
      end
    | None => for_unbound updateNick
    end.

(** SETNAME on a network: the label goes to the server when it supports the command. *)
Definition setname_network (p : nat) (net : ustate) (rn : string) : RM (unit + goerr) :=
  u ← get_user;
  let record := set_nRealname (if decide (rn = uRealname u) then "" else rn) (net_record net) in
  if net_connected net && IsEnabled (caps net) "setname" then
    send_labeled p (msg "SETNAME" [rn]) ;;
    r ← store_network record;
    mret (match r with inl _ => inl tt | inr e => inr e end)
  else try (own_on_user (λ E, updateNetwork (E:=E) record false) ;; skip).

Definition handle_SETNAME_dc (m : Message) : RM unit :=
  ps ← lift (parseMessageParams m 1);
  let rn := param ps 0 in
  dc ← get_dc;
  if decide (d_realname dc = rn) then reply (msg_from (d_prefix dc) "SETNAME" [rn])
  else
    net ← get_network;
    r ← (match net with
         | Some (p, n) => setname_network p n rn
         | None => try (change_user (set_uRealname rn))
         end);
    match r with
    | inr _ => refuse "FAIL" ["SETNAME"; "CANNOT_CHANGE_REALNAME"; "Failed to update realname"]
    | inl _ =>
      net ← get_network;
      match net with None => for_unbound updateRealname | Some _ => skip end
    end.

(** ** Channels *)

(** [dc.srv.db.StoreChannel]; the row of a new channel gets its ID, an error is logged. *)
Definition store_channel (p : nat) (netID : Z) (ch : dbChannel) : RM unit :=
  r ← on_srv (λ _, scall (SStoreChannel netID ch) (λ tr, sv_StoreChannel tr netID ch));
  match r with
  | inl id => when (cID ch =? 0) (own_on_net p (λ _, put_net_channel (set_cID id ch)))
  | inr _ => skip
  end.

(** A name of several ones: the label is dropped. *)
Definition split_names (names : string) : RM (list string) :=
  let l := Split names "," in
  when (1 <? length l)%nat drop_label ;; mret l.

Definition saved_channel (p : nat) (name : string) : RM (option dbChannel) :=
  gets (λ r, n ← heap_net (r_srv r) p; CMM.Get (net_channels n) name).

Definition join_one (p : nat) (name key : string) : RM unit :=
  dc ← get_dc;
  uc ← gets (λ r, default (newConnection (NewNetwork "") []) (heap_net (r_srv r) p));
  if bool_decide (name = "") || ContainsAny name illegalChanChars then
    reply (msg ERR_BADCHANMASK [d_nick dc; name; "Invalid channel name"])
  else if negb (isChannel uc name) then
    reply (msg ERR_NOSUCHCHANNEL [d_nick dc; name; "Not a channel name"])
  else
    when (negb (CMM.Has (channels uc) name))
      (send_labeled p (msg "JOIN" (name :: if decide (key = "") then [] else [key]))) ;;
    ch ← saved_channel p name;
    (match ch with
     | Some ch =>
       let ch := if decide (key = "") then ch else set_cKey key ch in
       own_on_net p (λ _, put_net_channel ch) ;;
       own_on_net p (λ E, net_attach (E:=E) ch)
     | None => own_on_net p (λ _, put_net_channel (new_channel name key false))
     end) ;;
    ch ← saved_channel p name;
    match ch with
    | Some ch => store_channel p (nID (net_record uc)) ch
    | None => skip
    end.

Fixpoint join_all (p : nat) (names keys : list string) : RM unit :=
  match names with
  | [] => skip
  | name :: names => join_one p name (hd "" keys) ;; join_all p names (tl keys)
  end.

Definition handle_JOIN_dc (m : Message) : RM unit :=
  '(p, _) ← upstreamForCommand (Command m);
  ps ← lift (parseMessageParams m 1);
  let keys := match Params m !! 1%nat with Some k => Split k "," | None => [] end in
  names ← split_names (param ps 0);
  join_all p names keys.

Definition part_one (p : nat) (reason name : string) : RM unit :=
  uc ← gets (λ r, default (newConnection (NewNetwork "") []) (heap_net (r_srv r) p));
  if EqualFold reason "detach" then
    ch ← saved_channel p name;
    (match ch with
     | Some ch => own_on_net p (λ E, net_detach (E:=E) ch)
     | None => own_on_net p (λ _, put_net_channel (new_channel name "" true))
     end) ;;
    ch ← saved_channel p name;
    match ch with
    | Some ch => store_channel p (nID (net_record uc)) ch
    | None => skip
    end
  else
    send_labeled p (msg "PART" (name :: if decide (reason = "") then [] else [reason])) ;;
    try (on_srv (λ E, deleteChannel E re_user p name)) ;;
    own_on_net p (λ _, modify (λ n, set_net_pushTargets (CMM.Del (net_pushTargets n) name) n)).

Definition handle_PART_dc (m : Message) : RM unit :=
  '(p, _) ← upstreamForCommand (Command m);
  ps ← lift (parseMessageParams m 1);
  names ← split_names (param ps 0);
  foreach (part_one p (nth 1 (Params m) "")) names.

(** KICK and INVITE *)
Definition pass_through (m : Message) : RM unit :=
  '(p, _) ← upstreamForCommand (Command m); send_labeled p m.

Definition mode_own (m : Message) (modeStr : string) : RM unit :=
  if decide (modeStr ≠ "") then pass_through m
  else
    dc ← get_dc;
    uc ← get_upstream;
    reply (msg RPL_UMODEIS [d_nick dc; "+" +:+ match uc with Some (_, uc) => modes uc | None => "" end]).

Definition handle_MODE_dc (m : Message) : RM unit :=
  ps ← lift (parseMessageParams m 1);
  let name := param ps 0 in
  let modeStr := nth 1 (Params m) "" in
  dc ← get_dc;
  if decide (cm_apply (d_casemap dc) name = d_nickCM dc) then mode_own m modeStr
  else
    '(p, uc) ← upstreamForCommand (Command m);
    if negb (isChannel uc name) then refuse ERR_USERSDONTMATCH [d_nick dc; "Cannot change mode for other users"]
    else if decide (modeStr ≠ "") then send_labeled p (msg "MODE" (name :: modeStr :: drop 2 (Params m)))
    else match CMM.Get (channels uc) name with
    | None => send_labeled p m
    | Some ch =>
      match chModes ch with
      | None => skip
      | Some cmodes =>
        let '(str, params) := channelModes_Format (map_to_list cmodes) in
        reply (msg RPL_CHANNELMODEIS ([d_nick dc; name; str] ++ params)) ;;
        when (bool_decide (chCreationTime ch ≠ "")) (reply (msg RPL_CREATIONTIME [d_nick dc; name; chCreationTime ch]))
      end
    end.

Definition handle_TOPIC_dc (m : Message) : RM unit :=
  ps ← lift (parseMessageParams m 1);
  let name := param ps 0 in
  '(p, uc) ← upstreamForCommand (Command m);
  match Params m !! 1%nat with
  | Some topic => send_labeled p (msg "TOPIC" [name; topic])
  | None =>
    match CMM.Get (channels uc) name with
    | None => send_labeled p m
    | Some ch => on_dc (sendTopic ch)
    end
  end.

Definition handle_LIST_dc (m : Message) : RM unit :=
  '(p, _) ← upstreamForCommand (Command m); enqueue p m.

Definition handle_NAMES_dc (m : Message) : RM unit :=
  '(p, uc) ← upstreamForCommand (Command m);
  dc ← get_dc;
  match Params m with
  | [] => reply (msg RPL_ENDOFNAMES [d_nick dc; "*"; "End of /NAMES list"])
  | names :: _ =>
    names ← split_names names;
    foreach (λ name,
      match CMM.Get (channels uc) name with
      | Some ch => on_dc (sendNames ch)
      | None => send_labeled p (msg "NAMES" [name])
      end) names
  end.

(** ** WHO and WHOIS *)

Definition end_of_who (mask : string) : RM unit := reply (msg RPL_ENDOFWHO ["*"; mask; "End of /WHO list"]).

(** The membership prefixes go after the leading [G], [H] and star of the flags. *)
Fixpoint insert_prefixes (prefixes flags : string) : string :=
  match flags with
  | "" => prefixes
  | String c flags' =>
    if decide (c = "G"%char ∨ c = "H"%char ∨ c = "*"%char) then String c (insert_prefixes prefixes flags')
    else prefixes +:+ flags
  end.

Definition who_line (dc : dstate) (uc : ustate) (mask fields token : string) (uu : upstreamUser) : res goerr Message :=
  let nil := Panic "invalid memory address or nil pointer dereference" in
  '(channel, flags) ← (if isChannel uc mask then
      match CMM.Get (channels uc) mask with
      | None => nil
      | Some ch =>
        match CMM.Get (chMembers ch) (Nickname uu) with
        | None => nil
        | Some ms => Ok (mask, insert_prefixes (formatMemberPrefix ms (IsEnabled (d_caps dc) "multi-prefix")) (Flags uu))
        end
      end
    else Ok ("", Flags uu));
  Ok (GenerateWHOXReply fields (mkWHOXInfo token channel (Username uu) (Hostname uu) (Server uu) (Nickname uu)
        flags (Account uu) (Realname uu))).

Definition who_self (dc : dstate) (fields token : string) : RM unit :=
  u ← get_user;
  let flags := (if bool_decide (is_Some (d_away dc)) then "G" else "H") +:+ (if uAdmin u then "*" else "") in
  reply (GenerateWHOXReply fields (mkWHOXInfo token "" (uUsername u) (d_hostname dc) (cfgHostname de_config) (d_nick dc)
    flags (uUsername u) (d_realname dc))).

Definition who_service (fields token : string) : RM unit :=
  net ← get_network;
  let bot :=
    match net with
    | None => "B"
    | Some (_, n) =>
      if net_connected n then
        match isupport n !! "BOT" with
        | Some (Some v) => if (slen v =? 1)%nat then v else ""
        | _ => ""
        end
      else ""
    end in
  reply (GenerateWHOXReply fields (mkWHOXInfo token "" (User servicePrefix) (Host servicePrefix) (cfgHostname de_config)
    serviceNick ("H*" +:+ bot) serviceNick serviceRealname)).

Definition handle_WHO_dc (m : Message) : RM unit :=
  match Params m with
  | [] => end_of_who "*"
  | mask :: rest =>
    let '(fields, token) := ParseWHOXOptions (hd "" rest) in
    dc ← get_dc;
    net ← get_network;
    let maskCM := cm_apply (d_casemap dc) mask in
    if decide (net = None ∧ maskCM = d_nickCM dc) then who_self dc fields token ;; end_of_who mask
    else if decide (maskCM = serviceNickCM) then who_service fields token ;; end_of_who mask
    else if decide (net = None) then end_of_who mask
    else
      '(p, uc) ← upstreamForCommand (Command m);
      match getCachedWHO uc mask fields with
      | Some l =>
        foreach (λ uu, line ← lift (who_line dc uc mask fields token uu); reply line) l ;;
        end_of_who mask
      | None => enqueue p m
      end
  end.

Definition whois_self (dc : dstate) : RM unit :=
  u ← get_user;
  let n := d_nick dc in
  replies ([msg RPL_WHOISUSER [n; n; uUsername u; d_hostname dc; "*"; d_realname dc];
            msg RPL_WHOISSERVER [n; n; cfgHostname de_config; "soju"]] ++
           (if uAdmin u then [msg RPL_WHOISOPERATOR [n; n; "is a bouncer administrator"]] else []) ++
           [msg RPL_WHOISACCOUNT [n; n; uUsername u; "is logged in as"];
            msg RPL_ENDOFWHOIS [n; n; "End of /WHOIS list"]]).

Definition whois_service (dc : dstate) : RM unit :=
  let n := d_nick dc in
  replies [msg RPL_WHOISUSER [n; serviceNick; User servicePrefix; Host servicePrefix; "*"; serviceRealname];
           msg RPL_WHOISSERVER [n; serviceNick; cfgHostname de_config; "soju"];
           msg RPL_WHOISOPERATOR [n; serviceNick; "is the bouncer service"];
           msg RPL_WHOISACCOUNT [n; serviceNick; serviceNick; "is logged in as"];
           msg RPL_WHOISBOT [n; serviceNick; "is a bot"];
           msg RPL_ENDOFWHOIS [n; serviceNick; "End of /WHOIS list"]].

Definition handle_WHOIS_dc (m : Message) : RM unit :=
  dc ← get_dc;
  match Params m with
  | [] => refuse ERR_NONICKNAMEGIVEN [d_nick dc; "No nickname given"]
  | p0 :: rest =>
    let mask := match rest with [] => p0 | p1 :: _ => p1 end in
    let mask := hd "" (Split mask ",") in
    net ← get_network;
    let maskCM := cm_apply (d_casemap dc) mask in
    if decide (net = None ∧ maskCM = d_nickCM dc) then whois_self dc
    else if decide (maskCM = serviceNickCM) then whois_service dc
    else '(p, _) ← upstreamForCommand (Command m); enqueue p m
  end.
End commands.
