(* ===== verification/DownstreamRequests.v ===== *)
(** * Commands of a registered client: messages, history, settings (downstream.go)

    The rest of [downstreamConn.handleMessageRegistered]: messages with BouncerServ and
    NickServ, authentication, monitoring, metadata, chat history, read markers, search, device
    certificates, the networks extension and push notifications, and the dispatcher. *)

From S2P Require Import Prelude GoStrings GoUnicode GoStrconv IrcMessage GoFlag CaseMapping Membership Modes WhoX Base64.
From S2P Require Import Effects GenMsg Caps Database Highlight Upstream UpstreamHandlers Downstream DownstreamHandlers.
From S2P Require Import MsgID UserNetworks ServiceWords Service GoTime DownstreamSession DownstreamCommands.

Open Scope string_scope.
Open Scope list_scope.
Open Scope Z_scope.

(** [parseNickServCredentials]: user name and password of a command to NickServ. *)
Definition parseNickServCredentials `{UnicodeTables} (text n : string) : option (string * string) :=
  match Fields text with
  | cmd :: p0 :: params =>
    let cmd := ToUpper cmd in
    if decide (cmd = "REGISTER") then Some (n, p0)
    else if decide (cmd = "IDENTIFY") then
      match params with
      | [] => Some (n, p0)
      | p1 :: _ => Some (p0, p1)
      end
    else if decide (cmd = "SET") then
      match params with
      | [p1] => if EqualFold p0 "PASSWORD" then Some (n, p1) else Some ("", "")
      | _ => Some ("", "")
      end
    else None
  | _ => None
  end.

(** [parseMessageTargetMetadataBool] *)
Definition parseMessageTargetMetadataBool (v : option string) : option (bool * string) :=
  match v with
  | None => Some (false, "0")
  | Some v => if decide (v = "1") then Some (true, "1") else if decide (v = "0") then Some (false, "0") else None
  end.

Definition set_mt (k : string) (b : bool) (mt : MessageTarget) : option MessageTarget :=
  if decide (k = "soju.im/pinned") then Some (MkMessageTarget (mtID mt) (mtTarget mt) b (mtMuted mt) (mtBlocked mt))
  else if decide (k = "soju.im/muted") then Some (MkMessageTarget (mtID mt) (mtTarget mt) (mtPinned mt) b (mtBlocked mt))
  else if decide (k = "soju.im/blocked") then Some (MkMessageTarget (mtID mt) (mtTarget mt) (mtPinned mt) (mtMuted mt) b)
  else None.

(** [parseChatHistoryBound] *)
Definition parseChatHistoryBound (param : string) : Z :=
  match SplitN param "=" 2 with
  | [k; v] => if decide (k = "timestamp") then default zeroTime (ParseServerTime v) else zeroTime
  | _ => zeroTime
  end.

Definition searchMaxLimit : Z := 100.
Definition webpushCheckSubscriptionDelay : Z := 24 * 3600 * nsPerSecond.

Definition findWebPushSubscription (subs : list WebPushSubscription) (endpoint : string) : option WebPushSubscription :=
  List.find (λ s, bool_decide (subEndpoint s = endpoint)) subs.

Section requests.
Context `{DE : denv} `{UE : uenv} `{SV : svenv} `{RE : renv} `{UnicodeTables} `{HBare : Bare msgIDHeader}.

(** ** Messages *)

(** The commands of BouncerServ in the user's goroutine. *)
Definition service_context (dc : dstate) (p : option nat) (u : dbUser) : serviceContext :=
  MkContext (d_nick dc) p (Some re_user) (Some (MkPeer de_peerCertHash de_remoteHost)) (uAdmin u) [re_user].

Definition run_service (text : string) : RM unit :=
  dc ← get_dc;
  u ← get_user;
  p ← gets (λ r, own_net (r_srv r));
  r ← try (on_srv (λ E, handleServicePRIVMSG E (service_context dc p u) text));
  match r with
  | inl _ => skip
  | inr e => on_dc (sendServicePRIVMSG ("error: " +:+ re_errorText e))
  end.

Definition broadcast_all (m : Message) : RM unit :=
  on_srv (λ _, sv ← gets id; foreach (λ name, semit (SBroadcast name m)) (map_to_list (srv_users sv)).*1).

(** The tags of a message after [SendMessageLabeled] has put its label into them. *)
Definition labeled_tags (uc : ustate) (label : string) (tags : gmap string string) : gmap string string :=
  if IsEnabled (caps uc) "labeled-response" then
    <["label" := "sd-" +:+ FormatUint re_self +:+ "-" +:+ FormatUint (nextLabelID uc) +:+ "-" +:+ label]> tags
  else tags.

(** The state of the network at [p]. *)
Definition net_now (p : nat) : RM ustate :=
  gets (λ r, default (newConnection (NewNetwork "") []) (heap_net (r_srv r) p)).

(** A message to a target of the network. Without echo-message the label stays here, since the
    echo is made below; the tags are shared with the message sent and carry its label. The
    result is the tags as the next target finds them. *)
Definition message_upstream (m : Message) (tags : gmap string string) (name text : string) : RM (gmap string string) :=
  '(p, uc) ← upstreamForCommand (Command m);
  let params := name :: drop 1 (Params m) in
  let target := TrimLeft name (availableStatusMsg uc) in
  when (bool_decide (Command m = "PRIVMSG") && bool_decide (cm_apply (net_casemap uc) target = "nickserv"))
    (match parseNickServCredentials text (nick uc) with
     | Some (u, pw) => own_on_net p (λ _, autoSaveSASLPlain u pw)
     | None => skip
     end) ;;
  if IsEnabled (caps uc) "echo-message" then
    l ← gets (λ r, d_label (r_dc r));
    uc ← net_now p;
    let tags' := labeled_tags uc (match l with Some lc => lc_label lc | None => "" end) tags in
    send_labeled p (mkMessage tags None (Command m) params) ;;
    own_on_net p (λ _, updateChannelAutoDetach target) ;;
    mret tags'
  else
    uc ← net_now p;
    let tags' := labeled_tags uc "" tags in
    own_on_net p (λ _, SendMessageLabeled re_self "" (mkMessage tags None (Command m) params)) ;;
    now ← get_now;
    let echo := <["time" := user_FormatServerTime now]> tags' in
    let echo := if decide (account uc ≠ "") then <["account" := account uc]> echo else echo in
    own_on_net p (λ E, produce (E:=E) target
      (mkMessage echo (Some (mkPrefix (nick uc) (username uc) (hostname uc))) (Command m) params) re_self false) ;;
    own_on_net p (λ _, updateChannelAutoDetach target) ;;
    mret tags'.

Definition message_one (m : Message) (text : string) (tags : gmap string string) (name : string) : RM (gmap string string) :=
  let params := name :: drop 1 (Params m) in
  dc ← get_dc;
  u ← get_user;
  net ← get_network;
  if decide (name = "$" +:+ cfgHostname de_config ∨ (name = "$*" ∧ net = None)) then
    if negb (uAdmin u) then
      refuse ERR_BADMASK [d_nick dc; name; "Permission denied to broadcast message to all bouncer users"]
    else
      now ← get_now;
      broadcast_all (mkMessage (<["time" := user_FormatServerTime now]> tags) (Some servicePrefix) (Command m) params) ;;
      mret tags
  else if decide (net = None ∧ cm_apply (d_casemap dc) name = d_nickCM dc) then
    reply (mkMessage (Tags m) (Some (d_prefix dc)) (Command m) params) ;; mret tags
  else if decide (cm_apply (d_casemap dc) name = serviceNickCM) then
    now ← get_now;
    when (IsEnabled (d_caps dc) "echo-message")
      (reply (mkMessage (<["time" := user_FormatServerTime now]> tags) (Some (d_prefix dc)) (Command m) params)) ;;
    when (bool_decide (Command m = "PRIVMSG")) (run_service text) ;;
    mret tags
  else message_upstream m tags name text.

Fixpoint message_all (m : Message) (text : string) (tags : gmap string string) (names : list string) : RM unit :=
  match names with
  | [] => skip
  | name :: names => tags ← message_one m text tags name; message_all m text tags names
  end.

(** PRIVMSG, NOTICE, TAGMSG and REDACT *)
Definition handle_message_dc (m : Message) : RM unit :=
  let isText := bool_decide (Command m = "PRIVMSG" ∨ Command m = "NOTICE") in
  ps ← lift (parseMessageParams m (if isText then 2 else 1));
  names ← split_names (param ps 0);
  message_all m (param ps 1) (copyClientTags (Tags m)) names.

(** ** Accounts *)

Definition clear_sasl (n : dbNetwork) : dbNetwork := set_nSASL emptySASL n.

Definition sasl_end (om : option Message) : RM unit := on_dc (endSASL_dc om).
Definition sasl_failed (text : string) : RM unit := dc ← get_dc; sasl_end (Some (msg ERR_SASLFAIL [d_nick dc; text])).

Definition handle_AUTHENTICATE_dc (m : Message) : RM unit :=
  dc ← get_dc;
  uc ← get_upstream;
  match uc with
  | Some (p, uc) =>
    if negb (IsEnabled (caps uc) "sasl") then refuse ERR_SASLFAIL [d_nick dc; "Upstream network authentication not supported"]
    else
      credentials ← on_dc (handleAuthenticate m);
      match credentials with
      | None => skip
      | Some c =>
        if bool_decide (is_Some (saslClient uc)) then sasl_failed "Another authentication attempt is already in progress"
        else if decide (sMechanism c = "PLAIN") then
          match sPlain c with
          | None => panic "invalid memory address or nil pointer dereference"
          | Some plain =>
            if decide (plIdentity plain ≠ "" ∧ plIdentity plain ≠ plUsername plain) then
              refuse ERR_SASLFAIL [d_nick dc; "SASL PLAIN identity not supported"]
            else
              own_on_net p (λ _, modify (set_saslClient (Some "PLAIN"))) ;;
              enqueue p (msg "AUTHENTICATE" ["PLAIN"])
          end
        else if decide (sMechanism c = "ANONYMOUS") then
          if decide (Mechanism (nSASL (net_record uc)) ≠ "") then
            r ← try (own_on_user (λ E, updateNetwork (E:=E) (clear_sasl (net_record uc)) false));
            match r with
            | inl _ => sasl_end None
            | inr _ => sasl_failed "Internal server error"
            end
          else sasl_end None
        else sasl_failed "Unsupported SASL authentication mechanism"
      end
  | None => refuse ERR_SASLFAIL [d_nick dc; "Upstream network authentication not supported"]
  end.

(** REGISTER and VERIFY *)
Definition handle_account_dc (m : Message) : RM unit :=
  if (bool_decide (Command m = "REGISTER") && (length (Params m) <? 3)%nat)
     || (bool_decide (Command m = "VERIFY") && (length (Params m) <? 2)%nat) then fail (newNeedMoreParamsError (Command m))
  else
    uc ← get_upstream;
    match uc with
    | Some (p, uc) =>
      if IsEnabled (caps uc) "draft/account-registration" then enqueue p m
      else refuse "FAIL" [Command m; "TEMPORARILY_UNAVAILABLE"; "*"; "Upstream network account registration not supported"]
    | None => refuse "FAIL" [Command m; "TEMPORARILY_UNAVAILABLE"; "*"; "Upstream network account registration not supported"]
    end.

Definition handle_AWAY_dc (m : Message) : RM unit :=
  on_dc (modify (set_d_away (head (Params m)))) ;;
  reply (generateAwayReply (bool_decide (is_Some (head (Params m))))) ;;
  uc ← get_upstream;
  match uc with
  | Some (p, _) => own_on_net p (λ E, updateAway (E:=E))
  | None => skip
  end.

Definition handle_INFO_dc (m : Message) : RM unit :=
  dc ← get_dc;
  net ← get_network;
  match net with
  | None => replies [msg RPL_INFO [d_nick dc; "soju <https://soju.im>"]; msg RPL_ENDOFINFO [d_nick dc; "End of INFO"]]
  | Some (p, n) =>
    if net_connected n then send_labeled p m
    else refuse ERR_UNKNOWNCOMMAND [d_nick dc; Command m; "Disconnected from upstream network"]
  end.

(** ** MONITOR *)

Definition monitorLimit : nat := 1000.

Definition monitor_online (uc : ustate) (target : string) : bool := default false (CMM.Get (monitored uc) target).

Definition monitor_one (uc : ustate) (sub target : string) : RM unit :=
  dc ← get_dc;
  if decide (sub = "+") then
    if (monitorLimit <=? CMM.Len (d_monitored dc))%nat then
      reply (msg ERR_MONLISTFULL [d_nick dc; "1000"; target; "Bouncer monitor list is full"])
    else
      on_dc (modify (λ s, set_d_monitored (CMM.Set_ (d_monitored s) target tt) s)) ;;
      if decide (cm_apply (net_casemap uc) target = serviceNickCM) then reply (msg RPL_MONONLINE [d_nick dc; target])
      else when (CMM.Has (monitored uc) target)
        (reply (msg (if monitor_online uc target then RPL_MONONLINE else RPL_MONOFFLINE) [d_nick dc; target]))
  else on_dc (modify (λ s, set_d_monitored (CMM.Del (d_monitored s) target) s)).

Definition update_monitor (p : nat) : RM unit := own_on_net p (λ E, updateMonitor (E:=E)).

Definition monitor_status (uc : ustate) (dc : dstate) (target : string) : Message :=
  msg (if monitor_online uc target || bool_decide (cm_apply (net_casemap uc) target = serviceNickCM)
       then RPL_MONONLINE else RPL_MONOFFLINE) [d_nick dc; target].

Definition handle_MONITOR_dc (m : Message) : RM unit :=
  uc ← get_upstream;
  match uc with
  | None => fail (newUnknownCommandError (Command m))
  | Some (p, uc) =>
    if decide (isupport uc !! "MONITOR" = None) then fail (newUnknownCommandError (Command m))
    else
      ps ← lift (parseMessageParams m 1);
      dc ← get_dc;
      let sub := ToUpper (param ps 0) in
      let names := originalKey <$> CMM.Entries (d_monitored dc) in
      if decide (sub = "+" ∨ sub = "-") then
        ps' ← lift (parseMessageParams m 2);
        foreach (monitor_one uc (param ps 0)) (Split (param ps' 1) ",") ;;
        update_monitor p
      else if decide (sub = "C") then
        on_dc (modify (set_d_monitored (CMM.New (net_casemap uc)))) ;;
        update_monitor p
      else if decide (sub = "L") then
        replies ((λ n, msg RPL_MONLIST [d_nick dc; n]) <$> names) ;;
        reply (msg RPL_ENDOFMONLIST [d_nick dc; "End of MONITOR list"])
      else if decide (sub = "S") then replies (monitor_status uc dc <$> names)
      else skip
  end.

(** ** METADATA *)

Definition in_ref (ref : string) (m : Message) : Message :=
  if decide (ref = "") then m else with_tags (<["batch" := ref]>) m.

(** One key of [setMessageTargetMetadata]; the other connections of the network hear of it. *)
Definition set_metadata (target ref : string) (mt : option MessageTarget) (k : string) (v : option string) :
    RM (option MessageTarget) :=
  let invalid := reply (in_ref ref (msg "FAIL" ["METADATA"; "KEY_INVALID"; k; "Invalid key"])) ;; mret mt in
  match mt with
  | None => invalid
  | Some t =>
    if decide (k ∉ metadataKeys) then invalid
    else match parseMessageTargetMetadataBool v with
    | None =>
      reply (in_ref ref (msg "FAIL" ["METADATA"; "VALUE_INVALID"; "Invalid value"])) ;;
      mret (match set_mt k false t with Some t => Some t | None => mt end)
    | Some (b, mv) =>
      reply (in_ref ref (msg RPL_KEYVALUE ["*"; target; k; "*"; mv])) ;;
      net ← get_network;
      (match net with
       | Some (p, _) => own_on_net p (λ E, forEachDownstream (E:=E) (λ d,
           send_dc d (SendMessage (msg "METADATA" [target; k; "*"; mv]))))
       | None => panic "invalid memory address or nil pointer dereference"
       end) ;;
      mret (match set_mt k b t with Some t => Some t | None => mt end)
    end
  end.

Fixpoint set_metadata_all (target ref : string) (mt : option MessageTarget) (l : list (string * option string)) :
    RM (option MessageTarget) :=
  match l with
  | [] => mret mt
  | (k, v) :: l => mt ← set_metadata target ref mt k v; set_metadata_all target ref mt l
  end.

(** [SendBatch] around commands that act on the bouncer. *)
Definition within_batch {A} (typ : string) (f : string → RM A) : RM A :=
  dc ← get_dc;
  let ref := wrap_u64 (d_lastBatchRef dc + 1) in
  let batch := FormatUint ref in
  on_dc (modify (set_d_lastBatchRef ref)) ;;
  when (IsEnabled (d_caps dc) "batch") (reply (msg "BATCH" ["+" +:+ batch; typ])) ;;
  a ← f batch;
  dc ← get_dc;
  when (IsEnabled (d_caps dc) "batch") (reply (msg "BATCH" ["-" +:+ batch])) ;;
  mret a.

Definition metadata_store (target : string) (mt : option MessageTarget) : RM unit :=
  match mt with
  | None => skip
  | Some mt =>
    net ← get_network;
    match net with
    | None => panic "invalid memory address or nil pointer dereference"
    | Some (_, n) =>
      let id := nID (net_record n) in
      err ← call_db (DStoreMessageTarget id mt) (λ tr, re_StoreMessageTarget tr id mt);
      match err with
      | Some _ => refuse "FAIL" ["METADATA"; "INTERNAL_ERROR"; target; "Internal error"]
      | None => skip
      end
    end
  end.

Definition metadata_target (target : string) : RM (option MessageTarget) :=
  net ← get_network;
  match net with
  | Some (_, n) =>
    if decide (target = "*") then mret None
    else
      let targetCM := cm_apply (net_casemap n) target in
      let id := nID (net_record n) in
      r ← call_db (DGetMessageTarget id targetCM) (λ tr, re_GetMessageTarget tr id targetCM);
      match r with
      | inl mt => mret (Some mt)
      | inr _ => refuse "FAIL" ["METADATA"; "INTERNAL_ERROR"; target; "Internal error"]
      end
  | None => mret None
  end.

Definition metadata_get (values : gmap string string) (target k : string) : Message :=
  let k := ToLower k in
  match values !! k with
  | Some v => msg RPL_KEYVALUE ["*"; target; k; "*"; v]
  | None => msg "FAIL" ["METADATA"; "KEY_INVALID"; k; "Invalid key"]
  end.

Definition handle_METADATA_dc (m : Message) : RM unit :=
  ps ← lift (parseMessageParams m 2);
  let target := param ps 0 in
  let sub := param ps 1 in
  handled ← on_dc (handleMetadataSub m);
  if (handled : bool) then skip
  else
    mt ← metadata_target target;
    let values := match mt with Some mt => getMessageTargetMetadata mt | None => ∅ end in
    if decide (sub = "LIST") then
      reply_batch "metadata" [] ((λ kv : string * string, msg RPL_KEYVALUE ["*"; target; kv.1; "*"; kv.2]) <$> map_to_list values)
    else if decide (sub = "GET") then
      reply_batch "metadata" [] (metadata_get values target <$> drop 2 (Params m))
    else if decide (sub = "SET") then
      ps ← lift (parseMessageParams m 3);
      mt ← set_metadata_all target "" mt [(ToLower (param ps 2), Params m !! 3%nat)];
      metadata_store target mt
    else if decide (sub = "CLEAR") then
      mt ← within_batch "metadata" (λ ref, set_metadata_all target ref mt ((λ k, (k, None)) <$> metadataKeys));
      metadata_store target mt
    else refuse "FAIL" ["METADATA"; "INVALID_PARAMS"; sub; "Unknown command"].
End requests.
