(* ===== verification/DownstreamExtensions.v ===== *)
(** * Commands of a registered client: IRCv3 extensions (downstream.go)

    Chat history, read markers, search, device certificates, the networks of the bouncer and
    push notifications; then the dispatcher of [handleMessageRegistered] and [handleMessage]
    of a registered connection. *)

From S2P Require Import Prelude GoStrings GoUnicode GoStrconv IrcMessage GoFlag CaseMapping Membership Modes WhoX Base64.
From S2P Require Import Effects GenMsg Caps Database Highlight Upstream UpstreamHandlers Downstream DownstreamHandlers.
From S2P Require Import MsgID UserNetworks ServiceWords Service GoTime DownstreamSession DownstreamCommands DownstreamRequests.

Open Scope string_scope.
Open Scope list_scope.
Open Scope Z_scope.


Section extensions.
Context `{DE : denv} `{UE : uenv} `{SV : svenv} `{RE : renv} `{UnicodeTables} `{HBare : Bare msgIDHeader}.

(** ** Chat history *)

Definition history_fail {A} (params : list string) : RM A := refuse "FAIL" ("CHATHISTORY" :: params).

(** The parameters of CHATHISTORY: target, bounds and limit, as strings. *)
Definition history_params (m : Message) (sub : string) : RM (string * string * string * string) :=
  if decide (sub ∈ ["AFTER"; "BEFORE"; "AROUND"; "LATEST"]) then
    ps ← lift (parseMessageParams m 4); mret (param ps 1, param ps 2, "", param ps 3)
  else if decide (sub = "BETWEEN") then
    ps ← lift (parseMessageParams m 5); mret (param ps 1, param ps 2, param ps 3, param ps 4)
  else
    ps ← lift (parseMessageParams m 4); mret ("", param ps 1, param ps 2, param ps 3).

Definition load (c : historyCall) : RM (list Message + goerr) := on_dc (history_call c).

(** AROUND: half of the messages before the bound, half after. An error of the store is not
    the error of the command and leaves the history empty. *)
Definition load_around (netID : Z) (target : string) (bound limit : Z) (events : bool) : RM (list Message) :=
  let afterLimit := limit / 2 in
  before ← load (LoadBeforeTime_call netID target bound zeroTime (limit - afterLimit) events);
  match before with
  | inr _ => mret []
  | inl before =>
    let afterBound := match last before with Some m => ParseServerTime (tag m "time") | None => Some (bound - nsPerSecond) end in
    match afterBound with
    | None => mret []
    | Some afterBound =>
      now ← get_now;
      after ← load (LoadAfterTime_call netID target afterBound now afterLimit events);
      match after with
      | inr _ => mret []
      | inl after => mret (before ++ after)
      end
    end
  end.

Definition load_history (sub : string) (netID : Z) (target : string) (b0 b1 limit : Z) (events : bool) :
    RM (list Message + goerr) :=
  now ← get_now;
  if decide (sub = "BEFORE") then load (LoadBeforeTime_call netID target b0 zeroTime limit events)
  else if decide (sub = "LATEST") then load (LoadBeforeTime_call netID target now b0 limit events)
  else if decide (sub = "AFTER") then load (LoadAfterTime_call netID target b0 now limit events)
  else if decide (sub = "AROUND") then l ← load_around netID target b0 limit events; mret (inl l)
  else if b0 <? b1 then load (LoadAfterTime_call netID target b0 b1 limit events)
  else load (LoadBeforeTime_call netID target b0 b1 limit events).

Definition history_targets (net : ustate) (b0 b1 limit : Z) (events : bool) (sub : string) : RM unit :=
  let id := nID (net_record net) in
  r ← call_db (DListTargets id b0 b1 limit events) (λ tr, re_ListTargets tr id b0 b1 limit events);
  match r with
  | inr _ => history_fail ["MESSAGE_ERROR"; sub; "Failed to retrieve targets"]
  | inl targets =>
    reply_batch "draft/chathistory-targets" []
      (omap (λ t : string * Z,
         if match CMM.Get (net_channels net) t.1 with Some ch => cDetached ch | None => false end then None
         else Some (msg "CHATHISTORY" ["TARGETS"; t.1; FormatServerTime t.2])) targets)
  end.

Definition history_body (net : ustate) (sub target bound0 bound1 limitStr : string) : RM unit :=
  let b0 := parseChatHistoryBound bound0 in
  let latest := bool_decide (sub = "LATEST" ∧ bound0 = "*") in
  let b0 := if latest then zeroTime else b0 in
  if negb latest && IsZero b0 then history_fail ["INVALID_PARAMS"; sub; bound0; "Invalid first bound"]
  else
    let b1 := if decide (bound1 = "") then zeroTime else parseChatHistoryBound bound1 in
    if bool_decide (bound1 ≠ "") && IsZero b1 then history_fail ["INVALID_PARAMS"; sub; bound1; "Invalid second bound"]
    else match Atoi limitStr with
    | None => history_fail ["INVALID_PARAMS"; sub; limitStr; "Invalid limit"]
    | Some limit =>
      if (limit <? 0) || (chatHistoryLimit <? limit) then history_fail ["INVALID_PARAMS"; sub; limitStr; "Invalid limit"]
      else
        dc ← get_dc;
        let events := IsEnabled (d_caps dc) "draft/event-playback" in
        if decide (sub = "TARGETS") then history_targets net b0 b1 limit events sub
        else
          r ← load_history sub (nID (net_record net)) target b0 b1 limit events;
          match r with
          | inr _ => fail (newChatHistoryError sub target)
          | inl history => reply_batch "chathistory" [target] history
          end
    end.

Definition handle_CHATHISTORY_dc (m : Message) : RM unit :=
  ps ← lift (parseMessageParams m 1);
  let sub := param ps 0 in
  net ← get_network;
  if decide (sub ∉ ["AFTER"; "BEFORE"; "AROUND"; "LATEST"; "BETWEEN"; "TARGETS"]) then
    history_fail ["INVALID_PARAMS"; sub; "Unknown command"]
  else if decide (sub = "TARGETS" ∧ net = None) then reply_batch "draft/chathistory-targets" [] []
  else
    '(target, bound0, bound1, limitStr) ← history_params m sub;
    dc ← get_dc;
    if decide (cm_apply (d_casemap dc) target = serviceNickCM) then reply_batch "chathistory" [target] []
    else if negb de_chatHistoryStore then refuse ERR_UNKNOWNCOMMAND [d_nick dc; "CHATHISTORY"; "Chat history disabled"]
    else match net with
    | None => history_fail ["INVALID_TARGET"; sub; target; "Cannot fetch chat history on bouncer connection"]
    | Some (_, net) => history_body net sub (cm_apply (net_casemap net) target) bound0 bound1 limitStr
    end.

(** ** Read markers *)

(** The new marker, when the client gives a later one: not after the present. *)
Definition marker_criteria (cmd criteria : string) (now : Z) (r : ReadReceipt) : res goerr (option ReadReceipt) :=
  let error text := Err (ircError (msg "FAIL" [cmd; "INVALID_PARAMS"; criteria; text])) in
  if decide (criteria = "") then Ok None
  else match SplitN criteria "=" 2 with
  | [k; v] =>
    if decide (k ≠ "timestamp") then error "Unknown criteria"
    else match ParseServerTime v with
    | None => error "Invalid criteria"
    | Some t =>
      let t := if now <? t then now else t in
      if rrTimestamp r <? t then Ok (Some (MkReadReceipt (rrID r) (rrTarget r) t)) else Ok None
    end
  | _ => error "Unknown criteria"
  end.

(** The marker in the answers: a star when there is none. *)
Definition marker_string (r : ReadReceipt) : string :=
  if IsZero (rrTimestamp r) then "*" else marker (Some r).

Definition push_marker (p : nat) (target : string) (r : ReadReceipt) (broadcast : bool) : RM unit :=
  n ← net_now p;
  match CMM.Get (net_pushTargets n) target with
  | Some t =>
    when broadcast (
      when (negb (rrTimestamp r <? t))
        (own_on_net p (λ _, modify (λ n, set_net_pushTargets (CMM.Del (net_pushTargets n) target) n))) ;;
      on_dc (demit (DBroadcastWebPush (msg "MARKREAD" [target; marker_string r]))))
  | None => skip
  end.

(** The marker of the database and what becomes of it; the flag tells whether it moved. *)
Definition move_marker (cmd target criteria : string) (n : ustate) : RM (ReadReceipt * bool) :=
  let internal {A} : RM A := refuse "FAIL" [cmd; "INTERNAL_ERROR"; target; "Internal error"] in
  let id := nID (net_record n) in
  let targetCM := cm_apply (net_casemap n) target in
  r ← call_db (DGetReadReceipt id targetCM) (λ tr, re_GetReadReceipt tr id targetCM);
  match r with
  | inr _ => internal
  | inl r =>
    let r := default (MkReadReceipt 0 targetCM zeroTime) r in
    now ← get_now;
    moved ← lift (marker_criteria cmd criteria now r);
    match moved with
    | None => mret (r, false)
    | Some r' =>
      err ← call_db (DStoreReadReceipt id r') (λ tr, re_StoreReadReceipt tr id r');
      match err with
      | Some _ => internal
      | None => mret (r', true)
      end
    end
  end.

Definition handle_MARKREAD_dc (m : Message) : RM unit :=
  match Params m with
  | [] => refuse "FAIL" [Command m; "NEED_MORE_PARAMS"; "Missing parameters"]
  | target :: rest =>
    dc ← get_dc;
    if decide (cm_apply (d_casemap dc) target = serviceNickCM) then
      reply (msg_from (d_prefix dc) (Command m) [target; "*"])
    else
      net ← get_network;
      match net with
      | None => refuse "FAIL" [Command m; "INTERNAL_ERROR"; target; "Cannot set read markers on bouncer connection"]
      | Some (p, n) =>
        '(r, broadcast) ← move_marker (Command m) target (hd "" rest) n;
        own_on_net p (λ E, forEachDownstream (E:=E) (λ d,
          when (broadcast || bool_decide (dc_id d = re_self))
            (send_dc d (SendMessage (msg_from (dc_prefix d)
              (if IsEnabled (dc_caps d) "draft/read-marker" then "MARKREAD" else "READ") [target; marker_string r]))))) ;;
        push_marker p target r broadcast
      end
  end.

(** ** Search *)

(** The attributes of SEARCH, one after the other; the network is set by [in]. *)
Definition search_attr (net : option ustate) (acc : option ustate * searchCall) (kv : string * string) :
    res goerr (option ustate * searchCall) :=
  let '(found, o) := acc in
  let '(name, v) := kv in
  let error text := Err (ircError (msg "FAIL" ["SEARCH"; "INVALID_PARAMS"; name; text])) in
  if decide (name = "before" ∨ name = "after") then
    match ParseServerTime v with
    | None => error "Invalid criteria"
    | Some t =>
      Ok (found, if decide (name = "after") then MkSearchCall t (seEnd o) (seLimit o) (seFrom o) (seIn o) (seText o)
                 else MkSearchCall (seStart o) t (seLimit o) (seFrom o) (seIn o) (seText o))
    end
  else if decide (name = "from") then Ok (found, MkSearchCall (seStart o) (seEnd o) (seLimit o) v (seIn o) (seText o))
  else if decide (name = "in") then
    match net with
    | None => error "Cannot search on bouncer connection"
    | Some n => Ok (Some n, MkSearchCall (seStart o) (seEnd o) (seLimit o) (seFrom o) (cm_apply (net_casemap n) v) (seText o))
    end
  else if decide (name = "text") then Ok (found, MkSearchCall (seStart o) (seEnd o) (seLimit o) (seFrom o) (seIn o) v)
  else if decide (name = "limit") then
    match Atoi v with
    | Some l => if l <=? 0 then error "Invalid limit"
                else Ok (found, MkSearchCall (seStart o) (seEnd o) l (seFrom o) (seIn o) (seText o))
    | None => error "Invalid limit"
    end
  else Ok (found, o).

Fixpoint search_attrs (net : option ustate) (acc : option ustate * searchCall) (l : list (string * string)) :
    res goerr (option ustate * searchCall) :=
  match l with
  | [] => Ok acc
  | kv :: l => acc ← search_attr net acc kv; search_attrs net acc l
  end.

Definition handle_SEARCH_dc (m : Message) : RM unit :=
  dc ← get_dc;
  if negb re_searchStore then refuse ERR_UNKNOWNCOMMAND [d_nick dc; "SEARCH"; "Unknown command"]
  else
    ps ← lift (parseMessageParams m 1);
    net ← get_network;
    '(found, o) ← lift (search_attrs (snd <$> net) (None, MkSearchCall zeroTime zeroTime searchMaxLimit "" "" "")
                          (map_to_list (re_ParseTags (param ps 0))));
    match found with
    | None => refuse "FAIL" ["SEARCH"; "INVALID_PARAMS"; "in"; "The in parameter is mandatory"]
    | Some n =>
      let o := MkSearchCall (seStart o) (seEnd o) (if searchMaxLimit <? seLimit o then searchMaxLimit else seLimit o)
                 (seFrom o) (seIn o) (seText o) in
      let id := nID (net_record n) in
      r ← call_db (DSearch id o) (λ tr, re_Search tr id o);
      match r with
      | inr _ => refuse "FAIL" ["SEARCH"; "INTERNAL_ERROR"; "Messages could not be retrieved"]
      | inl messages => reply_batch "soju.im/search" [] messages
      end
    end.

(** ** Device certificates *)

Definition cert_attrs (cert : DeviceCertificate) : gmap string string :=
  list_to_map [("time", re_FormatLocal (devLastUsed cert)); ("ip", devLastIP cert); ("name", devLabel cert)].

Definition cert_list : RM unit :=
  u ← get_user;
  r ← on_srv (λ _, scall (SListDeviceCertificates (uID u)) (λ tr, sv_ListDeviceCertificates tr (uID u)));
  match r with
  | inr e => fail e
  | inl certs =>
    reply_batch "soju.im/client-cert" [] ((λ c, msg "CLIENTCERT"
      ["LIST"; ToUpper (hex_encode (devFingerprint c)); re_TagsString (cert_attrs c)]) <$> certs)
  end.

Definition cert_fail {A} (code sub text : string) : RM A := refuse "FAIL" ["CLIENTCERT"; code; sub; text].

Definition cert_create (label : string) : RM unit :=
  match de_peerCertHash with
  | None => cert_fail "NOCERT" "CREATE" "No TLS client certificate is used"
  | Some h =>
    u ← get_user;
    dc ← get_dc;
    let cert := de_MarkUsed (d_trace dc) (MkDevice 0 label h 0 "") in
    err ← on_srv (λ _, scall (SStoreDeviceCertificate (uID u) cert) (λ tr, sv_StoreDeviceCertificate tr (uID u) cert));
    match err with
    | Some e =>
      if decide (e = ErrDuplicateDeviceCertificate) then reply (msg "CLIENTCERT" ["CREATE"])
      else cert_fail "INTERNAL_ERROR" "CREATE" "Could not create device certificate"
    | None => reply (msg "CLIENTCERT" ["CREATE"])
    end
  end.

(** The fingerprint given, or the one of the connection, with its bytes. *)
Definition cert_fingerprint (arg : option string) : RM (string * string) :=
  match arg with
  | Some fingerprint =>
    match hex_decode fingerprint with
    | Some h => if (slen h =? sha512_Size)%nat then mret (fingerprint, h)
                else cert_fail "INTERNAL_ERROR" "DELETE" "Invalid device certificate fingerprint"
    | None => cert_fail "INTERNAL_ERROR" "DELETE" "Invalid device certificate fingerprint"
    end
  | None =>
    match de_peerCertHash with
    | None => cert_fail "NOCERT" "DELETE" "No TLS client certificate is used"
    | Some h => mret (ToUpper (hex_encode h), h)
    end
  end.

Definition cert_delete (arg : option string) : RM unit :=
  '(fingerprint, h) ← cert_fingerprint arg;
  u ← get_user;
  err ← on_srv (λ _, scall (SDeleteDeviceCertificate (uID u) h) (λ tr, sv_DeleteDeviceCertificate tr (uID u) h));
  match err with
  | Some _ => cert_fail "INTERNAL_ERROR" "DELETE" "Could not delete device certificate"
  | None => reply (msg "CLIENTCERT" ["DELETE"; fingerprint])
  end.

Definition handle_CLIENTCERT_dc (m : Message) : RM unit :=
  ps ← lift (parseMessageParams m 1);
  if negb (cfgClientCertAuth de_config) then fail (newUnknownCommandError (Command m))
  else
    let sub := ToUpper (param ps 0) in
    if decide (sub = "LIST") then cert_list
    else if decide (sub = "CREATE") then
      ps ← lift (parseMessageParams m 2); cert_create (param ps 1)
    else if decide (sub = "DELETE") then cert_delete (Params m !! 1%nat)
    else cert_fail "UNKNOWN_COMMAND" (param ps 0) "Unknown subcommand".

(** ** The networks of the bouncer *)

Definition bouncer_fail {A} (params : list string) : RM A := refuse "FAIL" ("BOUNCER" :: params).

Definition set_nName (x : string) (n : dbNetwork) : dbNetwork :=
  MkNetwork (nID n) x (nAddr n) (nNick n) (nUsername n) (nRealname n) (nPass n) (nConnectCommands n)
    (nCertFP n) (nSASL n) (nAutoAway n) (nEnabled n).
Definition set_nUsername (x : string) (n : dbNetwork) : dbNetwork :=
  MkNetwork (nID n) (nName n) (nAddr n) (nNick n) x (nRealname n) (nPass n) (nConnectCommands n)
    (nCertFP n) (nSASL n) (nAutoAway n) (nEnabled n).
Definition set_nPass (x : string) (n : dbNetwork) : dbNetwork :=
  MkNetwork (nID n) (nName n) (nAddr n) (nNick n) (nUsername n) (nRealname n) x (nConnectCommands n)
    (nCertFP n) (nSASL n) (nAutoAway n) (nEnabled n).
Definition set_nAddr (x : string) (n : dbNetwork) : dbNetwork :=
  MkNetwork (nID n) (nName n) x (nNick n) (nUsername n) (nRealname n) (nPass n) (nConnectCommands n)
    (nCertFP n) (nSASL n) (nAutoAway n) (nEnabled n).

(** One attribute of [updateNetworkAttrs]: the record and the parts of the address. *)
Definition network_attr (sub : string) (acc : dbNetwork * gmap string string * bool) (kv : string * string) :
    res goerr (dbNetwork * gmap string string * bool) :=
  let '(r, addr, upd) := acc in
  let '(k, v) := kv in
  if decide (k ∈ ["host"; "port"; "tls"]) then Ok (r, <[k := v]> addr, true)
  else if decide (k = "name") then Ok (set_nName v r, addr, upd)
  else if decide (k = "nickname") then Ok (set_nNick v r, addr, upd)
  else if decide (k = "username") then Ok (set_nUsername v r, addr, upd)
  else if decide (k = "realname") then Ok (set_nRealname v r, addr, upd)
  else if decide (k = "pass") then Ok (set_nPass v r, addr, upd)
  else Err (ircError (msg "FAIL" ["BOUNCER"; "UNKNOWN_ATTRIBUTE"; sub; k; "Unknown attribute"])).

Fixpoint network_attrs (sub : string) (acc : dbNetwork * gmap string string * bool) (l : list (string * string)) :
    res goerr (dbNetwork * gmap string string * bool) :=
  match l with
  | [] => Ok acc
  | kv :: l => acc ← network_attr sub acc kv; network_attrs sub acc l
  end.

Definition updateNetworkAttrs (record : dbNetwork) (attrs : gmap string string) (sub : string) : res goerr dbNetwork :=
  '(r, addr, upd) ← network_attrs sub (record, fillNetworkAddrAttrs ∅ record, false) (map_to_list attrs);
  if (upd : bool) then
    let a := networkAddrFromAttrs addr in
    if decide (a = "") then
      Err (ircError (msg "FAIL" ["BOUNCER"; "NEED_ATTRIBUTE"; sub; "host"; "Missing required host attribute"]))
    else Ok (set_nAddr a r)
  else Ok r.

(** What equals the default of the user is left to it. *)
Definition default_attrs (u : dbUser) (r : dbNetwork) : dbNetwork :=
  let r := if decide (nNick r = uUsername u) then set_nNick "" r else r in
  if decide (nRealname r = uRealname u) then set_nRealname "" r else r.

Definition bouncer_list : RM unit :=
  s ← gets (λ r, own_user (r_srv r));
  match s with
  | None => panic "invalid memory address or nil pointer dereference"
  | Some s =>
    reply_batch "soju.im/bouncer-networks" [] ((λ p, msg "BOUNCER"
      ["NETWORK"; FormatInt (nID (rec_at s p)); re_TagsString (getNetworkAttrs (us_record s) (net_at s p))]) <$> us_networks s)
  end.

Definition bouncer_add (m : Message) (sub : string) : RM unit :=
  ps ← lift (parseMessageParams m 2);
  dc ← get_dc;
  u ← get_user;
  record ← lift (updateNetworkAttrs (set_nNick (d_nick dc) (NewNetwork "")) (re_ParseTags (param ps 1)) sub);
  r ← try (own_on_user (λ _, p ← createNetwork (default_attrs u record) true; gets (λ s, nID (rec_at s p))));
  match r with
  | inr e => bouncer_fail ["UNKNOWN_ERROR"; sub; "Failed to create network: " +:+ re_errorText e]
  | inl id => reply (msg "BOUNCER" ["ADDNETWORK"; FormatInt id])
  end.

(** The network an ID designates. *)
Definition bouncer_network_of (sub idStr : string) : RM dbNetwork :=
  id ← lift (parseBouncerNetID sub idStr);
  o ← gets (λ r, s ← own_user (r_srv r); p ← getNetworkByID s id; Some (rec_at s p));
  match o with
  | None => bouncer_fail ["INVALID_NETID"; sub; idStr; "Invalid network ID"]
  | Some record => mret record
  end.

Definition bouncer_change (m : Message) (sub : string) : RM unit :=
  ps ← lift (parseMessageParams m 3);
  net ← bouncer_network_of sub (param ps 1);
  u ← get_user;
  record ← lift (updateNetworkAttrs net (re_ParseTags (param ps 2)) sub);
  r ← try (own_on_user (λ E, updateNetwork (E:=E) (default_attrs u record) (negb (nEnabled net))));
  match r with
  | inr e => bouncer_fail ["UNKNOWN_ERROR"; sub; "Failed to update network: " +:+ re_errorText e]
  | inl _ => reply (msg "BOUNCER" ["CHANGENETWORK"; param ps 1])
  end.

Definition bouncer_delete (m : Message) (sub : string) : RM unit :=
  ps ← lift (parseMessageParams m 2);
  net ← bouncer_network_of sub (param ps 1);
  own_on_user (λ _, deleteNetwork (nID net)) ;;
  reply (msg "BOUNCER" ["DELNETWORK"; param ps 1]).

Definition handle_BOUNCER_dc (m : Message) : RM unit :=
  ps ← lift (parseMessageParams m 1);
  let sub := param ps 0 in
  let up := ToUpper sub in
  if decide (up = "BIND") then
    bouncer_fail ["REGISTRATION_IS_COMPLETED"; "BIND"; "Cannot bind to a network after registration"]
  else if decide (up = "LISTNETWORKS") then bouncer_list
  else if decide (up = "ADDNETWORK") then bouncer_add m sub
  else if decide (up = "CHANGENETWORK") then bouncer_change m sub
  else if decide (up = "DELNETWORK") then bouncer_delete m sub
  else bouncer_fail ["UNKNOWN_COMMAND"; sub; "Unknown subcommand"].

(** ** Push notifications *)

Definition push_fail {A} (code sub text : string) : RM A := refuse "FAIL" ["WEBPUSH"; code; sub; text].

(** The user and network subscriptions belong to; zero is the bouncer. *)
Definition push_owner : RM (Z * Z) :=
  u ← get_user;
  net ← get_network;
  mret (uID u, match net with Some (_, n) => nID (net_record n) | None => 0 end).

Definition push_list (sub : string) : RM (list WebPushSubscription) :=
  '(uid, nid) ← push_owner;
  r ← call_db (DListWebPushSubscriptions uid nid) (λ tr, re_ListWebPush tr uid nid);
  match r with
  | inr _ => push_fail "INTERNAL_ERROR" sub "Internal error"
  | inl subs => mret subs
  end.

(** [sanityCheckWebPushEndpoint] *)
Definition sanityCheckWebPushEndpoint (endpoint : string) : bool :=
  match ue_urlParse endpoint with Some u => bool_decide (urlScheme u = "https") | None => false end.

(** The endpoint is checked, tried and stored. *)
Definition push_update (sub : string) (new : WebPushSubscription) : RM unit :=
  if negb (sanityCheckWebPushEndpoint (subEndpoint new)) then push_fail "INVALID_PARAMS" sub "Invalid endpoint"
  else
    let note := msg "NOTE" ["WEBPUSH"; "REGISTERED"; "Push notifications enabled"] in
    err ← call_db (DSendWebPush new note) (λ tr, re_SendWebPush tr new note);
    match err with
    | Some _ => push_fail "INVALID_PARAMS" sub "Invalid endpoint"
    | None =>
      '(uid, nid) ← push_owner;
      err ← call_db (DStoreWebPushSubscription uid nid new) (λ tr, re_StoreWebPush tr uid nid new);
      match err with
      | Some _ => push_fail "INTERNAL_ERROR" sub "Internal error"
      | None => skip
      end
    end.

Definition push_register (m : Message) (sub : string) : RM unit :=
  ps ← lift (parseMessageParams m 3);
  let endpoint := param ps 1 in
  let keys := re_ParseTags (param ps 2) in
  match keys !! "auth", keys !! "p256dh" with
  | Some auth, Some p256dh =>
    let new := MkSub 0 endpoint 0 (MkKeys auth p256dh (cfgVAPIDPublic de_config)) in
    subs ← push_list sub;
    if (25 <? length subs)%nat then push_fail "INTERNAL_ERROR" sub "Too many subscriptions"
    else
      now ← get_now;
      (match findWebPushSubscription subs endpoint with
       | Some old =>
         when ((webpushCheckSubscriptionDelay <? now - subUpdatedAt old) || bool_decide (subKeys old ≠ subKeys new))
           (push_update sub (MkSub (subID old) endpoint 0 (subKeys new)))
       | None => push_update sub new
       end) ;;
      reply (msg "WEBPUSH" ["REGISTER"; endpoint])
  | _, _ => push_fail "INVALID_PARAMS" sub "Missing auth or p256dh key"
  end.

Definition push_unregister (m : Message) (sub : string) : RM unit :=
  ps ← lift (parseMessageParams m 2);
  let endpoint := param ps 1 in
  subs ← push_list sub;
  match findWebPushSubscription subs endpoint with
  | None => reply (msg "WEBPUSH" ["UNREGISTER"; endpoint])
  | Some old =>
    err ← call_db (DDeleteWebPushSubscription (subID old)) (λ tr, re_DeleteWebPush tr (subID old));
    match err with
    | Some _ => push_fail "INTERNAL_ERROR" sub "Internal error"
    | None => reply (msg "WEBPUSH" ["UNREGISTER"; endpoint])
    end
  end.

Definition handle_WEBPUSH_dc (m : Message) : RM unit :=
  dc ← get_dc;
  if negb (IsEnabled (d_caps dc) "soju.im/webpush") then fail (newUnknownCommandError (Command m))
  else
    ps ← lift (parseMessageParams m 1);
    let sub := param ps 0 in
    if decide (sub = "REGISTER") then push_register m sub
    else if decide (sub = "UNREGISTER") then push_unregister m sub
    else push_fail "INVALID_PARAMS" sub "Unknown command".

(** ** The dispatcher *)

(** CAP may turn the notifications of networks on and off. *)
Definition handle_CAP_registered (m : Message) : RM unit :=
  r ← try (on_dc (handleCap m));
  dc ← get_dc;
  own_on_user (λ _, modify (λ s, set_us_downstreams ((λ d,
    if decide (dn_id d = re_self)
    then MkDown (dn_id d) (dn_network d) (IsEnabled (d_caps dc) "soju.im/bouncer-networks-notify") (dn_closed d) else d)
    <$> us_downstreams s) s)) ;;
  match r with inl _ => skip | inr e => fail e end.

Definition handle_other_dc (m : Message) : RM unit :=
  net ← get_network;
  match net with
  | None => fail (newUnknownCommandError (Command m))
  | Some (p, n) =>
    if net_connected n then send_labeled p m
    else refuse ERR_UNKNOWNCOMMAND ["*"; Command m; "Disconnected from upstream network"]
  end.

Definition registered_table : list (list string * (Message → RM unit)) := [
  (["CAP"], handle_CAP_registered); (["PING"], handle_PING_dc); (["PONG"], handle_PONG_dc);
  (["USER"], λ m, dc ← get_dc; refuse ERR_ALREADYREGISTERED [d_nick dc; "You may not reregister"]);
  (["NICK"], handle_NICK_dc); (["SETNAME"], handle_SETNAME_dc); (["JOIN"], handle_JOIN_dc);
  (["PART"], handle_PART_dc); (["KICK"; "INVITE"], pass_through); (["MODE"], handle_MODE_dc);
  (["TOPIC"], handle_TOPIC_dc); (["LIST"], handle_LIST_dc); (["NAMES"], handle_NAMES_dc);
  (["WHO"], handle_WHO_dc); (["WHOIS"], handle_WHOIS_dc);
  (["PRIVMSG"; "NOTICE"; "TAGMSG"; "REDACT"], handle_message_dc);
  (["AUTHENTICATE"], handle_AUTHENTICATE_dc); (["REGISTER"; "VERIFY"], handle_account_dc);
  (["AWAY"], handle_AWAY_dc); (["INFO"], handle_INFO_dc); (["MONITOR"], handle_MONITOR_dc);
  (["METADATA"], handle_METADATA_dc); (["CHATHISTORY"], handle_CHATHISTORY_dc);
  (["READ"; "MARKREAD"], handle_MARKREAD_dc); (["SEARCH"], handle_SEARCH_dc);
  (["CLIENTCERT"], handle_CLIENTCERT_dc); (["BOUNCER"], handle_BOUNCER_dc); (["WEBPUSH"], handle_WEBPUSH_dc)].

Definition handleMessageRegistered (m : Message) : RM unit :=
  match List.find (λ e, bool_decide (Command m ∈ e.1)) registered_table with
  | Some (_, h) => h m
  | None => handle_other_dc m
  end.

(** [handleMessage] of a registered connection; compare [dispatch_dc] and [handleMessage_dc]. *)
Definition dispatch_registered (m : Message) : RM unit :=
  if decide (Command m = "QUIT") then on_dc (demit DShutdown)
  else if decide (Command m = "ISUPPORT") then
    dc ← get_dc;
    if negb (IsEnabled (d_caps dc) "draft/extended-isupport") then fail (newUnknownCommandError (Command m))
    else on_dc (s ← gets id; let tokens := buildIsupport s in sendIsupport tokens ;; modify (set_d_isupport tokens))
  else
    r ← try (handleMessageRegistered m);
    match r with
    | inl _ => skip
    | inr (ircError em) => reply (with_prefix (Some de_srvPrefix) em)
    | inr e => fail e
    end.

Definition handleMessage_registered (m : Message) : RM unit :=
  dc ← get_dc;
  (match Tags m !! "label" with
   | Some label => when (IsEnabled (d_caps dc) "labeled-response") (on_dc (set_label (MkLabel label "" None)))
   | None => skip
   end) ;;
  finally (dispatch_registered m ;; on_dc FlushBatch_dc) (on_dc (modify (set_d_label None))).

(** ** The events of the client (user.go) *)

Definition own_closed (sv : server) : bool :=
  match own_user sv ≫= (λ s, List.find (λ d, bool_decide (dn_id d = re_self)) (us_downstreams s)) with
  | Some d => dn_closed d
  | None => true
  end.

Definition close_own : RM unit :=
  own_on_user (λ _, modify (λ s, set_us_downstreams
    ((λ d, if decide (dn_id d = re_self) then close_dn d else d) <$> us_downstreams s) s)).

(** [eventDownstreamMessage]: messages of a closed connection are ignored, an error closes it. *)
Definition client_event (m : Message) : RM unit :=
  closed ← gets (λ r, own_closed (r_srv r));
  if (closed : bool) then skip
  else
    r ← try (handleMessage_registered m);
    match r with inl _ => skip | inr _ => close_own end.

(** The messages of a client, one after the other; a panic ends the event loop. *)
Fixpoint client_run (ms : list Message) (r : rstate) : rstate :=
  match ms with
  | [] => r
  | m :: ms => match client_event m r with (r', Panic _) => r' | (r', _) => client_run ms r' end
  end.
End extensions.
