(* ===== verification/DownstreamWelcome.v ===== *)
(** * The welcome of a registered client (downstream.go)

    A connection that has registered joins its user in the user's event loop: it is bound to a
    network, told about the network and its channels, and gets what it has missed. While it is
    welcomed it is not yet among the connections of the user, so its network is an argument. *)

From S2P Require Import Prelude GoStrings GoUnicode GoStrconv IrcMessage GoFlag CaseMapping Membership Modes WhoX Base64.
From S2P Require Import Effects GenMsg Caps Database Highlight Upstream UpstreamHandlers Downstream DownstreamHandlers.
From S2P Require Import MsgID UserNetworks ServiceWords Service GoTime DownstreamSession DownstreamCommands DownstreamRequests DownstreamExtensions.

Open Scope string_scope.
Open Scope list_scope.
Open Scope Z_scope.

Section welcome.
Context `{DE : denv} `{UE : uenv} `{SV : svenv} `{RE : renv} `{UnicodeTables} `{HBare : Bare msgIDHeader}.

(** ** What the client is told *)

Definition sendTargetMetadata (mt : MessageTarget) : DM unit :=
  s ← gets id;
  if negb (IsEnabled (d_caps s) "draft/metadata-2") then skip
  else SendBatch_dc "metadata" [] ∅ (λ ref, foreach (λ k,
    match getMessageTargetMetadata mt !! k with
    | Some v => SendMessage_dc (with_tags (<["batch" := ref]>) (msg "METADATA" [mtTarget mt; k; "*"; v]))
    | None => skip
    end) (elements (d_metadataSubs s))).

(** The nickname of the connection, bound to [net]. *)
Definition welcome_nick (u : dbUser) (net : option ustate) : string :=
  match net with
  | Some n => if net_connected n then nick n else GetNick u (Some (net_record n))
  | None => uUsername u
  end.

(** The numerics of a new connection, up to the message of the day; [motd] is the configured
    one. *)
Definition welcome_burst (motd : string) (u : dbUser) (net : option ustate) : DM unit :=
  let n := welcome_nick u net in
  let hostname := cfgHostname de_config in
  modify (set_d_nick n) ;;
  modify (λ s, set_d_nickCM (cm_apply (d_casemap s) n) s) ;;
  SendMessage_dc (msg RPL_WELCOME [n; "Welcome to soju, " +:+ n]) ;;
  SendMessage_dc (msg RPL_YOURHOST [n; "Your host is " +:+ hostname]) ;;
  SendMessage_dc (msg RPL_MYINFO [n; hostname; "soju"; "aiwroO"; "OovaimnqpsrtklbeI"]) ;;
  updateIsupport_dc ;;
  n ← gets d_nick;
  (match net with
   | Some uc => when (net_connected uc) (SendMessage_dc (msg RPL_UMODEIS [n; "+" +:+ modes uc]))
   | None => when (uAdmin u) (SendMessage_dc (msg RPL_UMODEIS [n; "+o"]))
   end) ;;
  updateHost_dc ;; updateRealname_dc ;; updateAccount_dc ;; dcUpdateCasemapping ;;
  match net with
  | None =>
    if decide (motd ≠ "") then foreach SendMessage_dc (GenerateMOTD motd)
    else SendMessage_dc (msg ERR_NOMOTD [n; "No MOTD"])
  | Some _ => SendMessage_dc (msg ERR_NOMOTD [n; "Use /motd to read the message of the day"])
  end.

(** The metadata of the targets of the network. *)
Definition welcome_metadata (net : option ustate) : DM unit :=
  s ← gets id;
  if negb (IsEnabled (d_caps s) "draft/metadata-2") then skip
  else
    SendBatch_dc "metadata" [] ∅ (λ _, skip) ;;
    match net with
    | None => skip
    | Some net =>
      let id := nID (net_record net) in
      r ← dcall (DListMessageTargets id) (λ tr, de_ListMessageTargets tr id);
      match r with
      | inr _ => fail (Errorf "failed to list message targets: %v")
      | inl targets => foreach sendTargetMetadata targets
      end
    end.

(** One joined channel; detached and incomplete ones are left out. *)
Definition welcome_channel (uc : ustate) (ch : upstreamChannel) : DM unit :=
  let detached := match CMM.Get (net_channels uc) (chName ch) with Some record => cDetached record | None => false end in
  if negb (chComplete ch) || detached then skip
  else
    s ← gets id;
    let extra := if IsEnabled (d_caps s) "extended-join"
                 then [if decide (account uc = "") then "*" else account uc; realname uc] else [] in
    SendMessage_dc (msg_from (d_prefix s) "JOIN" (chName ch :: extra)) ;;
    forwardChannel_dc uc ch.

(** ** The backlog *)

(** The backlog of one target, from the message the client has acknowledged last; then the
    client counts as having everything. *)
Definition welcome_backlog (p : nat) (target : string) : RM unit :=
  r ← gets id;
  let clientName := d_clientName (r_dc r) in
  match heap_net (r_srv r) p with
  | None => panic "invalid memory address or nil pointer dereference"
  | Some net =>
    let lastDelivered := delivered_LoadID (net_delivered net) target clientName in
    if decide (lastDelivered = "") then skip
    else
      on_dc_at (λ _, Some p) (sendTargetBacklog_dc net target lastDelivered) ;;
      let id := nID (net_record net) in
      let targetCM := cm_apply (net_casemap net) target in
      lastID ← on_dc_at (λ _, Some p) (dcall (DLastMsgID id targetCM) (λ tr, re_LastMsgID tr id targetCM));
      match lastID with
      | inr _ => skip
      | inl lastID => own_on_net p (λ _, modify (λ n,
          set_net_delivered (delivered_StoreID (net_delivered n) target clientName lastID) n))
      end
  end.

(** Whether no other connection of the network has the client name; [clients] has the client
    names of the connections. *)
Definition first_client (clients : gmap Z string) (p : nat) (s : userState) (clientName : string) : bool :=
  negb (existsb (λ d, negb (bool_decide (dn_id d = re_self)) && bool_decide (clients !! dn_id d = Some clientName)
                      && bool_decide (dn_network d = Some p)) (us_downstreams s)).

Definition welcome_history (clients : gmap Z string) (p : nat) : RM unit :=
  r ← gets id;
  match own_user (r_srv r), heap_net (r_srv r) p with
  | Some s, Some net =>
    when (negb (IsEnabled (d_caps (r_dc r)) "draft/chathistory") && e_hasStore (env := re_env re_user)
          && first_client clients p s (d_clientName (r_dc r)))
      (foreach (welcome_backlog p) (originalKey <$> CMM.Entries (net_delivered net)))
  | _, _ => skip
  end.

(** ** The welcome *)

(** The networks of the user, for a client that is notified of them. *)
Definition welcome_networks (s : userState) : DM unit :=
  cr ← gets d_caps;
  when (IsEnabled cr "soju.im/bouncer-networks-notify")
    (SendBatch_dc "soju.im/bouncer-networks" [] ∅ (λ ref, foreach (λ p,
       SendMessage_dc (with_tags (<["batch" := ref]>) (bouncer_network (nID (rec_at s p))
         (Some (getNetworkAttrs (us_record s) (net_at s p)))))) (us_networks s))).

(** The result is the network the connection is bound to. *)
Definition welcome (motd : string) (clients : gmap Z string) : RM (option nat) :=
  dc ← get_dc;
  if negb (d_registered dc) then panic "tried to welcome an unregistered connection"
  else if bool_decide (is_Some (d_user dc)) then panic "tried to welcome the same connection twice"
  else
    on_dc_at (λ _, None) skip ;; (* the user is known from here on *)
    p ← own_on_user (λ _, loadNetwork (d_nick dc) (d_registration dc));
    on_dc_at (λ _, p) (modify_reg (λ _, MkReg "" "" "" "" 0 false "") ;; updateSupportedCaps_dc) ;;
    sv ← gets r_srv;
    match own_user sv with
    | None => panic "invalid memory address or nil pointer dereference"
    | Some s =>
      let net := p ≫= heap_net sv in
      on_dc_at (λ _, p) (welcome_burst motd (us_record s) net ;; welcome_networks s ;; welcome_metadata net) ;;
      (match net with
       | Some uc => when (net_connected uc) (on_dc_at (λ _, p) (foreach (welcome_channel uc) (value <$> CMM.Entries (channels uc))))
       | None => skip
       end) ;;
      (match p with Some p => welcome_history clients p | None => skip end) ;;
      mret p
    end.
End welcome.
