(* ===== verification/UserLoop.v ===== *)
(** * The event loop of a user (user.go)

    One goroutine per user handles its events one at a time: what servers and clients send,
    connections that begin and end, timers, and requests of other users. The state is the
    server with all the client connections of the user. A handler is a method of the server
    or of one connection; what it does to the connections is taken from the trace and executed
    on each of them, and the networks see the connections as they are when the event begins. *)

From S2P Require Import Prelude GoStrings GoUnicode GoStrconv IrcMessage GoFlag CaseMapping Membership Modes WhoX Base64.
From S2P Require Import Effects GenMsg Caps Database Highlight Upstream UpstreamHandlers Downstream DownstreamHandlers.
From S2P Require Import MsgID UserNetworks ServiceWords Service GoTime DownstreamSession DownstreamCommands DownstreamRequests DownstreamExtensions.
From S2P Require Import DownstreamWelcome NetworkRun.

Open Scope string_scope.
Open Scope list_scope.
Open Scope Z_scope.

(** What the loop itself asks of the database. *)
Inductive laction :=
| LStoreReceipts (networkID : Z) (client : string) (receipts : list (string * string)).

Record loop := MkLoop { lp_srv : server; lp_dcs : gmap Z dstate; lp_trace : list laction }.
Definition eta_lp (x : loop) : loop := MkLoop (lp_srv x) (lp_dcs x) (lp_trace x).
Definition set_lp_dcs : gmap Z dstate → loop → loop := ltac:(setter eta_lp lp_dcs).
Definition set_lp_trace : list laction → loop → loop := ltac:(setter eta_lp lp_trace).

(** The name of the user and the settings of the server that the loop reads; [le_conn] is the
    environment of each connection. *)
Class lenv := MkLenv {
  le_user : string;
  le_conn : Z → denv;
  le_MOTD : string;
  le_enableUsersOnAuth : bool;
  le_persistentStore : bool;
  le_ParseMessage : string → option Message;
  le_now : server → Z;
  (** the rows of the database when the user is loaded; a receipt is a target, a client and a
      message ID *)
  le_ListNetworks : Z → list dbNetwork + goerr;
  le_ListChannels : Z → list dbChannel + goerr;
  le_ListDeliveryReceipts : Z → list (string * string * string) + goerr
}.

Abbreviation LM := (ST loop).

Inductive event :=
(** the goroutine of a network has connected, and registers with these messages *)
| eventUpstreamConnected (p : nat) (msgs : list (option Message))
| eventUpstreamDisconnected (p : nat)
| eventUpstreamConnectionError (p : nat) (err : string)
| eventUpstreamError (p : nat) (err : string)
| eventUpstreamMessage (p : nat) (closed : bool) (m : Message)
| eventChannelDetach (p : nat) (name : string)
| eventDownstreamConnected (id : Z) (dc : dstate)
| eventDownstreamDisconnected (id : Z)
| eventDownstreamMessage (id : Z) (m : Message)
| eventBroadcast (m : Message)
| eventUserUpdate (hashed : option string) (flags : userUpdateFlags)
| eventTryRegainNick (p : nat) (nick : string)
| eventUserRun (params : list string)
| eventStop.

Section loop.
Context `{UE : uenv} `{SV : svenv} `{RE : renv} `{LE : lenv} `{UnicodeTables} `{HBare : Bare msgIDHeader}.

(** ** The connections of the user *)

Definition with_views (E : env) (views : list downstreamView) : env :=
  MkEnv (e_user (env := E)) views (e_hasStore (env := E)) (e_LastMsgID (env := E)) (e_Append (env := E))
    (e_GetMessageTarget (env := E)) (e_now (env := E)) (e_time (env := E)) (e_ParsePrefix (env := E))
    (e_srvPrefix (env := E)) (e_saslStart (env := E)) (e_saslNext (env := E)).

(** The environment of connection [id], when the networks of the user see [views]. *)
Definition self_renv (id : Z) (views : list downstreamView) : renv :=
  MkRenv id le_user (λ name, if decide (name = le_user) then with_views (re_env name) views else re_env name)
    re_MessageString re_ParseTags re_TagsString re_now re_FormatLocal re_errorText re_fsStore re_searchStore
    re_GetMessageTarget re_StoreMessageTarget re_GetReadReceipt re_StoreReadReceipt re_LastMsgID re_history
    re_ListTargets re_Search re_ListWebPush re_StoreWebPush re_DeleteWebPush re_SendWebPush.

Definition views_of (dcs : gmap Z dstate) : list downstreamView :=
  (λ x : Z * dstate, own_view (RE := self_renv x.1 []) x.2) <$> map_to_list dcs.

(** The environments of the users' networks. *)
Definition loop_env (l : loop) (name : string) : env :=
  if decide (name = le_user) then with_views (re_env name) (views_of (lp_dcs l)) else re_env name.

(** A method of connection [id]. *)
Definition focus {A} (id : Z) (m : ∀ (DE : denv) (R : renv), RM A) : LM A := λ l,
  match lp_dcs l !! id with
  | None => (l, Panic "invalid memory address or nil pointer dereference")
  | Some dc =>
    let '(r, x) := m (le_conn id) (self_renv id (views_of (lp_dcs l))) (MkR (lp_srv l) dc) in
    (MkLoop (r_srv r) (<[id := r_dc r]> (lp_dcs l)) (lp_trace l), x)
  end.

Definition connection_ids (sv : server) : list Z :=
  match srv_users sv !! le_user with Some s => dn_id <$> us_downstreams s | None => [] end.

(** One step of the server, as the connections of the user other than [self] hear of it; the
    answers of BouncerServ go to the connection that asked. *)
Definition deliver_all (self : option Z) (a : saction) : LM unit :=
  match a with
  | SPrint _ => skip
  | _ =>
    l ← gets Datatypes.id;
    foreach (λ i, if decide (self = Some i ∨ lp_dcs l !! i = None) then skip
                  else focus i (λ DE R, deliver (DE:=DE) (RE:=R) a))
      (connection_ids (lp_srv l))
  end.

(** The steps of the server since [l0]. *)
Definition deliver_since (l0 : loop) (self : option Z) : LM unit := λ l,
  foreach (deliver_all self) (drop (length (srv_trace (lp_srv l0))) (srv_trace (lp_srv l))) l.

(** A method of the server, and what it does to the connections. *)
Definition on_server {A} (m : (string → env) → SM A) : LM A := λ l,
  let '(sv, x) := m (loop_env l) (lp_srv l) in
  (deliver_since l None ;; lift x) (MkLoop sv (lp_dcs l) (lp_trace l)).
Definition on_own {A} (m : env → UM A) : LM A := on_server (λ E, on_user le_user (m (E le_user))).
Definition on_own_net {A} (p : nat) (m : env → M A) : LM A := on_server (λ E, on_net E le_user p m).

(** A command of connection [id], and what it does to the others. *)
Definition client {A} (id : Z) (m : ∀ (DE : denv) (R : renv), RM A) : LM A := λ l,
  let '(l', x) := focus id m l in (deliver_since l (Some id) ;; lift x) l'.

Definition own_state : LM userState :=
  l ← gets Datatypes.id;
  match srv_users (lp_srv l) !! le_user with
  | Some s => mret s
  | None => panic "invalid memory address or nil pointer dereference"
  end.

Definition forEachUpstream (f : env → M unit) : LM unit :=
  s ← own_state;
  foreach (λ p, s ← own_state; when (net_connected (net_at s p)) (on_own_net p f)) (us_networks s).

(** An error that is logged. *)
Definition logged_only {A} (m : LM A) : LM unit := try m ;; skip.

(** ** Loading *)

(** One network of the database; [false] when the goroutine gives up. *)
Definition load_network (record : dbNetwork) : UM bool :=
  match le_ListChannels (nID record) with
  | inr _ => mret true
  | inl channels =>
    p ← alloc (newConnection record channels);
    modify (λ s, set_us_networks (us_networks s ++ [p]) s) ;;
    match (if le_persistentStore then le_ListDeliveryReceipts (nID record) else inl []) with
    | inr _ => mret false
    | inl receipts =>
      modify (λ s, set_us_heap (alter (λ n, set_net_delivered (foldl (λ d r, delivered_StoreID d r.1.1 r.1.2 r.2)
        (net_delivered n) receipts) n) p (us_heap s)) s) ;;
      uemit (UStart p) ;;
      mret true
    end
  end.

Fixpoint load_networks (records : list dbNetwork) : UM bool :=
  match records with
  | [] => mret true
  | r :: records => ok ← load_network r; if (ok : bool) then load_networks records else mret false
  end.

Definition record_by_id (r r' : dbNetwork) : Prop := nID r ≤ nID r'.
#[global] Instance record_by_id_dec r r' : Decision (record_by_id r r') := Z.le_dec _ _.

(** The networks of the user before the first event. *)
Definition user_start : UM bool :=
  u ← gets us_record;
  match le_ListNetworks (uID u) with
  | inr _ => mret false
  | inl records => load_networks (merge_sort record_by_id records)
  end.

(** ** Receipts *)

Definition storeClientDeliveryReceipts (p : nat) (clientName : string) : LM unit :=
  s ← own_state;
  let n := net_at s p in
  let receipts := filter (λ r : string * string, r.2 ≠ "")
    ((λ e, (originalKey e, delivered_LoadID (net_delivered n) (originalKey e) clientName)) <$> CMM.Entries (net_delivered n)) in
  when le_persistentStore
    (modify (λ l, set_lp_trace (lp_trace l ++ [LStoreReceipts (nID (net_record n)) clientName receipts]) l)).

Definition bumpDownstreamInteractionTime : LM unit :=
  now ← gets (λ l, le_now (lp_srv l));
  logged_only (on_own (λ E, updateUser (E:=E) (λ u, inl (MkUser (uID u) (uUsername u) (uPassword u) (uNick u) (uRealname u)
    (uAdmin u) (uEnabled u) now (uMaxNetworks u))))).

(** ** Events of servers *)

Definition handle_upstream_connected (p : nat) (msgs : list (option Message)) : LM unit :=
  on_own_net p (λ E, runConn (E:=E) le_ParseMessage msgs ;; upstream_connected (E:=E)).

Definition handle_upstream_disconnected (p : nat) : LM unit :=
  s ← own_state;
  on_own_net p (λ E, handleUpstreamDisconnected (E:=E) (bool_decide (p ∈ us_networks s))).

(** A network is stopped when it is no longer one of the user's. *)
Definition handle_connection_error (p : nat) (err : string) : LM unit :=
  s ← own_state;
  let stopped := negb (bool_decide (p ∈ us_networks s)) in
  on_own_net p (λ E,
    n ← gets Datatypes.id;
    when (negb stopped && negb (bool_decide (net_lastError n = Some err))) (forEachDownstream (E:=E) (λ dc,
      send_dc dc (ServiceNOTICE ("failed connecting/registering to " +:+ GetName (net_record n) +:+ ": " +:+ err)))) ;;
    modify (set_net_lastError (Some err)) ;;
    emit (NotifyNetworkState [("error", err)])).

Definition handle_upstream_error (p : nat) (err : string) : LM unit :=
  on_own_net p (λ E,
    n ← gets Datatypes.id;
    forEachDownstream (E:=E) (λ dc, send_dc dc (ServiceNOTICE ("disconnected from " +:+ GetName (net_record n) +:+ ": " +:+ err))) ;;
    modify (set_net_lastError (Some err)) ;;
    emit (NotifyNetworkState [("error", err)])).

Definition handle_upstream_message (p : nat) (closed : bool) (m : Message) : LM unit :=
  if closed then skip else logged_only (on_own_net p (λ E, handleMessage (E:=E) m)).

Definition handle_channel_detach (p : nat) (name : string) : LM unit :=
  s ← own_state;
  match CMM.Get (net_channels (net_at s p)) name with
  | None => skip
  | Some c =>
    if cDetached c then skip
    else
      on_own_net p (λ E, net_detach (E:=E) c) ;;
      s ← own_state;
      match CMM.Get (net_channels (net_at s p)) name with
      | None => skip
      | Some c =>
        let netID := nID (net_record (net_at s p)) in
        r ← on_server (λ _, scall (SStoreChannel netID c) (λ tr, sv_StoreChannel tr netID c));
        match r with
        | inl id => when (cID c =? 0) (on_own_net p (λ _, put_net_channel (set_cID id c)))
        | inr _ => skip
        end
      end
  end.

(** ** Events of clients *)

(** A new connection joins the user. *)
Definition join_user_dc (id : Z) (p : option nat) : LM unit :=
  l ← gets Datatypes.id;
  let notify := match lp_dcs l !! id with
                | Some dc => IsEnabled (d_caps dc) "soju.im/bouncer-networks-notify"
                | None => false
                end in
  on_own (λ _, modify (λ s, set_us_downstreams (us_downstreams s ++ [MkDown id p notify false]) s)) ;;
  s ← own_state;
  (match p with
   | Some p =>
     match net_lastError (net_at s p) with
     | Some err => client id (λ DE R, on_dc (RE:=R) (sendServiceNOTICE (DE:=DE)
         ("disconnected from " +:+ GetName (net_record (net_at s p)) +:+ ": " +:+ err)))
     | None => skip
     end
   | None => skip
   end) ;;
  forEachUpstream (λ E, updateAway (E:=E)).

Definition error_message (text : string) : Message := msg "ERROR" [text].

(** The client names of the connections. *)
Definition client_names (l : loop) : gmap Z string := d_clientName <$> lp_dcs l.

Definition handle_downstream_connected (id : Z) (dc : dstate) : LM unit :=
  modify (λ l, set_lp_dcs (<[id := match d_network dc with
    | Some n => set_d_monitored (CMM.SetCaseMapping (d_monitored dc) (net_casemap n)) dc
    | None => dc
    end]> (lp_dcs l)) l) ;;
  s ← own_state;
  when (negb (uEnabled (us_record s)) && le_enableUsersOnAuth)
    (logged_only (on_own (λ E, updateUser (E:=E) (λ u, inl (MkUser (uID u) (uUsername u) (uPassword u) (uNick u)
       (uRealname u) (uAdmin u) true (uDownstreamInteractedAt u) (uMaxNetworks u)))))) ;;
  s ← own_state;
  if negb (uEnabled (us_record s)) then client id (λ DE R, reply (DE:=DE) (RE:=R) (error_message "This bouncer account is disabled"))
  else
    l ← gets Datatypes.id;
    r ← try (client id (λ DE R, welcome (DE:=DE) (RE:=R) le_MOTD (client_names l)));
    match r with
    | inr (ircError em) => client id (λ DE R, reply (DE:=DE) (RE:=R) (with_prefix (Some (de_srvPrefix (denv:=DE))) em))
    | inr _ => client id (λ DE R, reply (DE:=DE) (RE:=R) (error_message "Internal server error"))
    | inl p =>
      join_user_dc id p ;;
      when (negb (d_impersonating dc)) bumpDownstreamInteractionTime
    end.

Definition handle_downstream_disconnected (id : Z) : LM unit :=
  s ← own_state;
  l ← gets Datatypes.id;
  on_own (λ _, disconnect_dc id) ;;
  (match List.find (λ d, bool_decide (dn_id d = id)) (us_downstreams s) ≫= dn_network, lp_dcs l !! id with
   | Some p, Some dc => storeClientDeliveryReceipts p (d_clientName dc)
   | _, _ => skip
   end) ;;
  forEachUpstream (λ E, cancelPendingCommandsByDownstreamID id ;; updateAway (E:=E) ;; updateMonitor (E:=E)) ;;
  (match lp_dcs l !! id with
   | Some dc => when (negb (d_impersonating dc)) bumpDownstreamInteractionTime
   | None => skip
   end) ;;
  modify (λ l, set_lp_dcs (delete id (lp_dcs l)) l).

(** A connection that could not be welcomed stays open in the code, without a user; its messages
    are outside the model. *)
Definition handle_downstream_message (id : Z) (m : Message) : LM unit :=
  l ← gets Datatypes.id;
  when (bool_decide (id ∈ connection_ids (lp_srv l))) (client id (λ DE R, client_event (DE:=DE) (RE:=R) m)).

Definition handle_broadcast (m : Message) : LM unit :=
  s ← own_state;
  foreach (λ d, client (dn_id d) (λ DE R, reply (DE:=DE) (RE:=R) m)) (us_downstreams s).

(** ** Requests *)

Definition handle_user_update (hashed : option string) (flags : userUpdateFlags) : LM unit :=
  logged_only (on_own (λ E, apply_user_update hashed flags (E0:=E))).

(** A command an administrator runs as this user. *)
Definition handle_user_run (params : list string) : LM unit :=
  logged_only (on_server (λ E, handleServiceCommand E (S (length params))
    (MkContext "" None (Some le_user) None true [le_user]) params)).

(** [eventStop]: connections are closed, networks stopped, receipts stored. *)
Definition handle_stop : LM unit :=
  on_own (λ _, modify (λ s, set_us_downstreams (close_dn <$> us_downstreams s) s)) ;;
  s ← own_state;
  foreach (λ p,
    on_own (λ _, uemit (UStop p)) ;;
    s ← own_state;
    foreach (storeClientDeliveryReceipts p) (delivered_clients (net_delivered (net_at s p)))) (us_networks s).

(** ** The loop *)

Definition handle_event (e : event) : LM unit :=
  match e with
  | eventUpstreamConnected p msgs => handle_upstream_connected p msgs
  | eventUpstreamDisconnected p => handle_upstream_disconnected p
  | eventUpstreamConnectionError p err => handle_connection_error p err
  | eventUpstreamError p err => handle_upstream_error p err
  | eventUpstreamMessage p closed m => handle_upstream_message p closed m
  | eventChannelDetach p name => handle_channel_detach p name
  | eventDownstreamConnected id dc => handle_downstream_connected id dc
  | eventDownstreamDisconnected id => handle_downstream_disconnected id
  | eventDownstreamMessage id m => handle_downstream_message id m
  | eventBroadcast m => handle_broadcast m
  | eventUserUpdate hashed flags => handle_user_update hashed flags
  | eventTryRegainNick p n => on_own_net p (λ E, tryRegainNick (E:=E) n)
  | eventUserRun params => handle_user_run params
  | eventStop => handle_stop
  end.

(** The events one after the other, until [eventStop] or a panic; the flag tells whether the
    loop is still running. *)
Fixpoint user_run (es : list event) (l : loop) : loop * bool :=
  match es with
  | [] => (l, true)
  | e :: es =>
    match handle_event e l with
    | (l', Panic _) => (l', false)
    | (l', _) => match e with eventStop => (l', false) | _ => user_run es l' end
    end
  end.

(** The goroutine of the user: its networks are loaded, then the events handled. *)
Definition user_goroutine (es : list event) (l : loop) : loop * bool :=
  match on_own (λ _, user_start) l with
  | (l', Ok true) => user_run es l'
  | (l', _) => (l', false)
  end.
End loop.
