(* ===== verification/ClientSafety.v ===== *)
(** * What a client may do to the bouncer

    Every command of a registered client of a user who is not an administrator, BouncerServ
    included, changes only that user: the other users stay as they are and get nothing, and the
    user keeps its rights and the invariants of its networks and of their connections. *)

From S2P Require Import Prelude GoStrings GoUnicode GoStrconv IrcMessage GoFlag CaseMapping Membership Modes WhoX Base64.
From S2P Require Import Effects GenMsg Caps Database Highlight Upstream UpstreamHandlers UpstreamInv Downstream DownstreamHandlers.
From S2P Require Import MsgID UserNetworks UserNetworksInv ServiceWords Service ServiceSafety ServiceInv GoTime.
From S2P Require Import DownstreamSession DownstreamCommands DownstreamRequests DownstreamExtensions.

Open Scope string_scope.
Open Scope list_scope.
Open Scope Z_scope.

(** ** Methods of a network: the record *)

Section records.
Context `{E : env} `{UnicodeTables} (r : dbNetwork).

Abbreviation same := (preserves (λ n : ustate, net_record n = r)).

Ltac pres_more ::=
  match goal with
  | |- preserves _ (forEachDownstream _) => unfold forEachDownstream
  | |- preserves (λ n, net_record n = _) (modify _) => apply preserves_modify; intros ? ?; cbn; assumption
  end.
#[local] Hint Resolve rec_emit rec_send_dc rec_SendMessage rec_channel : pres.

Lemma rec_Labeled id l m : same (SendMessageLabeled id l m).
Proof. unfold SendMessageLabeled. pres. Qed.
#[local] Hint Resolve rec_Labeled : pres.
Lemma rec_set_pending cmd l : same (set_pending cmd l).
Proof. unfold set_pending. pres. Qed.
#[local] Hint Resolve rec_set_pending : pres.
Lemma rec_sendNext cmd : same (sendNextPendingCommand cmd).
Proof. unfold sendNextPendingCommand. pres. Qed.
#[local] Hint Resolve rec_sendNext : pres.
Lemma rec_enqueue dc l m : same (enqueueCommand dc l m).
Proof. unfold enqueueCommand. pres. Qed.
Lemma rec_appendLog entity m : same (appendLog entity m).
Proof. unfold appendLog. pres. Qed.
#[local] Hint Resolve rec_appendLog : pres.
Lemma rec_produce target m origin blocked : same (produce target m origin blocked).
Proof. unfold produce. pres. Qed.
Lemma rec_updateAway : same updateAway.
Proof. unfold updateAway. pres. Qed.
Lemma rec_forget n : same (forget_user n).
Proof. unfold forget_user. pres. Qed.
#[local] Hint Resolve rec_forget : pres.
Lemma rec_updateMonitor : same updateMonitor.
Proof. unfold updateMonitor. pres. Qed.
Lemma rec_forEach (f : downstreamView → option dc_call) :
  same (forEachDownstream (λ d, match f d with Some c => send_dc d c | None => skip end)).
Proof. pres. Qed.
End records.

Lemma uwf_updateAway `{E : env} : preserves uwf updateAway.
Proof.
  unfold updateAway. pres; try apply keep_SendMessage_uc.
  all: apply preserves_modify; intros; by eapply uwf_frame.
Qed.

(** ** Invariants of the session *)

(** What an invariant [inv] of the server, with [own] for the user [user], has to promise for
    the commands of the clients of [user] to keep it. *)
Class ClientInv `{UE : uenv} `{SV : svenv} `{UnicodeTables} (user : string)
    (inv : server → Prop) (own : userState → Prop) : Prop := {
  ci_healthy s : own s → healthy s;
  ci_at sv s : inv sv → srv_users sv !! user = Some s → own s;
  ci_same s s' : own s → user_ok s' → same_nets s s' → nets_wf s' → own s';
  ci_on_user {A} (m : UM A) : preserves own m → preserves inv (on_user user m);
  ci_scall {A} a (f : list saction → A) : harmless user a → preserves inv (scall a f);
  ci_network `{E : env} {A} p (m : env → M A) :
    (∀ E, keeps_identity (m E)) → (∀ E, preserves uwf (m E)) → preserves own (on_network p m);
  ci_create r : preserves own (createNetwork r true);
  ci_update `{E : env} r b : preserves own (updateNetwork r b);
  ci_delete id : preserves own (deleteNetwork id);
  ci_updateUser `{E : env} f : (∀ u u', f u = inl u' → privileges u' = privileges u) → preserves own (updateUser f);
  ci_service E ctx text sv s :
    inv sv → srv_users sv !! user = Some s → sc_user ctx = Some user → sc_admin ctx = uAdmin (us_record s) →
    inv (handleServicePRIVMSG E ctx text sv).1;
  (** an administrator may broadcast *)
  ci_broadcast sv s name m :
    inv sv → srv_users sv !! user = Some s → uAdmin (us_record s) = true → preserves inv (semit (SBroadcast name m))
}.

Section safety.
Context `{DE : denv} `{UE : uenv} `{SV : svenv} `{RE : renv} `{UnicodeTables} `{HBare : Bare msgIDHeader}.
Context (conf : server → Prop) (own : userState → Prop) `{CI : !ClientInv re_user conf own}.

Definition rconf (r : rstate) : Prop := conf (r_srv r).
Abbreviation ckeeps := (preserves rconf).

Lemma rc_on_dc_at {A} p (m : DM A) : ckeeps (on_dc_at p m).
Proof. intros r Hr. unfold on_dc_at. by destruct (m _). Qed.
Lemma rc_on_dc {A} (m : DM A) : ckeeps (on_dc m).
Proof. apply rc_on_dc_at. Qed.
#[local] Hint Resolve rc_on_dc rc_on_dc_at : pres.
Lemma rc_deliver_net p a : ckeeps (deliver_net p a).
Proof. unfold deliver_net. pres. Qed.
#[local] Hint Resolve rc_deliver_net : pres.
Lemma rc_deliver a : ckeeps (deliver a).
Proof. unfold deliver. pres. Qed.

Lemma rc_on_srv_at {A} (m : (string → env) → SM A) r :
  (∀ E, conf (m E (r_srv r)).1) → rconf (on_srv m r).1.
Proof.
  intros Hm. unfold on_srv. specialize (Hm (session_env (r_dc r))).
  destruct (m (session_env (r_dc r)) (r_srv r)) as [sv x]. cbn in Hm.
  assert (ckeeps (foreach deliver (drop (length (srv_trace (r_srv r))) (srv_trace sv)) ;; lift x)) as Hk
    by (apply preserves_bind; [apply preserves_foreach; intros a _; apply rc_deliver|intros; apply preserves_lift]).
  by apply Hk.
Qed.
Lemma rc_on_srv {A} (m : (string → env) → SM A) : (∀ E, preserves conf (m E)) → ckeeps (on_srv m).
Proof. intros Hm r Hr. apply rc_on_srv_at. intros E. by apply Hm. Qed.
Lemma rc_own_on_user {A} (m : env → UM A) : (∀ E, preserves own (m E)) → ckeeps (own_on_user m).
Proof. intros Hm. apply rc_on_srv. intros E. by apply ci_on_user. Qed.
Lemma rc_own_on_net_identity {A} p (m : env → M A) :
  (∀ E, keeps_identity (m E)) → (∀ E, preserves uwf (m E)) → ckeeps (own_on_net p m).
Proof. intros Hr Hw. apply rc_on_srv. intros E. apply ci_on_user. by apply ci_network. Qed.
Lemma record_identity {A} (m : M A) : (∀ r, preserves (λ n, net_record n = r) m) → keeps_identity m.
Proof. intros Hm n. cbv zeta. by rewrite (Hm (net_record n) n eq_refl). Qed.
Lemma rc_own_on_net {A} p (m : env → M A) :
  (∀ E r, preserves (λ n, net_record n = r) (m E)) → (∀ E, preserves uwf (m E)) → ckeeps (own_on_net p m).
Proof. intros Hr Hw. apply rc_own_on_net_identity; [|done]. intros E. apply record_identity, Hr. Qed.

(** What is known of the record of the user when it is read. *)
Lemma rc_bind_get_user {B} (k : dbUser → RM B) :
  (∀ sv s, conf sv → srv_users sv !! re_user = Some s → ckeeps (k (us_record s))) → ckeeps (get_user ≫= k).
Proof.
  intros Hk. unfold get_user. apply preserves_bind_assoc, preserves_bind_gets. intros r Hr. cbv beta.
  destruct (own_user (r_srv r)) as [s|] eqn:Hs; cbn; [|by intros ? ?].
  by apply preserves_bind_ret, (Hk (r_srv r)).
Qed.

(** ** Building blocks *)

Ltac pres_more ::=
  match goal with
  | |- preserves _ (get_user ≫= _) => apply rc_bind_get_user; intros ? ? ? ?
  | |- preserves _ (on_srv (λ _, scall _ _)) => apply rc_on_srv; intros ?; apply ci_scall; exact I
  | |- preserves _ (own_on_net _ _) => first [solve [eauto 2 with pres] | apply rc_own_on_net; intros]
  | |- preserves _ (own_on_user _) => first [solve [eauto 2 with pres] | apply rc_own_on_user; intros ?]
  | |- preserves _ (on_net _ _ _ _) => apply ci_on_user, ci_network; intros; [apply record_identity; intros|]
  | |- preserves _ (on_user _ _) => apply ci_on_user
  | |- preserves _ (scall _ _) => apply ci_scall; exact I
  | |- preserves _ (forEachDownstream _) => unfold forEachDownstream
  | |- preserves (λ n, net_record n = _) (modify _) => apply preserves_modify; intros ? ?; cbn; assumption
  end.
#[local] Hint Resolve rec_emit rec_send_dc rec_SendMessage rec_channel rec_Labeled rec_enqueue rec_produce rec_updateAway
  rec_updateMonitor rec_net_channel rec_attach rec_detach rec_autoDetach : pres.
#[local] Hint Resolve uwf_send uwf_SendMessage uwf_net_channel uwf_autoDetach uwf_detach uwf_attach uwf_updateAway : pres.

Lemma uwf_Labeled id l m : preserves uwf (SendMessageLabeled id l m).
Proof. apply keep_Labeled. Qed.
Lemma uwf_enqueue `{E : env} dc l m : preserves uwf (enqueueCommand dc l m).
Proof. apply keep_enqueue. Qed.
Lemma uwf_produce `{E : env} target m origin blocked : preserves uwf (produce target m origin blocked).
Proof. apply keep_produce. Qed.
Lemma uwf_updateMonitor `{E : env} : preserves uwf updateMonitor.
Proof. apply keep_updateMonitor. Qed.
Lemma uwf_del_push name : preserves uwf (modify (λ n, set_net_pushTargets (CMM.Del (net_pushTargets n) name) n)).
Proof. apply preserves_modify. intros s []. split; cbn; auto using map_ok_Del. Qed.
Lemma uwf_ack entity client id :
  preserves uwf (modify (λ n, set_net_delivered (delivered_StoreID (net_delivered n) entity client id) n)).
Proof. apply preserves_modify. intros s []. split; cbn; auto. by apply map_ok_Set. Qed.
#[local] Hint Resolve uwf_Labeled uwf_enqueue uwf_produce uwf_updateMonitor uwf_del_push uwf_ack : pres.
#[local] Hint Extern 3 (preserves uwf (modify _)) => apply preserves_modify; intros; by eapply uwf_frame : pres.

Lemma rc_reply m : ckeeps (reply m).
Proof. apply rc_on_dc. Qed.
#[local] Hint Resolve rc_reply : pres.
Lemma rc_replies ms : ckeeps (replies ms).
Proof. unfold replies. pres. Qed.
Lemma rc_reply_batch typ ps ms : ckeeps (reply_batch typ ps ms).
Proof. apply rc_on_dc. Qed.
Lemma rc_refuse {A} cmd ps : ckeeps (refuse (A:=A) cmd ps).
Proof. apply preserves_fail. Qed.
Lemma rc_call_db {A} a (f : list daction → A) : ckeeps (call_db a f).
Proof. apply rc_on_dc. Qed.
Lemma rc_get_dc : ckeeps get_dc.
Proof. apply preserves_gets. Qed.
Lemma rc_get_now : ckeeps get_now.
Proof. apply preserves_gets. Qed.
Lemma rc_get_network : ckeeps get_network.
Proof. apply preserves_gets. Qed.
#[local] Hint Resolve rc_replies rc_reply_batch rc_refuse rc_call_db rc_get_dc rc_get_now rc_get_network : pres.
Lemma rc_get_upstream : ckeeps get_upstream.
Proof. unfold get_upstream. pres. Qed.
Lemma rc_upstreamForCommand cmd : ckeeps (upstreamForCommand cmd).
Proof. unfold upstreamForCommand. pres. Qed.
Lemma rc_take_label : ckeeps take_label.
Proof. unfold take_label. pres. Qed.
#[local] Hint Resolve rc_get_upstream rc_upstreamForCommand rc_take_label : pres.
Lemma rc_drop_label : ckeeps drop_label.
Proof. unfold drop_label. pres. Qed.
Lemma rc_send_labeled p m : ckeeps (send_labeled p m).
Proof. unfold send_labeled. pres. Qed.
Lemma rc_enqueue p m : ckeeps (enqueue p m).
Proof. unfold enqueue. pres. Qed.
Lemma rc_handlePong token : ckeeps (handlePong token).
Proof. unfold handlePong, ackMsgID. pres. Qed.
#[local] Hint Resolve rc_drop_label rc_send_labeled rc_enqueue rc_handlePong : pres.
Lemma rc_split_names names : ckeeps (split_names names).
Proof. unfold split_names. pres. Qed.
Lemma rc_saved p name : ckeeps (saved_channel p name).
Proof. apply preserves_gets. Qed.
Lemma rc_net_now p : ckeeps (net_now p).
Proof. apply preserves_gets. Qed.
#[local] Hint Resolve rc_split_names rc_saved rc_net_now : pres.
Lemma own_uemit a : preserves own (uemit a).
Proof.
  apply preserves_modify. intros s Hs.
  destruct (ci_healthy s Hs) as [Ho Hw].
  eapply ci_same; [exact Hs|by apply user_ok_trace|done|done].
Qed.
#[local] Hint Resolve own_uemit : pres.
Lemma own_call {A} a (f : list uaction → A) : preserves own (ucall a f).
Proof. unfold ucall. pres. Qed.
#[local] Hint Resolve own_call : pres.
Lemma rc_store_channel p id ch : ckeeps (store_channel p id ch).
Proof. unfold store_channel. pres. Qed.
Lemma rc_store_network record : ckeeps (store_network record).
Proof. unfold store_network. pres. Qed.
#[local] Hint Resolve rc_store_channel rc_store_network : pres.

Lemma rc_for_unbound c : ckeeps (for_unbound c).
Proof. unfold for_unbound. pres. Qed.
Lemma rc_change_user f : (∀ u, privileges (f u) = privileges u) → ckeeps (change_user f).
Proof. intros Hf. unfold change_user. pres. apply ci_updateUser. intros u u' [= <-]. apply Hf. Qed.
Lemma rc_updateNetwork record b : ckeeps (own_on_user (λ E, updateNetwork (E:=E) record b)).
Proof. apply rc_own_on_user. intros E. apply ci_update. Qed.
#[local] Hint Resolve rc_for_unbound rc_updateNetwork : pres.
Lemma rc_put_nick p n : ckeeps (own_on_net p (λ _, modify (λ u, set_net_record (set_nNick n (net_record u)) u))).
Proof. apply rc_own_on_net_identity; [by intros ? ?|]. intros _. pres. Qed.
Lemma rc_autoSave p u pw : ckeeps (own_on_net p (λ _, autoSaveSASLPlain u pw)).
Proof.
  apply rc_own_on_net_identity; [|intros _; apply keep_autoSave]. intros _ n. cbv zeta.
  unfold autoSaveSASLPlain. rewrite bind_gets. by case_decide.
Qed.
#[local] Hint Resolve rc_put_nick rc_autoSave : pres.

(** ** Commands *)

Lemma rc_NICK m : ckeeps (handle_NICK_dc m).
Proof.
  assert (∀ net n, ckeeps (save_nick net n)) as Hsave
    by (intros net n; unfold save_nick; pres; apply rc_change_user; done).
  unfold handle_NICK_dc. pres.
Qed.
Lemma rc_SETNAME m : ckeeps (handle_SETNAME_dc m).
Proof.
  unfold handle_SETNAME_dc, setname_network. pres. by apply rc_change_user.
Qed.
Lemma rc_join_one p name key : ckeeps (join_one p name key).
Proof. unfold join_one. pres. Qed.
#[local] Hint Resolve rc_join_one : pres.
Lemma rc_JOIN m : ckeeps (handle_JOIN_dc m).
Proof.
  assert (∀ p names keys, ckeeps (join_all p names keys)) as Hall
    by (intros p names; induction names as [|n names IH]; intros keys; cbn [join_all]; pres).
  unfold handle_JOIN_dc. pres.
Qed.
Lemma rc_part_one p reason name : ckeeps (part_one p reason name).
Proof.
  unfold part_one. pres. apply rc_on_srv. intros E. unfold deleteChannel. pres; auto using rec_stop, uwf_stop, uwf_del_channel.
Qed.
#[local] Hint Resolve rc_part_one : pres.
Lemma rc_PART m : ckeeps (handle_PART_dc m).
Proof. unfold handle_PART_dc. pres. Qed.
Lemma rc_pass_through m : ckeeps (pass_through m).
Proof. unfold pass_through. pres. Qed.
#[local] Hint Resolve rc_pass_through : pres.
Lemma rc_MODE m : ckeeps (handle_MODE_dc m).
Proof. unfold handle_MODE_dc, mode_own. pres. Qed.
Lemma rc_TOPIC m : ckeeps (handle_TOPIC_dc m).
Proof. unfold handle_TOPIC_dc. pres. Qed.
Lemma rc_LIST m : ckeeps (handle_LIST_dc m).
Proof. unfold handle_LIST_dc. pres. Qed.
Lemma rc_NAMES m : ckeeps (handle_NAMES_dc m).
Proof. unfold handle_NAMES_dc. pres. Qed.
Lemma rc_WHO m : ckeeps (handle_WHO_dc m).
Proof. unfold handle_WHO_dc, end_of_who, who_self, who_service. pres. Qed.
Lemma rc_WHOIS m : ckeeps (handle_WHOIS_dc m).
Proof. unfold handle_WHOIS_dc, whois_self, whois_service. pres. Qed.

(** BouncerServ runs with the rights of the user. *)
Lemma rc_run_service text : ckeeps (run_service text).
Proof.
  intros r Hr. unfold run_service, get_dc. rewrite bind_gets. unfold get_user. rewrite bind_assoc, bind_gets.
  destruct (own_user (r_srv r)) as [s|] eqn:Hs; cbn [fmap option_fmap option_map]; [|done].
  rewrite bind_ret, bind_gets. apply preserves_bind_at; [|intros o; pres]. unfold try.
  match goal with |- context [on_srv ?m r] => pose proof (rc_on_srv_at m r) as Hm; destruct (on_srv m r) as [r' [a|e|w]]; cbn in * end.
  all: apply Hm; intros E; by eapply ci_service.
Qed.
#[local] Hint Resolve rc_run_service : pres.

Lemma rc_message_upstream m tags name text : ckeeps (message_upstream m tags name text).
Proof. unfold message_upstream. pres. Qed.
#[local] Hint Resolve rc_message_upstream : pres.

Lemma rc_message_one m text tags name : ckeeps (message_one m text tags name).
Proof.
  unfold message_one. apply preserves_bind; [pres|]. intros dc. apply rc_bind_get_user. intros sv s Hsv Hs.
  apply preserves_bind; [pres|]. intros net. case_decide; [|pres].
  destruct (uAdmin (us_record s)) eqn:Ha; cbn [negb]; [|pres].
  pres. unfold broadcast_all. apply rc_on_srv. intros E. pres. apply (ci_broadcast sv s _ _ Hsv Hs Ha).
Qed.
Lemma rc_message m : ckeeps (handle_message_dc m).
Proof.
  assert (∀ names text tags, ckeeps (message_all m text tags names)) as Hall.
  { intros names. induction names as [|n names IH]; intros text tags; cbn [message_all]; [pres|].
    apply preserves_bind; [apply rc_message_one|intros; apply IH]. }
  unfold handle_message_dc. pres.
Qed.
Lemma rc_AUTHENTICATE m : ckeeps (handle_AUTHENTICATE_dc m).
Proof. unfold handle_AUTHENTICATE_dc, sasl_failed, sasl_end. pres. Qed.
Lemma rc_account m : ckeeps (handle_account_dc m).
Proof. unfold handle_account_dc. pres. Qed.
Lemma rc_AWAY m : ckeeps (handle_AWAY_dc m).
Proof. unfold handle_AWAY_dc. pres. Qed.
Lemma rc_INFO m : ckeeps (handle_INFO_dc m).
Proof. unfold handle_INFO_dc. pres. Qed.
Lemma rc_MONITOR m : ckeeps (handle_MONITOR_dc m).
Proof. unfold handle_MONITOR_dc, monitor_one, update_monitor. pres. Qed.
Lemma rc_set_metadata target ref mt k v : ckeeps (set_metadata target ref mt k v).
Proof. unfold set_metadata. pres. Qed.
#[local] Hint Resolve rc_set_metadata : pres.
Lemma rc_set_metadata_all target ref mt l : ckeeps (set_metadata_all target ref mt l).
Proof. revert mt. induction l as [|[k v] l IH]; intros mt; cbn [set_metadata_all]; pres. Qed.
#[local] Hint Resolve rc_set_metadata_all : pres.
Lemma rc_METADATA m : ckeeps (handle_METADATA_dc m).
Proof. unfold handle_METADATA_dc, metadata_target, metadata_store, within_batch. pres. Qed.
Lemma rc_load c : ckeeps (load c).
Proof. apply rc_on_dc. Qed.
#[local] Hint Resolve rc_load : pres.
Lemma rc_CHATHISTORY m : ckeeps (handle_CHATHISTORY_dc m).
Proof.
  unfold handle_CHATHISTORY_dc, history_params, history_body, history_targets, load_history, load_around, history_fail. pres.
Qed.
Lemma rc_MARKREAD m : ckeeps (handle_MARKREAD_dc m).
Proof. unfold handle_MARKREAD_dc, move_marker, push_marker. pres. Qed.
Lemma rc_SEARCH m : ckeeps (handle_SEARCH_dc m).
Proof. unfold handle_SEARCH_dc. pres. Qed.
Lemma rc_CLIENTCERT m : ckeeps (handle_CLIENTCERT_dc m).
Proof. unfold handle_CLIENTCERT_dc, cert_list, cert_create, cert_delete, cert_fingerprint, cert_fail. pres. Qed.
Lemma rc_BOUNCER m : ckeeps (handle_BOUNCER_dc m).
Proof.
  unfold handle_BOUNCER_dc, bouncer_list, bouncer_add, bouncer_change, bouncer_delete, bouncer_network_of, bouncer_fail. pres.
  all: first [apply ci_create | apply ci_delete].
Qed.
Lemma rc_WEBPUSH m : ckeeps (handle_WEBPUSH_dc m).
Proof.
  unfold handle_WEBPUSH_dc, push_register, push_unregister, push_update, push_list, push_owner, push_fail. pres.
Qed.
Lemma rc_CAP m : ckeeps (handle_CAP_registered m).
Proof.
  unfold handle_CAP_registered. pres. apply preserves_modify. intros s Hs.
  destruct (ci_healthy s Hs) as [[Hn Hb] Hw]. eapply ci_same; [exact Hs| |done|done]. split; [done|]. cbn. intros d p (d0 & -> & Hd0)%list_elem_of_fmap. case_decide; by apply (Hb d0).
Qed.
Lemma rc_other m : ckeeps (handle_other_dc m).
Proof. unfold handle_other_dc. pres. Qed.
Lemma rc_PING m : ckeeps (handle_PING_dc m).
Proof. unfold handle_PING_dc. pres. Qed.
Lemma rc_PONG m : ckeeps (handle_PONG_dc m).
Proof. unfold handle_PONG_dc. pres. Qed.

Lemma rc_table : Forall (λ e : list string * (Message → RM unit), ∀ m, ckeeps (e.2 m)) registered_table.
Proof.
  repeat (constructor; [intros m; cbn [snd];
    first [apply rc_CAP|apply rc_PING|apply rc_PONG|apply rc_NICK|apply rc_SETNAME|apply rc_JOIN|apply rc_PART
      |apply rc_pass_through|apply rc_MODE|apply rc_TOPIC|apply rc_LIST|apply rc_NAMES|apply rc_WHO|apply rc_WHOIS
      |apply rc_message|apply rc_AUTHENTICATE|apply rc_account|apply rc_AWAY|apply rc_INFO|apply rc_MONITOR|apply rc_METADATA
      |apply rc_CHATHISTORY|apply rc_MARKREAD|apply rc_SEARCH|apply rc_CLIENTCERT|apply rc_BOUNCER|apply rc_WEBPUSH|pres]|]).
  constructor.
Qed.

Lemma rc_handleMessage m : ckeeps (handleMessage_registered m).
Proof.
  assert (ckeeps (handleMessageRegistered m)) as Hh.
  { unfold handleMessageRegistered. destruct (List.find _ registered_table) as [[cmds h]|] eqn:Hf; [|apply rc_other].
    apply find_some in Hf as [Hin _]. pose proof rc_table as Ht. rewrite Forall_forall in Ht.
    apply (Ht (cmds, h)). by apply list_elem_of_In. }
  unfold handleMessage_registered, dispatch_registered. pres.
Qed.

Lemma rc_client_event m : ckeeps (client_event m).
Proof.
  pose proof rc_handleMessage. unfold client_event, close_own. pres. apply preserves_modify. intros s Hs.
  destruct (ci_healthy s Hs) as [[Hn Hb] Hw]. eapply ci_same; [exact Hs| |done|done]. split; [done|]. cbn.
  intros d p (d0 & -> & Hd0)%list_elem_of_fmap. case_decide; [done|by apply (Hb d0)].
Qed.

Lemma rc_client_run ms r : rconf r → rconf (client_run ms r).
Proof.
  revert r. induction ms as [|m ms IH]; intros r Hr; [done|]. cbn [client_run]. pose proof (rc_client_event m r Hr) as Hm.
  by destruct (client_event m r) as [r' [[]|e|w]]; [apply IH|apply IH|].
Qed.
End safety.

(** Confinement is such an invariant for a user without rights. *)
#[export] Instance confined_client `{UE : uenv} `{SV : svenv} `{UnicodeTables} user pr others debug tr0 :
  (∀ tr ids uid r id, nID r = 0 → ue_StoreNetwork tr ids uid r = inl id → id ≠ 0 ∧ id ∉ ids) →
  (∀ u, privileges u = pr → uAdmin u = false) →
  ClientInv user (confined false user pr others debug tr0) (own_ok false pr).
Proof.
  intros Hfresh Hno. assert (∀ s, own_ok false pr s → uAdmin (us_record s) = false) as Hna by (intros s Hs; apply Hno, Hs).
  assert (∀ sv s, confined false user pr others debug tr0 sv → srv_users sv !! user = Some s → own_ok false pr s) as Hat
    by (intros sv s Hc; apply Hc). split.
  - intros s [[? _] [_ ?]]. by split.
  - exact Hat.
  - apply own_same.
  - intros A m. apply conf_on_user.
  - intros A a f. apply conf_scall.
  - intros E A p m. apply own_on_network_identity.
  - intros r. apply (own_create Hfresh).
  - intros E r b s Hs. by apply (own_update_network Hfresh false pr 0%nat).
  - intros id. apply (own_delete Hfresh).
  - intros E f. apply (own_updateUser Hfresh).
  - intros E ctx text sv s Hc Hs Hu Ha. rewrite (Hna s) in Ha by eauto.
    apply (conf_text E Hfresh false user pr others debug tr0); [done|done|done|]. by exists s.
  - intros sv s name m Hc Hs Ha. rewrite (Hna s) in Ha by eauto. done.
Qed.

(** The health of all the users is one for every user. *)
#[export] Instance healthy_client `{UE : uenv} `{SV : svenv} `{UnicodeTables} user :
  (∀ tr ids uid r id, nID r = 0 → ue_StoreNetwork tr ids uid r = inl id → id ≠ 0 ∧ id ∉ ids) →
  ClientInv user all_healthy healthy.
Proof.
  intros Hfresh. split.
  - done.
  - intros sv s Hsv. apply Hsv.
  - intros s s' _ Ho _ Hw. by split.
  - intros A m. apply ah_on_user.
  - intros A a f _. unfold scall. pose proof ah_semit. pres.
  - intros E A p m Hi Hw. apply healthy_of. intros pr. by apply own_on_network_identity.
  - intros r. apply (h_create Hfresh).
  - intros E r b. apply (h_update Hfresh).
  - intros id. apply (h_delete Hfresh).
  - intros E f _. apply (h_updateUser Hfresh).
  - intros E ctx text sv s Hsv _ _ _. by apply (ah_text E Hfresh).
  - intros sv s name m _ _ _. apply ah_semit.
Qed.

(** C14: Whatever the client of a user who is not an administrator sends after registration, in
    any number of messages and also through BouncerServ, the other users of the bouncer stay as
    they are and nothing is done to or sent to them; the user keeps its name, rights and quota,
    its list of networks keeps its invariant, and every connection of its networks keeps the
    invariant of the server connections, so that what the client says is logged only where it
    may be. *)
Theorem client_confined `{DE : denv} `{UE : uenv} `{SV : svenv} `{RE : renv} `{UnicodeTables} `{HBare : Bare msgIDHeader}
    (ms : list Message) (sv : server) (dc : dstate) (s : userState) :
  (∀ tr ids uid r id, nID r = 0 → ue_StoreNetwork tr ids uid r = inl id → id ≠ 0 ∧ id ∉ ids) →
  srv_users sv !! re_user = Some s → uAdmin (us_record s) = false → user_ok s → nets_wf s →
  let sv' := r_srv (client_run ms (MkR sv dc)) in
  (∀ other, other ≠ re_user → srv_users sv' !! other = srv_users sv !! other) ∧
  srv_debug sv' = srv_debug sv ∧
  (∃ tr, srv_trace sv' = srv_trace sv ++ tr ∧ Forall (harmless re_user) tr) ∧
  ∀ s', srv_users sv' !! re_user = Some s' →
    user_ok s' ∧ nets_wf s' ∧ privileges (us_record s') = privileges (us_record s).
Proof.
  intros Hfresh Hs Ha Hok Hw.
  assert (∀ u, privileges u = privileges (us_record s) → uAdmin u = false) as Hno by (intros u Hu; injection Hu; congruence).
  pose proof (confined_client re_user _ (delete re_user (srv_users sv)) (srv_debug sv) (srv_trace sv) Hfresh Hno).
  destruct (rc_client_run _ _ ms (MkR sv dc)) as (Hd & Hdbg & Hown & Htr).
  - split_and!; [done|done| |exists []; by rewrite app_nil_r]. intros s' Hs'. cbn in Hs'. rewrite Hs in Hs'. by injection Hs' as <-.
  - cbn zeta. split_and!; [|done|done|].
    + intros other Hne. rewrite <-(lookup_delete_ne _ re_user other) by done. rewrite Hd. by rewrite lookup_delete_ne.
    + intros s' Hs'. by destruct (Hown s' Hs') as [[? _] [? ?]].
Qed.
