(* ===== verification/UserLoopInv.v ===== *)
(** * The invariant of a user's event loop

    Servers, clients, timers and administrators may do what they want in any order: all the
    users of the bouncer stay healthy, that is, their lists of networks and the connections of
    their networks keep their invariants. *)

From S2P Require Import Prelude GoStrings GoUnicode GoStrconv IrcMessage GoFlag CaseMapping Membership Modes WhoX Base64.
From S2P Require Import Effects GenMsg Caps Database Highlight Upstream UpstreamHandlers UpstreamInv UpstreamIdent Downstream DownstreamHandlers.
From S2P Require Import MsgID UserNetworks UserNetworksInv ServiceWords Service ServiceSafety ServiceInv GoTime.
From S2P Require Import DownstreamSession DownstreamCommands DownstreamRequests DownstreamExtensions DownstreamWelcome ClientSafety NetworkRun UserLoop.

Open Scope string_scope.
Open Scope list_scope.
Open Scope Z_scope.

(** ** Methods of a network *)

Section networks.
Context `{E : env} `{UnicodeTables} (ParseMessage : string → option Message).

Ltac uwf_modify := apply preserves_modify; intros ? ?; by eapply uwf_frame.
Ltac pres_more ::=
  match goal with
  | |- preserves _ (forEachDownstream _) => unfold forEachDownstream
  | |- preserves (λ n, net_identity n = _) (modify _) => apply preserves_modify; intros ? ?; cbn; assumption
  | |- preserves uwf (modify _) => uwf_modify
  end.
#[local] Hint Resolve uwf_send uwf_SendMessage uwf_updateAway uwf_updateMonitor : pres.
#[local] Hint Resolve same_send_dc same_SendMessage same_emit same_register same_runUntilRegistered : pres.

Lemma uwf_handleMessage m : preserves uwf (handleMessage m).
Proof. apply any_handleMessage. Qed.
Lemma uwf_connected : preserves uwf upstream_connected.
Proof. unfold upstream_connected. pres. by apply uwf_emit. Qed.
Lemma uwf_cancel id : preserves uwf (cancelPendingCommandsByDownstreamID id).
Proof. unfold cancelPendingCommandsByDownstreamID. pres. Qed.
Lemma uwf_regain n : preserves uwf (tryRegainNick n).
Proof. unfold tryRegainNick, stopRegainNickTimer. pres. Qed.
Lemma uwf_register : preserves uwf register_uc.
Proof. unfold register_uc. pres. Qed.
Lemma uwf_runUntilRegistered msgs : preserves uwf (runUntilRegistered msgs).
Proof.
  assert (∀ m, preserves uwf (wrap_registration (handleMessage m))) as Hwrap.
  { intros m s Hs. unfold wrap_registration. pose proof (uwf_handleMessage m s Hs) as Hm.
    by destruct (handleMessage m s) as [s' [?|[]|?]]. }
  induction msgs as [|m msgs IH]; cbn [runUntilRegistered]; pres.
Qed.
#[local] Hint Resolve uwf_register uwf_runUntilRegistered : pres.

(** A new connection is well formed, and it is the connection of the same network. *)
Lemma uwf_connect n : uwf n → uwf (connectToUpstream n).
Proof.
  intros [? ? ? ? ? ? ? ? ?]. destruct (newConnection_uwf (net_record n) []) as [? ? ? ? ? ? ? ? ?]. by split.
Qed.
Lemma uwf_runConn msgs : preserves uwf (runConn ParseMessage msgs).
Proof.
  unfold runConn. apply preserves_bind; [apply preserves_modify, uwf_connect|]. intros _. pres.
Qed.
Lemma same_runConn i msgs : preserves (λ n, net_identity n = i) (runConn ParseMessage msgs).
Proof. unfold runConn. pres. Qed.
End networks.

(** ** The connections *)

Section loop.
Context `{UE : uenv} `{SV : svenv} `{RE : renv} `{LE : lenv} `{UnicodeTables} `{HBare : Bare msgIDHeader}.
Context (store_fresh : ∀ tr ids uid r id, nID r = 0 → ue_StoreNetwork tr ids uid r = inl id → id ≠ 0 ∧ id ∉ ids).

(** A property of the server as one of the loop. *)
Definition of_srv (P : server → Prop) (l : loop) : Prop := P (lp_srv l).

Lemma focus_triple {A} id (m : ∀ (DE : denv) (R : renv), RM A) P (Q : A → server → Prop) F :
  (∀ sv, P sv → F sv) →
  (∀ DE R, re_user (renv := R) = le_user → triple (rconf P) (m DE R) (λ a, rconf (Q a)) (rconf F)) →
  triple (of_srv P) (focus id m) (λ a, of_srv (Q a)) (of_srv F).
Proof.
  intros HF Hm l Hl. unfold focus. destruct (lp_dcs l !! id) as [dc|]; [|by apply HF].
  specialize (Hm (le_conn id) (self_renv id (views_of (lp_dcs l))) eq_refl (MkR (lp_srv l) dc) Hl).
  by destruct (m _ _ _) as [r [a|e|w]].
Qed.
Lemma deliver_all_keeps P self a : preserves (of_srv P) (deliver_all self a).
Proof.
  unfold deliver_all. assert (∀ i, preserves (of_srv P) (focus i (λ DE R, deliver (DE:=DE) (RE:=R) a))) as Hd.
  { intros i. apply preserves_triple, focus_triple; [done|]. intros DE R _. apply triple_preserves, rc_deliver. }
  pres.
Qed.
Lemma deliver_since_keeps P l0 self : preserves (of_srv P) (deliver_since l0 self).
Proof.
  intros l Hl. unfold deliver_since. eapply preserves_foreach; [|exact Hl]. intros a _. apply deliver_all_keeps.
Qed.

(** The delivery of what was done leaves the server as it is. *)
Lemma delivered_triple {A} l0 self (x : res goerr A) (Q : A → server → Prop) (F : server → Prop) l :
  match x with Ok a => Q a (lp_srv l) | _ => F (lp_srv l) end → (∀ a sv, Q a sv → F sv) →
  match (deliver_since l0 self ;; lift x) l with
  | (l', Ok a) => of_srv (Q a) l'
  | (l', _) => of_srv F l'
  end.
Proof.
  intros Hx HQ. assert (∀ P : server → Prop, P (lp_srv l) → P (lp_srv (deliver_since l0 self l).1)) as Hd
    by (intros P Hl; by apply (deliver_since_keeps P)).
  unfold mbind, M_bind, lift. destruct (deliver_since l0 self l) as [l1 [[]|e|w]]; cbn in Hd.
  all: destruct x as [a|e'|w']; unfold of_srv; first [exact (Hd F Hx)|exact (Hd (Q _) Hx)|exact (HQ _ _ (Hd (Q _) Hx))].
Qed.

Lemma on_server_triple {A} (m : (string → env) → SM A) P (Q : A → server → Prop) F :
  (∀ a sv, Q a sv → F sv) → (∀ E, triple P (m E) Q F) →
  triple (of_srv P) (on_server m) (λ a, of_srv (Q a)) (of_srv F).
Proof.
  intros HQ Hm l Hl. unfold on_server. specialize (Hm (loop_env l) (lp_srv l) Hl).
  destruct (m (loop_env l) (lp_srv l)) as [sv x]. apply delivered_triple; [by destruct x|done].
Qed.
Lemma on_server_keeps {A} (m : (string → env) → SM A) P :
  (∀ E, preserves P (m E)) → preserves (of_srv P) (on_server m).
Proof. intros Hm. apply preserves_triple, on_server_triple; [done|]. intros E. apply triple_preserves, Hm. Qed.

Lemma client_triple {A} id (m : ∀ (DE : denv) (R : renv), RM A) P (Q : A → server → Prop) F :
  (∀ sv, P sv → F sv) → (∀ a sv, Q a sv → F sv) →
  (∀ DE R, re_user (renv := R) = le_user → triple (rconf P) (m DE R) (λ a, rconf (Q a)) (rconf F)) →
  triple (of_srv P) (client id m) (λ a, of_srv (Q a)) (of_srv F).
Proof.
  intros HF HQ Hm l Hl. unfold client. pose proof (focus_triple id m P Q F HF Hm l Hl) as Hf.
  destruct (focus id m l) as [l' x]. apply delivered_triple; [by destruct x|done].
Qed.
Lemma client_keeps {A} id (m : ∀ (DE : denv) (R : renv), RM A) P :
  (∀ DE R, preserves (rconf P) (m DE R)) → preserves (of_srv P) (client id m).
Proof. intros Hm. apply preserves_triple, client_triple; [done|done|]. intros DE R _. apply triple_preserves, Hm. Qed.

(** ** The welcome *)

Abbreviation lkeeps := (preserves (of_srv all_healthy)).

(** Every user is healthy, and the network at [p] is one of the user's. *)
Definition with_net (p : option nat) (sv : server) : Prop :=
  all_healthy sv ∧ ∀ s q, srv_users sv !! le_user = Some s → p = Some q → q ∈ us_networks s.

Lemma with_net_on_user {A} p (m : UM A) :
  preserves healthy m → (∀ s, us_networks (m s).1 = us_networks s) → preserves (with_net p) (on_user le_user m).
Proof.
  intros Hm Hn sv [Hh Hp]. split; [by apply ah_on_user|]. unfold on_user.
  destruct (srv_users sv !! le_user) as [s|] eqn:Hs; [|cbn; by rewrite Hs]. specialize (Hn s). destruct (m s) as [s' r]. cbn in *.
  intros s'' q. rewrite lookup_insert_eq. intros [= <-] Hq. rewrite Hn. eauto.
Qed.

Section welcome.
Context `{DE : denv} `{R : renv} (Huser : re_user (renv := R) = le_user).

Lemma loadNetwork_triple nick reg :
  triple all_healthy (on_user le_user (loadNetwork nick reg)) (λ p, with_net p) all_healthy.
Proof.
  intros sv Hsv. pose proof (ah_on_user le_user (loadNetwork nick reg)) as Hk.
  assert (triple healthy (loadNetwork nick reg) (λ o s, healthy s ∧ ∀ p, o = Some p → p ∈ us_networks s) healthy) as Ht.
  { apply (loadNetwork_spec store_fresh healthy); [by intros s [? _]|..].
    - intros tr s [? ?]. split; [by apply user_ok_trace|done].
    - intros r. apply (h_create store_fresh). }
  assert (preserves healthy (loadNetwork nick reg)) as Hp.
  { apply preserves_triple. eapply triple_conseq; [exact Ht|done| |done]. by intros a s [? _]. }
  specialize (Hk Hp sv Hsv). revert Hk. unfold on_user.
  destruct (srv_users sv !! le_user) as [s|] eqn:Hs; [|done]. specialize (Ht s (Hsv le_user s Hs)).
  destruct (loadNetwork nick reg s) as [s' [p|e|w]]; [|done..]. intros Hk. split; [done|]. cbn. intros s'' q.
  rewrite lookup_insert_eq. intros [= <-] Hq. by apply Ht.
Qed.

Lemma on_srv_triple {A} (m : (string → env) → SM A) P (Q : A → server → Prop) F :
  (∀ a sv, Q a sv → F sv) → (∀ E, triple P (m E) Q F) →
  triple (rconf P) (on_srv m) (λ a, rconf (Q a)) (rconf F).
Proof.
  intros HQ Hm r Hr. unfold on_srv. specialize (Hm (session_env (r_dc r)) (r_srv r) Hr).
  destruct (m (session_env (r_dc r)) (r_srv r)) as [sv x]. set (tr := drop _ _). set (r0 := MkR sv (r_dc r)).
  assert (∀ P : server → Prop, P sv → P (r_srv (foreach deliver tr r0).1)) as Hd.
  { intros P0 HP. assert (preserves (rconf P0) (foreach deliver tr)) as Hk
      by (apply preserves_foreach; intros a _; apply rc_deliver). by apply Hk. }
  unfold mbind, M_bind, lift. destruct (foreach deliver tr r0) as [r1 [[]|e|w]]; cbn in Hd.
  all: destruct x as [a|e'|w']; unfold rconf; first [exact (Hd F Hm)|exact (Hd (Q _) Hm)|exact (HQ _ _ (Hd (Q _) Hm))].
Qed.

(** The rest of the welcome changes at most the receipts of the network. *)
Lemma with_net_history p clients q : preserves (rconf (with_net p)) (welcome_history clients q).
Proof.
  assert (∀ target, preserves (rconf (with_net p)) (welcome_backlog q target)) as Hb.
  { intros target. unfold welcome_backlog.
    assert (∀ A f (m : DM A), preserves (rconf (with_net p)) (on_dc_at f m)) as Hdc by (intros; apply rc_on_dc_at).
    pres. unfold own_on_net, on_net. rewrite Huser. apply preserves_triple, on_srv_triple; [done|]. intros E.
    apply triple_preserves, with_net_on_user.
    - apply h_on_network; intros; [apply preserves_modify; intros ? ?; cbn; assumption|apply uwf_ack].
    - intros us. unfold on_network. by destruct (us_heap us !! q). }
  unfold welcome_history. pres.
Qed.

Lemma welcome_triple motd clients :
  triple (rconf all_healthy) (welcome motd clients) (λ p, rconf (with_net p)) (rconf all_healthy).
Proof.
  assert (∀ P A f (m : DM A), preserves (rconf P) (on_dc_at f m)) as Hdc by (intros; apply rc_on_dc_at).
  unfold welcome. eapply triple_bind; [apply triple_preserves, preserves_gets|]. intros dc.
  destruct (negb _); [by apply triple_panic|]. destruct (bool_decide _); [by apply triple_panic|].
  eapply triple_bind; [apply (triple_preserves (rconf _)), Hdc|]. intros []. eapply triple_bind.
  { unfold own_on_user. rewrite Huser. apply on_srv_triple; [|intros E; apply loadNetwork_triple]. by intros p sv [? _]. }
  intros p. set (J := rconf (with_net p)).
  match goal with |- triple _ ?rest _ _ => assert (triple J rest (λ p', rconf (with_net p')) J) as Hrest end.
  { eapply triple_bind; [apply (triple_preserves (rconf _)), Hdc|]. intros [].
    eapply triple_bind; [apply triple_preserves, preserves_gets|]. intros sv.
    destruct (own_user sv) as [s|]; [|by apply triple_panic]. cbv zeta.
    eapply triple_bind; [apply (triple_preserves (rconf _)), Hdc|]. intros [].
    eapply triple_bind; [apply triple_preserves; pres|]. intros [].
    eapply triple_bind; [apply triple_preserves; destruct p; [apply with_net_history|apply preserves_skip]|]. intros [].
    by apply triple_ret. }
  eapply triple_conseq; [exact Hrest|done|done|]. by intros r [? _].
Qed.
End welcome.

(** ** The handlers *)

Lemma lo_own {A} (m : env → UM A) : (∀ E, preserves healthy (m E)) → lkeeps (on_own m).
Proof. intros Hm. apply on_server_keeps. intros E. by apply ah_on_user. Qed.
Lemma lo_own_net {A} p (m : env → M A) :
  (∀ E i, preserves (λ n, net_identity n = i) (m E)) → (∀ E, preserves uwf (m E)) → lkeeps (on_own_net p m).
Proof. intros Hi Hw. apply on_server_keeps. intros E. by apply ah_on_net. Qed.
Lemma lo_modify (f : loop → loop) : (∀ l, lp_srv (f l) = lp_srv l) → lkeeps (modify f).
Proof. intros Hf. apply preserves_modify. intros l Hl. unfold of_srv. by rewrite Hf. Qed.
Lemma lo_reply id m : lkeeps (client id (λ DE R, reply (DE:=DE) (RE:=R) m)).
Proof. apply client_keeps. intros DE R. apply rc_reply. Qed.
Lemma lo_own_state : lkeeps own_state.
Proof. unfold own_state. pres. Qed.

Ltac pres_more ::=
  match goal with
  | |- preserves _ (forEachDownstream _) => unfold forEachDownstream
  | |- preserves (λ n, net_identity n = _) (modify _) => apply preserves_modify; intros ? ?; cbn; assumption
  | |- preserves uwf (modify _) => apply preserves_modify; intros ? ?; by eapply uwf_frame
  | |- preserves _ (on_own_net _ _) => apply lo_own_net; intros
  | |- preserves _ (on_own _) => apply lo_own; intros
  | |- preserves (of_srv _) (modify _) => apply lo_modify; done
  | |- preserves _ (logged_only _) => unfold logged_only
  | |- preserves _ (client _ (λ _ _, reply _)) => apply lo_reply
  end.
#[local] Hint Resolve uwf_send uwf_SendMessage uwf_updateAway uwf_updateMonitor uwf_detach uwf_net_channel uwf_disconnected
  uwf_connected uwf_handleMessage uwf_cancel uwf_regain uwf_runConn : pres.
#[local] Hint Resolve same_send_dc same_SendMessage same_emit same_updateAway same_updateMonitor same_detach same_put_net_channel
  same_disconnected same_connected same_handleMessage same_cancel same_tryRegainNick same_runConn : pres.
#[local] Hint Extern 2 (preserves uwf (emit _)) => apply uwf_emit; done : pres.
#[local] Hint Resolve lo_own_state h_updateUser h_apply_user_update h_ucall h_close_all : pres.

Lemma lo_forEachUpstream (f : env → M unit) :
  (∀ E i, preserves (λ n, net_identity n = i) (f E)) → (∀ E, preserves uwf (f E)) → lkeeps (forEachUpstream f).
Proof. intros Hi Hw. unfold forEachUpstream. pres; auto. Qed.
Lemma lo_receipts p c : lkeeps (storeClientDeliveryReceipts p c).
Proof. unfold storeClientDeliveryReceipts. pres. Qed.
Lemma lo_bump : lkeeps bumpDownstreamInteractionTime.
Proof. unfold bumpDownstreamInteractionTime. pres. Qed.
#[local] Hint Resolve lo_receipts lo_bump : pres.

Lemma lo_channel_detach p n : lkeeps (handle_channel_detach p n).
Proof.
  unfold handle_channel_detach. pres. apply on_server_keeps. intros E. unfold scall. pose proof ah_semit. pres.
Qed.

(** The connection that joins is bound to a network of the user. *)
Lemma join_keeps id p : triple (of_srv (with_net p)) (join_user_dc id p) (λ _, of_srv all_healthy) (of_srv all_healthy).
Proof.
  intros l Hl. unfold join_user_dc. rewrite bind_gets. cbv zeta.
  eapply (triple_bind (of_srv (with_net p)) _ _ (λ _, of_srv all_healthy)); [..|exact Hl].
  - apply (on_server_triple _ (with_net p) (λ _, all_healthy) all_healthy); [done|]. intros E sv [Hsv Hp].
    unfold on_user. destruct (srv_users sv !! le_user) as [s|] eqn:Hs; [|done]. cbn.
    apply map_Forall_insert_2; [|done]. destruct (Hsv le_user s Hs) as [[Hn Hb] Hw]. split; [|done]. split; [done|]. cbn.
    intros d q [Hd| ->%list_elem_of_singleton]%elem_of_app Hc Hq; eauto.
  - intros []. apply triple_preserves. apply preserves_bind; [apply lo_own_state|]. intros s.
    apply preserves_bind; [destruct p as [p|]; [destruct (net_lastError _)|]; [|apply preserves_skip..]|].
    + apply client_keeps. intros DE R. apply rc_on_dc.
    + intros _. apply lo_forEachUpstream; intros; auto using same_updateAway, uwf_updateAway.
Qed.

Lemma lo_downstream_connected id dc : lkeeps (handle_downstream_connected id dc).
Proof.
  unfold handle_downstream_connected. apply preserves_bind; [pres|]. intros _. apply preserves_bind; [pres|]. intros s.
  apply preserves_bind; [pres|]. intros _. apply preserves_bind; [pres|]. intros s'. destruct (negb _); [pres|].
  apply preserves_bind_gets. intros l _. apply preserves_triple.
  eapply triple_bind.
  { apply triple_try. apply (client_triple _ _ all_healthy (λ p, with_net p) all_healthy); [done|by intros p sv [? _]|].
    intros DE R Hu. by apply welcome_triple. }
  intros [p|e].
  - eapply triple_bind; [apply join_keeps|]. intros []. apply triple_preserves. pres.
  - apply triple_preserves. destruct e; pres; apply client_keeps; intros DE R; apply rc_reply.
Qed.

Lemma lo_downstream_disconnected id : lkeeps (handle_downstream_disconnected id).
Proof.
  assert (preserves healthy (disconnect_dc id)) as Hd.
  { apply (h_downstreams (filter _)). intros l d p [_ Hd]%list_elem_of_filter. eauto. }
  unfold handle_downstream_disconnected. pres; apply lo_forEachUpstream; intros; pres.
Qed.

Lemma lo_stop : lkeeps handle_stop.
Proof.
  assert (∀ a, preserves healthy (uemit a)) as Hu.
  { intros a. apply preserves_modify. intros s [Ho Hw]. split; [by apply user_ok_trace|done]. }
  unfold handle_stop. pres.
Qed.

Lemma lo_event e : lkeeps (handle_event e).
Proof.
  destruct e; cbn [handle_event].
  - unfold handle_upstream_connected. pres.
  - unfold handle_upstream_disconnected. pres.
  - unfold handle_connection_error. pres.
  - unfold handle_upstream_error. pres.
  - unfold handle_upstream_message. pres.
  - apply lo_channel_detach.
  - apply lo_downstream_connected.
  - apply lo_downstream_disconnected.
  - unfold handle_downstream_message. pres. apply client_keeps. intros DE R.
    pose proof (healthy_client re_user store_fresh). apply (rc_client_event all_healthy healthy).
  - unfold handle_broadcast. pres.
  - unfold handle_user_update. pres.
  - pres.
  - unfold handle_user_run. pres. apply on_server_keeps. intros E. by apply ah_command.
  - apply lo_stop.
Qed.

Lemma lo_run es l : all_healthy (lp_srv l) → all_healthy (lp_srv (user_run es l).1).
Proof.
  revert l. induction es as [|e es IH]; intros l Hl; [done|]. cbn [user_run]. pose proof (lo_event e l Hl) as He.
  destruct (handle_event e l) as [l' [[]|err|w]]; cbn in He; [..|done]; by (destruct e; apply IH || done).
Qed.

(** ** Loading the networks *)

(** The rows the database keeps for a user. *)
Record rows_ok (rows : list dbNetwork) : Prop := {
  rows_ids : NoDup (nID <$> rows);
  rows_nonzero : Forall (λ r, nID r ≠ 0) rows;
  rows_names : NoDup (GetName <$> rows);
  rows_valid : Forall name_ok rows
}.

#[global] Instance record_by_id_total : Total record_by_id.
Proof. intros r r'. unfold record_by_id. lia. Qed.
#[global] Instance record_by_id_trans : Transitive record_by_id.
Proof. intros r r' r''. unfold record_by_id. lia. Qed.

(** A network with the largest ID and a new name, at the end. *)
Lemma nets_ok_snoc h next l p :
  nets_ok h next l → is_Some (h !! p) → nID (rec_of h p) ≠ 0 → name_ok (rec_of h p) →
  (∀ q, q ∈ l → nID (rec_of h q) < nID (rec_of h p) ∧ GetName (rec_of h q) ≠ GetName (rec_of h p)) →
  nets_ok h next (l ++ [p]).
Proof.
  intros [H1 H2 H3 H4 H5 H6] Ha Hz Hv Hnew. split; rewrite ?Forall_app, ?Forall_singleton; try done.
  - clear -H3 Hnew. induction H3 as [|q l H3 IH Hall]; cbn; [by repeat constructor|]. constructor.
    + apply IH. intros q' Hq'. apply Hnew. by right.
    + apply Forall_app. split; [done|]. apply Forall_singleton, Hnew. by left.
  - rewrite fmap_app. apply NoDup_app. split_and!; [done| |apply NoDup_singleton].
    intros x (q & -> & Hq)%list_elem_of_fmap Hx%list_elem_of_singleton. by destruct (Hnew q Hq).
Qed.

(** The state while networks are loaded: those of [rows] are still to come, by ID. *)
Definition loading (rows : list dbNetwork) (s : userState) : Prop :=
  healthy s ∧ us_downstreams s = [] ∧
  ∀ p r, p ∈ us_networks s → r ∈ rows → nID (rec_at s p) < nID r ∧ GetName (rec_at s p) ≠ GetName r.

Lemma receipts_uwf n (receipts : list (string * string * string)) :
  uwf n → uwf (set_net_delivered (foldl (λ d r, delivered_StoreID d r.1.1 r.1.2 r.2) (net_delivered n) receipts) n).
Proof.
  intros [? ? ? ? Hd ? ? ? ?]. split; try done. cbn. clear -Hd. revert Hd. generalize (net_delivered n) as d.
  induction receipts as [|r receipts IH]; intros d Hd; [done|]. cbn [foldl]. apply IH. by apply map_ok_Set.
Qed.

(** The state with one more network. *)
Definition loaded (n : ustate) (s : userState) : userState :=
  set_us_networks (us_networks s ++ [us_next s]) (set_us_next (S (us_next s)) (set_us_heap (<[us_next s := n]> (us_heap s)) s)).

Lemma loaded_ok n r rows s :
  uwf n → net_record n = r → nID r ≠ 0 → name_ok r → (∀ r', r' ∈ rows → nID r < nID r' ∧ GetName r ≠ GetName r') →
  loading (r :: rows) s → loading rows (loaded n s).
Proof.
  intros Hn Hr Hz Hv Hrows ([[Hok Hb] Hw] & Hd & Hnew).
  destruct (nets_ok_alloc _ _ _ n Hok) as [Hok1 Hnotin].
  assert (∀ q, q ∈ us_networks s → rec_of (<[us_next s := n]> (us_heap s)) q = rec_at s q) as Hsame.
  { intros q Hq. apply rec_of_insert_ne. by intros ->. }
  split_and!; [split; [split|]|done|]; cbn.
  - apply nets_ok_snoc; [done|rewrite lookup_insert_eq; by eexists|rewrite rec_of_insert_eq; congruence..|].
    intros q Hq. rewrite rec_of_insert_eq, Hsame, Hr by done. apply Hnew; [done|by left].
  - rewrite Hd. intros d p Hin. by inversion Hin.
  - by apply map_Forall_insert_2.
  - intros p r' Hp Hr'. change (rec_at (loaded n s) p) with (rec_of (<[us_next s := n]> (us_heap s)) p).
    apply elem_of_app in Hp as [Hp| ->%list_elem_of_singleton].
    + rewrite Hsame by done. apply Hnew; [done|by right].
    + rewrite rec_of_insert_eq, Hr. by apply Hrows.
Qed.

Lemma loading_trace rows tr s : loading rows s → loading rows (set_us_trace tr s).
Proof. intros ([Ho Hw] & Hd & Hn). split_and!; [split; [by apply user_ok_trace|done]|done|done]. Qed.

Lemma load_network_ok r rows s :
  nID r ≠ 0 → name_ok r → (∀ r', r' ∈ rows → nID r < nID r' ∧ GetName r ≠ GetName r') →
  loading (r :: rows) s → loading rows (load_network r s).1.
Proof.
  intros Hz Hv Hrows Hs. unfold load_network. destruct (le_ListChannels (nID r)) as [channels|e].
  2: { destruct Hs as (Hh & Hd & Hn). split_and!; [done|done|]. intros p r' Hp Hr'. apply Hn; [done|by right]. }
  pose proof (newConnection_uwf r channels) as Hn0.
  destruct (if le_persistentStore then _ else _) as [receipts|e]; unfold mbind, M_bind, alloc, modify, gets; cbn.
  - apply loading_trace. unfold set_us_heap, eta_us. cbn.
    rewrite (alter_insert_eq (us_heap s) (us_next s)). by apply (loaded_ok (set_net_delivered _ (newConnection r channels)) r rows s); [apply receipts_uwf|..].
  - by apply (loaded_ok (newConnection r channels) r rows s).
Qed.

Lemma load_networks_ok rows s :
  rows_ok rows → StronglySorted record_by_id rows → loading rows s → healthy (load_networks rows s).1.
Proof.
  revert s. induction rows as [|r rows IH]; intros s [Hids Hz Hnames Hv] Hsort Hs; [apply Hs|].
  apply NoDup_cons in Hids, Hnames. apply Forall_cons in Hz as [Hz1 Hz2], Hv as [Hv1 Hv2].
  apply StronglySorted_inv in Hsort as [Hsort Hall]. cbn [load_networks].
  assert (loading rows (load_network r s).1) as Hr.
  { apply load_network_ok; [done|done| |done]. intros r' Hr'. rewrite Forall_forall in Hall. specialize (Hall r' Hr').
    unfold record_by_id in Hall. split.
    - enough (nID r ≠ nID r') by lia. intros Heq. apply (proj1 Hids). rewrite Heq. by apply list_elem_of_fmap_2.
    - intros Heq. apply (proj1 Hnames). rewrite Heq. by apply list_elem_of_fmap_2. }
  unfold mbind, M_bind. destruct (load_network r s) as [s' [[]|e|w]]; [|apply Hr..].
  apply IH; [split; by try apply Hids; try apply Hnames|done|done].
Qed.

Lemma user_start_ok s :
  us_networks s = [] → us_downstreams s = [] → healthy s →
  (∀ rows, le_ListNetworks (uID (us_record s)) = inl rows → rows_ok rows) → healthy (user_start s).1.
Proof.
  intros Hn Hd Hs Hrows. unfold user_start. rewrite bind_gets. destruct (le_ListNetworks _) as [rows|e]; [|done].
  specialize (Hrows rows eq_refl). pose proof (merge_sort_Permutation record_by_id rows) as Hperm.
  apply load_networks_ok; [|apply StronglySorted_merge_sort; apply _|].
  - destruct Hrows as [? ? ? ?]. split; by rewrite Hperm.
  - split_and!; [done|done|]. rewrite Hn. intros p r Hp. by inversion Hp.
Qed.
End loop.

(** C7: The invariant of the bouncer. Whatever events a user's goroutine handles after it has
    loaded the networks of its user, in any order and number: messages of servers and of
    clients, connections that come and go, timers, broadcasts, requests of administrators and
    what they run for others, and whether or not the handlers fail, every user of the server keeps a list of networks with distinct IDs and
    distinct valid names, sorted by ID, its open connections are bound to networks in the list,
    and the maps of every network and its logs keep the invariant of server connections. *)
Theorem user_loop_healthy `{UE : uenv} `{SV : svenv} `{RE : renv} `{LE : lenv} `{UnicodeTables} `{HBare : Bare msgIDHeader}
    (es : list event) (l : loop) (s : userState) :
  (∀ tr ids uid r id, nID r = 0 → ue_StoreNetwork tr ids uid r = inl id → id ≠ 0 ∧ id ∉ ids) →
  (∀ rows, le_ListNetworks (uID (us_record s)) = inl rows → rows_ok rows) →
  all_healthy (lp_srv l) → srv_users (lp_srv l) !! le_user = Some s → us_networks s = [] → us_downstreams s = [] →
  ∀ name u, srv_users (lp_srv (user_goroutine es l).1) !! name = Some u → user_ok u ∧ nets_wf u.
Proof.
  intros Hfresh Hrows Hall Hs Hn Hd. assert (all_healthy (lp_srv (on_own (λ _, user_start) l).1)) as Hstart.
  { unfold on_own, on_server. set (o := on_user le_user user_start (lp_srv l)). assert (all_healthy o.1) as Ho.
    { subst o. unfold on_user. rewrite Hs. pose proof (user_start_ok s Hn Hd (Hall _ s Hs) Hrows) as Hu.
      destruct (user_start s) as [s' x]. by apply map_Forall_insert_2. }
    destruct o as [sv x]. change (lp_srv (?p).1) with ((λ l, lp_srv l) p.1).
    pose proof (delivered_triple l None x (λ _, all_healthy) all_healthy (MkLoop sv (lp_dcs l) (lp_trace l))) as Ht.
    destruct ((deliver_since l None ;; lift x) _) as [l' [b|e|w]]; apply Ht; by destruct x. }
  intros name u Hu. unfold user_goroutine in Hu. destruct (on_own _ l) as [l' [[]|e|w]]; cbn in Hstart, Hu.
  - pose proof (lo_run Hfresh es l' Hstart) as Hr. by apply (Hr name u).
  - by apply (Hstart name u).
  - by apply (Hstart name u).
  - by apply (Hstart name u).
Qed.
