(* ===== verification/Quiet.v ===== *)
(** * Methods that leave the label contexts alone

    The label context of a connection belongs to the command being handled. Only the handling
    of a server's message makes another one and flushes it; the methods that a client's command
    runs do neither, at any level: network, user and server. *)

From S2P Require Import Prelude GoStrings GoUnicode GoStrconv IrcMessage GoFlag CaseMapping Membership Modes WhoX Base64.
From S2P Require Import Effects GenMsg Caps Database Highlight Upstream UpstreamHandlers UpstreamInv Downstream DownstreamHandlers.
From S2P Require Import UserNetworks ServiceWords Service.

Open Scope string_scope.
Open Scope list_scope.
Open Scope Z_scope.

Definition quiet (a : action) : Prop :=
  match a with LabelContext _ _ _ | ClearLabel _ | ToDownstream _ FlushBatch => False | _ => True end.
Definition quiet_u (a : uaction) : Prop :=
  match a with UNet _ a => quiet a | UDown _ FlushBatch => False | _ => True end.
Definition quiet_s (a : saction) : Prop := match a with SUser _ a => quiet_u a | _ => True end.

(** ** Networks *)

Definition traced (tr0 : list action) (n : ustate) : Prop := ∃ tr, trace n = tr0 ++ tr ∧ Forall quiet tr.

Lemma traced_emit tr0 a n : quiet a → traced tr0 n → traced tr0 (set_trace (trace n ++ [a]) n).
Proof.
  intros Ha (tr & Htr & Hq). exists (tr ++ [a]). cbn. rewrite Htr, <-app_assoc. split; [done|].
  apply Forall_app. by split; [|constructor].
Qed.

Section networks.
Context `{E : env} `{UnicodeTables} (tr0 : list action).

Abbreviation qkeeps := (preserves (traced tr0)).

Ltac pres_more ::=
  match goal with
  | |- preserves _ (forEachDownstream _) => unfold forEachDownstream
  | |- preserves (traced _) (modify _) => apply preserves_modify; intros ? Htr; exact Htr
  end.

Lemma q_emit a : quiet a → qkeeps (emit a).
Proof. intros Ha. apply preserves_modify. intros n. by apply traced_emit. Qed.
#[local] Hint Extern 2 (preserves (traced _) (emit _)) => apply q_emit; exact I : pres.
Lemma q_send_dc dc c : c ≠ FlushBatch → qkeeps (send_dc dc c).
Proof. intros Hc. apply q_emit. by destruct c. Qed.
#[local] Hint Extern 2 (preserves (traced _) (send_dc _ _)) => apply q_send_dc; discriminate : pres.
Lemma q_SendMessage m : qkeeps (SendMessage_uc m).
Proof. unfold SendMessage_uc. pres. Qed.
#[local] Hint Resolve q_SendMessage : pres.
Lemma q_Labeled id l m : qkeeps (SendMessageLabeled id l m).
Proof. unfold SendMessageLabeled. pres. Qed.
#[local] Hint Resolve q_Labeled : pres.
Lemma q_set_pending cmd l : qkeeps (set_pending cmd l).
Proof. unfold set_pending. pres. Qed.
#[local] Hint Resolve q_set_pending : pres.
Lemma q_sendNext cmd : qkeeps (sendNextPendingCommand cmd).
Proof. unfold sendNextPendingCommand. pres. Qed.
#[local] Hint Resolve q_sendNext : pres.
Lemma q_enqueue dc l m : qkeeps (enqueueCommand dc l m).
Proof. unfold enqueueCommand. pres. Qed.
Lemma q_appendLog entity m : qkeeps (appendLog entity m).
Proof. unfold appendLog. pres. Qed.
#[local] Hint Resolve q_appendLog : pres.
Lemma q_produce target m origin blocked : qkeeps (produce target m origin blocked).
Proof. unfold produce. pres. Qed.
Lemma q_put_channel name ch : qkeeps (put_channel name ch).
Proof. unfold put_channel. pres. Qed.
Lemma q_put_net_channel ch : qkeeps (put_net_channel ch).
Proof. unfold put_net_channel. pres. Qed.
#[local] Hint Resolve q_put_channel q_put_net_channel : pres.
Lemma q_autoDetach n : qkeeps (updateChannelAutoDetach n).
Proof. unfold updateChannelAutoDetach. pres. Qed.
Lemma q_stop n : qkeeps (stop_autoDetach n).
Proof. unfold stop_autoDetach. pres. Qed.
#[local] Hint Resolve q_autoDetach : pres.
Lemma q_detach ch : qkeeps (net_detach ch).
Proof. unfold net_detach. pres. Qed.
Lemma q_attach ch : qkeeps (net_attach ch).
Proof. unfold net_attach. pres. Qed.
Lemma q_updateAway : qkeeps updateAway.
Proof. unfold updateAway. pres. Qed.
Lemma q_forget n : qkeeps (forget_user n).
Proof. unfold forget_user. pres. Qed.
#[local] Hint Resolve q_forget : pres.
Lemma q_updateMonitor : qkeeps updateMonitor.
Proof. unfold updateMonitor. pres. Qed.
Lemma q_autoSave u pw : qkeeps (autoSaveSASLPlain u pw).
Proof. unfold autoSaveSASLPlain. pres. Qed.
Lemma q_abort : qkeeps abortPendingCommands.
Proof. unfold abortPendingCommands, abort_reply. pres. Qed.
#[local] Hint Resolve q_abort : pres.
Lemma q_disconnected found : qkeeps (handleUpstreamDisconnected found).
Proof. unfold handleUpstreamDisconnected, stopRegainNickTimer. pres. Qed.
Lemma q_updateCasemapping cm : qkeeps (net_updateCasemapping cm).
Proof. unfold net_updateCasemapping. pres. Qed.
Lemma q_modify f : (∀ n, trace (f n) = trace n) → qkeeps (modify f).
Proof. intros Hf. apply preserves_modify. intros n. unfold traced. by rewrite Hf. Qed.
End networks.

#[export] Hint Resolve q_SendMessage q_Labeled q_enqueue q_produce q_put_channel q_put_net_channel q_autoDetach q_stop
  q_detach q_attach q_updateAway q_updateMonitor q_autoSave q_disconnected q_updateCasemapping : pres.
#[export] Hint Extern 2 (preserves (traced _) (emit _)) => apply q_emit; exact I : pres.
#[export] Hint Extern 2 (preserves (traced _) (send_dc _ _)) => apply q_send_dc; discriminate : pres.
#[export] Hint Extern 2 (preserves (traced _) (modify _)) => apply q_modify; reflexivity : pres.

(** ** Users *)

Definition user_quiet (tr0 : list uaction) (s : userState) : Prop :=
  ∃ tr, us_trace s = tr0 ++ tr ∧ Forall quiet_u tr.

Section users.
Context `{UE : uenv} `{E : env} `{UnicodeTables} (tr0 : list uaction).

Abbreviation ukeeps := (preserves (user_quiet tr0)).

Lemma uq_modify (f : userState → userState) : (∀ s, us_trace (f s) = us_trace s) → ukeeps (modify f).
Proof. intros Hf. apply preserves_modify. intros s. unfold user_quiet. by rewrite Hf. Qed.
#[local] Hint Extern 2 (preserves (user_quiet _) (modify _)) => by apply uq_modify : pres.
Lemma uq_uemit a : quiet_u a → ukeeps (uemit a).
Proof. 
  intros Ha. apply preserves_modify. intros s (tr & Htr & Hq). exists (tr ++ [a]). cbn. rewrite Htr, <-app_assoc.
  split; [done|]. apply Forall_app. by split; [|constructor].
Qed.
#[local] Hint Extern 2 (preserves (user_quiet _) (uemit _)) => apply uq_uemit; exact I : pres.
Lemma uq_ucall {A} a (f : list uaction → A) : quiet_u a → ukeeps (ucall a f).
Proof. intros Ha. unfold ucall. pres. by apply uq_uemit. Qed.
#[local] Hint Extern 2 (preserves (user_quiet _) (ucall _ _)) => apply uq_ucall; exact I : pres.
Lemma uq_notify id attrs : ukeeps (notifyBouncerNetworkState id attrs).
Proof. unfold notifyBouncerNetworkState. pres. Qed.
Lemma uq_addNetwork p : ukeeps (addNetwork p).
Proof. unfold addNetwork. pres. Qed.
Lemma uq_removeNetwork p : ukeeps (removeNetwork p).
Proof. unfold removeNetwork. pres. Qed.
Lemma uq_rebind p q : ukeeps (rebind p q).
Proof. unfold rebind. pres. Qed.
Lemma uq_check_limit b r : ukeeps (check_limit b r).
Proof. unfold check_limit. pres. Qed.
Lemma uq_alloc n : ukeeps (alloc n).
Proof. unfold alloc. pres. Qed.
#[local] Hint Resolve uq_notify uq_addNetwork uq_removeNetwork uq_rebind uq_check_limit uq_alloc : pres.

Lemma uq_on_network {A} p (m : env → M A) : (∀ E tr0, preserves (traced tr0) (m E)) → ukeeps (on_network p m).
Proof.
  intros Hm s (trs & Hs & Hqs). unfold on_network. destruct (us_heap s !! p) as [n|]; [|by exists trs].
  destruct (Hm (env_at s p) (trace n) n) as (tr & Htr & Hq); [exists []; by rewrite app_nil_r|].
  destruct (m (env_at s p) n) as [n' r]. cbn in *. exists (trs ++ (UNet p <$> tr)). cbn.
  rewrite Htr, drop_app_length, Hs, app_assoc. split; [done|]. apply Forall_app. split; [done|]. by apply Forall_fmap.
Qed.

Ltac pres_more ::=
  match goal with
  | |- preserves _ (on_network _ _) => apply uq_on_network; intros ? ?
  end.

Lemma uq_replaceNetwork p record : ukeeps (replaceNetwork p record).
Proof. unfold replaceNetwork. pres. Qed.
#[local] Hint Resolve uq_replaceNetwork : pres.
Lemma uq_createNetwork r b : ukeeps (createNetwork r b).
Proof. unfold createNetwork. pres. Qed.
Lemma uq_updateNetwork r b : ukeeps (updateNetwork r b).
Proof. unfold updateNetwork. pres. Qed.
Lemma uq_deleteNetwork id : ukeeps (deleteNetwork id).
Proof. unfold deleteNetwork. pres. Qed.
#[local] Hint Resolve uq_updateNetwork : pres.
Lemma uq_nick_update p : ukeeps (user_nick_update p).
Proof. unfold user_nick_update. pres. Qed.
Lemma uq_network_update b1 b2 p : ukeeps (user_network_update b1 b2 p).
Proof. unfold user_network_update. pres. Qed.
#[local] Hint Resolve uq_nick_update uq_network_update : pres.
Lemma uq_collect {A B} (f : A → UM (option B)) l : (∀ x, ukeeps (f x)) → ukeeps (collect f l).
Proof. intros Hf. induction l as [|x l IH]; cbn [collect]; pres. Qed.
Lemma uq_update_all l err : ukeeps (update_all l err).
Proof. revert err. induction l as [|r l IH]; intros err; cbn [update_all]; pres. Qed.
#[local] Hint Resolve uq_collect uq_update_all : pres.
Lemma uq_updateUser f : ukeeps (updateUser f).
Proof. unfold updateUser. pres. Qed.
End users.

#[export] Hint Resolve uq_createNetwork uq_updateNetwork uq_deleteNetwork uq_updateUser : pres.
#[export] Hint Extern 2 (preserves (user_quiet _) (modify _)) => by apply uq_modify : pres.
#[export] Hint Extern 2 (preserves (user_quiet _) (uemit _)) => apply uq_uemit; exact I : pres.
#[export] Hint Extern 2 (preserves (user_quiet _) (ucall _ _)) => apply uq_ucall; exact I : pres.

(** ** The server *)

Definition srv_quiet (tr0 : list saction) (sv : server) : Prop :=
  ∃ tr, srv_trace sv = tr0 ++ tr ∧ Forall quiet_s tr.

Section servers.
Context `{UE : uenv} `{SV : svenv} `{UnicodeTables} (E : string → env) (tr0 : list saction).

Abbreviation skeeps := (preserves (srv_quiet tr0)).

Lemma sq_modify (f : server → server) :
  (∀ sv, srv_trace (f sv) = srv_trace sv) → skeeps (modify f).
Proof. intros Hf. apply preserves_modify. intros sv. unfold srv_quiet. by rewrite Hf. Qed.
#[local] Hint Extern 2 (preserves (srv_quiet _) (modify _)) => by apply sq_modify : pres.
Lemma sq_semit a : quiet_s a → skeeps (semit a).
Proof.
  intros Ha. apply preserves_modify. intros sv (tr & Htr & Hq). exists (tr ++ [a]). cbn. rewrite Htr, <-app_assoc.
  split; [done|]. apply Forall_app. by split; [|constructor].
Qed.
#[local] Hint Extern 2 (preserves (srv_quiet _) (semit _)) => apply sq_semit; exact I : pres.
Lemma sq_scall {A} a (f : list saction → A) : quiet_s a → skeeps (scall a f).
Proof. intros Ha. unfold scall. pres. by apply sq_semit. Qed.
#[local] Hint Extern 2 (preserves (srv_quiet _) (scall _ _)) => apply sq_scall; exact I : pres.
Lemma sq_print t : skeeps (print t).
Proof. unfold print. pres. Qed.
#[local] Hint Resolve sq_print : pres.

Lemma sq_on_user {A} name (m : UM A) : (∀ tr0, preserves (user_quiet tr0) m) → skeeps (on_user name m).
Proof.
  intros Hm sv (trs & Hs & Hqs). unfold on_user. destruct (srv_users sv !! name) as [s|]; [|by exists trs].
  destruct (Hm (us_trace s) s) as (tr & Htr & Hq); [exists []; by rewrite app_nil_r|].
  destruct (m s) as [s' r]. cbn in *. exists (trs ++ (SUser name <$> tr)). cbn.
  rewrite Htr, drop_app_length, Hs, app_assoc. split; [done|]. apply Forall_app. split; [done|]. by apply Forall_fmap.
Qed.

Ltac pres_more ::=
  match goal with
  | |- preserves _ (on_net _ _ _ _) => unfold on_net; apply sq_on_user; intros ?; apply uq_on_network; intros ? ?
  | |- preserves _ (on_user _ _) => apply sq_on_user; intros ?
  | |- preserves _ (wrap_err _ _) => unfold wrap_err
  end.

Lemma sq_of_sum {A} (x : A + goerr) : skeeps (of_sum x).
Proof. unfold of_sum. pres. Qed.
Lemma sq_ctx_user ctx : skeeps (ctx_user ctx).
Proof. unfold ctx_user. pres. Qed.
Lemma sq_parse_flags {S} (fs : list (flagDef S)) params (x : S) : skeeps (parse_flags fs params x).
Proof. unfold parse_flags. pres. Qed.
Lemma sq_select ctx u n missing : skeeps (select_network ctx u n missing).
Proof. unfold select_network. pres. Qed.
#[local] Hint Resolve sq_of_sum sq_ctx_user sq_parse_flags sq_select : pres.
Lemma sq_available cmds prefix c : skeeps (print_available cmds prefix c).
Proof. unfold print_available. pres. Qed.
Lemma sq_fromArg ctx u params : skeeps (getNetworkFromArg ctx u params).
Proof. unfold getNetworkFromArg. pres. Qed.
Lemma sq_fromFlag ctx u n : skeeps (getNetworkFromFlag ctx u n).
Proof. unfold getNetworkFromFlag. pres. Qed.
Lemma sq_fingerprints cert : skeeps (sendCertfpFingerprints cert).
Proof. unfold sendCertfpFingerprints. pres. Qed.
Lemma sq_change_sasl u p f : skeeps (change_sasl E u p f).
Proof. unfold change_sasl. pres. Qed.
Lemma sq_user_id u : skeeps (user_id u).
Proof. unfold user_id. pres. Qed.
Lemma sq_strip ctx u n : skeeps (stripNetworkSuffix ctx u n).
Proof. unfold stripNetworkSuffix. pres. Qed.
Lemma sq_channelArgs params : skeeps (parse_channel_args params).
Proof. unfold parse_channel_args. pres. Qed.
Lemma sq_deleteChannel u p n : skeeps (deleteChannel E u p n).
Proof. unfold deleteChannel. pres. Qed.
Lemma sq_request {A} ctx u (m : SM A) : skeeps m → skeeps (request ctx u m).
Proof. intros Hm. unfold request. pres. Qed.
Lemma sq_stop ctx u : skeeps (stop_user ctx u).
Proof. unfold stop_user. pres. Qed.
Lemma sq_createUser u : skeeps (createUser u).
Proof. unfold createUser. pres. Qed.
#[local] Hint Resolve sq_available sq_fromArg sq_fromFlag sq_fingerprints sq_change_sasl sq_user_id sq_strip sq_channelArgs
  sq_deleteChannel sq_request sq_stop sq_createUser : pres.

Lemma uq_apply_user_update `{E0 : env} trs hashed fs : preserves (user_quiet trs) (apply_user_update hashed fs).
Proof. unfold apply_user_update. pres. Qed.
#[local] Hint Resolve uq_apply_user_update : pres.

Ltac pres_more ::=
  match goal with
  | |- preserves _ (on_net _ _ _ _) => unfold on_net; apply sq_on_user; intros ?; apply uq_on_network; intros ? ?
  | |- preserves _ (on_user _ _) => apply sq_on_user; intros ?
  | |- preserves _ (request _ _ _) => apply sq_request
  | |- preserves _ (wrap_err _ _) => unfold wrap_err
  end.

Lemma sq_SetPassword pw : skeeps (SetPassword pw).
Proof. unfold SetPassword. pres. Qed.
#[local] Hint Resolve sq_SetPassword : pres.
Lemma sq_user_run run ctx params : (∀ c ps, skeeps (run c ps)) → skeeps (handleUserRun run ctx params).
Proof. intros Hrun. unfold handleUserRun. pres. Qed.

Lemma sq_handler run h ctx params : (∀ c ps, skeeps (run c ps)) → skeeps (run_handler E run h ctx params).
Proof.
  intros Hrun. destruct h; cbn [run_handler].
  all: unfold handleServiceHelp, handleServiceNetworkCreate, handleServiceNetworkStatus, handleServiceNetworkUpdate,
    handleServiceNetworkDelete, handleServiceNetworkQuote, check_ignore_limit, handleServiceCertFPGenerate, generateCertFP,
    handleServiceCertFPFingerprints, handleServiceSASLStatus, handleServiceSASLSetPlain, handleServiceSASLReset,
    handleUserStatus, print_users, handleUserCreate, handleUserUpdate, update_other_user, update_own_user, handleUserDelete,
    delete_user, handleServiceChannelStatus, handleServiceChannelCreate, handleServiceChannelUpdate,
    handleServiceChannelDelete, handleServiceDeviceCertificateStatus, handleServiceDeviceCertificateCreate,
    handleServiceDeviceCertificateDelete, handleServiceServerStatus, handleServiceServerNotice, handleServiceServerDebug.
  all: first [by apply sq_user_run | pres].
Qed.

Lemma sq_command fuel ctx words : skeeps (handleServiceCommand E fuel ctx words).
Proof.
  revert ctx words. induction fuel as [|fuel IH]; intros ctx words; [apply preserves_panic|].
  cbn [handleServiceCommand]. unfold service_body. destruct (Get serviceCommands words) as [[cmd ps]|e|w]; [|pres..].
  destruct (_ && _); [pres|]. destruct (_ && _); [pres|]. destruct (cmd_handle cmd) as [h|]; [|pres].
  intros sv Hsv. pose proof (sq_handler _ h ctx ps IH sv Hsv) as Hh. unfold hint_help.
  by destruct (run_handler _ _ h ctx ps sv) as [sv' [[]|e|w]].
Qed.
Lemma sq_text ctx text : skeeps (handleServicePRIVMSG E ctx text).
Proof. unfold handleServicePRIVMSG. pose proof sq_command. pres. Qed.
End servers.
