(* ===== verification/ClientLabel.v ===== *)
(** * Labelled responses of registered clients

    A command with a label gets one labelled answer, or its label is given away to the server
    connection before anything has been answered. *)

From S2P Require Import Prelude GoStrings GoUnicode GoStrconv IrcMessage GoFlag CaseMapping Membership Modes WhoX Base64.
From S2P Require Import Effects GenMsg Caps Database Highlight Upstream UpstreamHandlers UpstreamInv Downstream DownstreamHandlers.
From S2P Require Import DownstreamAuth DownstreamLabel MsgID UserNetworks ServiceWords Service GoTime Quiet.
From S2P Require Import DownstreamSession DownstreamCommands DownstreamRequests DownstreamExtensions.

Open Scope string_scope.
Open Scope list_scope.
Open Scope Z_scope.

(** The label was given away: lines are sent as they are. *)
Record given (tr0 : list daction) (s : dstate) : Prop := {
  given_registered : d_registered s = true;
  given_trace : ∃ tr, d_trace s = tr0 ++ tr;
  given_label : ∃ lc, d_label s = Some lc ∧ lc_label lc = "" ∧ lc_pendingMsg lc = None ∧ lc_batch lc = ""
}.

(** Nothing was answered and the label is there, or it was given away. *)
Record fresh (tr0 : list daction) (label : string) (s : dstate) : Prop := {
  fresh_registered : d_registered s = true;
  fresh_trace : ∃ tr, d_trace s = tr0 ++ tr ∧ lines tr = [];
  fresh_label : ∃ lc, d_label s = Some lc ∧ lc_label lc = label ∧ lc_pendingMsg lc = None ∧ lc_batch lc = ""
}.

(** Commands the bouncer answers itself, whatever the state of the network. *)
Definition local_commands : list string :=
  ["CAP"; "PING"; "PONG"; "USER"; "AWAY"; "MONITOR"; "METADATA"; "CHATHISTORY"; "READ"; "MARKREAD"; "SEARCH"; "CLIENTCERT";
   "BOUNCER"; "WEBPUSH"; "QUIT"; "ISUPPORT"].

Section label.
Context `{DE : denv} `{UE : uenv} `{SV : svenv} `{RE : renv} `{UnicodeTables} `{HBare : Bare msgIDHeader}.
Context (tr0 : list daction) (label : string) (Hlabel : label ≠ "").

(** What holds while a command is answered; [b] tells whether the label may be given away. *)
Definition lgood (b : bool) (s : dstate) : Prop := linv true tr0 label s ∨ (b = true ∧ given tr0 s).

Lemma fresh_good b s : fresh tr0 label s → lgood b s.
Proof.
  intros [Hr (tr & Htr & Hl) (lc & Hlc & H1 & H2 & H3)]. left. split; [done|]. exists tr, lc. split_and!; [done|done|].
  split; [done|]. by rewrite H2, H3.
Qed.

Section keeps.
Context (b : bool).
Abbreviation gkeeps := (preserves (lgood b)).

Lemma lgood_frame s s' :
  lgood b s → d_registered s' = d_registered s → d_label s' = d_label s →
  (d_trace s' = d_trace s ∨ ∃ a, d_trace s' = d_trace s ++ [a] ∧ lines [a] = []) → lgood b s'.
Proof.
  intros [Hl|(Hb & [Hr (tr & Htr) Hlc])] E1 E2 E3; [left; by eapply linv_frame|right; split; [done|]].
  split; [by rewrite E1| |by rewrite E2]. destruct E3 as [->|(a & -> & _)]; [by exists tr|].
  exists (tr ++ [a]). by rewrite Htr, app_assoc.
Qed.

Ltac gframe :=
  apply preserves_modify; intros ? ?; eapply lgood_frame; [eassumption|cbn..];
  try reflexivity; first [by left | right; eexists; split; [reflexivity|done]].
#[local] Hint Extern 2 (preserves (lgood _) (modify _)) => gframe : pres.
#[local] Hint Extern 2 (preserves (lgood _) (modify_reg _)) => gframe : pres.
#[local] Hint Extern 2 (preserves (lgood _) (demit _)) => gframe : pres.

Lemma g_SendMessage m : gkeeps (SendMessage_dc m).
Proof.
  intros s [Hl|(Hb & [Hr (tr & Htr) (lc & Hlc & H1 & H2 & H3)])].
  { left. by apply (lkeep_SendMessage true tr0 label Hlabel). }
  right. split; [done|]. unfold SendMessage_dc. rewrite bind_gets. unfold mbind, M_bind, lift, Datatypes.id.
  assert (given tr0 s) as Hs by (split; eauto).
  destruct (outgoing (d_caps s) m) as [[om|]|e|w]; [|exact Hs..]. rewrite Hlc, decide_True by done.
  unfold demit, modify. cbn. split; cbn; [done|exists (tr ++ [DSend (outgoing_prefix om)]); by rewrite Htr, app_assoc|by exists lc].
Qed.
#[local] Hint Resolve g_SendMessage : pres.

Lemma g_dcall {A} a (f : list daction → A) : lines [a] = [] → gkeeps (dcall a f).
Proof. intros Ha. unfold dcall. pres. Qed.
#[local] Hint Extern 2 (preserves (lgood _) (dcall _ _)) => by apply g_dcall : pres.
Lemma g_SendBatch typ ps tags f : (∀ ref, gkeeps (f ref)) → gkeeps (SendBatch_dc typ ps tags f).
Proof. intros Hf. unfold SendBatch_dc. pres. Qed.
Lemma g_sendIsupport tokens : gkeeps (sendIsupport tokens).
Proof. unfold sendIsupport. pres. apply g_SendBatch. intros ref. pres. Qed.
Lemma g_negotiating x : gkeeps (negotiating x).
Proof. unfold negotiating. pres. Qed.
Lemma g_cap_reply sub arg : gkeeps (cap_reply sub arg).
Proof. unfold cap_reply. pres. Qed.
#[local] Hint Resolve g_sendIsupport g_negotiating g_cap_reply : pres.
Lemma g_handleCap m : gkeeps (handleCap m).
Proof. unfold handleCap. pres. Qed.
Lemma g_endSASL om : gkeeps (endSASL_dc om).
Proof. unfold endSASL_dc. pres. Qed.
Lemma g_resetting {A} (body : DM A) : gkeeps body → gkeeps (resetting_sasl body).
Proof.
  intros Hb s Hs. specialize (Hb s Hs). unfold resetting_sasl. destruct (body s) as [s' [a|e|w]]; cbn in *; try done.
  eapply lgood_frame; [exact Hb|done..|by left].
Qed.
Lemma g_sasl_fail {A} cmd text : gkeeps (sasl_fail (A:=A) cmd text).
Proof. unfold sasl_fail. pres. Qed.
Lemma g_sasl_next sasl resp : gkeeps (sasl_next sasl resp).
Proof. unfold sasl_next. pres. Qed.
#[local] Hint Resolve g_sasl_fail g_sasl_next : pres.
Lemma g_handleAuthenticate m : gkeeps (handleAuthenticate m).
Proof. unfold handleAuthenticate. apply g_resetting. pres. Qed.
Lemma g_metadata_key m sub k : gkeeps (metadata_key m sub k).
Proof. unfold metadata_key. pres. Qed.
#[local] Hint Resolve g_metadata_key : pres.
Lemma g_metadataSub m : gkeeps (handleMetadataSub m).
Proof. unfold handleMetadataSub. pres. Qed.

(** ** What the rest of the bouncer does to the connection *)

Lemma g_user_record s : gkeeps (d_user_record s).
Proof. unfold d_user_record. pres. Qed.
#[local] Hint Resolve g_user_record : pres.
Lemma g_updateNick : gkeeps updateNick_dc.
Proof. unfold updateNick_dc. pres. Qed.
Lemma g_updateHost : gkeeps updateHost_dc.
Proof. unfold updateHost_dc. pres. Qed.
Lemma g_updateRealname : gkeeps updateRealname_dc.
Proof. unfold updateRealname_dc. pres. Qed.
Lemma g_updateAccount : gkeeps updateAccount_dc.
Proof. unfold updateAccount_dc. pres. Qed.
Lemma g_updateIsupport : gkeeps updateIsupport_dc.
Proof. unfold updateIsupport_dc. pres. Qed.
Lemma g_casemapping : gkeeps dcUpdateCasemapping.
Proof. unfold dcUpdateCasemapping. gframe. Qed.
Lemma g_setCap name value : gkeeps (setSupportedCap name value).
Proof. unfold setSupportedCap. pres. Qed.
Lemma g_unsetCap name : gkeeps (unsetSupportedCap name).
Proof. unfold unsetSupportedCap. pres. Qed.
#[local] Hint Resolve g_setCap g_unsetCap : pres.
Lemma g_supportedCaps : gkeeps updateSupportedCaps_dc.
Proof. unfold updateSupportedCaps_dc. pres. Qed.
Lemma g_notice text : gkeeps (sendServiceNOTICE text).
Proof. unfold sendServiceNOTICE. pres. Qed.
Lemma g_privmsg text : gkeeps (sendServicePRIVMSG text).
Proof. unfold sendServicePRIVMSG. pres. Qed.
Lemma g_advance m id : gkeeps (advanceMessageWithID_dc m id).
Proof. unfold advanceMessageWithID_dc, sendPing. pres. Qed.
#[local] Hint Resolve g_notice g_privmsg g_advance : pres.
Lemma g_withID m id : gkeeps (sendMessageWithID_dc m id).
Proof. unfold sendMessageWithID_dc. pres. Qed.
Lemma g_topic ch : gkeeps (sendTopic ch).
Proof. unfold sendTopic. pres. Qed.
Lemma g_names ch : gkeeps (sendNames ch).
Proof. unfold sendNames. pres. Qed.
Lemma g_marker net name : gkeeps (forward_marker net name).
Proof. unfold forward_marker. pres. Qed.
#[local] Hint Resolve g_topic g_names g_marker : pres.
Lemma g_forwardChannel net ch : gkeeps (forwardChannel_dc net ch).
Proof. unfold forwardChannel_dc. pres. Qed.
Lemma g_ask {A} net (m : env → M A) : gkeeps (ask_net net m).
Proof. apply preserves_lift. Qed.
#[local] Hint Resolve g_ask : pres.
Lemma g_relay net m : gkeeps (relayDetachedMessage_dc net m).
Proof. unfold relayDetachedMessage_dc. pres. Qed.
Lemma g_history_call c : gkeeps (history_call c).
Proof. unfold history_call. pres. Qed.
#[local] Hint Resolve g_relay g_history_call : pres.
Lemma g_backlog net target id : gkeeps (sendTargetBacklog_dc net target id).
Proof. unfold sendTargetBacklog_dc. pres. apply g_SendBatch. intros ref. pres. Qed.
#[local] Hint Resolve g_forwardChannel g_backlog g_endSASL g_updateNick g_updateHost g_updateRealname g_updateAccount
  g_updateIsupport g_casemapping g_supportedCaps g_withID : pres.
Lemma g_exec c : c ≠ FlushBatch → gkeeps (exec_call c).
Proof. intros Hc. unfold exec_call. destruct c; try done; pres. Qed.

(** ** Commands *)

Definition rgood (r : rstate) : Prop := lgood b (r_dc r).
Abbreviation rkeeps := (preserves rgood).

Lemma lgood_synced sv p s : lgood b s → lgood b (synced sv p s).
Proof. intros Hs. unfold synced. destruct (own_user sv); eapply lgood_frame; eauto. Qed.
Lemma r_on_dc_at {A} p (m : DM A) : gkeeps m → rkeeps (on_dc_at p m).
Proof.
  intros Hm r Hr. unfold on_dc_at, rgood. specialize (Hm _ (lgood_synced (r_srv r) (p (r_srv r)) _ Hr)).
  by destruct (m _) as [dc x].
Qed.
Lemma r_on_dc {A} (m : DM A) : gkeeps m → rkeeps (on_dc m).
Proof. apply r_on_dc_at. Qed.
Lemma r_reply m : rkeeps (reply m).
Proof. apply r_on_dc, g_SendMessage. Qed.
#[local] Hint Resolve r_reply : pres.

Lemma r_deliver a : quiet_s a → rkeeps (deliver a).
Proof.
  assert (∀ m, rkeeps (on_dc (SendMessage_dc m))) as Hsend by (intros m; apply r_on_dc, g_SendMessage).
  assert (∀ t, rkeeps (on_dc (sendServicePRIVMSG t))) as Hprint by (intros t; apply r_on_dc, g_privmsg).
  assert (∀ p c, c ≠ FlushBatch → rkeeps (on_dc_at p (exec_call c))) as Hexec by (intros; by apply r_on_dc_at, g_exec).
  intros Ha. destruct a as [ | | | | | | | | | | | | | |name a|t]; cbn [deliver]; try apply preserves_skip; [|done].
  cbn in Ha. destruct (decide (name = re_user)); [|apply preserves_skip].
  destruct a as [ | | | | | | |p a|id c|id netID attrs]; try apply preserves_skip; cbn [quiet_u] in Ha.
  - destruct a; cbn [deliver_net]; try done; try apply preserves_skip; [|pres].
    apply preserves_when. intros _. apply Hexec. intros ->. done.
  - apply preserves_when. intros _. apply Hexec. intros ->. done.
  - pres.
Qed.
Lemma r_on_srv {A} (m : (string → env) → SM A) : (∀ E tr, preserves (srv_quiet tr) (m E)) → rkeeps (on_srv m).
Proof.
  intros Hm r Hr. unfold on_srv. destruct (Hm (session_env (r_dc r)) (srv_trace (r_srv r)) (r_srv r)) as (tr & Htr & Hq).
  { exists []. by rewrite app_nil_r. }
  destruct (m (session_env (r_dc r)) (r_srv r)) as [sv x]. cbn in Htr. rewrite Htr, drop_app_length.
  assert (rkeeps (foreach deliver tr ;; lift x)) as Hk; [|by apply Hk].
  apply preserves_bind; [|intros; apply preserves_lift]. apply preserves_foreach. intros a Ha. apply r_deliver.
  rewrite Forall_forall in Hq. by apply Hq.
Qed.
Lemma r_own_on_user {A} (m : env → UM A) : (∀ E tr, preserves (user_quiet tr) (m E)) → rkeeps (own_on_user m).
Proof. intros Hm. apply r_on_srv. intros E tr. by apply sq_on_user. Qed.
Lemma r_own_on_net {A} p (m : env → M A) : (∀ E tr, preserves (traced tr) (m E)) → rkeeps (own_on_net p m).
Proof. intros Hm. apply r_on_srv. intros E tr. apply sq_on_user. intros tru. by apply uq_on_network. Qed.

Ltac pres_more ::=
  match goal with
  | |- preserves _ (on_srv (λ _, scall _ _)) => apply r_on_srv; intros ? ?; apply sq_scall; exact I
  | |- preserves _ (on_srv _) => apply r_on_srv; intros ? ?
  | |- preserves _ (own_on_net _ _) => apply r_own_on_net; intros ? ?
  | |- preserves _ (own_on_user _) => apply r_own_on_user; intros ? ?
  | |- preserves _ (on_dc _) => apply r_on_dc
  | |- preserves _ (forEachDownstream _) => unfold forEachDownstream
  end.

Lemma r_get_user : rkeeps get_user.
Proof. unfold get_user. pres. Qed.
Lemma r_replies ms : rkeeps (replies ms).
Proof. unfold replies. pres. Qed.
Lemma r_reply_batch typ ps ms : rkeeps (reply_batch typ ps ms).
Proof. apply r_on_dc, g_SendBatch. intros ref. pres. Qed.
Lemma r_refuse {A} cmd ps : rkeeps (refuse (A:=A) cmd ps).
Proof. apply preserves_fail. Qed.
Lemma r_call_db {A} a (f : list daction → A) : lines [a] = [] → rkeeps (call_db a f).
Proof. intros Ha. by apply r_on_dc, g_dcall. Qed.
#[local] Hint Extern 2 (preserves rgood (call_db _ _)) => by apply r_call_db : pres.
Lemma r_get_dc : rkeeps get_dc.
Proof. apply preserves_gets. Qed.
Lemma r_get_now : rkeeps get_now.
Proof. apply preserves_gets. Qed.
Lemma r_get_network : rkeeps get_network.
Proof. apply preserves_gets. Qed.
#[local] Hint Resolve r_get_user r_replies r_reply_batch r_refuse r_get_dc r_get_now r_get_network : pres.
Lemma r_get_upstream : rkeeps get_upstream.
Proof. unfold get_upstream. pres. Qed.
Lemma r_upstreamForCommand cmd : rkeeps (upstreamForCommand cmd).
Proof. unfold upstreamForCommand. pres. Qed.
Lemma r_handlePong token : rkeeps (handlePong token).
Proof. unfold handlePong, ackMsgID. pres. Qed.
#[local] Hint Resolve r_get_upstream r_upstreamForCommand r_handlePong : pres.
#[local] Hint Resolve g_handleCap g_handleAuthenticate g_metadataSub : pres.

Lemma r_AWAY m : rkeeps (handle_AWAY_dc m).
Proof. unfold handle_AWAY_dc. pres. Qed.
Lemma r_MONITOR m : rkeeps (handle_MONITOR_dc m).
Proof. unfold handle_MONITOR_dc, monitor_one, update_monitor. pres. Qed.
Lemma r_set_metadata target ref mt k v : rkeeps (set_metadata target ref mt k v).
Proof. unfold set_metadata. pres. Qed.
#[local] Hint Resolve r_set_metadata : pres.
Lemma r_set_metadata_all target ref mt l : rkeeps (set_metadata_all target ref mt l).
Proof. revert mt. induction l as [|[k v] l IH]; intros mt; cbn [set_metadata_all]; pres. Qed.
#[local] Hint Resolve r_set_metadata_all : pres.
Lemma r_METADATA m : rkeeps (handle_METADATA_dc m).
Proof. unfold handle_METADATA_dc, metadata_target, metadata_store, within_batch. pres. Qed.
Lemma r_load c : rkeeps (load c).
Proof. apply r_on_dc, g_history_call. Qed.
#[local] Hint Resolve r_load : pres.
Lemma r_CHATHISTORY m : rkeeps (handle_CHATHISTORY_dc m).
Proof.
  unfold handle_CHATHISTORY_dc, history_params, history_body, history_targets, load_history, load_around, history_fail. pres.
Qed.
Lemma r_MARKREAD m : rkeeps (handle_MARKREAD_dc m).
Proof. unfold handle_MARKREAD_dc, move_marker, push_marker. pres. Qed.
Lemma r_SEARCH m : rkeeps (handle_SEARCH_dc m).
Proof. unfold handle_SEARCH_dc. pres. Qed.
Lemma r_CLIENTCERT m : rkeeps (handle_CLIENTCERT_dc m).
Proof. unfold handle_CLIENTCERT_dc, cert_list, cert_create, cert_delete, cert_fingerprint, cert_fail. pres. Qed.
Lemma r_BOUNCER m : rkeeps (handle_BOUNCER_dc m).
Proof.
  unfold handle_BOUNCER_dc, bouncer_list, bouncer_add, bouncer_change, bouncer_delete, bouncer_network_of, bouncer_fail. pres.
Qed.
Lemma r_WEBPUSH m : rkeeps (handle_WEBPUSH_dc m).
Proof.
  unfold handle_WEBPUSH_dc, push_register, push_unregister, push_update, push_list, push_owner, push_fail. pres.
Qed.
Lemma r_CAP m : rkeeps (handle_CAP_registered m).
Proof. unfold handle_CAP_registered. pres. Qed.
Lemma r_PING m : rkeeps (handle_PING_dc m).
Proof. unfold handle_PING_dc. pres. Qed.
Lemma r_PONG m : rkeeps (handle_PONG_dc m).
Proof. unfold handle_PONG_dc. pres. Qed.

Lemma r_USER : rkeeps (dc ← get_dc; refuse ERR_ALREADYREGISTERED [d_nick dc; "You may not reregister"] : RM unit).
Proof. pres. Qed.

Lemma dispatch_with m (P : rstate → Prop) :
  (∀ r, P r → rgood r) → (Command m ∉ ["QUIT"; "ISUPPORT"] → ∀ r, P r → rgood (handleMessageRegistered m r).1) →
  ∀ r, P r → rgood (dispatch_registered m r).1.
Proof.
  intros HP Hm r Hr. unfold dispatch_registered. case_decide as H1; [|case_decide as H2].
  - assert (rkeeps (on_dc (demit DShutdown))) as Hk by pres. by apply Hk, HP.
  - match goal with |- rgood (?k r).1 => assert (rkeeps k) as Hk by pres; by apply Hk, HP end.
  - specialize (Hm ltac:(set_solver) r Hr). apply preserves_bind_at; [|intros; pres]. unfold try.
    by destruct (handleMessageRegistered m r) as [r' [a|e|w]].
Qed.

Lemma r_local m : Command m ∈ local_commands → rkeeps (dispatch_registered m).
Proof.
  intros Hc r Hr. apply (dispatch_with m rgood); [done| |done]. clear r Hr. intros Hne r Hr.
  enough (rkeeps (handleMessageRegistered m)) as Hk by by apply Hk.
  unfold handleMessageRegistered. revert Hne. repeat (apply elem_of_cons in Hc as [Hc|Hc]; [rewrite Hc|]); [intros Hne..|set_solver].
  all: match goal with |- context [List.find ?f ?t] => let v := eval hnf in (List.find f t) in change (List.find f t) with v end.
  all: cbv beta iota; first [apply r_CAP|apply r_PING|apply r_PONG|apply r_AWAY|apply r_MONITOR|apply r_METADATA|apply r_CHATHISTORY|apply r_MARKREAD
    |apply r_SEARCH|apply r_CLIENTCERT|apply r_BOUNCER|apply r_WEBPUSH|apply r_USER|set_solver].
Qed.
(** ** Commands that may give the label away

    Those give it away before they answer anything. *)

Context (Hb : b = true).
Definition rfresh (r : rstate) : Prop := fresh tr0 label (r_dc r).
Definition starts {A} (m : RM A) : Prop := ∀ r, rfresh r → rgood (m r).1.

Lemma rfresh_good r : rfresh r → rgood r.
Proof. apply fresh_good. Qed.
Lemma starts_keeps {A} (m : RM A) : rkeeps m → starts m.
Proof. intros Hm r Hr. by apply Hm, rfresh_good. Qed.
Lemma starts_bind {A B} (m : RM A) (k : A → RM B) : preserves rfresh m → (∀ a, starts (k a)) → starts (m ≫= k).
Proof.
  intros Hm Hk r Hr. unfold mbind, M_bind. specialize (Hm r Hr). destruct (m r) as [r' [a|e|w]]; cbn in *;
    [by apply Hk|by apply rfresh_good..].
Qed.
Lemma starts_then {A B} (m : RM A) (k : A → RM B) : starts m → (∀ a, rkeeps (k a)) → starts (m ≫= k).
Proof. intros Hm Hk r Hr. apply preserves_bind_at; [by apply Hm|done]. Qed.
Lemma starts_when c m : starts m → starts (when c m).
Proof. intros Hm. destruct c; [done|apply starts_keeps, preserves_skip]. Qed.

Lemma fresh_synced sv p s : fresh tr0 label s → fresh tr0 label (synced sv p s).
Proof. intros [H1 H2 H3]. unfold synced. by destruct (own_user sv); split. Qed.
Lemma fresh_give s : fresh tr0 label s →
  given tr0 (set_d_label (Some (MkLabel "" (default "" (lc_batch <$> d_label s)) (d_label s ≫= lc_pendingMsg))) s).
Proof.
  intros [H1 (tr & Htr & _) (lc & Hlc & _ & Hp & Hbt)]. rewrite Hlc. cbn. split; [done|by exists tr|].
  eexists. split; [done|]. by cbn; rewrite Hp, Hbt.
Qed.
Lemma given_give s lc : given tr0 s → d_label s = Some lc → given tr0 (set_d_label (Some (MkLabel "" (lc_batch lc) (lc_pendingMsg lc))) s).
Proof.
  intros [H1 H2 (lc' & Hlc & Hl & Hp & Hbt)] E. rewrite E in Hlc. injection Hlc as ->. split; [done|done|].
  eexists. split; [done|]. by cbn; rewrite Hp, Hbt.
Qed.

Lemma take_label_fresh : starts take_label.
Proof.
  intros r Hr. pose proof Hr as [_ _ (lc & Hlc & _)]. unfold take_label. rewrite bind_gets, Hlc.
  apply preserves_bind_at; [|intros; pres]. unfold on_dc, on_dc_at. cbn. right. split; [done|].
  pose proof (fresh_give _ (fresh_synced (r_srv r) (own_net (r_srv r)) _ Hr)) as Hg.
  unfold synced in *. destruct (own_user (r_srv r)); cbn in *; by rewrite Hlc in Hg.
Qed.
Lemma take_label_given r : given tr0 (r_dc r) → rgood (take_label r).1.
Proof.
  intros Hg. pose proof Hg as [_ _ (lc & Hlc & _)]. unfold take_label. rewrite bind_gets, Hlc.
  apply preserves_bind_at; [|intros; pres]. unfold on_dc, on_dc_at. cbn. right. split; [done|].
  pose proof (given_give _ lc Hg Hlc) as [H1 H2 H3].
  unfold synced. destruct (own_user (r_srv r)); by split.
Qed.

Lemma r_send_labeled p m : rkeeps (send_labeled p m).
Proof.
  intros r Hr. unfold send_labeled. rewrite bind_gets.
  destruct (match d_label (r_dc r) with Some _ => _ | None => _ end) eqn:Hc; [done|].
  apply preserves_bind_at; [|intros; pres]. destruct Hr as [Hl|[_ Hg]]; [|by apply take_label_given].
  apply take_label_fresh. destruct Hl as [H1 (tr & lc & Htr & Hlc & Hlb & Hst)]. rewrite Hlc in Hc.
  apply orb_false_iff in Hc as [Hp%bool_decide_eq_false Hbt%bool_decide_eq_false]. apply dec_stable in Hbt.
  destruct (lc_pendingMsg lc) eqn:Hpm; [by destruct Hp|]. rewrite decide_True in Hst by done.
  split; [done|by exists tr|]. exists lc. by rewrite Hlb, Hpm.
Qed.
#[local] Hint Resolve r_send_labeled : pres.

Lemma starts_split names : starts (split_names names).
Proof.
  unfold split_names, drop_label. apply starts_then; [|intros; pres]. apply starts_when.
  apply starts_then; [apply take_label_fresh|intros; pres].
Qed.
Lemma starts_enqueue p m : starts (enqueue p m).
Proof. unfold enqueue. apply starts_then; [apply take_label_fresh|intros; pres]. Qed.

Ltac starts :=
  repeat match goal with
  | |- starts (split_names _ ≫= _) => apply starts_then; [apply starts_split|intros; pres]
  | |- starts (enqueue _ _) => apply starts_enqueue
  | |- starts (match ?x with _ => _ end) => destruct x eqn:?
  | |- starts (let _ := _ in _) => cbv zeta
  | |- starts _ => apply starts_keeps; solve [pres]
  | |- starts (_ ≫= _) => apply starts_bind; [solve [pres]|intros]
  end.

Lemma f_get_network : preserves rfresh get_network.
Proof. apply preserves_gets. Qed.
Lemma f_get_dc : preserves rfresh get_dc.
Proof. apply preserves_gets. Qed.
Lemma f_upstreamForCommand cmd : preserves rfresh (upstreamForCommand cmd).
Proof. unfold upstreamForCommand, get_network. pres. Qed.
Lemma f_get_upstream : preserves rfresh get_upstream.
Proof. unfold get_upstream, get_network. pres. Qed.
#[local] Hint Resolve f_get_network f_get_dc f_upstreamForCommand f_get_upstream : pres.

Lemma starts_LIST m : starts (handle_LIST_dc m).
Proof. unfold handle_LIST_dc. starts. Qed.
Lemma r_end_of_who mask : rkeeps (end_of_who mask).
Proof. apply r_reply. Qed.
#[local] Hint Resolve r_end_of_who : pres.
Lemma starts_WHO m : starts (handle_WHO_dc m).
Proof. unfold handle_WHO_dc, who_self, who_service. starts. Qed.
Lemma starts_WHOIS m : starts (handle_WHOIS_dc m).
Proof. unfold handle_WHOIS_dc, whois_self, whois_service. starts. Qed.
Lemma starts_account m : starts (handle_account_dc m).
Proof. unfold handle_account_dc. starts. Qed.
Lemma starts_NAMES m : starts (handle_NAMES_dc m).
Proof. unfold handle_NAMES_dc. starts. Qed.

Lemma r_store_network record : rkeeps (store_network record).
Proof. unfold store_network. pres. Qed.
Lemma r_for_unbound c : c ≠ FlushBatch → rkeeps (for_unbound c).
Proof. intros Hc. unfold for_unbound. pres. apply uq_uemit. by destruct c. Qed.
Lemma r_change_user f : rkeeps (change_user f).
Proof. unfold change_user. pres. Qed.
Lemma r_store_channel p id ch : rkeeps (store_channel p id ch).
Proof. unfold store_channel. pres. Qed.
#[local] Hint Resolve r_store_network r_change_user r_store_channel : pres.
#[local] Hint Extern 2 (preserves rgood (for_unbound _)) => by apply r_for_unbound : pres.
Lemma r_NICK m : rkeeps (handle_NICK_dc m).
Proof. unfold handle_NICK_dc, save_nick. pres. Qed.
Lemma r_SETNAME m : rkeeps (handle_SETNAME_dc m).
Proof. unfold handle_SETNAME_dc, setname_network. pres. Qed.
Lemma r_join_one p name key : rkeeps (join_one p name key).
Proof. unfold join_one, saved_channel. pres. Qed.
#[local] Hint Resolve r_join_one : pres.
Lemma r_join_all p names keys : rkeeps (join_all p names keys).
Proof. revert keys. induction names as [|n names IH]; intros keys; cbn [join_all]; pres. Qed.
#[local] Hint Resolve r_join_all : pres.
Lemma starts_JOIN m : starts (handle_JOIN_dc m).
Proof. unfold handle_JOIN_dc. starts. Qed.
Lemma r_part_one p reason name : rkeeps (part_one p reason name).
Proof. unfold part_one, saved_channel. pres. apply sq_deleteChannel. Qed.
#[local] Hint Resolve r_part_one : pres.
Lemma starts_PART m : starts (handle_PART_dc m).
Proof. unfold handle_PART_dc. starts. Qed.
Lemma r_pass_through m : rkeeps (pass_through m).
Proof. unfold pass_through. pres. Qed.
#[local] Hint Resolve r_pass_through : pres.
Lemma r_MODE m : rkeeps (handle_MODE_dc m).
Proof. unfold handle_MODE_dc, mode_own. pres. Qed.
Lemma r_TOPIC m : rkeeps (handle_TOPIC_dc m).
Proof. unfold handle_TOPIC_dc. pres. Qed.
Lemma r_INFO m : rkeeps (handle_INFO_dc m).
Proof. unfold handle_INFO_dc. pres. Qed.
Lemma r_other m : rkeeps (handle_other_dc m).
Proof. unfold handle_other_dc. pres. Qed.

Lemma r_run_service text : rkeeps (run_service text).
Proof. unfold run_service. pres. apply sq_text. Qed.
#[local] Hint Resolve r_run_service : pres.
Lemma r_message_upstream m tags name text : rkeeps (message_upstream m tags name text).
Proof. unfold message_upstream, net_now. pres. Qed.
#[local] Hint Resolve r_message_upstream : pres.
Lemma r_message_one m text tags name : rkeeps (message_one m text tags name).
Proof. unfold message_one, broadcast_all. pres. by apply sq_semit. Qed.
Lemma r_message_all m text tags names : rkeeps (message_all m text tags names).
Proof.
  revert tags. induction names as [|n names IH]; intros tags; cbn [message_all]; [pres|].
  apply preserves_bind; [apply r_message_one|intros; apply IH].
Qed.
#[local] Hint Resolve r_message_all : pres.
Lemma starts_message m : starts (handle_message_dc m).
Proof. unfold handle_message_dc. starts. Qed.

Lemma auth_fresh m s : fresh tr0 label s →
  match handleAuthenticate m s with
  | (s', Ok (Some _)) => fresh tr0 label s'
  | (s', _) => lgood b s'
  end.
Proof.
  assert (∀ sasl resp s, fresh tr0 label s →
    match sasl_next sasl resp s with (s', Ok (Some _)) => fresh tr0 label s' | (s', _) => lgood b s' end) as Hnext.
  { intros sasl resp s0 [H1 H2 H3]. unfold sasl_next. rewrite bind_modify.
    set (s1 := set_d_sasl _ s0). assert (fresh tr0 label s1) as Hs1 by by split.
    destruct (st_failed _); [by apply fresh_good|]. destruct (st_done _); [done|].
    match goal with |- context [SendMessage_dc ?x] => pose proof (g_SendMessage x s1 (fresh_good b s1 Hs1)) as Hg;
      unfold mbind, M_bind; destruct (SendMessage_dc x s1) as [s2 [[]|e|w]] end; done. }
  intros Hs. pose proof (g_handleAuthenticate m s (fresh_good b s Hs)) as Hg.
  destruct (handleAuthenticate m s) as [s' [[c|]|e|w]] eqn:Hrun; [|done..].
  unfold handleAuthenticate, resetting_sasl in Hrun. rewrite bind_gets in Hrun.
  destruct (negb _); [done|]. destruct (Params m) as [|arg ps]; [done|]. case_decide; [done|].
  destruct (d_sasl _) as [sasl|]; cbv zeta in Hrun.
  - destruct (_ <? _)%nat; [done|]. rewrite bind_modify in Hrun. destruct (_ =? _)%nat; [done|].
    destruct (DecodeString _) as [resp|]; [|done]. rewrite bind_modify in Hrun.
    match type of Hrun with context [sasl_next ?a ?r ?s0] => specialize (Hnext a r s0); destruct (sasl_next a r s0) as [s2 [[c'|]|e|w]] end; simplify_eq.
    apply Hnext. by destruct Hs.
  - case_decide; [|done].
    match type of Hrun with context [sasl_next ?a ?r ?s0] => specialize (Hnext a r s0); destruct (sasl_next a r s0) as [s2 [[c'|]|e|w]] end; simplify_eq.
    by apply Hnext.
Qed.

(** A change of the network that does nothing else leaves the connection alone. *)
Lemma f_silent p (f : ustate → ustate) : (∀ n, trace (f n) = trace n) → preserves rfresh (own_on_net p (λ _, modify f)).
Proof.
  intros Hf r Hr. unfold own_on_net, on_srv, on_net, on_user. destruct (srv_users (r_srv r) !! re_user) as [s|].
  - unfold on_network. destruct (us_heap s !! p) as [n|]; cbn.
    + by rewrite Hf, drop_all, app_nil_r, drop_all, app_nil_r, drop_all.
    + by rewrite drop_all, app_nil_r, drop_all.
  - cbn. by rewrite drop_all.
Qed.

Lemma starts_AUTHENTICATE m : starts (handle_AUTHENTICATE_dc m).
Proof.
  unfold handle_AUTHENTICATE_dc, sasl_failed, sasl_end. apply starts_bind; [pres|]. intros dc.
  apply starts_bind; [pres|]. intros [[p uc]|]; [|starts]. destruct (negb _); [starts|].
  intros r Hr. unfold mbind at 1, M_bind at 1, on_dc at 1, on_dc_at at 1.
  pose proof (auth_fresh m _ (fresh_synced (r_srv r) (own_net (r_srv r)) _ Hr)) as Ha.
  destruct (handleAuthenticate m _) as [s' [[c|]|e|w]]; [|exact Ha..].
  match goal with |- rgood (?k ?r').1 => enough (starts k) as Hk by exact (Hk r' Ha) end.
  destruct (bool_decide _); [starts|]. case_decide; [|starts].
  destruct (sPlain c) as [plain|]; [|starts]. case_decide; [starts|].
  apply starts_bind; [by apply f_silent|]. intros _. apply starts_enqueue.
Qed.

Lemma starts_table : Forall (λ e : list string * (Message → RM unit), ∀ m, starts (e.2 m)) registered_table.
Proof.
  repeat (constructor; [intros m; cbn [snd];
    first [apply starts_JOIN|apply starts_PART|apply starts_LIST|apply starts_NAMES|apply starts_WHO|apply starts_WHOIS
      |apply starts_message|apply starts_AUTHENTICATE|apply starts_account|apply starts_keeps;
       first [apply r_CAP|apply r_PING|apply r_PONG|apply r_NICK|apply r_SETNAME|apply r_pass_through|apply r_MODE|apply r_TOPIC
        |apply r_AWAY|apply r_INFO|apply r_MONITOR|apply r_METADATA|apply r_CHATHISTORY|apply r_MARKREAD|apply r_SEARCH
        |apply r_CLIENTCERT|apply r_BOUNCER|apply r_WEBPUSH|apply r_USER]]|]).
  constructor.
Qed.

Lemma starts_registered m : starts (handleMessageRegistered m).
Proof.
  unfold handleMessageRegistered. destruct (List.find _ registered_table) as [[cmds h]|] eqn:Hf.
  - apply find_some in Hf as [Hin _]. pose proof starts_table as Ht. rewrite Forall_forall in Ht.
    apply (Ht (cmds, h)). by apply list_elem_of_In.
  - apply starts_keeps, r_other.
Qed.
End keeps.

(** What the client has received when its command is done. *)
Lemma client_answers (b : bool) r r' :
  lgood b (r_dc r) → on_dc FlushBatch_dc r = r' →
  ∃ tr, d_trace (r_dc r'.1) = tr0 ++ tr ∧
    (labelled_response label (lines tr) ∨
     b = true ∧ ∃ lc, d_label (r_dc r) = Some lc ∧ lc_label lc = "" ∧ lc_pendingMsg lc = None ∧ lc_batch lc = "").
Proof.
  intros Hg <-. unfold on_dc, on_dc_at. apply (lgood_synced b (r_srv r) (own_net (r_srv r))) in Hg as Hg'.
  assert (d_label (synced (r_srv r) (own_net (r_srv r)) (r_dc r)) = d_label (r_dc r)) as El
    by (unfold synced; by destruct (own_user (r_srv r))). rewrite <-El. clear Hg El.
  set (s := synced _ _ _) in *. destruct Hg' as [Hl|(Hb & [Hr (tr & Htr) (lc & Hlc & H1 & H2 & H3)])].
  - destruct (flush_answers true tr0 label Hlabel s Hl) as (s' & tr & -> & Htr & _ & Hans). exists tr. cbn. auto.
  - exists tr. unfold FlushBatch_dc. rewrite bind_gets, Hlc, decide_True by done. cbn. split; [done|]. right. eauto 10.
Qed.
End label.

(** C6: A labelled command of a registered client gets exactly one labelled answer. When the
    command is one that the bouncer answers itself (CAP, PING, AWAY, MONITOR, METADATA, the chat
    history, BOUNCER and so on), and it does not end the connection, the lines sent to the
    client are one message with the label, an ACK with the label, or a complete batch that
    carries it, whatever the command makes the server, its users and networks do. Any other
    command gets such an answer, or the label was given away, to a server connection or because
    the command has several targets, and then no part of a labelled answer had been sent: no
    message is held back and no batch is left open. *)
Theorem client_label `{DE : denv} `{UE : uenv} `{SV : svenv} `{RE : renv} `{UnicodeTables} `{HBare : Bare msgIDHeader}
    (m : Message) (label : string) (r : rstate) :
  d_registered (r_dc r) = true → IsEnabled (d_caps (r_dc r)) "labeled-response" = true →
  Tags m !! "label" = Some label → label ≠ "" →
  let r1 := (on_dc (set_label (MkLabel label "" None)) r).1 in
  let r2 := (dispatch_registered m r1).1 in
  ∀ r', handleMessage_registered m r = (r', Ok tt) →
    d_label (r_dc r') = None ∧
    ∃ tr, d_trace (r_dc r') = d_trace (r_dc r) ++ tr ∧
      (labelled_response label (lines tr) ∨
       Command m ∉ local_commands ∧ ∃ lc, d_label (r_dc r2) = Some lc ∧
         lc_label lc = "" ∧ lc_pendingMsg lc = None ∧ lc_batch lc = "").
Proof.
  intros Hreg Hcap Htag Hlabel r1 r2 r'. set (tr0 := d_trace (r_dc r)).
  assert (fresh tr0 label (r_dc r1)) as H1.
  { subst r1. unfold on_dc, on_dc_at, set_label, modify. cbn. unfold synced.
    destruct (own_user (r_srv r)); (split; cbn; [done|exists []; by rewrite app_nil_r|eauto 10]). }
  set (b := bool_decide (Command m ∉ local_commands)).
  assert (lgood tr0 label b (r_dc r2)) as H2.
  { destruct (decide (Command m ∈ local_commands)) as [Hc|Hc].
    - apply (r_local tr0 label Hlabel b m Hc r1). by apply fresh_good.
    - assert (b = true) as Hb by by apply bool_decide_eq_true. apply (dispatch_with tr0 label Hlabel b m (rfresh tr0 label)); [|
        |done]; [by intros r0 Hr0; apply fresh_good|]. intros _ r0 Hr0. by apply (starts_registered tr0 label Hlabel b Hb). }
  unfold handleMessage_registered, get_dc. rewrite bind_gets, Htag, Hcap. cbn [when].
  assert (on_dc (set_label (MkLabel label "" None)) r = (r1, Ok tt)) as E1 by done. rewrite (bind_run _ _ _ _ _ E1).
  unfold finally. unfold mbind at 1, M_bind at 1. subst r2. destruct (dispatch_registered m r1) as [r2 [[]|e|w]]; cbn in H2 |- *; [|done..].
  destruct (on_dc FlushBatch_dc r2) as [r3 x] eqn:E3.
  destruct (client_answers tr0 label Hlabel b r2 _ H2 E3) as (tr & Htr & Hans).
  unfold on_dc, on_dc_at, modify. intros [= <- ->]. cbn. split; [done|]. exists tr. unfold synced.
  destruct (own_user (r_srv r3)); (split; [exact Htr|]); destruct Hans as [Hans|(Hb & Hlc)]; [by left| |by left|];
    right; (split; [by apply bool_decide_eq_true in Hb|done]).
Qed.
