(* ===== verification/ClientExamples.v ===== *)
(** * A client session, evaluated

    A user with one connected network and two clients; what its commands do, and behaviours of
    the commands that are probably not meant. The second part has runs of a user's loop. *)

From S2P Require Import Prelude GoStrings GoUnicode GoStrconv IrcMessage GoFlag Effects CaseMapping Membership Modes WhoX Base64 GenMsg GoTime MsgID Highlight Caps Database Upstream UpstreamHandlers UpstreamInv Downstream DownstreamHandlers DownstreamAuth DownstreamLabel UserNetworks UserNetworksInv ServiceWords Service ServiceSafety ServiceInv NetworkRun DownstreamSession DownstreamCommands DownstreamRequests DownstreamExtensions DownstreamWelcome UserLoop ClientSafety UserLoopInv ClientLabel.

Open Scope string_scope.
Open Scope list_scope.
Open Scope Z_scope.

(** Tags are written [k=v;k=v]. *)
Definition demo_ParseTags (s : string) : gmap string string :=
  list_to_map (omap (λ kv, Cut kv "=") (Split s ";")).
Definition demo_TagsString (m : gmap string string) : string :=
  Join ((λ kv : string * string, kv.1 +:+ "=" +:+ kv.2) <$> map_to_list m) ";".

Definition demo_renv : renv := {|
  re_self := 1; re_user := "alice"; re_env := λ _, demo_env; re_MessageString := Command;
  re_ParseTags := demo_ParseTags; re_TagsString := demo_TagsString;
  re_now := λ _, 1700000000 * nsPerSecond; re_FormatLocal := FormatServerTime; re_errorText := λ _, "";
  re_fsStore := false; re_searchStore := false;
  re_GetMessageTarget := λ _ _ t, inl (MkMessageTarget 1 t true false false); re_StoreMessageTarget := λ _ _ _, None;
  re_GetReadReceipt := λ _ _ _, inl None; re_StoreReadReceipt := λ _ _ _, None;
  re_LastMsgID := λ _ _ _, inl ""; re_history := λ _ _, inr (Errorf "the database is locked");
  re_ListTargets := λ _ _ _ _ _ _, inl []; re_Search := λ _ _ _, inl [];
  re_ListWebPush := λ _ _ _, inl []; re_StoreWebPush := λ _ _ _ _, None; re_DeleteWebPush := λ _ _, None;
  re_SendWebPush := λ _ _ _, None
|}.

#[local] Existing Instances demo_denv demo_uenv demo_svenv demo_renv latin1_tables UnaryCodec.header_bare.

Definition demo_channel (complete : bool) : upstreamChannel :=
  MkUpstreamChannel "#go" "" None 0 "="%char None "" (CMM.New CaseMappingRFC1459) complete None.

(** The network is connected, with the capabilities [caps]; "#go" is joined, and detached if
    [detached]. *)
Definition demo_conn (enabled : list string) (complete detached : bool) : ustate :=
  let n := newConnection demo_network [new_channel "#go" "" detached] in
  set_net_connected true (set_nick "alice" (set_channels (CMM.Set_ (channels n) "#go" (demo_channel complete))
    (set_caps (MkCaps ∅ (list_to_set enabled)) n))).

Definition demo_alice (n : ustate) : userState :=
  MkUserState (MkUser 1 "alice" "" "alice" "Alice" false true 0 (-1)) [0%nat] {[0%nat := n]} 1%nat
    [MkDown 1 (Some 0%nat) true false; MkDown 2 (Some 0%nat) false false] [].

Definition demo_bouncer (n : ustate) : server :=
  MkServer {["alice" := demo_alice n; "bob" := newUserState (MkUser 2 "bob" "" "" "" true true 0 (-1))]} false [] [].

Definition demo_client (enabled : list string) : dstate :=
  set_d_registered true (set_d_nick "alice" (set_d_nickCM "alice"
    (set_d_caps (MkCaps ∅ (list_to_set enabled)) newDownstreamConn))).

Definition demo_session (n : ustate) (ms : list Message) : rstate :=
  client_run ms (MkR (demo_bouncer n) (demo_client [])).

Lemma demo_conn_uwf enabled complete detached : uwf (demo_conn enabled complete detached).
Proof.
  pose proof (newConnection_uwf demo_network [new_channel "#go" "" detached]) as Hn.
  assert (map_ok None (chMembers (demo_channel complete))) as Hc by by apply map_ok_New.
  destruct (keep_put_channel None "#go" _ Hc _ Hn). by split.
Qed.

Lemma demo_alice_ok n : net_record n = demo_network → user_ok (demo_alice n).
Proof.
  intros Hn. split; cbn.
  - split.
    + intros p [x Hp]. apply lookup_singleton_Some in Hp as [<- _]. lia.
    + repeat constructor. by rewrite lookup_singleton_eq.
    + repeat constructor.
    + repeat constructor. unfold rec_of. rewrite lookup_singleton_eq, Hn. done.
    + cbn. unfold rec_of. rewrite lookup_singleton_eq, Hn. repeat constructor. set_solver.
    + repeat constructor; unfold rec_of; rewrite lookup_singleton_eq, Hn; done.
  - intros d p Hd _ Hp. assert (dn_network d = Some 0%nat) as H0 by (repeat (apply elem_of_cons in Hd as [->|Hd]; [done|]); by inversion Hd).
    rewrite H0 in Hp. injection Hp as <-. set_solver.
Qed.

(** Two messages, a broadcast that is refused, a change of the nickname and a command for the
    service; the other user is as before. *)
Definition demo_chat : list Message :=
  [msg "PRIVMSG" ["#go"; "hello"]; msg "PRIVMSG" ["$bouncer.example"; "news"]; msg "NICK" ["al"];
   msg "PRIVMSG" ["BouncerServ"; "user update -nick alice2"]].

Lemma client_confined_witness :
  let r := demo_session (demo_conn [] true false) demo_chat in
  let told := srv_users (r_srv r) !! "alice" in
  (uNick ∘ us_record <$> told, (λ s, nNick (rec_at s 0%nat)) <$> told) = (Some "alice2", Some "al") ∧
  srv_users (r_srv r) !! "bob" = srv_users (demo_bouncer (demo_conn [] true false)) !! "bob".
Proof.
  cbn zeta. split; [vm_compute; reflexivity|]. unfold demo_session.
  apply (client_confined demo_chat (demo_bouncer (demo_conn [] true false)) (demo_client [])
    (demo_alice (demo_conn [] true false)) demo_store_fresh); [reflexivity|reflexivity| | |discriminate].
  - by apply demo_alice_ok.
  - apply map_Forall_singleton. apply demo_conn_uwf.
Defined.

(** ** Behaviours of the commands *)

Definition demo_handle (n : ustate) (enabled : list string) (m : Message) : rstate * res goerr unit :=
  handleMessage_registered m (MkR (demo_bouncer n) (demo_client enabled)).
Definition demo_rec (r : rstate) : dbNetwork := default (NewNetwork "") (net_record <$> heap_net (r_srv r) 0%nat).

(** A labelled METADATA with two keys is answered by one labelled batch. *)
Definition demo_labelled_get : Message :=
  mkMessage {["label" := "L1"]} None "METADATA" ["bob"; "GET"; "soju.im/pinned"; "soju.im/muted"].
Definition demo_get : rstate * res goerr unit :=
  demo_handle (demo_conn [] true false) ["labeled-response"; "message-tags"; "batch"] demo_labelled_get.

Lemma client_label_witness :
  length (lines (d_trace (r_dc demo_get.1))) = 6%nat ∧ labelled_response "L1" (lines (d_trace (r_dc demo_get.1))).
Proof.
  split; [vm_compute; reflexivity|].
  destruct demo_get as [r' o] eqn:Hrun. assert (o = Ok tt) as ->.
  { change o with (r', o).2. rewrite <-Hrun. vm_compute. reflexivity. }
  destruct (client_label demo_labelled_get "L1" (MkR (demo_bouncer (demo_conn [] true false))
    (demo_client ["labeled-response"; "message-tags"; "batch"])) eq_refl eq_refl eq_refl ltac:(discriminate) r' Hrun)
    as (_ & tr & Htr & [Hans|(Hc & _)]).
  - cbn [fst]. rewrite Htr. exact Hans.
  - exfalso. apply Hc. cbv [demo_labelled_get Command local_commands]. repeat (first [by left|right]).
Defined.

(** A command of NickServ that sets something else than the password, such as [SET EMAIL],
    replaces the saved SASL credentials by empty ones. *)
Lemma nickserv_set_wipes_credentials :
  let n := demo_conn [] true false in
  let n := set_net_record (set_nSASL (MkSASL "PLAIN" "alice" "sesame" None None) (net_record n)) n in
  let '(r, o) := demo_handle n [] (msg "PRIVMSG" ["NickServ"; "SET EMAIL a@example.org"]) in
  o = Ok tt ∧ nSASL (demo_rec r) = MkSASL "PLAIN" "" "" None None.
Proof. by vm_compute. Qed.

(** A client that joins a detached channel whose member list has not arrived yet ends the
    event loop of its user. *)
Lemma join_partial_channel_panics :
  (demo_handle (demo_conn [] false true) [] (msg "JOIN" ["#go"])).2 = Panic "Tried to forward a partial channel".
Proof. by vm_compute. Qed.

(** The networks written to the database, by their nickname and real name. *)
Definition stored (tr : list saction) : list (string * string) :=
  omap (λ a, match a with SUser _ (UStoreNetwork n) => Some (nNick n, nRealname n) | _ => None end) tr.

(** The real name of a SETNAME that the server handles is stored but not kept in memory, and a
    later change of the nickname stores the old one again. *)
Lemma setname_lost :
  let r := demo_session (demo_conn ["setname"] true false) [msg "SETNAME" ["Alice B."]; msg "NICK" ["al"]] in
  stored (srv_trace (r_srv r)) = [("", "Alice B."); ("al", "")].
Proof. by vm_compute. Qed.

(** An invalid value of a metadata key is refused and yet clears the key. *)
Lemma metadata_invalid_value_clears :
  let '(r, o) := demo_handle (demo_conn [] true false) [] (msg "METADATA" ["bob"; "SET"; "soju.im/pinned"; "maybe"]) in
  o = Ok tt ∧ d_trace (r_dc r) =
    [DGetMessageTarget 1 "bob"; DSend (msg "FAIL" ["METADATA"; "VALUE_INVALID"; "Invalid value"]);
     DStoreMessageTarget 1 (MkMessageTarget 1 "bob" false false false)].
Proof. by vm_compute. Qed.

(** CHATHISTORY AROUND answers an error of the store with an empty history. *)
Lemma around_hides_errors `{DE : denv} `{RE : renv} netID target bound limit events e r :
  re_history (d_trace (r_dc r)) (LoadBeforeTime_call netID target bound zeroTime (limit - limit / 2) events) = inr e →
  (load_around netID target bound limit events r).2 = Ok [].
Proof.
  intros Hh. unfold load_around, load, history_call, on_dc, on_dc_at, dcall, mbind, M_bind, gets, demit, modify. cbn zeta.
  unfold synced. destruct (own_user (r_srv r)); cbn in *; by rewrite Hh.
Qed.

(** Without echo-message the copy made for the other clients carries the label of the message
    sent to the server. *)
Lemma echo_leaks_label :
  let '(r, _) := demo_handle (demo_conn ["labeled-response"; "message-tags"] true false) [] (msg "PRIVMSG" ["#go"; "hi"]) in
  omap (λ a, match a with SUser _ (UNet _ (ToDownstream id (sendMessageWithID m _))) => Some (id, tag m "label") | _ => None end)
    (srv_trace (r_srv r)) = [(2, "sd-1-0-")].
Proof. by vm_compute. Qed.

(** A message of a client to itself on the bouncer connection keeps all its tags: sent to
    itself twice in one command, for which the label is dropped, it comes back with the label
    both times. *)
Definition demo_unbound : server :=
  MkServer {["alice" := MkUserState (MkUser 1 "alice" "" "alice" "Alice" false true 0 (-1)) [] ∅ 1%nat
    [MkDown 1 None true false] []]} false [] [].
Lemma self_message_label_twice :
  let m := mkMessage {["label" := "L1"]} None "PRIVMSG" ["alice,alice"; "note"] in
  let r := (handleMessage_registered m (MkR demo_unbound (demo_client ["labeled-response"; "message-tags"; "batch"]))).1 in
  (λ m, (tag m "label", Params m)) <$> lines (d_trace (r_dc r)) = [("L1", ["alice"; "note"]); ("L1", ["alice"; "note"])].
Proof. by vm_compute. Qed.

(** * A user's goroutine at work

    Two networks are loaded from the database, one of them connects, two clients of the user
    attach, and everybody talks. *)

Definition demo_rows : list dbNetwork :=
  [MkNetwork 7 "libera" "irc.libera.example" "" "" "" "" [] "" emptySASL true true;
   MkNetwork 3 "" "irc.example.org" "" "" "" "" [] "" emptySASL true true].

Definition demo_lenv : lenv := {|
  le_user := "alice"; le_conn := λ _, demo_denv; le_MOTD := ""; le_enableUsersOnAuth := false; le_persistentStore := true;
  le_ParseMessage := λ _, None; le_now := λ _, 1700000000 * nsPerSecond;
  le_ListNetworks := λ _, inl demo_rows;
  le_ListChannels := λ id, inl (if decide (id = 3) then [new_channel "#go" "" false] else []);
  le_ListDeliveryReceipts := λ _, inl []
|}.

#[local] Existing Instances demo_uenv demo_svenv demo_renv demo_lenv latin1_tables UnaryCodec.header_bare.

(** A client that has registered for the network "irc.example.org". *)
Definition demo_registered (clientName : string) : dstate :=
  set_d_registered true (set_d_clientName clientName (set_d_registration
    (MkReg "alice" "alice" "" "irc.example.org" 0 false "alice") (newDownstreamConn (DE:=demo_denv)))).

Definition demo_loop : loop :=
  MkLoop (MkServer {["alice" := newUserState (MkUser 1 "alice" "" "alice" "Alice" false true 0 (-1));
                     "bob" := newUserState (MkUser 2 "bob" "" "" "" true true 0 (-1))]} false [] []) ∅ [].

Definition demo_events : list event :=
  [eventUpstreamConnected 0 [Some (msg RPL_WELCOME ["alice"; "hi"])];
   eventUpstreamMessage 0 false (msg_from (mkPrefix "alice" "a" "h") "JOIN" ["#go"]);
   eventUpstreamMessage 0 false (msg RPL_ENDOFNAMES ["alice"; "#go"; "End of /NAMES list"]);
   eventDownstreamConnected 1 (demo_registered "phone");
   eventDownstreamConnected 2 (demo_registered "desktop");
   eventUpstreamMessage 0 false (msg_from (mkPrefix "bob" "b" "h") "PRIVMSG" ["#go"; "hello"]);
   eventDownstreamMessage 1 (msg "PRIVMSG" ["#go"; "hi bob"]);
   eventDownstreamDisconnected 2].

(** What the client [id] was sent. *)
Definition demo_lines (l : loop) (id : Z) : list (string * list string) :=
  match lp_dcs l !! id with
  | Some dc => (λ m, (Command m, Params m)) <$> lines (d_trace dc)
  | None => []
  end.

Lemma demo_rows_ok : rows_ok demo_rows.
Proof.
  split.
  - cbn. repeat (apply NoDup_cons; split; [set_solver|]). apply NoDup_nil_2.
  - by repeat constructor.
  - vm_compute. repeat (apply NoDup_cons; split; [set_solver|]). apply NoDup_nil_2.
  - by repeat constructor.
Qed.

(** The networks are in the order of their IDs, and what bob says reaches the client that is
    still there once. *)
Lemma user_loop_healthy_witness :
  let o := user_goroutine demo_events demo_loop in
  o.2 = true ∧ stored_ids <$> srv_users (lp_srv o.1) !! "alice" = Some [3; 7] ∧
  filter (λ x, x.1 = "PRIVMSG") (demo_lines o.1 1) = [("PRIVMSG", ["#go"; "hello"])] ∧
  ∀ name u, srv_users (lp_srv o.1) !! name = Some u → user_ok u ∧ nets_wf u.
Proof.
  cbn zeta. split_and!; [vm_compute; reflexivity..|].
  apply (user_loop_healthy demo_events demo_loop (newUserState (MkUser 1 "alice" "" "alice" "Alice" false true 0 (-1)))
    demo_store_fresh).
  - intros rows [= <-]. apply demo_rows_ok.
  - apply map_Forall_insert_2; [apply healthy_new|]. apply map_Forall_singleton, healthy_new.
  - reflexivity.
  - reflexivity.
  - reflexivity.
Defined.

(** ** A server that crashes the bouncer

    A message with an empty source nickname reaches [cacheUserInfo], which panics. Before the
    registration this happens in the goroutine of the network, which does not recover. *)
Lemma empty_source_panics :
  let m := msg_from (mkPrefix "" "u" "h") "ACCOUNT" ["x"] in
  (user_goroutine [eventUpstreamConnected 0 [Some m]] demo_loop).2 = false.
Proof. by vm_compute. Qed.
