(* ===== verification/GoOs.v ===== *)
(** * The file system (the parts of packages os and path/filepath the repository uses)

    A tree of directories whose leaves name inodes: a file that is open stays the same file
    when a directory above it is renamed or when it is removed. Entries are in the order of
    their names, which is the order of [filepath.WalkDir] and [os.ReadDir]. Faults of the
    operating system (permissions, devices) are a parameter. *)

From S2P Require Import Prelude GoStrings IrcMessage GenMsg.

Open Scope string_scope.
Open Scope list_scope.

(** The names on a path, and an inode number. *)
Definition Path := list string.
Definition Ino := nat.

Inductive node :=
| FFile (ino : Ino)
| FDir (entries : list (string * node)).

(** Errors of system calls; [EIO] stands for every fault. *)
Inductive errno := ENOENT | ENOTDIR | EEXIST | EISDIR | EIO.
#[export] Instance errno_eq_dec : EqDecision errno.
Proof. solve_decision. Defined.

Definition os_error (e : errno) : goerr :=
  Errorf match e with
  | ENOENT => "no such file or directory" | ENOTDIR => "not a directory" | EEXIST => "file exists"
  | EISDIR => "is a directory" | EIO => "input/output error"
  end.

(** Which system call on which path fails. *)
Inductive os_op := OpStat | OpOpen | OpCreate | OpMkdir | OpReaddir | OpRemove | OpRename | OpWrite | OpSeek.
Class OsFaults := os_fault : os_op → Path → bool.
Definition no_faults : OsFaults := λ _ _, false.

(** ** Trees *)

Section entries.
Implicit Types es : list (string * node).

Fixpoint entry (name : string) es : option node :=
  match es with
  | [] => None
  | (k, n) :: es' => if decide (k = name) then Some n else entry name es'
  end.

(** Replaces the entry or adds it in its place. *)
Fixpoint set_entry (name : string) (x : node) es : list (string * node) :=
  match es with
  | [] => [(name, x)]
  | (k, n) :: es' =>
    if decide (k = name) then (name, x) :: es'
    else if str_leb name k then (name, x) :: es else (k, n) :: set_entry name x es'
  end.

Definition del_entry (name : string) es : list (string * node) := filter (λ e, e.1 ≠ name) es.

(** Names in order, without repetitions, down to the leaves. *)
Definition names es : list string := fst <$> es.
End entries.

(** The node at a path. *)
Fixpoint lookup_node (n : node) (p : Path) : node + errno :=
  match p with
  | [] => inl n
  | c :: p' =>
    match n with
    | FFile _ => inr ENOTDIR
    | FDir es => match entry c es with Some n' => lookup_node n' p' | None => inr ENOENT end
    end
  end.

(** The tree with another node at a path whose directory exists. *)
Fixpoint put_node (n : node) (p : Path) (x : node) : node + errno :=
  match p with
  | [] => inl x
  | c :: p' =>
    match n with
    | FFile _ => inr ENOTDIR
    | FDir es =>
      match p', entry c es with
      | [], _ => inl (FDir (set_entry c x es))
      | _, None => inr ENOENT
      | _, Some n' => match put_node n' p' x with inl n'' => inl (FDir (set_entry c n'' es)) | inr e => inr e end
      end
    end
  end.

(** The tree without the entry at a path. *)
Fixpoint cut_node (n : node) (p : Path) : node :=
  match p, n with
  | [c], FDir es => FDir (del_entry c es)
  | c :: p', FDir es => match entry c es with Some n' => FDir (set_entry c (cut_node n' p') es) | None => n end
  | _, _ => n
  end.

(** [os.MkdirAll] *)
Fixpoint mkdir_all (n : node) (p : Path) : node + errno :=
  match n, p with
  | FFile _, _ => inr ENOTDIR
  | FDir _, [] => inl n
  | FDir es, c :: p' =>
    match mkdir_all (default (FDir []) (entry c es)) p' with
    | inl n' => inl (FDir (set_entry c n' es))
    | inr e => inr e
    end
  end.

(** ** The operating system *)

Record inode := MkInode { i_data : string; i_mtime : Z }.

Record os := MkOs {
  os_tree : node;
  os_inodes : gmap Ino inode;
  os_next : Ino
}.

Definition inode_at (o : os) (i : Ino) : inode := default (MkInode "" 0) (os_inodes o !! i).

Section ops.
Context `{OsFaults}.

Definition os_Stat (o : os) (p : Path) : node + errno :=
  if os_fault OpStat p then inr EIO else lookup_node (os_tree o) p.

(** [os.Open] of a file; the contents are read from its inode. *)
Definition os_Open (o : os) (p : Path) : node + errno :=
  if os_fault OpOpen p then inr EIO else lookup_node (os_tree o) p.

Definition os_MkdirAll (p : Path) (o : os) : os + errno :=
  if os_fault OpMkdir p then inr EIO
  else match mkdir_all (os_tree o) p with
       | inl t => inl (MkOs t (os_inodes o) (os_next o))
       | inr e => inr e
       end.

(** [os.OpenFile] with [O_RDWR|O_CREATE|O_APPEND] *)
Definition os_OpenAppend (now : Z) (p : Path) (o : os) : (os * Ino) + errno :=
  if os_fault OpCreate p then inr EIO
  else match lookup_node (os_tree o) p with
       | inl (FFile i) => inl (o, i)
       | inl (FDir _) => inr EISDIR
       | inr ENOENT =>
         match put_node (os_tree o) p (FFile (os_next o)) with
         | inl t => inl (MkOs t (<[os_next o := MkInode "" now]> (os_inodes o)) (S (os_next o)), os_next o)
         | inr e => inr e
         end
       | inr e => inr e
       end.

(** A write to a file opened for appending. *)
Definition os_write (now : Z) (i : Ino) (data : string) (o : os) : os :=
  MkOs (os_tree o) (<[i := MkInode (i_data (inode_at o i) +:+ data) now]> (os_inodes o)) (os_next o).

(** [os.Rename] of a directory to a path that does not exist. *)
Definition os_Rename (old new : Path) (o : os) : os + errno :=
  if os_fault OpRename old then inr EIO
  else match lookup_node (os_tree o) old with
       | inr e => inr e
       | inl n =>
         match put_node (cut_node (os_tree o) old) new n with
         | inl t => inl (MkOs t (os_inodes o) (os_next o))
         | inr e => inr e
         end
       end.
End ops.

(** ** Lookup laws *)

Lemma entry_set_eq name x es : entry name (set_entry name x es) = Some x.
Proof.
  induction es as [|[k n] es IH]; cbn; [by rewrite decide_True|].
  repeat case_decide; cbn; [by rewrite decide_True|]. destruct (str_leb name k); cbn; [by rewrite decide_True|].
  by rewrite decide_False.
Qed.

Lemma entry_set_ne name name' x es : name ≠ name' → entry name' (set_entry name x es) = entry name' es.
Proof.
  intros Hne. induction es as [|[k n] es IH]; cbn; [by rewrite decide_False|].
  case_decide; subst; cbn; [by rewrite !decide_False|]. destruct (str_leb name k); cbn; [by rewrite decide_False|].
  case_decide; [done|apply IH].
Qed.

Lemma lookup_mkdir_all n p n' : mkdir_all n p = inl n' → ∃ es, lookup_node n' p = inl (FDir es).
Proof.
  revert n n'. induction p as [|c p IH]; intros [i|es] n'; cbn; try done; [intros [= <-]; eauto|].
  destruct (mkdir_all _ p) as [m|e] eqn:E; [|done]. intros [= <-]. rewrite entry_set_eq. by eapply IH.
Qed.

(** Making directories moves no file. *)
Lemma lookup_mkdir_file n p n' q i : mkdir_all n p = inl n' → lookup_node n q = inl (FFile i) → lookup_node n' q = inl (FFile i).
Proof.
  revert n n' q. induction p as [|c p IH]; intros [j|es] n' q; cbn [mkdir_all]; try done; [by intros [= <-]|].
  destruct (mkdir_all _ p) as [m|e] eqn:E; [|done]. intros [= <-]. destruct q as [|d q]; cbn [lookup_node]; [done|].
  destruct (decide (c = d)) as [->|Hne]; [|by rewrite entry_set_ne].
  rewrite entry_set_eq. destruct (entry d es) as [k|]; [|done]. by apply (IH _ _ _ E).
Qed.

Lemma lookup_mkdir_new n p n' q i : mkdir_all n p = inl n' → lookup_node n' q = inl (FFile i) → lookup_node n q = inl (FFile i).
Proof.
  revert n n' q. induction p as [|c p IH]; intros [j|es] n' q; cbn [mkdir_all]; try done; [by intros [= <-]|].
  destruct (mkdir_all _ p) as [m|e] eqn:E; [|done]. intros [= <-]. destruct q as [|d q]; cbn [lookup_node]; [done|].
  destruct (decide (c = d)) as [->|Hne]; [|by rewrite entry_set_ne].
  rewrite entry_set_eq. intros Hq. specialize (IH _ _ _ E Hq). destruct (entry d es) as [k|]; [done|].
  by destruct q.
Qed.

Lemma lookup_put_eq n p x n' : put_node n p x = inl n' → lookup_node n' p = inl x.
Proof.
  revert n n'. induction p as [|c p IH]; intros n n'; cbn; [by intros [= <-]|]. destruct n as [i|es]; [done|].
  destruct p as [|d p]; [intros [= <-]; cbn; by rewrite entry_set_eq|].
  destruct (entry c es) as [m|]; [|done]. destruct (put_node m (d :: p) x) as [m'|e] eqn:E; [|done].
  intros [= <-]. rewrite entry_set_eq. by eapply IH.
Qed.

(** Another file is where it was, unless the new node is above it. *)
Lemma lookup_put_ne n p x n' q : put_node n p x = inl n' → ¬ p `prefix_of` q → ¬ q `prefix_of` p → lookup_node n' q = lookup_node n q.
Proof.
  revert n n' q. induction p as [|c p IH]; intros n n' q Hput Hpq Hqp; [destruct Hpq; apply prefix_nil|].
  destruct n as [i|es]; [done|]. cbn [put_node] in Hput. destruct q as [|d q]; [destruct Hqp; apply prefix_nil|]. cbn [lookup_node].
  destruct p as [|c' p].
  { injection Hput as <-. cbn. rewrite entry_set_ne; [done|]. intros ->. destruct Hpq. by apply prefix_cons, prefix_nil. }
  destruct (entry c es) as [m|] eqn:Ec; [|done]. destruct (put_node m (c' :: p) x) as [m'|e] eqn:E; [|done].
  injection Hput as <-. cbn. destruct (decide (c = d)) as [->|Hcd]; [|by rewrite entry_set_ne].
  rewrite entry_set_eq, Ec. apply (IH _ _ _ E); intros ?; [apply Hpq|apply Hqp]; by apply prefix_cons.
Qed.
