(* ===== verification/ZncLog.v ===== *)
(** * Log lines in the ZNC format (msgstore/znclog)

    [MarshalLine] prints a message as a line of a log file and [UnmarshalLine] reads it back.
    The time zone is the one of the class [zone]. *)

From S2P Require Import Prelude GoStrings GoUnicode IrcMessage GenMsg Database GoTime.

Open Scope string_scope.
Open Scope list_scope.
Open Scope Z_scope.

(** ** Writing *)

Definition soh : string := String (ascii_of_nat 1) "".

Section write.
Context `{UnicodeTables} `{TZ : zone}.

Definition prefix_name (m : Message) : string := match MPrefix m with Some p => Name p | None => "" end.
Definition prefix_mask (m : Message) : string :=
  match MPrefix m with Some p => "(" +:+ User p +:+ "@" +:+ Host p +:+ ")" | None => "(@)" end.

(** The parameter [i], or nothing when it is missing. *)
Definition opt_param (m : Message) (i : nat) : string := default "" (Params m !! i).

(** [formatMessage]: a message without the prefix or a parameter the code uses is a panic. *)
Definition formatMessage (m : Message) : res goerr string :=
  let with_prefix (s : res goerr string) : res goerr string :=
    match MPrefix m with Some _ => s | None => Panic "nil pointer dereference" end in
  let with_param (i : nat) (k : string → res goerr string) : res goerr string :=
    match Params m !! i with Some p => k p | None => Panic "index out of range" end in
  let cmd := ToUpper (Command m) in
  if decide (cmd = "NICK") then
    with_prefix (with_param 0%nat (λ p, Ok ("*** " +:+ prefix_name m +:+ " is now known as " +:+ p)))
  else if decide (cmd = "JOIN") then with_prefix (Ok ("*** Joins: " +:+ prefix_name m +:+ " " +:+ prefix_mask m))
  else if decide (cmd = "PART") then
    with_prefix (Ok ("*** Parts: " +:+ prefix_name m +:+ " " +:+ prefix_mask m +:+ " (" +:+ opt_param m 1 +:+ ")"))
  else if decide (cmd = "KICK") then
    with_param 1%nat (λ nick,
      with_prefix (Ok ("*** " +:+ nick +:+ " was kicked by " +:+ prefix_name m +:+ " (" +:+ opt_param m 2 +:+ ")")))
  else if decide (cmd = "QUIT") then
    with_prefix (Ok ("*** Quits: " +:+ prefix_name m +:+ " " +:+ prefix_mask m +:+ " (" +:+ opt_param m 0 +:+ ")"))
  else if decide (cmd = "TOPIC") then
    with_prefix (Ok ("*** " +:+ prefix_name m +:+ " changes topic to '" +:+ opt_param m 1 +:+ "'"))
  else if decide (cmd = "MODE") then
    with_prefix (match Params m with
      | [] => Panic "slice bounds out of range"
      | _ :: modes => Ok ("*** " +:+ prefix_name m +:+ " sets mode: " +:+ Join modes " ")
      end)
  else if decide (cmd = "NOTICE") then with_prefix (with_param 1%nat (λ text, Ok ("-" +:+ prefix_name m +:+ "- " +:+ text)))
  else if decide (cmd = "PRIVMSG") then
    match ParseCTCPMessage m with
    | Some ("ACTION", params) => with_prefix (Ok ("* " +:+ prefix_name m +:+ " " +:+ params))
    | _ => with_prefix (with_param 1%nat (λ text, Ok ("<" +:+ prefix_name m +:+ "> " +:+ text)))
    end
  else Ok "".

Definition MarshalLine (m : Message) (t : Z) : res goerr string :=
  s ← formatMessage m;
  if decide (s = "") then Ok ""
  else
    let c := clock_of t in
    Ok ("[" +:+ Format02 (c / 3600) +:+ ":" +:+ Format02 (c / 60 mod 60) +:+ ":" +:+ Format02 (c mod 60) +:+ "] " +:+ s).

(** ** Reading *)

(** [%02d] of [fmt.Sscanf]: spaces, then at most two runes of a number. *)
Fixpoint skip_spaces (rs : list Z) : list Z :=
  match rs with r :: rs' => if IsSpace r then skip_spaces rs' else rs | [] => [] end.

Definition is_digit_rune (r : Z) : bool := in_range 48 57 r.

Definition scan_digits (width : nat) (rs : list Z) : option (Z * list Z) :=
  match rs with
  | d1 :: rest =>
    if is_digit_rune d1 then
      match width, rest with
      | 2%nat, d2 :: rest' => if is_digit_rune d2 then Some (10 * (d1 - 48) + (d2 - 48), rest') else Some (d1 - 48, rest)
      | _, _ => Some (d1 - 48, rest)
      end
    else None
  | [] => None
  end.

Definition scan_02d (rs : list Z) : option (Z * list Z) :=
  match skip_spaces rs with
  | 45 :: rest => '(v, rest) ← scan_digits 1 rest; Some (- v, rest)
  | 43 :: rest => scan_digits 1 rest
  | rest => scan_digits 2 rest
  end.

Definition scan_rune (c : Z) (rs : list Z) : option (list Z) :=
  match rs with r :: rest => if r =? c then Some rest else None | [] => None end.

(** [fmt.Sscanf(line, "[%02d:%02d:%02d] ")] *)
Definition scan_timestamp (line : string) : option (Z * Z * Z) :=
  rs ← scan_rune 91 (runes line);
  '(hour, rs) ← scan_02d rs;
  rs ← scan_rune 58 rs;
  '(minute, rs) ← scan_02d rs;
  rs ← scan_rune 58 rs;
  '(second, rs) ← scan_02d rs;
  rs ← scan_rune 93 rs;
  match rs with
  | [] => Some (hour, minute, second)
  | r :: _ => if IsSpace r then Some (hour, minute, second) else None
  end.

Definition timestampPrefixLen : nat := 11.

(** What [UnmarshalLine] finds in a line: a message without its time, or nothing. *)
Definition parsed := option (Prefix * string * list string).

Definition trim_parens (s : string) : string := TrimSuffix (TrimPrefix s "(") ")".

Definition opt_reason (reason : string) : list string := if decide (reason = "") then [] else [reason].

Definition parse_presence (kind rest entity : string) : parsed :=
  let args := SplitN rest " " 3 in
  match args with
  | nick :: mask :: more =>
    match SplitN (trim_parens mask) "@" 2 with
    | [user; host] =>
      let reason := match more with r :: _ => trim_parens r | [] => "" end in
      let prefix := mkPrefix nick user host in
      if decide (kind = "Joins:") then Some (prefix, "JOIN", [entity])
      else if decide (kind = "Parts:") then Some (prefix, "PART", entity :: opt_reason reason)
      else Some (prefix, "QUIT", opt_reason reason)
    | _ => None
    end
  | _ => None
  end.

(** [strings.TrimPrefix(s, p)] that says whether it did something. *)
Definition strip (s p : string) : option string :=
  if decide (TrimPrefix s p = s) then None else Some (TrimPrefix s p).

Definition parse_event (line entity : string) : parsed :=
  match SplitN line " " 2 with
  | [head; rest] =>
    if decide (head ∈ ["Joins:"; "Parts:"; "Quits:"]) then parse_presence head rest entity
    else
      match strip rest "is now known as " with
      | Some r => Some (mkPrefix head "" "", "NICK", [r])
      | None =>
        match strip rest "was kicked by " with
        | Some r =>
          match SplitN r " " 2 with
          | [op; reason] => Some (mkPrefix op "" "", "KICK", entity :: head :: opt_reason (trim_parens reason))
          | _ => None
          end
        | None =>
          match strip rest "changes topic to " with
          | Some r => Some (mkPrefix head "" "", "TOPIC", [entity; TrimSuffix (TrimPrefix r "'") "'"])
          | None =>
            match strip rest "sets mode: " with
            | Some r => Some (mkPrefix head "" "", "MODE", entity :: Split r " ")
            | None => None
            end
          end
        end
      end
  | _ => None
  end.

(** The command, the sender and the text of a message line. *)
Definition parse_text (line : string) : option (string * string * string) :=
  if HasPrefix line "<" then
    match SplitN (str_drop 1 line) "> " 2 with [sender; text] => Some ("PRIVMSG", sender, text) | _ => None end
  else if HasPrefix line "-" then
    match SplitN (str_drop 1 line) "- " 2 with [sender; text] => Some ("NOTICE", sender, text) | _ => None end
  else if HasPrefix line "* " then
    match SplitN (str_drop 2 line) " " 2 with
    | [sender; text] => Some ("PRIVMSG", sender, soh +:+ "ACTION " +:+ text +:+ soh)
    | _ => None
    end
  else None.

Definition parse_body (line : string) (user : dbUser) (network : dbNetwork) (entity : string) (events : bool) : parsed :=
  if events && HasPrefix line "*** " then parse_event (str_drop 4 line) entity
  else
    '(cmd, sender, text) ← parse_text line;
    let target := if decide (entity = sender) then GetNick user (Some network) else entity in
    Some (mkPrefix sender "" "", cmd, [target; text]).

(** [UnmarshalLine]; [None] stands for a line that is skipped. *)
Definition UnmarshalLine (line : string) (user : dbUser) (network : dbNetwork) (entity : string) (ref : Z) (events : bool) :
    res goerr (option (Message * Z)) :=
  match scan_timestamp line with
  | None => Err (Errorf "malformed timestamp prefix: %v")
  | Some (hour, minute, second) =>
    if (slen line <? timestampPrefixLen)%nat then Err (Errorf "malformed timestamp prefix: too short")
    else
      match parse_body (str_drop timestampPrefixLen line) user network entity events with
      | None => Ok None
      | Some (prefix, cmd, params) =>
        let t := wall (date_of ref) (3600 * hour + 60 * minute + second) in
        Ok (Some (mkMessage {["time" := FormatServerTime t]} (Some prefix) cmd params, t))
      end
  end.
End write.

(** ** Reading back what was written *)

(** A word: nothing the format separates with spaces holds one. *)
Definition token (s : string) : Prop := str_mem " "%char s = false.

Lemma token_app a b : token a → token b → token (a +:+ b).
Proof. unfold token. induction a as [|c a IH]; [done|]. cbn. intros [-> Ha]%orb_false_iff Hb. auto. Qed.

Lemma SplitN_char c a b : str_mem c a = false → SplitN (a +:+ String c b) (String c "") 2 = [a; b].
Proof. intros Ha. unfold SplitN. cbn [Nat.sub split_upto]. by rewrite Cut_char_app. Qed.

Lemma SplitN_space a b : token a → SplitN (a +:+ " " +:+ b) " " 2 = [a; b].
Proof. apply SplitN_char. Qed.

Lemma SplitN_space_3 a b c : token a → token b → SplitN (a +:+ " " +:+ b +:+ " " +:+ c) " " 3 = [a; b; c].
Proof.
  intros Ha Hb. unfold SplitN. cbn [Nat.sub split_upto].
  change (" " +:+ b +:+ " " +:+ c) with (String " " (b +:+ " " +:+ c)). rewrite Cut_char_app by done.
  change (" " +:+ c) with (String " " c). by rewrite Cut_char_app.
Qed.
Lemma SplitN_space_3' a b : token a → token b → SplitN (a +:+ " " +:+ b) " " 3 = [a; b].
Proof.
  intros Ha Hb. unfold SplitN. cbn [Nat.sub split_upto]. change (" " +:+ b) with (String " " b).
  rewrite Cut_char_app by done. by rewrite Cut_char_none.
Qed.

(** A separator that ends with a space is not found inside a word. *)
Lemma Cut_word_sep x a b :
  x ≠ " "%char → token a → Cut (a +:+ String x (String " " b)) (String x " ") = Some (a, b).
Proof.
  intros Hx. induction a as [|d a IH]; intros Ha.
  - cbn. unfold HasPrefix. cbn. destruct (ascii_dec x x); [|done]. by destruct b.
  - cbn in Ha. apply orb_false_iff in Ha as [Hd Ha]. apply bool_decide_eq_false in Hd.
    assert (HasPrefix (String d (a +:+ String x (String " " b))) (String x " ") = false) as Hp.
    { destruct (HasPrefix _ _) eqn:E; [|done]. apply HasPrefix_spec in E as [r Hr]. cbn in Hr. injection Hr as _ Hr.
      destruct a as [|e a]; cbn in Hr; injection Hr as Hr _; [done|]. cbn in Ha. apply orb_false_iff in Ha as [He _].
      apply bool_decide_eq_false in He. congruence. }
    cbn [String.app String.append Cut]. rewrite Hp, IH by done. done.
Qed.

Lemma SplitN_word_sep x a b :
  x ≠ " "%char → token a → SplitN (a +:+ String x (String " " b)) (String x " ") 2 = [a; b].
Proof. intros Hx Ha. unfold SplitN. cbn [Nat.sub split_upto]. by rewrite Cut_word_sep. Qed.

Lemma trim_parens_back s : trim_parens ("(" +:+ s +:+ ")") = s.
Proof. unfold trim_parens. by rewrite TrimPrefix_app, TrimSuffix_app. Qed.

Lemma strip_back p r : p ≠ "" → strip (p +:+ r) p = Some r.
Proof.
  intros Hp. unfold strip. rewrite TrimPrefix_app. rewrite decide_False; [done|].
  intros He. apply (f_equal slen) in He. rewrite slen_app in He. destruct p; [done|]. cbn in He. lia.
Qed.

Lemma strip_other s p : HasPrefix s p = false → strip s p = None.
Proof. intros Hp. unfold strip, TrimPrefix. rewrite Hp. by rewrite decide_True. Qed.

(** *** The time *)

Lemma runes_cons_ascii c s : byte_val c < RuneSelf → runes (String c s) = byte_val c :: runes s.
Proof. intros Hc. unfold runes. cbn [slen runes_go]. by rewrite DecodeRune_ascii. Qed.

Lemma scan_02d_back z rs : 0 ≤ z < 100 → scan_02d (byte_val (digit_of (z / 10)) :: byte_val (digit_of (z mod 10)) :: rs) = Some (z, rs).
Proof.
  intros Hz. assert (0 ≤ z / 10 < 10 ∧ 0 ≤ z mod 10 < 10) as [H1 H2] by (Z.to_euclidean_division_equations; lia).
  rewrite !digit_of_val by done. unfold scan_02d. cbn [skip_spaces].
  assert (∀ a, 0 ≤ a < 10 → IsSpace (a + 48) = false ∧ is_digit_rune (a + 48) = true) as Hd.
  { intros a Ha. unfold IsSpace, is_digit_rune, in_range. repeat case_match; bool_to_prop; split; try lia; done. }
  destruct (Hd _ H1) as [-> Hd1]. destruct (Hd _ H2) as [_ Hd2].
  assert (∃ p, z / 10 + 48 = Zpos p ∧ (48 ≤ p)%positive) as (p & Hp & Hp48).
  { exists (Z.to_pos (z / 10 + 48)). split; lia. }
  assert (scan_digits 2 (z / 10 + 48 :: z mod 10 + 48 :: rs) = Some (z, rs)) as Hs.
  { unfold scan_digits. rewrite Hd1, Hd2. f_equal. f_equal. Z.to_euclidean_division_equations. lia. }
  destruct (z / 10 + 48) as [|q|q] eqn:Hq; [done| |done]. injection Hp as ->.
  destruct p as [p|p|]; try done; destruct p as [p|p|]; try done; destruct p as [p|p|]; try done;
    destruct p as [p|p|]; try done; destruct p as [p|p|]; try done; destruct p as [p|p|]; try done; lia.
Qed.

Lemma scan_timestamp_back h m s body :
  0 ≤ h < 100 → 0 ≤ m < 100 → 0 ≤ s < 100 →
  scan_timestamp ("[" +:+ Format02 h +:+ ":" +:+ Format02 m +:+ ":" +:+ Format02 s +:+ "] " +:+ body) = Some (h, m, s).
Proof.
  intros Hh Hm Hs. unfold scan_timestamp, Format02. cbn [String.app String.append].
  assert (∀ z, 0 ≤ z < 100 → byte_val (digit_of (z / 10)) < RuneSelf ∧ byte_val (digit_of (z mod 10)) < RuneSelf) as Hd.
  { intros z Hz. rewrite !digit_of_val by (Z.to_euclidean_division_equations; lia). unfold RuneSelf.
    Z.to_euclidean_division_equations; lia. }
  destruct (Hd h Hh), (Hd m Hm), (Hd s Hs). rewrite !runes_cons_ascii by (done || (unfold RuneSelf; vm_compute; done)).
  cbn [scan_rune mbind option_bind]. change (byte_val "[" =? 91) with true. cbn [mbind option_bind].
  rewrite scan_02d_back by done. cbn [mbind option_bind scan_rune]. change (byte_val ":" =? 58) with true. cbn [mbind option_bind].
  rewrite scan_02d_back by done. cbn [mbind option_bind scan_rune]. change (byte_val ":" =? 58) with true. cbn [mbind option_bind].
  rewrite scan_02d_back by done. cbn [mbind option_bind scan_rune]. change (byte_val "]" =? 93) with true. cbn [mbind option_bind].
  done.
Qed.

(** *** The messages *)

Definition event_words : list string := ["Joins:"; "Parts:"; "Quits:"].

Section roundtrip.
Context `{UnicodeTables} `{!zone_laws TZ}.

(** [logs_as self entity m p c ps]: the message [m] logged for [entity] reads back with the
    prefix [p], the command [c] and the parameters [ps]; [self] is the nickname of the
    user. *)
Inductive logs_as (self entity : string) : Message → Prefix → string → list string → Prop :=
| L_nick tags n u h new ps : token n → n ∉ event_words →
    logs_as self entity (mkMessage tags (Some (mkPrefix n u h)) "NICK" (new :: ps)) (mkPrefix n "" "") "NICK" [new]
| L_join tags n u h ps : token n → token u → token h → str_mem "@"%char u = false →
    logs_as self entity (mkMessage tags (Some (mkPrefix n u h)) "JOIN" ps) (mkPrefix n u h) "JOIN" [entity]
| L_part tags n u h ps : token n → token u → token h → str_mem "@"%char u = false →
    logs_as self entity (mkMessage tags (Some (mkPrefix n u h)) "PART" ps) (mkPrefix n u h) "PART"
      (entity :: opt_reason (default "" (ps !! 1%nat)))
| L_quit tags n u h ps : token n → token u → token h → str_mem "@"%char u = false →
    logs_as self entity (mkMessage tags (Some (mkPrefix n u h)) "QUIT" ps) (mkPrefix n u h) "QUIT"
      (opt_reason (default "" (ps !! 0%nat)))
| L_kick tags n u h ch nick ps : token n → token nick → nick ∉ event_words →
    logs_as self entity (mkMessage tags (Some (mkPrefix n u h)) "KICK" (ch :: nick :: ps)) (mkPrefix n "" "") "KICK"
      (entity :: nick :: opt_reason (default "" (ps !! 0%nat)))
| L_topic tags n u h ps : token n → n ∉ event_words →
    logs_as self entity (mkMessage tags (Some (mkPrefix n u h)) "TOPIC" ps) (mkPrefix n "" "") "TOPIC"
      [entity; default "" (ps !! 1%nat)]
| L_mode tags n u h ch modes : token n → n ∉ event_words → modes ≠ [] → Forall token modes →
    logs_as self entity (mkMessage tags (Some (mkPrefix n u h)) "MODE" (ch :: modes)) (mkPrefix n "" "") "MODE" (entity :: modes)
| L_notice tags n u h target text ps : token n →
    logs_as self entity (mkMessage tags (Some (mkPrefix n u h)) "NOTICE" (target :: text :: ps)) (mkPrefix n "" "") "NOTICE"
      [if decide (entity = n) then self else entity; text]
| L_privmsg tags n u h target text ps : token n → HasPrefix text soh = false →
    logs_as self entity (mkMessage tags (Some (mkPrefix n u h)) "PRIVMSG" (target :: text :: ps)) (mkPrefix n "" "") "PRIVMSG"
      [if decide (entity = n) then self else entity; text]
| L_action tags n u h target text ps : token n → str_mem (ascii_of_nat 1) text = false →
    logs_as self entity (mkMessage tags (Some (mkPrefix n u h)) "PRIVMSG" (target :: (soh +:+ "ACTION " +:+ text +:+ soh) :: ps))
      (mkPrefix n "" "") "PRIVMSG" [if decide (entity = n) then self else entity; soh +:+ "ACTION " +:+ text +:+ soh].

(** A line the reader takes for an event. *)
Lemma parse_event_line head rest user net entity :
  token head → parse_body ("*** " +:+ head +:+ " " +:+ rest) user net entity true =
    if decide (head ∈ event_words) then parse_presence head rest entity
    else match strip rest "is now known as " with
      | Some r => Some (mkPrefix head "" "", "NICK", [r])
      | None =>
        match strip rest "was kicked by " with
        | Some r =>
          match SplitN r " " 2 with
          | [op; reason] => Some (mkPrefix op "" "", "KICK", entity :: head :: opt_reason (trim_parens reason))
          | _ => None
          end
        | None =>
          match strip rest "changes topic to " with
          | Some r => Some (mkPrefix head "" "", "TOPIC", [entity; TrimSuffix (TrimPrefix r "'") "'"])
          | None =>
            match strip rest "sets mode: " with
            | Some r => Some (mkPrefix head "" "", "MODE", entity :: Split r " ")
            | None => None
            end
          end
        end
      end.
Proof.
  intros Hh. unfold parse_body. rewrite HasPrefix_app. cbn [andb]. change 4%nat with (slen "*** "). rewrite str_drop_app.
  unfold parse_event. by rewrite SplitN_space.
Qed.

Lemma parse_presence_back kind n u h reason entity :
  kind ∈ event_words → token n → token u → token h → str_mem "@"%char u = false →
  parse_presence kind (n +:+ " " +:+ ("(" +:+ u +:+ "@" +:+ h +:+ ")") +:+ " (" +:+ reason +:+ ")") entity =
    Some (mkPrefix n u h,
      if decide (kind = "Joins:") then "JOIN" else if decide (kind = "Parts:") then "PART" else "QUIT",
      if decide (kind = "Joins:") then [entity] else if decide (kind = "Parts:") then entity :: opt_reason reason else opt_reason reason).
Proof.
  intros Hk Hn Hu Hh Hat. unfold parse_presence. change (" (" +:+ reason +:+ ")") with (" " +:+ ("(" +:+ reason +:+ ")")).
  rewrite SplitN_space_3; [|done|by repeat apply token_app].
  assert ("(" +:+ u +:+ "@" +:+ h +:+ ")" = "(" +:+ (u +:+ String "@" h) +:+ ")") as -> by (by rewrite str_app_assoc).
  rewrite !trim_parens_back, SplitN_char by done.
  by repeat case_decide.
Qed.

Lemma parse_join n u h entity :
  token n → token u → token h → str_mem "@"%char u = false →
  parse_presence "Joins:" (n +:+ " " +:+ "(" +:+ u +:+ "@" +:+ h +:+ ")") entity = Some (mkPrefix n u h, "JOIN", [entity]).
Proof.
  intros Hn Hu Hh Hat. unfold parse_presence. rewrite SplitN_space_3'; [|done|by repeat apply token_app].
  assert ("(" +:+ u +:+ "@" +:+ h +:+ ")" = "(" +:+ (u +:+ String "@" h) +:+ ")") as -> by (by rewrite str_app_assoc).
  by rewrite trim_parens_back, SplitN_char by done.
Qed.

(** *** CTCP actions *)

Lemma TrimLeft_none c s : str_mem c s = false → TrimLeft s (String c "") = s.
Proof.
  destruct s as [|d s]; [done|]. cbn. intros [Hd _]%orb_false_iff. rewrite bool_decide_eq_false in Hd.
  rewrite bool_decide_false; [done|]. congruence.
Qed.

Lemma Trim_action c s : str_mem c s = false → s ≠ "" → Trim (String c (s +:+ String c "")) (String c "") = s.
Proof.
  intros Hs Hne. unfold Trim. cbn [TrimLeft str_mem]. rewrite bool_decide_true by done. cbn [orb].
  assert (TrimLeft (s +:+ String c "") (String c "") = s +:+ String c "") as ->.
  { destruct s as [|d s]; [done|]. cbn in *. apply orb_false_iff in Hs as [Hd _]. rewrite bool_decide_eq_false in Hd.
    rewrite bool_decide_false; [done|]. congruence. }
  unfold TrimRight. assert (str_rev (s +:+ String c "") = String c (str_rev s)) as ->.
  { unfold str_rev. rewrite str_list_app. cbn. by rewrite reverse_app. }
  cbn [TrimLeft str_mem]. rewrite bool_decide_true by done. cbn [orb].
  rewrite TrimLeft_none by (by rewrite str_mem_rev). apply str_rev_rev.
Qed.

Lemma ParseCTCP_action tags p target text ps :
  str_mem (ascii_of_nat 1) text = false →
  ParseCTCPMessage (mkMessage tags p "PRIVMSG" (target :: (soh +:+ "ACTION " +:+ text +:+ soh) :: ps)) = Some ("ACTION", text).
Proof.
  intros Ht. unfold ParseCTCPMessage. cbn [Command Params length].
  rewrite decide_False by (intros [[]|]; [done|lia]). unfold param. cbn [nth].
  change (negb (HasPrefix (soh +:+ "ACTION " +:+ text +:+ soh) ctcp_delim)) with false. cbv iota.
  change (soh +:+ "ACTION " +:+ text +:+ soh) with (String (ascii_of_nat 1) (("ACTION " +:+ text) +:+ String (ascii_of_nat 1) "")).
  change ctcp_delim with (String (ascii_of_nat 1) ""). rewrite Trim_action by done.
  change ("ACTION " +:+ text) with ("ACTION" +:+ " " +:+ text). by rewrite SplitN_space.
Qed.

Lemma ParseCTCP_plain tags p target text ps :
  HasPrefix text soh = false → ParseCTCPMessage (mkMessage tags p "PRIVMSG" (target :: text :: ps)) = None.
Proof.
  intros Ht. unfold ParseCTCPMessage. cbn [Command Params length]. rewrite decide_False by (intros [[]|]; [done|lia]).
  unfold param. cbn [nth]. change ctcp_delim with soh. by rewrite Ht.
Qed.

(** *** Texts *)

Lemma parse_text_notice n text : token n → parse_text ("-" +:+ n +:+ "- " +:+ text) = Some ("NOTICE", n, text).
Proof.
  intros Hn. unfold parse_text. change (HasPrefix ("-" +:+ _) "<") with false. rewrite HasPrefix_app. cbv iota.
  change 1%nat with (slen "-"). rewrite str_drop_app.
  change ("- " +:+ text) with (String "-" (String " " text)). by rewrite SplitN_word_sep.
Qed.
Lemma parse_text_privmsg n text : token n → parse_text ("<" +:+ n +:+ "> " +:+ text) = Some ("PRIVMSG", n, text).
Proof.
  intros Hn. unfold parse_text. rewrite HasPrefix_app. change 1%nat with (slen "<"). rewrite str_drop_app.
  change ("> " +:+ text) with (String ">" (String " " text)). by rewrite SplitN_word_sep.
Qed.
Lemma parse_text_action n text :
  token n → parse_text ("* " +:+ n +:+ " " +:+ text) = Some ("PRIVMSG", n, soh +:+ "ACTION " +:+ text +:+ soh).
Proof.
  intros Hn. unfold parse_text. change (HasPrefix ("* " +:+ _) "<") with false. change (HasPrefix ("* " +:+ _) "-") with false.
  rewrite HasPrefix_app. cbv iota. change 2%nat with (slen "* ") at 1. rewrite str_drop_app. by rewrite SplitN_space.
Qed.

Lemma parse_body_text s user net entity cmd sender text :
  HasPrefix s "*** " = false → parse_text s = Some (cmd, sender, text) →
  parse_body s user net entity true =
    Some (mkPrefix sender "" "", cmd, [if decide (entity = sender) then GetNick user (Some net) else entity; text]).
Proof. intros Hp Ht. unfold parse_body. by rewrite Hp, Ht. Qed.

(** What [formatMessage] prints for a loggable message is read back. *)
Lemma format_parse user net entity m p c ps :
  logs_as (GetNick user (Some net)) entity m p c ps →
  ∃ s, formatMessage m = Ok s ∧ s ≠ "" ∧ parse_body s user net entity true = Some (p, c, ps).
Proof.
  intros Hm. destruct Hm; unfold formatMessage; cbn [Command Params MPrefix lookup list_lookup];
    match goal with |- context [ToUpper ?x] => change (ToUpper x) with x end;
    repeat first [rewrite decide_True by done | rewrite decide_False by done];
    try rewrite ParseCTCP_action by done; try rewrite ParseCTCP_plain by done; eexists; (split; [done|]);
    cbn [prefix_name prefix_mask MPrefix Name User Host opt_param Params].
  - split; [done|]. change (" is now known as " +:+ new) with (" " +:+ "is now known as " +:+ new).
    rewrite parse_event_line by done. rewrite decide_False by done. by rewrite strip_back.
  - split; [done|]. change ("*** Joins: " +:+ ?x) with ("*** " +:+ "Joins:" +:+ " " +:+ x).
    rewrite parse_event_line by done. rewrite decide_True by (by left). by apply parse_join.
  - split; [done|]. change ("*** Parts: " +:+ ?x) with ("*** " +:+ "Parts:" +:+ " " +:+ x).
    rewrite parse_event_line by done. rewrite decide_True by (right; by left).
    by rewrite parse_presence_back by (done || (right; by left)).
  - split; [done|]. change ("*** Quits: " +:+ ?x) with ("*** " +:+ "Quits:" +:+ " " +:+ x).
    rewrite parse_event_line by done. rewrite decide_True by (right; right; by left).
    by rewrite parse_presence_back by (done || (right; right; by left)).
  - split; [done|]. change (" was kicked by " +:+ ?x) with (" " +:+ "was kicked by " +:+ x).
    rewrite parse_event_line by done. rewrite decide_False by done. rewrite strip_other by done. rewrite strip_back by done.
    change (" (" +:+ ?x) with (" " +:+ "(" +:+ x). rewrite SplitN_space by done. by rewrite trim_parens_back.
  - split; [done|]. change (" changes topic to '" +:+ ?x) with (" " +:+ "changes topic to " +:+ "'" +:+ x).
    rewrite parse_event_line by done. rewrite decide_False by done. rewrite !strip_other by done. rewrite strip_back by done.
    by rewrite TrimPrefix_app, TrimSuffix_app.
  - split; [done|]. change (" sets mode: " +:+ ?x) with (" " +:+ "sets mode: " +:+ x).
    rewrite parse_event_line by done. rewrite decide_False by done. rewrite !strip_other by done. rewrite strip_back by done.
    by rewrite Split_Join.
  - split; [done|]. by apply parse_body_text, parse_text_notice.
  - split; [done|]. by apply parse_body_text, parse_text_privmsg.
  - split; [done|]. by apply parse_body_text, parse_text_action.
Qed.

(** C38: A message written to the log reads back on the same day with its time of day, its
    command, its sender and its parameters; what the format does not keep is replaced as
    described by [logs_as] (the channel is the one of the log file, a private message is
    addressed to the user, a sender of a text has only its nickname). *)
Theorem znclog_roundtrip user net entity m p c ps t :
  logs_as (GetNick user (Some net)) entity m p c ps →
  ∃ line, MarshalLine m t = Ok line ∧
    let t' := wall (date_of t) (clock_of t) in
    UnmarshalLine line user net entity t true = Ok (Some (mkMessage {["time" := FormatServerTime t']} (Some p) c ps, t')).
Proof.
  intros (s & Hf & Hne & Hp)%(format_parse user net). pose proof (clock_range t) as Ht. eexists. split.
  - unfold MarshalLine. rewrite Hf. cbn [mbind res_mbind res_bind]. by rewrite decide_False.
  - cbn zeta. unfold UnmarshalLine. rewrite scan_timestamp_back by (Z.to_euclidean_division_equations; lia).
    unfold Format02. cbn [String.app String.append slen]. rewrite (proj2 (Nat.ltb_ge _ _)) by (unfold timestampPrefixLen; lia).
    unfold timestampPrefixLen. cbn [str_drop].
    rewrite Hp.
    assert (3600 * (clock_of t / 3600) + 60 * (clock_of t / 60 mod 60) + clock_of t mod 60 = clock_of t) as ->
      by (Z.to_euclidean_division_equations; lia). done.
Qed.
End roundtrip.

(** ** A log in UTC *)

Definition demo_log_user : dbUser := MkUser 1 "alice" "" "" "" false true 0 (-1).

Lemma znclog_roundtrip_witness :
  let m := mkMessage ∅ (Some (mkPrefix "bob" "b" "example.org")) "PART" ["#soju"; "see (you) later"] in
  let t := 19000 * nsPerDay + 45296 * 1000000000 + 5 in
  @MarshalLine latin1_tables utc m t = Ok "[12:34:56] *** Parts: bob (b@example.org) (see (you) later)" ∧
  ∃ line, @MarshalLine latin1_tables utc m t = Ok line ∧
    UnmarshalLine line demo_log_user (NewNetwork "irc.example.org") "#soju" t true =
    Ok (Some (mkMessage {["time" := "2022-01-08T12:34:56.000Z"]} (Some (mkPrefix "bob" "b" "example.org")) "PART" ["#soju"; "see (you) later"],
              19000 * nsPerDay + 45296 * 1000000000)).
Proof.
  split; [by vm_compute|].
  apply (@znclog_roundtrip latin1_tables utc _ demo_log_user (NewNetwork "irc.example.org") "#soju"
    (mkMessage ∅ (Some (mkPrefix "bob" "b" "example.org")) "PART" ["#soju"; "see (you) later"])
    (mkPrefix "bob" "b" "example.org") "PART" ["#soju"; "see (you) later"] (19000 * nsPerDay + 45296 * 1000000000 + 5)).
  apply (L_part _ _ ∅ "bob" "b" "example.org" ["#soju"; "see (you) later"]); done.
Defined.
