(* ===== verification/FsStore.v ===== *)
(** * The file-system message store (msgstore/fs.go)

    One log file per network, entity and day. The state is the file system and the store's
    table of files open for appending; reading is a function of both. [now] is the time of
    the call; [ctx] says for each round of a loop whether the context has been cancelled. *)

From S2P Require Import Prelude GoStrings GoUnicode IrcMessage Effects GenMsg Database MsgID GoTime GoOs ZncLog.

Open Scope string_scope.
Open Scope list_scope.
Open Scope Z_scope.

Definition fsMessageStoreMaxFiles : nat := 20.
Definition fsMessageStoreMaxTries : Z := 100.

(** ** Names *)

Definition EscapeFilename (unsafe : string) : string :=
  if decide (unsafe = ".") then "-"
  else if decide (unsafe = "..") then "--"
  else ReplaceByte (ReplaceByte unsafe "/" "-") "\" "-".

(** [filepath.Join] of a path and names that hold no separator and are not dots. *)
Definition Join_path (root : Path) (elems : list string) : Path := root ++ filter (λ e, e ≠ "") elems.

(** ** Message IDs *)

Record date := MkDate { Year : Z; Month : Z; Day : Z }.
Record fsMsgID := MkFsMsgID { idDate : date; idOffset : Z }.
#[export] Instance fsMsgID_body : msgIDBody fsMsgID := msgIDFS.

Record fsMessageStoreFile := MkFile { f_name : Path; f_ino : Ino; f_lastUse : Z; f_closed : bool }.

Record fsMessageStore := MkFsStore {
  fs_root : Path;
  fs_user : dbUser;
  fs_files : gmap string fsMessageStoreFile
}.

Definition NewFSStore (root : Path) (user : dbUser) : fsMessageStore :=
  MkFsStore (Join_path root [EscapeFilename (uUsername user)]) user ∅.

(** [LoadMessageOptions] with its network. *)
Record FsLoadOptions := MkFsLoadOptions { lNetwork : dbNetwork; lEntity : string; lLimit : Z; lEvents : bool }.

Record fsState := MkFsState { st_os : os; st_store : fsMessageStore }.
Definition set_os (o : os) (s : fsState) : fsState := MkFsState o (st_store s).
Definition set_files (fs : gmap string fsMessageStoreFile) (s : fsState) : fsState :=
  MkFsState (st_os s) (MkFsStore (fs_root (st_store s)) (fs_user (st_store s)) fs).

Definition nl : ascii := ascii_of_nat 10.
Definition cr : ascii := ascii_of_nat 13.

Notation messages := (list (option Message)).

Section store.
Context `{UnicodeTables} `{TZ : zone} `{OsFaults} `{Bare msgIDHeader, Bare fsMsgID}.

Definition newDate (t : Z) : date := let '(y, m, d) := civil (date_of t) in MkDate y m d.
(** [time.Date] carries months and days out of range over. *)
Definition date_Time (d : date) : Z :=
  wall (days_of_civil (Year d + (Month d - 1) / 12) ((Month d - 1) mod 12 + 1) (Day d)) 0.

Definition parseFSMsgID (s : string) : res goerr (Z * string * Z * Z) :=
  '(netID, entity, id) ← ParseMsgID fsMsgID s;
  Ok (netID, entity, date_Time (idDate id), idOffset id).

Definition formatFSMsgID (netID : Z) (entity : string) (t offset : Z) : res goerr string :=
  formatMsgID netID entity (MkFsMsgID (newDate t) offset).

Definition logPath (ms : fsMessageStore) (network : dbNetwork) (entity : string) (t : Z) : Path :=
  Join_path (fs_root ms) [EscapeFilename (GetName network); EscapeFilename entity; sprint_date (date_of t) +:+ ".log"].

(** ** Writing *)

Definition LastMsgID (network : dbNetwork) (entity : string) (t : Z) (s : fsState) : res goerr string :=
  match os_Stat (st_os s) (logPath (st_store s) network entity t) with
  | inr ENOENT => formatFSMsgID (nID network) entity t (-1)
  | inr _ => Err (Errorf "failed to query last FS message ID: %v")
  | inl n =>
    let size := match n with FFile i => Z.of_nat (slen (i_data (inode_at (st_os s) i))) | FDir _ => 0 end in
    formatFSMsgID (nID network) entity t (size - 1)
  end.

(** The time of a message: its tag, or now. *)
Definition append_time (now : Z) (m : Message) : res goerr Z :=
  match Tags m !! "time" with
  | Some tag => match ParseServerTime tag with Some t => Ok t | None => Err (Errorf "failed to parse message time tag: %v") end
  | None => Ok now
  end.

(** Opens the file of an entity for appending, in place of the one that was open. *)
Definition reopen_log (now : Z) (entity : string) (path : Path) : ST fsState fsMessageStoreFile :=
  s ← gets id;
  match os_MkdirAll (removelast path) (st_os s) with
  | inr _ => fail (Errorf "failed to create message logs directory %q: %v")
  | inl o =>
    modify (set_os o) ;;
    match os_OpenAppend now path o with
    | inr _ => fail (Errorf "failed to open message log file %q: %v")
    | inl (o, i) =>
      let f := MkFile path i zeroTime false in
      modify (set_os o) ;; modify (set_files (<[entity := f]> (fs_files (st_store s)))) ;; mret f
    end
  end.

(** The file of an entity, opened when the open one is of another day or network. *)
Definition open_log (now : Z) (entity : string) (path : Path) : ST fsState fsMessageStoreFile :=
  f ← gets (λ s, fs_files (st_store s) !! entity);
  match f with
  | Some f => if decide (f_name f = path) then mret f else reopen_log now entity path
  | None => reopen_log now entity path
  end.

Definition used_before (files : gmap string fsMessageStoreFile) (a b : string) : Prop :=
  default 0 (f_lastUse <$> files !! a) ≤ default 0 (f_lastUse <$> files !! b).
#[export] Instance used_before_dec files a b : Decision (used_before files a b).
Proof. unfold used_before. apply _. Defined.

(** The entities whose files are closed when too many are open: the ones used the longest
    time ago. [order] is the order in which the map is iterated over. *)
Definition evicted (order : list string) (files : gmap string fsMessageStoreFile) : list string :=
  if (fsMessageStoreMaxFiles <? size files)%nat then
    take (size files - fsMessageStoreMaxFiles) (merge_sort (used_before files) order)
  else [].

Definition Append (now : Z) (order : list string) (network : dbNetwork) (entity : string) (m : Message) : ST fsState string :=
  t ← lift (append_time now m);
  line ← lift (MarshalLine m t);
  if decide (line = "") then mret ""
  else
    s ← gets id;
    let path := logPath (st_store s) network entity t in
    f ← open_log now entity path;
    modify (λ s, set_files (<[entity := MkFile (f_name f) (f_ino f) now (f_closed f)]> (fs_files (st_store s))) s) ;;
    files ← gets (λ s, fs_files (st_store s));
    let gone := evicted order files in
    modify (λ s, set_files (filter (λ e, e.1 ∉ gone) (fs_files (st_store s))) s) ;;
    if f_closed f || bool_decide (entity ∈ gone) || os_fault OpSeek path then fail (Errorf "failed to generate message ID: %v")
    else
      o ← gets st_os;
      msgID ← lift (formatFSMsgID (nID network) entity t (Z.of_nat (slen (i_data (inode_at o (f_ino f))))));
      if os_fault OpWrite path then fail (Errorf "failed to log message to %q: %v")
      else modify (set_os (os_write now (f_ino f) (line +:+ String nl "") o)) ;; mret msgID.

(** [Close]; the files stay in the table, and closing one again is an error. *)
Definition Close : ST fsState unit :=
  files ← gets (λ s, fs_files (st_store s));
  modify (set_files ((λ f, MkFile (f_name f) (f_ino f) (f_lastUse f) true) <$> files)) ;;
  if existsb (λ e, f_closed e.2) (map_to_list files) then fail (Errorf "failed to close message store: %v") else mret tt.

(** ** Reading lines *)

Definition MaxScanTokenSize : nat := 65536.

(** Lines; a newline at the end of the text ends the last one. *)
Fixpoint split_lines (s : string) : list string :=
  match s with
  | "" => []
  | String c s' =>
    if decide (c = nl) then "" :: split_lines s'
    else match split_lines s' with [] => [String c ""] | l :: ls => String c l :: ls end
  end.

Definition dropCR (s : string) : string := TrimSuffix s (String cr "").

(** What a [bufio.Scanner] gives: tokens, and what fills its buffer when a line is too long. *)
Fixpoint scan_lines (ls : list string) : list string * option string :=
  match ls with
  | [] => ([], None)
  | l :: ls' =>
    if (slen l <? MaxScanTokenSize)%nat then let '(toks, e) := scan_lines ls' in (dropCR l :: toks, e)
    else ([], Some (str_take MaxScanTokenSize l))
  end.

(** One [Scan] whose token is not used; after a line that is too long the rest of the buffer
    is the only token. *)
Definition skip_token (sc : list string * option string) : list string * option string :=
  match sc with
  | (_ :: toks, e) => (toks, e)
  | ([], Some chunk) => ([dropCR chunk], Some chunk)
  | ([], None) => ([], None)
  end.

(** ** One day *)

Definition parseMessage (ms : fsMessageStore) (line : string) (options : FsLoadOptions) (ref : Z) : res goerr (option (Message * Z)) :=
  UnmarshalLine line (fs_user ms) (lNetwork options) (lEntity options) ref (lEvents options).

(** The scanning loop of [parseMessagesBefore] with its ring; the last component says that it
    was left before the end. *)
Fixpoint before_loop (ms : fsMessageStore) (ref end_ : Z) (options : FsLoadOptions) (selector : Message → res goerr bool)
    (toks : list string) (ring : messages) (cur : Z) : res goerr (messages * Z * bool) :=
  match toks with
  | [] => Ok (ring, cur, false)
  | tok :: toks =>
    parsed ← parseMessage ms tok options ref;
    match parsed with
    | None => before_loop ms ref end_ options selector toks ring cur
    | Some (m, t) =>
      if negb (end_ <? t) then before_loop ms ref end_ options selector toks ring cur
      else if negb (t <? ref) then Ok (ring, cur, true)
      else
        sel ← selector m;
        if (sel : bool) then
          if decide (lLimit options = 0) then Panic "integer divide by zero"
          else before_loop ms ref end_ options selector toks (<[Z.to_nat (cur mod lLimit options) := Some m]> ring) (cur + 1)
        else before_loop ms ref end_ options selector toks ring cur
    end
  end.

(** The messages of the ring, oldest first. *)
Definition unroll_ring (limit : Z) (ring : messages) (cur : Z) : messages :=
  let n := if cur <? limit then cur else limit in
  let start := (cur - n + limit) mod limit in
  if start + n <=? limit then take (Z.to_nat n) (drop (Z.to_nat start) ring)
  else
    let head := take (Z.to_nat n) (drop (Z.to_nat start) ring) in
    head ++ take (Z.to_nat n - length head) ring.

Definition parseMessagesBefore (s : fsState) (ref end_ : Z) (options : FsLoadOptions) (afterOffset : Z)
    (selector : Message → res goerr bool) : res goerr messages :=
  match os_Open (st_os s) (logPath (st_store s) (lNetwork options) (lEntity options) ref) with
  | inr ENOENT => Ok []
  | inr _ => Err (Errorf "failed to parse messages before ref: %v")
  | inl (FDir _) => Err (Errorf "failed to parse messages before ref: scanner error: %v")
  | inl (FFile i) =>
    let data := i_data (inode_at (st_os s) i) in
    if lLimit options <? 0 then Panic "makeslice: len out of range"
    else
      let sc := if 0 <=? afterOffset then skip_token (scan_lines (split_lines (str_drop (Z.to_nat afterOffset) data)))
                else scan_lines (split_lines data) in
      '(ring, cur, stopped) ← before_loop (st_store s) ref end_ options selector sc.1 (replicate (Z.to_nat (lLimit options)) None) 0;
      if bool_decide (is_Some sc.2) && negb stopped then Err (Errorf "failed to parse messages before ref: scanner error: %v")
      else if decide (lLimit options = 0) then Panic "integer divide by zero"
      else Ok (unroll_ring (lLimit options) ring cur)
  end.

(** The scanning loop of [parseMessagesAfter]. *)
Fixpoint after_loop (ms : fsMessageStore) (ref end_ : Z) (options : FsLoadOptions) (selector : Message → res goerr bool)
    (toks : list string) (history : messages) : res goerr (messages * bool) :=
  match toks with
  | [] => Ok (history, false)
  | tok :: toks =>
    if lLimit options <=? Z.of_nat (length history) then Ok (history, true)
    else
      parsed ← parseMessage ms tok options ref;
      match parsed with
      | None => after_loop ms ref end_ options selector toks history
      | Some (m, t) =>
        if negb (ref <? t) then after_loop ms ref end_ options selector toks history
        else if negb (t <? end_) then Ok (history, true)
        else
          sel ← selector m;
          if (sel : bool) then after_loop ms ref end_ options selector toks (history ++ [Some m])
          else after_loop ms ref end_ options selector toks history
      end
  end.

Definition parseMessagesAfter (s : fsState) (ref end_ : Z) (options : FsLoadOptions) (selector : Message → res goerr bool) :
    res goerr messages :=
  match os_Open (st_os s) (logPath (st_store s) (lNetwork options) (lEntity options) ref) with
  | inr ENOENT => Ok []
  | inr _ => Err (Errorf "failed to parse messages after ref: %v")
  | inl (FDir _) => Err (Errorf "failed to parse messages after ref: scanner error: %v")
  | inl (FFile i) =>
    let sc := scan_lines (split_lines (i_data (inode_at (st_os s) i))) in
    '(history, stopped) ← after_loop (st_store s) ref end_ options selector sc.1 [];
    if bool_decide (is_Some sc.2) && negb stopped then Err (Errorf "failed to parse messages after ref: scanner error: %v")
    else Ok history
  end.

(** ** Windows of time *)

(** The loop over days from the latest to the earliest of [getBeforeTime] and [LoadLatestID];
    [acc] is the part of the result that is filled. *)
Fixpoint back_loop (fuel : nat) (ctx : nat → option goerr) (guard : Z → bool) (read : Z → Z → res goerr messages)
    (round : nat) (t remaining tries : Z) (acc : messages) : res goerr messages :=
  match fuel with
  | O => Panic "out of fuel"
  | S fuel' =>
    if (0 <? remaining) && (tries <? fsMessageStoreMaxTries) && guard t then
      buf ← read t remaining;
      let tries := if decide (length buf = 0%nat) then tries + 1 else 0 in
      match ctx round with
      | Some e => Err e
      | None => back_loop fuel' ctx guard read (S round) (wall (date_of t) 0 - 1) (remaining - Z.of_nat (length buf)) tries (buf ++ acc)
      end
    else Ok acc
  end.

(** The loop of [getAfterTime]. *)
Fixpoint forward_loop (fuel : nat) (ctx : nat → option goerr) (guard : Z → bool) (read : Z → Z → res goerr messages)
    (round : nat) (t remaining tries : Z) (acc : messages) : res goerr messages :=
  match fuel with
  | O => Panic "out of fuel"
  | S fuel' =>
    if (0 <? remaining) && (tries <? fsMessageStoreMaxTries) && guard t then
      buf ← read t remaining;
      let tries := if decide (length buf = 0%nat) then tries + 1 else 0 in
      match ctx round with
      | Some e => Err e
      | None => forward_loop fuel' ctx guard read (S round) (wall (date_of t + 1) 0) (remaining - Z.of_nat (length buf)) tries (acc ++ buf)
      end
    else Ok acc
  end.

(** A round without messages counts up to 100 tries, a round with messages lowers the number
    of the remaining ones and starts the count again. *)
Definition loop_fuel (limit : Z) : nat := Z.to_nat (fsMessageStoreMaxTries * (limit + 1) + 1).

Definition with_limit (options : FsLoadOptions) (limit : Z) : FsLoadOptions :=
  MkFsLoadOptions (lNetwork options) (lEntity options) limit (lEvents options).

Definition getBeforeTime (ctx : nat → option goerr) (now : Z) (s : fsState) (start end_ : Z) (options : FsLoadOptions)
    (selector : Message → res goerr bool) : res goerr messages :=
  let start := if IsZero start then now else start in
  if lLimit options <? 0 then Panic "makeslice: len out of range"
  else back_loop (loop_fuel (lLimit options)) ctx (λ t, end_ <? t)
    (λ t remaining, parseMessagesBefore s t end_ (with_limit options remaining) (-1) selector) 0 start (lLimit options) 0 [].

Definition all_messages (m : Message) : res goerr bool := Ok true.

Definition LoadBeforeTime (ctx : nat → option goerr) (now : Z) (s : fsState) (start end_ : Z) (options : FsLoadOptions) :
    res goerr messages := getBeforeTime ctx now s start end_ options all_messages.

Definition getAfterTime (ctx : nat → option goerr) (now : Z) (s : fsState) (start end_ : Z) (options : FsLoadOptions)
    (selector : Message → res goerr bool) : res goerr messages :=
  let end_ := if IsZero end_ then now else end_ in
  forward_loop (loop_fuel (lLimit options)) ctx (λ t, t <? end_)
    (λ t remaining, parseMessagesAfter s t end_ (with_limit options remaining) selector) 0 start (lLimit options) 0 [].

Definition LoadAfterTime (ctx : nat → option goerr) (now : Z) (s : fsState) (start end_ : Z) (options : FsLoadOptions) :
    res goerr messages := getAfterTime ctx now s start end_ options all_messages.

Definition truncateDay (t : Z) : Z := wall (date_of t) 0.
Definition truncateSecond (t : Z) : Z := wall (date_of t) (clock_of t).

Definition LoadLatestID (ctx : nat → option goerr) (now : Z) (s : fsState) (id : string) (options : FsLoadOptions) :
    res goerr messages :=
  '(afterTime, afterOffset) ← (
    if decide (id = "") then Ok (zeroTime, 0)
    else
      '(idNet, idEntity, afterTime, afterOffset) ← parseFSMsgID id;
      if decide (idNet ≠ nID (lNetwork options) ∨ idEntity ≠ lEntity options) then
        Err (Errorf "cannot find message ID: message ID doesn't match network/entity")
      else Ok (afterTime, afterOffset));
  if lLimit options <? 0 then Panic "makeslice: len out of range"
  else back_loop (loop_fuel (lLimit options)) ctx (λ t, negb (truncateDay t <? afterTime))
    (λ t remaining,
      let offset := if (0 <=? afterOffset) && (truncateDay t =? afterTime) then afterOffset else -1 in
      parseMessagesBefore s t zeroTime (with_limit options remaining) offset all_messages) 0 now (lLimit options) 0 [].

Definition isTimeBetween (t start end_ : Z) : bool :=
  let '(start, end_) := if end_ <? start then (end_, start) else (start, end_) in (start <? t) && (t <? end_).

(** ** Targets and search *)

Record ChatHistoryTarget := MkTarget { tName : string; tLatestMessage : Z }.

Definition latest_mtime (o : os) (es : list (string * node)) : Z :=
  foldl (λ t e, let mtime := match e.2 with FFile i => i_mtime (inode_at o i) | FDir _ => zeroTime end in
                if t <? mtime then mtime else t) zeroTime es.

Fixpoint target_loop (ctx : nat → option goerr) (o : os) (rootPath : Path) (start end_ : Z) (round : nat) (names : list string) :
    res goerr (list ChatHistoryTarget) :=
  match names with
  | [] => Ok []
  | target :: names =>
    let targetPath := Join_path rootPath [target] in
    match os_Open o targetPath with
    | inr e => Err (os_error e)
    | inl (FFile _) => Err (os_error ENOTDIR)
    | inl (FDir es) =>
      if os_fault OpReaddir targetPath then Err (os_error EIO)
      else
        let t := truncateSecond (latest_mtime o es) in
        if isTimeBetween t start end_ then
          match ctx round with
          | Some e => Err e
          | None => rest ← target_loop ctx o rootPath start end_ (S round) names; Ok (MkTarget target t :: rest)
          end
        else target_loop ctx o rootPath start end_ (S round) names
    end
  end.

Definition by_time (forward : bool) (a b : ChatHistoryTarget) : Prop :=
  if forward then tLatestMessage a ≤ tLatestMessage b else tLatestMessage b ≤ tLatestMessage a.
#[export] Instance by_time_dec forward a b : Decision (by_time forward a b).
Proof. unfold by_time. destruct forward; apply _. Defined.

(** [ListTargets]; [order] puts the names of a directory in the order in which the system
    reads them. *)
Definition ListTargets (ctx : nat → option goerr) (order : list string → list string) (s : fsState) (network : dbNetwork)
    (start end_ : Z) (limit : Z) : res goerr (list ChatHistoryTarget) :=
  let rootPath := Join_path (fs_root (st_store s)) [EscapeFilename (GetName network)] in
  match os_Open (st_os s) rootPath with
  | inr ENOENT => Ok []
  | inr e => Err (os_error e)
  | inl (FFile _) => Err (os_error ENOTDIR)
  | inl (FDir es) =>
    if os_fault OpReaddir rootPath then Err (os_error EIO)
    else
      targets ← target_loop ctx (st_os s) rootPath start end_ 0 (order (names es));
      let targets := merge_sort (by_time (start <? end_)) targets in
      if limit <? Z.of_nat (length targets) then
        if limit <? 0 then Panic "slice bounds out of range" else Ok (take (Z.to_nat limit) targets)
      else Ok targets
  end.

Record SearchMessageOptions := MkSearch { sStart : Z; sEnd : Z; sLimit : Z; sFrom : string; sIn : string; sText : string }.

Definition search_selector (opts : SearchMessageOptions) (m : Message) : res goerr bool :=
  let text := ToLower (sText opts) in
  if decide (sFrom opts ≠ "" ∧ prefix_name m ≠ sFrom opts) then Ok false
  else if decide (text = "") then Ok true
  else match Params m !! 1%nat with
       | Some p => Ok (Contains (ToLower p) text)
       | None => Panic "index out of range"
       end.

Definition Search (ctx : nat → option goerr) (now : Z) (s : fsState) (network : dbNetwork) (opts : SearchMessageOptions) :
    res goerr messages :=
  let loadOptions := MkFsLoadOptions network (sIn opts) (sLimit opts) false in
  if negb (IsZero (sStart opts)) then getAfterTime ctx now s (sStart opts) (sEnd opts) loadOptions (search_selector opts)
  else getBeforeTime ctx now s (sEnd opts) (sStart opts) loadOptions (search_selector opts).

Definition RenameNetwork (oldNet newNet : dbNetwork) : ST fsState unit :=
  s ← gets id;
  let oldDir := Join_path (fs_root (st_store s)) [EscapeFilename (GetName oldNet)] in
  let newDir := Join_path (fs_root (st_store s)) [EscapeFilename (GetName newNet)] in
  match os_Stat (st_os s) newDir with
  | inl _ => fail (Errorf "destination %q already exists")
  | inr _ => match os_Rename oldDir newDir (st_os s) with inl o => modify (set_os o) | inr e => fail (os_error e) end
  end.
End store.

(** ** Removing old files *)

(** The name is the one of a log file of a day before the cutoff. *)
Definition is_old_log (cutoff name : string) : bool :=
  HasSuffix name ".log" && negb (slen name <? 10)%nat && negb (str_leb cutoff (str_take 10 name)).

Section delete.
Context `{OsFaults}.

(** [filepath.WalkDir] with the function of [DeleteMessagesBefore]; an error leaves the walk. *)
Fixpoint delete_walk (cutoff : string) (p : Path) (n : node) : node * option errno :=
  match n with
  | FFile _ => (n, None)
  | FDir es =>
    if os_fault OpReaddir p then (n, Some EIO)
    else
      let '(es, e) := (fix go es := match es with
        | [] => ([], None)
        | (name, c) :: es =>
          match c with
          | FFile _ =>
            if is_old_log cutoff name then
              if os_fault OpRemove (p ++ [name]) then ((name, c) :: es, Some EIO) else go es
            else let '(es, e) := go es in ((name, c) :: es, e)
          | FDir _ =>
            match delete_walk cutoff (p ++ [name]) c with
            | (c, Some e) => ((name, c) :: es, Some e)
            | (c, None) => let '(es, e) := go es in ((name, c) :: es, e)
            end
          end
        end) es in
      (FDir es, e)
  end.

(** [cleanupEmptyDirsRecursively]: what is left of the directory, whether it was empty, and
    the errors. *)
Fixpoint cleanupEmptyDirsRecursively (p : Path) (n : node) (keep : bool) : option node * bool * list errno :=
  match n with
  | FFile _ => (Some n, false, [ENOTDIR])
  | FDir es =>
    if os_fault OpOpen p then (Some n, false, [EIO])
    else if os_fault OpReaddir p then (Some n, false, [EIO])
    else
      let '(es, empty, errs) := (fix go es := match es with
        | [] => ([], true, [])
        | (name, c) :: es =>
          match c with
          | FFile _ => let '(es, empty, errs) := go es in ((name, c) :: es, false, errs)
          | FDir _ =>
            let '(c, entryEmpty, errs1) := cleanupEmptyDirsRecursively (p ++ [name]) c false in
            let '(es, empty, errs) := go es in
            (match c with Some c => (name, c) :: es | None => es end,
             if decide (errs1 = []) then entryEmpty && empty else false, errs1 ++ errs)
          end
        end) es in
      if empty && negb keep then
        if os_fault OpRemove p then (Some (FDir es), false, errs ++ [EIO]) else (None, true, errs)
      else (Some (FDir es), empty, errs)
  end.

Inductive delete_error := DeleteFailed (e : errno) | ErrCleanup (errs : list errno).

(** [DeleteMessagesBefore] on the tree at the root of the logs; [before] is a date. *)
Definition DeleteMessagesBefore (root : Path) (before : Z) (n : node) : node * option delete_error :=
  match delete_walk (FormatDate before) root n with
  | (n, Some e) => (n, Some (DeleteFailed e))
  | (n, None) =>
    match cleanupEmptyDirsRecursively root n true with
    | (n', _, []) => (default n n', None)
    | (n', _, errs) => (default n n', Some (ErrCleanup errs))
    end
  end.
End delete.
