(* ===== verification/FsHistory.v ===== *)
(** * History windows of the file-system store (msgstore/fs.go)

    The loops over days, files and lines against a reference: the messages of a log are one
    list, and a query takes the last or the first of those between two times. *)

From S2P Require Import Prelude GoStrings GoUnicode IrcMessage Effects GenMsg Database MsgID GoTime GoOs ZncLog FsStore.

Open Scope string_scope.
Open Scope list_scope.
Open Scope Z_scope.

(** ** The ring of [parseMessagesBefore] *)

(** The slot [j mod limit] holds entry [j] of the log for the last [limit] entries. *)
Record ring_repr (limit : Z) (ring : messages) (cur : Z) (log : list Message) : Prop := {
  rr_len : Z.of_nat (length ring) = limit;
  rr_cur : cur = Z.of_nat (length log);
  rr_at j : 0 ≤ j → cur - limit ≤ j < cur → ring !! Z.to_nat (j mod limit) = Some (log !! Z.to_nat j)
}.

Lemma ring_repr_init limit : 0 ≤ limit → ring_repr limit (replicate (Z.to_nat limit) None) 0 [].
Proof. intros Hl. split; [rewrite length_replicate; lia|done|intros; lia]. Qed.

Lemma ring_repr_push limit ring cur log m :
  0 < limit → ring_repr limit ring cur log → ring_repr limit (<[Z.to_nat (cur mod limit) := Some m]> ring) (cur + 1) (log ++ [m]).
Proof.
  intros Hl [Hlen -> Hat]. split; [by rewrite length_insert|rewrite length_app; cbn; lia|].
  intros j Hj Hr. pose proof (Z.mod_pos_bound j limit Hl). pose proof (Z.mod_pos_bound (Z.of_nat (length log)) limit Hl).
  destruct (decide (j = Z.of_nat (length log))) as [->|Hne].
  - rewrite list_lookup_insert_eq by lia. f_equal. symmetry. by rewrite Nat2Z.id, list_lookup_middle.
  - rewrite list_lookup_insert_ne.
    + rewrite Hat by lia. f_equal. by rewrite lookup_app_l by lia.
    + intros He%Z2Nat.inj; [|lia..]. assert ((Z.of_nat (length log) - j) mod limit = 0) as Hz.
      { by rewrite Zminus_mod, He, Z.sub_diag, Zmod_0_l. }
      rewrite Z.mod_small in Hz; lia.
Qed.

Lemma unroll_ring_repr limit ring cur log :
  0 < limit → ring_repr limit ring cur log → unroll_ring limit ring cur = Some <$> lastn (Z.to_nat limit) log.
Proof.
  intros Hl [Hlen -> Hat]. unfold unroll_ring. set (cur := Z.of_nat (length log)) in *.
  destruct (Z.ltb_spec cur limit) as [Hc|Hc].
  - replace ((cur - cur + limit) mod limit) with 0 by (replace (cur - cur + limit) with limit by lia; by rewrite Z_mod_same_full).
    rewrite (proj2 (Z.leb_le _ _)), lastn_all by lia. cbn [Z.to_nat]. rewrite drop_0. apply list_eq. intros i.
    destruct (decide (i < length log)%nat) as [Hi|Hi].
    + rewrite lookup_take_lt by lia. specialize (Hat (Z.of_nat i) ltac:(lia) ltac:(lia)). rewrite Z.mod_small, !Nat2Z.id in Hat by lia.
      rewrite Hat, list_lookup_fmap. destruct (lookup_lt_is_Some_2 log i Hi) as [x ->]. done.
    + rewrite lookup_take_ge by lia. rewrite list_lookup_fmap, lookup_ge_None_2 by lia. done.
  - replace (cur - limit + limit) with cur by lia.
    pose proof (Z.mod_pos_bound cur limit Hl) as Hs. set (start := cur mod limit) in *.
    set (k := cur / limit). assert (cur = limit * k + start) as Hk by (apply Z.div_mod; lia).
    assert (∀ i, (i < Z.to_nat limit)%nat → (Some <$> lastn (Z.to_nat limit) log) !! i =
      ring !! Z.to_nat (if start + Z.of_nat i <? limit then start + Z.of_nat i else start + Z.of_nat i - limit)) as Hspec.
    { intros i Hi. rewrite list_lookup_fmap, lookup_lastn.
      assert ((length log - Z.to_nat limit + i)%nat = Z.to_nat (cur - limit + Z.of_nat i)) as -> by lia.
      assert ((cur - limit + Z.of_nat i) mod limit = if start + Z.of_nat i <? limit then start + Z.of_nat i else start + Z.of_nat i - limit) as <-.
      { destruct (Z.ltb_spec (start + Z.of_nat i) limit).
        - symmetry. apply (Z.mod_unique_pos _ _ (k - 1)); lia.
        - symmetry. apply (Z.mod_unique_pos _ _ k); lia. }
      rewrite Hat by lia. destruct (lookup_lt_is_Some_2 log (Z.to_nat (cur - limit + Z.of_nat i))) as [x ->]; [lia|done]. }
    assert (length (Some <$> lastn (Z.to_nat limit) log) = Z.to_nat limit) as Hlast by (rewrite length_fmap, length_lastn; lia).
    apply list_eq. intros i. destruct (decide (i < Z.to_nat limit)%nat) as [Hi|Hi].
    2: { rewrite (lookup_ge_None_2 (Some <$> _)) by lia. apply lookup_ge_None_2.
         destruct (_ <=? _); rewrite ?length_app, ?length_take, ?length_drop; lia. }
    rewrite Hspec by done. destruct (Z.leb_spec (start + limit) limit).
    + rewrite lookup_take_lt by lia. rewrite lookup_drop. f_equal. destruct (Z.ltb_spec (start + Z.of_nat i) limit); lia.
    + destruct (Z.ltb_spec (start + Z.of_nat i) limit).
      * rewrite lookup_app_l by (rewrite length_take, length_drop; lia). rewrite lookup_take_lt by lia. rewrite lookup_drop. f_equal. lia.
      * rewrite lookup_app_r by (rewrite length_take, length_drop; lia). rewrite length_take, length_drop, lookup_take_lt by lia.
        f_equal. lia.
Qed.

(** ** One day *)

Definition entry_time (e : Message * Z) : Z := e.2.

(** What the scan of a file keeps: those after [lo] and before the first one that
    is not before [hi]. *)
Fixpoint taken (lo hi : Z) (sel : Message → bool) (es : list (Message * Z)) : list Message :=
  match es with
  | [] => []
  | (m, t) :: es =>
    if negb (lo <? t) then taken lo hi sel es
    else if negb (t <? hi) then []
    else if sel m then m :: taken lo hi sel es else taken lo hi sel es
  end.

(** The selected messages strictly between two times. *)
Definition window (lo hi : Z) (sel : Message → bool) (es : list (Message * Z)) : list Message :=
  fst <$> filter (λ e, lo < e.2 < hi ∧ sel e.1 = true) es.

Lemma window_app lo hi sel es1 es2 : window lo hi sel (es1 ++ es2) = window lo hi sel es1 ++ window lo hi sel es2.
Proof. unfold window. by rewrite filter_app, fmap_app. Qed.
Lemma window_cons lo hi sel e es :
  window lo hi sel (e :: es) = (if decide (lo < e.2 < hi ∧ sel e.1 = true) then [e.1] else []) ++ window lo hi sel es.
Proof. unfold window. rewrite filter_cons. by case_decide. Qed.
Lemma window_nil lo hi sel es : (∀ e, e ∈ es → ¬ lo < e.2 < hi) → window lo hi sel es = [].
Proof.
  induction es as [|e es IH]; intros Hes; [done|]. rewrite window_cons, IH by (intros; apply Hes; by right).
  by rewrite decide_False by (intros [Hw _]; by apply (Hes e); [left|]).
Qed.

Lemma window_ext lo hi lo' hi' sel es :
  (∀ e, e ∈ es → lo < e.2 < hi ↔ lo' < e.2 < hi') → window lo hi sel es = window lo' hi' sel es.
Proof.
  intros Hes. unfold window. f_equal. induction es as [|e es IH]; [done|]. rewrite !filter_cons.
  rewrite IH by (intros; apply Hes; by right). specialize (Hes e ltac:(by left)). repeat case_decide; naive_solver.
Qed.

(** On an ordered log the scan is the window. *)
Lemma taken_sorted lo hi sel es :
  StronglySorted Z.le (entry_time <$> es) → taken lo hi sel es = window lo hi sel es.
Proof.
  induction es as [|[m t] es IH]; [done|]. cbn [fmap list_fmap taken]. intros Hs. inversion_clear Hs as [|?? Hs' Hall].
  rewrite window_cons. cbn [fst snd]. destruct (Z.ltb_spec lo t); cbn [negb].
  2: { rewrite decide_False by lia. by apply IH. }
  destruct (Z.ltb_spec t hi); cbn [negb].
  - rewrite <-IH by done. destruct (sel m); [by rewrite decide_True|by rewrite decide_False by naive_solver].
  - rewrite decide_False by lia. symmetry. apply window_nil. intros e He.
    rewrite Forall_fmap, Forall_forall in Hall. specialize (Hall e He). cbn in Hall. unfold entry_time in Hall. lia.
Qed.
Lemma taken_all lo hi sel es :
  (∀ e, e ∈ es → e.2 < hi) → taken lo hi sel es = window lo hi sel es.
Proof.
  induction es as [|[m t] es IH]; [done|]. cbn [taken]. intros Hes. rewrite window_cons. cbn [fst snd].
  rewrite IH by (intros; apply Hes; by right). specialize (Hes (m, t) ltac:(by left)). cbn in Hes.
  rewrite (proj2 (Z.ltb_lt t hi)) by done. destruct (Z.ltb_spec lo t); cbn [negb]; [|by rewrite decide_False by lia].
  destruct (sel m); [by rewrite decide_True|by rewrite decide_False by naive_solver].
Qed.

Section history.
Context `{UnicodeTables} `{!zone_laws TZ} `{OsFaults}.

(** The messages of a file, in the order of its lines. *)
Fixpoint parse_log (ms : fsMessageStore) (options : FsLoadOptions) (d : Z) (toks : list string) : option (list (Message * Z)) :=
  match toks with
  | [] => Some []
  | tok :: toks =>
    match parseMessage ms tok options (wall d 0) with
    | Ok None => parse_log ms options d toks
    | Ok (Some e) => es ← parse_log ms options d toks; Some (e :: es)
    | _ => None
    end
  end.

(** [day_log s options d es]: the file of the day [d] holds the messages [es], or there is
    none. *)
Definition day_log (s : fsState) (options : FsLoadOptions) (d : Z) (es : list (Message * Z)) : Prop :=
  match os_Open (st_os s) (logPath (st_store s) (lNetwork options) (lEntity options) (wall d 0)) with
  | inr ENOENT => es = []
  | inl (FFile i) =>
    ∃ toks, scan_lines (split_lines (i_data (inode_at (st_os s) i))) = (toks, None) ∧ parse_log (st_store s) options d toks = Some es
  | _ => False
  end.

Lemma logPath_date ms net entity t : logPath ms net entity (wall (date_of t) 0) = logPath ms net entity t.
Proof. unfold logPath. by rewrite date_of_wall by lia. Qed.
Lemma parseMessage_date ms tok options t : parseMessage ms tok options (wall (date_of t) 0) = parseMessage ms tok options t.
Proof. unfold parseMessage, UnmarshalLine. by rewrite date_of_wall by lia. Qed.
Lemma parseMessage_limit ms tok options ref k : parseMessage ms tok (with_limit options k) ref = parseMessage ms tok options ref.
Proof. done. Qed.

(** [pure_on sel selector es]: on these messages the selector is the function [sel]. *)
Definition pure_on (sel : Message → bool) (selector : Message → res goerr bool) (es : list (Message * Z)) : Prop :=
  ∀ e, e ∈ es → selector e.1 = Ok (sel e.1).

Lemma parse_log_cons ms options d tok toks es :
  parse_log ms options d (tok :: toks) = Some es →
  (parseMessage ms tok options (wall d 0) = Ok None ∧ parse_log ms options d toks = Some es) ∨
  ∃ e es', parseMessage ms tok options (wall d 0) = Ok (Some e) ∧ parse_log ms options d toks = Some es' ∧ es = e :: es'.
Proof.
  cbn [parse_log]. destruct (parseMessage ms tok options (wall d 0)) as [[e|]| |]; [|by left|done..].
  destruct (parse_log ms options d toks) as [es'|]; [|done]. cbn. intros [= <-]. right. eauto.
Qed.

Lemma before_loop_spec ms ref lo options k selector sel toks es ring cur log :
  0 < k → parse_log ms options (date_of ref) toks = Some es → pure_on sel selector es → ring_repr k ring cur log →
  ∃ ring' cur' b, before_loop ms ref lo (with_limit options k) selector toks ring cur = Ok (ring', cur', b) ∧
    ring_repr k ring' cur' (log ++ taken lo ref sel es).
Proof.
  intros Hk. revert es ring cur log. induction toks as [|tok toks IH]; intros es ring cur log Hp Hsel Hr.
  { injection Hp as <-. exists ring, cur, false. by rewrite app_nil_r. }
  apply parse_log_cons in Hp as [[Hm Hp]|(e & es' & Hm & Hp & ->)]; rewrite parseMessage_date in Hm;
    cbn [before_loop]; rewrite parseMessage_limit, Hm; cbn [mbind res_mbind res_bind]; [by apply IH|].
  assert (pure_on sel selector es') as Hsel' by (intros x Hx; apply Hsel; by right).
  destruct e as [m t]. cbn [taken]. destruct (negb (lo <? t)); [by apply IH|].
  destruct (negb (t <? ref)); [exists ring, cur, true; by rewrite app_nil_r|].
  rewrite (Hsel (m, t) ltac:(by left) : selector m = _). cbn [mbind res_mbind res_bind fst]. destruct (sel m); [|by apply IH].
  cbn [lLimit with_limit]. rewrite decide_False by lia.
  destruct (IH es' _ _ _ Hp Hsel' (ring_repr_push _ _ _ _ m Hk Hr)) as (ring' & cur' & b & Hrun & Hr').
  exists ring', cur', b. split; [done|]. by rewrite <-app_assoc in Hr'.
Qed.

(** One file read backwards gives the last of what the scan keeps. *)
Lemma parseMessagesBefore_toks s ref lo options k off selector sel i toks es :
  0 < k → os_Open (st_os s) (logPath (st_store s) (lNetwork options) (lEntity options) ref) = inl (FFile i) →
  (if 0 <=? off then skip_token (scan_lines (split_lines (str_drop (Z.to_nat off) (i_data (inode_at (st_os s) i)))))
   else scan_lines (split_lines (i_data (inode_at (st_os s) i)))) = (toks, None) →
  parse_log (st_store s) options (date_of ref) toks = Some es → pure_on sel selector es →
  parseMessagesBefore s ref lo (with_limit options k) off selector = Ok (Some <$> lastn (Z.to_nat k) (taken lo ref sel es)).
Proof.
  intros Hk Ho Hsc Hp Hsel. unfold parseMessagesBefore. cbn [lNetwork lEntity lLimit with_limit].
  rewrite Ho, (proj2 (Z.ltb_ge _ _)), Hsc by lia. cbn [fst snd].
  destruct (before_loop_spec (st_store s) ref lo options k selector sel toks es _ _ [] Hk Hp Hsel (ring_repr_init k ltac:(lia)))
    as (ring & cur & b & -> & Hr). cbn [mbind res_mbind res_bind]. rewrite bool_decide_false by (intros [? [=]]). cbn [andb].
  rewrite decide_False by lia. by rewrite (unroll_ring_repr _ _ _ _ Hk Hr).
Qed.

Lemma parseMessagesBefore_spec s ref lo options k selector sel es :
  0 < k → day_log s options (date_of ref) es → pure_on sel selector es →
  parseMessagesBefore s ref lo (with_limit options k) (-1) selector =
  Ok (Some <$> lastn (Z.to_nat k) (taken lo ref sel es)).
Proof.
  intros Hk Hd Hsel. unfold day_log in Hd. rewrite logPath_date in Hd.
  destruct (os_Open _ _) as [[i|]|[]] eqn:Ho; try done.
  - destruct Hd as (toks & Hsc & Hp). by apply (parseMessagesBefore_toks _ _ _ _ _ _ _ _ i toks).
  - unfold parseMessagesBefore. cbn [lNetwork lEntity with_limit]. rewrite Ho. by subst es.
Qed.

Lemma after_loop_spec ms ref hi options k selector sel toks es history :
  parse_log ms options (date_of ref) toks = Some es → pure_on sel selector es → (length history ≤ k)%nat →
  ∃ b, after_loop ms ref hi (with_limit options (Z.of_nat k)) selector toks history =
    Ok (history ++ (Some <$> take (k - length history) (taken ref hi sel es)), b).
Proof.
  revert es history. induction toks as [|tok toks IH]; intros es history Hp Hsel Hlen.
  { injection Hp as <-. exists false. cbn [taken]. by rewrite take_nil, app_nil_r. }
  cbn [after_loop lLimit with_limit]. destruct (Z.leb_spec (Z.of_nat k) (Z.of_nat (length history))) as [Hk|Hk].
  { exists true. replace (k - length history)%nat with 0%nat by lia. by rewrite app_nil_r. }
  apply parse_log_cons in Hp as [[Hm Hp]|(e & es' & Hm & Hp & ->)]; rewrite parseMessage_date in Hm;
    rewrite parseMessage_limit, Hm; cbn [mbind res_mbind res_bind]; [by apply IH|].
  assert (pure_on sel selector es') as Hsel' by (intros x Hx; apply Hsel; by right).
  destruct e as [m t]. cbn [taken]. destruct (negb (ref <? t)); [by apply IH|].
  destruct (negb (t <? hi)); [exists true; by rewrite take_nil, app_nil_r|].
  rewrite (Hsel (m, t) ltac:(by left) : selector m = _). cbn [mbind res_mbind res_bind fst]. destruct (sel m); [|by apply IH].
  destruct (IH es' (history ++ [Some m]) Hp Hsel') as [b Hrun]; [rewrite length_app; cbn; lia|].
  exists b. rewrite Hrun. rewrite length_app, <-app_assoc. cbn [length app].
  by replace (k - length history)%nat with (S (k - (length history + 1))) by lia.
Qed.

Lemma parseMessagesAfter_spec s ref hi options k selector sel es :
  0 < k → day_log s options (date_of ref) es → pure_on sel selector es →
  parseMessagesAfter s ref hi (with_limit options k) selector = Ok (Some <$> take (Z.to_nat k) (taken ref hi sel es)).
Proof.
  intros Hk Hd Hsel. unfold day_log in Hd. rewrite logPath_date in Hd. unfold parseMessagesAfter. cbn [lNetwork lEntity with_limit].
  destruct (os_Open _ _) as [[i|]|[]]; try done; [|subst es; cbn [taken]; by rewrite take_nil].
  destruct Hd as (toks & Hsc & Hp). rewrite Hsc. cbn [fst snd].
  destruct (after_loop_spec (st_store s) ref hi options (Z.to_nat k) selector sel toks es [] Hp Hsel ltac:(cbn; lia)) as [b Hrun].
  rewrite Z2Nat.id in Hrun by lia. rewrite Hrun. cbn [mbind res_mbind res_bind]. rewrite bool_decide_false by (intros [? [=]]).
  cbn [andb length app]. by rewrite Nat.sub_0_r.
Qed.

(** ** The loop over days *)

(** The messages of [n] days from [d] on. *)
Definition days_from {A} (sel : Z → list A) (d : Z) (n : nat) : list A := mjoin (sel <$> seqZ d (Z.of_nat n)).

Lemma days_from_S {A} (sel : Z → list A) d n : days_from sel d (S n) = days_from sel d n ++ sel (d + Z.of_nat n).
Proof.
  unfold days_from. rewrite Nat2Z.inj_succ, <-Z.add_1_r, seqZ_app by lia. rewrite fmap_app, join_app.
  assert (seqZ (d + Z.of_nat n) 1 = [d + Z.of_nat n]) as -> by (unfold seqZ; cbn; f_equal; lia).
  cbn [fmap list_fmap]. by rewrite mjoin_cons, app_nil_r.
Qed.
Lemma days_from_cons {A} (sel : Z → list A) d n : days_from sel d (S n) = sel d ++ days_from sel (d + 1) n.
Proof. unfold days_from. rewrite seqZ_cons by lia. cbn [fmap list_fmap].
  rewrite mjoin_cons, <-Z.add_1_r. by replace (Z.pred (Z.of_nat (S n))) with (Z.of_nat n) by lia. Qed.
Lemma days_from_nil {A} (sel : Z → list A) d n : (∀ d', d ≤ d' < d + Z.of_nat n → sel d' = []) → days_from sel d n = [].
Proof.
  induction n as [|n IH]; intros Hs; [done|]. rewrite days_from_S, IH by (intros; apply Hs; lia).
  by rewrite Hs by lia.
Qed.

(** No 100 days in a row between [lo] and [hi] are without a message. *)
Definition no_gap {A} (sel : Z → list A) (lo hi : Z) : Prop :=
  ∀ d, lo ≤ d → d + fsMessageStoreMaxTries - 1 ≤ hi → ∃ d', d ≤ d' < d + fsMessageStoreMaxTries ∧ sel d' ≠ [].

Lemma loop_fuel_enough limit : 0 ≤ limit → fsMessageStoreMaxTries * limit + fsMessageStoreMaxTries < Z.of_nat (loop_fuel limit).
Proof. intros Hl. unfold loop_fuel, fsMessageStoreMaxTries. lia. Qed.

(** The instants a loop visits: the first one, then the ends or the starts of other days. *)
Definition visited_back (t u : Z) : Prop := u = t ∨ (u = wall (date_of u + 1) 0 - 1 ∧ date_of u < date_of t).
Definition visited_forward (t u : Z) : Prop := u = t ∨ (u = wall (date_of u) 0 ∧ date_of t < date_of u).

(** The earliest day that a query going back from [hi] to [lo] reads: it stops when 100 days in a
    row had no message. *)
Definition reached {A} (sel : Z → list A) (lo hi first : Z) : Prop :=
  lo ≤ first ≤ hi ∧ no_gap sel (first + 1) hi ∧
  (first = lo ∨ first + fsMessageStoreMaxTries - 1 ≤ hi ∧ ∀ d, first ≤ d < first + fsMessageStoreMaxTries → sel d = []).

Lemma reached_exists {A} (sel : Z → list A) lo hi : lo ≤ hi → ∃ first, reached sel lo hi first.
Proof.
  intros Hle. assert (∀ n : nat, no_gap sel (hi + 1 - Z.of_nat n) hi ∨
    ∃ first, hi + 1 - Z.of_nat n ≤ first ∧ no_gap sel (first + 1) hi ∧ first + fsMessageStoreMaxTries - 1 ≤ hi ∧
      ∀ d, first ≤ d < first + fsMessageStoreMaxTries → sel d = []) as Hall.
  { induction n as [|n [IH|(first & Hf & Hrest)]].
    - left. intros d Hd Hm. unfold fsMessageStoreMaxTries in *. lia.
    - set (c := hi + 1 - Z.of_nat (S n)). replace (hi + 1 - Z.of_nat n) with (c + 1) in IH by (unfold c; lia).
      destruct (decide (c + fsMessageStoreMaxTries - 1 ≤ hi)) as [Hm|Hm]; [|left; intros d Hd Hd'; apply IH; [|done];
        destruct (decide (d = c)) as [->|]; lia].
      destruct (decide (Forall (λ d, length (sel d) = 0%nat) (seqZ c fsMessageStoreMaxTries))) as [Hgap|Hgap].
      + right. exists c. split_and!; [lia|done|done|]. intros d Hd. apply nil_length_inv.
        rewrite Forall_forall in Hgap. apply Hgap, elem_of_seqZ. lia.
      + left. intros d Hd Hd'. destruct (decide (d = c)) as [->|]; [|apply IH; lia].
        apply not_Forall_Exists, Exists_exists in Hgap as (d & Hdc%elem_of_seqZ & Hne); [|intros; apply _].
        exists d. split; [lia|]. intros Heq. apply Hne. cbn. by rewrite Heq.
    - right. exists first. split; [lia|done]. }
  destruct (Hall (Z.to_nat (hi + 1 - lo))) as [Hgap|(first & Hf & Hgap & Hm & Hnil)];
    rewrite Z2Nat.id in * by lia; replace (hi + 1 - (hi + 1 - lo)) with lo in * by lia.
  - exists lo. split_and!; [lia|lia| |by left]. intros d Hd. apply Hgap. lia.
  - exists first. split_and!; [done|unfold fsMessageStoreMaxTries in *; lia|done|by right].
Qed.

Lemma reached_no_gap {A} (sel : Z → list A) lo hi first : reached sel lo hi first → no_gap sel lo hi → first = lo.
Proof.
  intros (Hle & _ & [?|[Hm Hnil]]) Hgap; [done|]. destruct (Hgap first) as (d & Hd & Hne); [lia|done|]. destruct Hne. auto.
Qed.

(** The loop of [getBeforeTime] and [LoadLatestID], for a [read] that gives the last messages
    of a day: it collects the last messages of the days down to [lo], where it meets the end of
    the window or the end of a gap. *)
Lemma back_loop_spec ctx guard read sel lo hi n fuel round t remaining tries acc :
  (∀ r, ctx r = None) → no_gap sel (lo + 1) hi → date_of t = lo + Z.of_nat n - 1 → date_of t ≤ hi →
  (∀ u k, lo ≤ date_of u → visited_back t u → 0 < k → read u k = Ok (Some <$> lastn (Z.to_nat k) (sel (date_of u)))) →
  (∀ u, visited_back t u → guard u = false → ∀ d, lo ≤ d ≤ date_of u → sel d = []) →
  ((∀ u, date_of u < lo → guard u = false) ∨
   lo + fsMessageStoreMaxTries - 1 ≤ hi ∧ ∀ d, lo ≤ d < lo + fsMessageStoreMaxTries → sel d = []) →
  0 ≤ remaining → 0 ≤ tries ≤ fsMessageStoreMaxTries → (lo ≤ date_of t → tries < fsMessageStoreMaxTries) →
  (date_of t + tries = hi ∨ date_of t + tries < hi ∧ sel (date_of t + tries + 1) ≠ []) →
  (∀ d, date_of t < d ≤ date_of t + tries → sel d = []) →
  fsMessageStoreMaxTries * remaining + fsMessageStoreMaxTries - tries < Z.of_nat fuel →
  back_loop fuel ctx guard read round t remaining tries acc =
  Ok ((Some <$> lastn (Z.to_nat remaining) (days_from sel lo n)) ++ acc).
Proof.
  intros Hctx Hgap. revert fuel round t remaining tries acc.
  induction n as [|n IH]; intros fuel round t remaining tries acc Hn Hhi Hread Hguard Hend Hrem Htries Hlt Hle Hempty Hfuel;
    (destruct fuel as [|fuel]; [unfold fsMessageStoreMaxTries in *; lia|]); cbn [back_loop].
  { destruct Hend as [Hend|[Hm Hnil]]; [rewrite (Hend t) by lia; by rewrite !andb_false_r|].
    rewrite (proj2 (Z.ltb_ge tries _)); [by rewrite andb_false_r|].
    destruct (decide (fsMessageStoreMaxTries ≤ tries)) as [|Hm']; [done|]. destruct Hle as [?|[? []]]; [lia|]. apply Hnil. lia. }
  destruct (Z.ltb_spec 0 remaining) as [Hr|Hr]; cbn [andb].
  2: { replace (Z.to_nat remaining) with 0%nat by lia. unfold lastn. by rewrite drop_ge by lia. }
  rewrite (proj2 (Z.ltb_lt tries _)) by lia. cbn [andb]. rewrite days_from_S. replace (lo + Z.of_nat n) with (date_of t) by lia.
  destruct (guard t) eqn:Hg.
  2: { assert (∀ d, lo ≤ d ≤ date_of t → sel d = []) as Hnil by (apply Hguard; [by left|done]).
       rewrite days_from_nil, Hnil by (intros; try apply Hnil; lia). done. }
  rewrite (Hread t remaining) by (lia || by left). cbn [mbind res_mbind res_bind]. rewrite Hctx. rewrite length_fmap.
  set (t' := wall (date_of t) 0 - 1).
  assert (date_of t' = date_of t - 1) as Ht'.
  { pose proof (midnight_first (date_of t) t'). pose proof (midnight_first (date_of t - 1) t').
    pose proof (wall_before_midnight (date_of t - 1) 0 ltac:(lia)) as Hw. replace (date_of t - 1 + 1) with (date_of t) in Hw by lia.
    unfold t' in *. lia. }
  assert (∀ u, visited_back t' u → visited_back t u) as Hstep.
  { intros u [->|[? ?]]; right; [|split; [done|lia]]. rewrite Ht'. split; [unfold t'; do 2 f_equal|]; lia. }
  assert (length (lastn (Z.to_nat remaining) (sel (date_of t))) = 0%nat ↔ sel (date_of t) = []) as Hzero.
  { rewrite length_lastn. split; [intros Hz; apply nil_length_inv; lia|intros ->; cbn; lia]. }
  rewrite IH; clear IH.
  - rewrite length_lastn, lastn_app_r, app_assoc. f_equal. f_equal. case_decide as Hd.
    + rewrite Nat.min_l, Z2Nat.id, Z.sub_diag by lia. unfold lastn at 1. by rewrite drop_ge by lia.
    + rewrite Nat.min_r, (lastn_all _ (sel _)), fmap_app by lia. do 3 f_equal. lia.
  - lia.
  - lia.
  - intros u k Hlo Hu Hk. by apply Hread; [|apply Hstep|].
  - intros u Hu Hgu. by apply Hguard; [apply Hstep|].
  - done.
  - rewrite length_lastn. lia.
  - case_decide; lia.
  - intros Hlo. case_decide as Hz; [|unfold fsMessageStoreMaxTries; lia].
    destruct (decide (tries + 1 < fsMessageStoreMaxTries)) as [?|Hmax]; [done|].
    destruct (Hgap (date_of t)) as (d & Hd & Hne); [lia|lia|]. destruct Hne.
    destruct (decide (d = date_of t)) as [->|]; [by apply Hzero|apply Hempty; lia].
  - rewrite Ht'. case_decide as Hz.
    + replace (date_of t - 1 + (tries + 1)) with (date_of t + tries) by lia. done.
    + destruct (decide (date_of t - 1 + 0 = hi)); [by left|right]. split; [lia|].
      replace (date_of t - 1 + 0 + 1) with (date_of t) by lia. by intros ?%Hzero.
  - rewrite Ht'. case_decide as Hz; [|intros; lia]. intros d Hd. destruct (decide (d = date_of t)) as [->|]; [by apply Hzero|apply Hempty; lia].
  - rewrite length_lastn. case_decide as Hz; [lia|]. unfold fsMessageStoreMaxTries in *. lia.
Qed.

Lemma date_of_next d : date_of (wall d 0) = d.
Proof. apply date_of_wall. lia. Qed.

(** The loop of [getAfterTime] collects the first messages of all days up to [hi]. *)
Lemma forward_loop_spec ctx guard read sel lo hi n fuel round t remaining tries acc :
  (∀ r, ctx r = None) → no_gap sel lo hi → date_of t + Z.of_nat n = hi + 1 → lo ≤ date_of t →
  (∀ u k, visited_forward t u → date_of u ≤ hi → 0 < k → read u k = Ok (Some <$> take (Z.to_nat k) (sel (date_of u)))) →
  (∀ u, visited_forward t u → guard u = false → ∀ d, date_of u ≤ d ≤ hi → sel d = []) →
  (∀ u, hi < date_of u → guard u = false) →
  0 ≤ remaining → 0 ≤ tries < fsMessageStoreMaxTries → lo ≤ date_of t - tries →
  (∀ d, date_of t - tries ≤ d < date_of t → sel d = []) →
  fsMessageStoreMaxTries * remaining + fsMessageStoreMaxTries - tries < Z.of_nat fuel →
  forward_loop fuel ctx guard read round t remaining tries acc =
  Ok (acc ++ (Some <$> take (Z.to_nat remaining) (days_from sel (date_of t) n))).
Proof.
  intros Hctx Hgap. revert fuel round t remaining tries acc.
  induction n as [|n IH]; intros fuel round t remaining tries acc Hn Hlo Hread Hguard Hend Hrem Htries Hle Hempty Hfuel;
    (destruct fuel as [|fuel]; [unfold fsMessageStoreMaxTries in *; lia|]); cbn [forward_loop].
  { rewrite (Hend t) by lia. rewrite !andb_false_r. rewrite days_from_nil by lia. by rewrite take_nil, app_nil_r. }
  destruct (Z.ltb_spec 0 remaining) as [Hr|Hr]; cbn [andb].
  2: { replace (Z.to_nat remaining) with 0%nat by lia. by rewrite app_nil_r. }
  rewrite (proj2 (Z.ltb_lt tries _)) by lia. cbn [andb].
  destruct (guard t) eqn:Hg.
  2: { rewrite days_from_nil; [by rewrite take_nil, app_nil_r|]. intros d Hd. apply (Hguard t); [by left|done|lia]. }
  rewrite days_from_cons, (Hread t remaining) by (lia || by left). cbn [mbind res_mbind res_bind]. rewrite Hctx. rewrite length_fmap.
  set (t' := wall (date_of t + 1) 0). assert (date_of t' = date_of t + 1) as Ht' by apply date_of_next.
  assert (∀ u, visited_forward t' u → visited_forward t u) as Hstep.
  { intros u [->|[? ?]]; right; [|split; [done|lia]]. rewrite Ht'. split; [done|lia]. }
  rewrite length_take. rewrite IH; clear IH; rewrite ?Ht'.
  - rewrite take_app, fmap_app, <-app_assoc. do 5 f_equal. lia.
  - lia.
  - lia.
  - intros u k Hu Hut Hk. by apply Hread; [apply Hstep|..].
  - intros u Hu Hgu. by apply Hguard; [apply Hstep|].
  - done.
  - lia.
  - case_decide; [|unfold fsMessageStoreMaxTries; lia]. split; [lia|].
    destruct (decide (tries + 1 < fsMessageStoreMaxTries)) as [?|Hmax]; [done|].
    destruct (Hgap (date_of t - tries)) as (d & Hd & Hne); [lia|lia|]. destruct Hne.
    destruct (decide (d = date_of t)) as [->|]; [|apply Hempty; lia].
    apply nil_length_inv. lia.
  - case_decide; lia.
  - case_decide; [|lia]. intros d Hd. destruct (decide (d = date_of t)) as [->|]; [apply nil_length_inv; lia|apply Hempty; lia].
  - case_decide; [lia|]. unfold fsMessageStoreMaxTries in *. lia.
Qed.

(** ** Queries *)

(** A log: the messages of each day, with times of that day. *)
Record is_log (s : fsState) (options : FsLoadOptions) (log : Z → list (Message * Z)) (lo hi : Z) : Prop := {
  il_file d : lo ≤ d ≤ hi → day_log s options d (log d);
  il_day d e : lo ≤ d ≤ hi → e ∈ log d → date_of e.2 = d ∧ e.2 < wall (d + 1) 0 - 1
}.

Definition whole_log (log : Z → list (Message * Z)) (lo hi : Z) : list (Message * Z) := days_from log lo (Z.to_nat (hi - lo + 1)).

Lemma window_days lo hi sel log d n :
  window lo hi sel (days_from log d n) = days_from (λ d, window lo hi sel (log d)) d n.
Proof. induction n as [|n IH]; [done|]. by rewrite !days_from_S, window_app, IH. Qed.

Lemma days_from_ext {A} (f g : Z → list A) d n : (∀ d', d ≤ d' < d + Z.of_nat n → f d' = g d') → days_from f d n = days_from g d n.
Proof. induction n as [|n IH]; intros Hfg; [done|]. rewrite !days_from_S, IH by (intros; apply Hfg; lia). by rewrite Hfg by lia. Qed.

Lemma il_time s options log lo hi d e : is_log s options log lo hi → lo ≤ d ≤ hi → e ∈ log d → wall d 0 ≤ e.2 < wall (d + 1) 0 - 1.
Proof. intros [_ Hd] Hr He. destruct (Hd d e Hr He) as [<- ?]. split; [|done]. by apply midnight_first. Qed.

Lemma window_hi s options log lo hi a b c sel d :
  is_log s options log lo hi → lo ≤ d ≤ hi → wall (d + 1) 0 - 1 ≤ b → wall (d + 1) 0 - 1 ≤ c →
  window a b sel (log d) = window a c sel (log d).
Proof. intros Hl Hr Hb Hc. apply window_ext. intros e He. pose proof (il_time _ _ _ _ _ _ _ Hl Hr He). lia. Qed.


(** Messages at the first instant of a day are only read on the day of [start]. *)
Definition skip_midnights (start : Z) (log : Z → list (Message * Z)) (d : Z) : list (Message * Z) :=
  if decide (d = date_of start) then log d else filter (λ e, e.2 ≠ wall d 0) (log d).

Lemma window_skip_midnight lo hi sel d es :
  lo < wall d 0 → (∀ e, e ∈ es → wall d 0 ≤ e.2) → window (wall d 0) hi sel es = window lo hi sel (filter (λ e, e.2 ≠ wall d 0) es).
Proof.
  intros Hlo. induction es as [|e es IH]; intros Hes; [done|]. rewrite filter_cons, window_cons.
  rewrite IH by (intros; apply Hes; by right). specialize (Hes e ltac:(by left)).
  destruct (decide (e.2 ≠ wall d 0)) as [Hne|He].
  - rewrite window_cons. f_equal. destruct (decide (lo < e.2 < hi ∧ sel e.1 = true)), (decide (wall d 0 < e.2 < hi ∧ sel e.1 = true)); naive_solver lia.
  - rewrite decide_False by lia. done.
Qed.

(** A query for the messages after a time returns the first [limit] of the selected
    messages strictly between the two bounds, except that it does not return those logged at
    midnight of a day after the first. *)
Theorem history_after ctx now s start end_ options selector sel log :
  (∀ r, ctx r = None) → IsZero end_ = false → start < end_ → 0 ≤ lLimit options →
  is_log s options log (date_of start) (date_of end_) →
  StronglySorted Z.le (entry_time <$> log (date_of end_)) →
  (∀ d, date_of start ≤ d ≤ date_of end_ → pure_on sel selector (log d)) →
  no_gap (λ d, window start end_ sel (skip_midnights start log d)) (date_of start) (date_of end_) →
  getAfterTime ctx now s start end_ options selector =
  Ok (Some <$> take (Z.to_nat (lLimit options))
    (window start end_ sel (whole_log (skip_midnights start log) (date_of start) (date_of end_)))).
Proof.
  intros Hctx Hz Hlt Hlim Hlog Hsort Hpure Hgap. unfold getAfterTime. rewrite Hz.
  assert (date_of start ≤ date_of end_) as Hdays.
  { apply midnight_first. pose proof (proj2 (midnight_first (date_of start) start)). lia. }
  unfold whole_log. rewrite window_days.
  rewrite (forward_loop_spec _ _ _ (λ d, window start end_ sel (skip_midnights start log d)) (date_of start) (date_of end_)
    (Z.to_nat (date_of end_ - date_of start + 1))).
  - done.
  - done.
  - done.
  - lia.
  - done.
  - intros u k Hu Hhi Hk. assert (date_of start ≤ date_of u) as Hle by (destruct Hu as [->|[_ ?]]; lia).
    rewrite (parseMessagesAfter_spec _ _ _ _ _ _ sel (log (date_of u))); [|done|by apply Hlog; lia|by apply Hpure; lia].
    do 3 f_equal.
    assert (taken u end_ sel (log (date_of u)) = window u end_ sel (log (date_of u))) as ->.
    { destruct (decide (date_of u = date_of end_)) as [He|Hne]; [rewrite He in *; by apply taken_sorted|].
      apply taken_all. intros e He. pose proof (il_time _ _ _ _ _ _ e Hlog (conj Hle Hhi) He).
      pose proof (proj2 (midnight_first (date_of u + 1) end_)). lia. }
    unfold skip_midnights. destruct Hu as [->|[Hu Hgt]]; [by rewrite decide_True|]. rewrite decide_False by lia.
    rewrite Hu at 1. apply window_skip_midnight.
    + pose proof (proj1 (midnight_first (date_of u) start)). lia.
    + intros e He. apply (il_time _ _ _ _ _ _ e Hlog (conj Hle Hhi) He).
  - intros u Hu Hg d Hd. apply window_nil. intros e He. apply Z.ltb_ge in Hg.
    assert (date_of start ≤ date_of u) as Hle by (destruct Hu as [->|[_ ?]]; lia).
    assert (e ∈ log d) as He'.
    { unfold skip_midnights in He. case_decide; [done|]. by apply list_elem_of_filter in He as [_ ?]. }
    pose proof (il_time _ _ _ _ _ _ e Hlog (conj (Z.le_trans _ _ _ Hle (proj1 Hd)) (proj2 Hd)) He').
    destruct Hu as [->|[Hu ?]]; [lia|]. pose proof (proj2 (midnight_first (date_of u) (wall d 0))). rewrite date_of_next in *. lia.
  - intros u Hu. apply Z.ltb_ge. pose proof (date_of_range end_). pose proof (proj2 (midnight_first (date_of end_ + 1) u)). lia.
  - done.
  - unfold fsMessageStoreMaxTries. lia.
  - lia.
  - lia.
  - pose proof (loop_fuel_enough (lLimit options) Hlim). lia.
Qed.
End history.
