(* ===== verification/FsAppend.v ===== *)
(** * Appending to the file-system store and resuming from an ID (msgstore/fs.go)

    The invariant of the store's table of open files, the effect of [Append] on the contents
    of the log files, and what [LoadLatestID] reads after the message of an ID. *)

From S2P Require Import Prelude GoStrings GoUnicode IrcMessage Effects GenMsg Database MsgID GoTime GoOs ZncLog FsStore FsHistory.

Open Scope string_scope.
Open Scope list_scope.
Open Scope Z_scope.

(** ** Trees *)

(** No file is above a path, and no directory is at it. *)
Definition loggable_path (n : node) (p : Path) : Prop :=
  (∀ q i, q `prefix_of` removelast p → lookup_node n q ≠ inl (FFile i)) ∧ (∀ es, lookup_node n p ≠ inl (FDir es)).

Lemma mkdir_all_ok n p : (∀ q i, q `prefix_of` p → lookup_node n q ≠ inl (FFile i)) → ∃ n', mkdir_all n p = inl n'.
Proof.
  revert n. induction p as [|c p IH]; intros [i|es] Hq; cbn.
  - by destruct (Hq [] i).
  - eauto.
  - destruct (Hq [] i); [apply prefix_nil|done].
  - destruct (IH (default (FDir []) (entry c es))) as [n' ->]; [|eauto]. intros q i Hpre Hl.
    destruct (entry c es) as [m|] eqn:E; cbn in Hl; [|by destruct q].
    apply (Hq (c :: q) i); [by apply prefix_cons|]. cbn. by rewrite E.
Qed.

(** The directories that appear are those on the path. *)
Lemma mkdir_all_dir n p n' q es :
  mkdir_all n p = inl n' → lookup_node n' q = inl (FDir es) → (∃ es', lookup_node n q = inl (FDir es')) ∨ q `prefix_of` p.
Proof.
  revert n n' q. induction p as [|c p IH]; intros [i|es0] n' q; cbn [mkdir_all]; try done; [intros [= <-]; eauto|].
  destruct (mkdir_all _ p) as [m|e] eqn:E; [|done]. intros [= <-]. destruct q as [|d q]; [right; apply prefix_nil|]. cbn [lookup_node].
  destruct (decide (c = d)) as [->|Hne]; [|rewrite entry_set_ne by done; eauto].
  rewrite entry_set_eq. intros Hq. destruct (IH _ _ _ E Hq) as [[es' Hl]|Hpre]; [|right; by apply prefix_cons].
  destruct (entry d es0) as [k|]; [eauto|]. cbn in Hl. destruct q; [right; by apply prefix_cons, prefix_nil|done].
Qed.

Lemma put_node_ok n p c x es : lookup_node n p = inl (FDir es) → ∃ n', put_node n (p ++ [c]) x = inl n'.
Proof.
  revert n. induction p as [|d p IH]; intros n; [intros [= ->]; cbn; eauto|].
  cbn [lookup_node app put_node]. destruct n as [i|es']; [done|]. destruct (entry d es') as [m|]; [|done]. intros Hl.
  destruct (IH m Hl) as [n' Hn']. destruct (p ++ [c]) as [|d' r] eqn:E; [by destruct p|]. rewrite Hn'. eauto.
Qed.

Lemma removelast_snoc {A} (p : list A) c : removelast (p ++ [c]) = p.
Proof. by rewrite removelast_last. Qed.

(** A path through a file leads nowhere. *)
Lemma lookup_through_file n p q i : lookup_node n p = inl (FFile i) → q ≠ [] → ∀ x, lookup_node n (p ++ q) ≠ inl x.
Proof.
  revert n. induction p as [|c p IH]; intros n; cbn [lookup_node app].
  - intros [= ->] Hq x. by destruct q.
  - destruct n as [j|es]; [done|]. destruct (entry c es); [|done]. apply IH.
Qed.

(** ** The invariant *)

(** Every file has an inode of its own. *)
Record os_wf (o : os) : Prop := {
  wf_fresh p i : lookup_node (os_tree o) p = inl (FFile i) → (i < os_next o)%nat;
  wf_inj p q i : lookup_node (os_tree o) p = inl (FFile i) → lookup_node (os_tree o) q = inl (FFile i) → p = q
}.

(** Open files are the files at their names, and at most 20. *)
Record fs_wf (s : fsState) : Prop := {
  wf_os : os_wf (st_os s);
  wf_open entity f : fs_files (st_store s) !! entity = Some f →
    f_closed f = false ∧ lookup_node (os_tree (st_os s)) (f_name f) = inl (FFile (f_ino f));
  wf_size : (size (fs_files (st_store s)) ≤ fsMessageStoreMaxFiles)%nat
}.

(** The contents of the file at a path. *)
Definition log_data (o : os) (p : Path) : string :=
  match lookup_node (os_tree o) p with inl (FFile i) => i_data (inode_at o i) | _ => "" end.

(** The store is untouched but for its files. *)
Definition same_store (s s' : fsState) : Prop :=
  fs_root (st_store s') = fs_root (st_store s) ∧ fs_user (st_store s') = fs_user (st_store s).

Section append.
Context `{UnicodeTables} `{!zone_laws TZ} `{OsFaults} `{Bare msgIDHeader, Bare fsMsgID}.
Context (Hnf : ∀ op p, os_fault op p = false).

(** Opening a file for appending creates it empty when it does not exist. *)
Lemma os_OpenAppend_spec now o p c es :
  lookup_node (os_tree o) p = inl (FDir es) → (∀ es, lookup_node (os_tree o) (p ++ [c]) ≠ inl (FDir es)) →
  (∀ q i, lookup_node (os_tree o) q = inl (FFile i) → (i < os_next o)%nat) →
  ∃ o' i, os_OpenAppend now (p ++ [c]) o = inl (o', i) ∧ lookup_node (os_tree o') (p ++ [c]) = inl (FFile i) ∧
    (os_next o ≤ os_next o')%nat ∧
    ((o' = o) ∨ (i = os_next o ∧ os_next o' = S i ∧ os_inodes o' = <[i := MkInode "" now]> (os_inodes o) ∧
      lookup_node (os_tree o) (p ++ [c]) = inr ENOENT)) ∧
    (∀ q j, q ≠ p ++ [c] → lookup_node (os_tree o') q = inl (FFile j) ↔ lookup_node (os_tree o) q = inl (FFile j)).
Proof.
  intros Hp Hnd Hfresh. unfold os_OpenAppend. rewrite Hnf. destruct (lookup_node (os_tree o) (p ++ [c])) as [[i|es']|e] eqn:El.
  - exists o, i. split_and!; auto.
  - by destruct (Hnd es').
  - assert (e = ENOENT) as ->.
    { clear -Hp El. revert Hp El. generalize (os_tree o). induction p as [|d p IH]; intros n Hp; cbn in *.
      - injection Hp as ->. destruct (entry c es); by intros [= <-].
      - destruct n as [i|es']; [done|]. destruct (entry d es') as [m|]; [by apply IH|done]. }
    destruct (put_node_ok _ _ c (FFile (os_next o)) _ Hp) as [t Ht]. rewrite Ht. eexists _, _. split; [done|]. cbn [os_tree os_next os_inodes].
    pose proof (lookup_put_eq _ _ _ _ Ht) as Heq. split_and!; [done|lia|right; auto|].
    intros q j Hq. destruct (decide ((p ++ [c]) `prefix_of` q)) as [[r ->]|Hpre].
    { destruct (decide (r = [])) as [->|Hr]; [by rewrite app_nil_r in Hq|]. split; intros Hl.
      - by destruct (lookup_through_file _ _ _ _ Heq Hr (FFile j)).
      - exfalso. clear -El Hl. revert El Hl. generalize (os_tree o). induction (p ++ [c]) as [|d p' IH]; intros n; cbn; [done|].
        destruct n as [i|es']; [done|]. destruct (entry d es') as [m|]; [apply IH|done]. }
    destruct (decide (q `prefix_of` (p ++ [c]))) as [[r Hr]|Hsuf]; [|by rewrite (lookup_put_ne _ _ _ _ _ Ht)].
    assert (r ≠ []) as Hrn by (intros ->; by rewrite app_nil_r in Hr).
    split; intros Hl; exfalso.
    + destruct (lookup_through_file _ _ _ _ Hl Hrn (FFile (os_next o))). by rewrite <-Hr.
    + destruct (exists_last Hrn) as (r' & c' & ->). rewrite app_assoc in Hr. apply app_inj_2 in Hr as [-> _]; [|done].
      destruct (decide (r' = [])) as [->|Hr']; [rewrite app_nil_r in Hp; congruence|].
      by destruct (lookup_through_file _ _ _ _ Hl Hr' (FDir es)).
Qed.

(** What opening a file does: nothing is written, and every other file stays. *)
Record opened (o o' : os) (path : Path) (i : Ino) : Prop := {
  op_at : lookup_node (os_tree o') path = inl (FFile i);
  op_wf : os_wf o';
  op_keep q j : lookup_node (os_tree o) q = inl (FFile j) → lookup_node (os_tree o') q = inl (FFile j);
  op_data q : log_data o' q = log_data o q
}.

Lemma opened_refl o path i : os_wf o → lookup_node (os_tree o) path = inl (FFile i) → opened o o path i.
Proof. by split. Qed.

Lemma open_fresh o p c now :
  os_wf o → loggable_path (os_tree o) (p ++ [c]) →
  ∃ o1 o' i, os_MkdirAll p o = inl o1 ∧ os_OpenAppend now (p ++ [c]) o1 = inl (o', i) ∧ opened o o' (p ++ [c]) i.
Proof.
  intros [Hfresh Hinj] [Habove Hnd]. rewrite removelast_snoc in Habove. unfold os_MkdirAll. rewrite Hnf.
  destruct (mkdir_all_ok _ _ Habove) as [t Ht]. rewrite Ht. destruct (lookup_mkdir_all _ _ _ Ht) as [es Hes].
  assert (∀ q j, lookup_node t q = inl (FFile j) ↔ lookup_node (os_tree o) q = inl (FFile j)) as Hsame
    by (intros; split; [by apply (lookup_mkdir_new _ _ _ _ _ Ht)|by apply (lookup_mkdir_file _ _ _ _ _ Ht)]).
  assert (∀ es', lookup_node t (p ++ [c]) ≠ inl (FDir es')) as Hnd'.
  { intros es' Hl. apply (mkdir_all_dir _ _ _ _ _ Ht) in Hl as [Hl|[r Hr]]; [by destruct Hl as [? ?]; eapply Hnd|].
    apply (f_equal length) in Hr. rewrite !length_app in Hr. cbn in Hr. lia. }
  destruct (os_OpenAppend_spec now (MkOs t (os_inodes o) (os_next o)) p c es Hes Hnd') as (o' & i & Ho & Hat & Hnext & Hnew & Hothers).
  { intros q i Hl. by apply (Hfresh q), Hsame. }
  eexists _, o', i. split_and!; [done|done|]. cbn [os_tree os_next os_inodes] in *.
  assert (∀ q j, q ≠ p ++ [c] → lookup_node (os_tree o') q = inl (FFile j) ↔ lookup_node (os_tree o) q = inl (FFile j)) as Hq
    by (intros; by rewrite Hothers, Hsame).
  assert (lookup_node (os_tree o) (p ++ [c]) = inl (FFile i) ∧ os_inodes o' = os_inodes o ∧ os_next o' = os_next o ∨
    i = os_next o ∧ os_next o' = S i ∧ os_inodes o' = <[i := MkInode "" now]> (os_inodes o) ∧ ∀ j, lookup_node (os_tree o) (p ++ [c]) ≠ inl (FFile j)) as Hi.
  { destruct Hnew as [->|(-> & Hn & Hino & Hnone)]; [left; split_and!; try done; by apply Hsame|right; split_and!; try done].
    intros j Hj%Hsame. congruence. }
  clear Hnew Hothers Hsame. split; [done| |intros q j Hl|intros q].
  - split.
    + intros q j Hl. destruct (decide (q = p ++ [c])) as [->|Hne].
      * rewrite Hat in Hl. injection Hl as <-. destruct Hi as [(Hl & _ & ->)|(-> & -> & _)]; [by apply Hfresh in Hl|lia].
      * apply (Hq _ _ Hne), Hfresh in Hl. destruct Hi as [(_ & _ & ->)|(-> & -> & _)]; lia.
    + intros q r j Hql Hrl. destruct (decide (q = p ++ [c])) as [->|Hne], (decide (r = p ++ [c])) as [->|Hne']; [done| | |].
      * rewrite Hat in Hql. injection Hql as <-. apply (Hq _ _ Hne') in Hrl.
        destruct Hi as [(Hl & _)|(-> & _)]; [by apply (Hinj _ _ i)|]. apply Hfresh in Hrl. lia.
      * rewrite Hat in Hrl. injection Hrl as <-. apply (Hq _ _ Hne) in Hql.
        destruct Hi as [(Hl & _)|(-> & _)]; [by apply (Hinj _ _ i)|]. apply Hfresh in Hql. lia.
      * apply (Hq _ _ Hne) in Hql. apply (Hq _ _ Hne') in Hrl. by apply (Hinj _ _ j).
  - destruct (decide (q = p ++ [c])) as [->|Hne]; [|by apply Hq]. destruct Hi as [(Hl' & _)|(_ & _ & _ & Hn)]; [congruence|by destruct (Hn j)].
  - unfold log_data. destruct (decide (q = p ++ [c])) as [->|Hne].
    + rewrite Hat. destruct Hi as [(-> & Hino & _)|(-> & _ & Hino & Hn)]; [by unfold inode_at; rewrite Hino|].
      unfold inode_at. rewrite Hino, lookup_insert_eq. cbn. by destruct (lookup_node (os_tree o) _) as [[j|]|]; [destruct (Hn j)|..].
    + destruct (lookup_node (os_tree o') q) as [[j|]|] eqn:E.
      * pose proof (proj1 (Hq _ _ Hne) E) as E'. rewrite E'. unfold inode_at. destruct Hi as [(_ & -> & _)|(-> & _ & -> & _)]; [done|].
        rewrite lookup_insert_ne; [done|]. apply Hfresh in E'. lia.
      * destruct (lookup_node (os_tree o) q) as [[j|]|] eqn:E'; [|done..]. apply (Hq _ _ Hne) in E'. congruence.
      * destruct (lookup_node (os_tree o) q) as [[j|]|] eqn:E'; [|done..]. apply (Hq _ _ Hne) in E'. congruence.
Qed.

Lemma logPath_snoc ms net entity t : ∃ p, logPath ms net entity t = p ++ [sprint_date (date_of t) +:+ ".log"].
Proof.
  unfold logPath, Join_path. set (file := sprint_date (date_of t) +:+ ".log").
  change [?a; ?b; file] with ([a; b] ++ [file]). rewrite filter_app, (filter_cons _ file), decide_True, app_assoc.
  - eexists. reflexivity.
  - intros He. apply (f_equal slen) in He. unfold file in He. rewrite slen_app in He. cbn in He. lia.
Qed.

(** *** Closing the files used the longest time ago *)

Lemma evicted_elem order files e : e ∈ evicted order files → e ∈ order.
Proof.
  unfold evicted. case_match; [|by intros ?%not_elem_of_nil].
  intros [i Hi]%list_elem_of_lookup. apply lookup_take_Some in Hi as [Hi _].
  rewrite <-(merge_sort_Permutation (used_before files) order). by eapply list_elem_of_lookup_2.
Qed.

Lemma used_before_total files : Total (used_before files).
Proof. intros a b. unfold used_before. lia. Qed.
Lemma used_before_trans files : Transitive (used_before files).
Proof. intros a b c. unfold used_before. lia. Qed.

(** The file that is in use is not closed. *)
Lemma evicted_not_newest order files entity f :
  files !! entity = Some f → (∀ e f', e ≠ entity → files !! e = Some f' → f_lastUse f' < f_lastUse f) →
  NoDup order → (∀ e, e ∈ order ↔ is_Some (files !! e)) → (size files ≤ S fsMessageStoreMaxFiles)%nat →
  entity ∉ evicted order files.
Proof.
  intros Hf Hnew Hnd Hord Hsz. unfold evicted. destruct (Nat.ltb_spec fsMessageStoreMaxFiles (size files)) as [Hgt|]; [|apply not_elem_of_nil].
  replace (size files - fsMessageStoreMaxFiles)%nat with 1%nat by lia.
  set (l := merge_sort (used_before files) order). assert (l ≡ₚ order) as Hp by apply merge_sort_Permutation.
  assert (Sorted (used_before files) l) as Hs by (apply Sorted_merge_sort; apply used_before_total).
  apply Sorted_StronglySorted in Hs; [|apply used_before_trans].
  clearbody l. destruct l as [|a l]; [apply not_elem_of_nil|]. cbn [take]. rewrite list_elem_of_singleton. intros <-.
  assert (∃ b, b ∈ l) as [b Hb].
  { destruct l as [|b l']; [|exists b; by left]. exfalso. apply Permutation_length in Hp. cbn in Hp.
    assert (dom files ⊆ list_to_set (C := gset string) order) as Hsub
      by (intros e He; apply elem_of_list_to_set, Hord; by apply elem_of_dom).
    apply subseteq_size in Hsub. rewrite size_dom in Hsub. rewrite size_list_to_set in Hsub by done. unfold fsMessageStoreMaxFiles in *. lia. }
  assert (NoDup (entity :: l)) as Hnd' by (by rewrite Hp). apply NoDup_cons in Hnd' as [Hni _].
  assert (is_Some (files !! b)) as [fb Hfb] by (apply Hord; rewrite <-Hp; by right).
  inversion_clear Hs as [|?? _ Hall]. rewrite Forall_forall in Hall. specialize (Hall b Hb). unfold used_before in Hall.
  rewrite Hf, Hfb in Hall. cbn in Hall. assert (b ≠ entity) as Hbe by (intros ->; done). specialize (Hnew b fb Hbe Hfb). lia.
Qed.

(** At most 20 files stay open. *)
Lemma evicted_size order files :
  NoDup order → (∀ e, e ∈ order ↔ is_Some (files !! e)) →
  (size (filter (λ e, e.1 ∉ evicted order files) files) ≤ fsMessageStoreMaxFiles)%nat.
Proof.
  intros Hnd Hord. set (gone := evicted order files).
  assert (dom (filter (λ e : string * fsMessageStoreFile, e.1 ∉ gone) files) ⊆ dom files ∖ list_to_set (C := gset string) gone) as Hsub.
  { intros e (f & Hf)%elem_of_dom. apply map_lookup_filter_Some in Hf as [Hf Hg]. apply elem_of_difference.
    rewrite elem_of_dom, elem_of_list_to_set. naive_solver. }
  apply subseteq_size in Hsub. rewrite size_dom in Hsub.
  assert (list_to_set (C := gset string) gone ⊆ dom files) as Hgone.
  { intros e He%elem_of_list_to_set%evicted_elem. by apply elem_of_dom, Hord. }
  rewrite size_difference, size_dom in Hsub by done.
  assert (dom files ⊆ list_to_set (C := gset string) order) as Hall
    by (intros e He; apply elem_of_list_to_set, Hord; by apply elem_of_dom).
  apply subseteq_size in Hall. rewrite size_dom, size_list_to_set in Hall by done.
  assert (NoDup gone ∧ (fsMessageStoreMaxFiles < size files → length gone = size files - fsMessageStoreMaxFiles)%nat) as [Hndg Hlen].
  { unfold gone, evicted. destruct (Nat.ltb_spec fsMessageStoreMaxFiles (size files)); [|split; [constructor|lia]].
    split; [apply (sublist_NoDup _ (merge_sort (used_before files) order)); [by rewrite merge_sort_Permutation|apply sublist_take]|].
    intros _. rewrite length_take, (Permutation_length (merge_sort_Permutation _ _)). lia. }
  rewrite size_list_to_set in Hsub by done. lia.
Qed.

(** *** Append *)

(** The clock has advanced since the open files were used, and the map of open files can be
    iterated over in [order]. *)
Definition append_order (now : Z) (order : list string) (entity : string) (s : fsState) : Prop :=
  (∀ e f, fs_files (st_store s) !! e = Some f → f_lastUse f < now) ∧
  NoDup order ∧ (∀ e, e ∈ order ↔ e = entity ∨ is_Some (fs_files (st_store s) !! e)).

Lemma open_log_spec now entity p c s :
  fs_wf s → loggable_path (os_tree (st_os s)) (p ++ [c]) →
  ∃ o' f, open_log now entity (p ++ [c]) s = (set_os o' (set_files (<[entity := f]> (fs_files (st_store s))) s), Ok f) ∧
    f_name f = p ++ [c] ∧ f_closed f = false ∧ opened (st_os s) o' (p ++ [c]) (f_ino f).
Proof.
  intros [Hos Hopen _] Hpath. unfold open_log. rewrite bind_gets.
  assert (∃ o' f, reopen_log now entity (p ++ [c]) s = (set_os o' (set_files (<[entity := f]> (fs_files (st_store s))) s), Ok f) ∧
    f_name f = p ++ [c] ∧ f_closed f = false ∧ opened (st_os s) o' (p ++ [c]) (f_ino f)) as Hre.
  { destruct (open_fresh _ _ _ now Hos Hpath) as (o1 & o' & i & Hmk & Hoa & Hop).
    exists o', (MkFile (p ++ [c]) i zeroTime false). split_and!; [|done..].
    unfold reopen_log. rewrite bind_gets, removelast_snoc. cbn [id]. rewrite Hmk, bind_modify, Hoa. done. }
  destruct (fs_files (st_store s) !! entity) as [f|] eqn:Hf; [|done]. case_decide as Hn; [|done].
  destruct (Hopen _ _ Hf) as [Hc Hl]. rewrite Hn in Hl. exists (st_os s), f. split_and!; [|done|done|by apply opened_refl].
  rewrite insert_id by done. by destruct s as [o [r u fs]].
Qed.

(** The contents of the files after a write. *)
Lemma log_data_write now o path i data q :
  os_wf o → lookup_node (os_tree o) path = inl (FFile i) →
  log_data (os_write now i data o) q = if decide (q = path) then log_data o path +:+ data else log_data o q.
Proof.
  intros Hwf Hat. unfold log_data, os_write, inode_at. cbn [os_tree os_inodes]. case_decide as Hq.
  - subst q. rewrite Hat, lookup_insert_eq. done.
  - destruct (lookup_node (os_tree o) q) as [[j|]|] eqn:E; [|done..]. rewrite lookup_insert_ne; [done|].
    intros ->. apply Hq, (wf_inj _ Hwf _ _ j); done.
Qed.

(** [Append] returns the offset of the message's line as its ID, adds the line to the file of
    its day, changes no other file, and keeps the invariant. *)
Lemma Append_spec now order network entity m s t line msgID :
  fs_wf s → append_time now m = Ok t → MarshalLine m t = Ok line → line ≠ "" →
  loggable_path (os_tree (st_os s)) (logPath (st_store s) network entity t) → append_order now order entity s →
  formatFSMsgID (nID network) entity t (Z.of_nat (slen (log_data (st_os s) (logPath (st_store s) network entity t)))) = Ok msgID →
  ∃ s', Append now order network entity m s = (s', Ok msgID) ∧ fs_wf s' ∧ same_store s s' ∧
    ∀ q, log_data (st_os s') q = if decide (q = logPath (st_store s) network entity t)
      then log_data (st_os s) (logPath (st_store s) network entity t) +:+ line +:+ String nl "" else log_data (st_os s) q.
Proof.
  intros Hwf Ht Hline Hne Hpath (Hclock & Hnd & Hord) Hid. unfold Append.
  rewrite (bind_run _ _ s s t) by (unfold lift; by rewrite Ht). rewrite (bind_run _ _ s s line) by (unfold lift; by rewrite Hline).
  rewrite decide_False, bind_gets by done. cbn [id].
  destruct (logPath_snoc (st_store s) network entity t) as [p Hp]. rewrite Hp in *.
  destruct (open_log_spec now entity p _ s Hwf Hpath) as (o' & f & Hrun & Hname & Hclosed & Hop).
  rewrite (bind_run _ _ _ _ _ Hrun), bind_modify, bind_gets, bind_modify. clear Hrun.
  set (f' := MkFile (f_name f) (f_ino f) now (f_closed f)).
  cbn [set_files set_os st_os st_store fs_files fs_root fs_user]. rewrite insert_insert_eq.
  set (files := <[entity := f']> (fs_files (st_store s))).
  assert (∀ e, e ∈ order ↔ is_Some (files !! e)) as Hord'.
  { intros e. rewrite Hord. unfold files. destruct (decide (e = entity)) as [->|]; [rewrite lookup_insert_eq; naive_solver|].
    rewrite lookup_insert_ne by done. naive_solver. }
  assert (entity ∉ evicted order files) as Hkeep.
  { apply (evicted_not_newest _ _ _ f'); [apply lookup_insert_eq| |done|done|].
    - intros e g Hne' Hg. unfold files in Hg. rewrite lookup_insert_ne in Hg by done. by apply (Hclock e).
    - unfold files. pose proof (wf_size _ Hwf). rewrite map_size_insert. case_match; unfold Datatypes.id; lia. }
  rewrite Hclosed, Hnf, (bool_decide_false (entity ∈ _)) by done. cbn [orb].
  assert (i_data (inode_at o' (f_ino f)) = log_data (st_os s) (p ++ [sprint_date (date_of t) +:+ ".log"])) as Hd.
  { rewrite <-(op_data _ _ _ _ Hop). unfold log_data. by rewrite (op_at _ _ _ _ Hop). }
  rewrite bind_gets. cbn [st_os set_os set_files]. rewrite Hd, (bind_run _ _ _ _ msgID) by (unfold lift; by rewrite Hid).
  rewrite Hnf, bind_modify. eexists. split; [done|]. cbn [st_os st_store set_os]. split_and!.
  - split; cbn [st_os st_store fs_files os_tree os_write].
    + split; cbn [os_tree os_next]; [apply (wf_fresh _ (op_wf _ _ _ _ Hop))|apply (wf_inj _ (op_wf _ _ _ _ Hop))].
    + intros e g Hg. apply map_lookup_filter_Some in Hg as [Hg _]. unfold files in Hg. destruct (decide (e = entity)) as [->|].
      * rewrite lookup_insert_eq in Hg. injection Hg as <-. cbn. rewrite Hname. split; [done|apply Hop].
      * rewrite lookup_insert_ne in Hg by done. apply (wf_open _ Hwf) in Hg as [? ?]. split; [done|]. by apply (op_keep _ _ _ _ Hop).
    + by apply evicted_size.
  - done.
  - intros q. rewrite (log_data_write _ _ _ _ _ _ (op_wf _ _ _ _ Hop) (op_at _ _ _ _ Hop)). by rewrite !(op_data _ _ _ _ Hop).
Qed.
End append.

(** ** Resuming *)

Lemma split_lines_line line post : str_mem nl line = false → split_lines (line +:+ String nl post) = line :: split_lines post.
Proof.
  induction line as [|c line IH]; cbn [str_mem String.app String.append split_lines].
  - intros _. by rewrite decide_True.
  - intros [Hc Hl]%orb_false_iff. rewrite bool_decide_eq_false in Hc. rewrite decide_False by congruence. by rewrite IH.
Qed.

Section resume.
Context `{UnicodeTables} `{!zone_laws TZ} `{OsFaults} `{HB : Bare msgIDHeader, HBb : Bare fsMsgID}.
Context `{!BareLaws msgIDHeader, !BareLaws fsMsgID}.
Context (Hnf : ∀ op p, os_fault op p = false).

Lemma date_Time_new t : date_Time (newDate t) = wall (date_of t) 0.
Proof.
  unfold newDate. destruct (civil (date_of t)) as [[y m] d] eqn:E. apply civil_valid in E as (Hm & Hd & Hback).
  unfold date_Time. cbn [Year Month Day]. replace ((m - 1) / 12) with 0 by (Z.to_euclidean_division_equations; lia).
  replace ((m - 1) mod 12 + 1) with m by (Z.to_euclidean_division_equations; lia). by rewrite Z.add_0_r, Hback.
Qed.

Lemma parseFSMsgID_format netID entity t off s :
  formatFSMsgID netID entity t off = Ok s → parseFSMsgID s = Ok (netID, entity, wall (date_of t) 0, off).
Proof.
  intros Hf. unfold parseFSMsgID. unfold formatFSMsgID in Hf. rewrite (msgid_roundtrip_parse _ _ _ _ Hf).
  cbn. by rewrite date_Time_new.
Qed.

Lemma wall_inj d d' : wall d 0 = wall d' 0 → d = d'.
Proof. intros Hw. rewrite <-(date_of_next d), <-(date_of_next d'). by rewrite Hw. Qed.
Lemma wall_lt d d' : wall d 0 < wall d' 0 ↔ d < d'.
Proof. pose proof (midnight_first d' (wall d 0)). rewrite date_of_next in *. lia. Qed.

(** What has been logged since a message: [post] after its line on its day, and the files of
    the following days up to [now]. *)
Record logged_since (s : fsState) (options : FsLoadOptions) (d0 now : Z) (post : string) (log : Z → list (Message * Z)) : Prop := {
  ls_post : ∃ toks, scan_lines (split_lines post) = (toks, None) ∧ parse_log (st_store s) options d0 toks = Some (log d0);
  ls_days d : d0 < d ≤ date_of now → day_log s options d (log d);
  ls_times d e : d0 ≤ d ≤ date_of now → e ∈ log d → zeroTime < e.2 ∧ date_of e.2 = d ∧ e.2 < wall (d + 1) 0 - 1;
  ls_sorted : StronglySorted Z.le (entry_time <$> log (date_of now))
}.

(** The messages of a day that are not from the future. *)
Definition logged_by (now : Z) (log : Z → list (Message * Z)) (d : Z) : list Message :=
  window zeroTime now (λ _, true) (log d).

Lemma LoadLatestID_spec ctx now s options t line pre post log msgID :
  (∀ r, ctx r = None) → 0 ≤ lLimit options → date_of t ≤ date_of now →
  formatFSMsgID (nID (lNetwork options)) (lEntity options) t (Z.of_nat (slen pre)) = Ok msgID → msgID ≠ "" →
  log_data (st_os s) (logPath (st_store s) (lNetwork options) (lEntity options) t) = pre +:+ line +:+ String nl post →
  str_mem nl line = false → (slen line < MaxScanTokenSize)%nat → logged_since s options (date_of t) now post log →
  ∃ first, reached (logged_by now log) (date_of t) (date_of now) first ∧
    LoadLatestID ctx now s msgID options =
    Ok (Some <$> lastn (Z.to_nat (lLimit options)) (window zeroTime now (λ _, true) (whole_log log first (date_of now)))).
Proof.
  intros Hctx Hlim Hdays Hf Hne Hdata Hnl Hlen [(toks & Hsc & Hp) Hfiles Htimes Hsort].
  destruct (reached_exists (logged_by now log) (date_of t) (date_of now) Hdays) as (first & Hreach). exists first.
  split; [done|]. destruct Hreach as (Hfirst & Hgap & Hstop).
  unfold LoadLatestID. rewrite decide_False by done. rewrite (parseFSMsgID_format _ _ _ _ _ Hf). cbn [mbind res_mbind res_bind].
  rewrite decide_False by naive_solver. cbn [mbind res_mbind res_bind]. rewrite (proj2 (Z.ltb_ge _ _)) by done.
  set (path := logPath _ _ _ _) in Hdata.
  assert (∃ i, lookup_node (os_tree (st_os s)) path = inl (FFile i) ∧ i_data (inode_at (st_os s) i) = pre +:+ line +:+ String nl post) as (i & Hi & Hdi).
  { unfold log_data in Hdata. destruct (lookup_node _ path) as [[i|]|]; [eauto|..]; exfalso;
      apply (f_equal slen) in Hdata; rewrite !slen_app in Hdata; cbn in Hdata; lia. }
  assert (∀ u, negb (truncateDay u <? wall (date_of t) 0) = false ↔ date_of u < date_of t) as Hguard.
  { intros u. rewrite negb_false_iff, Z.ltb_lt. unfold truncateDay. apply wall_lt. }
  assert (∀ e d, date_of t ≤ d ≤ date_of now → e ∈ log d → e.2 < wall (d + 1) 0 - 1) as Hday by (intros e d Hd He; by apply Htimes).
  unfold whole_log. rewrite window_days. fold (logged_by now log).
  rewrite (back_loop_spec _ _ _ (logged_by now log) first (date_of now) (Z.to_nat (date_of now - first + 1))).
  - by rewrite app_nil_r.
  - done.
  - done.
  - lia.
  - done.
  - intros u k Hlo0 Hu Hk. assert (date_of u ≤ date_of now) as Hle by (destruct Hu as [->|[_ ?]]; lia).
    assert (date_of t ≤ date_of u) as Hlo by lia. unfold logged_by.
    assert (taken zeroTime u (λ _, true) (log (date_of u)) = window zeroTime now (λ _, true) (log (date_of u))) as Htaken.
    { destruct Hu as [->|[Hu Hlt]]; [by apply taken_sorted|].
      rewrite taken_all by (intros e He; specialize (Hday e _ (conj Hlo Hle) He); lia).
      apply window_ext. intros e He. specialize (Hday e _ (conj Hlo Hle) He).
      pose proof (proj2 (midnight_first (date_of u + 1) now)). lia. }
    rewrite <-Htaken. rewrite (proj2 (Z.leb_le 0 _)) by lia. cbn [andb]. unfold truncateDay.
    destruct (Z.eqb_spec (wall (date_of u) 0) (wall (date_of t) 0)) as [He%wall_inj|Hd].
    + apply (parseMessagesBefore_toks _ _ _ _ _ _ _ _ i toks); [done| | |by rewrite He|by intros ? ?].
      * unfold os_Open. rewrite Hnf. unfold path, logPath in *. by rewrite He.
      * rewrite (proj2 (Z.leb_le 0 _)), Nat2Z.id, Hdi, str_drop_app, split_lines_line by (done || lia). cbn [scan_lines].
        rewrite (proj2 (Nat.ltb_lt _ _)), Hsc by done. done.
    + apply parseMessagesBefore_spec; [done| |by intros ? ?]. apply Hfiles.
      destruct (decide (date_of u = date_of t)); [congruence|lia].
  - intros u _ Hg d Hd. apply Hguard in Hg. lia.
  - destruct Hstop as [->|Hnil]; [left; intros u; apply Hguard|by right].
  - done.
  - unfold fsMessageStoreMaxTries. lia.
  - unfold fsMessageStoreMaxTries. lia.
  - left. lia.
  - lia.
  - pose proof (loop_fuel_enough (lLimit options) Hlim). lia.
Qed.

End resume.

(** ** Evaluation *)

Import UnaryCodec.

#[local] Instance fsMsgID_unary : Bare fsMsgID := {
  bare_marshal id :=
    y ← put_Z (Year (idDate id)); m ← put_Z (Month (idDate id)); d ← put_Z (Day (idDate id)); o ← put_Z (idOffset id);
    Some (y +:+ m +:+ d +:+ o);
  bare_unmarshal s :=
    '(y, s) ← get_Z s; '(m, s) ← get_Z s; '(d, s) ← get_Z s; '(o, s) ← get_Z s; Some (MkFsMsgID (MkDate y m d) o, s)
}.
#[local] Instance fsMsgID_unary_laws : BareLaws fsMsgID.
Proof.
  split. intros [[y m d] o] b rest Hb. cbn in *. destruct (put_Z y) as [by_|] eqn:Ey; [|done]. destruct (put_Z m) as [bm|] eqn:Em; [|done].
  destruct (put_Z d) as [bd|] eqn:Ed; [|done]. destruct (put_Z o) as [bo|] eqn:Eo; [|done]. cbn in Hb. injection Hb as <-.
  rewrite !str_app_assoc, (get_put_Z _ _ _ Ey). cbn. rewrite (get_put_Z _ _ _ Em). cbn. rewrite (get_put_Z _ _ _ Ed). cbn.
  by rewrite (get_put_Z _ _ _ Eo).
Qed.
#[local] Instance demo_faults : OsFaults := no_faults.
#[local] Existing Instance latin1_tables.
Lemma demo_no_faults op p : @os_fault demo_faults op p = false.
Proof. done. Qed.

Definition demo_now : Z := 19000 * nsPerDay + 45296 * nsPerSecond + 5.
Definition demo_state : fsState := MkFsState (MkOs (FDir []) ∅ 0%nat) (NewFSStore ["logs"] demo_log_user).
Definition demo_net : dbNetwork := NewNetwork "irc.example.org".
Definition demo_options : FsLoadOptions := MkFsLoadOptions demo_net "#soju" 50 false.
Definition demo_msg (text : string) : Message := mkMessage ∅ (Some (mkPrefix "bob" "b" "example.org")) "PRIVMSG" ["#soju"; text].
Definition demo_append (now : Z) (text : string) (s : fsState) : fsState := (Append now ["#soju"] demo_net "#soju" (demo_msg text) s).1.
Definition demo_loaded (t : Z) (text : string) : Message :=
  mkMessage {["time" := FormatServerTime t]} (Some (mkPrefix "bob" "" "")) "PRIVMSG" ["#soju"; text].
Definition demo_minute : Z := 60 * nsPerSecond.
Definition demo_later : fsState := demo_append (demo_now + demo_minute) "two" (demo_append demo_now "one" demo_state).
Definition demo_second : Z := 19000 * nsPerDay + 45356 * nsPerSecond.
Definition demo_log (d : Z) : list (Message * Z) := if decide (d = 19000) then [(demo_loaded demo_second "two", demo_second)] else [].


(** The messages between the first one and a minute later. *)
Definition demo_first : Z := 19000 * nsPerDay + 45296 * nsPerSecond.
Definition demo_day (d : Z) : list (Message * Z) :=
  if decide (d = 19000) then [(demo_loaded demo_first "one", demo_first); (demo_loaded demo_second "two", demo_second)] else [].

Lemma demo_is_log : is_log demo_later (with_limit demo_options 1) demo_day 19000 19000.
Proof.
  split.
  - intros d Hd. assert (d = 19000) as -> by lia. unfold day_log.
    assert (os_Open (st_os demo_later) (logPath (st_store demo_later) (lNetwork (with_limit demo_options 1)) (lEntity (with_limit demo_options 1)) (wall 19000 0)) = inl (FFile 0%nat)) as ->
      by (vm_compute; reflexivity).
    exists ["[12:34:56] <bob> one"; "[12:35:56] <bob> two"]. split; vm_compute; reflexivity.
  - intros d e Hd He. assert (d = 19000) as -> by lia.
    change (demo_day 19000) with [(demo_loaded demo_first "one", demo_first); (demo_loaded demo_second "two", demo_second)] in He.
    apply elem_of_cons in He as [->|He]; [|apply list_elem_of_singleton in He as ->]; split; vm_compute; reflexivity.
Qed.
Lemma demo_day_sorted : StronglySorted Z.le (entry_time <$> demo_day 19000).
Proof. vm_compute. repeat constructor; discriminate. Qed.
Lemma demo_no_gap {A} (sel : Z → list A) : no_gap sel 19000 19000.
Proof. intros d ? ?. unfold fsMessageStoreMaxTries in *. lia. Qed.


Lemma history_after_witness :
  getAfterTime (λ _, None) 0 demo_later (demo_now - demo_minute) (demo_now + 2 * demo_minute) (with_limit demo_options 1) all_messages =
  Ok [Some (demo_loaded demo_first "one")].
Proof.
  assert (date_of (demo_now + 2 * demo_minute) = 19000) as D1 by (vm_compute; reflexivity).
  assert (date_of (demo_now - demo_minute) = 19000) as D2 by (vm_compute; reflexivity).
  rewrite (history_after (λ _, None) 0 demo_later (demo_now - demo_minute) (demo_now + 2 * demo_minute) (with_limit demo_options 1) all_messages
    (λ _, true) demo_day); rewrite ?D1, ?D2.
  - vm_compute. reflexivity.
  - done.
  - vm_compute. reflexivity.
  - vm_compute. reflexivity.
  - done.
  - exact demo_is_log.
  - exact demo_day_sorted.
  - by intros d _ e _.
  - apply demo_no_gap.
Defined.

(** A message logged in the first second of a day is lost to a query that starts on an earlier
    day, though it is in the window. *)
Definition midnight_store : fsState :=
  demo_append (19001 * nsPerDay) "happy new day" (demo_append (19000 * nsPerDay + 86399 * nsPerSecond) "one" demo_state).
Lemma midnight_message_lost :
  LoadAfterTime (λ _, None) 0 midnight_store (19000 * nsPerDay) (19002 * nsPerDay) demo_options =
    Ok [Some (demo_loaded (19000 * nsPerDay + 86399 * nsPerSecond) "one")] ∧
  LoadBeforeTime (λ _, None) 0 midnight_store (19002 * nsPerDay) (19000 * nsPerDay) demo_options =
    Ok [Some (demo_loaded (19000 * nsPerDay + 86399 * nsPerSecond) "one"); Some (demo_loaded (19001 * nsPerDay) "happy new day")].
Proof. split; vm_compute; reflexivity. Qed.

(** An open file follows its directory: after a network has been renamed, the first message of
    a new network with the old name goes to the renamed network's log. *)
Definition rename_store : fsState :=
  let s := (Append 1 ["#soju"] (NewNetwork "a") "#soju" (demo_msg "one") demo_state).1 in
  let s := (RenameNetwork (NewNetwork "a") (NewNetwork "b") s).1 in
  (Append 2 ["#soju"] (NewNetwork "a") "#soju" (demo_msg "two") s).1.
Lemma renamed_network_gets_new_message :
  lookup_node (os_tree (st_os rename_store)) ["logs"; "alice"; "a"] = inr ENOENT ∧
  log_data (st_os rename_store) ["logs"; "alice"; "b"; "#soju"; "1970-01-01.log"] =
    "[00:00:00] <bob> one" +:+ String nl ("[00:00:00] <bob> two" +:+ String nl "").
Proof. split; vm_compute; reflexivity. Qed.
