(* ===== verification/FsDelete.v ===== *)
(** * Deleting old logs (msgstore/fs.go)

    [DeleteMessagesBefore] against its specification: exactly the log files of earlier days go,
    and with them the directories that hold no file any more. *)

From S2P Require Import Prelude GoStrings GoUnicode IrcMessage Effects GenMsg Database MsgID GoTime GoOs ZncLog FsStore.

Open Scope string_scope.
Open Scope list_scope.
Open Scope Z_scope.

(** ** Trees *)

(** Induction that goes through the entries of a directory. *)
Lemma node_rect_entries (P : node → Prop) :
  (∀ i, P (FFile i)) → P (FDir []) → (∀ name c es, P c → P (FDir es) → P (FDir ((name, c) :: es))) → ∀ n, P n.
Proof.
  intros Hf Hnil Hcons. fix IH 1. intros [i|es]; [apply Hf|].
  induction es as [|[name c] es IHes]; [exact Hnil|]. apply Hcons; [apply IH|exact IHes].
Qed.

(** The files below a node, with the names on the way to them. *)
Fixpoint files_of (n : node) : list (Path * Ino) :=
  match n with
  | FFile i => [([], i)]
  | FDir es =>
    (fix go es := match es with
     | [] => []
     | (name, c) :: es => ((λ f, (name :: f.1, f.2)) <$> files_of c) ++ go es
     end) es
  end.

Definition below (name : string) (f : Path * Ino) : Path * Ino := (name :: f.1, f.2).

Lemma files_of_cons name c es : files_of (FDir ((name, c) :: es)) = (below name <$> files_of c) ++ files_of (FDir es).
Proof. done. Qed.

(** Every directory below the node holds a file. *)
Fixpoint tidy (n : node) : Prop :=
  match n with
  | FFile _ => True
  | FDir es => (fix go es := match es with [] => True | (_, c) :: es => files_of c ≠ [] ∧ tidy c ∧ go es end) es
  end.

Lemma tidy_cons name c es : tidy (FDir ((name, c) :: es)) ↔ files_of c ≠ [] ∧ tidy c ∧ tidy (FDir es).
Proof. done. Qed.

(** The file is an old log, by the last name of its path. *)
Definition old_file (cutoff : string) (f : Path * Ino) : Prop := is_old_log cutoff (List.last f.1 "") = true.
#[export] Instance old_file_dec cutoff f : Decision (old_file cutoff f).
Proof. unfold old_file. apply _. Defined.

Lemma filter_below cutoff name (fs : list (Path * Ino)) :
  (∀ f, f ∈ fs → f.1 ≠ []) → filter (λ f, ¬ old_file cutoff f) (below name <$> fs) = below name <$> filter (λ f, ¬ old_file cutoff f) fs.
Proof.
  induction fs as [|[p i] fs IH]; intros Hne; [done|]. cbn [fmap list_fmap]. rewrite !filter_cons.
  rewrite IH by (intros; apply Hne; by right). specialize (Hne (p, i) ltac:(by left)). cbn in Hne.
  assert (old_file cutoff (below name (p, i)) ↔ old_file cutoff (p, i)) as Hold by (unfold old_file; cbn; by destruct p).
  destruct (decide (¬ old_file cutoff (below name (p, i)))), (decide (¬ old_file cutoff (p, i))); naive_solver.
Qed.

Lemma files_of_dir es f : f ∈ files_of (FDir es) → f.1 ≠ [].
Proof.
  induction es as [|[name c] es IH]; [by intros ?%not_elem_of_nil|]. rewrite files_of_cons, elem_of_app.
  intros [(g & -> & _)%list_elem_of_fmap|?]; [done|auto].
Qed.

(** Names the result of the loop over the entries that the hypothesis runs. *)
Ltac dir_result H :=
  match type of H with
  | context [match ?g with pair a e => (FDir a, e) end] => let es1 := fresh "es1" in let e := fresh "e" in destruct g as [es1 e]
  | context [match ?g with pair _ _ => _ end] =>
    let es1 := fresh "es1" in let em := fresh "empty" in let er := fresh "errs" in destruct g as [[es1 em] er]
  end.

Section delete.
Context `{OsFaults} (Hnf : ∀ op p, os_fault op p = false).

Lemma delete_walk_nil cutoff p : delete_walk cutoff p (FDir []) = (FDir [], None).
Proof. cbn. by rewrite Hnf. Qed.

(** The walk removes the old logs and nothing else. *)
Lemma delete_walk_spec cutoff n : ∀ p, match n with
  | FFile _ => True
  | FDir _ => ∃ es', delete_walk cutoff p n = (FDir es', None) ∧ files_of (FDir es') = filter (λ f, ¬ old_file cutoff f) (files_of n)
  end.
Proof.
  induction n as [i| |name c es IHc IHes] using node_rect_entries; intros p; [done|exists []; by rewrite delete_walk_nil|].
  destruct (IHes p) as (es' & Hrun & Hfiles). cbn [delete_walk] in Hrun. rewrite Hnf in Hrun.
  destruct c as [i|ces]; cbn [delete_walk]; rewrite !Hnf; rewrite files_of_cons, filter_app.
  - destruct (is_old_log cutoff name) eqn:Hold.
    + exists es'. split; [done|]. rewrite Hfiles. cbn [files_of fmap list_fmap]. rewrite filter_cons, decide_False; [done|].
      intros Hn. apply Hn. by unfold old_file.
    + exists ((name, FFile i) :: es'). dir_result Hrun. injection Hrun as -> ->. split; [done|].
      rewrite files_of_cons, Hfiles. cbn [files_of fmap list_fmap]. rewrite filter_cons, decide_True; [done|].
      unfold old_file. cbn. by rewrite Hold.
  - destruct (IHc (p ++ [name])) as (ces' & Hrun' & Hfiles'). cbn [delete_walk] in Hrun'. rewrite Hnf in Hrun'. rewrite Hrun'.
    exists ((name, FDir ces') :: es'). dir_result Hrun. injection Hrun as -> ->. split; [done|].
    rewrite files_of_cons, Hfiles, Hfiles', filter_below; [done|]. apply files_of_dir.
Qed.

(** The clean-up removes exactly the directories without files. *)
Lemma cleanup_spec n : ∀ p keep, match n with
  | FFile _ => True
  | FDir _ =>
    ∃ es', cleanupEmptyDirsRecursively p n keep =
      (if bool_decide (files_of n = []) && negb keep then None else Some (FDir es'), bool_decide (files_of n = []), []) ∧
      files_of (FDir es') = files_of n ∧ tidy (FDir es')
  end.
Proof.
  induction n as [i| |name c es IHc IHes] using node_rect_entries; intros p keep; [done|exists []; cbn; rewrite !Hnf; by destruct keep|].
  destruct (IHes p true) as (es' & Hrun & Hfiles & Htidy). cbn [cleanupEmptyDirsRecursively] in Hrun. rewrite !Hnf in Hrun.
  rewrite files_of_cons. destruct c as [i|ces]; cbn [cleanupEmptyDirsRecursively]; rewrite !Hnf.
  - exists ((name, FFile i) :: es'). dir_result Hrun. cbn [negb] in Hrun. rewrite !andb_false_r in Hrun. apply pair_equal_spec in Hrun as [[[= ->] ->]%pair_equal_spec ->].
    rewrite (bool_decide_false (_ ++ _ = [])) by done. cbn [andb]. split; [done|]. rewrite files_of_cons, Hfiles. split; [done|].
    by apply tidy_cons.
  - destruct (IHc (p ++ [name]) false) as (ces' & Hrun' & Hfiles' & Htidy'). cbn [cleanupEmptyDirsRecursively] in Hrun'.
    rewrite !Hnf in Hrun'. rewrite Hrun'. clear Hrun'. dir_result Hrun. cbn [negb] in Hrun. rewrite !andb_false_r in Hrun. apply pair_equal_spec in Hrun as [[[= ->] ->]%pair_equal_spec ->].
    rewrite decide_True by done. cbn [app andb negb]. rewrite andb_true_r.
    assert (bool_decide ((below name <$> files_of (FDir ces)) ++ files_of (FDir es) = []) =
            bool_decide (files_of (FDir ces) = []) && bool_decide (files_of (FDir es) = [])) as ->.
    { rewrite <-bool_decide_and. apply bool_decide_ext. rewrite app_nil. destruct (files_of (FDir ces)); cbn; naive_solver. }
    destruct (decide (files_of (FDir ces) = [])) as [Hc|Hc]; [rewrite (bool_decide_true (files_of (FDir ces) = [])) by done|
      rewrite (bool_decide_false (files_of (FDir ces) = [])) by done]; cbn [andb].
    + exists es'. rewrite Hc. split; [|done]. by destruct (bool_decide (files_of (FDir es) = [])), keep.
    + exists ((name, FDir ces') :: es'). split; [done|]. rewrite files_of_cons, Hfiles, Hfiles'. split; [done|].
      apply tidy_cons. by rewrite Hfiles'.
Qed.

(** C37: When the system has no fault, deleting the messages before a date succeeds; it keeps
    every file that is not a log of an earlier day, removes those that are, and leaves no
    directory without a file below the root, which itself stays. The log of a day is removed
    exactly when the day is before the date, for years of four digits. *)
Theorem delete_exactly root before es :
  ∃ es', DeleteMessagesBefore root before (FDir es) = (FDir es', None) ∧
    files_of (FDir es') = filter (λ f, ¬ old_file (FormatDate before) f) (files_of (FDir es)) ∧ tidy (FDir es') ∧
    ∀ d p i, four_digit_year d → four_digit_year before →
      old_file (FormatDate before) (p ++ [sprint_date d +:+ ".log"], i) ↔ d < before.
Proof.
  unfold DeleteMessagesBefore. destruct (delete_walk_spec (FormatDate before) (FDir es) root) as (es1 & -> & Hfiles).
  destruct (cleanup_spec (FDir es1) root true) as (es2 & Hrun & Hfiles2 & Htidy). rewrite andb_false_r in Hrun. rewrite Hrun.
  exists es2. cbn [default]. split_and!; [done|by rewrite Hfiles2|done|].
  intros d p i Hd Hb. unfold old_file. cbn [fst]. rewrite last_last. unfold is_old_log.
  assert (sprint_date d = FormatDate d ∧ slen (FormatDate d) = 10%nat) as [-> Hlen].
  { unfold four_digit_year in Hd. destruct (civil d) as [[y m] k] eqn:E. rewrite (sprint_date_digits _ y m k), (FormatDate_digits _ y m k) by done. done. }
  rewrite HasSuffix_app, slen_app, Hlen. cbn [Nat.add slen Nat.ltb Nat.leb negb andb].
  rewrite <-Hlen, str_take_app, str_leb_date by done. rewrite negb_true_iff, Z.leb_gt. done.
Qed.
End delete.

(** ** Evaluation *)

#[local] Instance delete_no_faults : OsFaults := no_faults.

(** 20468 is 2026-01-15. *)
Definition demo_tree : list (string * node) :=
  [("user1", FDir [("net", FDir [("#go", FDir [("2020-01-01.log", FFile 1%nat)])])]);
   ("user2", FDir [("net", FDir [("#go", FDir [("2020-01-01.txt", FFile 2%nat); ("2026-01-14.log", FFile 3%nat); ("2026-01-15.log", FFile 4%nat)])])])].

Lemma delete_exactly_witness :
  ∃ es', DeleteMessagesBefore ["logs"] 20468 (FDir demo_tree) = (FDir es', None) ∧
    files_of (FDir es') = [(["user2"; "net"; "#go"; "2020-01-01.txt"], 2%nat); (["user2"; "net"; "#go"; "2026-01-15.log"], 4%nat)] ∧ tidy (FDir es').
Proof.
  destruct (delete_exactly (λ _ _, eq_refl : @os_fault delete_no_faults _ _ = false) ["logs"] 20468 demo_tree) as (es' & Hrun & Hfiles & Ht & _).
  exists es'. split_and!; [exact Hrun| |exact Ht]. rewrite Hfiles. vm_compute. reflexivity.
Defined.
