(* ===== verification/SqlTables.v ===== *)
(** * Tables (database/sqlite_schema.sql)

    The rows of the SQLite database, the constraints its schema declares, and statements and
    transactions over them: a statement that would break a constraint changes nothing, and a
    transaction that does not commit leaves the database as it was. The engine may refuse any
    statement (class [engine]). A column that may be NULL is an option, and a time is the text
    the driver stores. *)

From S2P Require Import Prelude GoStrings GoUnicode IrcMessage GenMsg GoTime Effects Database.

Open Scope string_scope.
Open Scope list_scope.
Open Scope Z_scope.

(** ** Rows *)

Record userRow := MkUserRow {
  ur_id : Z; ur_username : string; ur_password : option string; ur_admin : bool; ur_realname : option string;
  ur_nick : option string; ur_created_at : string; ur_enabled : bool; ur_interacted_at : option string; ur_max_networks : Z
}.
Record networkRow := MkNetworkRow {
  nr_id : Z; nr_name : option string; nr_user : Z; nr_addr : string; nr_nick : option string; nr_username : option string;
  nr_realname : option string; nr_certfp : option string; nr_pass : option string; nr_connect_commands : option string;
  nr_sasl_mechanism : option string; nr_sasl_plain_username : option string; nr_sasl_plain_password : option string;
  nr_sasl_external_cert : option string; nr_sasl_external_key : option string; nr_auto_away : bool; nr_enabled : bool
}.
(** The filters are numbers in the table; [cr_detach_after] counts seconds. *)
Record channelRow := MkChannelRow {
  cr_id : Z; cr_network : Z; cr_name : string; cr_key : option string; cr_detached : bool; cr_detached_msgid : option string;
  cr_relay_detached : MessageFilter; cr_reattach_on : MessageFilter; cr_detach_after : Z; cr_detach_on : MessageFilter
}.
Record certRow := MkCertRow {
  dc_row_id : Z; dc_user : Z; dc_label : string; dc_fingerprint : string; dc_last_used : string; dc_last_ip : string
}.
Record deliveryRow := MkDeliveryRow {
  dr_id : Z; dr_network : Z; dr_target : string; dr_client : option string; dr_internal_msgid : string
}.
Record readRow := MkReadRow { rr_id : Z; rr_network : Z; rr_target : string; rr_timestamp : string }.
Record pushConfigRow := MkPushConfigRow { pr_id : Z; pr_created_at : string; pr_public : string; pr_private : string }.
Record pushRow := MkPushRow {
  ps_id : Z; ps_created_at : string; ps_updated_at : string; ps_user : Z; ps_network : option Z; ps_endpoint : string;
  ps_key_vapid : string; ps_key_auth : string; ps_key_p256dh : string
}.
Record targetRow := MkTargetRow {
  tr_id : Z; tr_network : Z; tr_target : string; tr_pinned : bool; tr_muted : bool; tr_blocked : bool
}.
Record messageRow := MkMessageRow {
  mr_id : Z; mr_target : Z; mr_raw : string; mr_time : string; mr_sender : string; mr_text : option string
}.

Record sqldb := MkDb {
  t_User : list userRow; t_Network : list networkRow; t_Channel : list channelRow; t_DeviceCertificate : list certRow;
  t_DeliveryReceipt : list deliveryRow; t_ReadReceipt : list readRow; t_WebPushConfig : list pushConfigRow;
  t_WebPushSubscription : list pushRow; t_MessageTarget : list targetRow; t_Message : list messageRow
}.
Definition emptyDb : sqldb := MkDb [] [] [] [] [] [] [] [] [] [].
Definition eta_db (x : sqldb) : sqldb :=
  MkDb (t_User x) (t_Network x) (t_Channel x) (t_DeviceCertificate x) (t_DeliveryReceipt x) (t_ReadReceipt x)
    (t_WebPushConfig x) (t_WebPushSubscription x) (t_MessageTarget x) (t_Message x).
Definition set_User : list userRow → sqldb → sqldb := ltac:(setter eta_db t_User).
Definition set_Network : list networkRow → sqldb → sqldb := ltac:(setter eta_db t_Network).
Definition set_Channel : list channelRow → sqldb → sqldb := ltac:(setter eta_db t_Channel).
Definition set_DeviceCertificate : list certRow → sqldb → sqldb := ltac:(setter eta_db t_DeviceCertificate).
Definition set_DeliveryReceipt : list deliveryRow → sqldb → sqldb := ltac:(setter eta_db t_DeliveryReceipt).
Definition set_ReadReceipt : list readRow → sqldb → sqldb := ltac:(setter eta_db t_ReadReceipt).
Definition set_WebPushConfig : list pushConfigRow → sqldb → sqldb := ltac:(setter eta_db t_WebPushConfig).
Definition set_WebPushSubscription : list pushRow → sqldb → sqldb := ltac:(setter eta_db t_WebPushSubscription).
Definition set_MessageTarget : list targetRow → sqldb → sqldb := ltac:(setter eta_db t_MessageTarget).
Definition set_Message : list messageRow → sqldb → sqldb := ltac:(setter eta_db t_Message).

(** ** Constraints *)

(** A key that is NULL is equal to no other. *)
Definition unique {R K} `{EqDecision K} (key : R → option K) (rows : list R) : Prop := NoDup (omap key rows).

Definition unique_ok (d : sqldb) : Prop :=
  (NoDup (ur_id <$> t_User d) ∧ unique (λ r, Some (ur_username r)) (t_User d)) ∧
  (NoDup (nr_id <$> t_Network d) ∧
   unique (λ r, (λ n, (nr_user r, nr_addr r, n)) <$> nr_nick r) (t_Network d) ∧
   unique (λ r, (λ n, (nr_user r, n)) <$> nr_name r) (t_Network d)) ∧
  (NoDup (cr_id <$> t_Channel d) ∧ unique (λ r, Some (cr_network r, cr_name r)) (t_Channel d)) ∧
  (NoDup (dc_row_id <$> t_DeviceCertificate d) ∧ unique (λ r, Some (dc_fingerprint r)) (t_DeviceCertificate d)) ∧
  (NoDup (dr_id <$> t_DeliveryReceipt d) ∧
   unique (λ r, (λ c, (dr_network r, dr_target r, c)) <$> dr_client r) (t_DeliveryReceipt d)) ∧
  (NoDup (rr_id <$> t_ReadReceipt d) ∧ unique (λ r, Some (rr_network r, rr_target r)) (t_ReadReceipt d)) ∧
  (NoDup (pr_id <$> t_WebPushConfig d) ∧ unique (λ r, Some (pr_public r)) (t_WebPushConfig d)) ∧
  (NoDup (ps_id <$> t_WebPushSubscription d) ∧
   unique (λ r, (λ n, (n, ps_endpoint r)) <$> ps_network r) (t_WebPushSubscription d)) ∧
  (NoDup (tr_id <$> t_MessageTarget d) ∧ unique (λ r, Some (tr_network r, tr_target r)) (t_MessageTarget d)) ∧
  NoDup (mr_id <$> t_Message d).

Definition users_of (d : sqldb) : list Z := ur_id <$> t_User d.
Definition networks_of (d : sqldb) : list Z := nr_id <$> t_Network d.
Definition targets_of (d : sqldb) : list Z := tr_id <$> t_MessageTarget d.

Definition foreign_ok (d : sqldb) : Prop :=
  Forall (λ r, nr_user r ∈ users_of d) (t_Network d) ∧
  Forall (λ r, cr_network r ∈ networks_of d) (t_Channel d) ∧
  Forall (λ r, dc_user r ∈ users_of d) (t_DeviceCertificate d) ∧
  Forall (λ r, dr_network r ∈ networks_of d) (t_DeliveryReceipt d) ∧
  Forall (λ r, rr_network r ∈ networks_of d) (t_ReadReceipt d) ∧
  Forall (λ r, ps_user r ∈ users_of d) (t_WebPushSubscription d) ∧
  Forall (λ r, match ps_network r with Some n => n ∈ networks_of d | None => True end) (t_WebPushSubscription d) ∧
  Forall (λ r, mr_target r ∈ targets_of d) (t_Message d) ∧
  Forall (λ r, tr_network r ∈ networks_of d) (t_MessageTarget d).

#[global] Instance unique_ok_dec d : Decision (unique_ok d).
Proof. unfold unique_ok, unique. apply _. Defined.
#[global] Instance foreign_ok_dec d : Decision (foreign_ok d).
Proof.
  assert (∀ r : pushRow, Decision (match ps_network r with Some n => n ∈ networks_of d | None => True end))
    by (intros r; destruct (ps_network r); apply _).
  unfold foreign_ok. apply _.
Defined.

Definition db_ok (d : sqldb) : Prop := unique_ok d ∧ foreign_ok d.

(** ** Statements *)

(** What the engine does by itself: whether it refuses the [n]-th statement, the time of the
    [n]-th statement, and whether the driver reports a broken constraint with the type the code
    looks for. *)
Class engine := MkEngine {
  en_fault : nat → option goerr;
  en_now : nat → Z;
  en_typed : bool
}.

Record sqlState := MkSql { sq_db : sqldb; sq_count : nat }.
Abbreviation SQ := (ST sqlState).

Definition errNoRows : goerr := Errorf "sql: no rows in result set".
Definition errUnique : goerr := Errorf "UNIQUE constraint failed".
Definition errForeign : goerr := Errorf "FOREIGN KEY constraint failed".
Definition errNotNull : goerr := Errorf "NOT NULL constraint failed".

Section statements.
Context `{EN : engine}.

(** The engine at work: one more statement, which may fail. *)
Definition step : SQ unit := λ s,
  (MkSql (sq_db s) (S (sq_count s)), match en_fault (sq_count s) with Some e => Err e | None => Ok tt end).

(** A statement that changes the database; [inr] when a column would be NULL that may not. *)
Definition exec (f : sqldb → sqldb + goerr) : SQ unit :=
  step ;;
  d ← gets sq_db;
  match f d with
  | inr e => fail e
  | inl d' =>
    if decide (unique_ok d') then
      if decide (foreign_ok d') then modify (λ s, MkSql d' (sq_count s)) else fail errForeign
    else fail errUnique
  end.

Definition query {A} (f : sqldb → A) : SQ A := step ;; gets (λ s, f (sq_db s)).

(** The row of a query that has at most one. *)
Definition query_row {A} (f : sqldb → list A) : SQ A :=
  rows ← query f;
  match rows with r :: _ => mret r | [] => fail errNoRows end.

(** [Begin], with [Rollback] deferred, until [Commit]. *)
Definition transaction {A} (body : SQ A) : SQ A := λ s,
  match (step ;; r ← body; step ;; mret r) s with
  | (s', Ok r) => (s', Ok r)
  | (s', e) => (MkSql (sq_db s) (sq_count s'), e)
  end.

Definition now : SQ Z := gets (λ s, en_now (sq_count s)).

(** The row ID of a new row: one larger than the largest in the table. *)
Definition next_id (ids : list Z) : Z := 1 + foldr Z.max 0 ids.
End statements.

(** The driver's texts for times. *)
Definition sqliteTime_Value (t : Z) : option string := if IsZero t then None else Some (FormatServerTime t).
Definition sqliteTime_Scan (o : option string) : res goerr Z :=
  match o with
  | None => Ok zeroTime
  | Some s => match ParseServerTime s with Some t => Ok t | None => Err (Errorf "parsing time") end
  end.

Lemma next_id_fresh ids : 0 < next_id ids ∧ next_id ids ∉ ids.
Proof.
  unfold next_id. assert (0 ≤ foldr Z.max 0 ids ∧ ∀ x, x ∈ ids → x ≤ foldr Z.max 0 ids) as [Hpos Hmax].
  { induction ids as [|y ids IH]; cbn; [split; [lia|intros x Hx; by inversion Hx]|]. destruct IH as [IH1 IH2]. split; [lia|].
    intros x [->|Hx]%elem_of_cons; [lia|]. specialize (IH2 x Hx). lia. }
  split; [lia|]. intros Hin%Hmax. lia.
Qed.
