(* ===== verification/Sqlite.v ===== *)
(** * The SQLite database (database/sqlite.go, database/utils.go)

    One definition per method of [SqliteDB]. A method that stores a record answers it with the
    ID the database gave it; on an error the caller has the record it had, except that
    [StoreNetwork] has dropped the certificate of a network with PLAIN credentials. The full-text
    index, and the order of rows that are equal in the order asked for, belong to the engine. *)

From S2P Require Import Prelude GoStrings GoUnicode GoStrconv IrcMessage GenMsg GoTime Effects Database Downstream SqlTables.

Open Scope string_scope.
Open Scope list_scope.
Open Scope Z_scope.

(** The full-text search of the engine, given the text of a message and a query, and the order
    of rows by a key. *)
Class search_engine := MkSearchEngine {
  fts_match : string → string → bool;
  order_asc : ∀ {R : Type}, (R → option string) → list R → list R;
  order_desc : ∀ {R : Type}, (R → option string) → list R → list R
}.

(** [unicode.In(r, L, N, Co)] and the codec of messages. *)
Class sqlenv := MkSqlenv {
  sq_token : Z → bool;
  sq_MessageString : Message → string;
  sq_ParseMessage : string → option Message
}.

(** The separator of connect commands. *)
Definition crlf : string := String (byte_of 13) (String (byte_of 10) "").

(** ** Durations

    [Duration.Seconds] adds the whole seconds and the rest, as floating-point numbers. *)

(** [math.Ceil(d.Seconds())] *)
Definition seconds_ceil (d : Z) : Z :=
  let sec := Z.abs d / nsPerSecond in
  let '(qn, qd) := float53 (Z.abs d mod nsPerSecond) nsPerSecond in
  let '(sn, sd) := float53 (sec * qd + qn) qd in
  if 0 <=? d then - (- sn / sd) else - (sn / sd).

(** ** Formatting codes (database/utils.go) *)

Definition isHex (c : ascii) : bool :=
  let r := byte_val c in in_range 48 57 r || in_range 97 102 r || in_range 65 70 r.
Definition isDigit (c : ascii) : bool := in_range 48 57 (byte_val c).

(** A byte of the text beyond ASCII starts a rune that is no digit, so runes are bytes here. *)
Definition startsHexColor (s : string) : bool :=
  negb (slen s <? 6)%nat && forallb isHex (str_list (str_take 6 s)).

Definition formatting : list Z := [2; 29; 31; 30; 17; 22; 15].

(** The digits after a colour code: up to two, then a comma and up to two more. *)
Definition skip_color (s : string) : string :=
  let second s := match s with String c r => if isDigit c then r else s | "" => s end in
  match s with
  | String c r =>
    if negb (isDigit c) then s
    else
      let r := second r in
      match r with
      | String comma (String d r') => if (byte_val comma =? 44) && isDigit d then second r' else r
      | _ => r
      end
  | "" => s
  end.

(** Two hexadecimal colours, the second after a comma. *)
Definition skip_hex_color (s : string) : string :=
  if negb (startsHexColor s) then s
  else
    let r := str_drop 6 s in
    match r with
    | String comma r' => if (byte_val comma =? 44) && startsHexColor r' then str_drop 6 r' else r
    | "" => r
    end.

(** The loop of [stripANSI]; every round consumes a byte. *)
Fixpoint strip_loop (fuel : nat) (s : string) : string :=
  match fuel, s with
  | S fuel, String c r =>
    let b := byte_val c in
    if bool_decide (b ∈ formatting) then strip_loop fuel r
    else if b =? 3 then strip_loop fuel (skip_color r)
    else if b =? 4 then strip_loop fuel (skip_hex_color r)
    else String c (strip_loop fuel r)
  | _, _ => ""
  end.
Definition stripANSI (s : string) : string :=
  if existsb (λ c, bool_decide (byte_val c ∈ formatting ++ [3; 4])) (str_list s) then strip_loop (slen s) s else s.

(** A double quote. *)
Definition quote : string := String (byte_of 34) "".

Section sqlite.
Context `{EN : engine} `{SE : search_engine} `{LE : sqlenv}.

(** What [rows.Scan] makes of every row, until one fails. *)
Definition scan_all {R A} (scan : R → res goerr A) (rows : list R) : SQ (list A) := lift (mapM scan rows).

Definition Stats : SQ DatabaseStats :=
  query (λ d, MkStats (Z.of_nat (length (t_User d))) (Z.of_nat (length (t_Network d))) (Z.of_nat (length (t_Channel d)))).

(** ** Users *)

Definition scan_user (r : userRow) : res goerr dbUser :=
  interacted ← sqliteTime_Scan (ur_interacted_at r);
  Ok (MkUser (ur_id r) (ur_username r) (NullString (ur_password r)) (NullString (ur_nick r)) (NullString (ur_realname r))
    (ur_admin r) (ur_enabled r) interacted (ur_max_networks r)).

Definition ListUsers : SQ (list dbUser) := rows ← query t_User; scan_all scan_user rows.

Definition GetUser (username : string) : SQ dbUser :=
  r ← query_row (λ d, filter (λ r, ur_username r = username) (t_User d));
  lift (scan_user r).

Definition GetUsernameByID (id : Z) : SQ string :=
  r ← query_row (λ d, filter (λ r, ur_id r = id) (t_User d)); mret (ur_username r).

(** SQL's [<] on texts; a comparison with NULL is not true. *)
Definition text_lt (a b : string) : bool := negb (str_leb b a).
Definition null_lt (a b : option string) : bool :=
  match a, b with Some a, Some b => text_lt a b | _, _ => false end.

Definition ListInactiveUsernames (limit : Z) : SQ (list string) :=
  rows ← query (λ d, filter (λ r, null_lt (Some (default (ur_created_at r) (ur_interacted_at r))) (sqliteTime_Value limit) = true)
    (t_User d));
  mret (ur_username <$> rows).

Definition update_user_row (user : dbUser) (r : userRow) : userRow :=
  MkUserRow (ur_id r) (ur_username r) (toNullString (uPassword user)) (uAdmin user) (toNullString (uRealname user))
    (toNullString (uNick user)) (ur_created_at r) (uEnabled user) (sqliteTime_Value (uDownstreamInteractedAt user))
    (uMaxNetworks user).

(** [UPDATE ... WHERE]. *)
Definition update_where {R} (P : R → bool) (f : R → R) (rows : list R) : list R := (λ r, if P r then f r else r) <$> rows.

Definition StoreUser (user : dbUser) : SQ dbUser :=
  t ← now;
  if decide (uID user ≠ 0) then
    exec (λ d, inl (set_User (update_where (λ r, bool_decide (ur_username r = uUsername user)) (update_user_row user) (t_User d)) d)) ;;
    mret user
  else
    d ← gets sq_db;
    let id := next_id (users_of d) in
    exec (λ d, match sqliteTime_Value t with
               | None => inr errNotNull
               | Some created => inl (set_User (t_User d ++ [update_user_row user
                   (MkUserRow id (uUsername user) None false None None created false None 0)]) d)
               end) ;;
    mret (MkUser id (uUsername user) (uPassword user) (uNick user) (uRealname user) (uAdmin user) (uEnabled user)
      (uDownstreamInteractedAt user) (uMaxNetworks user)).

(** The IDs of the networks of a user, and of the message targets of a list of networks. *)
Definition nets_of_user (id : Z) (d : sqldb) : list Z := nr_id <$> filter (λ r, nr_user r = id) (t_Network d).
Definition targets_in (nets : list Z) (d : sqldb) : list Z := tr_id <$> filter (λ r, tr_network r ∈ nets) (t_MessageTarget d).

Definition DeleteUser (id : Z) : SQ unit := transaction (
  exec (λ d, inl (set_DeliveryReceipt (filter (λ r, dr_network r ∉ nets_of_user id d) (t_DeliveryReceipt d)) d)) ;;
  exec (λ d, inl (set_ReadReceipt (filter (λ r, rr_network r ∉ nets_of_user id d) (t_ReadReceipt d)) d)) ;;
  exec (λ d, inl (set_Message (filter (λ r, mr_target r ∉ targets_in (nets_of_user id d) d) (t_Message d)) d)) ;;
  exec (λ d, inl (set_MessageTarget (filter (λ r, tr_network r ∉ nets_of_user id d) (t_MessageTarget d)) d)) ;;
  exec (λ d, inl (set_WebPushSubscription (filter (λ r, ps_user r ≠ id) (t_WebPushSubscription d)) d)) ;;
  exec (λ d, inl (set_DeviceCertificate (filter (λ r, dc_user r ≠ id) (t_DeviceCertificate d)) d)) ;;
  exec (λ d, inl (set_Channel (filter (λ r, cr_network r ∉ nets_of_user id d) (t_Channel d)) d)) ;;
  exec (λ d, inl (set_Network (filter (λ r, nr_user r ≠ id) (t_Network d)) d)) ;;
  exec (λ d, inl (set_User (filter (λ r, ur_id r ≠ id) (t_User d)) d))).

(** ** Networks *)

Definition scan_network (r : networkRow) : dbNetwork :=
  MkNetwork (nr_id r) (NullString (nr_name r)) (nr_addr r) (NullString (nr_nick r)) (NullString (nr_username r))
    (NullString (nr_realname r)) (NullString (nr_pass r))
    (match nr_connect_commands r with Some s => Split s crlf | None => [] end) (NullString (nr_certfp r))
    (MkSASL (NullString (nr_sasl_mechanism r)) (NullString (nr_sasl_plain_username r)) (NullString (nr_sasl_plain_password r))
      (nr_sasl_external_cert r) (nr_sasl_external_key r))
    (nr_auto_away r) (nr_enabled r).

Definition ListNetworks (userID : Z) : SQ (list dbNetwork) :=
  rows ← query (λ d, filter (λ r, nr_user r = userID) (t_Network d)); mret (scan_network <$> rows).

(** The columns of the SASL settings; a record with PLAIN credentials loses its certificate. *)
Definition sasl_columns (s : SASL) : res goerr (SASL * (option string * option string * option string)) :=
  if decide (Mechanism s = "") then Ok (s, (None, None, None))
  else if decide (Mechanism s = "PLAIN") then
    Ok (MkSASL (Mechanism s) (PlainUsername s) (PlainPassword s) None None,
        (toNullString (Mechanism s), toNullString (PlainUsername s), toNullString (PlainPassword s)))
  else if decide (Mechanism s = "EXTERNAL") then Ok (s, (toNullString (Mechanism s), None, None))
  else Err (Errorf "soju: cannot store network: unsupported SASL mechanism %q").

Definition network_row (id user : Z) (n : dbNetwork) (s : SASL) (mech plainUser plainPass : option string) : networkRow :=
  MkNetworkRow id (toNullString (nName n)) user (nAddr n) (toNullString (nNick n)) (toNullString (nUsername n))
    (toNullString (nRealname n)) (toNullString (nCertFP n)) (toNullString (nPass n))
    (toNullString (Join (nConnectCommands n) crlf)) mech plainUser plainPass (CertBlob s) (PrivKeyBlob s)
    (nAutoAway n) (nEnabled n).

Definition with_sasl (id : Z) (s : SASL) (n : dbNetwork) : dbNetwork :=
  MkNetwork id (nName n) (nAddr n) (nNick n) (nUsername n) (nRealname n) (nPass n) (nConnectCommands n) (nCertFP n) s
    (nAutoAway n) (nEnabled n).

Definition StoreNetwork (userID : Z) (network : dbNetwork) : SQ dbNetwork :=
  '(s, (mech, plainUser, plainPass)) ← lift (sasl_columns (nSASL network));
  if decide (nID network ≠ 0) then
    exec (λ d, inl (set_Network (update_where (λ r, nr_id r =? nID network)
      (λ r, network_row (nr_id r) (nr_user r) network s mech plainUser plainPass) (t_Network d)) d)) ;;
    mret (with_sasl (nID network) s network)
  else
    d ← gets sq_db;
    let id := next_id (networks_of d) in
    exec (λ d, inl (set_Network (t_Network d ++ [network_row id userID network s mech plainUser plainPass]) d)) ;;
    mret (with_sasl id s network).

Definition DeleteNetwork (id : Z) : SQ unit := transaction (
  exec (λ d, inl (set_Message (filter (λ r, mr_target r ∉ targets_in [id] d) (t_Message d)) d)) ;;
  exec (λ d, inl (set_MessageTarget (filter (λ r, tr_network r ≠ id) (t_MessageTarget d)) d)) ;;
  exec (λ d, inl (set_WebPushSubscription (filter (λ r, ps_network r ≠ Some id) (t_WebPushSubscription d)) d)) ;;
  exec (λ d, inl (set_DeliveryReceipt (filter (λ r, dr_network r ≠ id) (t_DeliveryReceipt d)) d)) ;;
  exec (λ d, inl (set_ReadReceipt (filter (λ r, rr_network r ≠ id) (t_ReadReceipt d)) d)) ;;
  exec (λ d, inl (set_Channel (filter (λ r, cr_network r ≠ id) (t_Channel d)) d)) ;;
  exec (λ d, inl (set_Network (filter (λ r, nr_id r ≠ id) (t_Network d)) d))).

(** ** Channels *)

Definition scan_channel (r : channelRow) : dbChannel :=
  MkChannel (cr_id r) (cr_name r) (NullString (cr_key r)) (cr_detached r) (NullString (cr_detached_msgid r))
    (cr_relay_detached r) (cr_reattach_on r) (wrap_i64 (cr_detach_after r * nsPerSecond)) (cr_detach_on r).

Definition ListChannels (networkID : Z) : SQ (list dbChannel) :=
  rows ← query (λ d, filter (λ r, cr_network r = networkID) (t_Channel d)); mret (scan_channel <$> rows).

Definition channel_row (id network : Z) (ch : dbChannel) : channelRow :=
  MkChannelRow id network (cName ch) (toNullString (cKey ch)) (cDetached ch) (toNullString (cDetachedInternalMsgID ch))
    (cRelayDetached ch) (cReattachOn ch) (seconds_ceil (cDetachAfter ch)) (cDetachOn ch).

Definition with_cID (id : Z) (c : dbChannel) : dbChannel :=
  MkChannel id (cName c) (cKey c) (cDetached c) (cDetachedInternalMsgID c) (cRelayDetached c) (cReattachOn c)
    (cDetachAfter c) (cDetachOn c).

Definition StoreChannel (networkID : Z) (ch : dbChannel) : SQ dbChannel :=
  if decide (cID ch ≠ 0) then
    exec (λ d, inl (set_Channel (update_where (λ r, cr_id r =? cID ch) (λ r, channel_row (cr_id r) networkID ch) (t_Channel d)) d)) ;;
    mret ch
  else
    d ← gets sq_db;
    let id := next_id (cr_id <$> t_Channel d) in
    exec (λ d, inl (set_Channel (t_Channel d ++ [channel_row id networkID ch]) d)) ;;
    mret (with_cID id ch).

Definition DeleteChannel (id : Z) : SQ unit :=
  exec (λ d, inl (set_Channel (filter (λ r, cr_id r ≠ id) (t_Channel d)) d)).

(** ** Device certificates *)

Definition scan_cert (r : certRow) : res goerr DeviceCertificate :=
  used ← sqliteTime_Scan (Some (dc_last_used r));
  Ok (MkDevice (dc_row_id r) (dc_label r) (dc_fingerprint r) used (dc_last_ip r)).

Definition GetDeviceCertificate (fingerprint : string) : SQ (Z * option DeviceCertificate) :=
  rows ← query (λ d, filter (λ r, dc_fingerprint r = fingerprint) (t_DeviceCertificate d));
  match rows with
  | [] => mret (0, None)
  | r :: _ => cert ← lift (scan_cert r); mret (dc_user r, Some cert)
  end.

Definition ListDeviceCertificates (userID : Z) : SQ (list DeviceCertificate) :=
  rows ← query (λ d, filter (λ r, dc_user r = userID) (t_DeviceCertificate d)); scan_all scan_cert rows.

Definition errDuplicateDeviceCertificate : goerr := Errorf "duplicate device certificate".

(** [isErrUnique], for an error of [StoreDeviceCertificate]. *)
Definition wrap_duplicate {A} (m : SQ A) : SQ A :=
  r ← try m;
  match r with
  | inl a => mret a
  | inr e => fail (if en_typed && bool_decide (e = errUnique) then errDuplicateDeviceCertificate else e)
  end.

Definition StoreDeviceCertificate (userID : Z) (cert : DeviceCertificate) : SQ DeviceCertificate :=
  let row id user used := MkCertRow id user (devLabel cert) (devFingerprint cert) used (devLastIP cert) in
  let not_null (f : string → sqldb) := match sqliteTime_Value (devLastUsed cert) with None => inr errNotNull | Some used => inl (f used) end in
  if decide (devID cert ≠ 0) then
    wrap_duplicate (exec (λ d, not_null (λ used, set_DeviceCertificate
      (update_where (λ r, dc_row_id r =? devID cert) (λ r, row (dc_row_id r) (dc_user r) used) (t_DeviceCertificate d)) d))) ;;
    mret cert
  else
    d ← gets sq_db;
    let id := next_id (dc_row_id <$> t_DeviceCertificate d) in
    (* an error of the INSERT is returned before [isErrUnique] looks at it *)
    exec (λ d, not_null (λ used, set_DeviceCertificate (t_DeviceCertificate d ++ [row id userID used]) d)) ;;
    mret (MkDevice id (devLabel cert) (devFingerprint cert) (devLastUsed cert) (devLastIP cert)).

Definition DeleteDeviceCertificate (userID : Z) (fingerprint : string) : SQ unit :=
  exec (λ d, inl (set_DeviceCertificate (filter (λ r, ¬ (dc_user r = userID ∧ dc_fingerprint r = fingerprint)) (t_DeviceCertificate d)) d)).

(** ** Receipts *)

Definition scan_delivery (r : deliveryRow) : DeliveryReceipt :=
  MkReceipt (dr_id r) (dr_target r) (NullString (dr_client r)) (dr_internal_msgid r).

Definition ListDeliveryReceipts (networkID : Z) : SQ (list DeliveryReceipt) :=
  rows ← query (λ d, filter (λ r, dr_network r = networkID) (t_DeliveryReceipt d)); mret (scan_delivery <$> rows).

Definition insert_delivery (networkID : Z) (client : string) (rcpt : DeliveryReceipt) : SQ DeliveryReceipt :=
  d ← gets sq_db;
  let id := next_id (dr_id <$> t_DeliveryReceipt d) in
  exec (λ d, inl (set_DeliveryReceipt (t_DeliveryReceipt d ++
    [MkDeliveryRow id networkID (drTarget rcpt) (toNullString client) (drInternalMsgID rcpt)]) d)) ;;
  mret (MkReceipt id (drTarget rcpt) (drClient rcpt) (drInternalMsgID rcpt)).

Definition StoreClientDeliveryReceipts (networkID : Z) (client : string) (receipts : list DeliveryReceipt) : SQ (list DeliveryReceipt) :=
  transaction (
    exec (λ d, inl (set_DeliveryReceipt (filter (λ r, ¬ (dr_network r = networkID ∧ dr_client r = toNullString client))
      (t_DeliveryReceipt d)) d)) ;;
    mapM (insert_delivery networkID client) receipts).

Definition GetReadReceipt (networkID : Z) (name : string) : SQ (option ReadReceipt) :=
  rows ← query (λ d, filter (λ r, rr_network r = networkID ∧ rr_target r = name) (t_ReadReceipt d));
  match rows with
  | [] => mret None
  | r :: _ => t ← lift (sqliteTime_Scan (Some (rr_timestamp r))); mret (Some (MkReadReceipt (rr_id r) name t))
  end.

Definition StoreReadReceipt (networkID : Z) (receipt : ReadReceipt) : SQ ReadReceipt :=
  let not_null (f : string → sqldb) := match sqliteTime_Value (rrTimestamp receipt) with None => inr errNotNull | Some t => inl (f t) end in
  if decide (rrID receipt ≠ 0) then
    exec (λ d, not_null (λ t, set_ReadReceipt (update_where (λ r, rr_id r =? rrID receipt)
      (λ r, MkReadRow (rr_id r) (rr_network r) (rr_target r) t) (t_ReadReceipt d)) d)) ;;
    mret receipt
  else
    d ← gets sq_db;
    let id := next_id (rr_id <$> t_ReadReceipt d) in
    exec (λ d, not_null (λ t, set_ReadReceipt (t_ReadReceipt d ++ [MkReadRow id networkID (rrTarget receipt) t]) d)) ;;
    mret (MkReadReceipt id (rrTarget receipt) (rrTimestamp receipt)).

(** ** Web Push *)

Definition ListWebPushConfigs : SQ (list WebPushConfig) :=
  rows ← query t_WebPushConfig; mret ((λ r, MkPushConfig (pr_id r) (pr_public r) (pr_private r)) <$> rows).

Definition StoreWebPushConfig (config : WebPushConfig) : SQ WebPushConfig :=
  if decide (pcID config ≠ 0) then fail (Errorf "cannot update a WebPushConfig")
  else
    t ← now;
    d ← gets sq_db;
    let id := next_id (pr_id <$> t_WebPushConfig d) in
    exec (λ d, match sqliteTime_Value t with
               | None => inr errNotNull
               | Some created => inl (set_WebPushConfig (t_WebPushConfig d ++ [MkPushConfigRow id created (pcPublic config) (pcPrivate config)]) d)
               end) ;;
    mret (MkPushConfig id (pcPublic config) (pcPrivate config)).

Definition null_id (id : Z) : option Z := if decide (id = 0) then None else Some id.

Definition scan_push (r : pushRow) : res goerr WebPushSubscription :=
  _ ← sqliteTime_Scan (Some (ps_created_at r));
  updated ← sqliteTime_Scan (Some (ps_updated_at r));
  Ok (MkSub (ps_id r) (ps_endpoint r) updated (MkKeys (ps_key_auth r) (ps_key_p256dh r) (ps_key_vapid r))).

Definition ListWebPushSubscriptions (userID networkID : Z) : SQ (list WebPushSubscription) :=
  rows ← query (λ d, filter (λ r, ps_user r = userID ∧ ps_network r = null_id networkID) (t_WebPushSubscription d));
  scan_all scan_push rows.

Definition StoreWebPushSubscription (userID networkID : Z) (sub : WebPushSubscription) : SQ WebPushSubscription :=
  t ← now;
  let keys := subKeys sub in
  let not_null (f : string → sqldb) := match sqliteTime_Value t with None => inr errNotNull | Some now => inl (f now) end in
  if decide (subID sub ≠ 0) then
    exec (λ d, not_null (λ now, set_WebPushSubscription (update_where (λ r, ps_id r =? subID sub)
      (λ r, MkPushRow (ps_id r) (ps_created_at r) now (ps_user r) (ps_network r) (ps_endpoint r)
              (kVAPID keys) (kAuth keys) (kP256DH keys)) (t_WebPushSubscription d)) d)) ;;
    mret sub
  else
    d ← gets sq_db;
    let id := next_id (ps_id <$> t_WebPushSubscription d) in
    exec (λ d, not_null (λ now, set_WebPushSubscription (t_WebPushSubscription d ++
      [MkPushRow id now now userID (null_id networkID) (subEndpoint sub) (kVAPID keys) (kAuth keys) (kP256DH keys)]) d)) ;;
    mret (MkSub id (subEndpoint sub) (subUpdatedAt sub) keys).

Definition DeleteWebPushSubscription (id : Z) : SQ unit :=
  exec (λ d, inl (set_WebPushSubscription (filter (λ r, ps_id r ≠ id) (t_WebPushSubscription d)) d)).

(** ** Message targets *)

Definition GetMessageTarget (networkID : Z) (target : string) : SQ MessageTarget :=
  rows ← query (λ d, filter (λ r, tr_network r = networkID ∧ tr_target r = target) (t_MessageTarget d));
  mret (match rows with
        | r :: _ => MkMessageTarget (tr_id r) target (tr_pinned r) (tr_muted r) (tr_blocked r)
        | [] => MkMessageTarget 0 target false false false
        end).

Definition ListMessageTargets (networkID : Z) : SQ (list MessageTarget) :=
  rows ← query (λ d, filter (λ r, tr_network r = networkID ∧ tr_pinned r || tr_muted r || tr_blocked r = true) (t_MessageTarget d));
  mret ((λ r, MkMessageTarget (tr_id r) (tr_target r) (tr_pinned r) (tr_muted r) (tr_blocked r)) <$> rows).

Definition StoreMessageTarget (networkID : Z) (mt : MessageTarget) : SQ MessageTarget :=
  if decide (mtID mt ≠ 0) then
    exec (λ d, inl (set_MessageTarget (update_where (λ r, tr_id r =? mtID mt)
      (λ r, MkTargetRow (tr_id r) (tr_network r) (tr_target r) (mtPinned mt) (mtMuted mt) (mtBlocked mt)) (t_MessageTarget d)) d)) ;;
    mret mt
  else
    d ← gets sq_db;
    let id := next_id (targets_of d) in
    exec (λ d, inl (set_MessageTarget (t_MessageTarget d ++
      [MkTargetRow id networkID (mtTarget mt) (mtPinned mt) (mtMuted mt) (mtBlocked mt)]) d)) ;;
    mret (MkMessageTarget id (mtTarget mt) (mtPinned mt) (mtMuted mt) (mtBlocked mt)).

(** ** Messages *)

(** The messages of a target of a network. *)
Definition messages_of (networkID : Z) (name : string) (d : sqldb) : list messageRow :=
  filter (λ m, mr_target m ∈ (tr_id <$> filter (λ t, tr_network t = networkID ∧ tr_target t = name) (t_MessageTarget d)))
    (t_Message d).

(** [LIMIT n]: a negative number is no limit. *)
Definition limit {R} (n : Z) (rows : list R) : list R := if n <? 0 then rows else take (Z.to_nat n) rows.

Definition GetMessageLastID (networkID : Z) (name : string) : SQ Z :=
  rows ← query (λ d, limit 1 (order_desc (λ m, Some (mr_time m)) (messages_of networkID name d)));
  mret (match rows with m :: _ => mr_id m | [] => 0 end).

(** The time and the text of a message that is stored. *)
Definition message_time (m : Message) (now : Z) : res goerr Z :=
  match Tags m !! "time" with
  | Some tag => match ParseServerTime tag with Some t => Ok t | None => Err (Errorf "failed to parse message time tag: %w") end
  | None => Ok now
  end.
Definition message_text (m : Message) : option string :=
  if decide (Command m = "PRIVMSG" ∨ Command m = "NOTICE") then stripANSI <$> Params m !! 1%nat else None.

(** The row for a message; it is inserted for every row of the target, of which there is one. *)
Definition insert_message (networkID : Z) (name : string) (m : Message) : SQ Z :=
  n ← now;
  t ← lift (message_time m n);
  sender ← match MPrefix m with Some p => mret (Name p) | None => panic "invalid memory address or nil pointer dereference" end;
  d ← gets sq_db;
  let id := next_id (mr_id <$> t_Message d) in
  exec (λ d,
    match filter (λ t, tr_network t = networkID ∧ tr_target t = name) (t_MessageTarget d), sqliteTime_Value t with
    | [], _ => inl d
    | _, None => inr errNotNull
    | target :: _, Some time =>
      inl (set_Message (t_Message d ++ [MkMessageRow id (tr_id target) (sq_MessageString m) time sender (message_text m)]) d)
    end) ;;
  mret id.

Definition insert_target (networkID : Z) (name : string) (d : sqldb) : sqldb :=
  if decide ((networkID, name) ∈ ((λ t, (tr_network t, tr_target t)) <$> t_MessageTarget d)) then d
  else set_MessageTarget (t_MessageTarget d ++ [MkTargetRow (next_id (targets_of d)) networkID name false false false]) d.

Definition StoreMessages (networkID : Z) (name : string) (msgs : list Message) : SQ (list Z) :=
  match msgs with
  | [] => mret []
  | _ => transaction (
      exec (λ d, inl (insert_target networkID name d)) ;;
      step ;; (* the statement is prepared *)
      mapM (insert_message networkID name) msgs)
  end.

(** The time of the last message of a target; NULL without one. *)
Definition latest_of (events : bool) (d : sqldb) (t : targetRow) : option string :=
  let rows := filter (λ m, mr_target m = tr_id t ∧ (events = true ∨ mr_text m ≠ None)) (t_Message d) in
  match limit 1 (order_desc (λ m, Some (mr_time m)) rows) with m :: _ => Some (mr_time m) | [] => None end.

Definition within (o : MessageOptions) (time : option string) : bool :=
  (IsZero (moAfterTime o) || null_lt (sqliteTime_Value (moAfterTime o)) time) &&
  (IsZero (moBeforeTime o) || null_lt time (sqliteTime_Value (moBeforeTime o))).

Definition take_last {R} (o : MessageOptions) (key : R → option string) (rows : list R) : list R :=
  limit (moLimit o) (if moTakeLast o then order_desc key rows else order_asc key rows).
Definition reversed {A} (o : MessageOptions) (l : list A) : list A := if moTakeLast o then rev l else l.

Definition ListMessageLastPerTarget (networkID : Z) (o : MessageOptions) : SQ (list MessageTargetLast) :=
  rows ← query (λ d, take_last o snd (filter (λ x : string * option string, within o x.2 = true)
    ((λ t, (tr_target t, latest_of (moEvents o) d t)) <$> filter (λ t, tr_network t = networkID) (t_MessageTarget d))));
  l ← scan_all (λ x : string * option string, ts ← sqliteTime_Scan x.2; Ok (MkTargetLast x.1 ts)) rows;
  mret (reversed o l).

Definition quoteFTSQuery (query : string) : string :=
  Join ((λ token, quote +:+ Replacer [(quote, quote +:+ quote)] token +:+ quote) <$> FieldsFunc query (λ r, negb (sq_token r))) " ".

Definition message_matches (o : MessageOptions) (m : messageRow) : bool :=
  (if 0 <? moAfterID o then moAfterID o <? mr_id m else true) && within o (Some (mr_time m)) &&
  (bool_decide (moSender o = "") || bool_decide (mr_sender m = moSender o)) &&
  (bool_decide (moText o = "") || match mr_text m with Some text => fts_match text (quoteFTSQuery (moText o)) | None => false end) &&
  (moEvents o || bool_decide (mr_text m ≠ None)).

Definition scan_message (m : messageRow) : res goerr Message :=
  match sq_ParseMessage (mr_raw m) with Some m => Ok m | None => Err (Errorf "irc: invalid message") end.

Definition ListMessages (networkID : Z) (name : string) (o : MessageOptions) : SQ (list Message) :=
  rows ← query (λ d, take_last o (λ m, Some (mr_time m)) (filter (λ m, message_matches o m = true) (messages_of networkID name d)));
  l ← scan_all scan_message rows;
  mret (reversed o l).

Definition DeleteMessagesBefore (before : Z) : SQ unit :=
  exec (λ d, inl (set_Message (filter (λ m, null_lt (Some (mr_time m)) (sqliteTime_Value before) = false) (t_Message d)) d)).
End sqlite.
