(* ===== verification/SqliteDelete.v ===== *)
(** * Deleting users and networks

    The tables are emptied in an order that never breaks a reference, and in one transaction:
    everything of the user goes, nothing else does, or nothing changes at all. *)

From S2P Require Import Prelude GoStrings GoUnicode IrcMessage GenMsg GoTime Effects Database Downstream SqlTables Sqlite.

Open Scope string_scope.
Open Scope list_scope.
Open Scope Z_scope.

(** ** Runs of statements *)

Section runs.
Context `{EN : engine}.

(** [m] takes the database from [d] to [d'], unless the engine refuses a statement. *)
Definition takes {A} (d d' : sqldb) (m : SQ A) : Prop := ∀ s, sq_db s = d →
  match m s with
  | (s', Ok _) => sq_db s' = d'
  | (_, Err e) => ∃ n, en_fault n = Some e
  | (_, Panic _) => False
  end.

Lemma takes_bind {A B} d1 d2 d3 (m : SQ A) (k : A → SQ B) : takes d1 d2 m → (∀ a, takes d2 d3 (k a)) → takes d1 d3 (m ≫= k).
Proof.
  intros Hm Hk s Hs. specialize (Hm s Hs). unfold mbind, M_bind. destruct (m s) as [s' [a|e|w]]; [by apply Hk|done|done].
Qed.
Lemma takes_ret {A} d (a : A) : takes d d (mret a).
Proof. by intros s Hs. Qed.
Lemma takes_step d : takes d d step.
Proof. intros s Hs. unfold step. destruct (en_fault (sq_count s)) as [e|] eqn:He; [by exists (sq_count s)|done]. Qed.
Lemma takes_exec d d' f : f d = inl d' → db_ok d' → takes d d' (exec f).
Proof.
  intros Hf [Hu Hfk]. unfold exec. apply (takes_bind d d d'); [apply takes_step|]. intros _ s Hs.
  rewrite bind_gets, Hs, Hf, decide_True, decide_True by done. done.
Qed.

(** A transaction is done or not. *)
Lemma transaction_takes {A} d d' (m : SQ A) s :
  takes d d' m → sq_db s = d →
  match transaction m s with
  | (s', Ok _) => sq_db s' = d'
  | (s', Err e) => sq_db s' = d ∧ ∃ n, en_fault n = Some e
  | (_, Panic _) => False
  end.
Proof.
  intros Hm Hs. assert (takes d d' (step ;; r ← m; step ;; mret r)) as Ht.
  { apply (takes_bind d d d'); [apply takes_step|]. intros _. apply (takes_bind d d' d'); [done|]. intros a.
    apply (takes_bind d' d' d'); [apply takes_step|]. intros _. apply takes_ret. }
  specialize (Ht s Hs). unfold transaction. destruct ((step ;; _) s) as [s' [a|e|w]]; done.
Qed.
End runs.

(** ** Constraints when rows go *)

Record shrinks (d' d : sqldb) : Prop := {
  sh_User : t_User d' `sublist_of` t_User d;
  sh_Network : t_Network d' `sublist_of` t_Network d;
  sh_Channel : t_Channel d' `sublist_of` t_Channel d;
  sh_DeviceCertificate : t_DeviceCertificate d' `sublist_of` t_DeviceCertificate d;
  sh_DeliveryReceipt : t_DeliveryReceipt d' `sublist_of` t_DeliveryReceipt d;
  sh_ReadReceipt : t_ReadReceipt d' `sublist_of` t_ReadReceipt d;
  sh_WebPushConfig : t_WebPushConfig d' `sublist_of` t_WebPushConfig d;
  sh_WebPushSubscription : t_WebPushSubscription d' `sublist_of` t_WebPushSubscription d;
  sh_MessageTarget : t_MessageTarget d' `sublist_of` t_MessageTarget d;
  sh_Message : t_Message d' `sublist_of` t_Message d
}.

Lemma omap_sublist {A B} (f : A → option B) l l' : l' `sublist_of` l → omap f l' `sublist_of` omap f l.
Proof. induction 1 as [|x l' l _ IH|x l' l _ IH]; cbn; [done|..]; destruct (f x); by try constructor. Qed.
Lemma unique_sublist {R K} `{EqDecision K} (key : R → option K) l l' : l' `sublist_of` l → unique key l → unique key l'.
Proof. intros Hs Hu. eapply sublist_NoDup; [exact Hu|]. by apply omap_sublist. Qed.
Lemma ids_sublist {R} (id : R → Z) l l' : l' `sublist_of` l → NoDup (id <$> l) → NoDup (id <$> l').
Proof. intros Hs Hu. eapply sublist_NoDup; [exact Hu|]. by apply fmap_sublist. Qed.
Lemma Forall_sublist {R} (P : R → Prop) l l' : l' `sublist_of` l → Forall P l → Forall P l'.
Proof. intros Hs HP. rewrite Forall_forall in *. intros x Hx. apply HP. by eapply elem_of_sublist. Qed.

Lemma unique_shrinks d' d : shrinks d' d → unique_ok d → unique_ok d'.
Proof.
  intros [] ([? ?] & (? & ? & ?) & [? ?] & [? ?] & [? ?] & [? ?] & [? ?] & [? ?] & [? ?] & ?). unfold unique_ok.
  split_and!; eauto using unique_sublist, ids_sublist.
Qed.

(** Rows nobody refers to may go. *)
Lemma foreign_shrinks d' d :
  shrinks d' d → foreign_ok d → users_of d' = users_of d → networks_of d' = networks_of d → targets_of d' = targets_of d →
  foreign_ok d'.
Proof.
  intros [] (? & ? & ? & ? & ? & ? & ? & ? & ?) Hu Hn Ht. unfold foreign_ok. rewrite Hu, Hn, Ht.
  split_and!; eauto using Forall_sublist.
Qed.
Lemma shrinks_refl d : shrinks d d.
Proof. by split. Qed.

Lemma Forall_and_filter {R} (P Q Q' : R → Prop) `{!∀ x, Decision (P x)} (l : list R) :
  Forall Q l → (∀ r, r ∈ l → Q r → P r → Q' r) → Forall Q' (filter P l).
Proof.
  intros HQ HP. rewrite Forall_forall in *. intros r [Hr Hin]%list_elem_of_filter. eauto.
Qed.
Lemma id_filter {R} (id : R → Z) (P : R → Prop) `{!∀ x, Decision (P x)} (l : list R) x :
  x ∈ id <$> l → (∀ r, r ∈ l → id r = x → P r) → x ∈ id <$> filter P l.
Proof.
  intros (r & -> & Hr)%list_elem_of_fmap HP. apply list_elem_of_fmap. exists r. split; [done|].
  apply list_elem_of_filter. eauto.
Qed.

(** ** A user *)

(** The database without the user. *)
Definition without_user (id : Z) (d : sqldb) : sqldb :=
  let nets := nets_of_user id d in
  MkDb (filter (λ r, ur_id r ≠ id) (t_User d)) (filter (λ r, nr_user r ≠ id) (t_Network d))
    (filter (λ r, cr_network r ∉ nets) (t_Channel d)) (filter (λ r, dc_user r ≠ id) (t_DeviceCertificate d))
    (filter (λ r, dr_network r ∉ nets) (t_DeliveryReceipt d)) (filter (λ r, rr_network r ∉ nets) (t_ReadReceipt d))
    (t_WebPushConfig d) (filter (λ r, ps_user r ≠ id) (t_WebPushSubscription d))
    (filter (λ r, tr_network r ∉ nets) (t_MessageTarget d))
    (filter (λ r, mr_target r ∉ targets_in nets d) (t_Message d)).

(** A push subscription for a network belongs to the owner of the network. *)
Definition push_owned (id : Z) (d : sqldb) : Prop :=
  Forall (λ r, ∀ n, ps_network r = Some n → n ∈ nets_of_user id d → ps_user r = id) (t_WebPushSubscription d).

Lemma filter_sublist {R} (P : R → Prop) `{!∀ x, Decision (P x)} (l : list R) : filter P l `sublist_of` l.
Proof. induction l as [|x l IH]; [done|]. rewrite filter_cons. case_decide; by constructor. Qed.
Ltac shrink := split; cbn; first [reflexivity | apply filter_sublist].

(** A statement that deletes rows nobody refers to. *)
Lemma leaf_ok d' d :
  db_ok d → shrinks d' d → users_of d' = users_of d → networks_of d' = networks_of d → targets_of d' = targets_of d → db_ok d'.
Proof. intros [Hu Hf] Hs ? ? ?. split; [by eapply unique_shrinks|by eapply foreign_shrinks]. Qed.

(** The targets of a list of networks, once their messages are gone. *)
Lemma targets_gone_ok (P : targetRow → Prop) `{!∀ x, Decision (P x)} d :
  db_ok d → (∀ m t, m ∈ t_Message d → t ∈ t_MessageTarget d → mr_target m = tr_id t → P t) →
  db_ok (set_MessageTarget (filter P (t_MessageTarget d)) d).
Proof.
  intros [Hu Hf] HP. split; [eapply unique_shrinks; [|exact Hu]; shrink|].
  destruct Hf as (? & ? & ? & ? & ? & ? & ? & Hm & Ht). unfold foreign_ok.
  split_and!; try done; [|by eapply Forall_sublist; [apply filter_sublist|]].
  rewrite Forall_forall in *. intros m Hin. apply id_filter; [by apply Hm|]. intros t Hin' Heq. by eapply HP.
Qed.

(** Networks, once nothing refers to them. *)
Lemma networks_gone_ok (P : networkRow → Prop) `{!∀ x, Decision (P x)} d :
  db_ok d →
  (∀ n, n ∈ t_Network d → ¬ P n →
     Forall (λ r, cr_network r ≠ nr_id n) (t_Channel d) ∧ Forall (λ r, dr_network r ≠ nr_id n) (t_DeliveryReceipt d) ∧
     Forall (λ r, rr_network r ≠ nr_id n) (t_ReadReceipt d) ∧ Forall (λ r, ps_network r ≠ Some (nr_id n)) (t_WebPushSubscription d) ∧
     Forall (λ r, tr_network r ≠ nr_id n) (t_MessageTarget d)) →
  db_ok (set_Network (filter P (t_Network d)) d).
Proof.
  intros [Hu Hf] HP. split; [eapply unique_shrinks; [|exact Hu]; shrink|].
  destruct Hf as (Hn & Hc & ? & Hd & Hr & ? & Hp & ? & Ht).
  assert (∀ x, x ∈ networks_of d → (∀ n, n ∈ t_Network d → ¬ P n → x ≠ nr_id n) →
    x ∈ networks_of (set_Network (filter P (t_Network d)) d)) as Hid.
  { intros x Hx Hne. apply id_filter; [done|]. intros n Hn' Hx'. apply dec_stable. intros HnP. by apply (Hne n Hn' HnP). }
  assert (∀ {R} (net : R → Z) (rows : list R), Forall (λ r, net r ∈ networks_of d) rows →
    (∀ n, n ∈ t_Network d → ¬ P n → Forall (λ r, net r ≠ nr_id n) rows) →
    Forall (λ r, net r ∈ networks_of (set_Network (filter P (t_Network d)) d)) rows) as Hall.
  { intros R net rows Ha Hb. rewrite Forall_forall in *. intros r Hrow. apply Hid; [by apply Ha|].
    intros n Hn' HnP. specialize (Hb n Hn' HnP). rewrite Forall_forall in Hb. by apply Hb. }
  unfold foreign_ok. split_and!; try done.
  - by eapply Forall_sublist; [apply filter_sublist|].
  - apply Hall; [done|]. intros n Ha Hb. apply (HP n Ha Hb).
  - apply Hall; [done|]. intros n Ha Hb. apply (HP n Ha Hb).
  - apply Hall; [done|]. intros n Ha Hb. apply (HP n Ha Hb).
  - rewrite Forall_forall in *. intros r Hrow. specialize (Hp r Hrow). destruct (ps_network r) as [x|] eqn:Hx; [|done].
    apply Hid; [done|]. intros n Ha Hb ->. destruct (HP n Ha Hb) as (_ & _ & _ & Hps & _). rewrite Forall_forall in Hps.
    by apply (Hps r Hrow).
  - apply Hall; [done|]. intros n Ha Hb. apply (HP n Ha Hb).
Qed.

(** A user, once nothing refers to it. *)
Lemma user_gone_ok id d :
  db_ok d → Forall (λ r, nr_user r ≠ id) (t_Network d) → Forall (λ r, dc_user r ≠ id) (t_DeviceCertificate d) →
  Forall (λ r, ps_user r ≠ id) (t_WebPushSubscription d) → db_ok (set_User (filter (λ r, ur_id r ≠ id) (t_User d)) d).
Proof.
  intros [Hu Hf] H1 H2 H3. split; [eapply unique_shrinks; [|exact Hu]; shrink|].
  destruct Hf as (Hn & ? & Hc & ? & ? & Hp & ? & ? & ?).
  assert (∀ {R} (user : R → Z) (rows : list R), Forall (λ r, user r ∈ users_of d) rows → Forall (λ r, user r ≠ id) rows →
    Forall (λ r, user r ∈ users_of (set_User (filter (λ r, ur_id r ≠ id) (t_User d)) d)) rows) as Hall.
  { intros R user rows Ha Hb. rewrite Forall_forall in *. intros r Hr. apply id_filter; [by apply Ha|].
    intros u _ Hid Heq. apply (Hb r Hr). congruence. }
  unfold foreign_ok. split_and!; try done; by apply Hall.
Qed.

Lemma Forall_filter_self {R} (P : R → Prop) `{!∀ x, Decision (P x)} (l : list R) : Forall P (filter P l).
Proof. apply Forall_forall. by intros x [? _]%list_elem_of_filter. Qed.

Lemma in_nets_of_user id d n : n ∈ t_Network d → nr_user n = id → nr_id n ∈ nets_of_user id d.
Proof. intros Hn Hu. apply list_elem_of_fmap. exists n. split; [done|]. by apply list_elem_of_filter. Qed.

(** What refers to a network of the user is gone when the rows of its networks are. *)
Lemma not_in_nets {R} (net : R → Z) id d (rows : list R) n :
  n ∈ t_Network d → ¬ nr_user n ≠ id → Forall (λ r, net r ≠ nr_id n) (filter (λ r, net r ∉ nets_of_user id d) rows).
Proof.
  intros Hn Hu. apply Forall_forall. intros r [Hr _]%list_elem_of_filter Heq. apply Hr. rewrite Heq.
  apply in_nets_of_user; [done|]. apply dec_stable. tauto.
Qed.

Section delete.
Context `{EN : engine}.

(** Each statement of [DeleteUser] leaves a database that satisfies its constraints. *)
Lemma DeleteUser_takes id d : db_ok d → push_owned id d → 
  ∀ s, sq_db s = d →
  match DeleteUser id s with
  | (s', Ok _) => sq_db s' = without_user id d ∧ db_ok (without_user id d)
  | (s', Err e) => sq_db s' = d ∧ ∃ n, en_fault n = Some e
  | (_, Panic _) => False
  end.
Proof.
  intros H0 Hpush s Hs. unfold DeleteUser.
  set (nets := nets_of_user id d).
  set (d1 := set_DeliveryReceipt (filter (λ r, dr_network r ∉ nets) (t_DeliveryReceipt d)) d).
  set (d2 := set_ReadReceipt (filter (λ r, rr_network r ∉ nets) (t_ReadReceipt d)) d1).
  set (d3 := set_Message (filter (λ r, mr_target r ∉ targets_in nets d) (t_Message d)) d2).
  set (d4 := set_MessageTarget (filter (λ r, tr_network r ∉ nets) (t_MessageTarget d)) d3).
  set (d5 := set_WebPushSubscription (filter (λ r, ps_user r ≠ id) (t_WebPushSubscription d)) d4).
  set (d6 := set_DeviceCertificate (filter (λ r, dc_user r ≠ id) (t_DeviceCertificate d)) d5).
  set (d7 := set_Channel (filter (λ r, cr_network r ∉ nets) (t_Channel d)) d6).
  set (d8 := set_Network (filter (λ r, nr_user r ≠ id) (t_Network d)) d7).
  assert (db_ok d1) as H1 by (eapply leaf_ok; [exact H0|shrink|done..]).
  assert (db_ok d2) as H2 by (eapply leaf_ok; [exact H1|shrink|done..]).
  assert (db_ok d3) as H3 by (eapply leaf_ok; [exact H2|shrink|done..]).
  assert (db_ok d4) as H4.
  { apply (targets_gone_ok _ d3 H3). intros m t' Hm Ht Heq Hin. apply list_elem_of_filter in Hm as [Hm _]. apply Hm.
    rewrite Heq. apply list_elem_of_fmap. exists t'. split; [done|]. by apply list_elem_of_filter. }
  assert (db_ok d5) as H5 by (eapply leaf_ok; [exact H4|shrink|done..]).
  assert (db_ok d6) as H6 by (eapply leaf_ok; [exact H5|shrink|done..]).
  assert (db_ok d7) as H7 by (eapply leaf_ok; [exact H6|shrink|done..]).
  assert (db_ok d8) as H8.
  { apply (networks_gone_ok _ d7 H7). intros n Hn Hu. split_and!; try by apply (not_in_nets _ id d).
    eapply Forall_and_filter; [exact Hpush|]. intros r _ Howned Hr Hnet. apply Hr. apply (Howned _ Hnet).
    apply in_nets_of_user; [done|]. apply dec_stable. tauto. }
  assert (db_ok (without_user id d)) as H9 by (apply (user_gone_ok id d8 H8); apply Forall_filter_self).
  match goal with |- context [transaction ?m] => assert (takes d (without_user id d) m) as Ht end.
  { repeat (eapply takes_bind; [apply takes_exec; [reflexivity|assumption]|intros _]). apply takes_exec; [reflexivity|assumption]. }
  pose proof (transaction_takes _ _ _ s Ht Hs) as Hr. by destruct (transaction _ s) as [s' [[]|e|w]].
Qed.

(** ** A network *)

Definition without_network (id : Z) (d : sqldb) : sqldb :=
  MkDb (t_User d) (filter (λ r, nr_id r ≠ id) (t_Network d)) (filter (λ r, cr_network r ≠ id) (t_Channel d))
    (t_DeviceCertificate d) (filter (λ r, dr_network r ≠ id) (t_DeliveryReceipt d))
    (filter (λ r, rr_network r ≠ id) (t_ReadReceipt d)) (t_WebPushConfig d)
    (filter (λ r, ps_network r ≠ Some id) (t_WebPushSubscription d)) (filter (λ r, tr_network r ≠ id) (t_MessageTarget d))
    (filter (λ r, mr_target r ∉ targets_in [id] d) (t_Message d)).

Lemma DeleteNetwork_takes id d : db_ok d →
  ∀ s, sq_db s = d →
  match DeleteNetwork id s with
  | (s', Ok _) => sq_db s' = without_network id d ∧ db_ok (without_network id d)
  | (s', Err e) => sq_db s' = d ∧ ∃ n, en_fault n = Some e
  | (_, Panic _) => False
  end.
Proof.
  intros H0 s Hs. unfold DeleteNetwork.
  set (d1 := set_Message (filter (λ r, mr_target r ∉ targets_in [id] d) (t_Message d)) d).
  set (d2 := set_MessageTarget (filter (λ r, tr_network r ≠ id) (t_MessageTarget d)) d1).
  set (d3 := set_WebPushSubscription (filter (λ r, ps_network r ≠ Some id) (t_WebPushSubscription d)) d2).
  set (d4 := set_DeliveryReceipt (filter (λ r, dr_network r ≠ id) (t_DeliveryReceipt d)) d3).
  set (d5 := set_ReadReceipt (filter (λ r, rr_network r ≠ id) (t_ReadReceipt d)) d4).
  set (d6 := set_Channel (filter (λ r, cr_network r ≠ id) (t_Channel d)) d5).
  assert (db_ok d1) as H1 by (eapply leaf_ok; [exact H0|shrink|done..]).
  assert (db_ok d2) as H2.
  { apply (targets_gone_ok _ d1 H1). intros m t' Hm Ht Heq Hin. apply list_elem_of_filter in Hm as [Hm _]. apply Hm.
    rewrite Heq. apply list_elem_of_fmap. exists t'. split; [done|]. apply list_elem_of_filter. split; [|done].
    rewrite Hin. by left. }
  assert (db_ok d3) as H3 by (eapply leaf_ok; [exact H2|shrink|done..]).
  assert (db_ok d4) as H4 by (eapply leaf_ok; [exact H3|shrink|done..]).
  assert (db_ok d5) as H5 by (eapply leaf_ok; [exact H4|shrink|done..]).
  assert (db_ok d6) as H6 by (eapply leaf_ok; [exact H5|shrink|done..]).
  assert (db_ok (without_network id d)) as H7.
  { apply (networks_gone_ok _ d6 H6). intros n _ ->%dec_stable. split_and!; apply Forall_filter_self. }
  match goal with |- context [transaction ?m] => assert (takes d (without_network id d) m) as Ht end.
  { repeat (eapply takes_bind; [apply takes_exec; [reflexivity|assumption]|intros _]). apply takes_exec; [reflexivity|assumption]. }
  pose proof (transaction_takes _ _ _ s Ht Hs) as Hr. by destruct (transaction _ s) as [s' [[]|e|w]].
Qed.
End delete.

(** ** Ownership *)

Definition net_owned (user : Z) (d : sqldb) (net : Z) : Prop := ∃ r, r ∈ t_Network d ∧ nr_id r = net ∧ nr_user r = user.
Definition target_owned (user : Z) (d : sqldb) (target : Z) : Prop :=
  ∃ r, r ∈ t_MessageTarget d ∧ tr_id r = target ∧ net_owned user d (tr_network r).

(** [d'] has the rows of [d] that the user does not own. *)
Record purged (user : Z) (d d' : sqldb) : Prop := {
  pg_User r : r ∈ t_User d' ↔ r ∈ t_User d ∧ ur_id r ≠ user;
  pg_Network r : r ∈ t_Network d' ↔ r ∈ t_Network d ∧ nr_user r ≠ user;
  pg_Channel r : r ∈ t_Channel d' ↔ r ∈ t_Channel d ∧ ¬ net_owned user d (cr_network r);
  pg_DeviceCertificate r : r ∈ t_DeviceCertificate d' ↔ r ∈ t_DeviceCertificate d ∧ dc_user r ≠ user;
  pg_DeliveryReceipt r : r ∈ t_DeliveryReceipt d' ↔ r ∈ t_DeliveryReceipt d ∧ ¬ net_owned user d (dr_network r);
  pg_ReadReceipt r : r ∈ t_ReadReceipt d' ↔ r ∈ t_ReadReceipt d ∧ ¬ net_owned user d (rr_network r);
  pg_WebPushConfig : t_WebPushConfig d' = t_WebPushConfig d;
  pg_WebPushSubscription r : r ∈ t_WebPushSubscription d' ↔ r ∈ t_WebPushSubscription d ∧ ps_user r ≠ user;
  pg_MessageTarget r : r ∈ t_MessageTarget d' ↔ r ∈ t_MessageTarget d ∧ ¬ net_owned user d (tr_network r);
  pg_Message r : r ∈ t_Message d' ↔ r ∈ t_Message d ∧ ¬ target_owned user d (mr_target r)
}.

Lemma net_owned_spec user d net : net ∈ nets_of_user user d ↔ net_owned user d net.
Proof.
  unfold nets_of_user, net_owned. rewrite list_elem_of_fmap. split.
  - intros (r & -> & [Hu Hr]%list_elem_of_filter). eauto.
  - intros (r & Hr & <- & Hu). exists r. split; [done|]. by apply list_elem_of_filter.
Qed.
Lemma target_owned_spec user d t : t ∈ targets_in (nets_of_user user d) d ↔ target_owned user d t.
Proof.
  unfold targets_in, target_owned. rewrite list_elem_of_fmap. split.
  - intros (r & -> & [Hn Hr]%list_elem_of_filter). rewrite net_owned_spec in Hn. eauto.
  - intros (r & Hr & <- & Hn). exists r. split; [done|]. apply list_elem_of_filter. by rewrite net_owned_spec.
Qed.

Lemma without_user_purged user d : purged user d (without_user user d).
Proof.
  split; [..|done| | |]; intros; cbn; rewrite list_elem_of_filter, ?net_owned_spec, ?target_owned_spec; tauto.
Qed.

(** C18: A user is deleted entirely or not at all. [DeleteUser] removes the user, the networks of
    the user and all that hangs on them or on the user in nine other tables, down to the
    messages, and not a row of anybody else; the references between the tables hold afterwards.
    It fails only when the database refuses a statement, never because of the order of the
    deletions, and then nothing is deleted. *)
Theorem delete_user_exact `{EN : engine} (user : Z) (s : sqlState) :
  db_ok (sq_db s) → push_owned user (sq_db s) →
  let '(s', r) := DeleteUser user s in
  (r = Ok tt ∧ purged user (sq_db s) (sq_db s') ∧ db_ok (sq_db s')) ∨
  (∃ n e, en_fault n = Some e ∧ r = Err e ∧ sq_db s' = sq_db s).
Proof.
  intros Hok Hpush. pose proof (DeleteUser_takes user _ Hok Hpush s eq_refl) as Hd.
  destruct (DeleteUser user s) as [s' [[]|e|w]]; [left|right|done].
  - destruct Hd as [-> Hd]. split_and!; [done|apply without_user_purged|done].
  - destruct Hd as [Hs (n & Hn)]. eauto.
Qed.

(** Two users; the first has a network with a channel, a message and a subscription. *)
Definition demo_engine (refused : option nat) : engine :=
  MkEngine (λ n, match refused with Some k => if (n =? k)%nat then Some (Errorf "database is locked") else None | None => None end)
    (λ _, 0) true.
Definition demo_db : sqldb :=
  MkDb [MkUserRow 1 "alice" None false None None "2024-01-01T00:00:00.000Z" true None (-1);
        MkUserRow 2 "bob" None false None None "2024-01-01T00:00:00.000Z" true None (-1)]
    [MkNetworkRow 1 None 1 "irc.example.org" None None None None None None None None None None None true true;
     MkNetworkRow 2 None 2 "irc.example.org" None None None None None None None None None None None true true]
    [MkChannelRow 1 1 "#go" None false None FilterDefault FilterDefault 0 FilterDefault;
     MkChannelRow 2 2 "#go" None false None FilterDefault FilterDefault 0 FilterDefault]
    [] [MkDeliveryRow 1 1 "#go" None "id"] [] []
    [MkPushRow 1 "2024-01-01T00:00:00.000Z" "2024-01-01T00:00:00.000Z" 1 (Some 1) "https://push.example" "" "" ""]
    [MkTargetRow 1 1 "#go" false false false; MkTargetRow 2 2 "#go" true false false]
    [MkMessageRow 1 1 "PRIVMSG #go hello" "2024-01-01T00:00:00.000Z" "bob" (Some "hello");
     MkMessageRow 2 2 "PRIVMSG #go hi" "2024-01-01T00:00:00.000Z" "alice" (Some "hi")].

Lemma demo_db_ok : db_ok demo_db.
Proof. split; refine (bool_decide_unpack _ _); vm_compute; exact I. Qed.

Lemma delete_user_exact_witness :
  let '(s', r) := DeleteUser (EN := demo_engine None) 1 (MkSql demo_db 0) in
  r = Ok tt ∧ mr_id <$> t_Message (sq_db s') = [2] ∧ db_ok (sq_db s') ∧
  (DeleteUser (EN := demo_engine (Some 7%nat)) 1 (MkSql demo_db 0)).1 = MkSql demo_db 8.
Proof.
  assert (push_owned 1 demo_db) as Hp by (constructor; [by intros n|constructor]).
  pose proof (delete_user_exact (EN := demo_engine None) 1 (MkSql demo_db 0) demo_db_ok Hp) as Hd.
  destruct (DeleteUser (EN := demo_engine None) 1 (MkSql demo_db 0)) as [s' r] eqn:Hrun.
  assert (s' = (DeleteUser (EN := demo_engine None) 1 (MkSql demo_db 0)).1) as Hs by (by rewrite Hrun).
  destruct Hd as [(-> & _ & Hok)|(n & e & Hn & _)]; [|discriminate Hn].
  split_and!; [reflexivity|rewrite Hs; vm_compute; reflexivity|exact Hok|vm_compute; reflexivity].
Defined.
