(* ===== verification/SqliteSpec.v ===== *)
(** * Messages in the SQLite database

    [ListMessages] against the messages that are stored: which it selects, and which of them it
    keeps when there are more than the limit. [StoreMessages] appends. The order of rows is the
    engine's; class [order_laws] has what ORDER BY promises. *)

From S2P Require Import Prelude GoStrings GoUnicode IrcMessage GenMsg GoTime Effects Database Downstream SqlTables Sqlite SqliteDelete.

Open Scope string_scope.
Open Scope list_scope.
Open Scope Z_scope.

(** ** ORDER BY *)

(** The order of texts; NULL comes first. *)
Definition null_le (a b : option string) : Prop :=
  match a, b with None, _ => True | Some _, None => False | Some a, Some b => str_leb a b = true end.

Class order_laws `(SE : search_engine) : Prop := {
  order_asc_perm {R} (key : R → option string) rows : order_asc key rows ≡ₚ rows;
  order_asc_sorted {R} (key : R → option string) rows : StronglySorted (λ a b, null_le (key a) (key b)) (order_asc key rows);
  order_desc_perm {R} (key : R → option string) rows : order_desc key rows ≡ₚ rows;
  order_desc_sorted {R} (key : R → option string) rows : StronglySorted (λ a b, null_le (key b) (key a)) (order_desc key rows)
}.

(** ** A window of a list *)

(** [rows] are the first [lim] of [all] in the order [le], or the last ones, in that order. *)
Record window {A} (last : bool) (lim : Z) (le : A → A → Prop) (all rows : list A) : Prop := {
  win_sorted : StronglySorted le rows;
  win_length : length rows = if lim <? 0 then length all else Nat.min (Z.to_nat lim) (length all);
  win_rest : ∃ rest, rows ++ rest ≡ₚ all ∧ ∀ x y, x ∈ rows → y ∈ rest → if last then le y x else le x y
}.

Lemma StronglySorted_app_rel {A} (R : A → A → Prop) l k :
  StronglySorted R (l ++ k) → StronglySorted R l ∧ ∀ x y, x ∈ l → y ∈ k → R x y.
Proof.
  induction l as [|a l IH]; cbn; [intros _; split; [constructor|intros x y Hx; by inversion Hx]|].
  intros [Hs Ha]%StronglySorted_inv. destruct (IH Hs) as [Hl Hlk]. rewrite Forall_app in Ha. destruct Ha as [Ha1 Ha2].
  split; [by constructor|]. intros x y [->|Hx]%elem_of_cons Hy; [|by apply Hlk]. rewrite Forall_forall in Ha2. by apply Ha2.
Qed.
Lemma StronglySorted_snoc {A} (R : A → A → Prop) l x :
  StronglySorted R l → Forall (λ y, R y x) l → StronglySorted R (l ++ [x]).
Proof.
  induction 1 as [|a l Hs IH Ha]; cbn; intros Hx; [repeat constructor|]. apply Forall_cons in Hx as [Hx1 Hx2].
  constructor; [by apply IH|]. apply Forall_app. split; [done|]. by constructor.
Qed.
Lemma StronglySorted_rev {A} (R : A → A → Prop) l : StronglySorted (flip R) l → StronglySorted R (rev l).
Proof.
  induction 1 as [|a l Hs IH Ha]; cbn; [constructor|]. apply StronglySorted_snoc; [done|].
  rewrite Forall_forall in *. intros y Hy%list_elem_of_In%in_rev%list_elem_of_In. by apply Ha.
Qed.

Lemma limit_split {A} n (l : list A) :
  ∃ rest, limit n l ++ rest = l ∧ length (limit n l) = if n <? 0 then length l else Nat.min (Z.to_nat n) (length l).
Proof.
  unfold limit. destruct (n <? 0); [exists []; by rewrite app_nil_r|].
  exists (drop (Z.to_nat n) l). by rewrite take_drop, length_take.
Qed.

(** The first rows of a list in an order, and the last ones of a list in the opposite order. *)
Lemma first_window {A} (le : A → A → Prop) n (l rows : list A) :
  l ≡ₚ rows → StronglySorted le l → window false n le rows (limit n l).
Proof.
  intros Hp Hs. destruct (limit_split n l) as (rest & Hl & Hlen). rewrite (Permutation_length Hp) in Hlen.
  rewrite <-Hl in Hs. apply StronglySorted_app_rel in Hs as [Hs Hr]. split; [done..|]. exists rest. by rewrite Hl.
Qed.
Lemma last_window {A} (le : A → A → Prop) n (l rows : list A) :
  l ≡ₚ rows → StronglySorted (flip le) l → window true n le rows (rev (limit n l)).
Proof.
  intros Hp Hs. destruct (limit_split n l) as (rest & Hl & Hlen). rewrite (Permutation_length Hp) in Hlen.
  rewrite <-Hl in Hs. apply StronglySorted_app_rel in Hs as [Hs Hr]. split.
  - by apply StronglySorted_rev.
  - by rewrite length_rev.
  - exists rest. split; [by rewrite <-Permutation_rev, Hl|].
    intros x y Hx%list_elem_of_In%in_rev%list_elem_of_In Hy. by apply Hr.
Qed.

(** Ordering, taking the first rows and reversing them is a window. *)
Lemma take_last_window `{order_laws} {R} (o : MessageOptions) (key : R → option string) (rows : list R) :
  window (moTakeLast o) (moLimit o) (λ a b, null_le (key a) (key b)) rows (reversed o (take_last o key rows)).
Proof.
  unfold reversed, take_last. destruct (moTakeLast o).
  - apply last_window; [apply order_desc_perm|apply order_desc_sorted].
  - apply first_window; [apply order_asc_perm|apply order_asc_sorted].
Qed.

(** The order may be replaced by one it implies on the rows. *)
Lemma StronglySorted_impl_in {A} (R R' : A → A → Prop) l :
  (∀ x y, x ∈ l → y ∈ l → R x y → R' x y) → StronglySorted R l → StronglySorted R' l.
Proof.
  intros Hi Hs. induction Hs as [|a l Hs IH Ha]; constructor.
  - apply IH. intros x y Hx Hy. apply Hi; by right.
  - rewrite Forall_forall in *. intros y Hy. apply Hi; [by left|by right|by apply Ha].
Qed.
Lemma window_impl {A} last lim (le le' : A → A → Prop) all rows :
  (∀ x y, x ∈ all → y ∈ all → le x y → le' x y) → window last lim le all rows → window last lim le' all rows.
Proof.
  intros Hi [Hs Hlen (rest & Hp & Hr)].
  assert (∀ x, x ∈ rows → x ∈ all) as H1 by (intros x Hx; rewrite <-Hp; apply elem_of_app; by left).
  assert (∀ x, x ∈ rest → x ∈ all) as H2 by (intros x Hx; rewrite <-Hp; apply elem_of_app; by right).
  split; [|done|].
  - apply (StronglySorted_impl_in le); [|done]. eauto.
  - exists rest. split; [done|]. intros x y Hx Hy. specialize (Hr x y Hx Hy). destruct last; eauto.
Qed.
Lemma window_perm {A} last lim (le : A → A → Prop) all all' rows :
  all ≡ₚ all' → window last lim le all rows → window last lim le all' rows.
Proof.
  intros Hp [Hs Hlen (rest & Hr & Hle)]. split; [done|by rewrite <-(Permutation_length Hp)|]. exists rest. by rewrite <-Hp.
Qed.

Lemma window_fmap {A B} (f : A → B) last lim (le : A → A → Prop) (le' : B → B → Prop) all rows :
  (∀ x y, x ∈ all → y ∈ all → le x y → le' (f x) (f y)) → window last lim le all rows → window last lim le' (f <$> all) (f <$> rows).
Proof.
  intros Hi Hw. apply (window_impl _ _ _ (λ x y, le' (f x) (f y))) in Hw as [Hs Hlen (rest & Hp & Hr)]; [|done]. split.
  - clear -Hs. induction Hs as [|a l _ IH Ha]; cbn; constructor; [done|]. by apply Forall_fmap.
  - by rewrite !length_fmap.
  - exists (f <$> rest). split; [by rewrite <-fmap_app, Hp|].
    intros ? ? (x & -> & Hx)%list_elem_of_fmap (y & -> & Hy)%list_elem_of_fmap. specialize (Hr x y Hx Hy). by destruct last.
Qed.

(** ** What is stored *)

(** The time of a message, in milliseconds. *)
Definition row_ms (m : messageRow) : Z := default 0 (ParseServerTime (mr_time m)) / nsPerMs.

(** A row as [StoreMessages] writes it. *)
Definition row_ok `{sqlenv} (m : messageRow) : Prop :=
  (∃ t, four_digit_year (t / nsPerDay) ∧ mr_time m = FormatServerTime t) ∧ is_Some (sq_ParseMessage (mr_raw m)).

Lemma row_ms_format t raw id target sender text : four_digit_year (t / nsPerDay) →
  row_ms (MkMessageRow id target raw (FormatServerTime t) sender text) = t / nsPerMs.
Proof.
  intros Ht. unfold row_ms. cbn. rewrite ParseServerTime_Format by done. cbn. unfold nsPerMs.
  Z.to_euclidean_division_equations; lia.
Qed.
Lemma row_ms_stored m t : four_digit_year (t / nsPerDay) → mr_time m = FormatServerTime t → row_ms m = t / nsPerMs.
Proof. intros Ht Hm. destruct m. cbn in Hm. subst. by apply row_ms_format. Qed.

(** The messages [MessageOptions] asks for. *)
Definition wanted `{search_engine, sqlenv} (o : MessageOptions) (m : messageRow) : Prop :=
  (0 < moAfterID o → moAfterID o < mr_id m) ∧
  (moAfterTime o ≠ zeroTime → moAfterTime o / nsPerMs < row_ms m) ∧
  (moBeforeTime o ≠ zeroTime → row_ms m < moBeforeTime o / nsPerMs) ∧
  (moSender o ≠ "" → mr_sender m = moSender o) ∧
  (moText o ≠ "" → ∃ text, mr_text m = Some text ∧ fts_match text (quoteFTSQuery (moText o)) = true) ∧
  (moEvents o = false → mr_text m ≠ None).

Lemma null_lt_server_time a b :
  four_digit_year (a / nsPerDay) → four_digit_year (b / nsPerDay) →
  null_lt (Some (FormatServerTime a)) (Some (FormatServerTime b)) = (a / nsPerMs <? b / nsPerMs).
Proof.
  intros Ha Hb. unfold null_lt, text_lt. rewrite str_leb_server_time by done.
  destruct (Z.leb_spec (b / nsPerMs) (a / nsPerMs)), (Z.ltb_spec (a / nsPerMs) (b / nsPerMs)); cbn; lia.
Qed.

Section messages.
Context `{EN : engine} `{SE : search_engine} `{LE : sqlenv}.

Lemma within_spec o m t :
  four_digit_year (moAfterTime o / nsPerDay) → four_digit_year (moBeforeTime o / nsPerDay) →
  four_digit_year (t / nsPerDay) → mr_time m = FormatServerTime t →
  within o (Some (mr_time m)) = true ↔
  (moAfterTime o ≠ zeroTime → moAfterTime o / nsPerMs < row_ms m) ∧
  (moBeforeTime o ≠ zeroTime → row_ms m < moBeforeTime o / nsPerMs).
Proof.
  intros Ha Hb Ht Hm. unfold within, sqliteTime_Value, IsZero. rewrite (row_ms_stored m t), Hm by done.
  destruct (Z.eqb_spec (moAfterTime o) zeroTime), (Z.eqb_spec (moBeforeTime o) zeroTime); cbn [orb];
    rewrite ?null_lt_server_time, ?andb_true_iff, ?Z.ltb_lt by done; tauto.
Qed.

Lemma message_matches_spec o m :
  four_digit_year (moAfterTime o / nsPerDay) → four_digit_year (moBeforeTime o / nsPerDay) → row_ok m →
  message_matches o m = true ↔ wanted o m.
Proof.
  intros Ha Hb [(t & Ht & Hm) _]. unfold message_matches, wanted. rewrite !andb_true_iff, (within_spec o m t) by done.
  rewrite !orb_true_iff, !bool_decide_eq_true.
  assert ((if 0 <? moAfterID o then moAfterID o <? mr_id m else true) = true ↔ (0 < moAfterID o → moAfterID o < mr_id m)) as ->.
  { destruct (Z.ltb_spec 0 (moAfterID o)); [rewrite Z.ltb_lt; tauto|split; [lia|done]]. }
  assert ((moSender o = "" ∨ mr_sender m = moSender o) ↔ (moSender o ≠ "" → mr_sender m = moSender o)) as ->
    by (destruct (decide (moSender o = "")); tauto).
  assert (match mr_text m with Some text => fts_match text (quoteFTSQuery (moText o)) | None => false end = true ↔
    ∃ text, mr_text m = Some text ∧ fts_match text (quoteFTSQuery (moText o)) = true) as ->
    by (destruct (mr_text m); naive_solver).
  destruct (decide (moText o = "")), (moEvents o); naive_solver.
Qed.

Lemma mapM_scan rows :
  Forall (λ m, is_Some (sq_ParseMessage (mr_raw m))) rows →
  ∃ msgs, mapM scan_message rows = Ok msgs ∧ Forall2 (λ m msg, sq_ParseMessage (mr_raw m) = Some msg) rows msgs.
Proof.
  induction 1 as [|m rows [msg Hm] _ (msgs & Hl & Hf)]; [by exists []|]. exists (msg :: msgs).
  assert (scan_message m = Ok msg) as Hs by (unfold scan_message; by rewrite Hm). cbn. rewrite Hs. cbn. rewrite Hl. cbn.
  split; [done|]. by constructor.
Qed.
Lemma Forall2_reversed {A B} (P : A → B → Prop) o l k : Forall2 P l k → Forall2 P (reversed o l) (reversed o k).
Proof.
  intros Hf. unfold reversed. destruct (moTakeLast o); [|done]. rewrite !rev_alt. by apply Forall2_reverse.
Qed.

(** C17: Chat history is the window that was asked for. When the database answers, [ListMessages]
    returns, parsed and in the order of their times, messages of the target that the options
    want: after an ID, strictly between two times to the millisecond, by a sender, matching a
    text, and only PRIVMSG and NOTICE unless events are wanted. When more are wanted than the
    limit, it keeps the earliest, or the latest with [TakeLast]: no message that is left out
    belongs between those that are returned. *)
Theorem list_messages_window `{!order_laws SE} networkID name o s :
  four_digit_year (moAfterTime o / nsPerDay) → four_digit_year (moBeforeTime o / nsPerDay) →
  Forall row_ok (t_Message (sq_db s)) → en_fault (sq_count s) = None →
  ∃ all rows msgs,
    ListMessages networkID name o s = (MkSql (sq_db s) (S (sq_count s)), Ok msgs) ∧
    Forall2 (λ m msg, sq_ParseMessage (mr_raw m) = Some msg) rows msgs ∧
    window (moTakeLast o) (moLimit o) (λ a b, row_ms a ≤ row_ms b) all rows ∧
    all `sublist_of` messages_of networkID name (sq_db s) ∧
    (∀ m, m ∈ all ↔ m ∈ messages_of networkID name (sq_db s) ∧ wanted o m).
Proof.
  intros Ha Hb Hok Hn. set (l := messages_of networkID name (sq_db s)).
  assert (Forall row_ok l) as Hl by (eapply Forall_sublist; [apply filter_sublist|done]). rewrite Forall_forall in Hl.
  set (all := filter (λ m, message_matches o m = true) l).
  assert (∀ m, m ∈ all ↔ m ∈ l ∧ wanted o m) as Hall.
  { intros m. unfold all. rewrite list_elem_of_filter. split.
    - intros [H1 H2]. split; [done|]. by apply (message_matches_spec o m Ha Hb (Hl m H2)).
    - intros [H1 H2]. split; [|done]. by apply (message_matches_spec o m Ha Hb (Hl m H1)). }
  pose proof (take_last_window o (λ m, Some (mr_time m)) all) as Hw.
  set (rows := take_last o (λ m, Some (mr_time m)) all) in *.
  assert (∀ m, m ∈ rows → row_ok m) as Hrow.
  { intros m Hm. apply Hl. apply Hall. destruct Hw as [_ _ (rest & Hp & _)]. rewrite <-Hp. apply elem_of_app. left.
    unfold reversed. destruct (moTakeLast o); [|done]. by rewrite <-Permutation_rev. }
  destruct (mapM_scan rows) as (msgs & Hs & Hf); [apply Forall_forall; intros m Hm; by apply Hrow|].
  exists all, (reversed o rows), (reversed o msgs). split_and!; [|by apply Forall2_reversed| |apply filter_sublist|done].
  - unfold ListMessages, query, step, scan_all, lift, gets, mbind, M_bind, mret, M_ret. cbn. rewrite Hn. fold l all rows. by rewrite Hs.
  - eapply window_impl; [|exact Hw]. intros x y Hx Hy. cbn.
    apply Hall in Hx as [[(tx & Htx & Hmx) _]%Hl _]. apply Hall in Hy as [[(ty & Hty & Hmy) _]%Hl _].
    rewrite (row_ms_stored x tx), (row_ms_stored y ty), Hmx, Hmy, str_leb_server_time by done. by rewrite Z.leb_le.
Qed.
End messages.
