(* ===== verification/SqliteRecords.v ===== *)
(** * Storing messages in the SQLite database

    [StoreMessages] of one message appends a row, with a larger ID than all others, to the
    messages of its target, and to no other target's.
    The second part is about networks and channels. *)

From S2P Require Import Prelude GoStrings GoUnicode GoStrconv IrcMessage Effects GenMsg GoTime Database Downstream SqlTables Sqlite SqliteDelete SqliteSpec.

Open Scope string_scope.
Open Scope list_scope.
Open Scope Z_scope.

(** ** Constraints when a row comes *)

Lemma omap_snoc {A B} (f : A → option B) l x : omap f (l ++ [x]) = omap f l ++ (match f x with Some y => [y] | None => [] end).
Proof. rewrite omap_app. cbn. by destruct (f x). Qed.
Lemma unique_snoc {R K} `{EqDecision K} (key : R → option K) l x :
  unique key l → (∀ k, key x = Some k → k ∉ omap key l) → unique key (l ++ [x]).
Proof.
  intros Hu Hx. unfold unique. rewrite omap_snoc. destruct (key x) as [k|] eqn:Hk; [|by rewrite app_nil_r].
  apply NoDup_app. split_and!; [done| |apply NoDup_singleton]. intros y Hy ->%list_elem_of_singleton. by apply (Hx k).
Qed.
Lemma ids_snoc {R} (id : R → Z) l x : NoDup (id <$> l) → id x = next_id (id <$> l) → NoDup (id <$> (l ++ [x])).
Proof.
  intros Hu Hx. rewrite fmap_app. apply NoDup_app. split_and!; [done| |apply NoDup_singleton].
  intros y Hy ->%list_elem_of_singleton. rewrite Hx in Hy. by apply next_id_fresh in Hy.
Qed.
Lemma Forall_snoc {A} (P : A → Prop) l x : Forall P l → P x → Forall P (l ++ [x]).
Proof. intros Hl Hx. apply Forall_app. split; [done|]. by constructor. Qed.
Lemma filter_iff_in {A} (P Q : A → Prop) `{!∀ x, Decision (P x), !∀ x, Decision (Q x)} (l : list A) :
  (∀ x, x ∈ l → P x ↔ Q x) → filter P l = filter Q l.
Proof.
  induction l as [|x l IH]; intros Hl; [done|]. rewrite !filter_cons, IH by (intros; apply Hl; by right).
  pose proof (Hl x ltac:(by left)). repeat case_decide; tauto.
Qed.
Lemma next_id_larger ids x : x ∈ ids → x < next_id ids.
Proof.
  unfold next_id. induction ids as [|y ids IH]; intros Hx; [by inversion Hx|]. cbn.
  apply elem_of_cons in Hx as [->|Hx]; [lia|]. specialize (IH Hx). lia.
Qed.
Lemma next_id_bounds ids b : 0 < b → Forall (λ x, x < b) ids → 0 < next_id ids ∧ next_id ids ≤ b.
Proof.
  intros Hb Hf. split; [apply next_id_fresh|]. unfold next_id. induction Hf as [|x ids Hx _ IH]; cbn; lia.
Qed.

Definition target_ids (net : Z) (name : string) (d : sqldb) : list Z :=
  tr_id <$> filter (λ t, tr_network t = net ∧ tr_target t = name) (t_MessageTarget d).

Lemma target_ids_spec net name d x :
  x ∈ target_ids net name d ↔ ∃ t, t ∈ t_MessageTarget d ∧ tr_id t = x ∧ tr_network t = net ∧ tr_target t = name.
Proof.
  unfold target_ids. rewrite list_elem_of_fmap. split.
  - intros (t & -> & [[? ?] ?]%list_elem_of_filter). eauto.
  - intros (t & Ht & <- & ? & ?). exists t. split; [done|]. by apply list_elem_of_filter.
Qed.

(** A target has one name. *)
Lemma target_ids_inj net name net' name' d x :
  db_ok d → x ∈ target_ids net name d → x ∈ target_ids net' name' d → net = net' ∧ name = name'.
Proof.
  intros [Hu _] (t & Ht & Hx & <- & <-)%target_ids_spec (t' & Ht' & Hx' & <- & <-)%target_ids_spec.
  destruct Hu as (_ & _ & _ & _ & _ & _ & _ & _ & [Hids _] & _).
  assert (t = t') as ->; [|done]. apply list_elem_of_lookup in Ht as [i Hi], Ht' as [j Hj].
  assert (i = j) as ->; [|congruence].
  eapply NoDup_lookup; [exact Hids|rewrite list_lookup_fmap, Hi; cbn; by rewrite Hx|rewrite list_lookup_fmap, Hj; cbn; by rewrite Hx'].
Qed.

Lemma insert_target_ok net name d : db_ok d → net ∈ networks_of d → db_ok (insert_target net name d).
Proof.
  intros [Hu Hf] Hn. unfold insert_target. case_decide as Hin; [done|]. split.
  - destruct Hu as (? & ? & ? & ? & ? & ? & ? & ? & [Hids Hkey] & ?). unfold unique_ok. cbn. split_and!; try tauto.
    + by apply ids_snoc.
    + apply unique_snoc; [done|]. cbn. intros k [= <-]. rewrite list_elem_of_omap. intros (t & Ht & [= <- <-]). apply Hin.
      apply list_elem_of_fmap. by exists t.
  - destruct Hf as (? & ? & ? & ? & ? & ? & ? & Hm & ?). unfold foreign_ok. cbn. split_and!; try done; [|by apply Forall_snoc].
    eapply Forall_impl; [exact Hm|]. intros m. unfold targets_of. cbn. rewrite fmap_app, elem_of_app. by left.
Qed.
Lemma insert_target_ids net name d : ∃ x, x ∈ target_ids net name (insert_target net name d).
Proof.
  unfold insert_target. case_decide as Hin.
  - apply list_elem_of_fmap in Hin as (t & [= -> ->] & Ht). exists (tr_id t). apply target_ids_spec. eauto.
  - eexists. apply target_ids_spec. eexists. cbn. split_and!; [apply elem_of_app; right; by left|reflexivity..].
Qed.

(** The messages of every target are what they were. *)
Lemma insert_target_messages net name net' name' d :
  db_ok d → messages_of net' name' (insert_target net name d) = messages_of net' name' d.
Proof.
  intros [_ Hf]. unfold insert_target. case_decide as Hin; [done|]. unfold messages_of. cbn.
  destruct Hf as (_ & _ & _ & _ & _ & _ & _ & Hm & _). rewrite Forall_forall in Hm.
  apply filter_iff_in. intros m Hin'. specialize (Hm m Hin'). rewrite filter_app, fmap_app, elem_of_app. split; [|by left].
  intros [?|Hx]; [done|exfalso]. apply list_elem_of_fmap in Hx as (t & Hx & [_ ->%list_elem_of_singleton]%list_elem_of_filter).
  cbn in Hx. rewrite Hx in Hm. by apply next_id_fresh in Hm.
Qed.

(** ** One message *)

(** The time of a message, from its tag. *)
Definition tag_time (m : Message) : option Z := tag ← Tags m !! "time"; ParseServerTime tag.

(** A message as the bouncer records them: with a sender, and a time the database can hold. *)
Record storable `{sqlenv} (m : Message) : Prop := {
  st_time : ∃ t, tag_time m = Some t ∧ four_digit_year (t / nsPerDay) ∧ t ≠ zeroTime;
  st_sender : is_Some (MPrefix m);
  st_codec : sq_ParseMessage (sq_MessageString m) = Some m
}.

Definition message_ms (m : Message) : Z := default 0 (tag_time m) / nsPerMs.

(** [r] is the row of [m], with the next ID. *)
Record row_of `{sqlenv} (d : sqldb) (net : Z) (name : string) (m : Message) (r : messageRow) : Prop := {
  ro_id : mr_id r = next_id (mr_id <$> t_Message d);
  ro_target : mr_target r ∈ target_ids net name (insert_target net name d);
  ro_ok : row_ok r;
  ro_raw : sq_ParseMessage (mr_raw r) = Some m;
  ro_ms : row_ms r = message_ms m;
  ro_text : mr_text r = message_text m
}.
Definition with_message (net : Z) (name : string) (r : messageRow) (d : sqldb) : sqldb :=
  let d := insert_target net name d in set_Message (t_Message d ++ [r]) d.

Lemma with_message_ok `{sqlenv} net name m r d :
  db_ok d → net ∈ networks_of d → row_of d net name m r → db_ok (with_message net name r d).
Proof.
  intros Hok Hn Hr. pose proof (insert_target_ok net name d Hok Hn) as [Hu Hf].
  assert (t_Message (insert_target net name d) = t_Message d) as Ht by (unfold insert_target; by case_decide).
  destruct Hr as [Hid Htg _ _ _ _]. unfold with_message. set (d1 := insert_target net name d) in *. split.
  - destruct Hu as (? & ? & ? & ? & ? & ? & ? & ? & ? & Hm). unfold unique_ok. cbn. split_and!; try tauto.
    apply ids_snoc; [done|]. by rewrite Ht.
  - destruct Hf as (? & ? & ? & ? & ? & ? & ? & Hm & ?). unfold foreign_ok. cbn. split_and!; try done.
    apply Forall_snoc; [done|]. apply target_ids_spec in Htg as (t & Hin & <- & _). apply list_elem_of_fmap. by exists t.
Qed.

(** The message joins those of its target. *)
Lemma with_message_messages `{sqlenv} net name m r d net' name' :
  db_ok d → net ∈ networks_of d → row_of d net name m r →
  messages_of net' name' (with_message net name r d) =
  messages_of net' name' d ++ (if decide ((net', name') = (net, name)) then [r] else []).
Proof.
  intros Hok Hn Hr. pose proof (insert_target_ok net name d Hok Hn) as Hok1. destruct Hr as [_ Htg _ _ _ _].
  rewrite <-(insert_target_messages net name net' name' d Hok). unfold with_message. set (d1 := insert_target net name d) in *.
  unfold messages_of. cbn. rewrite filter_app. f_equal. rewrite filter_cons, filter_nil. fold (target_ids net' name' d1).
  destruct (decide ((net', name') = (net, name))) as [[= -> ->]|Hne]; case_decide as Hin; try done.
  destruct Hne. destruct (target_ids_inj net name net' name' d1 (mr_target r) Hok1 Htg Hin) as [-> ->]. done.
Qed.

Section store.
Context `{EN : engine} `{SE : search_engine} `{LE : sqlenv}.

Lemma exec_run f d' s :
  en_fault (sq_count s) = None → f (sq_db s) = inl d' → db_ok d' → exec f s = (MkSql d' (S (sq_count s)), Ok tt).
Proof.
  intros Hn Hf [Hu Hfk]. unfold exec, step, gets, modify, mbind, M_bind. cbn. rewrite Hn. cbn. rewrite Hf.
  by rewrite decide_True, decide_True by done.
Qed.

Lemma step_run s : en_fault (sq_count s) = None → step s = (MkSql (sq_db s) (S (sq_count s)), Ok tt).
Proof. intros Hn. unfold step. by rewrite Hn. Qed.
Lemma transaction_run {A} (m : SQ A) s s' a :
  (∀ n, en_fault n = None) → m (MkSql (sq_db s) (S (sq_count s))) = (s', Ok a) →
  transaction m s = (MkSql (sq_db s') (S (sq_count s')), Ok a).
Proof.
  intros Hn Hm. unfold transaction. erewrite bind_run by (apply step_run, Hn). erewrite bind_run by exact Hm.
  by erewrite bind_run by (apply step_run, Hn).
Qed.

Lemma insert_message_run net name m d c :
  en_fault c = None → db_ok d → net ∈ networks_of d → storable m →
  ∃ r, row_of d net name m r ∧
    insert_message net name m (MkSql (insert_target net name d) c) = (MkSql (with_message net name r d) (S c), Ok (mr_id r)).
Proof.
  intros Hn Hok Hnet [(t & Htag & Hy & Hz) [p Hp] Hcodec]. destruct (insert_target_ids net name d) as [x Hx].
  pose proof (insert_target_ok net name d Hok Hnet) as Hok1. set (d1 := insert_target net name d) in *.
  assert (t_Message d1 = t_Message d) as Ht by (unfold d1, insert_target; by case_decide).
  unfold target_ids in Hx. destruct (filter _ (t_MessageTarget d1)) as [|tr l] eqn:Hfil; [by inversion Hx|].
  assert (tr_id tr ∈ target_ids net name d1) as Htr by (unfold target_ids; rewrite Hfil; by left).
  set (r := MkMessageRow (next_id (mr_id <$> t_Message d)) (tr_id tr) (sq_MessageString m) (FormatServerTime t) (Name p) (message_text m)).
  assert (row_of d net name m r) as Hr.
  { split; [done|done| |done| |done].
    - split; [by exists t|by exists m].
    - unfold r. rewrite row_ms_format by done. unfold message_ms. by rewrite Htag. }
  exists r. split; [done|]. unfold tag_time in Htag. destruct (Tags m !! "time") as [tag|] eqn:Htm; [|done]. cbn in Htag.
  assert (∀ n, message_time m n = Ok t) as Hmt by (intros n; unfold message_time; by rewrite Htm, Htag).
  unfold insert_message. rewrite Hp. erewrite bind_run by reflexivity. rewrite Hmt. erewrite bind_run by reflexivity.
  erewrite bind_run by reflexivity. erewrite bind_run by reflexivity. cbn [sq_db]. rewrite Ht.
  erewrite bind_run; [reflexivity|]. apply exec_run; cbn; [done| |by apply (with_message_ok net name m)].
  unfold sqliteTime_Value, IsZero. rewrite (proj2 (Z.eqb_neq _ _)) by done. by rewrite Hfil.
Qed.

(** Storing a message adds a row to those of its target. *)
Lemma StoreMessages_one net name m s :
  (∀ n, en_fault n = None) → db_ok (sq_db s) → net ∈ networks_of (sq_db s) → storable m →
  ∃ r c, row_of (sq_db s) net name m r ∧
    StoreMessages net name [m] s = (MkSql (with_message net name r (sq_db s)) c, Ok [mr_id r]).
Proof.
  intros Hn Hok Hnet Hm. destruct s as [d c]. cbn in *.
  destruct (insert_message_run net name m d (S (S (S c))) (Hn _) Hok Hnet Hm) as (r & Hr & Hrun). exists r.
  eexists. split; [done|]. unfold StoreMessages.
  apply (transaction_run _ _ (MkSql (with_message net name r d) (S (S (S (S c)))))); [done|]. cbn [sq_db sq_count].
  erewrite bind_run by (apply (exec_run _ (insert_target net name d)); [apply Hn|done|by apply insert_target_ok]).
  erewrite bind_run by (apply step_run, Hn). unfold mapM. erewrite bind_run by exact Hrun. reflexivity.
Qed.
End store.

(** * Networks and channels in the SQLite database

    What [StoreNetwork] and [StoreChannel] write is what [ListNetworks] and [ListChannels] read
    back. *)

(** ** Connect commands *)

Lemma HasPrefix_other c d r s : c ≠ d → HasPrefix (String d s) (String c r) = false.
Proof. intros Hne. unfold HasPrefix. cbn. by destruct ascii_dec. Qed.

(** A separator that starts with a byte the text does not have. *)
Lemma Cut_sep_app c r a b : str_mem c a = false → Cut (a +:+ String c r +:+ b) (String c r) = Some (a, b).
Proof.
  induction a as [|d a IH]; intros Hm.
  - assert (Cut (String c r +:+ b) (String c r) = Some ("", b)); [|done].
    pose proof (HasPrefix_app (String c r) b) as Hp. pose proof (str_drop_app (String c r) b) as Hd.
    cbn [String.app String.append] in *. cbn [Cut]. by rewrite Hp, Hd.
  - cbn in Hm. apply orb_false_iff in Hm as [Hne Hm]. apply bool_decide_eq_false in Hne. specialize (IH Hm).
    cbn [String.app String.append Cut] in *. rewrite HasPrefix_other by congruence. by rewrite IH.
Qed.
Lemma Cut_sep_none c r a : str_mem c a = false → Cut a (String c r) = None.
Proof.
  induction a as [|d a IH]; intros Hm; [done|]. cbn in Hm. apply orb_false_iff in Hm as [Hne Hm].
  apply bool_decide_eq_false in Hne. cbn [Cut].
  rewrite HasPrefix_other by congruence. by rewrite IH.
Qed.
Lemma split_upto_join_sep c r l n :
  l ≠ [] → Forall (λ s, str_mem c s = false) l → (length l ≤ S n)%nat → split_upto n (Join l (String c r)) (String c r) = l.
Proof.
  intros Hl Hf. revert n Hl. induction Hf as [|s l Hs Hf IH]; intros n Hl Hn; [done|]. destruct l as [|t l].
  - cbn [Join]. destruct n; cbn; [done|]. by rewrite Cut_sep_none.
  - rewrite Join_cons by done. destruct n as [|n]; cbn in Hn; [lia|]. cbn [split_upto]. rewrite Cut_sep_app by done.
    f_equal. apply IH; [done|cbn; lia].
Qed.
Lemma slen_Join_sep l c r : (length l ≤ S (slen (Join l (String c r))))%nat.
Proof.
  induction l as [|s [|t l] IH]; [cbn; lia|cbn; lia|]. rewrite Join_cons, !slen_app by done.
  change (slen (String c r)) with (S (slen r)). cbn [length] in *. lia.
Qed.
Lemma Split_Join_sep c r l : l ≠ [] → Forall (λ s, str_mem c s = false) l → Split (Join l (String c r)) (String c r) = l.
Proof. intros. apply split_upto_join_sep; [done..|]. apply slen_Join_sep. Qed.

(** ** Networks *)

(** A network that can be stored without loss: no connect command holds a carriage return, they
    are not a single empty one, and there are no credentials of another SASL mechanism. *)
Definition storable_network (n : dbNetwork) : Prop :=
  Forall (λ c, str_mem (byte_of 13) c = false) (nConnectCommands n) ∧ nConnectCommands n ≠ [""] ∧
  (Mechanism (nSASL n) = "PLAIN" ∨
   Mechanism (nSASL n) ∈ [""; "EXTERNAL"] ∧ PlainUsername (nSASL n) = "" ∧ PlainPassword (nSASL n) = "").

(** The SASL settings as they are stored. *)
Definition stored_sasl (s : SASL) : SASL :=
  if decide (Mechanism s = "PLAIN") then MkSASL (Mechanism s) (PlainUsername s) (PlainPassword s) None None else s.

Lemma Join_empty l sep : Join l sep = "" → l ≠ [""] → sep ≠ "" → l = [].
Proof.
  destruct l as [|a [|b l]]; [done|cbn; congruence|]. rewrite Join_cons by done. intros Hj _ Hsep.
  destruct a; [|done]. by destruct sep.
Qed.

Lemma scan_network_row id user n m u p s :
  storable_network n → sasl_columns (nSASL n) = Ok (s, (m, u, p)) →
  scan_network (network_row id user n s m u p) = with_sasl id (stored_sasl (nSASL n)) n ∧ s = stored_sasl (nSASL n).
Proof.
  intros (Hcr & Hempty & Hsasl) Hcols.
  assert (match toNullString (Join (nConnectCommands n) crlf) with Some s => Split s crlf | None => [] end = nConnectCommands n) as Hcmd.
  { unfold toNullString. case_decide as Hj; [by rewrite (Join_empty _ _ Hj)|].
    apply Split_Join_sep; [|done]. intros Hl. apply Hj. by rewrite Hl. }
  destruct n as [nid name addr nick username realname pass cmds certfp [mech puser ppass cert key] away enabled]. cbn in *.
  unfold sasl_columns, stored_sasl in *. cbn in *.
  unfold scan_network, network_row, with_sasl. cbn. rewrite Hcmd, !NullString_to.
  destruct Hsasl as [-> |[Hmech [-> ->]]]; cbn in *.
  - repeat case_decide; simplify_eq/=. by rewrite !NullString_to.
  - apply elem_of_cons in Hmech as [-> | ->%list_elem_of_singleton]; by repeat case_decide; simplify_eq/=.
Qed.

Section records.
Context `{EN : engine}.

(** The networks [ListNetworks] answers. *)
Definition listed (user : Z) (d : sqldb) : list dbNetwork := scan_network <$> filter (λ r, nr_user r = user) (t_Network d).

Lemma ListNetworks_run user s :
  en_fault (sq_count s) = None → ListNetworks user s = (MkSql (sq_db s) (S (sq_count s)), Ok (listed user (sq_db s))).
Proof. intros Hn. unfold ListNetworks, query. erewrite bind_run; [reflexivity|]. by erewrite bind_run by (by apply step_run). Qed.

(** A statement succeeds with the new tables, or changes nothing. *)
Lemma exec_cases f d' s : f (sq_db s) = inl d' →
  (exec f s = (MkSql d' (S (sq_count s)), Ok tt) ∧ db_ok d') ∨ (∃ e, exec f s = (MkSql (sq_db s) (S (sq_count s)), Err e)).
Proof.
  intros Hf. unfold exec. destruct (en_fault (sq_count s)) as [e|] eqn:Hn.
  { right. exists e. unfold step, mbind, M_bind. by rewrite Hn. }
  erewrite bind_run by (by apply step_run). rewrite bind_gets. cbn [sq_db]. rewrite Hf.
  destruct (decide (unique_ok d')); [|right; by eexists].
  destruct (decide (foreign_ok d')); [left; by split|right; by eexists].
Qed.

Lemma filter_update {R} (P : R → Prop) `{!∀ x, Decision (P x)} (b : R → bool) (f : R → R) (l : list R) :
  (∀ r, P (f r) ↔ P r) → filter P (update_where b f l) = update_where b f (filter P l).
Proof.
  intros Hp. induction l as [|r l IH]; [done|]. cbn [update_where fmap list_fmap]. fold (update_where b f l).
  rewrite !filter_cons, IH. pose proof (Hp r). destruct (b r) eqn:Hb; repeat case_decide; try tauto; cbn; by rewrite ?Hb.
Qed.

(** C19: Networks survive in the database. When [StoreNetwork] succeeds, the record it hands back
    is the one it was given, with the ID of its row and without the certificate of another SASL
    mechanism; [ListNetworks] then lists exactly that record, after the other networks of the
    user for a new one and in place of the old one for an update, and lists what it did for
    all other users. When it fails, the database is as it was. *)
Theorem store_network_listed user n s :
  storable_network n → db_ok (sq_db s) →
  let d := sq_db s in
  match StoreNetwork user n s with
  | (s', Ok n') =>
    n' = with_sasl (nID n') (stored_sasl (nSASL n)) n ∧ db_ok (sq_db s') ∧
    (if decide (nID n = 0)
     then 0 < nID n' ∧ nID n' ∉ networks_of d ∧ ∀ u, listed u (sq_db s') = listed u d ++ (if decide (u = user) then [n'] else [])
     else nID n' = nID n ∧ ∀ u, listed u (sq_db s') = (λ x, if nID x =? nID n then n' else x) <$> listed u d)
  | (s', Err _) => sq_db s' = d
  | (_, Panic _) => False
  end.
Proof.
  intros Hst Hok d. unfold StoreNetwork.
  destruct (sasl_columns (nSASL n)) as [[ss [[m u] p]]|e|w] eqn:Hcols; [|done|by destruct Hst as (_ & _ & [H|[H _]]); unfold sasl_columns in Hcols; repeat case_decide].
  unfold lift. erewrite bind_run by reflexivity.
  assert (∀ id us, scan_network (network_row id us n ss m u p) = with_sasl id (stored_sasl (nSASL n)) n ∧ ss = stored_sasl (nSASL n)) as Hscan
    by (intros; by apply scan_network_row).
  rewrite (proj2 (Hscan 0 0)). rewrite (proj2 (Hscan 0 0)) in Hscan. case_decide as Hid.
  - edestruct (exec_cases (λ d, inl (set_Network (update_where (λ r, nr_id r =? nID n)
      (λ r, network_row (nr_id r) (nr_user r) n (stored_sasl (nSASL n)) m u p) (t_Network d)) d)) _ s eq_refl) as [[Hrun Hd]|[e Hrun]].
    + erewrite bind_run by exact Hrun. cbn. rewrite decide_False by done. split_and!; [done..|]. intros us. unfold listed. cbn.
      rewrite filter_update by (intros r; cbn; tauto). unfold update_where. rewrite <-!list_fmap_compose. apply list_fmap_ext.
      intros i r _. cbn. destruct (Z.eqb_spec (nr_id r) (nID n)) as [Heq|Hne]; cbn.
      * by rewrite (proj1 (Hscan _ _)), !Heq.
      * done.
    + unfold mbind, M_bind. by rewrite Hrun.
  - assert (nID n = 0) as Hid0 by lia. rewrite bind_gets.
    edestruct (exec_cases (λ d0, inl (set_Network (t_Network d0 ++ [network_row (next_id (networks_of (sq_db s))) user n
      (stored_sasl (nSASL n)) m u p]) d0)) _ s eq_refl) as [[Hrun Hd]|[e Hrun]].
    + erewrite bind_run by exact Hrun. cbn. rewrite decide_True by done. destruct (next_id_fresh (networks_of d)).
      split_and!; [done..|]. intros us. unfold listed. cbn. rewrite filter_app, fmap_app. f_equal.
      rewrite filter_cons, filter_nil. cbn. repeat case_decide; try done; [|congruence..]. cbn. by rewrite (proj1 (Hscan _ _)).
    + unfold mbind, M_bind. by rewrite Hrun.
Qed.

(** ** Channels *)

(** Whole seconds are kept. *)
Lemma seconds_ceil_whole k : 0 ≤ k < 2 ^ 52 → seconds_ceil (k * nsPerSecond) = k.
Proof.
  intros Hk. unfold seconds_ceil. rewrite Z.abs_eq by (unfold nsPerSecond; lia).
  rewrite Z.div_mul, Z.mod_mul by done. change (float53 0 nsPerSecond) with (0, 1). cbn iota beta.
  rewrite Z.mul_1_r, Z.add_0_r. rewrite (proj2 (Z.leb_le 0 _)) by (unfold nsPerSecond; lia).
  destruct (decide (k = 0)) as [->|Hne]; [done|]. destruct (float53_int k) as (e & He & ->); [lia|].
  rewrite <-Z.mul_opp_l, Z.div_mul by (apply Z.pow_nonzero; lia). lia.
Qed.

Definition listed_channels (net : Z) (d : sqldb) : list dbChannel := scan_channel <$> filter (λ r, cr_network r = net) (t_Channel d).

Lemma ListChannels_run net s :
  en_fault (sq_count s) = None → ListChannels net s = (MkSql (sq_db s) (S (sq_count s)), Ok (listed_channels net (sq_db s))).
Proof. intros Hn. unfold ListChannels, query. erewrite bind_run; [reflexivity|]. by erewrite bind_run by (by apply step_run). Qed.

(** A channel that detaches after whole seconds. *)
Definition storable_channel (c : dbChannel) : Prop := ∃ k, cDetachAfter c = k * nsPerSecond ∧ 0 ≤ cDetachAfter c < 2 ^ 63.

Lemma scan_channel_row id net c : storable_channel c → scan_channel (channel_row id net c) = with_cID id c.
Proof.
  intros (k & Hk & Hb). unfold scan_channel, channel_row, with_cID. cbn. rewrite !NullString_to, Hk, seconds_ceil_whole.
  - f_equal. unfold wrap_i64. rewrite Z.mod_small by lia. lia.
  - unfold nsPerSecond in *. lia.
Qed.

(** A new channel is listed last, with its settings, among the channels of its network. *)
Theorem store_channel_listed net c s :
  storable_channel c → cID c = 0 →
  match StoreChannel net c s with
  | (s', Ok c') => c' = with_cID (cID c') c ∧
      ∀ x, listed_channels x (sq_db s') = listed_channels x (sq_db s) ++ (if decide (x = net) then [c'] else [])
  | (s', Err _) => sq_db s' = sq_db s
  | (_, Panic _) => False
  end.
Proof.
  intros Hst Hid. unfold StoreChannel. rewrite decide_False by lia. rewrite bind_gets.
  edestruct (exec_cases (λ d0, inl (set_Channel (t_Channel d0 ++ [channel_row (next_id (cr_id <$> t_Channel (sq_db s))) net c]) d0))
    _ s eq_refl) as [[Hrun Hd]|[e Hrun]].
  - erewrite bind_run by exact Hrun. cbn. split; [done|]. intros x. unfold listed_channels. cbn.
    rewrite filter_app, fmap_app. f_equal. rewrite filter_cons, filter_nil. cbn. repeat case_decide; try done; [|congruence..].
    cbn. by rewrite scan_channel_row.
  - unfold mbind, M_bind. by rewrite Hrun.
Qed.
End records.

(** ** Evaluation *)

Definition demo_libera : dbNetwork :=
  MkNetwork 0 "libera" "irc.libera.chat" "alice" "" "" "" ["PRIVMSG NickServ help"; "JOIN #go"] ""
    (MkSASL "PLAIN" "alice" "secret" (Some "cert") (Some "key")) true true.

Lemma store_network_listed_witness :
  let '(s', r) := StoreNetwork (EN := demo_engine None) 1 demo_libera (MkSql demo_db 0) in
  r = Ok (with_sasl 3 (MkSASL "PLAIN" "alice" "secret" None None) demo_libera) ∧
  listed 1 (sq_db s') = listed 1 demo_db ++ [with_sasl 3 (MkSASL "PLAIN" "alice" "secret" None None) demo_libera].
Proof.
  assert (storable_network demo_libera) as Hst.
  { split_and!; [by repeat constructor|done|by left]. }
  pose proof (store_network_listed (EN := demo_engine None) 1 demo_libera (MkSql demo_db 0) Hst demo_db_ok) as Hs.
  destruct (StoreNetwork (EN := demo_engine None) 1 demo_libera (MkSql demo_db 0)) as [s' r] eqn:Hrun.
  assert (r = (StoreNetwork (EN := demo_engine None) 1 demo_libera (MkSql demo_db 0)).2) as Hr by (by rewrite Hrun).
  assert (r = Ok (with_sasl 3 (MkSASL "PLAIN" "alice" "secret" None None) demo_libera)) as -> by (rewrite Hr; vm_compute; reflexivity).
  destruct Hs as (_ & _ & _ & _ & Hl). split; [reflexivity|]. exact (Hl 1).
Defined.
