(* ===== verification/DbStore.v ===== *)
(** * The database message store (msgstore/db.go)

    Messages kept in the tables of the SQLite database, with the row ID as message ID. The
    theorem is that of every store: from the ID of a message, a client is sent what came after
    it. *)

From S2P Require Import Prelude GoStrings GoUnicode IrcMessage GenMsg GoTime MsgID Effects Database Downstream SqlTables Sqlite SqliteDelete SqliteSpec SqliteRecords GoOs ZncLog FsStore.

Open Scope string_scope.
Open Scope list_scope.
Open Scope Z_scope.

Record dbMsgID := MkDbMsgID { dbID : Z }.
#[export] Instance dbMsgID_body : msgIDBody dbMsgID := msgIDDB.

Section store.
Context `{EN : engine} `{SE : search_engine} `{LE : sqlenv} `{BH : Bare msgIDHeader} `{BB : Bare dbMsgID}.

Definition parseDBMsgID (s : string) : res goerr Z :=
  '(_, _, id) ← ParseMsgID dbMsgID s; Ok (wrap_i64 (dbID id)).

Definition formatDBMsgID (netID : Z) (target : string) (msgID : Z) : res goerr string :=
  formatMsgID netID target (MkDbMsgID (wrap_u64 msgID)).

Definition db_LastMsgID (network : dbNetwork) (entity : string) : SQ string :=
  id ← GetMessageLastID (nID network) entity;
  lift (formatDBMsgID (nID network) entity id).

Definition db_LoadLatestID (id : string) (options : FsLoadOptions) : SQ (list Message) :=
  msgID ← lift (parseDBMsgID id);
  ListMessages (nID (lNetwork options)) (lEntity options)
    (MkMessageOptions msgID zeroTime zeroTime (lLimit options) false "" "" true).

Definition db_Append (network : dbNetwork) (entity : string) (msg : Message) : SQ string :=
  ids ← StoreMessages (nID network) entity [msg];
  match ids with
  | id :: _ => lift (formatDBMsgID (nID network) entity id)
  | [] => panic "index out of range"
  end.

Definition db_ListTargets (network : dbNetwork) (start end_ : Z) (limit : Z) (events : bool) : SQ (list ChatHistoryTarget) :=
  l ← ListMessageLastPerTarget (nID network)
        (if start <? end_ then MkMessageOptions 0 start end_ limit events "" "" false
         else MkMessageOptions 0 end_ start limit events "" "" true);
  mret ((λ v, MkTarget (tlName v) (tlLatestMessage v)) <$> l).

Definition db_LoadBeforeTime (start end_ : Z) (options : FsLoadOptions) : SQ (list Message) :=
  ListMessages (nID (lNetwork options)) (lEntity options)
    (MkMessageOptions 0 end_ start (lLimit options) (lEvents options) "" "" true).

Definition db_LoadAfterTime (start end_ : Z) (options : FsLoadOptions) : SQ (list Message) :=
  ListMessages (nID (lNetwork options)) (lEntity options)
    (MkMessageOptions 0 start end_ (lLimit options) (lEvents options) "" "" false).

Definition db_Search (network : dbNetwork) (options : SearchMessageOptions) : SQ (list Message) :=
  ListMessages (nID network) (sIn options)
    (MkMessageOptions 0 (sStart options) (sEnd options) (sLimit options) false (sFrom options) (sText options) true).

(** Messages of any networks and entities, one after the other. *)
Fixpoint append_all (l : list (dbNetwork * string * Message)) : SQ unit :=
  match l with
  | [] => skip
  | (network, entity, m) :: l => _ ← db_Append network entity m; append_all l
  end.

(** ** What is appended *)

(** The marshaller encodes the IDs of the messages of a target. *)
Definition encodable (net : Z) (entity : string) : Prop :=
  is_Some (bare_marshal (MkMsgIDHeader msgIDVersion net entity msgIDDB)) ∧
  ∀ id, 0 ≤ id < 2 ^ 64 → is_Some (bare_marshal (MkDbMsgID id)).

Record appendable (d : sqldb) (x : dbNetwork * string * Message) : Prop := {
  ap_net : nID x.1.1 ∈ networks_of d;
  ap_msg : storable x.2;
  ap_id : encodable (nID x.1.1) x.1.2
}.

Lemma formatDBMsgID_ok net entity id : encodable net entity → ∃ s, formatDBMsgID net entity id = Ok s.
Proof.
  intros [[h Hh] Hb]. destruct (Hb (wrap_u64 id)) as [b Hb'].
  { unfold wrap_u64, uint64_mod. apply Z.mod_pos_bound. lia. }
  unfold formatDBMsgID, formatMsgID. change (msgIDType_of dbMsgID) with msgIDDB. rewrite Hh, Hb'. eauto.
Qed.

Lemma wrap_roundtrip id : - 2 ^ 63 ≤ id < 2 ^ 63 → wrap_i64 (wrap_u64 id) = id.
Proof.
  intros Hid. unfold wrap_i64, wrap_u64, uint64_mod. rewrite Zplus_mod_idemp_l, Z.mod_small by lia. lia.
Qed.
Lemma parse_format_dbMsgID `{!BareLaws msgIDHeader, !BareLaws dbMsgID} net entity id s :
  - 2 ^ 63 ≤ id < 2 ^ 63 → formatDBMsgID net entity id = Ok s → parseDBMsgID s = Ok id.
Proof.
  intros Hid Hs. unfold parseDBMsgID. rewrite (msgid_roundtrip_parse (MkDbMsgID (wrap_u64 id)) net entity) by done. cbn.
  by rewrite wrap_roundtrip.
Qed.

Lemma with_message_networks net name r d : networks_of (with_message net name r d) = networks_of d.
Proof. unfold with_message, insert_target. by case_decide. Qed.
Lemma with_message_Message net name r d : t_Message (with_message net name r d) = t_Message d ++ [r].
Proof. unfold with_message, insert_target. by case_decide. Qed.

Lemma db_Append_run network entity m s :
  (∀ n, en_fault n = None) → db_ok (sq_db s) → appendable (sq_db s) (network, entity, m) →
  ∃ r c id, row_of (sq_db s) (nID network) entity m r ∧ formatDBMsgID (nID network) entity (mr_id r) = Ok id ∧
    db_Append network entity m s = (MkSql (with_message (nID network) entity r (sq_db s)) c, Ok id).
Proof.
  intros Hn Hok [Hnet Hm Henc]. cbn in *.
  destruct (StoreMessages_one (nID network) entity m s Hn Hok Hnet Hm) as (r & c & Hr & Hrun).
  destruct (formatDBMsgID_ok (nID network) entity (mr_id r) Henc) as [id Hid]. exists r, c, id. split_and!; [done..|].
  unfold db_Append. erewrite bind_run by exact Hrun. unfold lift. by rewrite Hid.
Qed.

(** The row of a message. *)
Record stands (r : messageRow) (m : Message) : Prop := {
  sd_ok : row_ok r;
  sd_raw : sq_ParseMessage (mr_raw r) = Some m;
  sd_ms : row_ms r = message_ms m;
  sd_text : mr_text r = message_text m
}.
Lemma row_of_stands d net name m r : row_of d net name m r → stands r m.
Proof. intros []. by split. Qed.

(** The messages for one target. *)
Definition mine (net : Z) (entity : string) (l : list (dbNetwork * string * Message)) : list Message :=
  snd <$> filter (λ x : dbNetwork * string * Message, (net, entity) = (nID x.1.1, x.1.2)) l.

(** Each target has the messages that were appended for it, and they have new IDs. *)
Record appended (d d' : sqldb) (l : list (dbNetwork * string * Message)) : Prop := {
  apd_ok : db_ok d';
  apd_rows : Forall row_ok (t_Message d) → Forall row_ok (t_Message d');
  apd_ids r : r ∈ t_Message d → r ∈ t_Message d';
  apd_mine net entity : ∃ rows, messages_of net entity d' = messages_of net entity d ++ rows ∧
    Forall2 stands rows (mine net entity l) ∧ ∀ r r', r ∈ t_Message d → r' ∈ rows → mr_id r < mr_id r'
}.

Lemma append_all_run l s :
  (∀ n, en_fault n = None) → db_ok (sq_db s) → Forall (appendable (sq_db s)) l →
  ∃ s', append_all l s = (s', Ok tt) ∧ appended (sq_db s) (sq_db s') l.
Proof.
  intros Hn. revert s. induction l as [|[[network entity] m] l IH]; intros s Hok Hl.
  { exists s. split; [done|]. split; [done..|]. intros net e. exists []. rewrite app_nil_r. split_and!; [done|constructor|].
    intros r r' _ Hr. by inversion Hr. }
  apply Forall_cons in Hl as [Hx Hl]. destruct (db_Append_run network entity m s Hn Hok Hx) as (r & c & id & Hr & _ & Hrun).
  set (d1 := with_message (nID network) entity r (sq_db s)) in *.
  assert (db_ok d1) as Hok1 by (eapply with_message_ok; [done|apply Hx|done]).
  assert (t_Message d1 = t_Message (sq_db s) ++ [r]) as Ht1 by apply with_message_Message.
  destruct (IH (MkSql d1 c) Hok1) as (s' & Hall & [Hok' Hrows Hids Hmine]); cbn [sq_db] in *.
  { eapply Forall_impl; [exact Hl|]. intros x []. split; [unfold d1; by rewrite with_message_networks|done..]. }
  exists s'. split; [cbn [append_all]; by erewrite bind_run by exact Hrun|]. rewrite Ht1 in *. split; [done|..].
  - intros Hd. apply Hrows, Forall_snoc; [done|]. apply Hr.
  - intros x Hin. apply Hids. rewrite elem_of_app. by left.
  - intros net e. destruct (Hmine net e) as (rows & Hm & Hf & Hlt).
    assert (∀ x, x ∈ t_Message (sq_db s) → mr_id x < mr_id r) as Hfresh.
    { intros x Hin. rewrite (ro_id _ _ _ _ _ Hr). apply next_id_larger. apply list_elem_of_fmap. by exists x. }
    exists ((if decide ((net, e) = (nID network, entity)) then [r] else []) ++ rows). split_and!.
    + rewrite Hm. unfold d1. rewrite (with_message_messages _ _ m) by (done || apply Hx). by rewrite app_assoc.
    + unfold mine. rewrite filter_cons. cbn [fst snd]. case_decide; [|done]. constructor; [by eapply row_of_stands|done].
    + intros x r' Hin [Hr'|Hr']%elem_of_app.
      * case_decide; [|by inversion Hr']. apply list_elem_of_singleton in Hr' as ->. by apply Hfresh.
      * apply Hlt; [|done]. apply elem_of_app. by left.
Qed.

(** ** Resuming *)

Lemma four_digit_zero : four_digit_year (zeroTime / nsPerDay).
Proof. vm_compute. by split. Qed.

(** The message of a row. *)
Definition message_of (r : messageRow) : Message := default (mkMessage ∅ None "" []) (sq_ParseMessage (mr_raw r)).

Lemma stands_texts rows msgs :
  Forall2 stands rows msgs →
  message_of <$> filter (λ r, mr_text r ≠ None) rows = filter (λ m, message_text m ≠ None) msgs.
Proof.
  induction 1 as [|r m rows msgs [_ Hraw _ Ht] _ IH]; [done|]. rewrite !filter_cons, Ht. case_decide; [|done].
  rewrite fmap_cons, IH. unfold message_of at 1. by rewrite Hraw.
Qed.
Lemma stands_in rows msgs r : Forall2 stands rows msgs → r ∈ rows → stands r (message_of r).
Proof.
  intros Hf Hr. apply list_elem_of_lookup in Hr as [i Hi]. destruct (Forall2_lookup_l _ _ _ _ _ Hf Hi) as (m & _ & Hs).
  assert (message_of r = m) as ->; [|done]. unfold message_of. by rewrite (sd_raw _ _ Hs).
Qed.
Lemma parsed_rows rows msgs :
  Forall2 (λ r msg, sq_ParseMessage (mr_raw r) = Some msg) rows msgs → msgs = message_of <$> rows.
Proof. induction 1 as [|r m rows msgs Hr _ IH]; [done|]. rewrite fmap_cons, <-IH. unfold message_of. by rewrite Hr. Qed.

(** The rows after a row, among those of its target: those that were appended since. *)
Lemma after_rows d d' l net entity limit r all rows :
  appended d d' l → r ∈ t_Message d → 0 < mr_id r → (∀ x, x ∈ t_Message d → mr_id x ≤ mr_id r) →
  messages_of net entity d' = messages_of net entity d ++ rows →
  (∀ x y, x ∈ t_Message d → y ∈ rows → mr_id x < mr_id y) →
  all `sublist_of` messages_of net entity d' →
  (∀ m, m ∈ all ↔ m ∈ messages_of net entity d' ∧
    wanted (MkMessageOptions (mr_id r) zeroTime zeroTime limit false "" "" true) m) →
  all ≡ₚ filter (λ m, mr_text m ≠ None) rows.
Proof.
  intros [[Hu _] _ _ _] Hr Hpos Hmax Hmsgs Hlt Hsub Hall.
  assert (NoDup (messages_of net entity d')) as Hnd.
  { eapply sublist_NoDup; [|apply filter_sublist]. eapply NoDup_fmap_1, Hu. }
  apply NoDup_Permutation.
  - by eapply sublist_NoDup.
  - eapply sublist_NoDup; [|apply filter_sublist]. rewrite Hmsgs in Hnd. by apply NoDup_app in Hnd as (_ & _ & ?).
  - intros m. rewrite Hall, Hmsgs, elem_of_app, list_elem_of_filter. unfold wanted. cbn. split.
    + intros [[Hold|Hnew] (Hid & _ & _ & _ & _ & Ht)]; [exfalso|by split; [apply Ht|]].
      apply list_elem_of_filter in Hold as [_ Hold]. specialize (Hmax m Hold). specialize (Hid Hpos). lia.
    + intros [Ht Hin]. split; [by right|]. split_and!; try done. intros _. by apply Hlt.
Qed.

(** C16: A client resumes where it stopped. Appending a message to the database store gives an ID
    with which, whatever has been appended since for this or any other target, [LoadLatestID]
    returns messages that were appended for the target after it: those with a text, each one
    time and with all its content, in the order of their times, and the latest ones when there
    are more than the limit. *)
Theorem load_latest_resumes `{!order_laws SE, !BareLaws msgIDHeader, !BareLaws dbMsgID} network entity m l limit events s :
  (∀ n, en_fault n = None) → db_ok (sq_db s) → Forall row_ok (t_Message (sq_db s)) →
  Forall (λ r, mr_id r < 2 ^ 63 - 1) (t_Message (sq_db s)) →
  Forall (appendable (sq_db s)) ((network, entity, m) :: l) →
  ∃ s1 id s2 s3 msgs,
    db_Append network entity m s = (s1, Ok id) ∧ append_all l s1 = (s2, Ok tt) ∧
    db_LoadLatestID id (MkFsLoadOptions network entity limit events) s2 = (s3, Ok msgs) ∧
    window true limit (λ a b, message_ms a ≤ message_ms b) (filter (λ x, message_text x ≠ None) (mine (nID network) entity l)) msgs.
Proof.
  intros Hn Hok Hrows Hids [Hx Hl]%Forall_cons.
  destruct (db_Append_run network entity m s Hn Hok Hx) as (r & c & id & Hr & Hid & Hrun).
  set (d1 := with_message (nID network) entity r (sq_db s)) in *.
  assert (db_ok d1) as Hok1 by (eapply with_message_ok; [done|apply Hx|done]).
  assert (t_Message d1 = t_Message (sq_db s) ++ [r]) as Ht1 by apply with_message_Message.
  destruct (append_all_run l (MkSql d1 c) Hn Hok1) as (s2 & Hall & Happ); cbn [sq_db] in *.
  { eapply Forall_impl; [exact Hl|]. intros x []. split; [unfold d1; by rewrite with_message_networks|done..]. }
  destruct (next_id_bounds (mr_id <$> t_Message (sq_db s)) (2 ^ 63 - 1)) as [Hpos Hlarge]; [lia|by apply Forall_fmap|].
  rewrite <-(ro_id _ _ _ _ _ Hr) in Hpos, Hlarge.
  set (o := MkMessageOptions (mr_id r) zeroTime zeroTime limit false "" "" true).
  destruct (list_messages_window (nID network) entity o s2 four_digit_zero four_digit_zero)
    as (all & rows & msgs & Hlist & Hparsed & Hw & Hsub & Hin); [|by apply Hn|].
  { apply (apd_rows _ _ _ Happ). rewrite Ht1. apply Forall_snoc; [done|]. apply Hr. }
  destruct (apd_mine _ _ _ Happ (nID network) entity) as (new & Hmsgs & Hf & Hlt).
  assert (all ≡ₚ filter (λ x, mr_text x ≠ None) new) as Hperm.
  { apply (after_rows d1 (sq_db s2) l (nID network) entity limit r); try done; rewrite Ht1.
    - apply elem_of_app. right. by left.
    - intros x [Hold| ->%list_elem_of_singleton]%elem_of_app; [|lia]. rewrite (ro_id _ _ _ _ _ Hr).
      apply Z.lt_le_incl, next_id_larger, list_elem_of_fmap. by exists x. }
  exists (MkSql d1 c), id, s2, (MkSql (sq_db s2) (S (sq_count s2))), msgs. split_and!; [done|done| |].
  - unfold db_LoadLatestID, lift. rewrite (parse_format_dbMsgID (nID network) entity (mr_id r)) by (done || lia).
    by erewrite bind_run by reflexivity.
  - rewrite <-(stands_texts new) by done. rewrite (parsed_rows rows msgs) by done.
    eapply window_perm; [by apply fmap_Permutation|]. eapply window_fmap; [|exact Hw]. cbn. intros x y Hx' Hy'.
    rewrite Hperm in Hx', Hy'. apply list_elem_of_filter in Hx' as [_ Hx'], Hy' as [_ Hy'].
    by rewrite <-(sd_ms _ _ (stands_in _ _ _ Hf Hx')), <-(sd_ms _ _ (stands_in _ _ _ Hf Hy')).
Qed.
End store.
