(* ===== verification/SqlExamples.v ===== *)
(** * Examples of the database

    An engine, a codec and messages with which the theorems about the tables are run. *)

From S2P Require Import Prelude GoStrings GoUnicode IrcMessage GenMsg GoTime MsgID Effects Database Downstream SqlTables Sqlite SqliteDelete SqliteSpec SqliteRecords GoOs ZncLog FsStore DbStore.

Open Scope string_scope.
Open Scope list_scope.
Open Scope Z_scope.

(** ** An engine that sorts *)

#[global] Instance null_le_dec a b : Decision (null_le a b).
Proof. unfold null_le. destruct a, b; apply _. Defined.

Definition sorted_by {R} (key : R → option string) (a b : R) : Prop := null_le (key a) (key b).
#[global] Instance sorted_by_dec {R} (key : R → option string) : RelDecision (sorted_by key).
Proof. intros a b. unfold sorted_by. apply _. Defined.
#[global] Instance sorted_by_total {R} (key : R → option string) : Total (sorted_by key).
Proof.
  intros a b. unfold sorted_by, null_le. destruct (key a) as [x|], (key b) as [y|]; auto.
  destruct (str_le_total x y); auto.
Qed.
#[global] Instance sorted_by_trans {R} (key : R → option string) : Transitive (sorted_by key).
Proof.
  intros a b c. unfold sorted_by, null_le. destruct (key a), (key b), (key c); try done. apply str_le_trans.
Qed.

Definition demo_search : search_engine := {|
  fts_match text query := Contains text query;
  order_asc R key rows := merge_sort (sorted_by key) rows;
  order_desc R key rows := rev (merge_sort (sorted_by key) rows)
|}.

Lemma demo_search_laws : order_laws demo_search.
Proof.
  assert (∀ R (key : R → option string) rows, StronglySorted (sorted_by key) (merge_sort (sorted_by key) rows)) as Hs.
  { intros. apply Sorted_StronglySorted; [apply _|]. apply Sorted_merge_sort, _. }
  split; intros R key rows; cbn.
  - apply merge_sort_Permutation.
  - apply Hs.
  - by rewrite <-Permutation_rev, merge_sort_Permutation.
  - apply StronglySorted_rev. apply Hs.
Qed.

(** ** A codec for a few messages *)

#[local] Instance dbMsgID_unary : Bare dbMsgID := {
  bare_marshal b := UnaryCodec.put_Z (dbID b);
  bare_unmarshal s := '(n, r) ← UnaryCodec.get_Z s; Some (MkDbMsgID n, r)
}.
#[local] Instance dbMsgID_unary_laws : BareLaws dbMsgID.
Proof. split. intros [z] b rest Hb. cbn in *. by rewrite (UnaryCodec.get_put_Z _ _ _ Hb). Qed.
Import UnaryCodec.

Definition demo_msg (time text : string) : Message :=
  mkMessage {["time" := time]} (Some (mkPrefix "bob" "" "")) "PRIVMSG" ["#go"; text].
Definition demo_join : Message :=
  mkMessage {["time" := "2024-01-01T00:00:03.000Z"]} (Some (mkPrefix "eve" "" "")) "JOIN" ["#go"].
Definition demo_messages : list Message :=
  [demo_msg "2024-01-01T00:00:01.000Z" "one"; demo_msg "2024-01-01T00:00:05.000Z" "two"; demo_join;
   demo_msg "2024-01-01T00:00:04.000Z" "three"; demo_msg "2024-01-01T00:00:00.500Z" "four"].

(** A message is written as its last parameter. *)
Definition demo_codec : sqlenv := {|
  sq_token r := in_range 97 122 r;
  sq_MessageString m := default "" (last (Params m));
  sq_ParseMessage s := list_find (λ m, default "" (last (Params m)) = s) demo_messages ≫= λ x, Some x.2
|}.

Definition demo_network (id : Z) : dbNetwork :=
  MkNetwork id "" "irc.example.org" "" "" "" "" [] "" (MkSASL "" "" "" None None) true true.

(** The other network of the example has a message already. *)
Definition demo_tables : sqldb :=
  set_Message [MkMessageRow 7 2 "one" "2024-01-01T00:00:01.000Z" "bob" (Some "one")] demo_db.

Lemma demo_tables_ok : db_ok demo_tables.
Proof. split; refine (bool_decide_unpack _ _); vm_compute; exact I. Qed.

#[local] Existing Instances demo_search demo_codec demo_search_laws.

Lemma demo_storable m : m ∈ demo_messages → storable m.
Proof.
  intros Hm. repeat (apply elem_of_cons in Hm as [->|Hm]); [..|by inversion Hm].
  all: split; [eexists; split_and!; [vm_compute; reflexivity|vm_compute; by split|by vm_compute]|by eexists|by vm_compute].
Qed.
Lemma demo_encodable net entity : 0 ≤ net → encodable net entity.
Proof.
  intros Hn. split.
  - cbn. unfold put_Z. unfold msgIDVersion, msgIDDB. repeat case_guard; try lia; by eexists.
  - intros id Hid. cbn. unfold put_Z. case_guard; [by eexists|lia].
Qed.
Lemma demo_appendable net entity m :
  (net = 1 ∨ net = 2) → m ∈ demo_messages → appendable demo_tables (demo_network net, entity, m).
Proof.
  intros Hn Hm. split; [|by apply demo_storable|by apply demo_encodable; cbn; lia].
  cbn. unfold networks_of. cbn. destruct Hn as [-> | ->]; [left|right; left].
Qed.
Lemma row_ok_of r :
  let t := default 0 (ParseServerTime (mr_time r)) in
  four_digit_year (t / nsPerDay) → mr_time r = FormatServerTime t → is_Some (sq_ParseMessage (mr_raw r)) → row_ok r.
Proof. intros t Ht Hr Hp. split; [by exists t|done]. Qed.
Ltac demo_rows :=
  repeat (apply Forall_cons; split; [apply row_ok_of; [vm_compute; by split|vm_compute; reflexivity|vm_compute; by eexists]|]);
  by constructor.

Lemma demo_tables_rows : Forall row_ok (t_Message demo_tables).
Proof. demo_rows. Qed.

(** A message is read; then come two more, one for another network, a JOIN and one from before. *)
Definition demo_later : list (dbNetwork * string * Message) :=
  [(demo_network 1, "#go", demo_msg "2024-01-01T00:00:05.000Z" "two");
   (demo_network 2, "#go", demo_msg "2024-01-01T00:00:04.000Z" "three");
   (demo_network 1, "#go", demo_join);
   (demo_network 1, "#go", demo_msg "2024-01-01T00:00:00.500Z" "four")].

Lemma load_latest_resumes_witness :
  ∃ s1 id s2 s3 msgs,
    db_Append (EN := demo_engine None) (demo_network 1) "#go" (demo_msg "2024-01-01T00:00:01.000Z" "one") (MkSql demo_tables 0)
      = (s1, Ok id) ∧
    append_all (EN := demo_engine None) demo_later s1 = (s2, Ok tt) ∧
    db_LoadLatestID (EN := demo_engine None) id (MkFsLoadOptions (demo_network 1) "#go" 10 false) s2 = (s3, Ok msgs) ∧
    window true 10 (λ a b, message_ms a ≤ message_ms b)
      [demo_msg "2024-01-01T00:00:05.000Z" "two"; demo_msg "2024-01-01T00:00:00.500Z" "four"] msgs.
Proof.
  apply (load_latest_resumes (EN := demo_engine None) (demo_network 1) "#go" (demo_msg "2024-01-01T00:00:01.000Z" "one") demo_later 10 false).
  - done.
  - exact demo_tables_ok.
  - exact demo_tables_rows.
  - by repeat constructor.
  - repeat (apply Forall_cons; split; [apply demo_appendable; [lia|repeat (first [by left | right])]|]). by constructor.
Defined.

(** History between two times: with a limit of one, the earliest message or the latest. *)
Definition demo_history : sqldb :=
  set_Message [MkMessageRow 1 1 "two" "2024-01-01T00:00:05.000Z" "bob" (Some "two");
               MkMessageRow 2 1 "#go" "2024-01-01T00:00:03.000Z" "eve" None;
               MkMessageRow 3 1 "three" "2024-01-01T00:00:04.000Z" "bob" (Some "three");
               MkMessageRow 4 2 "one" "2024-01-01T00:00:01.000Z" "bob" (Some "one")] demo_db.
Definition demo_options (last : bool) : MessageOptions :=
  MkMessageOptions 0 (1704067200 * nsPerSecond) (1704067206 * nsPerSecond) 1 false "" "" last.

Lemma demo_history_rows : Forall row_ok (t_Message demo_history).
Proof. demo_rows. Qed.

Lemma list_messages_window_witness :
  (∃ all rows msgs,
    ListMessages (EN := demo_engine None) 1 "#go" (demo_options true) (MkSql demo_history 0) = (MkSql demo_history 1, Ok msgs) ∧
    Forall2 (λ m msg, sq_ParseMessage (mr_raw m) = Some msg) rows msgs ∧
    window true 1 (λ a b, row_ms a ≤ row_ms b) all rows ∧
    all `sublist_of` messages_of 1 "#go" demo_history ∧
    (∀ m, m ∈ all ↔ m ∈ messages_of 1 "#go" demo_history ∧ wanted (demo_options true) m)) ∧
  (ListMessages (EN := demo_engine None) 1 "#go" (demo_options true) (MkSql demo_history 0)).2
    = Ok [demo_msg "2024-01-01T00:00:05.000Z" "two"] ∧
  (ListMessages (EN := demo_engine None) 1 "#go" (demo_options false) (MkSql demo_history 0)).2
    = Ok [demo_msg "2024-01-01T00:00:04.000Z" "three"].
Proof.
  split_and!; [|vm_compute; reflexivity..].
  apply (list_messages_window (EN := demo_engine None) 1 "#go" (demo_options true) (MkSql demo_history 0)).
  - vm_compute; by split.
  - vm_compute; by split.
  - exact demo_history_rows.
  - done.
Defined.
