(* ===== verification/Postgres.v ===== *)
(** * Tables of PostgreSQL (database/postgres_schema.sql)

    The rows of the PostgreSQL database, the types and constraints its schema declares, and
    statements and transactions over them. Unlike SQLite, the engine deletes the rows that refer
    to a row that goes, numbers rows from sequences that never go back, refuses values its types
    cannot hold, and answers the rows of a SELECT without ORDER BY in an order of its own. The
    encoding of the database is UTF-8. Tables without times are those of [SqlTables]; a time is
    the instant the engine keeps for it. The second part of the file has the methods. *)

From S2P Require Import Prelude GoStrings GoUnicode IrcMessage Effects GenMsg GoTime Database Downstream SqlTables Sqlite.

Open Scope string_scope.
Open Scope list_scope.
Open Scope Z_scope.

(** ** Rows *)

Record pgUserRow := MkPgUser {
  pgu_id : Z; pgu_username : string; pgu_password : option string; pgu_admin : bool; pgu_nick : option string;
  pgu_realname : option string; pgu_created_at : Z; pgu_enabled : bool; pgu_interacted_at : option Z; pgu_max_networks : Z
}.
Record pgCertRow := MkPgCert {
  pgc_id : Z; pgc_user : Z; pgc_label : string; pgc_fingerprint : string; pgc_last_used : Z; pgc_last_ip : string
}.
Record pgDeliveryRow := MkPgDelivery {
  pgd_id : Z; pgd_network : Z; pgd_target : string; pgd_client : string; pgd_internal_msgid : string
}.
Record pgReadRow := MkPgRead { pgr_id : Z; pgr_network : Z; pgr_target : string; pgr_timestamp : Z }.
Record pgConfigRow := MkPgConfig { pgk_id : Z; pgk_created_at : Z; pgk_public : string; pgk_private : string }.
Record pgPushRow := MkPgPush {
  pgp_id : Z; pgp_created_at : Z; pgp_updated_at : Z; pgp_user : Z; pgp_network : option Z; pgp_endpoint : string;
  pgp_key_vapid : string; pgp_key_auth : string; pgp_key_p256dh : string
}.
Record pgMessageRow := MkPgMessage {
  pgm_id : Z; pgm_target : Z; pgm_raw : string; pgm_time : Z; pgm_sender : string; pgm_text : option string
}.

Record pgdb := MkPgDb {
  pt_User : list pgUserRow; pt_Network : list networkRow; pt_Channel : list channelRow; pt_DeviceCertificate : list pgCertRow;
  pt_DeliveryReceipt : list pgDeliveryRow; pt_ReadReceipt : list pgReadRow; pt_WebPushConfig : list pgConfigRow;
  pt_WebPushSubscription : list pgPushRow; pt_MessageTarget : list targetRow; pt_Message : list pgMessageRow
}.
Definition emptyPgDb : pgdb := MkPgDb [] [] [] [] [] [] [] [] [] [].
Definition eta_pgdb (x : pgdb) : pgdb :=
  MkPgDb (pt_User x) (pt_Network x) (pt_Channel x) (pt_DeviceCertificate x) (pt_DeliveryReceipt x) (pt_ReadReceipt x)
    (pt_WebPushConfig x) (pt_WebPushSubscription x) (pt_MessageTarget x) (pt_Message x).
Definition put_User : list pgUserRow → pgdb → pgdb := ltac:(setter eta_pgdb pt_User).
Definition put_Network : list networkRow → pgdb → pgdb := ltac:(setter eta_pgdb pt_Network).
Definition put_Channel : list channelRow → pgdb → pgdb := ltac:(setter eta_pgdb pt_Channel).
Definition put_DeviceCertificate : list pgCertRow → pgdb → pgdb := ltac:(setter eta_pgdb pt_DeviceCertificate).
Definition put_DeliveryReceipt : list pgDeliveryRow → pgdb → pgdb := ltac:(setter eta_pgdb pt_DeliveryReceipt).
Definition put_ReadReceipt : list pgReadRow → pgdb → pgdb := ltac:(setter eta_pgdb pt_ReadReceipt).
Definition put_WebPushConfig : list pgConfigRow → pgdb → pgdb := ltac:(setter eta_pgdb pt_WebPushConfig).
Definition put_WebPushSubscription : list pgPushRow → pgdb → pgdb := ltac:(setter eta_pgdb pt_WebPushSubscription).
Definition put_MessageTarget : list targetRow → pgdb → pgdb := ltac:(setter eta_pgdb pt_MessageTarget).
Definition put_Message : list pgMessageRow → pgdb → pgdb := ltac:(setter eta_pgdb pt_Message).

(** The tables, each with its sequence. *)
Inductive pgtable :=
  TUser | TNetwork | TChannel | TDeviceCertificate | TDeliveryReceipt | TReadReceipt | TWebPushConfig
| TWebPushSubscription | TMessageTarget | TMessage.
#[global] Instance pgtable_eq_dec : EqDecision pgtable.
Proof. solve_decision. Defined.

Definition ids_of (t : pgtable) (d : pgdb) : list Z :=
  match t with
  | TUser => pgu_id <$> pt_User d
  | TNetwork => nr_id <$> pt_Network d
  | TChannel => cr_id <$> pt_Channel d
  | TDeviceCertificate => pgc_id <$> pt_DeviceCertificate d
  | TDeliveryReceipt => pgd_id <$> pt_DeliveryReceipt d
  | TReadReceipt => pgr_id <$> pt_ReadReceipt d
  | TWebPushConfig => pgk_id <$> pt_WebPushConfig d
  | TWebPushSubscription => pgp_id <$> pt_WebPushSubscription d
  | TMessageTarget => tr_id <$> pt_MessageTarget d
  | TMessage => pgm_id <$> pt_Message d
  end.

(** ** Constraints *)

Definition pg_tables : list pgtable :=
  [TUser; TNetwork; TChannel; TDeviceCertificate; TDeliveryReceipt; TReadReceipt; TWebPushConfig; TWebPushSubscription;
   TMessageTarget; TMessage].

Definition pg_unique_ok (d : pgdb) : Prop :=
  Forall (λ t, NoDup (ids_of t d)) pg_tables ∧
  unique (λ r, Some (pgu_username r)) (pt_User d) ∧
  unique (λ r, (λ n, (nr_user r, nr_addr r, n)) <$> nr_nick r) (pt_Network d) ∧
  unique (λ r, (λ n, (nr_user r, n)) <$> nr_name r) (pt_Network d) ∧
  unique (λ r, Some (cr_network r, cr_name r)) (pt_Channel d) ∧
  unique (λ r, Some (pgc_fingerprint r)) (pt_DeviceCertificate d) ∧
  unique (λ r, Some (pgd_network r, pgd_target r, pgd_client r)) (pt_DeliveryReceipt d) ∧
  unique (λ r, Some (pgr_network r, pgr_target r)) (pt_ReadReceipt d) ∧
  unique (λ r, Some (pgk_public r)) (pt_WebPushConfig d) ∧
  unique (λ r, (λ n, (n, pgp_endpoint r)) <$> pgp_network r) (pt_WebPushSubscription d) ∧
  unique (λ r, Some (tr_network r, tr_target r)) (pt_MessageTarget d).

Definition pg_foreign_ok (d : pgdb) : Prop :=
  Forall (λ r, nr_user r ∈ ids_of TUser d) (pt_Network d) ∧
  Forall (λ r, cr_network r ∈ ids_of TNetwork d) (pt_Channel d) ∧
  Forall (λ r, pgc_user r ∈ ids_of TUser d) (pt_DeviceCertificate d) ∧
  Forall (λ r, pgd_network r ∈ ids_of TNetwork d) (pt_DeliveryReceipt d) ∧
  Forall (λ r, pgr_network r ∈ ids_of TNetwork d) (pt_ReadReceipt d) ∧
  Forall (λ r, pgp_user r ∈ ids_of TUser d) (pt_WebPushSubscription d) ∧
  Forall (λ r, match pgp_network r with Some n => n ∈ ids_of TNetwork d | None => True end) (pt_WebPushSubscription d) ∧
  Forall (λ r, tr_network r ∈ ids_of TNetwork d) (pt_MessageTarget d) ∧
  Forall (λ r, pgm_target r ∈ ids_of TMessageTarget d) (pt_Message d).

#[global] Instance pg_unique_ok_dec d : Decision (pg_unique_ok d).
Proof. unfold pg_unique_ok, unique. apply _. Defined.
#[global] Instance pg_foreign_ok_dec d : Decision (pg_foreign_ok d).
Proof.
  assert (∀ r : pgPushRow, Decision (match pgp_network r with Some n => n ∈ ids_of TNetwork d | None => True end))
    by (intros r; destruct (pgp_network r); apply _).
  unfold pg_foreign_ok. apply _.
Defined.

(** ** Types *)

Definition errEncoding : goerr := Errorf "invalid byte sequence for encoding UTF8".
Definition errRange : goerr := Errorf "value out of range for type integer".
Definition errTooLong : goerr := Errorf "value too long for type character varying".
Definition errSequence : goerr := Errorf "nextval: reached maximum value of sequence".
Definition errUniqueViolation : goerr := Errorf "unique_violation".
Definition errForeignKeyViolation : goerr := Errorf "foreign_key_violation".
Definition errNegativeLimit : goerr := Errorf "LIMIT must not be negative".

(** INTEGER *)
Definition int4_max : Z := 2147483647.
Definition is_int4 (z : Z) : bool := (- int4_max - 1 <=? z) && (z <=? int4_max).
(** A value of TEXT: UTF-8 without the zero byte. *)
Definition is_text (s : string) : bool := ValidString s && negb (str_mem (byte_of 0) s).

(** A value is stored in a VARCHAR column if it fits; spaces that do not fit are dropped. *)
Definition varchar (n : nat) (s : string) : res goerr string :=
  if (length (runes s) <=? n)%nat then Ok s
  else if forallb (Z.eqb 32) (drop n (runes s)) then Ok (of_runes (take n (runes s)))
  else Err errTooLong.
Definition varchar_null (n : nat) (o : option string) : res goerr (option string) :=
  match o with None => Ok None | Some s => s' ← varchar n s; Ok (Some s') end.

(** The parameters of a statement, with the type the engine expects. *)
Inductive pgarg := AInt (z : Z) | AText (s : string) | ANull (o : option string).
Definition arg_error (a : pgarg) : option goerr :=
  match a with
  | AInt z => if is_int4 z then None else Some errRange
  | AText s | ANull (Some s) => if is_text s then None else Some errEncoding
  | ANull None => None
  end.
Definition args_error (args : list pgarg) : option goerr := head (omap arg_error args).

(** ** Statements *)

(** What the engine does by itself: whether it refuses the [n]-th statement and when that is;
    the instant it keeps for a time, of which a timestamp has the microseconds; the order of
    rows that nobody asked for, and the one by a key; and whether a text matches the words of a
    query. *)
Class pgengine := MkPgEngine {
  pg_fault : nat → option goerr;
  pg_now : nat → Z;
  pg_timestamp : Z → Z;
  pg_scan : ∀ {R : Type}, nat → list R → list R;
  pg_asc : ∀ {R : Type}, (R → Z) → list R → list R;
  pg_desc : ∀ {R : Type}, (R → Z) → list R → list R;
  pg_tsmatch : string → string → bool
}.

(** The sequences have the last number that was given. *)
Record pgState := MkPg { pg_db : pgdb; pg_seq : pgtable → Z; pg_count : nat }.
Abbreviation PG := (ST pgState).

Definition advance (t : pgtable) (n : Z) (q : pgtable → Z) : pgtable → Z := λ t', if decide (t' = t) then n else q t'.

Section statements.
Context `{EN : pgengine}.

Definition pg_step : PG unit := λ s,
  (MkPg (pg_db s) (pg_seq s) (S (pg_count s)), match pg_fault (pg_count s) with Some e => Err e | None => Ok tt end).

(** A statement is sent with its parameters. *)
Definition pg_send (args : list pgarg) : PG unit :=
  pg_step ;; match args_error args with Some e => fail e | None => mret tt end.

(** The constraints are checked when the rows are there. *)
Definition pg_check (d : pgdb) : PG unit :=
  if decide (pg_unique_ok d) then
    if decide (pg_foreign_ok d) then modify (λ s, MkPg d (pg_seq s) (pg_count s)) else fail errForeignKeyViolation
  else fail errUniqueViolation.

(** UPDATE and DELETE. *)
Definition pg_exec (args : list pgarg) (f : pgdb → res goerr pgdb) : PG unit :=
  pg_send args ;; d ← gets pg_db; d' ← lift (f d); pg_check d'.

(** The next number of a sequence, which stays taken whatever becomes of the statement. *)
Definition nextval (t : pgtable) : PG Z :=
  n ← gets (λ s, pg_seq s t);
  if n <? int4_max then
    modify (λ s, MkPg (pg_db s) (advance t (n + 1) (pg_seq s)) (pg_count s)) ;; mret (n + 1)
  else fail errSequence.

(** INSERT ... RETURNING id. *)
Definition pg_insert (t : pgtable) (args : list pgarg) (f : Z → pgdb → res goerr pgdb) : PG Z :=
  pg_send args ;; id ← nextval t; d ← gets pg_db; d' ← lift (f id d); pg_check d' ;; mret id.

Definition pg_query {R} (args : list pgarg) (f : pgdb → list R) : PG (list R) :=
  pg_send args ;; gets (λ s, pg_scan (pg_count s) (f (pg_db s))).

(** [QueryRow] and [Scan]. *)
Definition pg_query_row {R} (args : list pgarg) (f : pgdb → list R) : PG R :=
  rows ← pg_query args f;
  match rows with r :: _ => mret r | [] => fail errNoRows end.

(** [Begin], with [Rollback] deferred, until [Commit]; sequences are not rolled back. *)
Definition pg_transaction {A} (body : PG A) : PG A := λ s,
  match (pg_step ;; r ← body; pg_step ;; mret r) s with
  | (s', Ok r) => (s', Ok r)
  | (s', e) => (MkPg (pg_db s) (pg_seq s') (pg_count s'), e)
  end.
End statements.

(** UPDATE ... WHERE; a value that does not fit a column is an error. *)
Definition update_rows {R} (P : R → bool) (f : R → res goerr R) (rows : list R) : res goerr (list R) :=
  mapM (λ r, if P r then f r else Ok r) rows.

(** ** Cascading deletion

    [ON DELETE CASCADE]: with a row go those that refer to it. *)

Definition cascade_targets (P : targetRow → bool) (d : pgdb) : pgdb :=
  let gone := tr_id <$> filter (λ t, P t = true) (pt_MessageTarget d) in
  put_MessageTarget (filter (λ t, P t = false) (pt_MessageTarget d))
    (put_Message (filter (λ m, pgm_target m ∉ gone) (pt_Message d)) d).

Definition cascade_networks (P : networkRow → bool) (d : pgdb) : pgdb :=
  let gone := nr_id <$> filter (λ n, P n = true) (pt_Network d) in
  let d := cascade_targets (λ t, bool_decide (tr_network t ∈ gone)) d in
  let d := put_Channel (filter (λ c, cr_network c ∉ gone) (pt_Channel d)) d in
  let d := put_DeliveryReceipt (filter (λ r, pgd_network r ∉ gone) (pt_DeliveryReceipt d)) d in
  let d := put_ReadReceipt (filter (λ r, pgr_network r ∉ gone) (pt_ReadReceipt d)) d in
  let d := put_WebPushSubscription (filter (λ r, pgp_network r ∉ Some <$> gone) (pt_WebPushSubscription d)) d in
  put_Network (filter (λ n, P n = false) (pt_Network d)) d.

Definition cascade_users (P : pgUserRow → bool) (d : pgdb) : pgdb :=
  let gone := pgu_id <$> filter (λ u, P u = true) (pt_User d) in
  let d := cascade_networks (λ n, bool_decide (nr_user n ∈ gone)) d in
  let d := put_DeviceCertificate (filter (λ c, pgc_user c ∉ gone) (pt_DeviceCertificate d)) d in
  let d := put_WebPushSubscription (filter (λ r, pgp_user r ∉ gone) (pt_WebPushSubscription d)) d in
  put_User (filter (λ u, P u = false) (pt_User d)) d.

(** * The PostgreSQL database (database/postgres.go)

    One definition per method of [PostgresDB]. A method that stores a record answers it with the
    ID the sequence gave it; on an error the caller has the record it had, except that
    [StoreNetwork] has dropped the certificate of a network with PLAIN credentials. What the Go
    code shares with [SqliteDB] word for word (the columns of SASL settings, of durations and of
    messages) is shared here. *)

(** [toNullTime] and [NullTime.Time]. *)
Definition toNullTime (t : Z) : option Z := if IsZero t then None else Some t.
Definition NullTime (o : option Z) : Z := default zeroTime o.

Section postgres.
Context `{EN : pgengine} `{LE : sqlenv}.

Definition pg_clock : PG Z := gets (λ s, pg_now (pg_count s)).

(** [isErrUnique] *)
Definition pg_isErrUnique (e : goerr) : bool := bool_decide (e = errUniqueViolation).

Definition pg_Stats : PG DatabaseStats :=
  pg_query_row [] (λ d, [MkStats (Z.of_nat (length (pt_User d))) (Z.of_nat (length (pt_Network d)))
    (Z.of_nat (length (pt_Channel d)))]).

(** ** Users *)

Definition pg_scan_user (r : pgUserRow) : dbUser :=
  MkUser (pgu_id r) (pgu_username r) (NullString (pgu_password r)) (NullString (pgu_nick r)) (NullString (pgu_realname r))
    (pgu_admin r) (pgu_enabled r) (NullTime (pgu_interacted_at r)) (pgu_max_networks r).

Definition pg_ListUsers : PG (list dbUser) := rows ← pg_query [] pt_User; mret (pg_scan_user <$> rows).

Definition pg_GetUser (username : string) : PG dbUser :=
  r ← pg_query_row [AText username] (λ d, filter (λ r, pgu_username r = username) (pt_User d));
  mret (MkUser (pgu_id r) username (NullString (pgu_password r)) (NullString (pgu_nick r)) (NullString (pgu_realname r))
    (pgu_admin r) (pgu_enabled r) (NullTime (pgu_interacted_at r)) (pgu_max_networks r)).

Definition pg_GetUsernameByID (id : Z) : PG string :=
  r ← pg_query_row [AInt id] (λ d, filter (λ r, pgu_id r = id) (pt_User d)); mret (pgu_username r).

Definition pg_ListInactiveUsernames (limit : Z) : PG (list string) :=
  rows ← pg_query [] (λ d, filter (λ r, default (pgu_created_at r) (pgu_interacted_at r) < pg_timestamp limit) (pt_User d));
  mret (pgu_username <$> rows).

Definition pg_user_row (id : Z) (username : string) (created : Z) (user : dbUser) : res goerr pgUserRow :=
  username ← varchar 255 username;
  password ← varchar_null 255 (toNullString (uPassword user));
  nick ← varchar_null 255 (toNullString (uNick user));
  realname ← varchar_null 255 (toNullString (uRealname user));
  Ok (MkPgUser id username password (uAdmin user) nick realname created (uEnabled user)
    (pg_timestamp <$> toNullTime (uDownstreamInteractedAt user)) (uMaxNetworks user)).

Definition pg_StoreUser (user : dbUser) : PG dbUser :=
  let columns := [ANull (toNullString (uPassword user)); ANull (toNullString (uNick user));
                  ANull (toNullString (uRealname user)); AInt (uMaxNetworks user)] in
  now ← pg_clock;
  if decide (uID user = 0) then
    id ← pg_insert TUser (AText (uUsername user) :: columns) (λ id d,
      r ← pg_user_row id (uUsername user) (pg_timestamp now) user; Ok (put_User (pt_User d ++ [r]) d));
    mret (MkUser id (uUsername user) (uPassword user) (uNick user) (uRealname user) (uAdmin user) (uEnabled user)
      (uDownstreamInteractedAt user) (uMaxNetworks user))
  else
    pg_exec (columns ++ [AInt (uID user)]) (λ d,
      rows ← update_rows (λ r, pgu_id r =? uID user) (λ r, pg_user_row (pgu_id r) (pgu_username r) (pgu_created_at r) user) (pt_User d);
      Ok (put_User rows d)) ;;
    mret user.

Definition pg_DeleteUser (id : Z) : PG unit := pg_exec [AInt id] (λ d, Ok (cascade_users (λ u, pgu_id u =? id) d)).

(** ** Networks *)

Definition pg_ListNetworks (userID : Z) : PG (list dbNetwork) :=
  rows ← pg_query [AInt userID] (λ d, filter (λ r, nr_user r = userID) (pt_Network d)); mret (scan_network <$> rows).

Definition pg_network_row (id user : Z) (n : dbNetwork) (s : SASL) (mech plainUser plainPass : option string) : res goerr networkRow :=
  name ← varchar_null 255 (toNullString (nName n));
  addr ← varchar 255 (nAddr n);
  nick ← varchar_null 255 (toNullString (nNick n));
  username ← varchar_null 255 (toNullString (nUsername n));
  realname ← varchar_null 255 (toNullString (nRealname n));
  pass ← varchar_null 255 (toNullString (nPass n));
  commands ← varchar_null 1023 (toNullString (Join (nConnectCommands n) crlf));
  plainUser ← varchar_null 255 plainUser;
  plainPass ← varchar_null 255 plainPass;
  Ok (MkNetworkRow id name user addr nick username realname (toNullString (nCertFP n)) pass commands mech plainUser plainPass
    (CertBlob s) (PrivKeyBlob s) (nAutoAway n) (nEnabled n)).

Definition pg_network_args (n : dbNetwork) (plainUser plainPass : option string) : list pgarg :=
  [ANull (toNullString (nName n)); AText (nAddr n); ANull (toNullString (nNick n)); ANull (toNullString (nUsername n));
   ANull (toNullString (nRealname n)); ANull (toNullString (nCertFP n)); ANull (toNullString (nPass n));
   ANull (toNullString (Join (nConnectCommands n) crlf)); ANull plainUser; ANull plainPass].

Definition pg_StoreNetwork (userID : Z) (network : dbNetwork) : PG dbNetwork :=
  '(s, (mech, plainUser, plainPass)) ← lift (sasl_columns (nSASL network));
  if decide (nID network = 0) then
    id ← pg_insert TNetwork (AInt userID :: pg_network_args network plainUser plainPass) (λ id d,
      r ← pg_network_row id userID network s mech plainUser plainPass; Ok (put_Network (pt_Network d ++ [r]) d));
    mret (with_sasl id s network)
  else
    pg_exec (AInt (nID network) :: pg_network_args network plainUser plainPass) (λ d,
      rows ← update_rows (λ r, nr_id r =? nID network)
        (λ r, pg_network_row (nr_id r) (nr_user r) network s mech plainUser plainPass) (pt_Network d);
      Ok (put_Network rows d)) ;;
    mret (with_sasl (nID network) s network).

Definition pg_DeleteNetwork (id : Z) : PG unit := pg_exec [AInt id] (λ d, Ok (cascade_networks (λ n, nr_id n =? id) d)).

(** ** Channels *)

Definition pg_ListChannels (networkID : Z) : PG (list dbChannel) :=
  rows ← pg_query [AInt networkID] (λ d, filter (λ r, cr_network r = networkID) (pt_Channel d)); mret (scan_channel <$> rows).

Definition pg_channel_row (id network : Z) (ch : dbChannel) : res goerr channelRow :=
  name ← varchar 255 (cName ch);
  key ← varchar_null 255 (toNullString (cKey ch));
  msgid ← varchar_null 255 (toNullString (cDetachedInternalMsgID ch));
  Ok (MkChannelRow id network name key (cDetached ch) msgid (cRelayDetached ch) (cReattachOn ch)
    (seconds_ceil (cDetachAfter ch)) (cDetachOn ch)).

Definition pg_StoreChannel (networkID : Z) (ch : dbChannel) : PG dbChannel :=
  let columns := [AText (cName ch); ANull (toNullString (cKey ch)); ANull (toNullString (cDetachedInternalMsgID ch));
                  AInt (seconds_ceil (cDetachAfter ch))] in
  if decide (cID ch = 0) then
    id ← pg_insert TChannel (AInt networkID :: columns) (λ id d,
      r ← pg_channel_row id networkID ch; Ok (put_Channel (pt_Channel d ++ [r]) d));
    mret (with_cID id ch)
  else
    pg_exec (AInt (cID ch) :: columns) (λ d,
      rows ← update_rows (λ r, cr_id r =? cID ch) (λ r, pg_channel_row (cr_id r) (cr_network r) ch) (pt_Channel d);
      Ok (put_Channel rows d)) ;;
    mret ch.

Definition pg_DeleteChannel (id : Z) : PG unit :=
  pg_exec [AInt id] (λ d, Ok (put_Channel (filter (λ r, cr_id r ≠ id) (pt_Channel d)) d)).

(** ** Device certificates *)

Definition pg_scan_cert (r : pgCertRow) : DeviceCertificate :=
  MkDevice (pgc_id r) (pgc_label r) (pgc_fingerprint r) (pgc_last_used r) (pgc_last_ip r).

Definition pg_GetDeviceCertificate (fingerprint : string) : PG (Z * option DeviceCertificate) :=
  rows ← pg_query [] (λ d, filter (λ r, pgc_fingerprint r = fingerprint) (pt_DeviceCertificate d));
  mret (match rows with
        | [] => (0, None)
        | r :: _ => (pgc_user r, Some (MkDevice (pgc_id r) (pgc_label r) fingerprint (pgc_last_used r) (pgc_last_ip r)))
        end).

Definition pg_ListDeviceCertificates (userID : Z) : PG (list DeviceCertificate) :=
  rows ← pg_query [AInt userID] (λ d, filter (λ r, pgc_user r = userID) (pt_DeviceCertificate d)); mret (pg_scan_cert <$> rows).

Definition pg_StoreDeviceCertificate (userID : Z) (cert : DeviceCertificate) : PG DeviceCertificate :=
  let columns := [AText (devLabel cert); AText (devLastIP cert)] in
  let row id user := MkPgCert id user (devLabel cert) (devFingerprint cert) (pg_timestamp (devLastUsed cert)) (devLastIP cert) in
  r ← try (
    if decide (devID cert = 0) then
      id ← pg_insert TDeviceCertificate (AInt userID :: columns) (λ id d,
        Ok (put_DeviceCertificate (pt_DeviceCertificate d ++ [row id userID]) d));
      mret (MkDevice id (devLabel cert) (devFingerprint cert) (devLastUsed cert) (devLastIP cert))
    else
      pg_exec (columns ++ [AInt (devID cert)]) (λ d,
        rows ← update_rows (λ r, pgc_id r =? devID cert) (λ r, Ok (row (pgc_id r) (pgc_user r))) (pt_DeviceCertificate d);
        Ok (put_DeviceCertificate rows d)) ;;
      mret cert);
  match r with
  | inl cert => mret cert
  | inr e => fail (if pg_isErrUnique e then errDuplicateDeviceCertificate else e)
  end.

Definition pg_DeleteDeviceCertificate (userID : Z) (fingerprint : string) : PG unit :=
  pg_exec [AInt userID] (λ d, Ok (put_DeviceCertificate
    (filter (λ r, ¬ (pgc_user r = userID ∧ pgc_fingerprint r = fingerprint)) (pt_DeviceCertificate d)) d)).

(** ** Receipts *)

Definition pg_ListDeliveryReceipts (networkID : Z) : PG (list DeliveryReceipt) :=
  rows ← pg_query [AInt networkID] (λ d, filter (λ r, pgd_network r = networkID) (pt_DeliveryReceipt d));
  mret ((λ r, MkReceipt (pgd_id r) (pgd_target r) (pgd_client r) (pgd_internal_msgid r)) <$> rows).

Definition pg_insert_delivery (networkID : Z) (client : string) (rcpt : DeliveryReceipt) : PG DeliveryReceipt :=
  id ← pg_insert TDeliveryReceipt [AInt networkID; AText (drTarget rcpt); AText client; AText (drInternalMsgID rcpt)] (λ id d,
    target ← varchar 255 (drTarget rcpt);
    client ← varchar 255 client;
    msgid ← varchar 255 (drInternalMsgID rcpt);
    Ok (put_DeliveryReceipt (pt_DeliveryReceipt d ++ [MkPgDelivery id networkID target client msgid]) d));
  mret (MkReceipt id (drTarget rcpt) (drClient rcpt) (drInternalMsgID rcpt)).

Definition pg_StoreClientDeliveryReceipts (networkID : Z) (client : string) (receipts : list DeliveryReceipt) : PG (list DeliveryReceipt) :=
  pg_transaction (
    pg_exec [AInt networkID; AText client] (λ d, Ok (put_DeliveryReceipt
      (filter (λ r, ¬ (pgd_network r = networkID ∧ pgd_client r = client)) (pt_DeliveryReceipt d)) d)) ;;
    pg_step ;; (* the statement is prepared *)
    mapM (pg_insert_delivery networkID client) receipts).

Definition pg_GetReadReceipt (networkID : Z) (name : string) : PG (option ReadReceipt) :=
  rows ← pg_query [AInt networkID; AText name] (λ d, filter (λ r, pgr_network r = networkID ∧ pgr_target r = name) (pt_ReadReceipt d));
  mret (match rows with [] => None | r :: _ => Some (MkReadReceipt (pgr_id r) name (pgr_timestamp r)) end).

Definition pg_StoreReadReceipt (networkID : Z) (receipt : ReadReceipt) : PG ReadReceipt :=
  let t := pg_timestamp (rrTimestamp receipt) in
  if decide (rrID receipt ≠ 0) then
    pg_exec [AInt (rrID receipt)] (λ d,
      rows ← update_rows (λ r, pgr_id r =? rrID receipt) (λ r, Ok (MkPgRead (pgr_id r) (pgr_network r) (pgr_target r) t)) (pt_ReadReceipt d);
      Ok (put_ReadReceipt rows d)) ;;
    mret receipt
  else
    id ← pg_insert TReadReceipt [AInt networkID; AText (rrTarget receipt)] (λ id d,
      target ← varchar 255 (rrTarget receipt);
      Ok (put_ReadReceipt (pt_ReadReceipt d ++ [MkPgRead id networkID target t]) d));
    mret (MkReadReceipt id (rrTarget receipt) (rrTimestamp receipt)).

(** ** Web Push *)

Definition pg_ListWebPushConfigs : PG (list WebPushConfig) :=
  rows ← pg_query [] pt_WebPushConfig; mret ((λ r, MkPushConfig (pgk_id r) (pgk_public r) (pgk_private r)) <$> rows).

Definition pg_StoreWebPushConfig (config : WebPushConfig) : PG WebPushConfig :=
  if decide (pcID config ≠ 0) then fail (Errorf "cannot update a WebPushConfig")
  else
    now ← pg_clock;
    id ← pg_insert TWebPushConfig [AText (pcPublic config); AText (pcPrivate config)] (λ id d,
      Ok (put_WebPushConfig (pt_WebPushConfig d ++ [MkPgConfig id (pg_timestamp now) (pcPublic config) (pcPrivate config)]) d));
    mret (MkPushConfig id (pcPublic config) (pcPrivate config)).

Definition pg_scan_push (r : pgPushRow) : WebPushSubscription :=
  MkSub (pgp_id r) (pgp_endpoint r) (pgp_updated_at r) (MkKeys (pgp_key_auth r) (pgp_key_p256dh r) (pgp_key_vapid r)).

Definition pg_ListWebPushSubscriptions (userID networkID : Z) : PG (list WebPushSubscription) :=
  rows ← pg_query [AInt userID; AInt networkID]
    (λ d, filter (λ r, pgp_user r = userID ∧ pgp_network r = null_id networkID) (pt_WebPushSubscription d));
  mret (pg_scan_push <$> rows).

Definition pg_StoreWebPushSubscription (userID networkID : Z) (sub : WebPushSubscription) : PG WebPushSubscription :=
  let keys := subKeys sub in
  let columns := [AText (kAuth keys); AText (kP256DH keys); AText (kVAPID keys)] in
  now ← pg_clock;
  if decide (subID sub ≠ 0) then
    pg_exec (columns ++ [AInt (subID sub)]) (λ d,
      rows ← update_rows (λ r, pgp_id r =? subID sub) (λ r, Ok (MkPgPush (pgp_id r) (pgp_created_at r) (pg_timestamp now)
        (pgp_user r) (pgp_network r) (pgp_endpoint r) (kVAPID keys) (kAuth keys) (kP256DH keys))) (pt_WebPushSubscription d);
      Ok (put_WebPushSubscription rows d)) ;;
    mret sub
  else
    id ← pg_insert TWebPushSubscription ([AInt userID; AInt networkID; AText (subEndpoint sub)] ++ columns) (λ id d,
      Ok (put_WebPushSubscription (pt_WebPushSubscription d ++ [MkPgPush id (pg_timestamp now) (pg_timestamp now) userID
        (null_id networkID) (subEndpoint sub) (kVAPID keys) (kAuth keys) (kP256DH keys)]) d));
    mret (MkSub id (subEndpoint sub) (subUpdatedAt sub) keys).

Definition pg_DeleteWebPushSubscription (id : Z) : PG unit :=
  pg_exec [AInt id] (λ d, Ok (put_WebPushSubscription (filter (λ r, pgp_id r ≠ id) (pt_WebPushSubscription d)) d)).

(** ** Message targets *)

(** The target with a name on a network. *)
Definition pg_targets (networkID : Z) (name : string) (d : pgdb) : list targetRow :=
  filter (λ t, tr_network t = networkID ∧ tr_target t = name) (pt_MessageTarget d).

Definition pg_GetMessageTarget (networkID : Z) (target : string) : PG MessageTarget :=
  rows ← pg_query [AInt networkID; AText target] (pg_targets networkID target);
  mret (match rows with
        | r :: _ => MkMessageTarget (tr_id r) target (tr_pinned r) (tr_muted r) (tr_blocked r)
        | [] => MkMessageTarget 0 target false false false
        end).

Definition pg_ListMessageTargets (networkID : Z) : PG (list MessageTarget) :=
  rows ← pg_query [AInt networkID]
    (λ d, filter (λ r, tr_network r = networkID ∧ tr_pinned r || tr_muted r || tr_blocked r = true) (pt_MessageTarget d));
  mret ((λ r, MkMessageTarget (tr_id r) (tr_target r) (tr_pinned r) (tr_muted r) (tr_blocked r)) <$> rows).

Definition pg_StoreMessageTarget (networkID : Z) (mt : MessageTarget) : PG MessageTarget :=
  if decide (mtID mt ≠ 0) then
    pg_exec [AInt (mtID mt)] (λ d,
      rows ← update_rows (λ r, tr_id r =? mtID mt) (λ r, Ok (MkTargetRow (tr_id r) (tr_network r) (tr_target r)
        (mtPinned mt) (mtMuted mt) (mtBlocked mt))) (pt_MessageTarget d);
      Ok (put_MessageTarget rows d)) ;;
    mret mt
  else
    id ← pg_insert TMessageTarget [AInt networkID; AText (mtTarget mt)] (λ id d,
      Ok (put_MessageTarget (pt_MessageTarget d ++
        [MkTargetRow id networkID (mtTarget mt) (mtPinned mt) (mtMuted mt) (mtBlocked mt)]) d));
    mret (MkMessageTarget id (mtTarget mt) (mtPinned mt) (mtMuted mt) (mtBlocked mt)).

(** ** Messages *)

Definition pg_messages_of (networkID : Z) (name : string) (d : pgdb) : list pgMessageRow :=
  filter (λ m, pgm_target m ∈ (tr_id <$> pg_targets networkID name d)) (pt_Message d).

Definition pg_GetMessageLastID (networkID : Z) (name : string) : PG Z :=
  pg_send [AInt networkID; AText name] ;;
  d ← gets pg_db;
  mret (match pg_desc pgm_time (pg_messages_of networkID name d) with m :: _ => pgm_id m | [] => 0 end).

(** [INSERT ... ON CONFLICT DO NOTHING]; the number of the sequence is taken in either case. *)
Definition pg_insert_target (networkID : Z) (name : string) : PG Z :=
  pg_insert TMessageTarget [AInt networkID; AText name] (λ id d, Ok (
    if decide ((networkID, name) ∈ ((λ t, (tr_network t, tr_target t)) <$> pt_MessageTarget d)) then d
    else put_MessageTarget (pt_MessageTarget d ++ [MkTargetRow id networkID name false false false]) d)).

(** The text that is stored for a message. *)
Definition pg_raw (m : Message) : string := ToValidUTF8 (sq_MessageString m) (EncodeRune RuneError).

(** [INSERT ... SELECT] inserts a row for every row of the target, of which there is one. *)
Definition pg_insert_message (networkID : Z) (name : string) (m : Message) : PG Z :=
  now ← pg_clock;
  t ← lift (message_time m now);
  sender ← match MPrefix m with Some p => mret (Name p) | None => panic "invalid memory address or nil pointer dereference" end;
  targets ← gets (λ s, pg_targets networkID name (pg_db s));
  let args := [AText (pg_raw m); AText sender; ANull (message_text m); AInt networkID; AText name] in
  match targets with
  | [] => pg_send args ;; fail errNoRows
  | target :: _ => pg_insert TMessage args (λ id d, Ok (put_Message (pt_Message d ++
      [MkPgMessage id (tr_id target) (pg_raw m) (pg_timestamp t) sender (message_text m)]) d))
  end.

Definition pg_StoreMessages (networkID : Z) (name : string) (msgs : list Message) : PG (list Z) :=
  match msgs with
  | [] => mret []
  | _ => pg_transaction (
      pg_insert_target networkID name ;;
      pg_step ;; (* the statement is prepared *)
      mapM (pg_insert_message networkID name) msgs)
  end.

(** LIMIT. *)
Definition pg_limited (o : MessageOptions) : PG unit := if moLimit o <? 0 then fail errNegativeLimit else mret tt.

Definition pg_within (o : MessageOptions) (time : Z) : bool :=
  (IsZero (moAfterTime o) || (pg_timestamp (moAfterTime o) <? time)) &&
  (IsZero (moBeforeTime o) || (time <? pg_timestamp (moBeforeTime o))).

Definition pg_take_last {R} (o : MessageOptions) (key : R → Z) (rows : list R) : list R :=
  take (Z.to_nat (moLimit o)) (if moTakeLast o then pg_desc key rows else pg_asc key rows).

(** The last message of a target: the lateral join has no row for a target without one. *)
Definition pg_latest (events : bool) (d : pgdb) (t : targetRow) : option (string * Z) :=
  let rows := filter (λ m, pgm_target m = tr_id t ∧ (events = true ∨ pgm_text m ≠ None)) (pt_Message d) in
  match pg_desc pgm_time rows with m :: _ => Some (tr_target t, pgm_time m) | [] => None end.


Definition pg_ListMessageLastPerTarget (networkID : Z) (o : MessageOptions) : PG (list MessageTargetLast) :=
  pg_send [AInt networkID] ;;
  pg_limited o ;;
  d ← gets pg_db;
  let rows := pg_take_last o snd (filter (λ x : string * Z, pg_within o x.2 = true)
    (omap (pg_latest (moEvents o) d) (filter (λ t, tr_network t = networkID) (pt_MessageTarget d)))) in
  mret (reversed o ((λ x, MkTargetLast x.1 x.2) <$> rows)).

Definition pg_matches (o : MessageOptions) (m : pgMessageRow) : bool :=
  (if 0 <? moAfterID o then moAfterID o <? pgm_id m else true) && pg_within o (pgm_time m) &&
  (bool_decide (moSender o = "") || bool_decide (pgm_sender m = moSender o)) &&
  (bool_decide (moText o = "") || match pgm_text m with Some text => pg_tsmatch text (moText o) | None => false end) &&
  (moEvents o || bool_decide (pgm_text m ≠ None)).

Definition pg_scan_message (m : pgMessageRow) : res goerr Message :=
  match sq_ParseMessage (pgm_raw m) with Some m => Ok m | None => Err (Errorf "irc: invalid message") end.

Definition pg_ListMessages (networkID : Z) (name : string) (o : MessageOptions) : PG (list Message) :=
  pg_send ([AInt networkID; AText name] ++ (if 0 <? moAfterID o then [AInt (moAfterID o)] else []) ++
    [AText (moSender o); AText (moText o)]) ;;
  pg_limited o ;;
  d ← gets pg_db;
  let rows := pg_take_last o pgm_time (filter (λ m, pg_matches o m = true) (pg_messages_of networkID name d)) in
  l ← lift (mapM pg_scan_message rows);
  mret (reversed o l).

Definition pg_DeleteMessagesBefore (before : Z) : PG unit :=
  pg_exec [] (λ d, Ok (put_Message (filter (λ m, ¬ pgm_time m < pg_timestamp before) (pt_Message d)) d)).
End postgres.
