(* ===== verification/PgInv.v ===== *)
(** * Invariant of the PostgreSQL database

    Whatever methods are called in whatever order, and whichever statements the engine refuses,
    the constraints of the schema hold, the columns hold what their types allow, and the IDs in
    the tables are among those the sequences have given. So an ID is never given twice. *)

From S2P Require Import Prelude GoStrings GoUnicode IrcMessage GenMsg GoTime Effects Database Downstream SqlTables Sqlite SqliteDelete Postgres.

Open Scope string_scope.
Open Scope list_scope.
Open Scope Z_scope.

(** ** Values that fit *)

Definition fits (n : nat) (s : string) : Prop := (length (runes s) ≤ n)%nat.
Definition fits_null (n : nat) (o : option string) : Prop := match o with Some s => fits n s | None => True end.

Lemma varchar_fits n s s' : varchar n s = Ok s' → fits n s'.
Proof.
  unfold varchar, fits. destruct (Nat.leb_spec (length (runes s)) n); [by intros [= <-]|].
  destruct (forallb _ _); intros [= <-]. rewrite runes_of_runes by (apply Forall_take, runes_valid). rewrite length_take. lia.
Qed.
Lemma varchar_null_fits n o o' : varchar_null n o = Ok o' → fits_null n o'.
Proof.
  destruct o as [s|]; cbn; [|by intros [= <-]]. destruct (varchar n s) as [s'|e|w] eqn:Hs; cbn; intros [= <-]. by eapply varchar_fits.
Qed.

Definition network_fits (r : networkRow) : Prop :=
  fits_null 255 (nr_name r) ∧ fits 255 (nr_addr r) ∧ fits_null 255 (nr_nick r) ∧ fits_null 255 (nr_username r) ∧
  fits_null 255 (nr_realname r) ∧ fits_null 255 (nr_pass r) ∧ fits_null 1023 (nr_connect_commands r) ∧
  fits_null 255 (nr_sasl_plain_username r) ∧ fits_null 255 (nr_sasl_plain_password r).

Record pg_typed (d : pgdb) : Prop := {
  ty_User : Forall (λ r, fits 255 (pgu_username r) ∧ fits_null 255 (pgu_password r) ∧ fits_null 255 (pgu_nick r) ∧
    fits_null 255 (pgu_realname r)) (pt_User d);
  ty_Network : Forall network_fits (pt_Network d);
  ty_Channel : Forall (λ r, fits 255 (cr_name r) ∧ fits_null 255 (cr_key r) ∧ fits_null 255 (cr_detached_msgid r)) (pt_Channel d);
  ty_DeliveryReceipt : Forall (λ r, fits 255 (pgd_target r) ∧ fits 255 (pgd_client r) ∧ fits 255 (pgd_internal_msgid r))
    (pt_DeliveryReceipt d);
  ty_ReadReceipt : Forall (λ r, fits 255 (pgr_target r)) (pt_ReadReceipt d)
}.

(** ** The invariant *)

Record pg_ok (s : pgState) : Prop := {
  ok_unique : pg_unique_ok (pg_db s);
  ok_foreign : pg_foreign_ok (pg_db s);
  ok_typed : pg_typed (pg_db s);
  ok_ids t id : id ∈ ids_of t (pg_db s) → 0 < id ≤ pg_seq s t;
  ok_seq t : 0 ≤ pg_seq s t ≤ int4_max
}.

(** With sequences that have not gone back since [q]. *)
Definition pg_inv (q : pgtable → Z) (s : pgState) : Prop := pg_ok s ∧ ∀ t, q t ≤ pg_seq s t.

(** A change after which there are no IDs but those of [d] and [new], and all values fit. *)
Definition sound_change (new : list (pgtable * Z)) (d d' : pgdb) : Prop :=
  pg_typed d → pg_typed d' ∧ ∀ t id, id ∈ ids_of t d' → id ∈ ids_of t d ∨ (t, id) ∈ new.

Section statements.
Context `{EN : pgengine}.
Variable q : pgtable → Z.

Lemma preserves_pg_step : preserves (pg_inv q) pg_step.
Proof. intros s [[] Hq]. by split; [split|]. Qed.
Lemma preserves_pg_send args : preserves (pg_inv q) (pg_send args).
Proof.
  apply preserves_bind; [apply preserves_pg_step|]. intros _. destruct (args_error args); [apply preserves_fail|apply preserves_ret].
Qed.

Lemma pg_check_inv d s :
  pg_inv q s → pg_typed d → (∀ t id, id ∈ ids_of t d → 0 < id ≤ pg_seq s t) → pg_inv q (pg_check d s).1.
Proof.
  intros Hs Ht Hid. unfold pg_check. destruct (decide (pg_unique_ok d)); [|done]. destruct (decide (pg_foreign_ok d)); [|done].
  destruct Hs as [[] Hq]. by split; [split|].
Qed.

Lemma preserves_pg_exec args f : (∀ d d', f d = Ok d' → sound_change [] d d') → preserves (pg_inv q) (pg_exec args f).
Proof.
  intros Hf. apply preserves_bind; [apply preserves_pg_send|]. intros _ s Hs. rewrite bind_gets. unfold lift, mbind, M_bind.
  destruct (f (pg_db s)) as [d'|e|w] eqn:Hd; [|done|done]. pose proof Hs as [Hok _].
  destruct (Hf _ _ Hd (ok_typed _ Hok)) as [Ht Hids]. apply pg_check_inv; [done..|]. intros t id Hid.
  destruct (Hids t id Hid) as [Hin|Hin]; [|by inversion Hin]. by apply Hok.
Qed.

Lemma nextval_inv t s : pg_inv q s →
  match nextval t s with
  | (s', Ok id) => pg_inv q s' ∧ pg_db s' = pg_db s ∧ id = pg_seq s t + 1 ∧ pg_seq s' t = id
  | (s', _) => s' = s
  end.
Proof.
  intros [[] Hq]. unfold nextval. rewrite bind_gets. destruct (Z.ltb_spec (pg_seq s t) int4_max); [|done]. cbn.
  assert (advance t (pg_seq s t + 1) (pg_seq s) t = pg_seq s t + 1) as Hsame by (unfold advance; by rewrite decide_True).
  split_and!; [|done|done|done].
  assert (∀ t', pg_seq s t' ≤ advance t (pg_seq s t + 1) (pg_seq s) t' ≤ int4_max) as Hle.
  { intros t'. pose proof (ok_seq0 t'). unfold advance. case_decide; subst; lia. }
  split; [split; cbn; try done|].
  - intros t' id Hid. specialize (ok_ids0 t' id Hid). specialize (Hle t'). lia.
  - intros t'. pose proof (ok_seq0 t'). specialize (Hle t'). lia.
  - intros t'. specialize (Hle t'). specialize (Hq t'). cbn. lia.
Qed.

Lemma preserves_pg_insert t args f : (∀ id d d', f id d = Ok d' → sound_change [(t, id)] d d') → preserves (pg_inv q) (pg_insert t args f).
Proof.
  intros Hf. apply preserves_bind; [apply preserves_pg_send|]. intros _ s Hs. pose proof (nextval_inv t s Hs) as Hn.
  unfold mbind at 1, M_bind at 1. destruct (nextval t s) as [s' [id|e|w]]; [|by subst|by subst].
  destruct Hn as (Hs' & Hdb & Hid & Hseq). rewrite bind_gets. unfold lift, mbind, M_bind.
  destruct (f id (pg_db s')) as [d'|e|w] eqn:Hd; [|done|done]. pose proof Hs' as [Hok _].
  destruct (Hf _ _ _ Hd (ok_typed _ Hok)) as [Ht Hids].
  assert (pg_inv q (pg_check d' s').1) as Hc.
  { apply pg_check_inv; [done..|]. intros t' x Hx. destruct (Hids t' x Hx) as [Hin|[= -> ->]%list_elem_of_singleton]; [by apply Hok|].
    destruct Hs as [Hs _]. pose proof (ok_seq _ Hs t). lia. }
  destruct (pg_check d' s') as [s'' [[]|e|w]]; done.
Qed.
End statements.

Lemma pg_inv_self s : pg_ok s → pg_inv (pg_seq s) s.
Proof. intros Hs. split; [done|]. intros t. lia. Qed.

Section transactions.
Context `{EN : pgengine}.

Lemma preserves_pg_transaction {A} (m : PG A) q : (∀ q, preserves (pg_inv q) m) → preserves (pg_inv q) (pg_transaction m).
Proof.
  intros Hm s [Hok Hq].
  assert (preserves (pg_inv (pg_seq s)) (pg_step ;; r ← m; pg_step ;; mret r)) as Hp.
  { apply preserves_bind; [apply preserves_pg_step|]. intros _. apply preserves_bind; [apply Hm|]. intros a.
    apply preserves_bind; [apply preserves_pg_step|]. intros _. apply preserves_ret. }
  pose proof (Hp s (pg_inv_self s Hok)) as Hr.
  unfold pg_transaction. destruct ((pg_step ;; _) s) as [s' [a|e|w]]; cbn in *; destruct Hr as [Hr Hle].
  - split; [done|]. intros t. specialize (Hq t). specialize (Hle t). lia.
  - split; [|intros t; cbn; specialize (Hq t); specialize (Hle t); lia]. destruct Hok, Hr. split; cbn; try done.
    intros t id Hid. specialize (ok_ids0 t id Hid). specialize (Hle t). lia.
  - split; [|intros t; cbn; specialize (Hq t); specialize (Hle t); lia]. destruct Hok, Hr. split; cbn; try done.
    intros t id Hid. specialize (ok_ids0 t id Hid). specialize (Hle t). lia.
Qed.
Lemma preserves_mapM {A B} (I : pgState → Prop) (f : A → PG B) l : (∀ x, preserves I (f x)) → preserves I (mapM f l).
Proof.
  intros Hf. induction l as [|x l IH]; [apply preserves_ret|]. apply preserves_bind; [apply Hf|]. intros y.
  apply preserves_bind; [apply IH|]. intros ys. apply preserves_ret.
Qed.
End transactions.

(** ** Changes of tables *)

Ltac res_inv :=
  repeat match goal with
  | H : (_ ≫= _) = Ok _ |- _ => let x := fresh "x" in let Hx := fresh "Hx" in apply res_bind_ok in H as (x & Hx & H)
  end;
  repeat match goal with
  | H : Ok _ = Ok _ |- _ => injection H as <-
  | H : mret _ = Ok _ |- _ => injection H as <-
  | H : varchar _ _ = Ok _ |- _ => apply varchar_fits in H
  | H : varchar_null _ _ = Ok _ |- _ => apply varchar_null_fits in H
  end.

Lemma update_rows_Forall2 {R} (P : R → bool) (f : R → res goerr R) l l' :
  update_rows P f l = Ok l' → Forall2 (λ r r', r' = r ∨ f r = Ok r') l l'.
Proof.
  revert l'. induction l as [|r l IH]; intros l' Hu; [by injection Hu as <-|]. unfold update_rows in Hu. cbn in Hu.
  res_inv. constructor; [|by apply IH]. destruct (P r); [by right|left; congruence].
Qed.
Lemma update_rows_ids {R} (id : R → Z) P f (l l' : list R) :
  (∀ r r', f r = Ok r' → id r' = id r) → update_rows P f l = Ok l' → id <$> l' = id <$> l.
Proof.
  intros Hid Hu%update_rows_Forall2. induction Hu as [|r r' l l' [->|Hr] _ IH]; cbn; [done|by rewrite IH|].
  by rewrite IH, (Hid _ _ Hr).
Qed.
Lemma update_rows_Forall {R} (Q : R → Prop) P f (l l' : list R) :
  Forall Q l → (∀ r r', f r = Ok r' → Q r → Q r') → update_rows P f l = Ok l' → Forall Q l'.
Proof.
  intros HQ Hf Hu%update_rows_Forall2. revert HQ. induction Hu as [|r r' l l' Hr _ IH]; intros HQ; [done|].
  apply Forall_cons in HQ as [Hq HQ]. constructor; [|by apply IH]. destruct Hr as [->|Hr]; [done|by eapply Hf].
Qed.
Lemma Forall_filtered {R} (Q P : R → Prop) `{!∀ x, Decision (P x)} (l : list R) : Forall Q l → Forall Q (filter P l).
Proof. apply Forall_sublist, filter_sublist. Qed.
Lemma Forall_append {R} (Q : R → Prop) (l : list R) r : Forall Q l → Q r → Forall Q (l ++ [r]).
Proof. intros Hl Hr. apply Forall_app. split; [done|by constructor]. Qed.
Lemma elem_of_fmap_filter {R} (id : R → Z) (P : R → Prop) `{!∀ x, Decision (P x)} (l : list R) x :
  x ∈ id <$> filter P l → x ∈ id <$> l.
Proof. intros Hx. eapply elem_of_sublist; [exact Hx|apply fmap_sublist, filter_sublist]. Qed.
Lemma elem_of_fmap_append {R} (id : R → Z) (l : list R) r x : x ∈ id <$> (l ++ [r]) → x ∈ id <$> l ∨ x = id r.
Proof. rewrite fmap_app, elem_of_app. by intros [?|?%list_elem_of_singleton]; [left|right]. Qed.

Create HintDb pg_change discriminated.
#[export] Hint Resolve Forall_filtered Forall_append elem_of_fmap_filter : pg_change.
#[export] Hint Unfold network_fits : pg_change.

(** A statement that removes rows. *)
Ltac pg_remove :=
  let H := fresh in intros ? ? H; res_inv; intros []; split;
  [split; cbn; auto with pg_change|intros [] ?; cbn; intros ?; left; eauto with pg_change].
(** A statement that adds a row. *)
Ltac pg_add :=
  let H := fresh in intros ? ? ? H; res_inv; intros []; split;
  [split; cbn; auto 12 with pg_change
  |intros [] ?; cbn; first [by left | intros [? | ->]%elem_of_fmap_append; [by left|right; by left]]].
(** A statement that changes rows. *)
Ltac pg_change :=
  let H := fresh in intros ? ? H; res_inv; intros []; split;
  [split; cbn; try done; (eapply update_rows_Forall; [| |eassumption]; [done|]); cbn
  |intros [] ?; cbn; intros Hin; left; first [done | erewrite <-update_rows_ids; [exact Hin| |eassumption]; cbn]];
  intros; res_inv; unfold network_fits in *; try done.

Section methods.
Context `{EN : pgengine} `{LE : sqlenv}.
Variable q : pgtable → Z.

Lemma pres_StoreUser u : preserves (pg_inv q) (pg_StoreUser u).
Proof.
  unfold pg_StoreUser. apply preserves_bind; [apply preserves_gets|]. intros now. case_decide.
  - apply preserves_bind; [apply preserves_pg_insert|intros; apply preserves_ret]. unfold pg_user_row. pg_add.
  - apply preserves_bind; [apply preserves_pg_exec|intros; apply preserves_ret]. unfold pg_user_row. pg_change.
Qed.
Lemma pres_DeleteUser id : preserves (pg_inv q) (pg_DeleteUser id).
Proof. apply preserves_pg_exec. pg_remove. Qed.

Lemma pres_StoreNetwork user n : preserves (pg_inv q) (pg_StoreNetwork user n).
Proof.
  unfold pg_StoreNetwork. apply preserves_bind; [apply preserves_lift|]. intros [s [[m u] p]]. case_decide.
  - apply preserves_bind; [apply preserves_pg_insert|intros; apply preserves_ret]. unfold pg_network_row. pg_add.
  - apply preserves_bind; [apply preserves_pg_exec|intros; apply preserves_ret]. unfold pg_network_row. pg_change.
Qed.
Lemma pres_DeleteNetwork id : preserves (pg_inv q) (pg_DeleteNetwork id).
Proof. apply preserves_pg_exec. pg_remove. Qed.

Lemma pres_StoreChannel net c : preserves (pg_inv q) (pg_StoreChannel net c).
Proof.
  unfold pg_StoreChannel. case_decide.
  - apply preserves_bind; [apply preserves_pg_insert|intros; apply preserves_ret]. unfold pg_channel_row. pg_add.
  - apply preserves_bind; [apply preserves_pg_exec|intros; apply preserves_ret]. unfold pg_channel_row. pg_change.
Qed.
Lemma pres_DeleteChannel id : preserves (pg_inv q) (pg_DeleteChannel id).
Proof. apply preserves_pg_exec. pg_remove. Qed.

Lemma pres_StoreDeviceCertificate user c : preserves (pg_inv q) (pg_StoreDeviceCertificate user c).
Proof.
  unfold pg_StoreDeviceCertificate. apply preserves_bind.
  - apply preserves_try. case_decide.
    + apply preserves_bind; [apply preserves_pg_insert|intros; apply preserves_ret]. pg_add.
    + apply preserves_bind; [apply preserves_pg_exec|intros; apply preserves_ret]. pg_change.
  - intros [c'|e]; [apply preserves_ret|apply preserves_fail].
Qed.
Lemma pres_DeleteDeviceCertificate user f : preserves (pg_inv q) (pg_DeleteDeviceCertificate user f).
Proof. apply preserves_pg_exec. pg_remove. Qed.

Lemma pres_StoreReadReceipt net r : preserves (pg_inv q) (pg_StoreReadReceipt net r).
Proof.
  unfold pg_StoreReadReceipt. case_decide.
  - apply preserves_bind; [apply preserves_pg_exec|intros; apply preserves_ret]. pg_change.
  - apply preserves_bind; [apply preserves_pg_insert|intros; apply preserves_ret]. pg_add.
Qed.

Lemma pres_StoreWebPushConfig c : preserves (pg_inv q) (pg_StoreWebPushConfig c).
Proof.
  unfold pg_StoreWebPushConfig. case_decide; [apply preserves_fail|]. apply preserves_bind; [apply preserves_gets|]. intros now.
  apply preserves_bind; [apply preserves_pg_insert|intros; apply preserves_ret]. pg_add.
Qed.
Lemma pres_StoreWebPushSubscription user net sub : preserves (pg_inv q) (pg_StoreWebPushSubscription user net sub).
Proof.
  unfold pg_StoreWebPushSubscription. apply preserves_bind; [apply preserves_gets|]. intros now. case_decide.
  - apply preserves_bind; [apply preserves_pg_exec|intros; apply preserves_ret]. pg_change.
  - apply preserves_bind; [apply preserves_pg_insert|intros; apply preserves_ret]. pg_add.
Qed.
Lemma pres_DeleteWebPushSubscription id : preserves (pg_inv q) (pg_DeleteWebPushSubscription id).
Proof. apply preserves_pg_exec. pg_remove. Qed.

Lemma pres_StoreMessageTarget net mt : preserves (pg_inv q) (pg_StoreMessageTarget net mt).
Proof.
  unfold pg_StoreMessageTarget. case_decide.
  - apply preserves_bind; [apply preserves_pg_exec|intros; apply preserves_ret]. pg_change.
  - apply preserves_bind; [apply preserves_pg_insert|intros; apply preserves_ret]. pg_add.
Qed.
Lemma pres_insert_target net name : preserves (pg_inv q) (pg_insert_target net name).
Proof.
  assert (∀ id d d', Ok (put_MessageTarget (pt_MessageTarget d ++ [MkTargetRow id net name false false false]) d) = Ok (E := goerr) d' →
    sound_change [(TMessageTarget, id)] d d') as Hadd by pg_add.
  apply preserves_pg_insert. intros id d d' Hd. case_decide; [|by apply Hadd]. injection Hd as <-. intros Ht. split; [done|]. by left.
Qed.
Lemma pres_insert_message net name m : preserves (pg_inv q) (pg_insert_message net name m).
Proof.
  unfold pg_insert_message. apply preserves_bind; [apply preserves_gets|]. intros now. apply preserves_bind; [apply preserves_lift|].
  intros t. apply preserves_bind; [destruct (MPrefix m); [apply preserves_ret|apply preserves_panic]|]. intros sender.
  apply preserves_bind; [apply preserves_gets|]. intros [|target targets].
  - apply preserves_bind; [apply preserves_pg_send|intros; apply preserves_fail].
  - apply preserves_pg_insert. pg_add.
Qed.
Lemma pres_DeleteMessagesBefore t : preserves (pg_inv q) (pg_DeleteMessagesBefore t).
Proof. apply preserves_pg_exec. pg_remove. Qed.
End methods.

Section transactions.
Context `{EN : pgengine} `{LE : sqlenv}.

Lemma pres_StoreClientDeliveryReceipts q net client l : preserves (pg_inv q) (pg_StoreClientDeliveryReceipts net client l).
Proof.
  apply preserves_pg_transaction. intros q'. apply preserves_bind; [apply preserves_pg_exec; pg_remove|]. intros _.
  apply preserves_bind; [apply preserves_pg_step|]. intros _. apply preserves_mapM. intros r.
  apply preserves_bind; [apply preserves_pg_insert|intros; apply preserves_ret]. pg_add.
Qed.
Lemma pres_StoreMessages q net name msgs : preserves (pg_inv q) (pg_StoreMessages net name msgs).
Proof.
  destruct msgs as [|m msgs]; [apply preserves_ret|]. apply preserves_pg_transaction. intros q'.
  apply preserves_bind; [apply pres_insert_target|]. intros _. apply preserves_bind; [apply preserves_pg_step|]. intros _.
  apply preserves_mapM. intros x. apply pres_insert_message.
Qed.
End transactions.

(** ** Calls *)

(** The methods that change the database. *)
Inductive pgop :=
| OpStoreUser (user : dbUser) | OpDeleteUser (id : Z)
| OpStoreNetwork (userID : Z) (network : dbNetwork) | OpDeleteNetwork (id : Z)
| OpStoreChannel (networkID : Z) (ch : dbChannel) | OpDeleteChannel (id : Z)
| OpStoreDeviceCertificate (userID : Z) (cert : DeviceCertificate) | OpDeleteDeviceCertificate (userID : Z) (fingerprint : string)
| OpStoreClientDeliveryReceipts (networkID : Z) (client : string) (receipts : list DeliveryReceipt)
| OpStoreReadReceipt (networkID : Z) (receipt : ReadReceipt)
| OpStoreWebPushConfig (config : WebPushConfig)
| OpStoreWebPushSubscription (userID networkID : Z) (sub : WebPushSubscription) | OpDeleteWebPushSubscription (id : Z)
| OpStoreMessageTarget (networkID : Z) (mt : MessageTarget)
| OpStoreMessages (networkID : Z) (name : string) (msgs : list Message) | OpDeleteMessagesBefore (before : Z).

(** The ID of a record that had none. *)
Definition new_id (t : pgtable) (before after : Z) : list (pgtable * Z) := if decide (before = 0) then [(t, after)] else [].

Section calls.
Context `{EN : pgengine} `{LE : sqlenv}.

(** A call, with the IDs it gave. *)
Definition pg_do (op : pgop) : PG (list (pgtable * Z)) :=
  match op with
  | OpStoreUser u => u' ← pg_StoreUser u; mret (new_id TUser (uID u) (uID u'))
  | OpDeleteUser id => pg_DeleteUser id ;; mret []
  | OpStoreNetwork user n => n' ← pg_StoreNetwork user n; mret (new_id TNetwork (nID n) (nID n'))
  | OpDeleteNetwork id => pg_DeleteNetwork id ;; mret []
  | OpStoreChannel net c => c' ← pg_StoreChannel net c; mret (new_id TChannel (cID c) (cID c'))
  | OpDeleteChannel id => pg_DeleteChannel id ;; mret []
  | OpStoreDeviceCertificate user c => c' ← pg_StoreDeviceCertificate user c; mret (new_id TDeviceCertificate (devID c) (devID c'))
  | OpDeleteDeviceCertificate user f => pg_DeleteDeviceCertificate user f ;; mret []
  | OpStoreClientDeliveryReceipts net client l =>
    l' ← pg_StoreClientDeliveryReceipts net client l; mret ((λ r, (TDeliveryReceipt, drID r)) <$> l')
  | OpStoreReadReceipt net r => r' ← pg_StoreReadReceipt net r; mret (new_id TReadReceipt (rrID r) (rrID r'))
  | OpStoreWebPushConfig c => c' ← pg_StoreWebPushConfig c; mret (new_id TWebPushConfig (pcID c) (pcID c'))
  | OpStoreWebPushSubscription user net sub =>
    sub' ← pg_StoreWebPushSubscription user net sub; mret (new_id TWebPushSubscription (subID sub) (subID sub'))
  | OpDeleteWebPushSubscription id => pg_DeleteWebPushSubscription id ;; mret []
  | OpStoreMessageTarget net mt => mt' ← pg_StoreMessageTarget net mt; mret (new_id TMessageTarget (mtID mt) (mtID mt'))
  | OpStoreMessages net name msgs => ids ← pg_StoreMessages net name msgs; mret ((λ id, (TMessage, id)) <$> ids)
  | OpDeleteMessagesBefore t => pg_DeleteMessagesBefore t ;; mret []
  end.

Definition pg_run (ops : list pgop) (s : pgState) : pgState := foldl (λ s op, (pg_do op s).1) s ops.

Lemma pres_do q op : preserves (pg_inv q) (pg_do op).
Proof.
  destruct op; (apply preserves_bind; [|intros; apply preserves_ret]);
    eauto using pres_StoreUser, pres_DeleteUser, pres_StoreNetwork, pres_DeleteNetwork, pres_StoreChannel, pres_DeleteChannel,
      pres_StoreDeviceCertificate, pres_DeleteDeviceCertificate, pres_StoreClientDeliveryReceipts, pres_StoreReadReceipt,
      pres_StoreWebPushConfig, pres_StoreWebPushSubscription, pres_DeleteWebPushSubscription, pres_StoreMessageTarget,
      pres_StoreMessages, pres_DeleteMessagesBefore.
Qed.
Lemma pg_run_inv q ops s : pg_inv q s → pg_inv q (pg_run ops s).
Proof. revert s. induction ops as [|op ops IH]; intros s Hs; [done|]. apply IH. by apply pres_do. Qed.

(** ** Fresh IDs *)

(** The IDs in the answer are larger than [q], the sequences had reached. *)
Definition gives_fresh {A} (q : pgtable → Z) (new : A → list (pgtable * Z)) (m : PG A) : Prop :=
  ∀ s s' a, pg_inv q s → m s = (s', Ok a) → Forall (λ x, q x.1 < x.2) (new a).

Lemma fresh_bind {A B} q new (m : PG A) (k : A → PG B) :
  preserves (pg_inv q) m → (∀ a, gives_fresh q new (k a)) → gives_fresh q new (m ≫= k).
Proof.
  intros Hm Hk s s' b Hs. unfold mbind, M_bind. specialize (Hm s Hs). destruct (m s) as [s1 [a|e|w]]; [|done|done]. by apply Hk.
Qed.
Lemma fresh_map {A B} q new new' (m : PG A) (f : A → B) :
  gives_fresh q new m → (∀ a, new' (f a) = new a) → gives_fresh q new' (a ← m; mret (f a)).
Proof.
  intros Hm Hf s s' b Hs. unfold mbind, M_bind. destruct (m s) as [s1 [a|e|w]] eqn:Hr; [|done|done]. intros [= <- <-].
  rewrite Hf. by eapply Hm.
Qed.
Lemma fresh_nil {A} q new (m : PG A) : (∀ a, new a = []) → gives_fresh q new m.
Proof. intros Hn s s' a _ _. rewrite Hn. constructor. Qed.
Lemma fresh_none q : gives_fresh q (λ l, l) (mret []).
Proof. intros s s' a _ [= _ <-]. constructor. Qed.

Lemma fresh_insert q t args f : gives_fresh q (λ id, [(t, id)]) (pg_insert t args f).
Proof.
  apply fresh_bind; [apply preserves_pg_send|]. intros _ s s' id Hs. pose proof (nextval_inv q t s Hs) as Hn.
  unfold mbind at 1, M_bind at 1. destruct (nextval t s) as [s1 [i|e|w]]; [|done|done]. destruct Hn as (_ & _ & -> & _).
  rewrite bind_gets. unfold lift, mbind, M_bind. destruct (f _ (pg_db s1)); [|done|done].
  destruct (pg_check _ s1) as [s2 [[]|e|w]]; [|done|done]. intros [= _ <-]. repeat constructor. cbn. destruct Hs as [_ Hq]. specialize (Hq t). lia.
Qed.
Lemma fresh_transaction {A} q new (m : PG A) :
  gives_fresh q new m → gives_fresh q new (pg_transaction m).
Proof.
  intros Hm s s' a Hs. unfold pg_transaction. destruct ((pg_step ;; _) s) as [s1 [b|e|w]] eqn:Hr; [|done|done]. intros [= <- <-].
  revert Hr. unfold mbind at 1, M_bind at 1. pose proof (preserves_pg_step q s Hs) as Hs1.
  destruct (pg_step s) as [s2 [[]|e|w]]; [|done|done]. unfold mbind at 1, M_bind at 1. cbn in Hs1.
  destruct (m s2) as [s3 [c|e|w]] eqn:Hr; [|done|done]. unfold mbind, M_bind. destruct (pg_step s3) as [s4 [[]|e|w]]; [|done|done].
  intros [= _ <-]. by eapply Hm.
Qed.
Lemma fresh_mapM {A B} q (new : B → pgtable * Z) (f : A → PG B) l :
  (∀ x, preserves (pg_inv q) (f x)) → (∀ x, gives_fresh q (λ b, [new b]) (f x)) → gives_fresh q (λ l, new <$> l) (mapM f l).
Proof.
  intros Hp Hf. induction l as [|x l IH]; [by intros s s' a _ [= _ <-]; constructor|]. intros s s' r Hs.
  cbn. unfold mbind at 1, M_bind at 1. specialize (Hp x s Hs) as Hs1. destruct (f x s) as [s1 [b|e|w]] eqn:Hb; [|done|done].
  unfold mbind, M_bind. destruct (mapM f l s1) as [s2 [bs|e|w]] eqn:Hbs; [|done|done]. intros [= _ <-]. cbn. constructor.
  - by apply (Hf x _ _ _ Hs) in Hb as [? _]%Forall_cons.
  - by apply (IH s1 s2 bs).
Qed.

Lemma new_id_new t before after : before = 0 → new_id t before after = [(t, after)].
Proof. intros Hb. unfold new_id. by rewrite decide_True. Qed.
Lemma new_id_old t before after : before ≠ 0 → new_id t before after = [].
Proof. intros Hb. unfold new_id. by rewrite decide_False. Qed.

(** A method that inserts a record without an ID and updates others. *)
Ltac fresh_store :=
  repeat (apply fresh_bind; [first [apply preserves_gets | apply preserves_lift]|intros]);
  repeat case_match;
  try case_decide;
  first
  [ by apply fresh_nil; intros; apply new_id_old
  | eapply fresh_map; [apply fresh_insert|intros; cbn; apply new_id_new; first [done | by apply dec_stable]] ].

Lemma fresh_StoreDeviceCertificate q user c :
  gives_fresh q (λ c', new_id TDeviceCertificate (devID c) (devID c')) (pg_StoreDeviceCertificate user c).
Proof.
  intros s s' c' Hs Hrun. destruct (decide (devID c = 0)) as [Hid|Hid]; [|rewrite new_id_old by done; constructor].
  unfold pg_StoreDeviceCertificate in Hrun. rewrite decide_True in Hrun by done. unfold try, mbind at 1, M_bind at 1 in Hrun.
  match type of Hrun with context [match ?m s with _ => _ end] => destruct (m s) as [s1 [x|e|w]] eqn:Hm end; [|done|done].
  injection Hrun as <- <-. revert s s1 x Hs Hm. apply fresh_map with (new := λ id, [(TDeviceCertificate, id)]); [apply fresh_insert|].
  intros id. by apply new_id_new.
Qed.

Lemma fresh_do q op : gives_fresh q (λ l, l) (pg_do op).
Proof.
  destruct op; cbn [pg_do];
    try (apply fresh_bind; [|intros; apply fresh_none]; eauto using pres_DeleteUser, pres_DeleteNetwork, pres_DeleteChannel,
      pres_DeleteDeviceCertificate, pres_DeleteWebPushSubscription, pres_DeleteMessagesBefore).
  - apply fresh_map with (new := λ u', new_id TUser (uID user) (uID u')); [|done]. unfold pg_StoreUser. fresh_store.
  - apply fresh_map with (new := λ n', new_id TNetwork (nID network) (nID n')); [|done]. unfold pg_StoreNetwork. fresh_store.
  - apply fresh_map with (new := λ c', new_id TChannel (cID ch) (cID c')); [|done]. unfold pg_StoreChannel. fresh_store.
  - apply fresh_map with (new := λ c', new_id TDeviceCertificate (devID cert) (devID c')); [|done]. apply fresh_StoreDeviceCertificate.
  - apply fresh_map with (new := λ l', (λ r, (TDeliveryReceipt, drID r)) <$> l'); [|done]. apply fresh_transaction.
    apply fresh_bind; [apply preserves_pg_exec; pg_remove|]. intros _. apply fresh_bind; [apply preserves_pg_step|]. intros _.
    apply fresh_mapM; intros r.
    + apply preserves_bind; [apply preserves_pg_insert|intros; apply preserves_ret]. pg_add.
    + eapply fresh_map; [apply fresh_insert|done].
  - apply fresh_map with (new := λ r', new_id TReadReceipt (rrID receipt) (rrID r')); [|done]. unfold pg_StoreReadReceipt. fresh_store.
  - apply fresh_map with (new := λ c', new_id TWebPushConfig (pcID config) (pcID c')); [|done]. unfold pg_StoreWebPushConfig.
    case_decide; [by apply fresh_nil; intros; apply new_id_old|]. fresh_store.
  - apply fresh_map with (new := λ sub', new_id TWebPushSubscription (subID sub) (subID sub')); [|done].
    unfold pg_StoreWebPushSubscription. fresh_store.
  - apply fresh_map with (new := λ mt', new_id TMessageTarget (mtID mt) (mtID mt')); [|done]. unfold pg_StoreMessageTarget. fresh_store.
  - apply fresh_map with (new := λ ids, (λ id, (TMessage, id)) <$> ids); [|done]. unfold pg_StoreMessages.
    destruct msgs as [|m msgs]; [by intros s s' a _ [= _ <-]; constructor|]. apply fresh_transaction.
    apply fresh_bind; [apply pres_insert_target|]. intros _. apply fresh_bind; [apply preserves_pg_step|]. intros _.
    apply fresh_mapM; intros x; [apply pres_insert_message|]. unfold pg_insert_message.
    repeat (apply fresh_bind; [first [apply preserves_gets | apply preserves_lift]|intros]).
    apply fresh_bind; [destruct (MPrefix x); [apply preserves_ret|apply preserves_panic]|]. intros sender.
    apply fresh_bind; [apply preserves_gets|]. intros [|target targets]; [|apply fresh_insert].
    apply fresh_bind; [apply preserves_pg_send|]. by intros _ s s' r _ [=].
Qed.

(** The PostgreSQL database stays consistent and never gives an ID twice. From a database
    that satisfies its schema, after any calls of any methods, of which the engine may refuse
    any statement, the keys are unique, no row refers to a row that is gone, and the texts fit
    their columns. Every ID a further call gives to a new record, in any of the ten tables, is
    larger than all IDs the table ever had, also those of rows that were deleted, and than those
    that calls that failed had taken. *)
Theorem postgres_consistent ops s :
  pg_ok s →
  let s' := pg_run ops s in
  pg_ok s' ∧
  ∀ op s'' new, pg_do op s' = (s'', Ok new) →
    Forall (λ x, ∀ id, id ∈ ids_of x.1 (pg_db s) ∨ id = pg_seq s' x.1 → id < x.2) new.
Proof.
  intros Hs s'. destruct (pg_run_inv (pg_seq s) ops s (pg_inv_self s Hs)) as [Hs' Hle]. split; [done|].
  intros op s'' new Hop. apply (fresh_do (pg_seq s')) in Hop; [|by apply pg_inv_self]. eapply Forall_impl; [exact Hop|].
  intros [t n] Hn id [Hid| ->]; cbn in *; [|done]. apply (ok_ids s Hs) in Hid. specialize (Hle t). fold s' in Hle. lia.
Qed.
End calls.
