(* ===== verification/PgBackends.v ===== *)
(** * The two database back ends side by side

    The same records in both databases: SQLite deletes a user or a network table by table in a
    transaction, PostgreSQL by the references of its schema, and both are left with the same
    records; both answer the same when asked for them.
    The second part is about what they answer. *)

From S2P Require Import Prelude GoStrings GoUnicode IrcMessage Effects GenMsg GoTime Database Downstream SqlTables Sqlite SqliteDelete SqliteSpec SqliteRecords Postgres PgInv.

Open Scope string_scope.
Open Scope list_scope.
Open Scope Z_scope.

(** ** The same records *)

(** What SQLite has for the rows of PostgreSQL: times become text, of milliseconds. *)
Definition view_user (r : pgUserRow) : userRow :=
  MkUserRow (pgu_id r) (pgu_username r) (pgu_password r) (pgu_admin r) (pgu_realname r) (pgu_nick r)
    (FormatServerTime (pgu_created_at r)) (pgu_enabled r) (FormatServerTime <$> pgu_interacted_at r) (pgu_max_networks r).
Definition view_cert (r : pgCertRow) : certRow :=
  MkCertRow (pgc_id r) (pgc_user r) (pgc_label r) (pgc_fingerprint r) (FormatServerTime (pgc_last_used r)) (pgc_last_ip r).
Definition view_delivery (r : pgDeliveryRow) : deliveryRow :=
  MkDeliveryRow (pgd_id r) (pgd_network r) (pgd_target r) (toNullString (pgd_client r)) (pgd_internal_msgid r).
Definition view_read (r : pgReadRow) : readRow :=
  MkReadRow (pgr_id r) (pgr_network r) (pgr_target r) (FormatServerTime (pgr_timestamp r)).
Definition view_config (r : pgConfigRow) : pushConfigRow :=
  MkPushConfigRow (pgk_id r) (FormatServerTime (pgk_created_at r)) (pgk_public r) (pgk_private r).
Definition view_push (r : pgPushRow) : pushRow :=
  MkPushRow (pgp_id r) (FormatServerTime (pgp_created_at r)) (FormatServerTime (pgp_updated_at r)) (pgp_user r) (pgp_network r)
    (pgp_endpoint r) (pgp_key_vapid r) (pgp_key_auth r) (pgp_key_p256dh r).
Definition view_message (r : pgMessageRow) : messageRow :=
  MkMessageRow (pgm_id r) (pgm_target r) (pgm_raw r) (FormatServerTime (pgm_time r)) (pgm_sender r) (pgm_text r).
Definition pg_view (d : pgdb) : sqldb :=
  MkDb (view_user <$> pt_User d) (pt_Network d) (pt_Channel d) (view_cert <$> pt_DeviceCertificate d)
    (view_delivery <$> pt_DeliveryReceipt d) (view_read <$> pt_ReadReceipt d) (view_config <$> pt_WebPushConfig d)
    (view_push <$> pt_WebPushSubscription d) (pt_MessageTarget d) (view_message <$> pt_Message d).

Lemma filter_fmap_view {A B} (f : A → B) (P : B → Prop) (Q : A → Prop) `{!∀ x, Decision (P x), !∀ x, Decision (Q x)} (l : list A) :
  (∀ x, x ∈ l → Q x ↔ P (f x)) → f <$> filter Q l = filter P (f <$> l).
Proof.
  induction l as [|x l IH]; intros Hl; [done|]. cbn [fmap list_fmap]. rewrite !filter_cons.
  pose proof (Hl x ltac:(by left)). specialize (IH ltac:(intros y Hy; apply Hl; by right)).
  repeat case_decide; try tauto. cbn. by rewrite IH.
Qed.
Lemma fmap_view {A B C} (f : A → B) (g : B → C) (h : A → C) (l : list A) : (∀ x, g (f x) = h x) → g <$> (f <$> l) = h <$> l.
Proof. intros Hf. rewrite <-list_fmap_compose. apply list_fmap_ext. intros i x _. apply Hf. Qed.

(** ** Constraints after a deletion *)

Lemma ids_remaining {R} (id : R → Z) (P : R → bool) (l : list R) x :
  x ∈ id <$> l → x ∉ id <$> filter (λ r, P r = true) l → x ∈ id <$> filter (λ r, P r = false) l.
Proof.
  intros (r & -> & Hr)%list_elem_of_fmap Hx. apply list_elem_of_fmap. exists r. split; [done|]. apply list_elem_of_filter.
  split; [|done]. apply not_true_iff_false. intros HP. apply Hx. apply list_elem_of_fmap. exists r. split; [done|].
  by apply list_elem_of_filter.
Qed.

(** Rows that refer to none of the rows that go. *)
Lemma refs_remaining {R S} (id : R → Z) (P : R → bool) (l : list R) (ref : S → Z) (rows : list S) :
  Forall (λ r, ref r ∈ id <$> l) rows →
  Forall (λ r, ref r ∈ id <$> filter (λ r, P r = false) l) (filter (λ r, ref r ∉ id <$> filter (λ r, P r = true) l) rows).
Proof.
  intros Hf. rewrite Forall_forall in *. intros r [Hn Hr]%list_elem_of_filter. apply ids_remaining; [by apply Hf|done].
Qed.

Lemma cascade_targets_foreign P d : pg_foreign_ok d → pg_foreign_ok (cascade_targets P d).
Proof.
  intros (? & ? & ? & ? & ? & ? & ? & ? & Hm). unfold pg_foreign_ok. cbn. split_and!; try done; [by apply Forall_filtered|].
  by apply refs_remaining.
Qed.
Lemma filter_bool_decide {R} (P : R → Prop) `{!∀ x, Decision (P x)} (l : list R) :
  filter (λ r, bool_decide (P r) = false) l = filter (λ r, ¬ P r) l.
Proof. apply filter_iff_in. intros r _. apply bool_decide_eq_false. Qed.

Lemma cascade_networks_foreign P d : pg_foreign_ok d → pg_foreign_ok (cascade_networks P d).
Proof.
  intros Hd. assert (pg_foreign_ok (cascade_targets (λ t, bool_decide (tr_network t ∈ nr_id <$> filter (λ n, P n = true) (pt_Network d))) d))
    as Ht by by apply cascade_targets_foreign.
  destruct Ht as (Hu & Hc & ? & Hdr & Hr & Hpu & Hp & Ht & Hm). unfold pg_foreign_ok. cbn in *.
  split_and!; try done; try by apply refs_remaining.
  - by apply Forall_filtered.
  - by apply Forall_filtered.
  - rewrite Forall_forall in *. intros r [Hn Hin]%list_elem_of_filter. specialize (Hp r Hin). destruct (pgp_network r) as [n|]; [|done].
    apply ids_remaining; [done|]. intros Hg. apply Hn. by apply list_elem_of_fmap_2.
  - rewrite filter_bool_decide in *. apply refs_remaining. by destruct Hd as (_ & _ & _ & _ & _ & _ & _ & ? & _).
Qed.
Lemma cascade_users_foreign P d : pg_foreign_ok d → pg_foreign_ok (cascade_users P d).
Proof.
  intros Hd. pose proof Hd as (Hu & _ & Hc & _ & _ & Hp & _).
  assert (pg_foreign_ok (cascade_networks (λ n, bool_decide (nr_user n ∈ pgu_id <$> filter (λ u, P u = true) (pt_User d))) d))
    as Hn by by apply cascade_networks_foreign.
  destruct Hn as (Hnu & ? & ? & ? & ? & ? & ? & ? & ?). unfold pg_foreign_ok. cbn in *. split_and!; try done; try by apply Forall_filtered.
  - rewrite filter_bool_decide. by apply refs_remaining.
  - by apply refs_remaining.
  - apply refs_remaining. by apply Forall_filtered.
Qed.

(** Rows that go leave the keys unique. *)
Record pg_shrinks (d' d : pgdb) : Prop := {
  psh_User : pt_User d' `sublist_of` pt_User d;
  psh_Network : pt_Network d' `sublist_of` pt_Network d;
  psh_Channel : pt_Channel d' `sublist_of` pt_Channel d;
  psh_DeviceCertificate : pt_DeviceCertificate d' `sublist_of` pt_DeviceCertificate d;
  psh_DeliveryReceipt : pt_DeliveryReceipt d' `sublist_of` pt_DeliveryReceipt d;
  psh_ReadReceipt : pt_ReadReceipt d' `sublist_of` pt_ReadReceipt d;
  psh_WebPushConfig : pt_WebPushConfig d' `sublist_of` pt_WebPushConfig d;
  psh_WebPushSubscription : pt_WebPushSubscription d' `sublist_of` pt_WebPushSubscription d;
  psh_MessageTarget : pt_MessageTarget d' `sublist_of` pt_MessageTarget d;
  psh_Message : pt_Message d' `sublist_of` pt_Message d
}.
Lemma pg_unique_shrinks d' d : pg_shrinks d' d → pg_unique_ok d → pg_unique_ok d'.
Proof.
  intros [] (Hids & ? & ? & ? & ? & ? & ? & ? & ? & ? & ?). unfold pg_unique_ok.
  split_and!; eauto using unique_sublist. eapply Forall_impl; [exact Hids|].
  intros [] Hn; cbn in *; eauto using ids_sublist.
Qed.
Ltac pg_shrink := split; cbn; first [reflexivity | apply filter_sublist | etrans; apply filter_sublist].
Lemma cascade_networks_shrinks P d : pg_shrinks (cascade_networks P d) d.
Proof. pg_shrink. Qed.
Lemma cascade_users_shrinks P d : pg_shrinks (cascade_users P d) d.
Proof. pg_shrink. Qed.

(** ** What the cascades delete *)

Lemma view_push_owned user d n r : push_owned user (pg_view d) → r ∈ pt_WebPushSubscription d →
  pgp_network r = Some n → n ∈ nets_of_user user (pg_view d) → pgp_user r = user.
Proof.
  intros Hp Hr Hn Hin. unfold push_owned in Hp. rewrite Forall_forall in Hp.
  apply (Hp (view_push r)) with (n := n); [|done|done]. by apply list_elem_of_fmap_2.
Qed.

(** The IDs of the rows with an ID. *)
Lemma gone_spec {R} (id : R → Z) (l : list R) i x : x ∈ id <$> l → x ∈ id <$> filter (λ r, (id r =? i) = true) l ↔ x = i.
Proof.
  intros (r & -> & Hr)%list_elem_of_fmap. split.
  - intros (r' & -> & [Hi _]%list_elem_of_filter)%list_elem_of_fmap. by apply Z.eqb_eq.
  - intros Hi. apply list_elem_of_fmap. exists r. split; [done|]. apply list_elem_of_filter. by rewrite Z.eqb_eq.
Qed.
Lemma filter_bool_decide_true {R} (P Q : R → Prop) `{!∀ x, Decision (P x), !∀ x, Decision (Q x)} (l : list R) :
  (∀ r, r ∈ l → P r ↔ Q r) → filter (λ r, bool_decide (P r) = true) l = filter Q l.
Proof. intros Hl. apply filter_iff_in. intros r Hr. by rewrite bool_decide_eq_true, (Hl r Hr). Qed.
Lemma Forall_in {R} (P : R → Prop) (l : list R) r : Forall P l → r ∈ l → P r.
Proof. rewrite Forall_forall. auto. Qed.

Lemma cascade_networks_view id d : pg_foreign_ok d →
  pg_view (cascade_networks (λ n, nr_id n =? id) d) = without_network id (pg_view d).
Proof.
  intros (_ & Hc & _ & Hd & Hr & _ & Hp & Ht & _). set (gone := nr_id <$> filter (λ n, (nr_id n =? id) = true) (pt_Network d)).
  assert (∀ x, x ∈ ids_of TNetwork d → x ∈ gone ↔ x = id) as Hg by (intros x; apply gone_spec).
  assert (filter (λ t, bool_decide (tr_network t ∈ gone) = true) (pt_MessageTarget d) =
    filter (λ t, tr_network t ∈ [id]) (pt_MessageTarget d)) as Htg.
  { apply filter_bool_decide_true. intros t Hin. rewrite list_elem_of_singleton. apply Hg. by apply (Forall_in _ _ _ Ht). }
  unfold pg_view, without_network, cascade_networks, cascade_targets. cbn. fold gone. rewrite Htg. f_equal.
  - apply filter_iff_in. intros n _. by rewrite Z.eqb_neq.
  - apply filter_iff_in. intros c Hin. by rewrite (Hg _ (Forall_in _ _ _ Hc Hin)).
  - apply filter_fmap_view. intros r Hin. by rewrite (Hg _ (Forall_in _ _ _ Hd Hin)).
  - apply filter_fmap_view. intros r Hin. by rewrite (Hg _ (Forall_in _ _ _ Hr Hin)).
  - apply filter_fmap_view. intros r Hin. cbn. pose proof (Forall_in _ _ _ Hp Hin) as Hn. cbn in Hn.
    rewrite list_elem_of_fmap. destruct (pgp_network r) as [n|]; [|naive_solver]. specialize (Hg n Hn). naive_solver.
  - rewrite filter_bool_decide. apply filter_iff_in. intros t Hin. by rewrite (Hg _ (Forall_in _ _ _ Ht Hin)).
  - apply filter_fmap_view. done.
Qed.

Lemma cascade_users_view id d : pg_foreign_ok d → push_owned id (pg_view d) →
  pg_view (cascade_users (λ u, pgu_id u =? id) d) = without_user id (pg_view d).
Proof.
  intros (Hn & _ & Hc & _ & _ & Hp & _) Hown.
  set (gone := pgu_id <$> filter (λ u, (pgu_id u =? id) = true) (pt_User d)).
  assert (∀ x, x ∈ ids_of TUser d → x ∈ gone ↔ x = id) as Hg by (intros x; apply gone_spec).
  assert (nr_id <$> filter (λ n, bool_decide (nr_user n ∈ gone) = true) (pt_Network d) = nets_of_user id (pg_view d)) as Hnets.
  { unfold nets_of_user. f_equal. apply filter_bool_decide_true. intros n Hin. apply Hg. by apply (Forall_in _ _ _ Hn). }
  unfold pg_view at 1, cascade_users, cascade_networks, cascade_targets. cbn. fold gone. rewrite Hnets.
  unfold without_user. cbn. set (nets := nets_of_user id (pg_view d)) in *. f_equal.
  - apply filter_fmap_view. intros u _. by rewrite Z.eqb_neq.
  - rewrite filter_bool_decide. apply filter_iff_in. intros n Hin. by rewrite (Hg _ (Forall_in _ _ _ Hn Hin)).
  - apply filter_fmap_view. intros c Hin. by rewrite (Hg _ (Forall_in _ _ _ Hc Hin)).
  - by apply filter_fmap_view.
  - by apply filter_fmap_view.
  - rewrite list_filter_filter. apply filter_fmap_view. intros r Hin. cbn. rewrite (Hg _ (Forall_in _ _ _ Hp Hin)).
    split; [tauto|]. intros Hne. split; [done|]. intros (n & Hnet & Hin')%list_elem_of_fmap. apply Hne.
    by apply (view_push_owned id d n r).
  - by rewrite filter_bool_decide.
  - apply filter_fmap_view. intros m _. cbn. unfold targets_in. cbn. fold nets.
    by rewrite (filter_bool_decide_true _ (λ r, tr_network r ∈ nets)).
Qed.

(** ** Constraints of the view *)

Lemma unique_view {A B K} `{EqDecision K} (f : A → B) (key : B → option K) (key' : A → option K) (l : list A) :
  (∀ r, key (f r) = None ∨ key (f r) = key' r) → unique key' l → unique key (f <$> l).
Proof.
  intros Hk Hu. eapply sublist_NoDup; [exact Hu|]. clear Hu. induction l as [|r l IH]; [done|]. cbn.
  destruct (Hk r) as [-> | ->].
  - destruct (key' r); [by constructor|done].
  - destruct (key' r); [by constructor|done].
Qed.
Lemma pg_unique_view d : pg_unique_ok d → unique_ok (pg_view d).
Proof.
  intros (Hids & ? & ? & ? & ? & ? & ? & ? & ? & ? & ?).
  assert (∀ t, NoDup (ids_of t d)) as Hid by (intros t; apply (Forall_in _ _ _ Hids); destruct t; set_solver).
  unfold unique_ok. cbn. split_and!; try done.
  all: try (eapply unique_view; [|eassumption]; intros r; cbn; by right).
  all: try by (erewrite fmap_view by done).
  - erewrite fmap_view; [apply (Hid TUser)|done].
  - apply (Hid TNetwork).
  - apply (Hid TChannel).
  - erewrite fmap_view; [apply (Hid TDeviceCertificate)|done].
  - erewrite fmap_view; [apply (Hid TDeliveryReceipt)|done].
  - eapply unique_view; [|eassumption]. intros r. cbn. unfold toNullString. case_decide; [by left|by right].
  - erewrite fmap_view; [apply (Hid TReadReceipt)|done].
  - erewrite fmap_view; [apply (Hid TWebPushConfig)|done].
  - erewrite fmap_view; [apply (Hid TWebPushSubscription)|done].
  - apply (Hid TMessageTarget).
  - erewrite fmap_view; [apply (Hid TMessage)|done].
Qed.
Lemma pg_foreign_view d : pg_foreign_ok d → foreign_ok (pg_view d).
Proof.
  assert (users_of (pg_view d) = ids_of TUser d) as Hu by (unfold users_of; cbn; by erewrite fmap_view).
  intros (? & ? & ? & ? & ? & ? & ? & ? & ?). unfold foreign_ok. rewrite Hu. cbn. split_and!; try done; by apply Forall_fmap.
Qed.
Lemma pg_view_ok s : pg_ok s → db_ok (pg_view (pg_db s)).
Proof. intros []. split; [by apply pg_unique_view|by apply pg_foreign_view]. Qed.

(** ** Deletion *)

Section delete.
Context `{EN : pgengine} `{EN' : engine}.

Lemma pg_send_run args s : pg_fault (pg_count s) = None → args_error args = None →
  pg_send args s = (MkPg (pg_db s) (pg_seq s) (S (pg_count s)), Ok tt).
Proof. intros Hf Ha. unfold pg_send, pg_step, mbind, M_bind. by rewrite Hf, Ha. Qed.
Lemma pg_exec_run args f d' s :
  pg_fault (pg_count s) = None → args_error args = None → f (pg_db s) = Ok d' → pg_unique_ok d' → pg_foreign_ok d' →
  pg_exec args f s = (MkPg d' (pg_seq s) (S (pg_count s)), Ok tt).
Proof.
  intros Hn Ha Hf Hu Hfk. unfold pg_exec. erewrite bind_run by by apply pg_send_run. rewrite bind_gets. cbn [pg_db].
  unfold lift, mbind, M_bind. rewrite Hf. unfold pg_check. by rewrite decide_True, decide_True.
Qed.

Lemma pg_DeleteUser_run id s : pg_ok s → pg_fault (pg_count s) = None → is_int4 id = true →
  pg_DeleteUser id s = (MkPg (cascade_users (λ u, pgu_id u =? id) (pg_db s)) (pg_seq s) (S (pg_count s)), Ok tt).
Proof.
  intros [] Hn Hi. apply pg_exec_run; [done| |done| |].
  - unfold args_error. cbn. by rewrite Hi.
  - eapply pg_unique_shrinks; [apply cascade_users_shrinks|done].
  - by apply cascade_users_foreign.
Qed.
Lemma pg_DeleteNetwork_run id s : pg_ok s → pg_fault (pg_count s) = None → is_int4 id = true →
  pg_DeleteNetwork id s = (MkPg (cascade_networks (λ n, nr_id n =? id) (pg_db s)) (pg_seq s) (S (pg_count s)), Ok tt).
Proof.
  intros [] Hn Hi. apply pg_exec_run; [done| |done| |].
  - unfold args_error. cbn. by rewrite Hi.
  - eapply pg_unique_shrinks; [apply cascade_networks_shrinks|done].
  - by apply cascade_networks_foreign.
Qed.

(** C21: Both back ends delete the same. When no statement is refused, [DeleteUser] and
    [DeleteNetwork] succeed on both databases, PostgreSQL following the references of its schema
    and SQLite with a statement for every table, and databases with the same records before have
    the same records after, in all ten tables; in PostgreSQL no reference is broken on the way. *)
Theorem backends_delete_alike id s c :
  pg_ok s → (∀ n, pg_fault n = None) → (∀ n, en_fault n = None) → is_int4 id = true →
  let q := MkSql (pg_view (pg_db s)) c in
  (push_owned id (sq_db q) →
   ∃ s' q', pg_DeleteUser id s = (s', Ok tt) ∧ DeleteUser id q = (q', Ok tt) ∧ sq_db q' = pg_view (pg_db s')) ∧
  ∃ s' q', pg_DeleteNetwork id s = (s', Ok tt) ∧ DeleteNetwork id q = (q', Ok tt) ∧ sq_db q' = pg_view (pg_db s').
Proof.
  intros Hok Hp He Hid q. pose proof (pg_view_ok s Hok) as Hv. destruct (Hok) as [_ Hf _ _ _]. split.
  - intros Hown. pose proof (DeleteUser_takes id _ Hv Hown q eq_refl) as Hd. destruct (DeleteUser id q) as [q' [[]|e|w]]; [| |done].
    + eexists _, q'. split; [by apply pg_DeleteUser_run|]. split; [done|]. cbn. rewrite (proj1 Hd). by rewrite cascade_users_view.
    + destruct Hd as [_ [n Hn]]. by rewrite He in Hn.
  - pose proof (DeleteNetwork_takes id _ Hv q eq_refl) as Hd. destruct (DeleteNetwork id q) as [q' [[]|e|w]]; [| |done].
    + eexists _, q'. split; [by apply pg_DeleteNetwork_run|]. split; [done|]. cbn. rewrite (proj1 Hd). by rewrite cascade_networks_view.
    + destruct Hd as [_ [n Hn]]. by rewrite He in Hn.
Qed.
End delete.

(** * What the two back ends answer

    Databases with the same records give the same answers, up to the order of rows that nobody
    asked for, and PostgreSQL gives the window of the history that was asked for. Class
    [pg_laws] has what the engine promises. *)

Class pg_laws `(EN : pgengine) : Prop := {
  pg_scan_perm {R} n (l : list R) : pg_scan n l ≡ₚ l;
  pg_asc_perm {R} (key : R → Z) l : pg_asc key l ≡ₚ l;
  pg_asc_sorted {R} (key : R → Z) l : StronglySorted (λ a b, key a ≤ key b) (pg_asc key l);
  pg_desc_perm {R} (key : R → Z) l : pg_desc key l ≡ₚ l;
  pg_desc_sorted {R} (key : R → Z) l : StronglySorted (λ a b, key b ≤ key a) (pg_desc key l);
  pg_timestamp_micros t : t mod 1000 = 0 → pg_timestamp t = t
}.

(** ** Times of whole milliseconds *)

Definition whole_ms (t : Z) : Prop := four_digit_year (t / nsPerDay) ∧ t mod nsPerMs = 0.

Record pg_whole_ms (d : pgdb) : Prop := {
  ms_User : Forall (λ r, match pgu_interacted_at r with Some t => whole_ms t | None => True end) (pt_User d);
  ms_Cert : Forall (λ r, whole_ms (pgc_last_used r)) (pt_DeviceCertificate d);
  ms_Read : Forall (λ r, whole_ms (pgr_timestamp r)) (pt_ReadReceipt d);
  ms_Push : Forall (λ r, whole_ms (pgp_created_at r) ∧ whole_ms (pgp_updated_at r)) (pt_WebPushSubscription d)
}.

Lemma scan_ms_time t : whole_ms t → sqliteTime_Scan (Some (FormatServerTime t)) = Ok t.
Proof. intros [Hy Hm]. cbn. rewrite ParseServerTime_Format by done. rewrite Hm. by rewrite Z.sub_0_r. Qed.

Lemma scan_user_view r :
  match pgu_interacted_at r with Some t => whole_ms t | None => True end → scan_user (view_user r) = Ok (pg_scan_user r).
Proof.
  intros Ht. unfold scan_user, pg_scan_user, view_user. cbn [ur_interacted_at]. destruct (pgu_interacted_at r) as [t|]; [|done].
  cbn [fmap option_fmap option_map]. by rewrite scan_ms_time.
Qed.
Lemma scan_cert_view r : whole_ms (pgc_last_used r) → scan_cert (view_cert r) = Ok (pg_scan_cert r).
Proof. intros Ht. unfold scan_cert, view_cert. cbn [dc_last_used]. by rewrite scan_ms_time. Qed.
Lemma scan_push_view r : whole_ms (pgp_created_at r) ∧ whole_ms (pgp_updated_at r) → scan_push (view_push r) = Ok (pg_scan_push r).
Proof. intros [H1 H2]. unfold scan_push, view_push. cbn [ps_created_at ps_updated_at]. by rewrite !scan_ms_time. Qed.

Lemma mapM_view {A B C} (view : A → B) (scan : B → res goerr C) (pg : A → C) (l : list A) :
  Forall (λ r, scan (view r) = Ok (pg r)) l → mapM scan (view <$> l) = Ok (pg <$> l).
Proof. induction 1 as [|r l Hr _ IH]; [done|]. cbn. rewrite Hr. cbn. by rewrite IH. Qed.

(** ** Answers *)

(** Both succeed, with the same elements. *)
Definition same_elements {A} (x y : res goerr (list A)) : Prop := ∃ l k, x = Ok l ∧ y = Ok k ∧ l ≡ₚ k.

Lemma filter_unique {R K} `{EqDecision K} (key : R → K) (P : R → Prop) `{!∀ x, Decision (P x)} k (l : list R) :
  unique (λ r, Some (key r)) l → (∀ r, P r → key r = k) → filter P l = [] ∨ ∃ r, filter P l = [r].
Proof.
  unfold unique. intros Hu HP. assert (NoDup (key <$> filter P l)) as Hn.
  { eapply sublist_NoDup; [|apply fmap_sublist, (filter_sublist P l)]. clear -Hu.
    replace (key <$> l) with (omap (λ r, Some (key r)) l); [done|]. clear. induction l as [|r l IH]; [done|]. cbn. by rewrite IH. }
  assert (Forall P (filter P l)) as Hf by apply Forall_filter_self. destruct (filter P l) as [|r [|r' l']]; [by left|right; by exists r|].
  exfalso. cbn in Hn. rewrite !Forall_cons in Hf. destruct Hf as (H1 & H2 & _). apply HP in H1, H2. rewrite H1, H2 in Hn.
  apply NoDup_cons in Hn as [Hn _]. apply Hn. by left.
Qed.

Section reads.
Context `{EN : pgengine} `{EN' : engine} `{!pg_laws EN}.
Variables (s : pgState) (q : sqlState).
Hypothesis Hpg : pg_fault (pg_count s) = None.
Hypothesis Hsq : en_fault (sq_count q) = None.
Hypothesis Hview : sq_db q = pg_view (pg_db s).

Lemma pg_query_rows {R} args (f : pgdb → list R) : args_error args = None →
  ∃ s' rows, pg_query args f s = (s', Ok rows) ∧ rows ≡ₚ f (pg_db s).
Proof.
  intros Ha. unfold pg_query. erewrite bind_run by by apply pg_send_run. eexists _, _. split; [reflexivity|]. apply pg_scan_perm.
Qed.
Lemma query_run {A} (f : sqldb → A) : query f q = (MkSql (sq_db q) (S (sq_count q)), Ok (f (sq_db q))).
Proof. unfold query. by erewrite bind_run by by apply step_run. Qed.

(** A list of records. *)
Lemma lists_alike {R R' A} args (f : pgdb → list R) (g : sqldb → list R') (pg : R → A) (scan : R' → res goerr A) (view : R → R') :
  args_error args = None → g (pg_view (pg_db s)) = view <$> f (pg_db s) → Forall (λ r, scan (view r) = Ok (pg r)) (f (pg_db s)) →
  same_elements ((rows ← pg_query args f; mret (pg <$> rows)) s).2 ((rows ← query g; scan_all scan rows) q).2.
Proof.
  intros Ha Hg Hf. destruct (pg_query_rows args f Ha) as (s' & rows & Hrun & Hp). erewrite bind_run by exact Hrun.
  erewrite bind_run by apply query_run. unfold scan_all, lift. rewrite Hview, Hg, (mapM_view _ _ pg) by done.
  exists (pg <$> rows), (pg <$> f (pg_db s)). split_and!; [done..|by rewrite Hp].
Qed.
Lemma lists_alike_pure {R R' A} args (f : pgdb → list R) (g : sqldb → list R') (pg : R → A) (scan : R' → A) (view : R → R') :
  args_error args = None → g (pg_view (pg_db s)) = view <$> f (pg_db s) → (∀ r, scan (view r) = pg r) →
  same_elements ((rows ← pg_query args f; mret (pg <$> rows)) s).2 ((rows ← query g; mret (scan <$> rows)) q).2.
Proof.
  intros Ha Hg Hf. destruct (pg_query_rows args f Ha) as (s' & rows & Hrun & Hp). erewrite bind_run by exact Hrun.
  erewrite bind_run by apply query_run. rewrite Hview, Hg, (fmap_view _ _ pg) by done.
  exists (pg <$> rows), (pg <$> f (pg_db s)). split_and!; [done..|by rewrite Hp].
Qed.

(** A row that is alone. *)
Lemma single_row {R} args (f : pgdb → list R) : args_error args = None → f (pg_db s) = [] ∨ (∃ r, f (pg_db s) = [r]) →
  ∃ s', pg_query args f s = (s', Ok (f (pg_db s))).
Proof.
  intros Ha Hone. destruct (pg_query_rows args f Ha) as (s' & rows & Hrun & Hp). exists s'. rewrite Hrun. repeat f_equal.
  destruct Hone as [Hz|[r Hr]]; rewrite ?Hz, ?Hr in *; [by apply Permutation_nil_r|by apply Permutation_singleton_r].
Qed.
End reads.

Lemma int_arg id : is_int4 id = true → args_error [AInt id] = None.
Proof. intros Hi. unfold args_error. cbn. by rewrite Hi. Qed.
Lemma int_int_arg id id' : is_int4 id = true → is_int4 id' = true → args_error [AInt id; AInt id'] = None.
Proof. intros Hi Hi'. unfold args_error. cbn. by rewrite Hi, Hi'. Qed.
Lemma text_arg x : is_text x = true → args_error [AText x] = None.
Proof. intros Hx. unfold args_error. cbn. by rewrite Hx. Qed.
Lemma int_text_arg id x : is_int4 id = true → is_text x = true → args_error [AInt id; AText x] = None.
Proof. intros Hi Hx. unfold args_error. cbn. by rewrite Hi, Hx. Qed.

Section single.
Context `{EN : pgengine} `{EN' : engine} `{!pg_laws EN}.
Variables (s : pgState) (q : sqlState) (id : Z) (name : string).
Hypothesis Hok : pg_unique_ok (pg_db s).
Hypothesis Hms : pg_whole_ms (pg_db s).
Hypothesis Hview : sq_db q = pg_view (pg_db s).
Hypothesis Hp : pg_fault (pg_count s) = None.
Hypothesis He : en_fault (sq_count q) = None.
Hypothesis Hi : is_int4 id = true.
Hypothesis Hn : is_text name = true.

Lemma get_user_alike : (pg_GetUser name s).2 = (GetUser name q).2.
Proof.
  destruct Hok as (_ & Hu & _). destruct Hms as [Hmu _ _ _].
  set (f := λ d, filter (λ r, pgu_username r = name) (pt_User d)).
  assert (f (pg_db s) = [] ∨ ∃ r, f (pg_db s) = [r]) as Hone by (apply (filter_unique pgu_username _ name); done).
  destruct (single_row s Hp [AText name] f (text_arg _ Hn) Hone) as [s' Hrun].
  unfold pg_GetUser, GetUser, pg_query_row, query_row. fold f.
  assert (filter (λ r, ur_username r = name) (t_User (sq_db q)) = view_user <$> f (pg_db s)) as Hf
    by (rewrite Hview; symmetry; by apply filter_fmap_view).
  assert (Forall (λ r, scan_user (view_user r) = Ok (pg_scan_user r) ∧ pgu_username r = name) (f (pg_db s))) as Hs.
  { apply Forall_and. split; [|apply Forall_filter_self]. apply Forall_filtered. eapply Forall_impl; [exact Hmu|]. apply scan_user_view. }
  unfold mbind at 1 2 3 4, M_bind at 1 2 3 4. rewrite Hrun. rewrite (query_run q He). rewrite Hf.
  destruct Hone as [Hz|[r Hr1]]; rewrite ?Hz, ?Hr1 in *; [done|]. cbn [fmap list_fmap]. apply Forall_cons in Hs as [[Hs <-] _].
  unfold lift, mret, M_ret. by rewrite Hs.
Qed.
Lemma get_read_alike : (pg_GetReadReceipt id name s).2 = (GetReadReceipt id name q).2.
Proof.
  destruct Hok as (_ & _ & _ & _ & _ & _ & _ & Hr & _). destruct Hms as [_ _ Hmr _].
  set (f := λ d, filter (λ r, pgr_network r = id ∧ pgr_target r = name) (pt_ReadReceipt d)).
  assert (f (pg_db s) = [] ∨ ∃ r, f (pg_db s) = [r]) as Hone.
  { apply (filter_unique (λ r, (pgr_network r, pgr_target r)) _ (id, name)); [done|]. by intros r [-> ->]. }
  destruct (single_row s Hp [AInt id; AText name] f (int_text_arg _ _ Hi Hn) Hone) as [s' Hrun].
  unfold pg_GetReadReceipt, GetReadReceipt. fold f.
  assert (filter (λ r, rr_network r = id ∧ rr_target r = name) (t_ReadReceipt (sq_db q)) = view_read <$> f (pg_db s)) as Hf
    by (rewrite Hview; symmetry; by apply filter_fmap_view).
  assert (Forall (λ r, whole_ms (pgr_timestamp r)) (f (pg_db s))) as Hs by by apply Forall_filtered.
  unfold mbind at 1 2, M_bind at 1 2. rewrite Hrun, (query_run q He), Hf.
  destruct Hone as [Hz|[r Hr1]]; rewrite ?Hz, ?Hr1 in *; [done|]. cbn [fmap list_fmap rr_timestamp view_read].
  apply Forall_cons in Hs as [Hs _]. by rewrite scan_ms_time.
Qed.
Lemma get_target_alike : (pg_GetMessageTarget id name s).2 = (GetMessageTarget id name q).2.
Proof.
  destruct Hok as (_ & _ & _ & _ & _ & _ & _ & _ & _ & _ & Ht).
  assert (pg_targets id name (pg_db s) = [] ∨ ∃ r, pg_targets id name (pg_db s) = [r]) as Hone.
  { apply (filter_unique (λ r, (tr_network r, tr_target r)) _ (id, name)); [done|]. by intros r [-> ->]. }
  destruct (single_row s Hp [AInt id; AText name] _ (int_text_arg _ _ Hi Hn) Hone) as [s' Hrun].
  unfold pg_GetMessageTarget, GetMessageTarget. erewrite bind_run by exact Hrun. erewrite bind_run by by apply query_run.
  by rewrite Hview.
Qed.
End single.

(** C22: Both back ends answer the same. Asked about the same records, with times of whole
    milliseconds, PostgreSQL and SQLite list the same users, networks, channels, certificates,
    receipts, subscriptions and targets, PostgreSQL in an order of its own, and find the same
    user, read receipt and target, or none. The IDs are integers of PostgreSQL and the names
    texts it can hold. *)
Theorem backends_read_alike `{EN : pgengine, EN' : engine, !pg_laws EN} s q id id' name :
  pg_ok s → pg_whole_ms (pg_db s) → sq_db q = pg_view (pg_db s) →
  pg_fault (pg_count s) = None → en_fault (sq_count q) = None →
  is_int4 id = true → is_int4 id' = true → is_text name = true →
  same_elements (pg_ListUsers s).2 (ListUsers q).2 ∧
  same_elements (pg_ListNetworks id s).2 (ListNetworks id q).2 ∧
  same_elements (pg_ListChannels id s).2 (ListChannels id q).2 ∧
  same_elements (pg_ListDeviceCertificates id s).2 (ListDeviceCertificates id q).2 ∧
  same_elements (pg_ListDeliveryReceipts id s).2 (ListDeliveryReceipts id q).2 ∧
  same_elements (pg_ListWebPushSubscriptions id id' s).2 (ListWebPushSubscriptions id id' q).2 ∧
  same_elements (pg_ListMessageTargets id s).2 (ListMessageTargets id q).2 ∧
  (pg_GetUser name s).2 = (GetUser name q).2 ∧
  (pg_GetReadReceipt id name s).2 = (GetReadReceipt id name q).2 ∧
  (pg_GetMessageTarget id name s).2 = (GetMessageTarget id name q).2.
Proof.
  intros Hok Hms Hview Hp He Hi Hi' Hn. destruct Hok as [Huniq _ _ _ _].
  pose proof Hms as [Hmu Hmc _ Hmp]. split_and!.
  - apply (lists_alike s q Hp He Hview _ _ _ _ _ view_user); [done|done|]. eapply Forall_impl; [exact Hmu|]. apply scan_user_view.
  - apply (lists_alike_pure s q Hp He Hview _ _ _ _ _ Datatypes.id); [by apply int_arg| |done]. by rewrite list_fmap_id.
  - apply (lists_alike_pure s q Hp He Hview _ _ _ _ _ Datatypes.id); [by apply int_arg| |done]. by rewrite list_fmap_id.
  - apply (lists_alike s q Hp He Hview _ _ _ _ _ view_cert); [by apply int_arg|symmetry; by apply filter_fmap_view|].
    apply Forall_filtered. eapply Forall_impl; [exact Hmc|]. apply scan_cert_view.
  - apply (lists_alike_pure s q Hp He Hview _ _ _ _ _ view_delivery); [by apply int_arg|symmetry; by apply filter_fmap_view|].
    intros r. unfold scan_delivery. cbn. by rewrite NullString_to.
  - apply (lists_alike s q Hp He Hview _ _ _ _ _ view_push); [by apply int_int_arg|symmetry; by apply filter_fmap_view|].
    apply Forall_filtered. eapply Forall_impl; [exact Hmp|]. apply scan_push_view.
  - apply (lists_alike_pure s q Hp He Hview _ _ _ _ _ Datatypes.id); [by apply int_arg| |done]. by rewrite list_fmap_id.
  - by apply get_user_alike.
  - by apply get_read_alike.
  - by apply get_target_alike.
Qed.
