(* ===== verification/PgHistory.v ===== *)
(** * Messages and records in the PostgreSQL database

    [StoreMessages] appends to the messages of one target or changes nothing, and [ListMessages]
    answers the window of them that was asked for.
    The second part is about the other records: what the methods that store them do to the lists
    that the others answer. The third is about the metric of networks per host. *)

From S2P Require Import Prelude GoStrings GoUnicode IrcMessage Effects GenMsg GoTime Database Downstream UserNetworks SqlTables Sqlite SqliteDelete SqliteSpec SqliteRecords Postgres PgInv PgBackends.

Open Scope string_scope.
Open Scope list_scope.
Open Scope Z_scope.

(** ** Storing *)

Section store.
Context `{EN : pgengine} `{LE : sqlenv}.

Lemma pg_send_ok args s s' : pg_send args s = (s', Ok tt) → args_error args = None ∧ s' = MkPg (pg_db s) (pg_seq s) (S (pg_count s)).
Proof.
  unfold pg_send, pg_step, mbind, M_bind. destruct (pg_fault (pg_count s)); [done|]. destruct (args_error args); [done|]. by intros [= <-].
Qed.
Lemma pg_insert_ok t args f s s' id : pg_insert t args f s = (s', Ok id) →
  ∃ d', f id (pg_db s) = Ok d' ∧ pg_db s' = d' ∧ id = pg_seq s t + 1 ∧ args_error args = None.
Proof.
  unfold pg_insert. unfold mbind at 1, M_bind at 1. destruct (pg_send args s) as [s1 [[]|e|w]] eqn:Hsend; [|done|done].
  apply pg_send_ok in Hsend as [Ha ->]. unfold nextval. rewrite bind_assoc, bind_gets. cbn [pg_seq].
  destruct (pg_seq s t <? int4_max); [|done]. rewrite bind_assoc, bind_modify, bind_ret, bind_gets. cbn [pg_db].
  unfold lift, mbind, M_bind. destruct (f _ (pg_db s)) as [d'|e|w] eqn:Hf; [|done|done]. unfold pg_check.
  destruct (decide (pg_unique_ok d')); [|done]. destruct (decide (pg_foreign_ok d')); [|done]. intros [= <- <-].
  by exists d'.
Qed.

(** The row of a message. *)
Record pg_stored (m : Message) (r : pgMessageRow) : Prop := {
  sd_raw : pgm_raw r = pg_raw m;
  sd_text : pgm_text r = message_text m;
  sd_sender : ∃ p, MPrefix m = Some p ∧ pgm_sender r = Name p;
  sd_time : ∃ now t, message_time m now = Ok t ∧ pgm_time r = pg_timestamp t
}.

Lemma pg_insert_message_ok net name m s s' id : pg_insert_message net name m s = (s', Ok id) →
  ∃ t r, head (pg_targets net name (pg_db s)) = Some t ∧ pg_stored m r ∧ pgm_id r = id ∧ pgm_target r = tr_id t ∧
    pg_db s' = put_Message (pt_Message (pg_db s) ++ [r]) (pg_db s).
Proof.
  unfold pg_insert_message, pg_clock. rewrite bind_gets. unfold lift, mbind at 1, M_bind at 1.
  destruct (message_time m _) as [t|e|w] eqn:Htime; [|done|done]. unfold mbind at 1, M_bind at 1.
  destruct (MPrefix m) as [p|] eqn:Hp; [|done]. cbn [mret M_ret]. rewrite bind_gets.
  destruct (pg_targets net name (pg_db s)) as [|tr l].
  - unfold mbind, M_bind. by destruct (pg_send _ s) as [? [[]|e|w]].
  - intros (d' & [= <-] & Hdb & _)%pg_insert_ok. exists tr, (MkPgMessage id (tr_id tr) (pg_raw m) (pg_timestamp t) (Name p) (message_text m)).
    split_and!; [done| |done|done|exact Hdb]. split; [done|done|by exists p|by eexists _, t].
Qed.

Lemma pg_targets_put net name rows d : pg_targets net name (put_Message rows d) = pg_targets net name d.
Proof. done. Qed.

Lemma pg_insert_messages_ok net name msgs s s' ids : mapM (pg_insert_message net name) msgs s = (s', Ok ids) →
  ∃ rows, Forall2 pg_stored msgs rows ∧ pgm_id <$> rows = ids ∧ pg_db s' = put_Message (pt_Message (pg_db s) ++ rows) (pg_db s) ∧
    Forall (λ r, (tr_id <$> head (pg_targets net name (pg_db s))) = Some (pgm_target r)) rows.
Proof.
  revert s ids. induction msgs as [|m msgs IH]; intros s ids Hrun.
  { injection Hrun as <- <-. exists []. split_and!; [done..| |done]. rewrite app_nil_r. by destruct s as [[]]. }
  cbn in Hrun. unfold mbind at 1, M_bind at 1 in Hrun.
  destruct (pg_insert_message net name m s) as [s1 [id|e|w]] eqn:Hm; [|done|done]. unfold mbind, M_bind in Hrun.
  destruct (mapM (pg_insert_message net name) msgs s1) as [s2 [ids'|e|w]] eqn:Hms; [|done|done]. injection Hrun as <- <-.
  apply pg_insert_message_ok in Hm as (t & r & Ht & Hr & Hid & Htr & Hdb).
  apply IH in Hms as (rows & Hrows & Hids & Hdb2 & Htg). rewrite Hdb in Hdb2, Htg. rewrite pg_targets_put in Htg.
  exists (r :: rows). split_and!.
  - by constructor.
  - cbn. by rewrite Hid, Hids.
  - rewrite Hdb2. cbn. by rewrite <-app_assoc.
  - constructor; [|done]. rewrite Ht. cbn. by rewrite Htr.
Qed.
End store.

(** ** Targets *)

Lemma filter_every {R} (P : R → Prop) `{!∀ x, Decision (P x)} (l : list R) : Forall P l → filter P l = l.
Proof. induction 1 as [|r l Hr _ IH]; [done|]. by rewrite filter_cons, decide_True, IH. Qed.
Lemma filter_no {R} (P : R → Prop) `{!∀ x, Decision (P x)} (l : list R) : Forall (λ r, ¬ P r) l → filter P l = [].
Proof. induction 1 as [|r l Hr _ IH]; [done|]. by rewrite filter_cons, decide_False, IH. Qed.

Lemma pg_messages_iff net name d m :
  m ∈ pg_messages_of net name d ↔ m ∈ pt_Message d ∧ ∃ t, t ∈ pt_MessageTarget d ∧ tr_id t = pgm_target m ∧ tr_network t = net ∧ tr_target t = name.
Proof.
  unfold pg_messages_of, pg_targets. rewrite list_elem_of_filter, list_elem_of_fmap.
  split; [intros [(t & Hid & [[Hn Hna] Ht]%list_elem_of_filter) Hm]|intros [Hm (t & Ht & Hid & Hn & Hna)]]; [naive_solver|].
  split; [|done]. exists t. by rewrite list_elem_of_filter.
Qed.

(** An ID names one target. *)
Lemma target_id_inj d t t' : NoDup (ids_of TMessageTarget d) → t ∈ pt_MessageTarget d → t' ∈ pt_MessageTarget d → tr_id t = tr_id t' → t = t'.
Proof.
  cbn. intros Hn (i & Hi)%list_elem_of_lookup (j & Hj)%list_elem_of_lookup Hid.
  assert (i = j) as <-; [|congruence]. eapply NoDup_lookup; [exact Hn| |]; rewrite list_lookup_fmap; [by rewrite Hi|by rewrite Hj, Hid].
Qed.

(** The target of the messages, new or not. *)
Definition with_target (id net : Z) (name : string) (d : pgdb) : pgdb :=
  if decide ((net, name) ∈ ((λ t, (tr_network t, tr_target t)) <$> pt_MessageTarget d)) then d
  else put_MessageTarget (pt_MessageTarget d ++ [MkTargetRow id net name false false false]) d.

(** A new target has no messages, and the others keep theirs. *)
Lemma with_target_messages id net name d net' name' :
  pg_foreign_ok d → id ∉ ids_of TMessageTarget d → pg_messages_of net' name' (with_target id net name d) = pg_messages_of net' name' d.
Proof.
  intros (_ & _ & _ & _ & _ & _ & _ & _ & Hm) Hid. unfold with_target. case_decide; [done|]. unfold pg_messages_of, pg_targets. cbn.
  apply filter_iff_in. intros m Hin. rewrite filter_app, fmap_app, elem_of_app. split; [|by left]. intros [?|Hnew]; [done|].
  apply list_elem_of_fmap in Hnew as (t & Ht & [_ ->%list_elem_of_singleton]%list_elem_of_filter). cbn in Ht.
  destruct Hid. rewrite <-Ht. by apply (Forall_in _ _ _ Hm).
Qed.

(** Rows for one target. *)
Lemma pg_messages_append rows net name net' name' d t :
  NoDup (ids_of TMessageTarget d) → t ∈ pg_targets net name d → Forall (λ r, pgm_target r = tr_id t) rows →
  pg_messages_of net' name' (put_Message (pt_Message d ++ rows) d) =
  pg_messages_of net' name' d ++ (if decide ((net', name') = (net, name)) then rows else []).
Proof.
  intros Hn [[<- <-] Ht]%list_elem_of_filter Hr. unfold pg_messages_of. rewrite pg_targets_put. cbn [pt_Message put_Message]. rewrite filter_app. f_equal.
  case_decide as Heq.
  - injection Heq as -> ->. apply filter_every. eapply Forall_impl; [exact Hr|]. intros r ->. apply list_elem_of_fmap_2.
    by apply list_elem_of_filter.
  - apply filter_no. eapply Forall_impl; [exact Hr|]. intros r -> (t' & Hid & [[? ?] Ht']%list_elem_of_filter)%list_elem_of_fmap.
    apply Heq. assert (t = t') as <- by by apply (target_id_inj d). by subst.
Qed.

Section history.
Context `{EN : pgengine} `{LE : sqlenv}.

Lemma pg_transaction_ok {A} (m : PG A) s s' a : pg_transaction m s = (s', Ok a) →
  ∃ s1 s2, s1 = MkPg (pg_db s) (pg_seq s) (S (pg_count s)) ∧ m s1 = (s2, Ok a) ∧ pg_db s' = pg_db s2.
Proof.
  unfold pg_transaction. destruct ((pg_step ;; _) s) as [s3 [b|e|w]] eqn:Hr; [|done|done]. intros [= <- <-]. revert Hr.
  unfold mbind at 1, M_bind at 1, pg_step at 1. destruct (pg_fault (pg_count s)); [done|]. unfold mbind at 1, M_bind at 1.
  destruct (m _) as [s2 [c|e|w]] eqn:Hm; [|done|done]. unfold pg_step, mbind, M_bind. destruct (pg_fault (pg_count s2)); [done|].
  intros [= <- <-]. by eexists _, s2.
Qed.
Lemma pg_transaction_err {A} (m : PG A) s s' r : pg_transaction m s = (s', r) → (∀ a, r ≠ Ok a) → pg_db s' = pg_db s.
Proof.
  unfold pg_transaction. destruct ((pg_step ;; _) s) as [s3 [b|e|w]]; intros [= <- <-] Hr; [by destruct (Hr b)|done|done].
Qed.

(** [StoreMessages] appends a row for every message, or changes nothing. *)
Lemma pg_StoreMessages_rows net name msgs s :
  pg_ok s →
  match pg_StoreMessages net name msgs s with
  | (s', Ok ids) => ∃ rows, Forall2 pg_stored msgs rows ∧ pgm_id <$> rows = ids ∧ pt_Message (pg_db s') = pt_Message (pg_db s) ++ rows ∧
      ∀ net' name', pg_messages_of net' name' (pg_db s') =
        pg_messages_of net' name' (pg_db s) ++ (if decide ((net', name') = (net, name)) then rows else [])
  | (s', _) => pg_db s' = pg_db s
  end.
Proof.
  intros Hok. pose proof (pres_StoreMessages (pg_seq s) net name msgs s (pg_inv_self s Hok)) as [Hok' _].
  destruct (pg_StoreMessages net name msgs s) as [s' [ids|e|w]] eqn:Hrun; cbn in Hok';
    [|destruct msgs; [done|by eapply pg_transaction_err]..].
  destruct msgs as [|m0 msgs0]; [injection Hrun as <- <-; exists []; rewrite app_nil_r; split_and!; [done..|]; intros; case_decide; by rewrite app_nil_r|].
  apply pg_transaction_ok in Hrun as (s1 & s2 & -> & Hbody & Hdb). revert Hbody. set (msgs := m0 :: msgs0).
  unfold mbind at 1, M_bind at 1. destruct (pg_insert_target net name _) as [s3 [id|e|w]] eqn:Ht; [|done|done].
  apply pg_insert_ok in Ht as (d' & [= <-] & Hd3 & Hid & _). cbn [pg_db pg_seq] in Hid, Hd3.
  fold (with_target id net name (pg_db s)) in Hd3. unfold mbind at 1, M_bind at 1, pg_step at 1.
  destruct (pg_fault (pg_count s3)); [done|]. intros (rows & Hrows & Hids & Hd2 & Htg)%pg_insert_messages_ok.
  cbn [pg_db] in Hd2, Htg. rewrite Hd3 in Hd2, Htg. exists rows.
  assert (id ∉ ids_of TMessageTarget (pg_db s)) as Hfresh by (intros Hin; apply (ok_ids s Hok) in Hin; lia).
  assert (NoDup (ids_of TMessageTarget (with_target id net name (pg_db s)))) as Hnd.
  { destruct Hok' as [(Hids' & _) _ _ _ _]. rewrite Hdb, Hd2 in Hids'.
    apply (Forall_in _ _ TMessageTarget Hids'). cbn. set_solver. }
  assert (pt_Message (with_target id net name (pg_db s)) = pt_Message (pg_db s)) as Hmsg by (unfold with_target; by case_decide).
  split_and!; [done|done|by rewrite Hdb, Hd2; cbn; rewrite Hmsg|]. intros net' name'. rewrite Hdb, Hd2.
  rewrite <-(with_target_messages id net name (pg_db s) net' name' (ok_foreign s Hok) Hfresh).
  destruct rows as [|r rs]; [by inversion Hrows|].
  destruct (head (pg_targets net name (with_target id net name (pg_db s)))) as [t|] eqn:Hhead; [|by apply Forall_cons in Htg as [[=] _]].
  apply (pg_messages_append _ net name _ _ _ t); [done|by apply head_Some_elem_of|]. eapply Forall_impl; [exact Htg|]. by intros x [=].
Qed.

(** ** Listing *)

(** The messages [MessageOptions] asks for. *)
Definition pg_wanted (o : MessageOptions) (m : pgMessageRow) : Prop :=
  (0 < moAfterID o → moAfterID o < pgm_id m) ∧
  (moAfterTime o ≠ zeroTime → moAfterTime o < pgm_time m) ∧
  (moBeforeTime o ≠ zeroTime → pgm_time m < moBeforeTime o) ∧
  (moSender o ≠ "" → pgm_sender m = moSender o) ∧
  (moText o ≠ "" → ∃ text, pgm_text m = Some text ∧ pg_tsmatch text (moText o) = true) ∧
  (moEvents o = false → pgm_text m ≠ None).

(** Options of a client: the engine can hold their values. *)
Record pg_options (o : MessageOptions) : Prop := {
  po_id : is_int4 (moAfterID o) = true;
  po_after : moAfterTime o mod 1000 = 0;
  po_before : moBeforeTime o mod 1000 = 0;
  po_limit : 0 ≤ moLimit o;
  po_sender : is_text (moSender o) = true;
  po_text : is_text (moText o) = true
}.

Lemma pg_matches_spec `{!pg_laws EN} o m : pg_options o → pg_matches o m = true ↔ pg_wanted o m.
Proof.
  intros [_ Ha Hb _ _ _]. unfold pg_matches, pg_within, pg_wanted, IsZero. rewrite !pg_timestamp_micros by done.
  rewrite !andb_true_iff, !orb_true_iff, !bool_decide_eq_true, !Z.eqb_eq, !Z.ltb_lt.
  assert ((if 0 <? moAfterID o then moAfterID o <? pgm_id m else true) = true ↔ (0 < moAfterID o → moAfterID o < pgm_id m)) as ->.
  { destruct (Z.ltb_spec 0 (moAfterID o)); [rewrite Z.ltb_lt; tauto|split; [lia|done]]. }
  assert (match pgm_text m with Some text => pg_tsmatch text (moText o) | None => false end = true ↔
    ∃ text, pgm_text m = Some text ∧ pg_tsmatch text (moText o) = true) as -> by (destruct (pgm_text m); naive_solver).
  destruct (decide (moAfterTime o = zeroTime)), (decide (moBeforeTime o = zeroTime)), (decide (moSender o = "")), (decide (moText o = "")),
    (moEvents o); naive_solver.
Qed.

Lemma pg_take_last_window `{!pg_laws EN} {R} o (key : R → Z) rows : 0 ≤ moLimit o →
  window (moTakeLast o) (moLimit o) (λ a b, key a ≤ key b) rows (reversed o (pg_take_last o key rows)).
Proof.
  intros Hl. unfold reversed, pg_take_last.
  assert (∀ l : list R, take (Z.to_nat (moLimit o)) l = limit (moLimit o) l) as Hlim
    by (intros l; unfold limit; by rewrite (proj2 (Z.ltb_ge _ _)) by done).
  rewrite Hlim. destruct (moTakeLast o).
  - apply last_window; [apply pg_desc_perm|apply pg_desc_sorted].
  - apply first_window; [apply pg_asc_perm|apply pg_asc_sorted].
Qed.

Lemma pg_mapM_scan rows :
  Forall (λ m, is_Some (sq_ParseMessage (pgm_raw m))) rows →
  ∃ msgs, mapM pg_scan_message rows = Ok msgs ∧ Forall2 (λ m msg, sq_ParseMessage (pgm_raw m) = Some msg) rows msgs.
Proof.
  induction 1 as [|m rows [msg Hm] _ (msgs & Hl & Hf)]; [by exists []|]. exists (msg :: msgs).
  assert (pg_scan_message m = Ok msg) as Hs by (unfold pg_scan_message; by rewrite Hm). cbn. rewrite Hs. cbn. rewrite Hl. cbn.
  split; [done|]. by constructor.
Qed.
Lemma pg_list_args net name o : is_int4 net = true → is_text name = true → pg_options o →
  args_error ([AInt net; AText name] ++ (if 0 <? moAfterID o then [AInt (moAfterID o)] else []) ++ [AText (moSender o); AText (moText o)]) = None.
Proof.
  intros Hi Hn [Hid _ _ _ Hs Ht]. unfold args_error. destruct (0 <? moAfterID o); cbn; rewrite Hi, Hn, ?Hid, Hs, Ht; done.
Qed.

Lemma pg_ListMessages_window `{!pg_laws EN} net name o s :
  pg_fault (pg_count s) = None → is_int4 net = true → is_text name = true → pg_options o →
  Forall (λ m, is_Some (sq_ParseMessage (pgm_raw m))) (pt_Message (pg_db s)) →
  ∃ s' all rows msgs,
    pg_ListMessages net name o s = (s', Ok msgs) ∧ Forall2 (λ m msg, sq_ParseMessage (pgm_raw m) = Some msg) rows msgs ∧
    window (moTakeLast o) (moLimit o) (λ a b, pgm_time a ≤ pgm_time b) all rows ∧
    all `sublist_of` pg_messages_of net name (pg_db s) ∧
    (∀ m, m ∈ all ↔ m ∈ pg_messages_of net name (pg_db s) ∧ pg_wanted o m).
Proof.
  intros Hf Hi Hn Ho Hp. set (all := filter (λ m, pg_matches o m = true) (pg_messages_of net name (pg_db s))).
  pose proof (pg_take_last_window o pgm_time all (po_limit o Ho)) as Hw. set (rows := pg_take_last o pgm_time all) in *.
  assert (∀ m, m ∈ rows → is_Some (sq_ParseMessage (pgm_raw m))) as Hrows.
  { intros m Hm. apply (Forall_in _ _ _ Hp). destruct Hw as [_ _ (rest & Hperm & _)].
    assert (m ∈ all) as Hall; [|by apply list_elem_of_filter in Hall as [_ [_ ?]%list_elem_of_filter]].
    rewrite <-Hperm. apply elem_of_app. left. unfold reversed. destruct (moTakeLast o); [|done]. by rewrite <-Permutation_rev. }
  destruct (pg_mapM_scan rows) as (msgs & Hscan & Hparse); [by apply Forall_forall|].
  eexists _, all, (reversed o rows), (reversed o msgs). split_and!; [|by apply Forall2_reversed|done|apply filter_sublist|].
  - unfold pg_ListMessages. erewrite bind_run by (apply pg_send_run; [done|by apply pg_list_args]).
    unfold pg_limited. rewrite (proj2 (Z.ltb_ge _ _)) by apply Ho. rewrite bind_ret, bind_gets. cbn [pg_db]. fold all rows.
    unfold lift, mbind, M_bind. rewrite Hscan. reflexivity.
  - intros m. unfold all. rewrite list_elem_of_filter, pg_matches_spec by done. tauto.
Qed.

(** C23: PostgreSQL keeps the history. When [StoreMessages] succeeds, for messages whose text can be
    parsed back, it answers the IDs of new rows, one for each message with its text, sender and
    time, and [ListMessages] of the target then returns, parsed and in the order of their times,
    the earliest or the latest of the old and new messages that the options want, as many as the
    limit allows; the messages of every other target are as they were. When it fails, at
    whichever message, nothing is stored. *)
Theorem postgres_history `{!pg_laws EN} net name msgs o s :
  pg_ok s → (∀ n, pg_fault n = None) → is_int4 net = true → is_text name = true → pg_options o →
  Forall (λ m, is_Some (sq_ParseMessage (pgm_raw m))) (pt_Message (pg_db s)) →
  Forall (λ m, is_Some (sq_ParseMessage (pg_raw m))) msgs →
  match pg_StoreMessages net name msgs s with
  | (s', Ok ids) =>
    ∃ new s'' all rows answer,
      Forall2 pg_stored msgs new ∧ pgm_id <$> new = ids ∧
      pg_ListMessages net name o s' = (s'', Ok answer) ∧
      Forall2 (λ m msg, sq_ParseMessage (pgm_raw m) = Some msg) rows answer ∧
      window (moTakeLast o) (moLimit o) (λ a b, pgm_time a ≤ pgm_time b) all rows ∧
      all `sublist_of` pg_messages_of net name (pg_db s) ++ new ∧
      (∀ m, m ∈ all ↔ m ∈ pg_messages_of net name (pg_db s) ++ new ∧ pg_wanted o m) ∧
      ∀ net' name', (net', name') ≠ (net, name) → pg_messages_of net' name' (pg_db s') = pg_messages_of net' name' (pg_db s)
  | (s', _) => pg_db s' = pg_db s
  end.
Proof.
  intros Hok Hf Hi Hn Ho Hold Hnew. pose proof (pg_StoreMessages_rows net name msgs s Hok) as Hs.
  destruct (pg_StoreMessages net name msgs s) as [s' [ids|e|w]]; [|done|done]. destruct Hs as (new & Hst & Hids & Hall & Hmsgs).
  assert (Forall (λ m, is_Some (sq_ParseMessage (pgm_raw m))) (pt_Message (pg_db s'))) as Hp.
  { rewrite Hall. apply Forall_app. split; [done|]. clear -Hst Hnew. induction Hst as [|m r msgs new Hr _ IH]; [constructor|].
    apply Forall_cons in Hnew as [Hm Hnew]. constructor; [by rewrite (sd_raw m r Hr)|by apply IH]. }
  destruct (pg_ListMessages_window net name o s' (Hf _) Hi Hn Ho Hp) as (s'' & all & rows & answer & Hrun & Hans & Hw & Hsub & Hin).
  pose proof (Hmsgs net name) as Hm. rewrite decide_True in Hm by done. rewrite Hm in Hsub, Hin.
  exists new, s'', all, rows, answer. split_and!; try done. intros net' name' Hne. rewrite Hmsgs, decide_False by done. by rewrite app_nil_r.
Qed.
End history.

(** * The records the methods keep

    What the methods of [PostgresDB] that store a record do to the records that the others list:
    the new record takes the place of the old one, or comes last with the next ID of its
    sequence, and nothing else changes. *)

(** ** Records *)

(** Records with the ID of their owner: the user, or the network. *)
Record pgRecords := MkRecords {
  rc_users : list dbUser; rc_networks : list (Z * dbNetwork); rc_channels : list (Z * dbChannel);
  rc_certs : list (Z * DeviceCertificate); rc_deliveries : list (Z * DeliveryReceipt);
  rc_reads : list (Z * ReadReceipt); rc_targets : list (Z * MessageTarget)
}.

Definition delivery_of (r : pgDeliveryRow) : DeliveryReceipt := MkReceipt (pgd_id r) (pgd_target r) (pgd_client r) (pgd_internal_msgid r).
Definition read_of (r : pgReadRow) : ReadReceipt := MkReadReceipt (pgr_id r) (pgr_target r) (pgr_timestamp r).
Definition target_of (r : targetRow) : MessageTarget := MkMessageTarget (tr_id r) (tr_target r) (tr_pinned r) (tr_muted r) (tr_blocked r).

Definition records_of (d : pgdb) : pgRecords :=
  MkRecords (pg_scan_user <$> pt_User d) ((λ r, (nr_user r, scan_network r)) <$> pt_Network d)
    ((λ r, (cr_network r, scan_channel r)) <$> pt_Channel d) ((λ r, (pgc_user r, pg_scan_cert r)) <$> pt_DeviceCertificate d)
    ((λ r, (pgd_network r, delivery_of r)) <$> pt_DeliveryReceipt d) ((λ r, (pgr_network r, read_of r)) <$> pt_ReadReceipt d)
    ((λ r, (tr_network r, target_of r)) <$> pt_MessageTarget d).

(** ** What storing means *)

(** A record that had no ID comes last; another takes the place of the record with its ID, of
    which [kept] says what stays. *)
Definition store_record {A} (id_of : A → Z) (old : Z) (new : A) (kept : A → A) (l : list A) : list A :=
  if decide (old = 0) then l ++ [new] else (λ x, if id_of x =? old then kept x else x) <$> l.

Definition user_as (id : Z) (username : string) (u : dbUser) : dbUser :=
  MkUser id username (uPassword u) (uNick u) (uRealname u) (uAdmin u) (uEnabled u) (uDownstreamInteractedAt u) (uMaxNetworks u).

Definition record_step (op : pgop) (ids : list Z) (R : pgRecords) : pgRecords :=
  let '(MkRecords users networks channels certs deliveries reads targets) := R in
  let id := hd 0 ids in
  match op with
  | OpStoreUser u =>
    MkRecords (store_record uID (uID u) (user_as id (uUsername u) u) (λ v, user_as (uID v) (uUsername v) u) users)
      networks channels certs deliveries reads targets
  | OpStoreNetwork user n =>
    let stored id := with_sasl id (stored_sasl (nSASL n)) n in
    MkRecords users (store_record (λ x, nID x.2) (nID n) (user, stored id) (λ x, (x.1, stored (nID x.2))) networks)
      channels certs deliveries reads targets
  | OpStoreChannel net c =>
    MkRecords users networks
      (store_record (λ x, cID x.2) (cID c) (net, with_cID id c) (λ x, (x.1, with_cID (cID x.2) c)) channels)
      certs deliveries reads targets
  | OpDeleteChannel i => MkRecords users networks (filter (λ x, cID x.2 ≠ i) channels) certs deliveries reads targets
  | OpStoreDeviceCertificate user c =>
    let stored id := MkDevice id (devLabel c) (devFingerprint c) (devLastUsed c) (devLastIP c) in
    MkRecords users networks channels
      (store_record (λ x, devID x.2) (devID c) (user, stored id) (λ x, (x.1, stored (devID x.2))) certs)
      deliveries reads targets
  | OpDeleteDeviceCertificate user f =>
    MkRecords users networks channels (filter (λ x, ¬ (x.1 = user ∧ devFingerprint x.2 = f)) certs) deliveries reads targets
  | OpStoreClientDeliveryReceipts net client l =>
    MkRecords users networks channels certs
      (filter (λ x, ¬ (x.1 = net ∧ drClient x.2 = client)) deliveries ++
       zip_with (λ id r, (net, MkReceipt id (drTarget r) client (drInternalMsgID r))) ids l) reads targets
  | OpStoreReadReceipt net r =>
    MkRecords users networks channels certs deliveries
      (store_record (λ x, rrID x.2) (rrID r) (net, MkReadReceipt id (rrTarget r) (rrTimestamp r))
         (λ x, (x.1, MkReadReceipt (rrID x.2) (rrTarget x.2) (rrTimestamp r))) reads) targets
  | OpStoreMessageTarget net t =>
    MkRecords users networks channels certs deliveries reads
      (store_record (λ x, mtID x.2) (mtID t) (net, MkMessageTarget id (mtTarget t) (mtPinned t) (mtMuted t) (mtBlocked t))
         (λ x, (x.1, MkMessageTarget (mtID x.2) (mtTarget x.2) (mtPinned t) (mtMuted t) (mtBlocked t))) targets)
  | _ => R
  end.

(** The texts fit their columns, times have whole microseconds and durations whole seconds: what
    is stored is what was given. *)
Definition storable_op (op : pgop) : Prop :=
  match op with
  | OpStoreUser u => Forall (fits 255) [uUsername u; uPassword u; uNick u; uRealname u] ∧ uDownstreamInteractedAt u mod 1000 = 0
  | OpStoreNetwork _ n =>
    storable_network n ∧ Forall (fits 255) [nName n; nAddr n; nNick n; nUsername n; nRealname n; nPass n; PlainUsername (nSASL n);
      PlainPassword (nSASL n)] ∧ fits 1023 (Join (nConnectCommands n) crlf)
  | OpStoreChannel _ c => storable_channel c ∧ Forall (fits 255) [cName c; cKey c; cDetachedInternalMsgID c]
  | OpDeleteChannel _ | OpDeleteDeviceCertificate _ _ | OpStoreMessageTarget _ _ => True
  | OpStoreDeviceCertificate _ c => devLastUsed c mod 1000 = 0
  | OpStoreClientDeliveryReceipts _ client l =>
    fits 255 client ∧ Forall (λ r, fits 255 (drTarget r) ∧ fits 255 (drInternalMsgID r)) l
  | OpStoreReadReceipt _ r => fits 255 (rrTarget r) ∧ rrTimestamp r mod 1000 = 0
  | _ => False
  end.

(** The integers and the texts the engine is sent. *)
Definition op_ints (op : pgop) : list Z :=
  match op with
  | OpStoreUser u => [uID u; uMaxNetworks u]
  | OpStoreNetwork user n => [user; nID n]
  | OpStoreChannel net c => [net; cID c; seconds_ceil (cDetachAfter c)]
  | OpDeleteChannel id => [id]
  | OpStoreDeviceCertificate user c => [user; devID c]
  | OpDeleteDeviceCertificate user _ => [user]
  | OpStoreClientDeliveryReceipts net _ _ => [net]
  | OpStoreReadReceipt net r => [net; rrID r]
  | OpStoreMessageTarget net t => [net; mtID t]
  | _ => []
  end.
Definition op_texts (op : pgop) : list string :=
  match op with
  | OpStoreUser u => [uUsername u; uPassword u; uNick u; uRealname u]
  | OpStoreNetwork _ n => [nName n; nAddr n; nNick n; nUsername n; nRealname n; nCertFP n; nPass n; Join (nConnectCommands n) crlf;
      PlainUsername (nSASL n); PlainPassword (nSASL n)]
  | OpStoreChannel _ c => [cName c; cKey c; cDetachedInternalMsgID c]
  | OpStoreDeviceCertificate _ c => [devLabel c; devLastIP c]
  | OpStoreClientDeliveryReceipts _ client l => client :: (l ≫= λ r, [drTarget r; drInternalMsgID r])
  | OpStoreReadReceipt _ r => [rrTarget r]
  | OpStoreMessageTarget _ t => [mtTarget t]
  | _ => []
  end.

(** The IDs the sequences give to the new records. *)
Definition next_ids (op : pgop) (q : pgtable → Z) : list Z :=
  match op with
  | OpStoreUser u => if decide (uID u = 0) then [q TUser + 1] else []
  | OpStoreNetwork _ n => if decide (nID n = 0) then [q TNetwork + 1] else []
  | OpStoreChannel _ c => if decide (cID c = 0) then [q TChannel + 1] else []
  | OpStoreDeviceCertificate _ c => if decide (devID c = 0) then [q TDeviceCertificate + 1] else []
  | OpStoreClientDeliveryReceipts _ _ l => seqZ (q TDeliveryReceipt + 1) (Z.of_nat (length l))
  | OpStoreReadReceipt _ r => if decide (rrID r = 0) then [q TReadReceipt + 1] else []
  | OpStoreMessageTarget _ t => if decide (mtID t = 0) then [q TMessageTarget + 1] else []
  | _ => []
  end.

(** ** Values that fit *)

Lemma varchar_ok n x : fits n x → varchar n x = Ok x.
Proof. unfold fits, varchar. intros Hx. by rewrite (proj2 (Nat.leb_le _ _)). Qed.
Lemma varchar_null_ok n x : fits n x → varchar_null n (toNullString x) = Ok (toNullString x).
Proof. intros Hx. unfold toNullString. case_decide; [done|]. cbn. by rewrite varchar_ok. Qed.
Lemma arg_int z : is_int4 z = true → arg_error (AInt z) = None.
Proof. intros Hz. cbn. by rewrite Hz. Qed.
Lemma arg_text x : is_text x = true → arg_error (AText x) = None.
Proof. intros Hx. cbn. by rewrite Hx. Qed.
Lemma arg_null x : is_text x = true → arg_error (ANull (toNullString x)) = None.
Proof. intros Hx. unfold toNullString. case_decide; [done|]. cbn. by rewrite Hx. Qed.
Lemma args_none args : Forall (λ a, arg_error a = None) args → args_error args = None.
Proof. unfold args_error. induction 1 as [|a args Ha _ IH]; [done|]. cbn. by rewrite Ha. Qed.

Lemma update_rows_ok {R} (P : R → bool) (f : R → res goerr R) (g : R → R) rows :
  (∀ r, r ∈ rows → f r = Ok (g r)) → update_rows P f rows = Ok ((λ r, if P r then g r else r) <$> rows).
Proof.
  unfold update_rows. induction rows as [|r rows IH]; intros Hf; [done|]. cbn. destruct (P r).
  - rewrite Hf by by left. cbn. by rewrite IH by (intros; apply Hf; by right).
  - cbn. by rewrite IH by (intros; apply Hf; by right).
Qed.

Lemma fmap_zip {A B C D} (f : C → D) (g : A → B → C) l k : f <$> zip_with g l k = zip_with (λ x y, f (g x y)) l k.
Proof. revert k. induction l as [|x l IH]; intros [|y k]; [done..|]. cbn. by rewrite IH. Qed.

(** ** The rows of a store *)

(** Rows without an ID come last, and others take the place of the row with their ID. *)
Definition store_row {R} (id_of : R → Z) (old : Z) (new : R) (kept : R → R) (rows : list R) : list R :=
  if decide (old = 0) then rows ++ [new] else (λ r, if id_of r =? old then kept r else r) <$> rows.

Lemma store_row_record {R A} (view : R → A) (id_of : R → Z) (id_of' : A → Z) old new new' kept kept' rows :
  (∀ r, id_of' (view r) = id_of r) → view new = new' → (∀ r, view (kept r) = kept' (view r)) →
  view <$> store_row id_of old new kept rows = store_record id_of' old new' kept' (view <$> rows).
Proof.
  intros Hid Hnew Hkept. unfold store_row, store_record. case_decide; [by rewrite fmap_app; cbn; rewrite Hnew|].
  rewrite <-!list_fmap_compose. apply list_fmap_ext. intros i r _. cbn. rewrite Hid. by destruct (_ =? _).
Qed.

Section records.
Context `{EN : pgengine} `{LE : sqlenv}.

Definition effect (op : pgop) (s : pgState) : pgdb :=
  let d := pg_db s in
  let id := hd 0 (next_ids op (pg_seq s)) in
  match op with
  | OpStoreUser u =>
    let row id name created := MkPgUser id name (toNullString (uPassword u)) (uAdmin u) (toNullString (uNick u))
      (toNullString (uRealname u)) created (uEnabled u) (pg_timestamp <$> toNullTime (uDownstreamInteractedAt u)) (uMaxNetworks u) in
    put_User (store_row pgu_id (uID u) (row id (uUsername u) (pg_timestamp (pg_now (pg_count s))))
      (λ r, row (pgu_id r) (pgu_username r) (pgu_created_at r)) (pt_User d)) d
  | OpStoreNetwork user n =>
    match sasl_columns (nSASL n) with
    | Ok (sa, (m, u, p)) => put_Network (store_row nr_id (nID n) (network_row id user n sa m u p)
        (λ r, network_row (nr_id r) (nr_user r) n sa m u p) (pt_Network d)) d
    | _ => d
    end
  | OpStoreChannel net c =>
    put_Channel (store_row cr_id (cID c) (channel_row id net c) (λ r, channel_row (cr_id r) (cr_network r) c) (pt_Channel d)) d
  | OpDeleteChannel i => put_Channel (filter (λ r, cr_id r ≠ i) (pt_Channel d)) d
  | OpStoreDeviceCertificate user c =>
    let row id user := MkPgCert id user (devLabel c) (devFingerprint c) (pg_timestamp (devLastUsed c)) (devLastIP c) in
    put_DeviceCertificate (store_row pgc_id (devID c) (row id user) (λ r, row (pgc_id r) (pgc_user r)) (pt_DeviceCertificate d)) d
  | OpDeleteDeviceCertificate user f =>
    put_DeviceCertificate (filter (λ r, ¬ (pgc_user r = user ∧ pgc_fingerprint r = f)) (pt_DeviceCertificate d)) d
  | OpStoreClientDeliveryReceipts net client l =>
    put_DeliveryReceipt (filter (λ r, ¬ (pgd_network r = net ∧ pgd_client r = client)) (pt_DeliveryReceipt d) ++
      zip_with (λ id r, MkPgDelivery id net (drTarget r) client (drInternalMsgID r)) (next_ids op (pg_seq s)) l) d
  | OpStoreReadReceipt net r =>
    put_ReadReceipt (store_row pgr_id (rrID r) (MkPgRead id net (rrTarget r) (pg_timestamp (rrTimestamp r)))
      (λ x, MkPgRead (pgr_id x) (pgr_network x) (pgr_target x) (pg_timestamp (rrTimestamp r))) (pt_ReadReceipt d)) d
  | OpStoreMessageTarget net t =>
    put_MessageTarget (store_row tr_id (mtID t) (MkTargetRow id net (mtTarget t) (mtPinned t) (mtMuted t) (mtBlocked t))
      (λ x, MkTargetRow (tr_id x) (tr_network x) (tr_target x) (mtPinned t) (mtMuted t) (mtBlocked t)) (pt_MessageTarget d)) d
  | _ => d
  end.

Lemma NullTime_to `{!pg_laws EN} t : t mod 1000 = 0 → NullTime (pg_timestamp <$> toNullTime t) = t.
Proof.
  intros Ht. unfold toNullTime, IsZero. destruct (Z.eqb_spec t zeroTime) as [->|]; [done|]. cbn. by apply pg_timestamp_micros.
Qed.
Lemma scan_user_row `{!pg_laws EN} id name created u :
  uDownstreamInteractedAt u mod 1000 = 0 →
  pg_scan_user (MkPgUser id name (toNullString (uPassword u)) (uAdmin u) (toNullString (uNick u)) (toNullString (uRealname u)) created
    (uEnabled u) (pg_timestamp <$> toNullTime (uDownstreamInteractedAt u)) (uMaxNetworks u)) = user_as id name u.
Proof. intros Ht. unfold pg_scan_user, user_as. f_equal; [apply NullString_to..|by apply NullTime_to]. Qed.

(** What the stored rows say. *)
Lemma effect_records `{!pg_laws EN} op s :
  storable_op op → records_of (effect op s) = record_step op (next_ids op (pg_seq s)) (records_of (pg_db s)).
Proof.
  intros Hst. destruct op; cbn in Hst; try done; cbn [effect record_step]; unfold records_of; cbn.
  - destruct Hst as [_ Ht]. f_equal. apply store_row_record; [done|by apply scan_user_row|]. intros r. by apply (scan_user_row _ (pgu_username r)).
  - destruct Hst as (Hn & _). destruct (sasl_columns (nSASL network)) as [[sa [[m u] p]]|e|w] eqn:Hs.
    + cbn. f_equal. apply store_row_record; [done| |]; cbn; intros; by rewrite (proj1 (scan_network_row _ _ _ _ _ _ _ Hn Hs)).
    + exfalso. destruct Hn as (_ & _ & [H|[H _]]); unfold sasl_columns in Hs; repeat case_decide; set_solver.
    + by unfold sasl_columns in Hs; repeat case_decide.
  - destruct Hst as [Hc _]. f_equal. apply store_row_record; [done| |]; cbn; intros; by rewrite scan_channel_row.
  - f_equal. by apply filter_fmap_view.
  - f_equal. apply store_row_record; [done| |]; cbn; intros; unfold pg_scan_cert; cbn; by rewrite pg_timestamp_micros.
  - f_equal. by apply filter_fmap_view.
  - f_equal. rewrite fmap_app, fmap_zip. apply (f_equal2 app); [by apply filter_fmap_view|done].
  - destruct Hst as [_ Ht]. f_equal. apply store_row_record; [done| |]; cbn; unfold read_of; cbn; by rewrite pg_timestamp_micros.
  - f_equal. by apply store_row_record.
Qed.

(** ** What a call does *)

(** [m] makes the database [d'] and answers [a], or fails and leaves the database as it was; it
    does not fail when it is [ready] and [d'] satisfies the schema. *)
Definition stores {A} (m : PG A) (s : pgState) (d' : pgdb) (a : A) (ready : Prop) : Prop :=
  let '(s', r) := m s in
  (r = Ok a ∧ pg_db s' = d' ∨ (∀ x, r ≠ Ok x) ∧ pg_db s' = pg_db s) ∧ (ready → pg_unique_ok d' → pg_foreign_ok d' → r = Ok a).

Lemma stores_map {A B} (m : PG A) (g : A → B) s d' a b ready ready' :
  g a = b → (ready' → ready) → stores m s d' a ready → stores (x ← m; mret (g x)) s d' b ready'.
Proof.
  intros <- Hr. unfold stores, mbind, M_bind. destruct (m s) as [s' [x|e|w]]; intros [Hc Hgo]; cbn; split.
  - destruct Hc as [[[= ->] ?]|[Hn _]]; [by left|by destruct (Hn x)].
  - intros Hre Hu Hf. by injection (Hgo (Hr Hre) Hu Hf) as ->.
  - destruct Hc as [[? _]|[_ ?]]; [done|by right].
  - intros Hre Hu Hf. by specialize (Hgo (Hr Hre) Hu Hf).
  - destruct Hc as [[? _]|[_ ?]]; [done|by right].
  - intros Hre Hu Hf. by specialize (Hgo (Hr Hre) Hu Hf).
Qed.

Lemma stores_gets {A B} (f : pgState → A) (k : A → PG B) s d' b ready : stores (k (f s)) s d' b ready → stores (gets f ≫= k) s d' b ready.
Proof. done. Qed.

Lemma stores_try {A} (m : PG A) (g : goerr → goerr) s d' a ready :
  stores m s d' a ready → stores (r ← try m; match r with inl x => mret x | inr e => fail (g e) end) s d' a ready.
Proof.
  unfold stores, try, mbind, M_bind. destruct (m s) as [s' [x|e|w]]; intros [Hc Hgo]; cbn; [by split| |by split].
  split; [destruct Hc as [[? _]|[_ ?]]; [done|by right]|]. intros Hre Hu Hf. by specialize (Hgo Hre Hu Hf).
Qed.

Lemma check_stores d' s : stores (pg_check d') s d' tt True.
Proof.
  unfold stores, pg_check. destruct (decide (pg_unique_ok d')) as [Hu|Hu]; [|split; [by right|by intros _ ?]].
  destruct (decide (pg_foreign_ok d')) as [Hf|Hf]; [split; [by left|done]|split; [by right|by intros _ _ ?]].
Qed.

Lemma send_cases args s :
  (∃ s', pg_send args s = (s', Ok tt) ∧ pg_db s' = pg_db s ∧ pg_seq s' = pg_seq s ∧ pg_count s' = S (pg_count s)) ∨
  (∃ s' e, pg_send args s = (s', Err e) ∧ pg_db s' = pg_db s ∧ (pg_fault (pg_count s) = None → args_error args = None → False)).
Proof.
  unfold pg_send, pg_step, mbind, M_bind. destruct (pg_fault (pg_count s)) as [e|].
  - right. eexists (MkPg _ _ _), e. by split_and!.
  - destruct (args_error args) as [e|]; [right; eexists (MkPg _ _ _), e; by split_and!|left; eexists (MkPg _ _ _); by split_and!].
Qed.

Lemma exec_stores args f s d' :
  f (pg_db s) = Ok d' → stores (pg_exec args f) s d' tt (pg_fault (pg_count s) = None ∧ args_error args = None).
Proof.
  intros Hf. unfold stores, pg_exec. destruct (send_cases args s) as [(s1 & Hrun & Hdb & _)|(s1 & e & Hrun & Hdb & Hno)].
  - erewrite bind_run by exact Hrun. rewrite bind_gets, Hdb. unfold lift, mbind, M_bind. rewrite Hf.
    pose proof (check_stores d' s1) as Hc. unfold stores in Hc. rewrite Hdb in Hc. destruct (pg_check d' s1) as [s2 r].
    destruct Hc as [Hc Hgo]. split; [done|]. intros _. by apply Hgo.
  - unfold mbind, M_bind. rewrite Hrun. split; [by right|]. intros [H1 H2]. by destruct Hno.
Qed.

Lemma insert_stores t args f s d' :
  f (pg_seq s t + 1) (pg_db s) = Ok d' →
  stores (pg_insert t args f) s d' (pg_seq s t + 1) (pg_fault (pg_count s) = None ∧ args_error args = None ∧ pg_seq s t + 1 ≤ int4_max).
Proof.
  intros Hf. unfold stores, pg_insert. destruct (send_cases args s) as [(s1 & Hrun & Hdb & Hq & _)|(s1 & e & Hrun & Hdb & Hno)].
  - erewrite bind_run by exact Hrun. unfold nextval. rewrite bind_assoc, bind_gets, Hq.
    destruct (Z.ltb_spec (pg_seq s t) int4_max) as [Hlt|Hge].
    + rewrite bind_assoc, bind_modify, bind_ret, bind_gets. cbn [pg_db]. rewrite Hdb. unfold lift, mbind, M_bind. rewrite Hf.
      set (s2 := MkPg _ _ _). pose proof (check_stores d' s2) as Hc. unfold stores in Hc. cbn [pg_db s2] in Hc.
      destruct (pg_check d' s2) as [s3 [[]|e|w]]; destruct Hc as [Hc Hgo]; cbn.
      * destruct Hc as [[_ ?]|[Hn _]]; [|by destruct (Hn tt)]. split; [by left|done].
      * destruct Hc as [[? _]|[_ ?]]; [done|]. split; [by right|]. intros _ Hu Hfk. by specialize (Hgo I Hu Hfk).
      * destruct Hc as [[? _]|[_ ?]]; [done|]. split; [by right|]. intros _ Hu Hfk. by specialize (Hgo I Hu Hfk).
    + unfold mbind, M_bind, fail. split; [by right|]. intros (_ & _ & ?). lia.
  - unfold mbind, M_bind. rewrite Hrun. split; [by right|]. intros (H1 & H2 & _). by destruct Hno.
Qed.

(** The table of the records. *)
Definition op_table (op : pgop) : pgtable :=
  match op with
  | OpStoreUser _ => TUser
  | OpStoreNetwork _ _ => TNetwork
  | OpStoreChannel _ _ => TChannel
  | OpStoreDeviceCertificate _ _ => TDeviceCertificate
  | OpStoreClientDeliveryReceipts _ _ _ => TDeliveryReceipt
  | OpStoreReadReceipt _ _ => TReadReceipt
  | _ => TMessageTarget
  end.

(** The engine refuses nothing, holds the parameters, and has IDs left. *)
Definition ready (op : pgop) (s : pgState) : Prop :=
  (∀ n, pg_fault n = None) ∧ Forall (λ z, is_int4 z = true) (op_ints op) ∧ Forall (λ x, is_text x = true) (op_texts op) ∧
  Forall (λ id, id ≤ int4_max) (next_ids op (pg_seq s)).

Ltac split_ready :=
  let Hi := fresh in let Hx := fresh in let Hid := fresh in
  intros (Hn & Hi & Hx & Hid); try rewrite !Forall_cons in Hi; try rewrite !Forall_cons in Hx; try rewrite !Forall_cons in Hid; destruct_and?.
Ltac args_ok := apply args_none; repeat constructor; by (apply arg_int || apply arg_text || apply arg_null).

Section single.
Context (s : pgState) (Hok : pg_ok s).

Lemma StoreUser_stores u :
  storable_op (OpStoreUser u) →
  stores (pg_StoreUser u) s (effect (OpStoreUser u) s)
    (if decide (uID u = 0) then user_as (pg_seq s TUser + 1) (uUsername u) u else u) (ready (OpStoreUser u) s).
Proof using Hok.
  intros [Hfit _]. rewrite !Forall_cons in Hfit. destruct Hfit as (F1 & F2 & F3 & F4 & _). unfold pg_StoreUser, pg_clock. apply stores_gets.
  unfold ready. cbn [op_ints op_texts]. unfold effect. cbn [next_ids]. unfold store_row. case_decide.
  - eapply stores_map; [reflexivity| |apply insert_stores]; cbn [hd].
    + split_ready. split_and!; [done| |done]. args_ok.
    + unfold pg_user_row. rewrite varchar_ok, !varchar_null_ok by done. done.
  - eapply (stores_map _ (λ _, u)); [reflexivity| |apply exec_stores].
    + split_ready. split_and!; [done|]. args_ok.
    + cbn [mbind res_mbind]. erewrite update_rows_ok; [reflexivity|]. intros r Hr. unfold pg_user_row.
      pose proof (Forall_in _ _ _ (ty_User _ (ok_typed _ Hok)) Hr) as [Hfr _]. rewrite varchar_ok, !varchar_null_ok by done. done.
Qed.

Lemma StoreNetwork_stores user n :
  storable_op (OpStoreNetwork user n) →
  ∃ n', stores (pg_StoreNetwork user n) s (effect (OpStoreNetwork user n) s) n' (ready (OpStoreNetwork user n) s) ∧
    nID n' = if decide (nID n = 0) then pg_seq s TNetwork + 1 else nID n.
Proof.
  intros (Hst & Hfit & Hcmd). rewrite !Forall_cons in Hfit. destruct Hfit as (F1 & F2 & F3 & F4 & F5 & F6 & F7 & F8 & _).
  unfold effect, ready. cbn [op_ints op_texts next_ids]. destruct (sasl_columns (nSASL n)) as [[sa [[m u] p]]|e|w] eqn:Hs.
  2: { exfalso. destruct Hst as (_ & _ & [H|[H _]]); unfold sasl_columns in Hs; repeat case_decide; set_solver. }
  2: by unfold sasl_columns in Hs; repeat case_decide.
  assert ((u = None ∨ u = toNullString (PlainUsername (nSASL n))) ∧ (p = None ∨ p = toNullString (PlainPassword (nSASL n)))) as [Hu Hp]
    by (unfold sasl_columns in Hs; repeat case_decide; simplify_eq; auto).
  assert (varchar_null 255 u = Ok u) as Vu by (destruct Hu as [->| ->]; [done|by apply varchar_null_ok]).
  assert (varchar_null 255 p = Ok p) as Vp by (destruct Hp as [->| ->]; [done|by apply varchar_null_ok]).
  assert (∀ id us, pg_network_row id us n sa m u p = Ok (network_row id us n sa m u p)) as Hrow
    by (intros id us; unfold pg_network_row; rewrite !varchar_null_ok, varchar_ok by done; cbn; by rewrite Vu, Vp).
  assert (∀ x o, is_text x = true → o = None ∨ o = toNullString x → arg_error (ANull o) = None) as Harg
    by (intros x o Hx [->| ->]; [done|by apply arg_null]).
  assert (∀ z, is_int4 z = true → Forall (λ x, is_text x = true) [nName n; nAddr n; nNick n; nUsername n; nRealname n; nCertFP n; nPass n;
      Join (nConnectCommands n) crlf; PlainUsername (nSASL n); PlainPassword (nSASL n)] →
    args_error (AInt z :: pg_network_args n u p) = None) as Hargs.
  { intros z Hz Hx. rewrite !Forall_cons in Hx. destruct_and!. apply args_none. unfold pg_network_args.
    repeat constructor; try by (apply arg_int || apply arg_text || apply arg_null). all: first [by apply (Harg (PlainUsername (nSASL n)))|by apply (Harg (PlainPassword (nSASL n)))]. }
  unfold pg_StoreNetwork, store_row. rewrite Hs.
  exists (with_sasl (if decide (nID n = 0) then pg_seq s TNetwork + 1 else nID n) sa n). split; [|by case_decide].
  change (stores (lift (Ok (sa, (m, u, p))) ≫= ?k) s ?d ?a ?r) with (stores (k (sa, (m, u, p))) s d a r). cbn iota beta. case_decide.
  - eapply stores_map; [reflexivity| |apply insert_stores]; cbn [hd].
    + intros (Hn & Hi & Hx & Hid). rewrite !Forall_cons in Hi. rewrite !Forall_cons in Hid. destruct_and!. split_and!; [done|by apply Hargs|done].
    + by rewrite Hrow.
  - eapply (stores_map _ (λ _, with_sasl (nID n) sa n)); [reflexivity| |apply exec_stores].
    + intros (Hn & Hi & Hx & Hid). rewrite !Forall_cons in Hi. destruct_and!. split_and!; [done|by apply Hargs].
    + erewrite update_rows_ok; [reflexivity|]. intros r Hr. apply Hrow.
Qed.

Lemma StoreChannel_stores net c :
  storable_op (OpStoreChannel net c) →
  stores (pg_StoreChannel net c) s (effect (OpStoreChannel net c) s)
    (if decide (cID c = 0) then with_cID (pg_seq s TChannel + 1) c else c) (ready (OpStoreChannel net c) s).
Proof.
  intros [_ Hfit]. rewrite !Forall_cons in Hfit. destruct Hfit as (F1 & F2 & F3 & _).
  assert (∀ id n, pg_channel_row id n c = Ok (channel_row id n c)) as Hrow
    by (intros id n; unfold pg_channel_row; by rewrite varchar_ok, !varchar_null_ok by done).
  unfold pg_StoreChannel, ready. cbn [op_ints op_texts]. unfold effect. cbn [next_ids]. unfold store_row. case_decide.
  - eapply stores_map; [reflexivity| |apply insert_stores]; cbn [hd]; [|by rewrite Hrow]. split_ready. split_and!; [done| |done]. args_ok.
  - eapply (stores_map _ (λ _, c)); [reflexivity| |apply exec_stores].
    + split_ready. split_and!; [done|]. args_ok.
    + erewrite update_rows_ok; [reflexivity|]. intros r _. apply Hrow.
Qed.

Lemma StoreDeviceCertificate_stores user c :
  stores (pg_StoreDeviceCertificate user c) s (effect (OpStoreDeviceCertificate user c) s)
    (if decide (devID c = 0) then MkDevice (pg_seq s TDeviceCertificate + 1) (devLabel c) (devFingerprint c) (devLastUsed c) (devLastIP c)
     else c) (ready (OpStoreDeviceCertificate user c) s).
Proof.
  unfold pg_StoreDeviceCertificate, ready. cbn [op_ints op_texts]. unfold effect. cbn [next_ids]. unfold store_row.
  apply (stores_try _ (λ e, if pg_isErrUnique e then errDuplicateDeviceCertificate else e)). case_decide.
  - eapply stores_map; [reflexivity| |by apply insert_stores]; cbn [hd]. split_ready. split_and!; [done| |done]. args_ok.
  - eapply (stores_map _ (λ _, c)); [reflexivity| |apply exec_stores].
    + split_ready. split_and!; [done|]. args_ok.
    + erewrite update_rows_ok; [reflexivity|]. done.
Qed.

Lemma StoreReadReceipt_stores net r :
  storable_op (OpStoreReadReceipt net r) →
  stores (pg_StoreReadReceipt net r) s (effect (OpStoreReadReceipt net r) s)
    (if decide (rrID r = 0) then MkReadReceipt (pg_seq s TReadReceipt + 1) (rrTarget r) (rrTimestamp r) else r)
    (ready (OpStoreReadReceipt net r) s).
Proof.
  intros [Hfit _]. unfold pg_StoreReadReceipt, ready. cbn [op_ints op_texts]. unfold effect. cbn [next_ids]. unfold store_row.
  destruct (decide (rrID r = 0)) as [Hz|Hz]; [rewrite decide_False by auto|rewrite decide_True by done].
  - eapply stores_map; [reflexivity| |apply insert_stores]; cbn [hd]; [|by rewrite varchar_ok]. split_ready. split_and!; [done| |done]. args_ok.
  - eapply (stores_map _ (λ _, r)); [reflexivity| |apply exec_stores].
    + split_ready. split_and!; [done|]. args_ok.
    + erewrite update_rows_ok; [reflexivity|]. done.
Qed.

Lemma StoreMessageTarget_stores net t :
  stores (pg_StoreMessageTarget net t) s (effect (OpStoreMessageTarget net t) s)
    (if decide (mtID t = 0) then MkMessageTarget (pg_seq s TMessageTarget + 1) (mtTarget t) (mtPinned t) (mtMuted t) (mtBlocked t) else t)
    (ready (OpStoreMessageTarget net t) s).
Proof.
  unfold pg_StoreMessageTarget, ready. cbn [op_ints op_texts]. unfold effect. cbn [next_ids]. unfold store_row.
  destruct (decide (mtID t = 0)) as [Hz|Hz]; [rewrite decide_False by auto|rewrite decide_True by done].
  - eapply stores_map; [reflexivity| |by apply insert_stores]; cbn [hd]. split_ready. split_and!; [done| |done]. args_ok.
  - eapply (stores_map _ (λ _, t)); [reflexivity| |apply exec_stores].
    + split_ready. split_and!; [done|]. args_ok.
    + erewrite update_rows_ok; [reflexivity|]. done.
Qed.
End single.

(** ** Receipts, in a transaction *)

(** [m] makes the database [d'] and answers [a] when it does not fail. *)
Definition reaches {A} (m : PG A) (s : pgState) (d' : pgdb) (a : A) (ready : Prop) : Prop :=
  let '(s', r) := m s in (∀ x, r = Ok x → x = a ∧ pg_db s' = d') ∧ (ready → pg_unique_ok d' → pg_foreign_ok d' → r = Ok a).

Lemma stores_reaches {A} (m : PG A) s d' a ready : stores m s d' a ready → reaches m s d' a ready.
Proof.
  unfold stores, reaches. destruct (m s) as [s' r]. intros [[[-> Hdb]|[Hno _]] Hgo]; split; try done; [by intros x [= <-]|].
  intros x Hx. by destruct (Hno x).
Qed.

Lemma reaches_bind {A B} (m : PG A) (k : A → PG B) s d1 a d2 b ready1 ready2 :
  reaches m s d1 a ready1 → (pg_unique_ok d2 → pg_foreign_ok d2 → pg_unique_ok d1 ∧ pg_foreign_ok d1) →
  (∀ s1, m s = (s1, Ok a) → pg_db s1 = d1 → reaches (k a) s1 d2 b ready2) → reaches (m ≫= k) s d2 b (ready1 ∧ ready2).
Proof.
  intros Hm Hsub Hk. unfold reaches, mbind, M_bind in *. destruct (m s) as [s1 [x|e|w]]; destruct Hm as [Hdb Hgo].
  - destruct (Hdb x eq_refl) as [-> Hd]. specialize (Hk s1 eq_refl Hd). destruct (k a s1) as [s2 r]. destruct Hk as [H1 H2].
    split; [done|]. intros [_ Hr]. by apply H2.
  - split; [done|]. intros [Hr _] Hu Hf. destruct (Hsub Hu Hf) as [Hu1 Hf1]. by specialize (Hgo Hr Hu1 Hf1).
  - split; [done|]. intros [Hr _] Hu Hf. destruct (Hsub Hu Hf) as [Hu1 Hf1]. by specialize (Hgo Hr Hu1 Hf1).
Qed.

Lemma reaches_weaken {A} (m : PG A) s d' a (ready ready' : Prop) : (ready' → ready) → reaches m s d' a ready → reaches m s d' a ready'.
Proof. unfold reaches. destruct (m s) as [s' r]. intros Hr [H1 H2]. auto. Qed.

Lemma step_reaches s : reaches pg_step s (pg_db s) tt (∀ n, pg_fault n = None).
Proof. unfold reaches, pg_step. split; [by intros [] _|]. intros Hn _ _. by rewrite Hn. Qed.

Lemma transaction_stores {A} (m : PG A) s d' a ready :
  reaches m (MkPg (pg_db s) (pg_seq s) (S (pg_count s))) d' a ready →
  stores (pg_transaction m) s d' a ((∀ n, pg_fault n = None) ∧ ready).
Proof.
  intros Hm. unfold stores. destruct (pg_transaction m s) as [s' r] eqn:Hrun. split.
  - destruct r as [x|e|w].
    + left. destruct (pg_transaction_ok _ _ _ _ Hrun) as (s1 & s2 & -> & Hb & ->). unfold reaches in Hm. rewrite Hb in Hm.
      by destruct Hm as [Hm _]; destruct (Hm x eq_refl) as [-> ->].
    + right. split; [done|]. by eapply pg_transaction_err.
    + right. split; [done|]. by eapply pg_transaction_err.
  - intros [Hn Hr] Hu Hf. revert Hrun. unfold pg_transaction, pg_step, mbind, M_bind. rewrite Hn. unfold reaches in Hm.
    destruct (m _) as [s2 x]. rewrite (proj2 Hm Hr Hu Hf), Hn. by intros [= _ <-].
Qed.

Lemma insert_seq t args f s s' id : pg_insert t args f s = (s', Ok id) → pg_seq s' t = pg_seq s t + 1.
Proof.
  unfold pg_insert. unfold mbind at 1, M_bind at 1. destruct (pg_send args s) as [s1 [[]|e|w]] eqn:Hsend; [|done|done].
  apply pg_send_ok in Hsend as [Ha ->]. unfold nextval. rewrite bind_assoc, bind_gets. cbn [pg_seq].
  destruct (pg_seq s t <? int4_max); [|done]. rewrite bind_assoc, bind_modify, bind_ret, bind_gets. cbn [pg_db].
  unfold lift, mbind, M_bind. destruct (f _ (pg_db s)) as [d'|e|w] eqn:Hf; [|done|done]. unfold pg_check.
  destruct (decide (pg_unique_ok d')); [|done]. destruct (decide (pg_foreign_ok d')); [|done]. intros [= <- _].
  cbn. unfold advance. by rewrite decide_True.
Qed.

Lemma exec_seq args f s s' : pg_exec args f s = (s', Ok tt) → pg_seq s' = pg_seq s.
Proof.
  unfold pg_exec. unfold mbind at 1, M_bind at 1. destruct (pg_send args s) as [s1 [[]|e|w]] eqn:Hsend; [|done|done].
  apply pg_send_ok in Hsend as [_ ->]. rewrite bind_gets. unfold lift, mbind, M_bind. destruct (f _) as [d'|e|w]; [|done|done].
  unfold pg_check. destruct (decide (pg_unique_ok d')); [|done]. destruct (decide (pg_foreign_ok d')); [|done]. by intros [= <-].
Qed.

(** Fewer receipts satisfy the schema as well. *)
Lemma fewer_deliveries rows rows' d :
  rows `sublist_of` rows' → pg_unique_ok (put_DeliveryReceipt rows' d) → pg_foreign_ok (put_DeliveryReceipt rows' d) →
  pg_unique_ok (put_DeliveryReceipt rows d) ∧ pg_foreign_ok (put_DeliveryReceipt rows d).
Proof.
  intros Hsub Hu Hf. split.
  - eapply pg_unique_shrinks; [|exact Hu]. by split.
  - destruct Hf as (? & ? & ? & Hd & ?). split_and!; try done; [|tauto..]. apply Forall_forall. intros r Hr. rewrite Forall_forall in Hd.
    apply Hd. cbn. by eapply elem_of_sublist.
Qed.

Section deliveries.
Context (net : Z) (client : string) (Hclient : fits 255 client).

Definition delivery_rows (ids : list Z) (l : list DeliveryReceipt) : list pgDeliveryRow :=
  zip_with (λ id r, MkPgDelivery id net (drTarget r) client (drInternalMsgID r)) ids l.
Definition delivery_answers (ids : list Z) (l : list DeliveryReceipt) : list DeliveryReceipt :=
  zip_with (λ id r, MkReceipt id (drTarget r) (drClient r) (drInternalMsgID r)) ids l.
Definition deliveries_ready (l : list DeliveryReceipt) (ids : list Z) : Prop :=
  (∀ n, pg_fault n = None) ∧ is_int4 net = true ∧ is_text client = true ∧
  Forall (λ r, is_text (drTarget r) = true ∧ is_text (drInternalMsgID r) = true) l ∧ Forall (λ id, id ≤ int4_max) ids.

Lemma insert_delivery_reaches r s :
  fits 255 (drTarget r) ∧ fits 255 (drInternalMsgID r) →
  reaches (pg_insert_delivery net client r) s
    (put_DeliveryReceipt (pt_DeliveryReceipt (pg_db s) ++ delivery_rows [pg_seq s TDeliveryReceipt + 1] [r]) (pg_db s))
    (MkReceipt (pg_seq s TDeliveryReceipt + 1) (drTarget r) (drClient r) (drInternalMsgID r))
    (deliveries_ready [r] [pg_seq s TDeliveryReceipt + 1]).
Proof using Hclient.
  intros [F1 F2]. apply stores_reaches. eapply stores_map; [reflexivity| |apply insert_stores].
  - intros (Hn & Hi & Hc & Hl & Hid). apply Forall_cons in Hl as [[? ?] _]. apply Forall_cons in Hid as [? _]. split_and!; [done| |done]. args_ok.
  - by rewrite !varchar_ok.
Qed.

Lemma insert_deliveries_reach l s :
  Forall (λ r, fits 255 (drTarget r) ∧ fits 255 (drInternalMsgID r)) l →
  let ids := seqZ (pg_seq s TDeliveryReceipt + 1) (Z.of_nat (length l)) in
  reaches (mapM (pg_insert_delivery net client) l) s
    (put_DeliveryReceipt (pt_DeliveryReceipt (pg_db s) ++ delivery_rows ids l) (pg_db s)) (delivery_answers ids l) (deliveries_ready l ids).
Proof using Hclient.
  revert s. induction l as [|r l IH]; intros s Hfit ids; subst ids.
  { split; [|done]. intros x [= <-]. split; [done|]. cbn. rewrite app_nil_r. by destruct (pg_db s). }
  apply Forall_cons in Hfit as [Hr Hl]. rewrite seqZ_cons by (cbn; lia).
  replace (Z.pred (Z.of_nat (length (r :: l)))) with (Z.of_nat (length l)) by (cbn; lia).
  replace (Z.succ (pg_seq s TDeliveryReceipt + 1)) with (pg_seq s TDeliveryReceipt + 1 + 1) by lia.
  cbn [mapM]. set (q := pg_seq s TDeliveryReceipt + 1). set (ids := seqZ (q + 1) _).
  assert (deliveries_ready (r :: l) (q :: ids) → deliveries_ready [r] [q] ∧ deliveries_ready l ids ∧ True) as Hready.
  { intros (? & ? & ? & Hx & Hid). apply Forall_cons in Hx as [? ?]. apply Forall_cons in Hid as [? ?]. unfold deliveries_ready. split_and!; auto. }
  eapply reaches_weaken; [exact Hready|]. eapply reaches_bind; [by apply insert_delivery_reaches| |].
  - apply fewer_deliveries. apply sublist_app; [done|]. cbn. apply sublist_skip, sublist_nil_l.
  - intros s1 Hrun Hdb. assert (pg_seq s1 TDeliveryReceipt = q) as Hq1.
    { unfold pg_insert_delivery, mbind, M_bind in Hrun. destruct (pg_insert _ _ _ s) as [s2 [id|e|w]] eqn:Hins; [|done..].
      injection Hrun as <- _. by eapply insert_seq. }
    pose proof (IH s1 Hl) as IH1. cbn zeta in IH1. rewrite Hq1, Hdb in IH1. cbn in IH1. rewrite <-app_assoc in IH1.
    eapply reaches_bind; [exact IH1|done|]. intros s2 _ Hdb2. unfold reaches. cbn. split; [|done]. by intros x [= <-].
Qed.

Lemma StoreClientDeliveryReceipts_stores l s :
  storable_op (OpStoreClientDeliveryReceipts net client l) →
  stores (pg_StoreClientDeliveryReceipts net client l) s (effect (OpStoreClientDeliveryReceipts net client l) s)
    (delivery_answers (next_ids (OpStoreClientDeliveryReceipts net client l) (pg_seq s)) l)
    ((∀ n, pg_fault n = None) ∧ deliveries_ready l (next_ids (OpStoreClientDeliveryReceipts net client l) (pg_seq s))).
Proof.
  intros [_ Hfit]. apply transaction_stores. set (s1 := MkPg _ _ _). set (ids := next_ids _ _).
  apply (reaches_weaken _ _ _ _ ((pg_fault (pg_count s1) = None ∧ args_error [AInt net; AText client] = None) ∧
    (∀ n, pg_fault n = None) ∧ deliveries_ready l ids)).
  { intros Hr. destruct (Hr) as (Hn & ? & ? & _). split_and!; [done| |done..]. args_ok. }
  set (kept := filter (λ r, ¬ (pgd_network r = net ∧ pgd_client r = client)) (pt_DeliveryReceipt (pg_db s))).
  apply (reaches_bind _ _ _ (put_DeliveryReceipt kept (pg_db s)) tt).
  - by apply stores_reaches, exec_stores.
  - apply fewer_deliveries. by apply sublist_inserts_r.
  - intros s2 Hrun Hdb. apply (reaches_bind _ _ _ (put_DeliveryReceipt kept (pg_db s)) tt).
    + rewrite <-Hdb. apply step_reaches.
    + apply fewer_deliveries. by apply sublist_inserts_r.
    + intros s3 Hstep Hdb3. pose proof (insert_deliveries_reach l s3 Hfit) as Hl. cbn zeta in Hl. rewrite Hdb3 in Hl.
      replace (pg_seq s3) with (pg_seq s) in Hl; [exact Hl|]. change (pg_seq s) with (pg_seq s1). rewrite <-(exec_seq _ _ _ _ Hrun).
      unfold pg_step in Hstep. by injection Hstep as <- _.
Qed.
End deliveries.

(** ** Every method *)

Lemma zip_left {A B C} (f : A → C) (l : list A) (k : list B) : (length l ≤ length k)%nat → zip_with (λ x _, f x) l k = f <$> l.
Proof. revert k. induction l as [|x l IH]; intros [|y k] Hl; cbn in *; [done|done|lia|]. by rewrite IH by lia. Qed.

Lemma do_stores op s :
  pg_ok s → storable_op op →
  stores (pg_do op) s (effect op s) ((λ id, (op_table op, id)) <$> next_ids op (pg_seq s)) (ready op s).
Proof.
  intros Hok Hst. destruct op as [u| |user n| |net c|i|user c|user f|net client l|net r| | | |net t| |]; try done; cbn [pg_do op_table].
  - eapply stores_map; [|done|by apply StoreUser_stores]. cbn [next_ids]. by case_decide; [rewrite new_id_new|rewrite new_id_old].
  - destruct (StoreNetwork_stores s Hok user n Hst) as (n' & Hn & Hid). eapply stores_map; [|done|exact Hn]. rewrite Hid. cbn [next_ids].
    by case_decide; [rewrite new_id_new|rewrite new_id_old].
  - eapply stores_map; [|done|by apply StoreChannel_stores]. cbn [next_ids]. by case_decide; [rewrite new_id_new|rewrite new_id_old].
  - eapply (stores_map _ (λ _, [])); [done| |by apply exec_stores]. unfold ready. cbn [op_ints]. split_ready. split_and!; [done|]. args_ok.
  - eapply stores_map; [|done|by apply StoreDeviceCertificate_stores]. cbn [next_ids]. by case_decide; [rewrite new_id_new|rewrite new_id_old].
  - eapply (stores_map _ (λ _, [])); [done| |by apply exec_stores]. unfold ready. cbn [op_ints]. split_ready. split_and!; [done|]. args_ok.
  - eapply stores_map; [| |by apply StoreClientDeliveryReceipts_stores; [apply Hst|]].
    + unfold delivery_answers. rewrite fmap_zip. cbn [drID]. apply zip_left. cbn [next_ids]. rewrite length_seqZ. lia.
    + intros (Hn & Hi & Hx & Hid). cbn [op_ints op_texts] in Hi, Hx. rewrite Forall_cons in Hi. rewrite Forall_cons, Forall_bind in Hx.
      destruct Hx as [? Hx]. unfold deliveries_ready. split_and!; [done|done|tauto|done| |done]. eapply Forall_impl; [exact Hx|].
      intros r Hr. unfold compose in Hr. rewrite !Forall_cons in Hr. tauto.
  - eapply stores_map; [|done|by apply StoreReadReceipt_stores]. cbn [next_ids]. by case_decide; [rewrite new_id_new|rewrite new_id_old].
  - eapply stores_map; [|done|by apply StoreMessageTarget_stores]. cbn [next_ids]. by case_decide; [rewrite new_id_new|rewrite new_id_old].
Qed.

(** The other tables stay as they are. *)
Definition others_kept (d' d : pgdb) : Prop :=
  pt_WebPushConfig d' = pt_WebPushConfig d ∧ pt_WebPushSubscription d' = pt_WebPushSubscription d ∧ pt_Message d' = pt_Message d.
Lemma effect_others op s : others_kept (effect op s) (pg_db s).
Proof. destruct op as [| |user n| | | | | | | | | | | | |]; try done. cbn. by destruct (sasl_columns (nSASL n)) as [[? [[? ?] ?]]|?|?]. Qed.

(** ** Reading *)

(** The records of an owner. *)
Definition of_owner {A} (owner : Z) (l : list (Z * A)) : list A := (filter (λ x, x.1 = owner) l).*2.

(** [m] answers these records, in the engine's order. *)
Definition lists {A} (m : PG (list A)) (s : pgState) (l : list A) : Prop := ∃ l', (m s).2 = Ok l' ∧ l' ≡ₚ l.

(** What the reading methods answer: the records of [R] of the owner [id], and those with the
    name [name]. *)
Definition reads_records (s : pgState) (R : pgRecords) (id : Z) (name : string) : Prop :=
  lists pg_ListUsers s (rc_users R) ∧
  lists (pg_ListNetworks id) s (of_owner id (rc_networks R)) ∧
  lists (pg_ListChannels id) s (of_owner id (rc_channels R)) ∧
  lists (pg_ListDeviceCertificates id) s (of_owner id (rc_certs R)) ∧
  lists (pg_ListDeliveryReceipts id) s (of_owner id (rc_deliveries R)) ∧
  (pg_GetUser name s).2 = match filter (λ u, uUsername u = name) (rc_users R) with u :: _ => Ok u | [] => Err errNoRows end ∧
  (pg_GetReadReceipt id name s).2 = Ok (head (filter (λ r, rrTarget r = name) (of_owner id (rc_reads R)))) ∧
  (pg_GetMessageTarget id name s).2 =
    Ok (default (MkMessageTarget 0 name false false false) (head (filter (λ t, mtTarget t = name) (of_owner id (rc_targets R))))).

Lemma of_owner_view {R A} (owner : R → Z) (view : R → A) id rows :
  of_owner id ((λ r, (owner r, view r)) <$> rows) = view <$> filter (λ r, owner r = id) rows.
Proof.
  unfold of_owner. rewrite <-(filter_fmap_view (λ r, (owner r, view r)) (λ x, x.1 = id) (λ r, owner r = id)) by done.
  by rewrite <-list_fmap_compose.
Qed.

Section reading.
Context `{!pg_laws EN} (s : pgState) (Hu : pg_unique_ok (pg_db s)) (Hn : pg_fault (pg_count s) = None).

Lemma query_lists {R A} args (f : pgdb → list R) (g : R → A) : args_error args = None →
  lists (rows ← pg_query args f; mret (g <$> rows)) s (g <$> f (pg_db s)).
Proof using Type*.
  intros Ha. destruct (pg_query_rows s Hn args f Ha) as (s' & rows & Hrun & Hp). exists (g <$> rows). erewrite bind_run by exact Hrun.
  split; [done|by rewrite Hp].
Qed.

Lemma get_user_records name : is_text name = true →
  (pg_GetUser name s).2 = match filter (λ u, uUsername u = name) (pg_scan_user <$> pt_User (pg_db s)) with u :: _ => Ok u | [] => Err errNoRows end.
Proof using Type*.
  intros Hx. destruct Hu as (_ & Huser & _). set (f := λ d, filter (λ r, pgu_username r = name) (pt_User d)).
  assert (f (pg_db s) = [] ∨ ∃ r, f (pg_db s) = [r]) as Hone by by apply (filter_unique pgu_username _ name).
  destruct (single_row s Hn [AText name] f (text_arg _ Hx) Hone) as [s' Hrun].
  rewrite <-(filter_fmap_view pg_scan_user (λ u, uUsername u = name) (λ r, pgu_username r = name)) by done.
  unfold pg_GetUser, pg_query_row. fold f. unfold mbind, M_bind. rewrite Hrun. change (filter _ (pt_User (pg_db s))) with (f (pg_db s)).
  assert (Forall (λ r, pgu_username r = name) (f (pg_db s))) as Hname by apply Forall_filter_self.
  destruct Hone as [Hz|[r Hr]]; rewrite ?Hz, ?Hr in *; [done|]. by apply Forall_cons in Hname as [<- _].
Qed.

Lemma get_read_records id name : is_int4 id = true → is_text name = true →
  (pg_GetReadReceipt id name s).2 =
    Ok (head (filter (λ r, rrTarget r = name) (read_of <$> filter (λ r, pgr_network r = id) (pt_ReadReceipt (pg_db s))))).
Proof using Type*.
  intros Hi Hx. destruct Hu as (_ & _ & _ & _ & _ & _ & _ & Hread & _).
  set (f := λ d, filter (λ r, pgr_network r = id ∧ pgr_target r = name) (pt_ReadReceipt d)).
  assert (f (pg_db s) = [] ∨ ∃ r, f (pg_db s) = [r]) as Hone
    by (apply (filter_unique (λ r, (pgr_network r, pgr_target r)) _ (id, name)); [done|by intros r [-> ->]]).
  destruct (single_row s Hn [AInt id; AText name] f (int_text_arg _ _ Hi Hx) Hone) as [s' Hrun].
  rewrite <-(filter_fmap_view read_of (λ u, rrTarget u = name) (λ r, pgr_target r = name)) by done.
  rewrite list_filter_filter. replace (filter _ (pt_ReadReceipt (pg_db s))) with (f (pg_db s)) by (apply list_filter_iff; intros; tauto).
  unfold pg_GetReadReceipt. erewrite bind_run by exact Hrun.
  assert (Forall (λ r, pgr_network r = id ∧ pgr_target r = name) (f (pg_db s))) as Hname by apply Forall_filter_self.
  destruct Hone as [Hz|[r Hr]]; rewrite ?Hz, ?Hr in *; [done|]. by apply Forall_cons in Hname as [[_ <-] _].
Qed.

Lemma get_target_records id name : is_int4 id = true → is_text name = true →
  (pg_GetMessageTarget id name s).2 =
    Ok (default (MkMessageTarget 0 name false false false)
      (head (filter (λ t, mtTarget t = name) (target_of <$> filter (λ r, tr_network r = id) (pt_MessageTarget (pg_db s)))))).
Proof using Type*.
  intros Hi Hx. destruct Hu as (_ & _ & _ & _ & _ & _ & _ & _ & _ & _ & Ht).
  assert (pg_targets id name (pg_db s) = [] ∨ ∃ r, pg_targets id name (pg_db s) = [r]) as Hone
    by (apply (filter_unique (λ r, (tr_network r, tr_target r)) _ (id, name)); [done|by intros r [-> ->]]).
  destruct (single_row s Hn [AInt id; AText name] _ (int_text_arg _ _ Hi Hx) Hone) as [s' Hrun].
  rewrite <-(filter_fmap_view target_of (λ u, mtTarget u = name) (λ r, tr_target r = name)) by done.
  rewrite list_filter_filter.
  replace (filter _ (pt_MessageTarget (pg_db s))) with (pg_targets id name (pg_db s)) by (apply list_filter_iff; intros; tauto).
  unfold pg_GetMessageTarget. erewrite bind_run by exact Hrun.
  assert (Forall (λ r, tr_network r = id ∧ tr_target r = name) (pg_targets id name (pg_db s))) as Hname by apply Forall_filter_self.
  destruct Hone as [Hz|[r Hr]]; rewrite ?Hz, ?Hr in *; [done|]. by apply Forall_cons in Hname as [[_ <-] _].
Qed.

Lemma reads_ok id name : is_int4 id = true → is_text name = true → reads_records s (records_of (pg_db s)) id name.
Proof using Type*.
  intros Hi Hx. unfold reads_records, records_of. cbn [rc_users rc_networks rc_channels rc_certs rc_deliveries rc_reads rc_targets].
  rewrite !of_owner_view. split_and!.
  1-5: by (apply query_lists; try apply int_arg).
  - by apply get_user_records.
  - by apply get_read_records.
  - by apply get_target_records.
Qed.
End reading.

(** C20: PostgreSQL keeps the records it is given. A call of StoreUser, StoreNetwork, StoreChannel,
    DeleteChannel, StoreDeviceCertificate, DeleteDeviceCertificate, StoreClientDeliveryReceipts,
    StoreReadReceipt or StoreMessageTarget that succeeds changes the records in one way: a record
    without an ID comes last, with the next number of its sequence, which is the ID the caller
    gets; another takes the place of the record with its ID and keeps what the statement does not
    set (owner, user name, name of a target); the receipts of one client on one network are
    replaced together; a deletion removes the record it names. All other records stay, and so do
    the tables of messages and of Web Push. A call that fails changes nothing, in the middle of a
    transaction too. It succeeds when the engine refuses no statement, can hold the parameters,
    has numbers left, and the new rows are unique and refer to rows that are there. Afterwards the
    reading methods answer these records: the lists those of the owner, in the engine's order, and
    the single lookups the one with the name, or none. What is stored is what was given if the
    texts fit the VARCHAR columns, times have whole microseconds, a channel detaches after whole
    seconds, no connect command of a network holds a carriage return and they are not a single
    empty one, and the credentials are those of the SASL mechanism; the certificate of a network
    with PLAIN credentials is dropped. *)
Theorem postgres_records `{!pg_laws EN} op s :
  pg_ok s → storable_op op →
  let '(s', r) := pg_do op s in
  let ids := next_ids op (pg_seq s) in
  (∀ new, r = Ok new → new = (λ id, (op_table op, id)) <$> ids ∧
    records_of (pg_db s') = record_step op ids (records_of (pg_db s)) ∧ others_kept (pg_db s') (pg_db s)) ∧
  ((∀ new, r ≠ Ok new) → pg_db s' = pg_db s) ∧
  (ready op s → pg_unique_ok (effect op s) → pg_foreign_ok (effect op s) → ∃ new, r = Ok new) ∧
  (∀ id name, pg_fault (pg_count s') = None → is_int4 id = true → is_text name = true →
    reads_records s' (records_of (pg_db s')) id name).
Proof.
  intros Hok Hst. pose proof (do_stores op s Hok Hst) as Hdo. pose proof (pres_do (pg_seq s) op s (pg_inv_self s Hok)) as [Hok' _].
  unfold stores in Hdo. destruct (pg_do op s) as [s' r]. destruct Hdo as [Hdb Hgo]. split_and!.
  - intros new ->. destruct Hdb as [[[= ->] ->]|[Hno _]]; [|by destruct (Hno new)]. split_and!; [done|by apply effect_records|apply effect_others].
  - intros Hno. destruct Hdb as [[-> _]|[_ ?]]; [by edestruct Hno|done].
  - intros Hr Hu Hf. eexists. by apply Hgo.
  - intros id name Hn Hi Hx. apply reads_ok; [apply (ok_unique _ Hok')|done..].
Qed.
End records.

(** * The metric of networks per host (database/postgres.go)

    The collector counts the networks of every host, and lumps together those of hosts with
    few of them: no number of the metric is about a handful of users. *)

(** [URL.Hostname]: the host without a port, and without the brackets of an IPv6 address. *)
Definition validOptionalPort (port : string) : bool :=
  match port with
  | "" => true
  | String c rest => (byte_val c =? 58) && forallb (λ d, in_range 48 57 (byte_val d)) (str_list rest)
  end.
Definition URL_Hostname (hostPort : string) : string :=
  let host := match LastIndexAny hostPort ":" with
              | Some colon => if validOptionalPort (str_drop colon hostPort) then str_take colon hostPort else hostPort
              | None => hostPort
              end in
  if HasPrefix host "[" && HasSuffix host "]" then str_take (slen host - 2) (str_drop 1 host) else host.

(** Go's [m[k] += n]. *)
Definition bump (k : string) (n : Z) (m : gmap string Z) : gmap string Z := <[k := default 0 (m !! k) + n]> m.

Section metrics.
Context `{EN : pgengine} `{UE : uenv}.

Definition pg_listTopNetworkAddrs : PG (gmap string Z) :=
  pg_send [] ;; gets (λ s, foldr (λ r, bump (nr_addr r) 1) ∅ (pt_Network (pg_db s))).

Definition metric_host (addr : string) : string :=
  match Network_URL (MkNetwork 0 "" addr "" "" "" "" [] "" emptySASL false false) with
  | Some u => URL_Hostname (urlHost u)
  | None => addr
  end.

(** The networks of every host; the addresses come in the order Go goes through a map. *)
Definition group_hosts (addrs : list (string * Z)) : gmap string Z :=
  foldl (λ hosts x, bump (metric_host x.1) x.2 hosts) ∅ addrs.

Definition watermark : Z := 10.

(** The hosts that are named, and the number of networks of the others. *)
Fixpoint collect_hosts (hosts : list (string * Z)) : list (string * Z) * Z :=
  match hosts with
  | [] => ([], 0)
  | (hostname, n) :: hosts =>
    let '(metrics, grouped) := collect_hosts hosts in
    if (watermark <=? n) && bool_decide (hostname ≠ "") && bool_decide (hostname ≠ "*")
    then ((hostname, n) :: metrics, grouped) else (metrics, grouped + n)
  end.

(** [Collect], with the order of the two maps. *)
Definition pg_Collect (order : gmap string Z → list (string * Z)) : PG (list (string * Z) + goerr) :=
  r ← try pg_listTopNetworkAddrs;
  match r with
  | inr e => mret (inr e)
  | inl addrs =>
    let '(metrics, grouped) := collect_hosts (order (group_hosts (order addrs))) in
    mret (inl (metrics ++ (if 0 <? grouped then [("*", grouped)] else [])))
  end.
End metrics.

(** ** Sums *)

(** The sum of a map, each key with a weight. *)
Definition weigh (f : string → Z) (l : list (string * Z)) : Z := foldr (λ x sum, f x.1 * x.2 + sum) 0 l.

Lemma weigh_cons f x l : weigh f (x :: l) = f x.1 * x.2 + weigh f l.
Proof. done. Qed.
Lemma weigh_perm f l k : l ≡ₚ k → weigh f l = weigh f k.
Proof. induction 1; rewrite ?weigh_cons; lia. Qed.
Lemma weigh_app f l k : weigh f (l ++ k) = weigh f l + weigh f k.
Proof. induction l as [|x l IH]; [done|]. change ((x :: l) ++ k) with (x :: (l ++ k)). rewrite !weigh_cons, IH. lia. Qed.
Lemma weigh_bump f k n m : weigh f (map_to_list (bump k n m)) = weigh f (map_to_list m) + f k * n.
Proof.
  unfold bump. rewrite <-insert_delete_eq, (weigh_perm f _ _ (map_to_list_insert (delete k m) k _ (lookup_delete_eq m k))).
  rewrite weigh_cons. cbn [fst snd]. destruct (m !! k) as [x|] eqn:Hk; cbn [default].
  - rewrite <-(weigh_perm f _ _ (map_to_list_delete m k x Hk)), weigh_cons. cbn [fst snd id]. ring.
  - rewrite delete_id by done. ring.
Qed.
Definition indicator (P : string → Prop) `{!∀ x, Decision (P x)} (x : string) : Z := if decide (P x) then 1 else 0.

(** The number of networks with a property of their address. *)
Definition count_networks (P : string → Prop) `{!∀ x, Decision (P x)} (nets : list networkRow) : Z :=
  Z.of_nat (length (filter (λ r, P (nr_addr r)) nets)).

Lemma weigh_addrs P `{!∀ x, Decision (P x)} nets :
  weigh (indicator P) (map_to_list (foldr (λ r, bump (nr_addr r) 1) ∅ nets)) = count_networks P nets.
Proof.
  unfold count_networks. induction nets as [|r nets IH]; [done|]. cbn [foldr]. rewrite weigh_bump, IH.
  rewrite filter_cons. unfold indicator. repeat case_decide; cbn [length]; try done; lia.
Qed.
Lemma weigh_ext f g l : (∀ x, f x = g x) → weigh f l = weigh g l.
Proof. intros Hf. induction l as [|x l IH]; [done|]. by rewrite !weigh_cons, Hf, IH. Qed.

(** The weight of one key is its value. *)
Lemma weigh_key m k n : m !! k = Some n → weigh (indicator (λ x, x = k)) (map_to_list m) = n.
Proof.
  intros Hk. rewrite <-(weigh_perm _ _ _ (map_to_list_delete m k n Hk)), weigh_cons. unfold indicator at 1. cbn [fst snd].
  rewrite decide_True by done. assert (weigh (indicator (λ x, x = k)) (map_to_list (delete k m)) = 0) as ->; [|lia].
  assert (∀ l, (∀ x, x ∈ l → x.1 ≠ k) → weigh (indicator (λ x, x = k)) l = 0) as Hz.
  { clear. induction l as [|x l IH]; intros Hl; [done|]. rewrite weigh_cons, IH by (intros y Hy; apply Hl; by right).
    unfold indicator. rewrite decide_False by (apply Hl; by left). lia. }
  apply Hz. intros [x y] Hx%elem_of_map_to_list. cbn. intros ->. by rewrite lookup_delete_eq in Hx.
Qed.

Section metrics.
Context `{EN : pgengine} `{UE : uenv}.

Lemma weigh_hosts f addrs : weigh f (map_to_list (group_hosts addrs)) = weigh (λ a, f (metric_host a)) addrs.
Proof.
  assert (∀ m, weigh f (map_to_list (foldl (λ hosts x, bump (metric_host x.1) x.2 hosts) m addrs)) =
    weigh f (map_to_list m) + weigh (λ a, f (metric_host a)) addrs) as Hm;
    [|unfold group_hosts; rewrite (Hm ∅), map_to_list_empty; cbn [weigh foldr]; lia].
  induction addrs as [|x addrs IH]; intros m; cbn [foldl]; [unfold weigh at 3; cbn [foldr]; lia|]. rewrite IH, weigh_bump, weigh_cons. lia.
Qed.

Lemma collect_hosts_sum hosts metrics grouped : collect_hosts hosts = (metrics, grouped) →
  weigh (λ _, 1) metrics + grouped = weigh (λ _, 1) hosts ∧
  Forall (λ x, x ∈ hosts ∧ watermark ≤ x.2 ∧ x.1 ≠ "" ∧ x.1 ≠ "*") metrics ∧
  (Forall (λ x, 0 ≤ x.2) hosts → 0 ≤ grouped).
Proof.
  revert metrics grouped. induction hosts as [|[h n] hosts IH]; intros metrics grouped Hc; [by injection Hc as <- <-|]. cbn in Hc.
  destruct (collect_hosts hosts) as [ms g]. destruct (IH ms g eq_refl) as (Hsum & Hms & Hg). rewrite Forall_cons. cbn [snd]. rewrite weigh_cons. cbn [fst snd].
  assert (Forall (λ x : string * Z, x ∈ (h, n) :: hosts ∧ watermark ≤ x.2 ∧ x.1 ≠ "" ∧ x.1 ≠ "*") ms) as Hms'.
  { eapply Forall_impl; [exact Hms|]. intros x (? & ?). split; [by right|done]. }
  destruct (_ && _) eqn:Hk; injection Hc as <- <-.
  - rewrite weigh_cons. cbn [fst snd]. split_and!; [lia| |intros [_ ?]; by apply Hg]. constructor; [|done]. cbn. rewrite !andb_true_iff, !bool_decide_eq_true, Z.leb_le in Hk.
    split; [by left|tauto].
  - split_and!; [lia|done|]. intros [? ?]. specialize (Hg ltac:(done)). lia.
Qed.

(** What is counted for a host. *)
Lemma group_hosts_count (order : gmap string Z → list (string * Z)) nets h n :
  (∀ m, order m ≡ₚ map_to_list m) →
  (h, n) ∈ order (group_hosts (order (foldr (λ r, bump (nr_addr r) 1) ∅ nets))) →
  n = count_networks (λ addr, metric_host addr = h) nets.
Proof.
  intros Hord. rewrite (Hord (group_hosts _)). intros Hn%elem_of_map_to_list%weigh_key. rewrite <-Hn, weigh_hosts, (weigh_perm _ _ _ (Hord _)).
  rewrite <-(weigh_addrs (λ addr, metric_host addr = h)). by apply weigh_ext.
Qed.

(** The metric names no small group. Whatever the order in which Go goes through its maps,
    [Collect] counts every network of the database once; a number with the name of a host is the
    number of its networks, and there are ten of them at least. *)
Theorem metrics_private order s s' metrics :
  (∀ m, order m ≡ₚ map_to_list m) → pg_Collect order s = (s', Ok (inl metrics)) →
  weigh (λ _, 1) metrics = Z.of_nat (length (pt_Network (pg_db s))) ∧
  Forall (λ x, x.1 ≠ "*" → 10 ≤ x.2 ∧ x.2 = count_networks (λ addr, metric_host addr = x.1) (pt_Network (pg_db s))) metrics.
Proof.
  intros Hord. unfold pg_Collect, pg_listTopNetworkAddrs. unfold try, mbind at 1, M_bind at 1.
  destruct ((pg_send [] ;; _) s) as [s1 [addrs|e|w]] eqn:Hr; [|by intros [=]|done].
  assert (addrs = foldr (λ r, bump (nr_addr r) 1) ∅ (pt_Network (pg_db s))) as Ha.
  { revert Hr. unfold pg_send, pg_step, mbind, M_bind. destruct (pg_fault (pg_count s)); [done|]. by intros [= _ <-]. }
  set (hosts := order (group_hosts (order addrs))). destruct (collect_hosts hosts) as [ms g] eqn:Hc. intros [= _ <-].
  assert (∀ h n, (h, n) ∈ hosts → n = count_networks (λ addr, metric_host addr = h) (pt_Network (pg_db s))) as Hcount
    by (intros h n; unfold hosts; rewrite Ha; by apply group_hosts_count).
  apply collect_hosts_sum in Hc as (Hsum & Hms & Hg).
  assert (0 ≤ g) as Hg0 by (apply Hg, Forall_forall; intros [h n] Hin; cbn; rewrite (Hcount h n Hin); unfold count_networks; lia).
  assert (weigh (λ _, 1) hosts = Z.of_nat (length (pt_Network (pg_db s)))) as Htotal.
  { unfold hosts. rewrite (weigh_perm _ _ _ (Hord _)), weigh_hosts, (weigh_perm _ _ _ (Hord _)), Ha.
    rewrite <-(weigh_ext (indicator (λ _, True))) by done. rewrite weigh_addrs. unfold count_networks.
    f_equal. f_equal. clear. induction (pt_Network (pg_db s)) as [|r l IH]; [done|].
    rewrite filter_cons. case_decide; [|tauto]. by rewrite IH. }
  split.
  - rewrite weigh_app, <-Htotal, <-Hsum. destruct (Z.ltb_spec 0 g); [rewrite weigh_cons; cbn; lia|]. cbn. lia.
  - apply Forall_app. split.
    + eapply Forall_impl; [exact Hms|]. intros [h n] (Hin & Hw & _ & _) _. split; [done|]. by apply Hcount.
    + destruct (0 <? g); [|constructor]. constructor; [by intros []|constructor].
Qed.
End metrics.
