(* ===== verification/PgExamples.v ===== *)
(** * Examples of the PostgreSQL database

    An engine with which the theorems about PostgreSQL are run: it answers the rows of a table
    backwards and drops the nanoseconds of times. *)

From S2P Require Import Prelude GoStrings GoUnicode IrcMessage GenMsg GoTime Effects Database Downstream UserNetworks UserNetworksInv SqlTables Sqlite SqliteDelete SqliteSpec Postgres PgInv PgBackends PgHistory.

Open Scope string_scope.
Open Scope list_scope.
Open Scope Z_scope.

(** ** An engine *)

Definition key_le {R} (key : R → Z) (a b : R) : Prop := key a ≤ key b.
#[global] Instance key_le_dec {R} (key : R → Z) : RelDecision (key_le key).
Proof. intros a b. unfold key_le. apply _. Defined.
#[global] Instance key_le_total {R} (key : R → Z) : Total (key_le key).
Proof. intros a b. unfold key_le. lia. Qed.
#[global] Instance key_le_trans {R} (key : R → Z) : Transitive (key_le key).
Proof. intros a b c. unfold key_le. lia. Qed.

Definition demo_pg (refused : option nat) : pgengine := {|
  pg_fault n := match refused with Some k => if (n =? k)%nat then Some (Errorf "connection reset") else None | None => None end;
  pg_now _ := 1704067200 * nsPerSecond;
  pg_timestamp t := t - t mod 1000;
  pg_scan R _ rows := rev rows;
  pg_asc R key rows := merge_sort (key_le key) rows;
  pg_desc R key rows := rev (merge_sort (key_le key) rows);
  pg_tsmatch text query := Contains text query
|}.

Lemma demo_pg_laws refused : pg_laws (demo_pg refused).
Proof.
  assert (∀ R (key : R → Z) rows, StronglySorted (key_le key) (merge_sort (key_le key) rows)) as Hs.
  { intros. apply Sorted_StronglySorted; [apply _|]. apply Sorted_merge_sort, _. }
  split; intros; cbn.
  - symmetry. apply Permutation_rev.
  - apply merge_sort_Permutation.
  - apply Hs.
  - by rewrite <-Permutation_rev, merge_sort_Permutation.
  - apply StronglySorted_rev. apply Hs.
  - lia.
Qed.

(** ** Tables *)

Definition demo_time : Z := 1704067200 * nsPerSecond.

Definition demo_pgdb : pgdb :=
  MkPgDb
    [MkPgUser 1 "alice" (Some "hash") true None None demo_time true (Some demo_time) (-1);
     MkPgUser 2 "bob" None false (Some "bob_") None demo_time true None 3]
    [MkNetworkRow 1 None 1 "irc.example.org" None None None None None None None None None None None true true;
     MkNetworkRow 2 (Some "other") 2 "irc.example.org" None None None None None None None None None None None true true]
    [MkChannelRow 1 1 "#go" None false None FilterDefault FilterDefault 0 FilterDefault;
     MkChannelRow 2 1 "#rocq" None true None FilterDefault FilterDefault 60 FilterDefault]
    [MkPgCert 1 1 "laptop" "fp" demo_time "127.0.0.1"]
    [MkPgDelivery 1 1 "#go" "" "id"; MkPgDelivery 2 1 "#go" "phone" "id"]
    [MkPgRead 1 1 "#go" demo_time] []
    [MkPgPush 1 demo_time demo_time 1 (Some 1) "https://push.example" "" "" ""]
    [MkTargetRow 1 1 "#go" false false false; MkTargetRow 2 2 "#go" true false false]
    [MkPgMessage 1 1 "hello" demo_time "bob" (Some "hello"); MkPgMessage 2 2 "hi" demo_time "alice" (Some "hi")].
Definition demo_pgs : pgState := MkPg demo_pgdb (λ _, 2) 0.

Lemma demo_pgs_ok : pg_ok demo_pgs.
Proof.
  split.
  - refine (bool_decide_unpack _ _). vm_compute. exact I.
  - refine (bool_decide_unpack _ _). vm_compute. exact I.
  - split; repeat constructor; vm_compute; lia.
  - intros [] id Hid; cbn in *; repeat (apply elem_of_cons in Hid as [->|Hid]); try lia; by apply not_elem_of_nil in Hid.
  - intros t. cbn. unfold int4_max. lia.
Qed.

(** A codec that writes the last parameter of a message. *)
Definition pg_demo_msg (time text : string) : Message :=
  mkMessage {["time" := time]} (Some (mkPrefix "bob" "" "")) "PRIVMSG" ["#go"; text].
Definition pg_codec : sqlenv := {|
  sq_token r := in_range 97 122 r;
  sq_MessageString m := default "" (last (Params m));
  sq_ParseMessage s := Some (pg_demo_msg "2024-01-01T00:00:00.000Z" s)
|}.

(** ** IDs *)

(** Bob goes, a new user is refused for a name that is taken, and the next one does not get his ID. *)
Definition demo_calls : list pgop := [OpDeleteUser 2; OpStoreUser (NewUser "alice")].

Lemma postgres_consistent_witness :
  let EN := demo_pg None in
  let LE := pg_codec in
  let s' := pg_run demo_calls demo_pgs in
  pg_ok s' ∧ ids_of TUser (pg_db s') = [1] ∧ (pg_do (OpStoreUser (NewUser "carol")) s').2 = Ok [(TUser, 4)] ∧
  ∀ id, id ∈ ids_of TUser demo_pgdb ∨ id = pg_seq s' TUser → id < 4.
Proof.
  intros EN LE s'. destruct (postgres_consistent demo_calls demo_pgs demo_pgs_ok) as [Hok Hfresh]. fold s' in Hok, Hfresh.
  split_and!; [exact Hok|vm_compute; reflexivity|vm_compute; reflexivity|].
  destruct (pg_do (OpStoreUser (NewUser "carol")) s') as [s'' r] eqn:Hrun.
  assert (r = Ok [(TUser, 4)]) as ->.
  { assert (r = (pg_do (OpStoreUser (NewUser "carol")) s').2) as -> by (by rewrite Hrun). vm_compute. reflexivity. }
  apply Hfresh in Hrun. apply Forall_cons in Hrun as [Hrun _]. exact Hrun.
Defined.

(** ** Records *)

(** The receipts of a client are replaced. *)
Definition demo_receipts : list DeliveryReceipt := [MkReceipt 0 "#go" "phone" "id2"; MkReceipt 0 "#rocq" "phone" "id3"].
Definition demo_deliver : pgop := OpStoreClientDeliveryReceipts 1 "phone" demo_receipts.

(** With an engine that answers, both receipts are stored and the other client keeps its own; with
    one that refuses the second INSERT, all are as before. *)
Lemma postgres_records_witness :
  let LE := pg_codec in
  let s1 := (pg_do (EN := demo_pg None) demo_deliver demo_pgs).1 in
  (pg_do (EN := demo_pg None) demo_deliver demo_pgs).2 = Ok [(TDeliveryReceipt, 3); (TDeliveryReceipt, 4)] ∧
  rc_deliveries (records_of (pg_db s1)) =
    [(1, MkReceipt 1 "#go" "" "id"); (1, MkReceipt 3 "#go" "phone" "id2"); (1, MkReceipt 4 "#rocq" "phone" "id3")] ∧
  lists (pg_ListDeliveryReceipts (EN := demo_pg None) 1) s1
    [MkReceipt 1 "#go" "" "id"; MkReceipt 3 "#go" "phone" "id2"; MkReceipt 4 "#rocq" "phone" "id3"] ∧
  (pg_do (EN := demo_pg (Some 4%nat)) demo_deliver demo_pgs).2 = Err (Errorf "connection reset") ∧
  pg_db (pg_do (EN := demo_pg (Some 4%nat)) demo_deliver demo_pgs).1 = demo_pgdb.
Proof.
  intros LE s1. assert (storable_op demo_deliver) as Hst by (split; repeat constructor; vm_compute; lia).
  pose proof (postgres_records (EN := demo_pg None) (pg_laws0 := demo_pg_laws None) demo_deliver demo_pgs demo_pgs_ok Hst) as Hok.
  pose proof (postgres_records (EN := demo_pg (Some 4%nat)) (pg_laws0 := demo_pg_laws (Some 4%nat)) demo_deliver demo_pgs demo_pgs_ok Hst) as Hno.
  destruct (pg_do (EN := demo_pg None) demo_deliver demo_pgs) as [s' r] eqn:Hrun. cbn [fst] in s1. subst s1.
  assert (r = Ok [(TDeliveryReceipt, 3); (TDeliveryReceipt, 4)]) as ->.
  { assert (r = (pg_do (EN := demo_pg None) demo_deliver demo_pgs).2) as -> by (by rewrite Hrun). vm_compute. reflexivity. }
  destruct Hok as (Hrec & _ & _ & Hread). destruct (Hrec _ eq_refl) as (_ & Hrecords & _).
  destruct (Hread 1 "#go" eq_refl eq_refl ltac:(vm_compute; reflexivity)) as (_ & _ & _ & _ & Hl & _). rewrite Hrecords in *.
  destruct (pg_do (EN := demo_pg (Some 4%nat)) demo_deliver demo_pgs) as [s2 r2] eqn:Hrun2.
  assert (r2 = Err (Errorf "connection reset")) as ->.
  { assert (r2 = (pg_do (EN := demo_pg (Some 4%nat)) demo_deliver demo_pgs).2) as -> by (by rewrite Hrun2). vm_compute. reflexivity. }
  split_and!; [reflexivity|reflexivity|exact Hl|reflexivity|]. by apply Hno.
Defined.

(** SQLite gives the ID of the last user again once the user is gone. *)
Example sqlite_reuses_id :
  let EN := demo_engine None in
  let s := (DeleteUser 2 (MkSql demo_db 0)).1 in
  users_of demo_db = [1; 2] ∧ users_of (sq_db s) = [1] ∧
  match StoreUser (NewUser "carol") s with (s', Ok u) => uID u = 2 ∧ users_of (sq_db s') = [1; 2] | _ => False end.
Proof. split_and!; [vm_compute; reflexivity..|]. vm_compute. done. Qed.

(** ** Deletion *)

Lemma backends_delete_alike_witness :
  let EN := demo_pg None in
  let EN' := demo_engine None in
  ∃ s' q', pg_DeleteUser 1 demo_pgs = (s', Ok tt) ∧ DeleteUser 1 (MkSql (pg_view demo_pgdb) 0) = (q', Ok tt) ∧
    sq_db q' = pg_view (pg_db s') ∧ pgm_id <$> pt_Message (pg_db s') = [2].
Proof.
  intros EN EN'.
  destruct (backends_delete_alike (EN := EN) (EN' := EN') 1 demo_pgs 0 demo_pgs_ok (λ _, eq_refl) (λ _, eq_refl) eq_refl) as [Hu _].
  assert (push_owned 1 (pg_view demo_pgdb)) as Hp by (constructor; [by intros n|constructor]).
  destruct (Hu Hp) as (s' & q' & Hs & Hq & Hv). exists s', q'. split_and!; [exact Hs|exact Hq|exact Hv|].
  assert (s' = (pg_DeleteUser (EN := EN) 1 demo_pgs).1) as -> by (by rewrite Hs). vm_compute. reflexivity.
Defined.

(** ** Answers *)

Lemma demo_whole_ms : pg_whole_ms demo_pgdb.
Proof. split; repeat constructor; vm_compute; done. Qed.

Lemma backends_read_alike_witness :
  let EN := demo_pg None in
  let EN' := demo_engine None in
  same_elements (pg_ListChannels 1 demo_pgs).2 (ListChannels 1 (MkSql (pg_view demo_pgdb) 0)).2 ∧
  (pg_ListChannels 1 demo_pgs).2 ≠ (ListChannels 1 (MkSql (pg_view demo_pgdb) 0)).2 ∧
  (pg_GetReadReceipt 1 "#go" demo_pgs).2 = (GetReadReceipt 1 "#go" (MkSql (pg_view demo_pgdb) 0)).2 ∧
  (pg_GetReadReceipt 1 "#go" demo_pgs).2 = Ok (Some (MkReadReceipt 1 "#go" demo_time)).
Proof.
  intros EN EN'. pose proof (demo_pg_laws None) as Hlaws.
  destruct (backends_read_alike (EN := EN) (EN' := EN') demo_pgs (MkSql (pg_view demo_pgdb) 0) 1 1 "#go" demo_pgs_ok demo_whole_ms
    eq_refl eq_refl eq_refl eq_refl eq_refl ltac:(vm_compute; reflexivity)) as (_ & _ & Hc & _ & _ & _ & _ & _ & Hr & _).
  split_and!; [exact Hc|vm_compute; done|exact Hr|vm_compute; reflexivity].
Defined.

(** ** History *)

Definition demo_stored : list Message :=
  [pg_demo_msg "2024-01-01T00:00:05.000Z" "two"; pg_demo_msg "2024-01-01T00:00:01.000Z" "one"].
Definition pg_demo_options : MessageOptions := MkMessageOptions 0 zeroTime zeroTime 2 false "" "" true.

Lemma postgres_history_witness :
  let EN := demo_pg None in
  let LE := pg_codec in
  let '(s', r) := pg_StoreMessages 1 "#go" demo_stored demo_pgs in
  r = Ok [3; 4] ∧
  (pg_ListMessages 1 "#go" pg_demo_options s').2 =
    Ok [pg_demo_msg "2024-01-01T00:00:00.000Z" "one"; pg_demo_msg "2024-01-01T00:00:00.000Z" "two"] ∧
  pg_messages_of 2 "#go" (pg_db s') = pg_messages_of 2 "#go" demo_pgdb.
Proof.
  intros EN LE. pose proof (demo_pg_laws None) as Hlaws.
  assert (pg_options pg_demo_options) as Ho by (split; vm_compute; done).
  pose proof (postgres_history (EN := EN) 1 "#go" demo_stored pg_demo_options demo_pgs demo_pgs_ok (λ _, eq_refl) eq_refl
    ltac:(vm_compute; reflexivity) Ho ltac:(repeat constructor; by eexists) ltac:(repeat constructor; by eexists)) as Hh.
  destruct (pg_StoreMessages 1 "#go" demo_stored demo_pgs) as [s' r] eqn:Hrun.
  assert (s' = (pg_StoreMessages (EN := EN) 1 "#go" demo_stored demo_pgs).1) as Hs by (by rewrite Hrun).
  assert (r = Ok [3; 4]) as ->.
  { assert (r = (pg_StoreMessages (EN := EN) 1 "#go" demo_stored demo_pgs).2) as -> by (by rewrite Hrun). vm_compute. reflexivity. }
  destruct Hh as (new & s'' & all & rows & answer & _ & _ & _ & _ & _ & _ & _ & Hothers).
  split_and!; [reflexivity|rewrite Hs; vm_compute; reflexivity|]. apply Hothers. done.
Defined.

(** [StoreMessages] makes the text of the whole message valid, but not the columns it copies from
    it: a message whose parameter is not UTF-8 is refused, and with it those it is stored with. *)
Example postgres_refuses_text :
  let EN := demo_pg None in
  let LE := pg_codec in
  let m := pg_demo_msg "2024-01-01T00:00:05.000Z" ("caf" +:+ String (byte_of 233) "") in
  is_text (pg_raw m) = true ∧
  pg_StoreMessages 1 "#go" [pg_demo_msg "2024-01-01T00:00:01.000Z" "one"; m] demo_pgs =
    (MkPg demo_pgdb (advance TMessage 3 (advance TMessageTarget 3 (λ _, 2))) 5, Err errEncoding).
Proof. split; vm_compute; reflexivity. Qed.

(** ** Metrics *)

Definition demo_networks (addr : string) (n : nat) : list networkRow :=
  (λ i, MkNetworkRow (Z.of_nat i) None 1 addr (Some (str_of_list (repeat (byte_of 97) i))) None None None None None None None None None None true true)
    <$> seq 1 n.

(** Twelve networks of a host, on two addresses, and three of another. *)
Example metrics_demo :
  let d := put_Network (demo_networks "irc.example.org" 7 ++ demo_networks "irc.example.org:6697" 5 ++ demo_networks "tiny.example" 3) emptyPgDb in
  (pg_Collect (EN := demo_pg None) (UE := demo_uenv) map_to_list (MkPg d (λ _, 0) 0)).2
    = Ok (inl [("irc.example.org", 12); ("*", 3)]).
Proof. vm_compute. reflexivity. Qed.
