(* ===== verification/DbUpgrade.v ===== *)
(** * Opening and upgrading a database (database/sqlite.go, database/postgres.go)

    When a database is opened its schema is brought up to date: a new database gets the current
    schema, an older one the migrations it has not seen, in one transaction with the version. The
    scripts and what they do to the tables are parameters. *)

From S2P Require Import Prelude GoStrings IrcMessage Effects SqlTables.

Open Scope string_scope.
Open Scope list_scope.
Open Scope Z_scope.

(** The tables, and the version of their schema. In PostgreSQL the version is the row of a table
    that may be missing ([None]) or empty ([Some None]); SQLite keeps a number, at first zero. *)
Record dbfile (T V : Type) := MkFile { df_tables : T; df_version : V }.
Arguments MkFile {T V} _ _.
Arguments df_tables {T V} _.
Arguments df_version {T V} _.

(** A connection: the database, the statements so far, and whether it is open. *)
Record dbconn (T V : Type) := MkDbConn { dk_file : dbfile T V; dk_count : nat; dk_open : bool }.
Arguments MkDbConn {T V} _ _ _.
Arguments dk_file {T V} _.
Arguments dk_count {T V} _.
Arguments dk_open {T V} _.

(** The scripts the program has, and what the engine makes of one. *)
Class scripts (T : Type) := MkScripts {
  sc_schema : string;
  sc_migrations : list string;
  sc_run : string → T → T + goerr
}.

Section upgrade.
Context {T V : Type} `{EN : engine} `{SC : scripts T}.
Notation UP := (ST (dbconn T V)).

Definition set_file (f : dbfile T V) (c : dbconn T V) : dbconn T V := MkDbConn f (dk_count c) (dk_open c).

Definition up_step : UP unit := λ c,
  (MkDbConn (dk_file c) (S (dk_count c)) (dk_open c), match en_fault (dk_count c) with Some e => Err e | None => Ok tt end).

(** A statement; its error is wrapped in another. *)
Definition up_exec (wrapped : goerr) (f : dbfile T V → dbfile T V + goerr) : UP unit :=
  r ← try (up_step ;; file ← gets dk_file; match f file with inl file' => modify (set_file file') | inr e => fail e end);
  match r with inl _ => mret tt | inr _ => fail wrapped end.

(** [Begin], with [Rollback] deferred: the changes stay when the body asks for [Commit] and that succeeds. *)
Definition up_transaction (body : UP bool) : UP unit := λ c,
  match (up_step ;; commit ← body; (if commit : bool then up_step else skip) ;; mret commit) c with
  | (c', Ok true) => (c', Ok tt)
  | (c', Ok false) => (set_file (dk_file c) c', Ok tt)
  | (c', Err e) => (set_file (dk_file c) c', Err e)
  | (c', Panic w) => (set_file (dk_file c) c', Panic w)
  end.

Definition run_tables (prepare : string → string) (script : string) (file : dbfile T V) : dbfile T V + goerr :=
  match sc_run (prepare script) (df_tables file) with
  | inl t => inl (MkFile t (df_version file))
  | inr e => inr e
  end.

(** The schema of a new database, or the migrations from [version] on. *)
Definition migrate (prepare : string → string) (version : Z) : UP unit :=
  if decide (version = 0) then up_exec (Errorf "failed to initialize schema: %v") (run_tables prepare sc_schema)
  else if version <? 0 then panic "index out of range"
  else foreach (λ script, up_exec (Errorf "failed to execute migration #%v: %v") (run_tables prepare script))
    (drop (Z.to_nat version) sc_migrations).

Definition latest : Z := Z.of_nat (length sc_migrations).
Definition errOlder : goerr := Errorf "soju (version %d) older than schema (version %d)".

(** [Open...DB]: a database that cannot be upgraded is closed. *)
Definition open_db (opened : option goerr) (upgrade : UP unit) : UP unit :=
  match opened with
  | Some e => fail e
  | None =>
    modify (λ c, MkDbConn (dk_file c) (dk_count c) true) ;;
    r ← try upgrade;
    match r with
    | inl _ => mret tt
    | inr e => modify (λ c, MkDbConn (dk_file c) (dk_count c) false) ;; fail e
    end
  end.
End upgrade.

Section backends.
Context {T : Type} `{EN : engine} `{SC : scripts T}.

Definition sqlite_upgrade : ST (dbconn T Z) unit :=
  r ← try up_step;
  match r with
  | inr _ => fail (Errorf "failed to query schema version: %v")
  | inl _ =>
    version ← gets (λ c, df_version (dk_file c));
    if decide (version = latest) then mret tt
    else if latest <? version then fail errOlder
    else up_transaction (
      migrate id version ;;
      up_exec (Errorf "failed to bump schema version: %v") (λ file, inl (MkFile (df_tables file) latest)) ;;
      mret true)
  end.

(** [template]: the prefix of the temporary schema. *)
Definition template (temp : bool) (t : string) : string := Replacer [("@SCHEMA_PREFIX@", if temp then "pg_temp." else "")] t.

Definition pg_upgrade (temp : bool) : ST (dbconn T (option (option Z))) unit :=
  up_transaction (
    up_exec (Errorf "failed to create Config table: %s")
      (λ file, inl (MkFile (df_tables file) (Some (default None (df_version file))))) ;;
    r ← try up_step;
    match r with
    | inr _ => fail (Errorf "failed to query schema version: %s")
    | inl _ =>
      version ← gets (λ c, default 0 (default None (df_version (dk_file c))));
      if decide (version = latest) then mret false
      else if latest <? version then fail errOlder
      else
        migrate (template temp) version ;;
        up_exec (Errorf "failed to bump schema version: %v") (λ file, inl (MkFile (df_tables file) (Some (Some latest)))) ;;
        mret true
    end).

Definition OpenSqliteDB (opened : option goerr) : ST (dbconn T Z) unit := open_db opened sqlite_upgrade.
Definition OpenPostgresDB (opened : option goerr) : ST (dbconn T (option (option Z))) unit := open_db opened (pg_upgrade false).
(** Temporary tables live in a schema of the connection. *)
Definition OpenTempPostgresDB (opened : option goerr) : ST (dbconn T (option (option Z))) unit :=
  match opened with
  | Some e => fail e
  | None =>
    modify (λ c, MkDbConn (dk_file c) (dk_count c) true) ;;
    r ← try up_step;
    match r with
    | inr _ => fail (Errorf "failed to set PostgreSQL search_path: %v")
    | inl _ => open_db None (pg_upgrade true)
    end
  end.
End backends.

(** ** What an upgrade does *)

Section spec.
Context {T : Type} `{EN : engine} `{SC : scripts T}.

Fixpoint run_all (prepare : string → string) (l : list string) (t : T) : T + goerr :=
  match l with
  | [] => inl t
  | script :: l => match sc_run (prepare script) t with inl t' => run_all prepare l t' | inr e => inr e end
  end.

(** The tables of the latest version, from those of an older one: the schema for a new database,
    and otherwise every migration since, once and in order. *)
Definition migrated (prepare : string → string) (version : Z) (t t' : T) : Prop :=
  0 ≤ version < latest ∧
  (if decide (version = 0) then sc_run (prepare sc_schema) t = inl t'
   else run_all prepare (drop (Z.to_nat version) sc_migrations) t = inl t').

Section version.
Context {V : Type}.
Notation conn := (dbconn T V).

(** [m] either ends normally with a change of the database, or not. *)
Definition ends {A} (m : ST conn A) (P : dbfile T V → dbfile T V → A → Prop) : Prop := ∀ c,
  match m c with (c', Ok a) => P (dk_file c) (dk_file c') a | _ => True end.

Lemma ends_bind {A B} (m : ST conn A) (k : A → ST conn B) P Q :
  ends m P → (∀ a, ends (k a) (Q a)) → ends (m ≫= k) (λ f f' b, ∃ a f1, P f f1 a ∧ Q a f1 f' b).
Proof.
  intros Hm Hk c. unfold mbind, M_bind. specialize (Hm c). destruct (m c) as [c1 [a|e|w]]; [|done|done].
  specialize (Hk a c1). destruct (k a c1) as [c2 [b|e|w]]; [|done|done]. eauto.
Qed.
Lemma ends_exec wrapped f : ends (up_exec wrapped f) (λ file file' _, f file = inl file').
Proof.
  intros c. unfold up_exec, try, up_step, mbind, M_bind. destruct (en_fault (dk_count c)); [done|]. unfold gets. cbn.
  by destruct (f (dk_file c)).
Qed.
Lemma ends_migrations prepare wrapped l :
  ends (foreach (λ script, up_exec wrapped (run_tables prepare script)) l)
    (λ f f' _, ∃ t', run_all prepare l (df_tables f) = inl t' ∧ f' = MkFile t' (df_version f)).
Proof.
  induction l as [|script l IH]; [by intros [[t v] n o]; exists t|].
  intros c. pose proof (ends_bind _ _ _ _ (ends_exec wrapped (run_tables prepare script)) (λ _, IH) c) as Hb. cbn [foreach].
  destruct ((up_exec wrapped (run_tables prepare script) ;; _) c) as [c' [[]|e|w]]; [|done|done].
  destruct Hb as (_ & f1 & H1 & t' & Ht & Hf). unfold run_tables in H1. cbn [run_all].
  destruct (sc_run (prepare script) (df_tables (dk_file c))) as [t1|e]; [|done]. injection H1 as <-. cbn in *. eauto.
Qed.
Lemma ends_migrate prepare version : version < latest →
  ends (migrate prepare version) (λ f f' _, ∃ t', migrated prepare version (df_tables f) t' ∧ f' = MkFile t' (df_version f)).
Proof.
  intros Hlt c. unfold migrate, migrated. destruct (decide (version = 0)) as [->|Hne].
  - pose proof (ends_exec (Errorf "failed to initialize schema: %v") (run_tables prepare sc_schema) c) as He.
    destruct (up_exec _ _ c) as [c' [[]|e|w]]; [|done|done]. unfold run_tables in He.
    destruct (sc_run _ _) as [t'|e]; [|done]. injection He as He. exists t'. split; [split; [lia|done]|done].
  - destruct (Z.ltb_spec version 0); [done|].
    pose proof (ends_migrations prepare (Errorf "failed to execute migration #%v: %v") (drop (Z.to_nat version) sc_migrations) c) as He.
    destruct (foreach _ _ c) as [c' [[]|e|w]]; [|done|done]. destruct He as (t' & Ht & Hf). exists t'. split; [split; [lia|done]|done].
Qed.

(** A transaction that fails changes nothing. *)
Lemma up_transaction_ends (body : ST conn bool) P : ends body P →
  ∀ c, match up_transaction body c with
       | (c', Ok _) => (P (dk_file c) (dk_file c') true) ∨ (dk_file c' = dk_file c ∧ ∃ f, P (dk_file c) f false)
       | (c', _) => dk_file c' = dk_file c
       end.
Proof.
  intros Hb c. unfold up_transaction. unfold mbind at 1, M_bind at 1, up_step at 1.
  destruct (en_fault (dk_count c)); [done|]. set (c1 := MkDbConn _ _ _). pose proof (Hb c1) as Hc. unfold mbind at 1, M_bind at 1.
  destruct (body c1) as [c2 [[]|e|w]]; [| |done|done].
  - unfold up_step, mbind, M_bind. destruct (en_fault (dk_count c2)); [done|]. by left.
  - right. split; [done|]. by exists (dk_file c2).
Qed.
End version.

(** The version of a PostgreSQL database. *)
Definition pg_version (f : dbfile T (option (option Z))) : Z := default 0 (default None (df_version f)).

Lemma pg_upgrade_body temp :
  ends (up_exec (Errorf "failed to create Config table: %s")
      (λ file, inl (MkFile (df_tables file) (Some (default None (df_version file))))) ;;
    r ← try up_step;
    match r with
    | inr _ => fail (Errorf "failed to query schema version: %s")
    | inl _ =>
      version ← gets (λ c, default 0 (default None (df_version (dk_file c))));
      if decide (version = latest) then mret false
      else if latest <? version then fail errOlder
      else
        migrate (template temp) version ;;
        up_exec (Errorf "failed to bump schema version: %v") (λ file, inl (MkFile (df_tables file) (Some (Some latest)))) ;;
        mret true
    end)
    (λ f f' commit, if commit : bool
       then migrated (template temp) (pg_version f) (df_tables f) (df_tables f') ∧ df_version f' = Some (Some latest)
       else pg_version f = latest).
Proof.
  intros c. unfold mbind at 1, M_bind at 1.
  pose proof (ends_exec (Errorf "failed to create Config table: %s")
    (λ file : dbfile T (option (option Z)), inl (MkFile (df_tables file) (Some (default None (df_version file))))) c) as Hc.
  destruct (up_exec _ _ c) as [c1 [[]|e|w]]; [|done|done]. injection Hc as Hc. unfold try, up_step at 1, mbind at 1, M_bind at 1.
  destruct (en_fault (dk_count c1)); [done|]. set (c2 := MkDbConn (dk_file c1) _ _).
  assert (default 0 (default None (df_version (dk_file c2))) = pg_version (dk_file c)) as Hv by (cbn; by rewrite <-Hc).
  rewrite bind_gets, Hv. destruct (decide (pg_version (dk_file c) = latest)); [done|]. destruct (Z.ltb_spec latest (pg_version (dk_file c))); [done|].
  unfold mbind at 1, M_bind at 1. pose proof (ends_migrate (V := option (option Z)) (template temp) (pg_version (dk_file c)) ltac:(lia) c2) as Hm.
  destruct (migrate _ _ c2) as [c3 [[]|e|w]]; [|done|done]. destruct Hm as (t' & Hm & Hf).
  unfold mbind at 1, M_bind at 1. pose proof (ends_exec (Errorf "failed to bump schema version: %v")
    (λ file : dbfile T (option (option Z)), inl (MkFile (df_tables file) (Some (Some latest)))) c3) as Hb.
  destruct (up_exec _ _ c3) as [c4 [[]|e|w]]; [|done|done]. injection Hb as Hb. cbn in *. rewrite <-Hb, Hf. cbn. rewrite <-Hc in Hm. done.
Qed.

(** [m] takes a database to the latest version or leaves it as it is. *)
Definition upgrades {V} (version : dbfile T V → Z) (prepare : string → string) (m : ST (dbconn T V) unit) : Prop := ∀ c,
  match m c with
  | (c', Ok _) => version (dk_file c') = latest ∧
      (dk_file c' = dk_file c ∨ migrated prepare (version (dk_file c)) (df_tables (dk_file c)) (df_tables (dk_file c')))
  | (c', _) => dk_file c' = dk_file c
  end.

Lemma upgrades_latest {V} version prepare (m : ST (dbconn T V) unit) :
  upgrades version prepare m → ∀ c, version (dk_file c) = latest → dk_file (m c).1 = dk_file c.
Proof.
  intros Hm c Hv. specialize (Hm c). destruct (m c) as [c' [[]|e|w]]; [|done|done]. destruct Hm as [_ [Hf|[Hlt _]]]; [done|lia].
Qed.

Lemma sqlite_upgrades : upgrades df_version id sqlite_upgrade.
Proof.
  intros c. unfold sqlite_upgrade, try, up_step at 1, mbind at 1, M_bind at 1. destruct (en_fault (dk_count c)); [done|].
  set (c1 := MkDbConn (dk_file c) _ _). rewrite bind_gets. change (dk_file c1) with (dk_file c).
  destruct (decide (df_version (dk_file c) = latest)); [by split; [|left]|].
  destruct (Z.ltb_spec latest (df_version (dk_file c))); [done|].
  match goal with |- context [up_transaction ?b] => assert (ends b (λ f f' commit,
    commit = true ∧ (df_version f < latest → f = dk_file c → migrated id (df_version f) (df_tables f) (df_tables f')) ∧ df_version f' = latest)) as Hb end.
  { intros c2. unfold mbind at 1, M_bind at 1.
    pose proof (ends_migrate (V := Z) id (df_version (dk_file c)) ltac:(lia) c2) as Hm.
    destruct (migrate _ _ c2) as [c3 [[]|e|w]]; [|done|done]. destruct Hm as (t' & Hm & Hf). unfold mbind at 1, M_bind at 1.
    pose proof (ends_exec (Errorf "failed to bump schema version: %v")
      (λ file : dbfile T Z, inl (MkFile (df_tables file) latest)) c3) as Hb.
    destruct (up_exec _ _ c3) as [c4 [[]|e|w]]; [|done|done]. injection Hb as Hb. cbn. rewrite <-Hb, Hf. cbn. split_and!; [done| |done].
    intros _ Heq. rewrite Heq in Hm |- *. exact Hm. }
  pose proof (up_transaction_ends _ _ Hb c1) as Hu. destruct (up_transaction _ c1) as [c' [[]|e|w]]; [|done|done].
  destruct Hu as [(_ & Hm & Hv)|[_ (f & [=] & _)]]. split; [done|]. right. apply Hm; [cbn; lia|done].
Qed.

(** C24: A database is upgraded once, completely or not at all. When [upgrade] succeeds, with either
    engine, the database has the latest version; its tables are those it had, if the version
    was the latest already, those of the schema in a new database, and otherwise those that
    every migration since its version made, each run once and in order. When it fails, at
    whichever statement, or because the database is of a later version, the tables and the
    version are those of before; so a further attempt starts where the failed one did. A
    database of the latest version is not touched again. *)
Theorem upgrade_exact temp :
  upgrades df_version id sqlite_upgrade ∧ upgrades pg_version (template temp) (pg_upgrade temp) ∧
  (∀ c : dbconn T Z, df_version (dk_file c) = latest → dk_file (sqlite_upgrade c).1 = dk_file c) ∧
  (∀ c, pg_version (dk_file c) = latest → dk_file (pg_upgrade temp c).1 = dk_file c).
Proof.
  assert (upgrades pg_version (template temp) (pg_upgrade temp)) as Hpg.
  { intros c. pose proof (up_transaction_ends _ _ (pg_upgrade_body temp) c) as Hu. unfold pg_upgrade.
    destruct (up_transaction _ c) as [c' [[]|e|w]]; [|done|done].
    destruct Hu as [[Hm Hv]|[Hf (f & Hv)]]; [|rewrite Hf; by split; [|left]]. split; [unfold pg_version; by rewrite Hv|by right]. }
  split_and!; [apply sqlite_upgrades|done|eapply upgrades_latest, sqlite_upgrades|by eapply upgrades_latest].
Qed.
End spec.

(** ** Evaluation *)

(** Tables are the scripts that made them. *)
Definition demo_scripts : scripts (list string) := {|
  sc_schema := "schema";
  sc_migrations := [""; "one"; "two @SCHEMA_PREFIX@x"; "three"];
  sc_run script t := inl (t ++ [script])
|}.
Definition demo_refusing (n : option nat) : engine :=
  MkEngine (λ k, match n with Some m => if (k =? m)%nat then Some (Errorf "disk full") else None | None => None end) (λ _, 0) true.

Example upgrade_runs :
  let SC := demo_scripts in
  let up f EN := let '(c, r) := pg_upgrade (EN := EN) true (MkDbConn f 0 true) in (dk_file c, is_ok r) in
  let up' f EN := let '(c, r) := sqlite_upgrade (EN := EN) (MkDbConn f 0 true) in (dk_file c, is_ok r) in
  up (MkFile [] None) (demo_refusing None) = (MkFile ["schema"] (Some (Some 4)), true) ∧
  up (MkFile ["old"] (Some (Some 2))) (demo_refusing None) = (MkFile ["old"; "two pg_temp.x"; "three"] (Some (Some 4)), true) ∧
  up (MkFile ["old"] (Some (Some 2))) (demo_refusing (Some 4%nat)) = (MkFile ["old"] (Some (Some 2)), false) ∧
  up' (MkFile ["old"] 3) (demo_refusing None) = (MkFile ["old"; "three"] 4, true) ∧
  up' (MkFile ["new"] 5) (demo_refusing None) = (MkFile ["new"] 5, false).
Proof. split_and!; vm_compute; reflexivity. Qed.
