(* ===== verification/Identd.v ===== *)
(** * The ident server (identd/identd.go)

    Upstream servers ask which user a connection belongs to. The table of connections, the
    parsing of a query and a connection of the server from its first byte to its last; the
    theorem is that a query is answered for the connection it names, among those of the host
    that asks. [net.SplitHostPort], [net.JoinHostPort] and the line scanner of [bufio] are
    modelled here. *)

From S2P Require Import Prelude GoStrings GoUnicode IrcMessage.

Open Scope string_scope.
Open Scope list_scope.
Open Scope Z_scope.

(** ** Addresses *)

(** [net.SplitHostPort]; [None] is an error. *)
Definition SplitHostPort (hostport : string) : option (string * string) :=
  match LastIndexAny hostport ":" with
  | None => None
  | Some i =>
    let port := str_drop (S i) hostport in
    let no c s := negb (str_mem c s) in
    if HasPrefix hostport "[" then
      match IndexByte hostport "]" with
      | None => None
      | Some end_ =>
        if (S end_ =? i)%nat && no "["%char (str_drop 1 hostport) && no "]"%char (str_drop (S end_) hostport)
        then Some (str_take (end_ - 1) (str_drop 1 hostport), port) else None
      end
    else
      let host := str_take i hostport in
      if no ":"%char host && no "["%char hostport && no "]"%char hostport then Some (host, port) else None
  end.

(** [net.JoinHostPort], with which an address is printed. *)
Definition JoinHostPort (host port : string) : string :=
  if str_mem ":" host then "[" +:+ host +:+ "]:" +:+ port else host +:+ ":" +:+ port.

(** ** Lines *)

Definition newline : ascii := ascii_of_nat 10.
Definition maxLine : nat := 512.

Definition drop_cr (s : string) : string := TrimSuffix s (String (ascii_of_nat 13) "").

(** [bufio.Scanner] over lines, with a buffer of 512 bytes: it stops at a line, with its end,
    that does not fit. The reader has ended with the text, be it by its end or a deadline. *)
Fixpoint scan_lines (fuel : nat) (s : string) : list string :=
  match fuel with
  | O => []
  | S fuel =>
    match Cut s (String newline "") with
    | Some (a, b) => if (S (slen a) <=? maxLine)%nat then drop_cr a :: scan_lines fuel b else []
    | None => if (0 <? slen s)%nat && (slen s <? maxLine)%nat then [drop_cr s] else []
    end
  end.
Definition lines_of (s : string) : list string := scan_lines (S (slen s)) s.

(** ** The server *)

Record identKey := MkIdentKey { remoteHost : string; remotePort : Z; localPort : Z }.
#[export] Instance identKey_eq_dec : EqDecision identKey.
Proof. solve_decision. Defined.
#[export] Instance identKey_countable : Countable identKey.
Proof.
  refine (inj_countable' (λ k, (remoteHost k, remotePort k, localPort k)) (λ x, MkIdentKey x.1.1 x.1.2 x.2) _). by intros [].
Defined.

Definition splitHostPort (addr : string) : option (string * Z) :=
  '(host, port) ← SplitHostPort addr; n ← Atoi port; Some (host, n).

Definition newIdentKey (remoteAddr localAddr : string) : option identKey :=
  '(host, rport) ← splitHostPort remoteAddr; '(_, lport) ← splitHostPort localAddr;
  Some (MkIdentKey host rport lport).

Abbreviation entries := (gmap identKey string).
Definition NewIdentd : entries := ∅.

Definition Store (remoteAddr localAddr ident : string) (s : entries) : entries :=
  match newIdentKey remoteAddr localAddr with Some k => <[k := ident]> s | None => s end.
Definition Delete (remoteAddr localAddr : string) (s : entries) : entries :=
  match newIdentKey remoteAddr localAddr with Some k => delete k s | None => s end.

Definition parseIdentQuery (l : string) : res goerr (Z * Z) :=
  match SplitN l "," 2 with
  | [localStr; remoteStr] =>
    match Atoi (TrimSpace localStr), Atoi (TrimSpace remoteStr) with
    | Some lp, Some rp => if (lp <=? 0) || (rp <=? 0) then Err (Errorf "invalid port") else Ok (lp, rp)
    | _, _ => Err (Errorf "strconv.Atoi")
    end
  | _ => Err (Errorf "expected two ports")
  end.

Definition eol : string := String (ascii_of_nat 13) (String newline "").

(** The answers to the queries of a host, until one is an error. *)
Fixpoint answer (s : entries) (host : string) (queries : list string) : list string :=
  match queries with
  | [] => []
  | l :: queries =>
    match parseIdentQuery l with
    | Ok (lp, rp) =>
      let ident := default "" (s !! MkIdentKey host rp lp) in
      if decide (ident = "") then [l +:+ " : ERROR : NO-USER" +:+ eol]
      else (l +:+ " : USERID : UNKNOWN : " +:+ ident +:+ eol) :: answer s host queries
    | _ => [l +:+ " : ERROR : INVALID-PORT" +:+ eol]
    end
  end.

(** [handle]: what is written to a connection of the server, for what is read from it. *)
Definition handle (s : entries) (remoteAddr input : string) : list string :=
  match SplitHostPort remoteAddr with
  | None => []
  | Some (host, _) => answer s host (lines_of input)
  end.

(** ** Printed addresses are read back *)

Lemma IndexByte_app a c b : str_mem c a = false → IndexByte (a +:+ String c b) c = Some (slen a).
Proof.
  induction a as [|d a IH]; cbn; [intros _; by rewrite decide_True|]. intros [Hd Hm]%orb_false_iff.
  apply bool_decide_eq_false in Hd. rewrite decide_False by congruence. by rewrite IH.
Qed.
Lemma LastIndexAny_app a c b : str_mem c b = false → LastIndexAny (a +:+ String c b) (String c "") = Some (slen a).
Proof.
  intros Hb. assert (LastIndexAny b (String c "") = None) as Hnone.
  { induction b as [|d b IH]; [done|]. cbn in *. apply orb_false_iff in Hb as [Hd Hb]. rewrite IH by done.
    rewrite orb_false_r. apply bool_decide_eq_false in Hd. by rewrite bool_decide_eq_false_2 by congruence. }
  induction a as [|d a IH]; cbn; [rewrite Hnone; by rewrite bool_decide_eq_true_2|]. by rewrite IH.
Qed.

(** The address of a host, or a bracketed one for IPv6. *)
Definition host_ok (host : string) : Prop := str_mem "[" host = false ∧ str_mem "]" host = false.

Lemma Split_JoinHostPort host port :
  host_ok host → str_mem ":" port = false → str_mem "[" port = false → str_mem "]" port = false →
  SplitHostPort (JoinHostPort host port) = Some (host, port).
Proof.
  intros [Hl Hr] Hc Hpl Hpr. unfold JoinHostPort. destruct (str_mem ":" host) eqn:Hcolon.
  - assert ("[" +:+ host +:+ "]:" +:+ port = ("[" +:+ host +:+ "]") +:+ String ":" port) as -> by (by rewrite !str_app_assoc).
    unfold SplitHostPort. rewrite LastIndexAny_app by done.
    assert (HasPrefix (("[" +:+ host +:+ "]") +:+ String ":" port) "[" = true) as -> by apply (HasPrefix_app "[").
    assert (("[" +:+ host +:+ "]") +:+ String ":" port = ("[" +:+ host) +:+ String "]" (String ":" port)) as Heq
      by (by rewrite !str_app_assoc).
    assert (IndexByte (("[" +:+ host +:+ "]") +:+ String ":" port) "]" = Some (S (slen host))) as ->.
    { rewrite Heq. apply (IndexByte_app ("[" +:+ host)). done. }
    rewrite !slen_app. cbn [slen].
    replace (S (S (slen host)) =? 1 + (slen host + 1))%nat with true by (symmetry; apply Nat.eqb_eq; lia).
    rewrite Heq. change (str_drop 1 (("[" +:+ host) +:+ String "]" (String ":" port))) with (host +:+ String "]" (String ":" port)).
    rewrite str_mem_app, Hl. cbn [str_mem orb]. rewrite bool_decide_eq_false_2, bool_decide_eq_false_2, Hpl by done.
    replace (S (S (slen host))) with (slen ("[" +:+ host +:+ "]")) by (rewrite !slen_app; cbn; lia). rewrite <-Heq.
    rewrite str_drop_app. cbn [str_mem]. rewrite bool_decide_eq_false_2, Hpr by done. cbn [orb negb andb].
    f_equal. f_equal.
    + replace (S (slen host) - 1)%nat with (slen host) by lia. apply str_take_app.
    + replace (S (1 + (slen host + 1))) with (slen (("[" +:+ host +:+ "]") +:+ ":")) by (rewrite !slen_app; cbn; lia).
      replace (("[" +:+ host +:+ "]") +:+ String ":" port) with ((("[" +:+ host +:+ "]") +:+ ":") +:+ port)
        by (by rewrite str_app_assoc). apply str_drop_app.
  - change (":" +:+ port) with (String ":" port). unfold SplitHostPort. rewrite LastIndexAny_app by done.
    assert (HasPrefix (host +:+ String ":" port) "[" = false) as ->.
    { apply not_true_is_false. intros [r Hp]%HasPrefix_char. destruct host as [|c host]; [done|]. injection Hp as -> _.
      cbn in Hl. done. }
    rewrite str_take_app, Hcolon, !str_mem_app, Hl, Hr. cbn [str_mem].
    rewrite bool_decide_eq_false_2, bool_decide_eq_false_2, Hpl, Hpr by done. cbn [orb negb andb]. f_equal. f_equal.
    replace (S (slen host)) with (slen (host +:+ ":")) by (rewrite slen_app; cbn; lia).
    replace (host +:+ String ":" port) with ((host +:+ ":") +:+ port) by (by rewrite str_app_assoc). apply str_drop_app.
Qed.

Definition port_ok (p : Z) : Prop := 0 < p < 65536.

Lemma Atoi_FormatUint z : 0 ≤ z < 2 ^ 63 → Atoi (FormatUint z) = Some z.
Proof.
  intros Hz. pose proof (FormatUint_nonempty z) as Hne.
  assert (digits_val 0 (FormatUint z) = Some z) as Hd.
  { destruct (digits_val_format 20 z "") as [k Hk]; [lia|]. unfold FormatUint. by rewrite Hk. }
  assert (∀ c, is_digit c = false → str_mem c (FormatUint z) = false) as Hno by (intros; apply FormatUint_no_char; [lia|done]).
  unfold Atoi, ParseInt64. destruct (FormatUint z) as [|c f]; [done|].
  assert (c ≠ "+"%char ∧ c ≠ "-"%char) as [Hp Hm].
  { split; intros ->; [specialize (Hno "+"%char eq_refl)|specialize (Hno "-"%char eq_refl)]; cbn in Hno; done. }
  assert (∀ {A} (x y t : A), match String c f with String "+" _ => x | String "-" _ => y | _ => t end = t) as Hmatch.
  { intros. destruct c as [[] [] [] [] [] [] [] []]; try done. }
  rewrite Hmatch, Hd. by rewrite (proj2 (Z.ltb_lt _ _)) by lia.
Qed.

Lemma splitHostPort_Join host p : host_ok host → port_ok p → splitHostPort (JoinHostPort host (FormatUint p)) = Some (host, p).
Proof.
  intros Hh Hp. unfold port_ok in Hp. unfold splitHostPort.
  rewrite Split_JoinHostPort by first [done | apply FormatUint_no_char; [lia|done]]. cbn [mbind option_bind].
  by rewrite Atoi_FormatUint by lia.
Qed.

Lemma slen_port p : port_ok p → (slen (FormatUint p) ≤ 20)%nat.
Proof.
  intros _. unfold FormatUint. assert (∀ f z acc, (slen (format_go f z acc) ≤ f + slen acc)%nat) as H.
  { induction f as [|f IH]; intros z acc; cbn [format_go]; [lia|]. destruct (z <? 10)%Z; cbn [slen]; [lia|].
    etrans; [apply IH|]. cbn [slen]. lia. }
  specialize (H 20%nat p ""). change (slen "") with 0%nat in H. lia.
Qed.

(** ** Queries *)

Fixpoint spaces (n : nat) : string := match n with O => "" | S n => String " " (spaces n) end.

Lemma spaces_no c n : c ≠ " "%char → str_mem c (spaces n) = false.
Proof. intros Hc. induction n as [|n IH]; [done|]. cbn. rewrite IH, bool_decide_eq_false_2 by congruence. done. Qed.
Lemma spaces_snoc n : spaces (S n) = spaces n +:+ " ".
Proof. induction n as [|n IH]; [done|]. cbn [spaces String.app String.append] in *. f_equal. exact IH. Qed.

Lemma is_digit_not_space c : is_digit c = true → byte_val c < RuneSelf ∧ IsSpace (byte_val c) = false.
Proof.
  unfold is_digit. intros [H1 H2]%andb_true_iff. apply Z.leb_le in H1, H2. split; [unfold RuneSelf; lia|].
  unfold IsSpace. rewrite (proj2 (Z.leb_le _ _)) by lia. unfold in_range. repeat (rewrite (proj2 (Z.eqb_neq _ _)) by lia).
  rewrite (proj2 (Z.leb_gt (byte_val c) 13)) by lia. by rewrite andb_false_r.
Qed.

Lemma trim_left_digits fuel n c s :
  is_digit c = true → (n < fuel)%nat → trim_left_space fuel (spaces n +:+ String c s) = String c s.
Proof.
  intros [Hc Hsp]%is_digit_not_space. revert fuel. induction n as [|n IH]; intros [|fuel] Hf; try lia.
  - cbn [spaces String.app String.append trim_left_space]. by rewrite DecodeRune_ascii, Hsp by done.
  - cbn [spaces String.app String.append trim_left_space]. apply IH. lia.
Qed.

Lemma DecodeLastRune_ascii s c : byte_val c < RuneSelf → DecodeLastRune (s +:+ String c "") = (byte_val c, 1%nat).
Proof.
  intros Hc. unfold DecodeLastRune. rewrite slen_app. cbn [slen]. rewrite Nat.add_1_r.
  assert (String.get (slen s) (s +:+ String c "") = Some c) as -> by (induction s as [|d s IH]; [done|exact IH]).
  by rewrite (proj2 (Z.ltb_lt _ _)).
Qed.
Lemma str_take_snoc s c : str_take (slen (s +:+ String c "") - 1) (s +:+ String c "") = s.
Proof. rewrite slen_app. cbn [slen]. rewrite Nat.add_sub. apply str_take_app. Qed.
Lemma app_nonempty s c : ∃ d r, s +:+ String c "" = String d r.
Proof. destruct s; cbn; eauto. Qed.

Lemma trim_right_digits fuel n s c :
  is_digit c = true → (n < fuel)%nat → trim_right_space fuel ((s +:+ String c "") +:+ spaces n) = s +:+ String c "".
Proof.
  intros [Hc Hsp]%is_digit_not_space. revert fuel. induction n as [|n IH]; intros [|fuel] Hf; try lia.
  - cbn [spaces]. rewrite str_app_nil_r. cbn [trim_right_space]. rewrite DecodeLastRune_ascii, Hsp by done.
    by destruct (app_nonempty s c) as (d & r & ->).
  - rewrite spaces_snoc, <-str_app_assoc. set (u := (s +:+ String c "") +:+ spaces n) in *. cbn [trim_right_space].
    rewrite (DecodeLastRune_ascii u " ") by done. destruct (app_nonempty u " ") as (d & r & Hu). rewrite Hu.
    change (IsSpace (byte_val " ")) with true. cbn iota. rewrite <-Hu, (str_take_snoc u " "). apply IH. lia.
Qed.

Lemma FormatUint_shape z : 0 ≤ z →
  (∃ c r, FormatUint z = String c r ∧ is_digit c = true) ∧ (∃ s c, FormatUint z = s +:+ String c "" ∧ is_digit c = true).
Proof.
  intros Hz. assert (∀ c, str_mem c (FormatUint z) = true → is_digit c = true) as Hd.
  { intros c Hm. destruct (is_digit c) eqn:E; [done|]. by rewrite FormatUint_no_char in Hm. }
  pose proof (FormatUint_nonempty z) as Hne. destruct (FormatUint z) as [|c r]; [done|]. split.
  - exists c, r. split; [done|]. apply Hd. cbn. by rewrite bool_decide_eq_true_2.
  - assert (∃ s d, String c r = s +:+ String d "") as (s & d & Hs).
    { clear. revert c. induction r as [|e r IH]; intros c; [by exists "", c|]. destruct (IH e) as (s & d & ->). by exists (String c s), d. }
    exists s, d. rewrite Hs. split; [done|]. apply Hd. rewrite Hs, str_mem_app. cbn. by rewrite bool_decide_eq_true_2, orb_true_r.
Qed.

Lemma slen_spaces n : slen (spaces n) = n.
Proof. induction n as [|n IH]; [done|]. cbn. by rewrite IH. Qed.

Lemma TrimSpace_number a b z : 0 ≤ z → TrimSpace (spaces a +:+ FormatUint z +:+ spaces b) = FormatUint z.
Proof.
  intros Hz. destruct (FormatUint_shape z Hz) as [(c & r & Hl & Hc) (s & d & Hr & Hd)]. unfold TrimSpace.
  assert (trim_left_space (slen (spaces a +:+ FormatUint z +:+ spaces b)) (spaces a +:+ FormatUint z +:+ spaces b)
    = FormatUint z +:+ spaces b) as ->.
  { rewrite Hl. apply trim_left_digits; [done|]. rewrite slen_app, slen_spaces. cbn. lia. }
  rewrite Hr. apply trim_right_digits; [done|]. rewrite slen_app, slen_spaces, slen_app. cbn. lia.
Qed.

(** A query for two ports, with blanks where they may be. *)
Definition ident_query (a b c d : nat) (lp rp : Z) : string :=
  (spaces a +:+ FormatUint lp +:+ spaces b) +:+ "," +:+ (spaces c +:+ FormatUint rp +:+ spaces d).

Lemma parseIdentQuery_format a b c d lp rp : port_ok lp → port_ok rp → parseIdentQuery (ident_query a b c d lp rp) = Ok (lp, rp).
Proof.
  unfold port_ok. intros Hl Hr.
  assert (Cut (ident_query a b c d lp rp) "," = Some (spaces a +:+ FormatUint lp +:+ spaces b, spaces c +:+ FormatUint rp +:+ spaces d)) as Hcut.
  { apply Cut_char_app. rewrite !str_mem_app, !spaces_no by done. rewrite FormatUint_no_char by (lia || done). done. }
  unfold parseIdentQuery, SplitN. cbn [Nat.sub split_upto]. rewrite Hcut. rewrite !TrimSpace_number, !Atoi_FormatUint by lia.
  rewrite !(proj2 (Z.leb_gt _ _)) by lia. done.
Qed.

(** ** The table of connections *)

(** A connection is opened for a user, or closed; hosts and ports are those of its two ends. *)
Inductive connOp :=
| Opened (rhost : string) (rport : Z) (lhost : string) (lport : Z) (ident : string)
| Closed (rhost : string) (rport : Z) (lhost : string) (lport : Z).

Definition op_ok (o : connOp) : Prop :=
  match o with
  | Opened rh rp lh lp _ | Closed rh rp lh lp => host_ok rh ∧ port_ok rp ∧ host_ok lh ∧ port_ok lp
  end.
Definition apply_op (s : entries) (o : connOp) : entries :=
  match o with
  | Opened rh rp lh lp ident => Store (JoinHostPort rh (FormatUint rp)) (JoinHostPort lh (FormatUint lp)) ident s
  | Closed rh rp lh lp => Delete (JoinHostPort rh (FormatUint rp)) (JoinHostPort lh (FormatUint lp)) s
  end.

(** The user of a connection: of the last operation on it, the most recent first. *)
Fixpoint owner (ops : list connOp) (k : identKey) : string :=
  match ops with
  | [] => ""
  | Opened rh rp _ lp ident :: ops => if decide (k = MkIdentKey rh rp lp) then ident else owner ops k
  | Closed rh rp _ lp :: ops => if decide (k = MkIdentKey rh rp lp) then "" else owner ops k
  end.

Lemma newIdentKey_Join rh rp lh lp :
  host_ok rh → port_ok rp → host_ok lh → port_ok lp →
  newIdentKey (JoinHostPort rh (FormatUint rp)) (JoinHostPort lh (FormatUint lp)) = Some (MkIdentKey rh rp lp).
Proof. intros. unfold newIdentKey. by rewrite !splitHostPort_Join. Qed.

Lemma run_owner ops k : Forall op_ok ops → default "" (foldr (λ o s, apply_op s o) NewIdentd ops !! k) = owner ops k.
Proof.
  induction 1 as [|o ops Ho _ IH]; [done|]. cbn [foldr].
  destruct o as [rh rp lh lp ident|rh rp lh lp]; destruct Ho as (Hrh & Hrp & Hlh & Hlp); cbn [apply_op owner];
    unfold Store, Delete; rewrite newIdentKey_Join by done; case_decide as Hk.
  - subst k. by rewrite lookup_insert_eq.
  - by rewrite lookup_insert_ne by congruence.
  - subst k. by rewrite lookup_delete_eq.
  - by rewrite lookup_delete_ne by congruence.
Qed.

(** A line that is sent whole. *)
Lemma lines_of_line l : str_mem newline l = false → (slen l + 2 ≤ maxLine)%nat → lines_of (l +:+ eol) = [l].
Proof.
  intros Hl Hlen. unfold lines_of. set (cr := String (ascii_of_nat 13) "").
  assert (Cut (l +:+ eol) (String newline "") = Some (l +:+ cr, "")) as Hcut.
  { replace (l +:+ eol) with ((l +:+ cr) +:+ String newline "") by (by rewrite str_app_assoc). apply Cut_char_app.
    rewrite str_mem_app, Hl. done. }
  cbn [scan_lines]. rewrite Hcut. rewrite slen_app. change (slen cr) with 1%nat.
  rewrite (proj2 (Nat.leb_le _ _)) by lia. unfold drop_cr. fold cr. rewrite TrimSuffix_app.
  rewrite slen_app. change (slen eol) with 2%nat. rewrite Nat.add_succ_r. done.
Qed.

(** C34: Ident queries are answered for the connection they name. After any sequence of
    connections opened for users and closed again, a query from a host for a local and a remote
    port is answered with the user of the connection from that local port to that port of that
    host when it is open, and with NO-USER otherwise, in particular for every connection to
    another host. *)
Theorem ident_answered ops host port lp rp a b c d :
  Forall op_ok ops → host_ok host → port_ok port → port_ok lp → port_ok rp → (a + b + c + d ≤ 400)%nat →
  handle (foldr (λ o s, apply_op s o) NewIdentd ops) (JoinHostPort host (FormatUint port)) (ident_query a b c d lp rp +:+ eol) =
  [ident_query a b c d lp rp +:+
    (let ident := owner ops (MkIdentKey host rp lp) in
     if decide (ident = "") then " : ERROR : NO-USER" else " : USERID : UNKNOWN : " +:+ ident) +:+ eol].
Proof.
  intros Hops Hh Hp Hl Hr Hlen. unfold handle.
  rewrite Split_JoinHostPort by first [done | apply FormatUint_no_char; [unfold port_ok in *; lia|done]].
  rewrite lines_of_line.
  - cbn [answer]. rewrite parseIdentQuery_format by done. rewrite (run_owner ops (MkIdentKey host rp lp) Hops).
    cbn zeta. case_decide; [done|]. by rewrite !str_app_assoc.
  - unfold ident_query. rewrite !str_mem_app, !spaces_no by done. unfold port_ok in *.
    rewrite !FormatUint_no_char by (lia || done). done.
  - unfold ident_query. rewrite !slen_app, !slen_spaces. pose proof (slen_port lp Hl). pose proof (slen_port rp Hr).
    change (slen ",") with 1%nat. unfold maxLine. lia.
Qed.

Lemma ident_answered_witness :
  handle (foldr (λ o s, apply_op s o) NewIdentd
    [Opened "2001:db8::1" 6697 "192.0.2.7" 40000 "alice"; Closed "2001:db8::2" 6697 "192.0.2.7" 40001;
     Opened "2001:db8::2" 6697 "192.0.2.7" 40001 "bob"]) "[2001:db8::1]:113" ("40000 , 6697" +:+ eol)
  = ["40000 , 6697 : USERID : UNKNOWN : alice" +:+ eol].
Proof.
  apply (ident_answered [Opened "2001:db8::1" 6697 "192.0.2.7" 40000 "alice"; Closed "2001:db8::2" 6697 "192.0.2.7" 40001;
     Opened "2001:db8::2" 6697 "192.0.2.7" 40001 "bob"] "2001:db8::1" 113 40000 6697 0 1 1 0); [|done| | | |lia].
  - repeat (constructor; [split_and!; done|]). constructor.
  - done.
  - done.
  - done.
Defined.
