(* ===== verification/Config.v ===== *)
(** * The configuration (config/config.go)

    From the directives of the file to the configuration of the server, with the checks of each
    directive in the order of the code. The decoder of the file, the host name and the parsers of
    CIDRs, floating-point numbers and origin patterns are parameters. The theorem says what the
    rest of the bouncer may rely on. *)

From S2P Require Import Prelude GoStrings GoUnicode GoStrconv IrcMessage.

Open Scope string_scope.
Open Scope list_scope.
Open Scope Z_scope.

(** ** Networks of addresses *)

(** The bytes of an address, and of a network with its mask. *)
Abbreviation IP := (list Z).
Record IPNet := MkIPNet { netIP : IP; netMask : list Z }.

(** [IP.To4] *)
Definition To4 (ip : IP) : option IP :=
  if (length ip =? 4)%nat then Some ip
  else if (length ip =? 16)%nat && bool_decide (take 12 ip = repeat 0 10 ++ [255; 255]) then Some (drop 12 ip)
  else None.

(** [net.CIDRMask] *)
Fixpoint mask_bytes (len : nat) (ones : Z) : list Z :=
  match len with
  | O => []
  | S len => (if 8 <=? ones then 255 else if ones <=? 0 then 0 else 256 - 2 ^ (8 - ones)) :: mask_bytes len (ones - 8)
  end.
Definition CIDRMask (ones bits : Z) : list Z := mask_bytes (Z.to_nat (bits / 8)) ones.

(** [IPNet.Contains] *)
Definition IPNet_Contains (n : IPNet) (ip : IP) : bool :=
  let number := default (netIP n) (To4 (netIP n)) in
  let mask := if (length (netMask n) =? 16)%nat && (length number =? 4)%nat then drop 12 (netMask n) else netMask n in
  let ip := default ip (To4 ip) in
  (length ip =? length number)%nat && (length mask =? length number)%nat &&
  bool_decide (zip_with Z.land number mask = zip_with Z.land ip mask).

Definition IPSet := list IPNet.
Definition IPSet_Contains (set : IPSet) (ip : IP) : bool := existsb (λ n, IPNet_Contains n ip) set.

Definition IPv6loopback : IP := repeat 0 15 ++ [1].
Definition loopbackIPs : IPSet := [MkIPNet [127; 0; 0; 0] (CIDRMask 8 32); MkIPNet IPv6loopback (CIDRMask 128 128)].

(** ** Data *)

Record driverSource := MkDriver { Driver : string; Source : string }.

Record BasicServer := MkBasic {
  Hostname : string; Title : string; MsgStore : driverSource; HTTPOrigins : list string; HTTPIngress : string;
  AcceptProxyIPs : IPSet; AcceptProxyUnix : bool; MaxUserNetworks : Z; UpstreamUserIPs : list IPNet;
  DisableInactiveUsersDelay : Z; MessageExpiry : Z; EnableUsersOnAuth : bool; ClientCertAuth : bool
}.
Record Server := MkServerConfig {
  Basic : BasicServer; Listen : list string; TLS : option (string * string); Icon : string; MOTDPath : string;
  DB : driverSource; Auth : list driverSource; FileUpload : option driverSource
}.

(** The directives, as the decoder finds them; a list that may be absent is an option. *)
Record rawConfig := MkRaw {
  rListen : list string; rHostname : string; rTitle : string; rIcon : string; rMOTD : string; rTLS : option (string * string);
  rDB : option (string * string); rMessageStore : option (list string); rLog : option (list string); rAuth : list (list string);
  rFileUpload : option (list string); rHTTPOrigin : list string; rHTTPIngress : string; rAcceptProxyIP : list string;
  rAcceptProxyUnix : string; rMaxUserNetworks : Z; rUpstreamUserIP : list string; rDisableInactiveUser : string;
  rMessageExpiry : string; rEnableUserOnAuth : string; rClientCertAuth : string
}.
Definition emptyRaw : rawConfig := MkRaw [] "" "" "" "" None None None None [] None [] "" [] "" (-1) [] "" "" "" "".

Class cfgenv := MkCfgenv {
  cf_Hostname : option string;
  cf_Decode : string → rawConfig → rawConfig + goerr;
  cf_ParseCIDR : string → option IPNet;
  cf_ParseFloat : string → option float64;
  cf_int64 : Z;
  cf_pattern : string → bool
}.

Section config.
Context `{CF : cfgenv}.

Definition parseDuration (s : string) : res goerr Z :=
  if negb (HasSuffix s "d") then Err (Errorf "missing 'd' suffix in duration")
  else match cf_ParseFloat (TrimSuffix s "d") with
       | None => Err (Errorf "invalid duration: %v")
       | Some v => Ok (to_int64 cf_int64 (fmul (fmul v (Fin 24 1)) (Fin 3600000000000 1)))
       end.

Definition Defaults : Server :=
  let hostname := default "localhost" cf_Hostname in
  MkServerConfig (MkBasic hostname "" (MkDriver "db" "") [] ("https://" +:+ hostname) [] false (-1) [] 0 0 false false)
    [] None "" "" (MkDriver "sqlite3" "soju.db") [MkDriver "internal" ""] None.

Definition parseDriverSource (params : list string) : res goerr (string * string) :=
  match params with
  | [driver] => Ok (driver, "")
  | [driver; source] => Ok (driver, source)
  | _ => Err (Errorf "directive %v requires exactly 1 or 2 parameters")
  end.

(** The drivers of a directive that take a source, and those that take none. *)
Definition check_driver (plain sourced : list string) (params : list string) : res goerr driverSource :=
  '(driver, source) ← parseDriverSource params;
  if decide (driver ∈ plain) then
    if decide (source = "") then Ok (MkDriver driver source) else Err (Errorf "driver %q requires zero parameters")
  else if decide (driver ∈ sourced) then
    if decide (source = "") then Err (Errorf "driver %q requires a source") else Ok (MkDriver driver source)
  else Err (Errorf "unknown driver %q").

Definition load_db (def : driverSource) (o : option (string * string)) : res goerr driverSource :=
  match o with
  | None => Ok def
  | Some (driver, source) =>
    if decide (driver ∈ ["sqlite3"; "postgres"]) then Ok (MkDriver driver source)
    else Err (Errorf "directive db: unknown driver %q")
  end.

Definition load_msgstore (def : driverSource) (raw : rawConfig) : res goerr driverSource :=
  match (match rMessageStore raw with None => rLog raw | o => o end) with
  | None => Ok def
  | Some params => check_driver ["memory"; "db"] ["fs"] params
  end.

Definition load_auth (def : list driverSource) (auths : list (list string)) : res goerr (list driverSource) :=
  match auths with
  | [] => Ok def
  | _ => mapM (check_driver ["internal"; "pam"] ["http"; "oauth2"]) auths
  end.

Definition load_upload (o : option (list string)) : res goerr (option driverSource) :=
  match o with
  | None => Ok None
  | Some params => d ← check_driver [] ["fs"; "http"] params; Ok (Some d)
  end.

Fixpoint load_proxies (l : list string) (set : IPSet) : res goerr IPSet :=
  match l with
  | [] => Ok set
  | s :: l =>
    if decide (s = "localhost") then load_proxies l (set ++ loopbackIPs)
    else match cf_ParseCIDR s with
         | None => Err (Errorf "directive accept-proxy-ip: failed to parse CIDR: %v")
         | Some n => load_proxies l (set ++ [n])
         end
  end.

Fixpoint load_user_ips (l : list string) (has4 has6 : bool) (nets : list IPNet) : res goerr (list IPNet) :=
  match l with
  | [] => Ok nets
  | s :: l =>
    match cf_ParseCIDR s with
    | None => Err (Errorf "directive upstream-user-ip: failed to parse CIDR: %v")
    | Some n =>
      match To4 (netIP n) with
      | None => if has6 then Err (Errorf "directive upstream-user-ip: found two IPv6 CIDRs")
                else load_user_ips l has4 true (nets ++ [n])
      | Some _ => if has4 then Err (Errorf "directive upstream-user-ip: found two IPv4 CIDRs")
                  else load_user_ips l true has6 (nets ++ [n])
      end
    end
  end.

Definition load_bool (s : string) : res goerr bool :=
  if decide (s = "") then Ok false
  else match ParseBool s with Some b => Ok b | None => Err (Errorf "strconv.ParseBool") end.

Definition load_duration (s : string) : res goerr Z :=
  if decide (s = "") then Ok 0
  else d ← parseDuration s; if d <? 0 then Err (Errorf "duration must be positive") else Ok d.

Definition load_origins (l : list string) : res goerr unit :=
  if forallb cf_pattern l then Ok tt else Err (Errorf "directive http-origin: %v").

(** [Load] of the text of the file. *)
Definition Load (file : string) : res goerr Server :=
  match cf_Decode file emptyRaw with
  | inr e => Err e
  | inl raw =>
    let srv := Defaults in
    let hostname := if decide (rHostname raw ≠ "") then rHostname raw else Hostname (Basic srv) in
    db ← load_db (DB srv) (rDB raw);
    store ← load_msgstore (MsgStore (Basic srv)) raw;
    auth ← load_auth (Auth srv) (rAuth raw);
    upload ← load_upload (rFileUpload raw);
    _ ← load_origins (rHTTPOrigin raw);
    proxies ← load_proxies (rAcceptProxyIP raw) [];
    unix ← load_bool (rAcceptProxyUnix raw);
    ips ← load_user_ips (rUpstreamUserIP raw) false false [];
    inactive ← load_duration (rDisableInactiveUser raw);
    expiry ← load_duration (rMessageExpiry raw);
    enable ← load_bool (rEnableUserOnAuth raw);
    cert ← load_bool (rClientCertAuth raw);
    Ok (MkServerConfig
      (MkBasic hostname (rTitle raw) store (rHTTPOrigin raw)
        (if decide (rHTTPIngress raw ≠ "") then rHTTPIngress raw else "https://" +:+ hostname)
        proxies unix (rMaxUserNetworks raw) ips inactive expiry enable cert)
      (rListen raw) (rTLS raw) (rIcon raw) (rMOTD raw) db auth upload)
  end.

(** ** What a configuration promises *)

Definition driver_ok (plain sourced : list string) (d : driverSource) : Prop :=
  Driver d ∈ plain ∧ Source d = "" ∨ Driver d ∈ sourced ∧ Source d ≠ "".

Definition is_v4 (n : IPNet) : bool := bool_decide (is_Some (To4 (netIP n))).
Definition count_v4 (nets : list IPNet) : nat := length (filter (λ n, is_v4 n = true) nets).
Definition count_v6 (nets : list IPNet) : nat := length (filter (λ n, is_v4 n = false) nets).

Record config_ok (c : Server) : Prop := {
  ok_db : Driver (DB c) ∈ ["sqlite3"; "postgres"];
  ok_store : driver_ok ["memory"; "db"] ["fs"] (MsgStore (Basic c));
  ok_auth : Auth c ≠ [] ∧ Forall (driver_ok ["internal"; "pam"] ["http"; "oauth2"]) (Auth c);
  ok_upload d : FileUpload c = Some d → driver_ok [] ["fs"; "http"] d;
  ok_ingress : HTTPIngress (Basic c) ≠ "";
  ok_user_ips : (count_v4 (UpstreamUserIPs (Basic c)) ≤ 1)%nat ∧ (count_v6 (UpstreamUserIPs (Basic c)) ≤ 1)%nat;
  ok_durations : 0 ≤ DisableInactiveUsersDelay (Basic c) ∧ 0 ≤ MessageExpiry (Basic c)
}.

(** A proxy is trusted when a directive names it. *)
Definition trusted (l : list string) (ip : IP) : Prop :=
  ∃ s, s ∈ l ∧ (if decide (s = "localhost") then IPSet_Contains loopbackIPs ip = true
                else ∃ n, cf_ParseCIDR s = Some n ∧ IPNet_Contains n ip = true).

Lemma check_driver_ok plain sourced params d : check_driver plain sourced params = Ok d → driver_ok plain sourced d.
Proof.
  unfold check_driver. intros ([driver source] & _ & Hd)%res_bind_ok. unfold driver_ok.
  repeat case_decide; simplify_eq; cbn; tauto.
Qed.
Lemma mapM_Forall {A B} (f : A → res goerr B) (P : B → Prop) l k :
  (∀ x y, f x = Ok y → P y) → mapM f l = Ok k → Forall P k ∧ length k = length l.
Proof.
  intros Hf. revert k. induction l as [|x l IH]; intros k; [intros [= <-]; by split|].
  intros (y & Hy & (k' & Hk & [= <-])%res_bind_ok)%res_bind_ok. destruct (IH k' Hk) as [H1 H2].
  split; [constructor; [by eapply Hf|done]|cbn; by rewrite H2].
Qed.

Lemma load_proxies_trusted l set set' ip :
  load_proxies l set = Ok set' → IPSet_Contains set' ip = true ↔ IPSet_Contains set ip = true ∨ trusted l ip.
Proof.
  revert set. induction l as [|s l IH]; intros set.
  { intros [= <-]. split; [by left|intros [?|(s & Hs & _)]; [done|by inversion Hs]]. }
  assert (∀ P, (∃ x, x ∈ s :: l ∧ P x) ↔ P s ∨ ∃ x, x ∈ l ∧ P x) as Hcons.
  { intros P. split.
    - intros (x & [->|Hx]%elem_of_cons & Hp); eauto.
    - intros [Hp|(x & Hx & Hp)]; [exists s; split; [by left|done]|exists x; split; [by right|done]]. }
  cbn [load_proxies]. unfold trusted. rewrite Hcons. case_decide as Hs.
  - intros ->%IH. unfold IPSet_Contains. rewrite existsb_app, orb_true_iff. unfold trusted. tauto.
  - destruct (cf_ParseCIDR s) as [n|] eqn:Hn; [|done]. intros ->%IH. unfold IPSet_Contains. rewrite existsb_app, orb_true_iff.
    cbn. rewrite orb_false_r. unfold trusted. naive_solver.
Qed.

Lemma load_user_ips_counts l has4 has6 nets nets' :
  load_user_ips l has4 has6 nets = Ok nets' →
  (count_v4 nets ≤ (if has4 then 1 else 0))%nat → (count_v6 nets ≤ (if has6 then 1 else 0))%nat →
  (count_v4 nets' ≤ 1)%nat ∧ (count_v6 nets' ≤ 1)%nat.
Proof.
  revert has4 has6 nets. induction l as [|s l IH]; intros has4 has6 nets.
  { intros [= <-] ? ?. destruct has4, has6; lia. }
  cbn [load_user_ips]. destruct (cf_ParseCIDR s) as [n|]; [|done].
  assert (∀ b, length (filter (λ n, is_v4 n = b) (nets ++ [n])) = length (filter (λ n, is_v4 n = b) nets) + (if decide (is_v4 n = b) then 1 else 0))%nat as Hc.
  { intros b. rewrite filter_app, length_app. f_equal. rewrite filter_cons, filter_nil. by case_decide. }
  destruct (To4 (netIP n)) as [ip|] eqn:Hip.
  - assert (is_v4 n = true) as Hv by (unfold is_v4; rewrite Hip; apply bool_decide_eq_true_2; by eexists).
    destruct has4; [done|]. intros Hl H4 H6. apply (IH true has6 _ Hl); unfold count_v4, count_v6 in *; rewrite Hc, Hv; repeat case_decide; (done || lia).
  - assert (is_v4 n = false) as Hv by (unfold is_v4; rewrite Hip; apply bool_decide_eq_false_2; by intros []).
    destruct has6; [done|]. intros Hl H4 H6. apply (IH has4 true _ Hl); unfold count_v4, count_v6 in *; rewrite Hc, Hv; repeat case_decide; (done || lia).
Qed.
Lemma load_duration_pos s d : load_duration s = Ok d → 0 ≤ d.
Proof.
  unfold load_duration. case_decide; [intros [= <-]; lia|]. intros (x & _ & Hx)%res_bind_ok.
  destruct (Z.ltb_spec x 0); [done|]. by injection Hx as <-.
Qed.

(** C33: A configuration that loads is one the bouncer can run with: its database, message store,
    authentication and upload drivers are known ones, with a source exactly when they need
    one; there is a way to authenticate; at most one range per IP version is used for outgoing
    connections; no delay is negative; and a proxy is trusted if and only if an accept-proxy-ip
    directive names it. *)
Theorem load_config_ok file raw c :
  cf_Decode file emptyRaw = inl raw → Load file = Ok c →
  config_ok c ∧ ∀ ip, IPSet_Contains (AcceptProxyIPs (Basic c)) ip = true ↔ trusted (rAcceptProxyIP raw) ip.
Proof.
  intros Hraw. unfold Load. rewrite Hraw.
  intros (db & Hdb & (store & Hstore & (auth & Hauth & (upload & Hupload & (? & _ & (proxies & Hproxies & (unix & _ &
    (ips & Hips & (inactive & Hin & (expiry & Hex & (enable & _ & (cert & _ & [= <-])%res_bind_ok)%res_bind_ok)%res_bind_ok)%res_bind_ok)
    %res_bind_ok)%res_bind_ok)%res_bind_ok)%res_bind_ok)%res_bind_ok)%res_bind_ok)%res_bind_ok)%res_bind_ok.
  split; [split; cbn|].
  - unfold load_db in Hdb. destruct (rDB raw) as [[driver source]|]; [case_decide; [|done]|]; injection Hdb as <-; [done|by left].
  - unfold load_msgstore in Hstore. destruct (match rMessageStore raw with None => rLog raw | o => o end);
      [by eapply check_driver_ok|injection Hstore as <-; left; split; [right; left|done]].
  - unfold load_auth in Hauth. destruct (rAuth raw) as [|a l] eqn:Ha.
    + injection Hauth as <-. split; [done|]. constructor; [|constructor]. left. split; [by left|done].
    + apply (mapM_Forall _ (driver_ok ["internal"; "pam"] ["http"; "oauth2"])) in Hauth as [Hf Hlen]; [|by intros; eapply check_driver_ok].
      split; [|done]. intros ->. done.
  - intros d ->. unfold load_upload in Hupload. destruct (rFileUpload raw); [|done].
    apply res_bind_ok in Hupload as (d' & Hd & [= ->]). by eapply check_driver_ok.
  - case_decide as Hi; [done|]. by destruct (if decide (rHostname raw ≠ "") then _ else _).
  - by eapply (load_user_ips_counts _ false false []); [exact Hips|cbn; lia..].
  - split; by eapply load_duration_pos.
  - intros ip. rewrite (load_proxies_trusted _ _ _ ip Hproxies). unfold IPSet_Contains at 1. cbn. split; [|by right].
    intros [?|?]; done.
Qed.
End config.

(** ** Loopback addresses *)

Definition ip_ok (ip : IP) : Prop := Forall (λ b, 0 ≤ b < 256) ip.

Lemma land_255 b : 0 ≤ b < 256 → Z.land b 255 = b.
Proof. intros Hb. change 255 with (Z.ones 8). rewrite Z.land_ones by lia. by apply Z.mod_small. Qed.
Lemma land_mask ip : ip_ok ip → zip_with Z.land ip (repeat 255 (length ip)) = ip.
Proof. induction 1 as [|b ip Hb _ IH]; [done|]. cbn. by rewrite land_255, IH. Qed.

Lemma To4_ok ip ip' : ip_ok ip → To4 ip = Some ip' → ip_ok ip' ∧ length ip' = 4%nat.
Proof.
  intros Hip. unfold To4. destruct (Nat.eqb_spec (length ip) 4); [intros [= <-]; by split|].
  destruct (Nat.eqb_spec (length ip) 16) as [Hl|]; [|done]. cbn. case_bool_decide; [|done]. intros [= <-].
  split; [by apply Forall_drop|rewrite length_drop; lia].
Qed.

(** "localhost" stands for the addresses of the machine itself, and no others. *)
Lemma loopback_spec ip :
  ip_ok ip → IPSet_Contains loopbackIPs ip = true ↔ (∃ r, To4 ip = Some (127 :: r)) ∨ ip = IPv6loopback.
Proof.
  intros Hip. unfold IPSet_Contains, loopbackIPs. cbn [existsb]. rewrite orb_false_r, orb_true_iff. f_equiv.
  - unfold IPNet_Contains. cbn [netIP netMask].
    change (default [127; 0; 0; 0] (To4 [127; 0; 0; 0])) with [127; 0; 0; 0]. change (CIDRMask 8 32) with [255; 0; 0; 0].
    cbn [length Nat.eqb andb]. rewrite andb_true_r.
    destruct (To4 ip) as [ip'|] eqn:H4; cbn [default].
    + destruct (To4_ok _ _ Hip H4) as [Hok Hlen]. destruct ip' as [|a [|b [|c [|d [|]]]]]; try done.
      inversion Hok as [|? ? Ha _]; subst. unfold id. cbn [length Nat.eqb andb zip_with].
      rewrite bool_decide_eq_true, (land_255 a), !Z.land_0_r by done. change (Z.land 127 255) with 127. split.
      * intros [= <-]. by eexists.
      * intros [r [= -> _]]. done.
    + split; [|by intros []]. intros [Hl _]%andb_true_iff. apply Nat.eqb_eq in Hl. unfold To4 in H4. by rewrite Hl in H4.
  - unfold IPNet_Contains. cbn [netIP netMask].
    change (default IPv6loopback (To4 IPv6loopback)) with IPv6loopback.
    change (CIDRMask 128 128) with (repeat 255 16). cbn [length repeat IPv6loopback app Nat.eqb andb].
    destruct (To4 ip) as [ip'|] eqn:H4; cbn [default].
    + destruct (To4_ok _ _ Hip H4) as [_ Hlen]. unfold id. rewrite Hlen. split; [done|]. intros ->. by vm_compute in H4.
    + rewrite andb_true_r. split.
      * intros [Hl%Nat.eqb_eq Hz%bool_decide_eq_true]%andb_true_iff. rewrite <-(land_mask ip Hip), Hl. by symmetry.
      * intros ->. by vm_compute.
Qed.

(** ** Evaluation *)

Definition demo_raw : rawConfig :=
  MkRaw ["ircs://"] "bouncer.example" "" "" "" None (Some ("postgres", "dbname=soju")) None (Some ["fs"; "/var/log/soju"])
    [["internal"]; ["http"; "https://auth.example"]] None [] "" ["localhost"; "10.0.0.0/8"] "" 5 ["192.0.2.0/24"] "30d" "" "true" "".
#[local] Instance demo_cfgenv : cfgenv := {|
  cf_Hostname := None; cf_Decode _ _ := inl demo_raw;
  cf_ParseCIDR s := if decide (s = "10.0.0.0/8") then Some (MkIPNet [10; 0; 0; 0] (CIDRMask 8 32))
    else if decide (s = "192.0.2.0/24") then Some (MkIPNet [192; 0; 2; 0] (CIDRMask 24 32)) else None;
  cf_ParseFloat s := (λ z, Fin z 1) <$> ParseInt64 s; cf_int64 := - 2 ^ 63; cf_pattern _ := true
|}.

Lemma load_config_ok_witness :
  ∃ c, Load "soju.conf" = Ok c ∧ config_ok c ∧ DisableInactiveUsersDelay (Basic c) = 30 * 24 * 3600 * 1000000000 ∧
    IPSet_Contains (AcceptProxyIPs (Basic c)) [10; 1; 2; 3] = true ∧
    IPSet_Contains (AcceptProxyIPs (Basic c)) [11; 1; 2; 3] = false.
Proof.
  eexists. split; [vm_compute; reflexivity|]. split; [|split_and!; vm_compute; reflexivity].
  apply (load_config_ok "soju.conf" demo_raw); [reflexivity|vm_compute; reflexivity].
Defined.
