(* ===== verification/Auth.v ===== *)
(** * Authentication back ends (auth/auth.go, auth/internal.go, auth/http.go, auth/oauth2.go, auth/pam.go)

    Checking a password or a token against the database, an HTTP service, an OAuth 2.0 server or
    PAM, and the choice of the back ends by the configuration (cmd/soju/main.go). Password
    hashing, HTTP, JSON, URLs and PAM are parameters. The theorem is that a user is let in only
    when the back end in charge vouches for that user, and what this may change in the
    database. *)

From S2P Require Import Prelude GoStrings GoUnicode GoStrconv IrcMessage GenMsg GoTime Effects Database Downstream SqlTables Sqlite SqliteDelete SqliteSpec SqliteRecords Identd Config.

Open Scope string_scope.
Open Scope list_scope.
Open Scope Z_scope.

(** ** Requests *)

Record httpRequest := MkRequest {
  rqMethod : string; rqURL : string; rqHeader : list (string * string); rqBasic : option (string * string);
  rqToken : option string (* the form of an introspection *)
}.
Record httpResponse := MkResponse { rsStatus : Z; rsBody : string }.

Record authURL := MkAuthURL { auUser : option (string * string); auPath : string; auRest : string }.
Record oauth2Server := MkOAuth2Server {
  osIssuer : string; osIntrospectionEndpoint : string; osAuthMethods : option (list string)
}.

(** The styles of a PAM conversation. *)
Inductive pamStyle := PromptEchoOff | PromptEchoOn | ErrorMsg | TextInfo | OtherStyle.
Record pamSession := MkPam {
  pamStart : option goerr; pamAuthenticate : option goerr; pamAcctMgmt : option goerr; pamUser : string + goerr; pamEnd : option goerr
}.

Class authenv := MkAuthenv {
  ae_compare : string → string → option goerr;
  ae_cost : string → Z + goerr;
  ae_generate : string → string + goerr;
  ae_NewRequest : string → option goerr;
  ae_Do : httpRequest → httpResponse + goerr;
  ae_introspection : string → (bool * string) + goerr;
  ae_server : string → oauth2Server + goerr;
  ae_ParseURL : string → authURL + goerr;
  ae_URLString : authURL → string;
  ae_JoinPath : string → string → string;
  ae_QueryEscape : string → string;
  ae_pam : option (string → (pamStyle → string → string + goerr) → pamSession)
}.

Definition bcrypt_DefaultCost : Z := 10.
Definition StatusOK : Z := 200.
Definition StatusForbidden : Z := 403.

Section auth.
Context `{EN : engine} `{SE : search_engine} `{LE : sqlenv} `{UnicodeTables} `{AE : authenv}.

Definition newInvalidCredentialsError : autherr := AuthError "Invalid credentials".

Definition set_uPassword (h : string) (u : dbUser) : dbUser :=
  MkUser (uID u) (uUsername u) h (uNick u) (uRealname u) (uAdmin u) (uEnabled u) (uDownstreamInteractedAt u) (uMaxNetworks u).

(** The record afterwards, whether it has a new hash, and the error. *)
Definition CheckPassword (u : dbUser) (password : string) : dbUser * bool * option goerr :=
  if decide (uPassword u = "") then (u, false, Some (Errorf "password auth disabled"))
  else match ae_compare (uPassword u) password with
  | Some _ => (u, false, Some (Errorf "wrong password: %v"))
  | None =>
    match ae_cost (uPassword u) with
    | inr _ => (u, false, Some (Errorf "invalid password cost: %v"))
    | inl cost =>
      if cost <? bcrypt_DefaultCost then
        match ae_generate password with
        | inr _ => (u, true, Some (Errorf "failed to hash password: %v"))
        | inl h => (set_uPassword h u, true, None)
        end
      else (u, false, None)
    end
  end.

(** [internal.AuthPlain]; [None] is success. *)
Definition internal_AuthPlain (username password : string) : SQ (option autherr) :=
  r ← try (GetUser username);
  match r with
  | inr _ => mret (Some newInvalidCredentialsError)
  | inl u =>
    match CheckPassword u password with
    | (_, _, Some _) => mret (Some newInvalidCredentialsError)
    | (u, upgraded, None) =>
      if upgraded : bool then
        r ← try (StoreUser u);
        mret (match r with inr _ => Some OtherError | inl _ => None end)
      else mret None
    end
  end.

(** The headers with the address of the client. *)
Definition setHTTPForwardedHeader (addr : option string) : list (string * string) :=
  match addr with
  | None | Some "" => []
  | Some addr =>
    [("Forwarded", "for=" +:+ Quote addr); ("X-Forwarded-For", match SplitHostPort addr with Some (h, _) => h | None => "" end)]
  end.

(** [httpAuth.AuthPlain] *)
Definition http_AuthPlain (url : string) (addr : option string) (username password : string) : option autherr :=
  match ae_NewRequest url with
  | Some _ => Some OtherError
  | None =>
    match ae_Do (MkRequest "POST" url (setHTTPForwardedHeader addr) (Some (username, password)) None) with
    | inr _ => Some OtherError
    | inl resp =>
      if rsStatus resp =? StatusForbidden then Some newInvalidCredentialsError
      else if negb (rsStatus resp =? StatusOK) then Some OtherError else None
    end
  end.

(** ** OAuth 2.0 *)

Record oauth2 := MkOAuth2 { oaIntrospectionURL : authURL; oaClientID : string; oaClientSecret : string }.

Definition discoverOAuth2 (discoveryURL : string) : oauth2Server + goerr :=
  match ae_NewRequest discoveryURL with
  | Some _ => inr (Errorf "failed to create request: %v")
  | None =>
    match ae_Do (MkRequest "GET" discoveryURL [("Accept", "application/json")] None None) with
    | inr _ => inr (Errorf "failed to send request: %v")
    | inl resp =>
      if negb (rsStatus resp =? StatusOK) then inr (Errorf "OAuth 2.0 HTTP error: %v")
      else match ae_server (rsBody resp) with
           | inr _ => inr (Errorf "failed to decode response: %v")
           | inl data => if decide (osIssuer data = "") then inr (Errorf "missing issuer in response") else inl data
           end
    end
  end.

Definition newOAuth2 (source : string) : oauth2 + goerr :=
  match ae_ParseURL source with
  | inr _ => inr (Errorf "failed to parse OAuth 2.0 server URL: %v")
  | inl u =>
    let '(clientID, clientSecret) := default ("", "") (auUser u) in
    let discoveryURL := MkAuthURL None (ae_JoinPath "/.well-known/oauth-authorization-server" (auPath u)) (auRest u) in
    match discoverOAuth2 (ae_URLString discoveryURL) with
    | inr _ => inr (Errorf "OAuth 2.0 discovery failed: %v")
    | inl server =>
      if decide (osIntrospectionEndpoint server = "") then inr (Errorf "OAuth 2.0 server doesn't support token introspection")
      else match ae_ParseURL (osIntrospectionEndpoint server) with
      | inr _ => inr (Errorf "failed to parse OAuth 2.0 introspection URL")
      | inl introspectionURL =>
        let auth := MkOAuth2 introspectionURL clientID clientSecret in
        match osAuthMethods server with
        | None => inl auth
        | Some methods =>
          if decide (clientID = "" ∧ "none" ∉ methods) then inr (Errorf "OAuth 2.0 server requires authentication for introspection")
          else if decide (clientID ≠ "" ∧ "client_secret_basic" ∉ methods)
          then inr (Errorf "OAuth 2.0 server doesn't support Basic HTTP authentication for introspection")
          else inl auth
        end
      end
    end
  end.

Definition introspection_request (auth : oauth2) (addr : option string) (token : string) : httpRequest :=
  MkRequest "POST" (ae_URLString (oaIntrospectionURL auth))
    (("Content-Type", "application/x-www-form-urlencoded") :: ("Accept", "application/json") :: setHTTPForwardedHeader addr)
    (if decide (oaClientID auth ≠ "") then Some (ae_QueryEscape (oaClientID auth), ae_QueryEscape (oaClientSecret auth)) else None)
    (Some token).

Definition AuthOAuthBearer (auth : oauth2) (addr : option string) (token : string) : string + autherr :=
  match ae_NewRequest (ae_URLString (oaIntrospectionURL auth)) with
  | Some _ => inr OtherError
  | None =>
    match ae_Do (introspection_request auth addr token) with
    | inr _ => inr OtherError
    | inl resp =>
      if negb (rsStatus resp =? StatusOK) then inr OtherError
      else match ae_introspection (rsBody resp) with
           | inr _ => inr OtherError
           | inl (active, username) =>
             if negb active then inr newInvalidCredentialsError
             else if decide (username = "") then inr OtherError else inl username
           end
    end
  end.

(** [OAuthPlainAuthenticator.AuthPlain] *)
Definition oauth_AuthPlain (auth : oauth2) (addr : option string) (username password : string) : option autherr :=
  match AuthOAuthBearer auth addr password with
  | inr e => Some e
  | inl effectiveUsername => if decide (username ≠ effectiveUsername) then Some newInvalidCredentialsError else None
  end.

(** ** PAM *)

Definition pam_conversation (password : string) (s : pamStyle) (msg : string) : string + goerr :=
  match s with
  | PromptEchoOff => inl password
  | PromptEchoOn | ErrorMsg | TextInfo => inl ""
  | OtherStyle => inr (Errorf "unsupported PAM conversation style: %v")
  end.

(** [pamAuth.AuthPlain] *)
Definition pam_AuthPlain (start : string → (pamStyle → string → string + goerr) → pamSession) (username password : string) : option autherr :=
  let t := start username (pam_conversation password) in
  match pamStart t, pamAuthenticate t, pamAcctMgmt t, pamUser t, pamEnd t with
  | Some _, _, _, _, _ => Some OtherError
  | None, Some _, _, _, _ => Some newInvalidCredentialsError
  | None, None, Some _, _, _ => Some OtherError
  | None, None, None, inr _, _ => Some OtherError
  | None, None, None, inl user, e =>
    if decide (user ≠ username) then Some OtherError
    else match e with Some _ => Some OtherError | None => None end
  end.

(** ** Authenticators *)

Inductive plainAuth := PlainInternal | PlainHTTP (url : string) | PlainPAM | PlainOAuth (a : oauth2).
Record Authenticator := MkAuthenticator { Plain : option plainAuth; OAuthBearer : option oauth2 }.

(** [auth.New] *)
Definition auth_New (d : driverSource) : Authenticator + goerr :=
  if decide (Driver d = "internal") then inl (MkAuthenticator (Some PlainInternal) None)
  else if decide (Driver d = "http") then inl (MkAuthenticator (Some (PlainHTTP (Source d))) None)
  else if decide (Driver d = "oauth2") then
    match newOAuth2 (Source d) with inr e => inr e | inl a => inl (MkAuthenticator None (Some a)) end
  else if decide (Driver d = "pam") then
    match ae_pam with
    | None => inr (Errorf "PAM support is disabled")
    | Some _ => inl (MkAuthenticator (Some PlainPAM) None)
    end
  else inr (Errorf "unknown auth driver %q").

Fixpoint merge_auths (l : list driverSource) (acc : Authenticator) : Authenticator + goerr :=
  match l with
  | [] => inl acc
  | d :: l =>
    match auth_New d with
    | inr _ => inr (Errorf "failed to create authenticator %v: %v")
    | inl a =>
      match Plain a, Plain acc with
      | Some _, Some _ => inr (Errorf "failed to load authenticators: multiple plain authentication methods specified")
      | _, _ =>
        match OAuthBearer a, OAuthBearer acc with
        | Some _, Some _ => inr (Errorf "failed to load authenticators: multiple OAuth authentication methods specified")
        | _, _ =>
          merge_auths l (MkAuthenticator (match Plain a with Some p => Some p | None => Plain acc end)
                                         (match OAuthBearer a with Some o => Some o | None => OAuthBearer acc end))
        end
      end
    end
  end.

(** The authenticator of a configuration: a password may be a token when only OAuth is set up. *)
Definition load_authenticator (l : list driverSource) : Authenticator + goerr :=
  match merge_auths l (MkAuthenticator None None) with
  | inr e => inr e
  | inl a =>
    match Plain a, OAuthBearer a with
    | None, Some o => inl (MkAuthenticator (Some (PlainOAuth o)) (Some o))
    | _, _ => inl a
    end
  end.

Definition AuthPlain (p : plainAuth) (addr : option string) (username password : string) : SQ (option autherr) :=
  match p with
  | PlainInternal => internal_AuthPlain username password
  | PlainHTTP url => mret (http_AuthPlain url addr username password)
  | PlainPAM => match ae_pam with
                | Some start => mret (pam_AuthPlain start username password)
                | None => mret (Some OtherError)
                end
  | PlainOAuth a => mret (oauth_AuthPlain a addr username password)
  end.

(** ** Soundness *)

(** The record of a user in the database. *)
Definition user_record (d : sqldb) (name : string) : option dbUser :=
  match filter (λ r, ur_username r = name) (t_User d) with
  | r :: _ => match scan_user r with Ok u => Some u | _ => None end
  | [] => None
  end.

(** A row as [StoreUser] writes it. *)
Definition user_row_ok (r : userRow) : Prop :=
  0 < ur_id r ∧ ∀ t, ur_interacted_at r = Some t → ∃ z, four_digit_year (z / nsPerDay) ∧ t = FormatServerTime z.

(** The back end vouches for the user. *)
Definition vouched (p : plainAuth) (addr : option string) (username password : string) (d : sqldb) : Prop :=
  match p with
  | PlainInternal => ∃ u, user_record d username = Some u ∧ uPassword u ≠ "" ∧ ae_compare (uPassword u) password = None
  | PlainHTTP url => ∃ resp, rsStatus resp = StatusOK ∧
      ae_Do (MkRequest "POST" url (setHTTPForwardedHeader addr) (Some (username, password)) None) = inl resp
  | PlainPAM => ∃ start, ae_pam = Some start ∧
      let t := start username (pam_conversation password) in
      pamStart t = None ∧ pamAuthenticate t = None ∧ pamAcctMgmt t = None ∧ pamUser t = inl username
  | PlainOAuth a => username ≠ "" ∧ ∃ resp, rsStatus resp = StatusOK ∧
      ae_Do (introspection_request a addr password) = inl resp ∧ ae_introspection (rsBody resp) = inl (true, username)
  end.

(** [d'] is [d] with another hash for a user. *)
Definition rehashed (d d' : sqldb) (username hash : string) : Prop :=
  d' = set_User (t_User d') d ∧
  ∀ name, user_record d' name = (if decide (name = username) then set_uPassword hash else id) <$> user_record d name.

Lemma scan_time t z : four_digit_year (z / nsPerDay) → sqliteTime_Scan (Some (FormatServerTime z)) = Ok t →
  sqliteTime_Scan (sqliteTime_Value t) = Ok t.
Proof.
  intros Hz. unfold sqliteTime_Scan at 1. rewrite ParseServerTime_Format by done. intros [= <-].
  set (t := z - z mod nsPerMs). unfold sqliteTime_Value. destruct (IsZero t) eqn:Hzero.
  { unfold IsZero in Hzero. apply Z.eqb_eq in Hzero. by rewrite Hzero. }
  assert (t / nsPerDay = z / nsPerDay ∧ t mod nsPerMs = 0) as [Hd Hm]
    by (unfold t, nsPerDay, nsPerSecond, nsPerMs; split; Z.to_euclidean_division_equations; lia).
  cbn. rewrite ParseServerTime_Format by (by rewrite Hd). by rewrite Hm, Z.sub_0_r.
Qed.

Lemma scan_update_user r u u' :
  user_row_ok r → scan_user r = Ok u → uDownstreamInteractedAt u' = uDownstreamInteractedAt u → uID u' = ur_id r →
  uUsername u' = ur_username r → scan_user (update_user_row u' r) = Ok u'.
Proof.
  intros [_ Hr] Hscan Hat Hid Hname. unfold scan_user in *. apply res_bind_ok in Hscan as (t & Ht & [= Hu]).
  assert (t = uDownstreamInteractedAt u) as Htu by (by rewrite <-Hu).
  assert (sqliteTime_Scan (sqliteTime_Value t) = Ok t) as Hback.
  { destruct (ur_interacted_at r) as [text|]; [|by injection Ht as <-].
    destruct (Hr text eq_refl) as (z & Hz & ->). by eapply scan_time. }
  cbn. rewrite Hat, <-Htu, Hback. cbn. rewrite !NullString_to, <-Hid, <-Hname. destruct u'. cbn in *. by rewrite Htu, Hat.
Qed.

Lemma scan_user_fields r u : scan_user r = Ok u → uID u = ur_id r ∧ uUsername u = ur_username r.
Proof. unfold scan_user. by intros (t & _ & [= <-])%res_bind_ok. Qed.

(** The rows of another user are as they were. *)
Lemma filter_update_ne (name other : string) (f : userRow → userRow) l :
  name ≠ other → (∀ r, ur_username (f r) = ur_username r) →
  filter (λ r, ur_username r = other) (update_where (λ r, bool_decide (ur_username r = name)) f l)
  = filter (λ r, ur_username r = other) l.
Proof.
  intros Hne Hf. induction l as [|r l IH]; [done|]. cbn [update_where fmap list_fmap]. fold (update_where (λ r, bool_decide (ur_username r = name)) f l).
  rewrite !filter_cons, IH. case_bool_decide as Hr; [|done].
  by rewrite !decide_False by (rewrite ?Hf; congruence).
Qed.

Lemma StoreUser_hash s username u h :
  db_ok (sq_db s) → Forall user_row_ok (t_User (sq_db s)) → user_record (sq_db s) username = Some u →
  ∃ s' r, StoreUser (set_uPassword h u) s = (s', r) ∧
    (sq_db s' = sq_db s ∧ (∃ e, r = Err e) ∨ rehashed (sq_db s) (sq_db s') username h ∧ ∃ u', r = Ok u').
Proof.
  intros Hok Hrows Hu. unfold user_record in Hu.
  destruct (filter (λ r, ur_username r = username) (t_User (sq_db s))) as [|r l] eqn:Hfil; [done|].
  destruct (scan_user r) as [u0| |] eqn:Hscan; [|done..]. injection Hu as ->.
  destruct (scan_user_fields r u Hscan) as [Hid Hname].
  assert (r ∈ filter (λ r, ur_username r = username) (t_User (sq_db s))) as [Hr Hin]%list_elem_of_filter by (rewrite Hfil; by left).
  rewrite Forall_forall in Hrows. destruct (Hrows r Hin) as [Hpos Htime].
  unfold StoreUser, now. rewrite bind_gets. rewrite decide_True by (cbn; lia).
  edestruct (exec_cases (λ d, inl (set_User (update_where (λ r, bool_decide (ur_username r = uUsername (set_uPassword h u)))
    (update_user_row (set_uPassword h u)) (t_User d)) d)) _ s eq_refl) as [[Hrun Hd]|[e Hrun]].
  - erewrite bind_run by exact Hrun. eexists _, _. split; [reflexivity|]. right. split; [|by eexists]. cbn [sq_db].
    assert (uUsername (set_uPassword h u) = username) as -> by (cbn; congruence). split; [done|]. intros name. cbn [t_User set_User].
    unfold user_record at 1. cbn [t_User set_User]. case_decide as Hn.
    + subst name. rewrite (filter_update (λ r, ur_username r = username)) by done. unfold user_record.
      rewrite Hfil, Hscan. cbn [update_where fmap list_fmap]. rewrite bool_decide_eq_true_2 by done.
      by rewrite (scan_update_user r u (set_uPassword h u)) by (done || (cbn; congruence)).
    + rewrite filter_update_ne by (done || congruence). unfold user_record.
      destruct (filter (λ r, ur_username r = name) (t_User (sq_db s))) as [|r' l']; [done|]. by destruct (scan_user r').
  - eexists _, _. split; [unfold mbind, M_bind; by rewrite Hrun|]. left. split; [done|by eexists].
Qed.

Lemma GetUser_run username s :
  ∃ s' r, try (GetUser username) s = (s', Ok r) ∧ sq_db s' = sq_db s ∧ ∀ u, r = inl u → user_record (sq_db s) username = Some u.
Proof.
  assert ((∃ s', sq_db s' = sq_db s ∧ ∃ e, GetUser username s = (s', Err e)) ∨
    (∃ s' u, sq_db s' = sq_db s ∧ GetUser username s = (s', Ok u) ∧ user_record (sq_db s) username = Some u)) as Hcases.
  { unfold GetUser, query_row, query, step, user_record, mbind, M_bind, gets, lift. cbn.
    destruct (en_fault (sq_count s)) as [e|]; [left; eexists (MkSql (sq_db s) _); (split; [|eexists; reflexivity]); reflexivity|]. cbn.
    destruct (filter (λ r, ur_username r = username) (t_User (sq_db s))) as [|r l]; [left; eexists (MkSql (sq_db s) _); (split; [|eexists; reflexivity]); reflexivity|]. cbn.
    destruct (scan_user r) as [u|e|w] eqn:Hr; [right; eexists (MkSql (sq_db s) _), _; split_and!; reflexivity|left; eexists (MkSql (sq_db s) _); (split; [|eexists; reflexivity]); reflexivity|].
    exfalso. unfold scan_user in Hr. destruct (ur_interacted_at r) as [t|]; [|done]. cbn in Hr. by destruct (ParseServerTime t). }
  unfold try. destruct Hcases as [(s' & Hs & e & ->)|(s' & u & Hs & -> & Hu)].
  - eexists _, _. split_and!; [done|done|by intros].
  - eexists _, _. split_and!; [done|done|]. by intros u' [= <-].
Qed.

(** C25: Nobody is let in without credentials. Whatever back end checks a password, it accepts it
    only when that back end vouches for exactly that user: the hash in the database is of that
    password, the HTTP service answered 200 to the credentials, PAM authenticated an account of
    that name, or the OAuth server says that the token is active and belongs to that user. It
    never panics, and changes nothing in the database but, for a password that was accepted
    against an old hash, the hash of that user. *)
Theorem auth_plain_sound p addr username password s :
  db_ok (sq_db s) → Forall user_row_ok (t_User (sq_db s)) →
  ∃ s' o, AuthPlain p addr username password s = (s', Ok o) ∧
    (o = None → vouched p addr username password (sq_db s)) ∧
    (sq_db s' = sq_db s ∨
     p = PlainInternal ∧ o = None ∧ ∃ hash, ae_generate password = inl hash ∧ rehashed (sq_db s) (sq_db s') username hash).
Proof.
  intros Hok Hrows. destruct p as [|url| |a]; cbn [AuthPlain].
  - unfold internal_AuthPlain. destruct (GetUser_run username s) as (s1 & r & Hrun & Hs1 & Hr). erewrite bind_run by exact Hrun.
    destruct r as [u|e]; [|eexists _, _; split_and!; [done|done|by left]]. specialize (Hr u eq_refl).
    unfold CheckPassword. case_decide as Hp; [eexists _, _; split_and!; [done|done|by left]|].
    destruct (ae_compare (uPassword u) password) as [e|] eqn:Hc; [eexists _, _; split_and!; [done|done|by left]|].
    assert (vouched PlainInternal addr username password (sq_db s)) as Hv by (by exists u).
    destruct (ae_cost (uPassword u)) as [cost|e]; [|eexists _, _; split_and!; [done|done|by left]].
    destruct (cost <? bcrypt_DefaultCost); [|eexists _, _; split_and!; [done|done|by left]].
    destruct (ae_generate password) as [h|e] eqn:Hg; [|eexists _, _; split_and!; [done|done|by left]].
    destruct (StoreUser_hash s1 username u h) as (s2 & r2 & Hrun2 & Hcase); [by rewrite Hs1..|]. rewrite Hs1 in Hcase.
    unfold try, mbind, M_bind. rewrite Hrun2. destruct Hcase as [[Hs2 [e ->]]|[Hre [u' ->]]].
    + eexists _, _. split_and!; [done|done|by left].
    + eexists _, _. split_and!; [done|done|]. right. split_and!; [done|done|by exists h].
  - eexists _, _. split_and!; [done| |by left]. unfold http_AuthPlain. cbn. destruct (ae_NewRequest url); [done|].
    destruct (ae_Do _) as [resp|e] eqn:Hdo; [|done]. destruct (rsStatus resp =? StatusForbidden); [done|].
    destruct (Z.eqb_spec (rsStatus resp) StatusOK); [|done]. intros _. by exists resp.
  - destruct ae_pam as [start|] eqn:Hpam; (eexists _, _; split_and!; [done| |by left]); [|done].
    unfold pam_AuthPlain. set (t := start username (pam_conversation password)).
    destruct (pamStart t) eqn:H1; [done|]. destruct (pamAuthenticate t) eqn:H2; [done|]. destruct (pamAcctMgmt t) eqn:H3; [done|].
    destruct (pamUser t) as [user|e] eqn:H4; [|done]. case_decide as Hu; [done|].
    assert (user = username) as Heq by (destruct (decide (user = username)); tauto). subst user. destruct (pamEnd t); [done|]. intros _. by exists start.
  - eexists _, _. split_and!; [done| |by left]. unfold oauth_AuthPlain, AuthOAuthBearer. cbn [vouched].
    destruct (ae_NewRequest _); [done|]. destruct (ae_Do _) as [resp|e] eqn:Hdo; [|done].
    destruct (Z.eqb_spec (rsStatus resp) StatusOK) as [Hst|]; [|done]. cbn [negb].
    destruct (ae_introspection (rsBody resp)) as [[[] name]|e] eqn:Hi; [|done..]. cbn [negb].
    case_decide as Hne; [done|]. case_decide as Hu; [done|]. intros _.
    assert (username = name) as <- by (destruct (decide (username = name)); tauto). split; [done|]. by exists resp.
Qed.

Lemma merge_auths_some l acc a :
  merge_auths l acc = inl a → (l ≠ [] ∨ is_Some (Plain acc) ∨ is_Some (OAuthBearer acc)) → is_Some (Plain a) ∨ is_Some (OAuthBearer a).
Proof.
  revert acc. induction l as [|d l IH]; intros acc; cbn [merge_auths]; [intros [= <-] [?|?]; done|].
  destruct (auth_New d) as [b|] eqn:Hb; [|done]. intros Hl _.
  assert (is_Some (Plain b) ∨ is_Some (OAuthBearer b)) as Hsome.
  { unfold auth_New in Hb. repeat case_decide; try done; [| |destruct (newOAuth2 (Source d)); [|done]|destruct ae_pam; [|done]];
      injection Hb as <-; cbn; eauto. }
  destruct (Plain b) as [p|] eqn:Hp, (OAuthBearer b) as [o|] eqn:Ho, (Plain acc), (OAuthBearer acc); try done;
    (apply (IH _ Hl); right; cbn; destruct Hsome as [[? ?]|[? ?]]; (done || eauto)).
Qed.

(** A configuration that loads lets passwords be checked. *)
Theorem load_authenticator_plain l a : l ≠ [] → load_authenticator l = inl a → is_Some (Plain a).
Proof.
  intros Hl. unfold load_authenticator. destruct (merge_auths l _) as [b|] eqn:Hm; [|done].
  destruct (merge_auths_some _ _ _ Hm (or_introl Hl)) as [Hs|Hs]; destruct (Plain b) eqn:Hp, (OAuthBearer b) eqn:Ho;
    intros [= <-]; cbn; rewrite ?Hp; eauto; by destruct Hs.
Qed.
End auth.

(** ** Evaluation *)

#[local] Existing Instance latin1_tables.

(** A hash is its cost and the password. *)
Definition demo_authenv : authenv := {|
  ae_compare h p := if decide (str_drop 2 h = p) then None else Some (Errorf "mismatch");
  ae_cost h := inl (if HasPrefix h "4" then 4 else 10);
  ae_generate p := inl ("9$" +:+ p);
  ae_NewRequest _ := None; ae_Do _ := inr (Errorf "refused"); ae_introspection _ := inr (Errorf "json"); ae_server _ := inr (Errorf "json");
  ae_ParseURL _ := inr (Errorf "url"); ae_URLString _ := ""; ae_JoinPath a b := a +:+ b; ae_QueryEscape s := s; ae_pam := None
|}.

Definition demo_users : sqldb :=
  set_User [MkUserRow 1 "alice" (Some "4$sesame") false None None "2024-01-01T00:00:00.000Z" true None (-1);
            MkUserRow 2 "bob" (Some "9$hunter2") true None None "2024-01-01T00:00:00.000Z" true (Some "2024-01-01T00:00:00.000Z") (-1)] demo_db.

Lemma demo_users_ok : db_ok demo_users.
Proof. split; refine (bool_decide_unpack _ _); vm_compute; exact I. Qed.
Lemma demo_users_rows : Forall user_row_ok (t_User demo_users).
Proof.
  constructor; [by split|]. constructor; [|constructor]. split; [done|]. intros t [= <-].
  exists (default 0 (ParseServerTime "2024-01-01T00:00:00.000Z")). split; [vm_compute; by split|vm_compute; reflexivity].
Qed.

Lemma auth_plain_sound_witness :
  ∃ s' o, AuthPlain (EN := demo_engine None) (AE := demo_authenv) PlainInternal None "alice" "sesame" (MkSql demo_users 0) = (s', Ok o) ∧
    (o = None → vouched (AE := demo_authenv) PlainInternal None "alice" "sesame" demo_users) ∧
    (sq_db s' = demo_users ∨
     PlainInternal = PlainInternal ∧ o = None ∧ ∃ hash, ae_generate (authenv := demo_authenv) "sesame" = inl hash ∧ rehashed demo_users (sq_db s') "alice" hash).
Proof.
  apply (auth_plain_sound (EN := demo_engine None) (AE := demo_authenv) PlainInternal None "alice" "sesame" (MkSql demo_users 0)).
  - exact demo_users_ok.
  - exact demo_users_rows.
Defined.

(** The new hash does not last: the record of the user that the bouncer has in memory, which is
    stored at the next activity of a client, still has the old one. *)
Lemma upgraded_hash_lost :
  let auth := internal_AuthPlain (EN := demo_engine None) (AE := demo_authenv) "alice" "sesame" in
  let '(s, r) := auth (MkSql demo_users 0) in
  r = Ok None ∧ uPassword <$> user_record (sq_db s) "alice" = Some "9$sesame" ∧
  match user_record demo_users "alice" with
  | Some in_memory => uPassword <$> user_record (sq_db (StoreUser (EN := demo_engine None) in_memory s).1) "alice" = Some "4$sesame"
  | None => False
  end.
Proof. vm_compute. auto. Qed.
