(* ===== verification/WebPush.v ===== *)
(** * Push notifications (server.go, user.go)

    The key pair of the server, the notification of a message to every subscription of a network
    and the removal of subscriptions that no longer work, over the SQLite database. The
    push library and the parser of addresses are parameters. *)

From S2P Require Import Prelude GoStrings GoUnicode IrcMessage GenMsg GoTime Effects Database Downstream SqlTables Sqlite SqliteDelete SqliteSpec SqliteRecords Identd Config.

Open Scope string_scope.
Open Scope list_scope.
Open Scope Z_scope.

Record pushRequest := MkPushRequest {
  pqEndpoint : string; pqAuth : string; pqP256DH : string; pqPayload : string; pqPublic : string; pqPrivate : string;
  pqHighUrgency : bool; pqTTL : Z; pqRecordSize : Z
}.
Inductive pushError := errWebPushSubscriptionExpired | PushError.

Class pushenv := MkPushenv {
  pe_GenerateVAPIDKeys : (string * string) + goerr; (* the private key first *)
  pe_Send : pushRequest → Z + goerr;
  pe_ParseAddr : string → option IP
}.

Definition webpushPruneSubscriptionDelay : Z := 30 * 24 * 3600 * nsPerSecond.

Section push.
Context `{EN : engine} `{SE : search_engine} `{LE : sqlenv} `{PE : pushenv}.

Definition loadWebPushConfig : SQ WebPushConfig :=
  r ← try ListWebPushConfigs;
  match r with
  | inr _ => fail (Errorf "failed to list Web push configs: %v")
  | inl (_ :: _ :: _) => fail (Errorf "expected zero or one Web push config, got %v")
  | inl [config] => mret config
  | inl [] =>
    match pe_GenerateVAPIDKeys with
    | inr _ => fail (Errorf "failed to generate Web push VAPID key pair: %v")
    | inl (priv, pub) =>
      r ← try (StoreWebPushConfig (MkPushConfig 0 pub priv));
      match r with inr _ => fail (Errorf "failed to store Web push config: %v") | inl config => mret config end
    end
  end.

Definition push_request (config : WebPushConfig) (sub : WebPushSubscription) (m : Message) : pushRequest :=
  MkPushRequest (subEndpoint sub) (kAuth (subKeys sub)) (kP256DH (subKeys sub)) (sq_MessageString m) (pcPublic config) (pcPrivate config)
    (bool_decide (Command m ∈ ["PRIVMSG"; "NOTICE"; "INVITE"])) (7 * 24 * 60 * 60) 2048.

(** [None] is success; [config] is that of the server. *)
Definition sendWebPush (config : WebPushConfig) (sub : WebPushSubscription) (m : Message) : option pushError :=
  if decide (kVAPID (subKeys sub) ≠ pcPublic config) then Some PushError
  else match pe_Send (push_request config sub m) with
       | inr _ => Some PushError
       | inl status =>
         if status =? 404 then Some errWebPushSubscriptionExpired
         else if negb (status / 100 =? 2) then Some PushError else None
       end.

(** One round of [broadcastWebPush]. *)
Definition push_one (config : WebPushConfig) (m : Message) (sub : WebPushSubscription) : SQ unit :=
  match sendWebPush config sub m with
  | None => skip
  | Some errWebPushSubscriptionExpired => _ ← try (DeleteWebPushSubscription (subID sub)); skip
  | Some PushError =>
    t ← now;
    when (webpushPruneSubscriptionDelay <? t - subUpdatedAt sub) (_ ← try (DeleteWebPushSubscription (subID sub)); skip)
  end.

Definition broadcastWebPush (config : WebPushConfig) (userID networkID : Z) (m : Message) : SQ unit :=
  r ← try (ListWebPushSubscriptions userID networkID);
  match r with
  | inr _ => skip
  | inl subs => foreach (push_one config m) subs
  end.

(** ** Where pushes may go *)

(** [netip.Addr], for an address of four or sixteen bytes; one that maps an IPv4 address is
    taken for it. *)
Definition unmap (ip : IP) : IP := default ip (To4 ip).
Definition IsLoopback (ip : IP) : bool :=
  match unmap ip with [a; _; _; _] => a =? 127 | ip => bool_decide (ip = IPv6loopback) end.
Definition IsMulticast (ip : IP) : bool :=
  match unmap ip with [a; _; _; _] => Z.land a 240 =? 224 | a :: _ => a =? 255 | [] => false end.
Definition IsPrivate (ip : IP) : bool :=
  match unmap ip with
  | [a; b; _; _] => (a =? 10) || (a =? 172) && (Z.land b 240 =? 16) || (a =? 192) && (b =? 168)
  | a :: _ => Z.land a 254 =? 252
  | [] => false
  end.

(** The dialer's control function; [None] lets the connection through. *)
Definition push_control (address : string) : option goerr :=
  match SplitHostPort address with
  | None => Some (Errorf "address")
  | Some (host, _) =>
    match pe_ParseAddr host with
    | None => Some (Errorf "ParseAddr")
    | Some ip => if IsLoopback ip || IsMulticast ip || IsPrivate ip then Some (Errorf "cannot connect to internal IP address") else None
    end
  end.

(** ** Which subscriptions are removed *)

(** A push to the subscription did not succeed, and it is not worth another try. *)
Definition dead (config : WebPushConfig) (m : Message) (t : Z) (sub : WebPushSubscription) : bool :=
  match sendWebPush config sub m with
  | None => false
  | Some errWebPushSubscriptionExpired => true
  | Some PushError => webpushPruneSubscriptionDelay <? t - subUpdatedAt sub
  end.

(** The row belongs to the network, and its subscription is dead. *)
Definition pruned (config : WebPushConfig) (userID networkID : Z) (m : Message) (t : Z) (r : pushRow) : bool :=
  bool_decide (ps_user r = userID ∧ ps_network r = null_id networkID) &&
  match scan_push r with Ok sub => dead config m t sub | _ => false end.

Definition without_pushes (ids : list Z) (d : sqldb) : sqldb :=
  set_WebPushSubscription (filter (λ r, ps_id r ∉ ids) (t_WebPushSubscription d)) d.

Lemma without_pushes_nil d : without_pushes [] d = d.
Proof.
  unfold without_pushes. assert (filter (λ r, ps_id r ∉ []) (t_WebPushSubscription d) = t_WebPushSubscription d) as ->.
  { induction (t_WebPushSubscription d) as [|r l IH]; [done|]. rewrite filter_cons, decide_True by apply not_elem_of_nil. by rewrite IH. }
  by destruct d.
Qed.
Lemma without_pushes_cons id ids d :
  without_pushes ids (set_WebPushSubscription (filter (λ r, ps_id r ≠ id) (t_WebPushSubscription d)) d) = without_pushes (id :: ids) d.
Proof.
  unfold without_pushes. cbn [t_WebPushSubscription set_WebPushSubscription].
  assert (filter (λ r, ps_id r ∉ ids) (filter (λ r, ps_id r ≠ id) (t_WebPushSubscription d))
    = filter (λ r, ps_id r ∉ id :: ids) (t_WebPushSubscription d)) as ->; [|done].
  rewrite list_filter_filter. apply filter_iff_in. intros r _. rewrite not_elem_of_cons. tauto.
Qed.

Lemma delete_push_run id s :
  (∀ n, en_fault n = None) → db_ok (sq_db s) →
  ∃ s', (_ ← try (DeleteWebPushSubscription id); skip) s = (s', Ok tt) ∧ db_ok (sq_db s') ∧
    sq_db s' = set_WebPushSubscription (filter (λ r, ps_id r ≠ id) (t_WebPushSubscription (sq_db s))) (sq_db s).
Proof.
  intros Hn Hok. set (d' := set_WebPushSubscription (filter (λ r, ps_id r ≠ id) (t_WebPushSubscription (sq_db s))) (sq_db s)).
  assert (db_ok d') as Hok' by (eapply leaf_ok; [exact Hok|shrink|done..]).
  unfold DeleteWebPushSubscription, try, mbind, M_bind. rewrite (exec_run _ d') by (done || apply Hn). by eexists.
Qed.

Lemma push_loop config m t subs s :
  (∀ n, en_fault n = None) → (∀ n, en_now n = t) → db_ok (sq_db s) →
  ∃ s', foreach (push_one config m) subs s = (s', Ok tt) ∧ db_ok (sq_db s') ∧
    sq_db s' = without_pushes (subID <$> filter (λ sub, dead config m t sub = true) subs) (sq_db s).
Proof.
  intros Hn Ht. revert s. induction subs as [|sub subs IH]; intros s Hok.
  { exists s. split_and!; [done|done|]. by rewrite without_pushes_nil. }
  assert (∃ s1, push_one config m sub s = (s1, Ok tt) ∧ db_ok (sq_db s1) ∧
    sq_db s1 = if dead config m t sub then set_WebPushSubscription (filter (λ r, ps_id r ≠ subID sub) (t_WebPushSubscription (sq_db s))) (sq_db s)
               else sq_db s) as (s1 & Hrun & Hok1 & Hs1).
  { unfold push_one, dead. destruct (sendWebPush config sub m) as [[]|]; [by apply delete_push_run| |by exists s].
    unfold now. rewrite bind_gets, Ht. unfold when. destruct (_ <? _); [by apply delete_push_run|by exists s]. }
  cbn [foreach]. erewrite bind_run by exact Hrun. destruct (IH s1 Hok1) as (s' & Hrun' & Hok' & Hs').
  exists s'. split_and!; [done|done|]. rewrite Hs', Hs1, filter_cons. destruct (dead config m t sub) eqn:Hd.
  - rewrite decide_True by done. rewrite fmap_cons. apply without_pushes_cons.
  - by rewrite decide_False by done.
Qed.

Lemma scan_all_run {R A} (scan : R → res goerr A) rows s :
  Forall (λ r, ∃ x, scan r = Ok x) rows → ∃ l, scan_all scan rows s = (s, Ok l) ∧ Forall2 (λ r x, scan r = Ok x) rows l.
Proof.
  intros Hf. assert (∃ l, mapM scan rows = Ok l ∧ Forall2 (λ r x, scan r = Ok x) rows l) as (l & Hl & H2).
  { induction Hf as [|r rows [x Hx] _ (l & Hl & H2)]; [by exists []|]. exists (x :: l). cbn. rewrite Hx. cbn. rewrite Hl. cbn.
    split; [done|]. by constructor. }
  exists l. unfold scan_all, lift. by rewrite Hl.
Qed.

Lemma ListWebPushSubscriptions_run userID networkID s :
  (∀ n, en_fault n = None) → Forall (λ r, ∃ x, scan_push r = Ok x) (t_WebPushSubscription (sq_db s)) →
  ∃ c subs, ListWebPushSubscriptions userID networkID s = (MkSql (sq_db s) c, Ok subs) ∧
    Forall2 (λ r x, scan_push r = Ok x)
      (filter (λ r, ps_user r = userID ∧ ps_network r = null_id networkID) (t_WebPushSubscription (sq_db s))) subs.
Proof.
  intros Hn Hscan. unfold ListWebPushSubscriptions, SqlTables.query. 
  edestruct (scan_all_run scan_push (filter (λ r, ps_user r = userID ∧ ps_network r = null_id networkID) (t_WebPushSubscription (sq_db s)))
    (MkSql (sq_db s) (S (sq_count s)))) as (subs & Hrun & Hf); [eapply Forall_sublist; [apply filter_sublist|done]|].
  exists (S (sq_count s)), subs. split; [|done]. erewrite bind_run; [exact Hrun|].
  erewrite bind_run by (apply step_run, Hn). reflexivity.
Qed.

Lemma scan_push_id r sub : scan_push r = Ok sub → subID sub = ps_id r.
Proof. unfold scan_push. intros (? & _ & (? & _ & [= <-])%res_bind_ok)%res_bind_ok. done. Qed.

Lemma row_by_id (rows : list pushRow) r r' : NoDup (ps_id <$> rows) → r ∈ rows → r' ∈ rows → ps_id r = ps_id r' → r = r'.
Proof.
  intros Hnd [i Hi]%list_elem_of_lookup [j Hj]%list_elem_of_lookup Hid. assert (i = j) as ->; [|congruence].
  eapply NoDup_lookup; [exact Hnd|by rewrite list_lookup_fmap, Hi|rewrite list_lookup_fmap, Hj; cbn; by rewrite Hid].
Qed.

(** C32: Subscriptions are pruned exactly when they are dead. Notifying a network of a message
    sends it to the subscriptions of that user and network that use the key of the server, and
    afterwards removes from the database those of them for which the push service said that
    they have expired, or which failed and had not been renewed for thirty days; every other
    subscription and every other table is untouched. *)
Theorem broadcast_prunes config userID networkID m t s :
  (∀ n, en_fault n = None) → (∀ n, en_now n = t) → db_ok (sq_db s) →
  Forall (λ r, ∃ x, scan_push r = Ok x) (t_WebPushSubscription (sq_db s)) →
  ∃ s', broadcastWebPush config userID networkID m s = (s', Ok tt) ∧ db_ok (sq_db s') ∧
    sq_db s' = set_WebPushSubscription
      (filter (λ r, pruned config userID networkID m t r = false) (t_WebPushSubscription (sq_db s))) (sq_db s).
Proof.
  intros Hn Ht Hok Hscan. destruct (ListWebPushSubscriptions_run userID networkID s Hn Hscan) as (c & subs & Hlist & Hf).
  destruct (push_loop config m t subs (MkSql (sq_db s) c) Hn Ht Hok) as (s' & Hrun & Hok' & Hs'). exists s'. split_and!; [|done|].
  { unfold broadcastWebPush, try. unfold mbind, M_bind. by rewrite Hlist. }
  rewrite Hs'. unfold without_pushes. cbn [sq_db].
  assert (filter (λ r, ps_id r ∉ (subID <$> filter (λ sub, dead config m t sub = true) subs)) (t_WebPushSubscription (sq_db s))
    = filter (λ r, pruned config userID networkID m t r = false) (t_WebPushSubscription (sq_db s))) as ->; [|done].
  destruct Hok as [(_ & _ & _ & _ & _ & _ & _ & [Hids _] & _) _].
  apply filter_iff_in. intros r Hr. rewrite <-not_true_iff_false. apply not_iff_compat. unfold pruned.
  rewrite andb_true_iff, bool_decide_eq_true, list_elem_of_fmap. split.
  - intros (sub & Hid & [Hdead Hsub]%list_elem_of_filter). apply list_elem_of_lookup in Hsub as [i Hi].
    destruct (Forall2_lookup_r _ _ _ _ _ Hf Hi) as (r' & Hr' & Hscan'). apply list_elem_of_lookup_2, list_elem_of_filter in Hr' as [Hown Hin].
    assert (r = r') as -> by (eapply row_by_id; [exact Hids|done|done|]; by rewrite Hid, (scan_push_id r' sub)).
    by rewrite Hscan'.
  - intros [Hown Hdead]. assert (r ∈ filter (λ r, ps_user r = userID ∧ ps_network r = null_id networkID) (t_WebPushSubscription (sq_db s)))
      as [i Hi]%list_elem_of_lookup by (by apply list_elem_of_filter).
    destruct (Forall2_lookup_l _ _ _ _ _ Hf Hi) as (sub & Hsub & Hscan'). rewrite Hscan' in Hdead. exists sub.
    split; [by rewrite (scan_push_id r sub)|]. apply list_elem_of_filter. split; [done|]. by eapply list_elem_of_lookup_2.
Qed.

(** The key pair of the server is made once: when it has been loaded, it is loaded again. *)
Theorem vapid_stable s s1 config s2 :
  (∀ n, en_fault n = None) → loadWebPushConfig s = (s1, Ok config) → sq_db s2 = sq_db s1 →
  (loadWebPushConfig s2).2 = Ok config.
Proof.
  intros Hn. assert (∀ s, try ListWebPushConfigs s = (MkSql (sq_db s) (S (sq_count s)),
    Ok (inl ((λ r, MkPushConfig (pr_id r) (pr_public r) (pr_private r)) <$> t_WebPushConfig (sq_db s))))) as Hlist.
  { intros x. unfold try, ListWebPushConfigs, SqlTables.query. erewrite bind_run; [reflexivity|]. by erewrite bind_run by (apply step_run, Hn). }
  unfold loadWebPushConfig. erewrite bind_run by apply Hlist. erewrite bind_run by apply Hlist. intros Hload Hs2. rewrite Hs2.
  destruct (t_WebPushConfig (sq_db s)) as [|r [|r' l]] eqn:Hrows; cbn [fmap list_fmap] in Hload; [| |done].
  - destruct pe_GenerateVAPIDKeys as [[priv pub]|e]; [|done]. unfold try, mbind, M_bind in Hload.
    destruct (StoreWebPushConfig (MkPushConfig 0 pub priv) _) as [s3 [c|e|w]] eqn:Hst; [|done|done]. injection Hload as -> ->.
    unfold StoreWebPushConfig, now in Hst. rewrite decide_False in Hst by (cbn; lia). rewrite bind_gets in Hst. rewrite bind_gets in Hst.
    cbn [sq_db sq_count] in Hst. rewrite Hrows in Hst. destruct (sqliteTime_Value _) as [created|] eqn:Hv.
    + edestruct (exec_cases (λ d, inl (set_WebPushConfig (t_WebPushConfig d ++ [MkPushConfigRow (next_id (pr_id <$> [])) created
        (pcPublic (MkPushConfig 0 pub priv)) (pcPrivate (MkPushConfig 0 pub priv))]) d)) _ (MkSql (sq_db s) (S (sq_count s))) eq_refl) as [[Hrun _]|[e Hrun]];
        unfold mbind, M_bind in Hst; rewrite Hrun in Hst; [|done].
      injection Hst as <- <-. cbn. by rewrite Hrows.
    + unfold exec in Hst. unfold mbind, M_bind, step in Hst. cbn in Hst. by rewrite Hn in Hst.
  - injection Hload as <- <-. cbn [sq_db]. by rewrite Hrows.
Qed.
End push.

(** ** Evaluation *)

Definition demo_pushenv : pushenv := {|
  pe_GenerateVAPIDKeys := inl ("private", "public");
  pe_Send r := inl (if decide (pqEndpoint r = "https://push.example/gone") then 404
                    else if HasPrefix (pqEndpoint r) "https://push.example/down" then 503 else 201);
  pe_ParseAddr s := if decide (s = "0.0.0.0") then Some [0; 0; 0; 0] else if decide (s = "169.254.169.254") then Some [169; 254; 169; 254]
                    else if decide (s = "127.0.0.1") then Some [127; 0; 0; 1] else None
|}.
Definition demo_push_engine : engine := MkEngine (λ _, None) (λ _, 1704067200 * nsPerSecond) true.
Definition demo_push_codec : sqlenv := {| sq_token _ := true; sq_MessageString m := Command m; sq_ParseMessage _ := None |}.
Definition demo_sub (id : Z) (updated endpoint : string) : pushRow :=
  MkPushRow id updated updated 1 (Some 1) endpoint "public" "auth" "key".
Definition demo_push_db : sqldb :=
  set_WebPushSubscription
    [demo_sub 1 "2023-12-31T00:00:00.000Z" "https://push.example/ok"; demo_sub 2 "2023-12-31T00:00:00.000Z" "https://push.example/gone";
     demo_sub 3 "2023-12-31T00:00:00.000Z" "https://push.example/down"; demo_sub 4 "2023-01-01T00:00:00.000Z" "https://push.example/down2";
     MkPushRow 5 "2023-01-01T00:00:00.000Z" "2023-01-01T00:00:00.000Z" 2 (Some 2) "https://push.example/gone" "public" "auth" "key"] demo_db.

Lemma demo_push_db_ok : db_ok demo_push_db.
Proof. split; refine (bool_decide_unpack _ _); vm_compute; exact I. Qed.

Lemma broadcast_prunes_witness :
  let run := broadcastWebPush (EN := demo_push_engine) (LE := demo_push_codec) (PE := demo_pushenv) (MkPushConfig 1 "public" "private") 1 1
               (msg "PRIVMSG" ["#go"; "alice: hi"]) in
  (∃ s', run (MkSql demo_push_db 0) = (s', Ok tt) ∧ db_ok (sq_db s') ∧
    sq_db s' = set_WebPushSubscription
      (filter (λ r, pruned (LE := demo_push_codec) (PE := demo_pushenv) (MkPushConfig 1 "public" "private") 1 1
        (msg "PRIVMSG" ["#go"; "alice: hi"]) (1704067200 * nsPerSecond) r = false) (t_WebPushSubscription demo_push_db)) demo_push_db) ∧
  ps_id <$> t_WebPushSubscription (sq_db (run (MkSql demo_push_db 0)).1) = [1; 3; 5].
Proof.
  split; [|vm_compute; reflexivity].
  apply (broadcast_prunes (EN := demo_push_engine) (LE := demo_push_codec) (PE := demo_pushenv) (MkPushConfig 1 "public" "private") 1 1
    (msg "PRIVMSG" ["#go"; "alice: hi"]) (1704067200 * nsPerSecond) (MkSql demo_push_db 0)).
  - done.
  - done.
  - exact demo_push_db_ok.
  - repeat (apply Forall_cons; split; [eexists; vm_compute; reflexivity|]). by constructor.
Defined.

(** The dialer stops pushes to the machine itself, but not to the unspecified address, which
    reaches it too, nor to link-local addresses. *)
Lemma push_control_gaps :
  push_control (PE := demo_pushenv) "127.0.0.1:443" = Some (Errorf "cannot connect to internal IP address") ∧
  push_control (PE := demo_pushenv) "0.0.0.0:443" = None ∧ push_control (PE := demo_pushenv) "169.254.169.254:443" = None.
Proof. by vm_compute. Qed.
