(* ===== verification/ServerRun.v ===== *)
(** * The server (server.go)

    Accepting connections, the two kinds of them (clients and the administration socket), the
    users that are loaded or created, and the periodic tasks. *)

From S2P Require Import Prelude GoStrings GoUnicode GoStrconv IrcMessage GoFlag CaseMapping Caps GenMsg GoTime MsgID Effects Database Upstream UpstreamHandlers Downstream DownstreamHandlers UserNetworks ServiceWords Service.

Open Scope string_scope.
Open Scope list_scope.
Open Scope Z_scope.

(** ** Listeners *)

(** What [Accept] of a listener gives: a connection, or an error that may be temporary. *)
Inductive accepted (C : Type) := Conn (c : C) | AcceptError (temporary : bool).
Arguments Conn {C} _.
Arguments AcceptError {C} _.

Definition retryDelayMin : Z := 5 * nsPerMs.
Definition retryDelayMax : Z := nsPerSecond.

Definition retry_delay (delay : Z) : Z :=
  let d := if delay =? 0 then retryDelayMin else delay * 2 in if retryDelayMax <? d then retryDelayMax else d.

(** [retryListener.Accept] over what the listener gives: the waits, the delay kept for the next
    call, and the result; [None] while it waits for more. *)
Fixpoint retry_Accept {C} (l : list (accepted C)) (delay : Z) : list Z * Z * option (accepted C * list (accepted C)) :=
  match l with
  | [] => ([], delay, None)
  | AcceptError true :: l =>
    let delay := retry_delay delay in
    let '(waits, delay', r) := retry_Accept l delay in (delay :: waits, delay', r)
  | r :: l => ([], 0, Some (r, l))
  end.

Lemma retry_delay_iter k : Nat.iter (S k) retry_delay 0 = Z.min (retryDelayMin * 2 ^ Z.of_nat k) retryDelayMax.
Proof.
  induction k as [|k IH]; [done|]. change (Nat.iter (S (S k)) retry_delay 0) with (retry_delay (Nat.iter (S k) retry_delay 0)). rewrite IH.
  rewrite Nat2Z.inj_succ, Z.pow_succ_r by lia. assert (0 < 2 ^ Z.of_nat k) as Hp by (apply Z.pow_pos_nonneg; lia).
  unfold retry_delay, retryDelayMin, retryDelayMax, nsPerMs, nsPerSecond.
  destruct (Z.eqb_spec (Z.min (5 * 1000000 * 2 ^ Z.of_nat k) 1000000000) 0); [lia|].
  destruct (Z.ltb_spec 1000000000 (Z.min (5 * 1000000 * 2 ^ Z.of_nat k) 1000000000 * 2)); lia.
Qed.

(** Temporary errors are waited out with delays that double from 5 ms up to a second; the next
    connection is handed on and ends the series. *)
Theorem retry_waits {C} (n : nat) (c : C) (l : list (accepted C)) :
  retry_Accept (repeat (AcceptError true) n ++ Conn c :: l) 0 =
  ((λ k, Z.min (retryDelayMin * 2 ^ Z.of_nat k) retryDelayMax) <$> seq 0 n, 0, Some (Conn c, l)).
Proof.
  assert (∀ j, retry_Accept (repeat (AcceptError true) n ++ Conn c :: l) (Nat.iter j retry_delay 0) =
    ((λ k, Nat.iter (S k) retry_delay 0) <$> seq j n, 0, Some (Conn c, l))) as Hj.
  { induction n as [|n IH]; intros j; [done|]. cbn [repeat app retry_Accept seq fmap list_fmap].
    change (retry_delay (Nat.iter j retry_delay 0)) with (Nat.iter (S j) retry_delay 0). by rewrite (IH (S j)). }
  etrans; [exact (Hj 0%nat)|]. f_equal. f_equal. apply list_fmap_ext. intros i k _. apply retry_delay_iter.
Qed.

(** ** Connections *)

(** The users that are loaded, the output of the connection, and what was put into the queues of
    users, with the name of the user. *)
Inductive connEvent := Connected | MessageRead (m : Message) | Disconnected.
Record connState := MkConnState { cs_srv : server; cs_out : list Message; cs_events : list (string * connEvent) }.
Abbreviation CM := (ST connState).

Definition cs_send (m : Message) : CM unit := modify (λ s, MkConnState (cs_srv s) (cs_out s ++ [m]) (cs_events s)).
Definition cs_event (user : string) (e : connEvent) : CM unit :=
  modify (λ s, MkConnState (cs_srv s) (cs_out s) (cs_events s ++ [(user, e)])).
Definition on_srv_cs {A} (m : SM A) : CM A := λ s,
  let '(sv, r) := m (cs_srv s) in (MkConnState sv (cs_out s) (cs_events s), r).

Definition ERR_NEEDMOREPARAMS : string := "461".

Section server.
Context `{UE : uenv} `{SV : svenv} `{UnicodeTables} (E : string → env).
(** The text of an error, and the database for a user who is not loaded. *)
Context (errorText : goerr → string) (db_GetUser : string → dbUser + goerr).

Definition srvPrefix : Prefix := mkPrefix sv_hostname "" "".

(** ** The administration socket *)

Definition adminContext : serviceContext := MkContext "" None None None true [].

(** A service command whose output goes to the connection, whatever its outcome. *)
Definition admin_run (text : string) : CM unit := λ s,
  let '(sv, r) := handleServicePRIVMSG E adminContext text (set_srv_out [] (cs_srv s)) in
  (MkConnState sv (cs_out s ++ ((λ t, msg_from srvPrefix "PRIVMSG" ["*"; t]) <$> srv_out sv)) (cs_events s), r).

Definition forbidden : list string := ["CAP"; "NICK"; "USER"; "PASS"].

(** Whether the connection goes on. *)
Definition admin_message (m : Message) : CM bool :=
  if decide (Command m ∈ forbidden) then cs_send (msg "ERROR" ["This is not a regular IRC server"]) ;; mret false
  else if decide (Command m = "BOUNCERSERV") then
    match Params m with
    | [] => cs_send (msg ERR_NEEDMOREPARAMS ["*"; Command m; "Not enough parameters"]) ;; mret true
    | text :: _ =>
      r ← try (admin_run text);
      cs_send (match r with
               | inr e => msg_from srvPrefix "FAIL" [Command m; errorText e]
               | inl _ => msg_from srvPrefix (Command m) ["OK"]
               end) ;;
      mret true
    end
  else cs_send (msg_from srvPrefix ERR_UNKNOWNCOMMAND ["*"; Command m; "Unknown command"]) ;; mret true.

Fixpoint admin_loop (msgs : list Message) : CM unit :=
  match msgs with
  | [] => skip
  | m :: msgs => go ← admin_message m; if (go : bool) then admin_loop msgs else skip
  end.

Definition serveConnAdmin (shutdown : bool) (msgs : list Message) : CM unit :=
  if shutdown then cs_send (msg "ERROR" ["Server is shutting down"]) else admin_loop msgs.

(** What is handled: the messages up to the first that a client of IRC would send. *)
Fixpoint handled (msgs : list Message) : list Message :=
  match msgs with
  | [] => []
  | m :: msgs => if decide (Command m ∈ forbidden) then [m] else m :: handled msgs
  end.

(** The answer to a message: text from the service first, and one line that ends it. *)
Definition answered (m : Message) (out : list Message) : Prop :=
  if decide (Command m ∈ forbidden) then out = [msg "ERROR" ["This is not a regular IRC server"]]
  else if decide (Command m = "BOUNCERSERV") then
    match Params m with
    | [] => out = [msg ERR_NEEDMOREPARAMS ["*"; Command m; "Not enough parameters"]]
    | _ => ∃ texts last, out = ((λ t, msg_from srvPrefix "PRIVMSG" ["*"; t]) <$> texts) ++ [last] ∧
        (last = msg_from srvPrefix "BOUNCERSERV" ["OK"] ∨ ∃ e, last = msg_from srvPrefix "FAIL" ["BOUNCERSERV"; e])
    end
  else out = [msg_from srvPrefix ERR_UNKNOWNCOMMAND ["*"; Command m; "Unknown command"]].

(** The server after the service commands among the messages. *)
Fixpoint served (msgs : list Message) (sv : server) : server :=
  match msgs with
  | [] => sv
  | m :: msgs =>
    match Params m with
    | text :: _ =>
      if decide (Command m = "BOUNCERSERV")
      then served msgs (handleServicePRIVMSG E adminContext text (set_srv_out [] sv)).1 else served msgs sv
    | [] => served msgs sv
    end
  end.

Lemma admin_message_spec m s :
  match admin_message m s with
  | (s', Ok go) => ∃ out, cs_out s' = cs_out s ++ out ∧ answered m out ∧ cs_events s' = cs_events s ∧
      cs_srv s' = served [m] (cs_srv s) ∧ go = bool_decide (Command m ∉ forbidden)
  | (s', Err _) => False
  | (s', Panic _) => ∃ texts, cs_out s' = cs_out s ++ ((λ t, msg_from srvPrefix "PRIVMSG" ["*"; t]) <$> texts) ∧ Command m = "BOUNCERSERV" ∧
      cs_srv s' = served [m] (cs_srv s) ∧ cs_events s' = cs_events s
  end.
Proof.
  assert (∀ sv, Command m ≠ "BOUNCERSERV" → served [m] sv = sv) as Hother
    by (intros sv Hne; cbn; destruct (Params m); [done|]; by rewrite decide_False).
  unfold admin_message, answered. case_decide as Hf.
  { cbn. eexists. split_and!; [done|done|done| |by rewrite bool_decide_eq_false_2 by tauto].
    symmetry. apply Hother. intros Hc. rewrite Hc in Hf. revert Hf. refine (bool_decide_unpack ("BOUNCERSERV" ∉ forbidden) _). vm_compute. exact I. }
  rewrite bool_decide_eq_true_2 by done. case_decide as Hc; [|cbn; eexists; split_and!; [done..|symmetry; by apply Hother|done]].
  destruct (Params m) as [|text ps] eqn:Hp.
  { cbn. rewrite Hp. by eexists. }
  unfold try, admin_run. unfold mbind, M_bind. cbn [served]. rewrite Hp, decide_True by done.
  destruct (handleServicePRIVMSG E adminContext text (set_srv_out [] (cs_srv s))) as [sv [[]|e|w]]; cbn.
  - eexists. rewrite <-app_assoc. split_and!; [done|exists (srv_out sv); eexists; rewrite Hc; eauto|done..].
  - eexists. rewrite <-app_assoc. split_and!; [done|exists (srv_out sv); eexists; rewrite Hc; eauto|done..].
  - by exists (srv_out sv).
Qed.

Lemma served_app l k sv : served (l ++ k) sv = served k (served l sv).
Proof. revert sv. induction l as [|m l IH]; intros sv; [done|]. cbn. destruct (Params m); [done|]. by case_decide. Qed.

(** The administration socket only serves administrators. The messages of a connection are
    answered one by one, each service command with its output and then one line that says
    whether it succeeded, up to the first command a regular IRC client would send: that
    one is refused, and nothing after it is looked at. The server changes by the service
    commands handled and nothing else, and no user hears of the connection. When a command
    panics, the connection ends there. *)
Theorem admin_socket msgs s :
  match serveConnAdmin false msgs s with
  | (s', Ok _) => ∃ outs, cs_out s' = cs_out s ++ mjoin outs ∧ Forall2 answered (handled msgs) outs ∧
      cs_srv s' = served (handled msgs) (cs_srv s) ∧ cs_events s' = cs_events s
  | (s', Err _) => False
  | (s', Panic _) => ∃ pre m post outs texts, handled msgs = pre ++ m :: post ∧ Command m = "BOUNCERSERV" ∧ Forall2 answered pre outs ∧
      cs_out s' = cs_out s ++ mjoin outs ++ ((λ t, msg_from srvPrefix "PRIVMSG" ["*"; t]) <$> texts) ∧
      cs_srv s' = served (pre ++ [m]) (cs_srv s) ∧ cs_events s' = cs_events s
  end.
Proof.
  unfold serveConnAdmin. revert s. induction msgs as [|m msgs IH]; intros s.
  { cbn. exists []. rewrite app_nil_r. split_and!; [done|constructor|done..]. }
  cbn [admin_loop handled]. pose proof (admin_message_spec m s) as Hm. unfold mbind, M_bind.
  destruct (admin_message m s) as [s1 [go|e|w]]; [|done|].
  - destruct Hm as (out & Hout & Hans & Hev & Hsv & ->). case_decide as Hf.
    + rewrite bool_decide_eq_false_2 by tauto. exists [out]. cbn. rewrite app_nil_r. split_and!; [done|by repeat constructor|done..].
    + rewrite bool_decide_eq_true_2 by done. specialize (IH s1). destruct (admin_loop msgs s1) as [s' [[]|e|w]]; [|done|].
      * destruct IH as (outs & Ho & H2 & Hs & He). exists (out :: outs). split_and!; [|by constructor| |congruence].
        -- by rewrite Ho, Hout, <-app_assoc.
        -- rewrite Hs, Hsv. by rewrite <-served_app.
      * destruct IH as (pre & m' & post & outs & texts & Hh & Hc & H2 & Ho & Hs & He).
        exists (m :: pre), m', post, (out :: outs), texts. split_and!; [by rewrite Hh|done|by constructor| | |congruence].
        -- by rewrite Ho, Hout, mjoin_cons, <-!app_assoc.
        -- rewrite Hs, Hsv. by rewrite <-served_app.
  - destruct Hm as (texts & Ho & Hc & Hs & He).
    assert (Command m ∉ forbidden) as Hf.
    { rewrite Hc. refine (bool_decide_unpack ("BOUNCERSERV" ∉ forbidden) _). vm_compute. exact I. }
    rewrite decide_False by done. exists [], m, (handled msgs), [], texts. split_and!; try done.
Qed.

(** ** Users *)

(** [getOrCreateUser]; a user who is created is loaded. *)
Definition getOrCreateUser (enableUsersOnAuth : bool) (username : string) : SM unit :=
  users ← gets srv_users;
  match users !! username with
  | Some _ => skip
  | None =>
    match db_GetUser username with
    | inl _ => fail (Errorf "user %q exists in the DB but hasn't been loaded by the bouncer -- a restart may help")
    | inr _ =>
      if negb enableUsersOnAuth then fail (Errorf "cannot find user %q in the DB")
      else
        r ← try (createUser (NewUser username));
        match r with inr _ => fail (Errorf "failed to automatically create user %q after successful authentication: %v") | inl _ => skip end
    end
  end.

(** [serveConn] from the end of the registration: its outcome, the name that was
    authenticated, and the messages read afterwards. *)
Definition serveConn (shutdown enableUsersOnAuth registered : bool) (username : string) (later : list Message) : CM unit :=
  if shutdown then cs_send (msg "ERROR" ["Server is shutting down"])
  else if negb registered then skip
  else
    r ← try (on_srv_cs (getOrCreateUser enableUsersOnAuth username));
    match r with
    | inr _ => cs_send (msg "ERROR" ["Internal server error"])
    | inl _ =>
      cs_event username Connected ;;
      foreach (λ m, cs_event username (MessageRead m)) later ;;
      cs_event username Disconnected
    end.

(** [Start]: the users of the database are loaded. *)
Definition Start (users : list dbUser) : SM unit :=
  foreach (λ u, modify (λ sv, set_srv_users (<[uUsername u := newUserState u]> (srv_users sv)) sv)) users.

Lemma createUser_loaded u sv :
  match createUser u sv with (sv', Ok _) => is_Some (srv_users sv' !! uUsername u) | _ => True end.
Proof.
  unfold createUser. rewrite bind_gets. destruct (srv_users sv !! uUsername u) as [x|]; [done|].
  unfold scall, semit. unfold mbind, M_bind, gets, modify. cbn. destruct (sv_StoreUser _ _); cbn; [|done].
  rewrite lookup_insert_eq. by eexists.
Qed.

Lemma conn_events username later st :
  (cs_event username Connected ;; foreach (λ m, cs_event username (MessageRead m)) later ;; cs_event username Disconnected) st =
  (MkConnState (cs_srv st) (cs_out st)
    (cs_events st ++ (pair username <$> Connected :: (MessageRead <$> later) ++ [Disconnected])), Ok tt).
Proof.
  assert (∀ st, foreach (λ m, cs_event username (MessageRead m)) later st =
    (MkConnState (cs_srv st) (cs_out st) (cs_events st ++ ((λ m, (username, MessageRead m)) <$> later)), Ok tt)) as Hloop.
  { induction later as [|m later IH]; intros x; cbn [foreach fmap list_fmap]; [rewrite app_nil_r; by destruct x|].
    erewrite bind_run by reflexivity. rewrite IH. cbn. by rewrite <-app_assoc. }
  erewrite bind_run by reflexivity. erewrite bind_run by apply Hloop. unfold cs_event, modify. cbn [cs_srv cs_out cs_events].
  rewrite <-!app_assoc. repeat f_equal. rewrite fmap_cons, fmap_app, <-list_fmap_compose. done.
Qed.

(** What a connection sends to the queues of users goes to one user, who is loaded then: its
    arrival, its messages in order, its end. *)
Theorem serveConn_events shutdown enable registered username later s :
  let s' := (serveConn shutdown enable registered username later s).1 in
  cs_events s' = cs_events s ∨
  is_Some (srv_users (cs_srv s') !! username) ∧ registered = true ∧
  cs_events s' = cs_events s ++ (pair username <$> Connected :: (MessageRead <$> later) ++ [Disconnected]).
Proof.
  unfold serveConn. destruct shutdown; [by left|]. destruct registered; [|by left]. cbn [negb].
  assert (match getOrCreateUser enable username (cs_srv s) with (sv, Ok _) => is_Some (srv_users sv !! username) | _ => True end) as Hget.
  { unfold getOrCreateUser. rewrite bind_gets. destruct (srv_users (cs_srv s) !! username) as [u|] eqn:Hu; [cbn; by rewrite Hu|].
    destruct (db_GetUser username); [done|]. destruct enable; [|done]. cbn [negb]. unfold try, mbind, M_bind.
    pose proof (createUser_loaded (NewUser username) (cs_srv s)) as Hc.
    by destruct (createUser (NewUser username) (cs_srv s)) as [sv [[]|e|w]]. }
  destruct (getOrCreateUser enable username (cs_srv s)) as [sv [[]|e|w]] eqn:Hg.
  - right. erewrite bind_run by (unfold try, on_srv_cs; rewrite Hg; reflexivity). cbn iota. by rewrite conn_events.
  - left. by erewrite bind_run by (unfold try, on_srv_cs; rewrite Hg; reflexivity).
  - left. unfold mbind, M_bind, try, on_srv_cs. by rewrite Hg.
Qed.
End server.
