(* ===== verification/ServerTasks.v ===== *)
(** * Periodic tasks of the server (server.go)

    Disabling users who have been away for long, and deleting messages that have expired, over
    the loaded users, the database and the log files. *)

From S2P Require Import Prelude GoStrings GoUnicode GoStrconv IrcMessage GoFlag CaseMapping Caps GenMsg GoTime MsgID Effects Database Upstream UpstreamHandlers Downstream UserNetworks ServiceWords Service SqlTables Sqlite SqliteDelete SqliteSpec SqliteRecords GoOs ZncLog FsStore Config UserNetworksInv UpstreamInv ServiceSafety SqlExamples.

Open Scope string_scope.
Open Scope list_scope.
Open Scope Z_scope.

Record taskState := MkTask { ts_srv : server; ts_db : sqlState; ts_logs : node }.
Abbreviation TM := (ST taskState).

Definition task_db {A} (m : SQ A) : TM A := λ s, let '(d, r) := m (ts_db s) in (MkTask (ts_srv s) d (ts_logs s), r).

Section tasks.
Context `{UE : uenv} `{SV : svenv} `{UnicodeTables} (E : string → env) `{EN : engine} `{SE : search_engine} `{LE : sqlenv}
  `{TZ : zone} `{OF : OsFaults}.
Context (cfg : BasicServer).

(** ** Inactive users *)

(** Loaded, without a client. *)
Definition idle (sv : server) (name : string) : bool :=
  match srv_users sv !! name with Some u => bool_decide (us_downstreams u = []) | None => false end.

Lemma idle_spec sv name : idle sv name = true → ∃ u, srv_users sv !! name = Some u ∧ us_downstreams u = [].
Proof. unfold idle. destruct (srv_users sv !! name) as [u|]; [|done]. intros ?%bool_decide_eq_true. by exists u. Qed.

(** The methods of a user store its record and its networks in the server's database; the calls
    are in the trace. The stores of a network of its own (channels, and the record after an
    automatic change) are not among them: [apply_update_acts] shows that none is made here. *)
Definition db_step (uid : Z) (d : sqlState) (a : uaction) : sqlState :=
  match a with
  | UStoreUser record => (StoreUser record d).1
  | UStoreNetwork record => (Sqlite.StoreNetwork uid record d).1
  | UDeleteNetwork id => (Sqlite.DeleteNetwork id d).1
  | _ => d
  end.
Definition db_after (uid : Z) (acts : list uaction) (d : sqlState) : sqlState := foldl (db_step uid) d acts.

Definition error_of {A} (r : res goerr A) : option goerr :=
  match r with Ok _ => None | Err e => Some e | Panic w => Some (Errorf w) end.

(** The environment of a user whose trace is [tr0] when the database is [d0]. *)
Definition db_uenv (uid : Z) (tr0 : list uaction) (d0 : sqlState) : uenv := {|
  ue_urlParse := ue_urlParse; ue_SplitHostPort := ue_SplitHostPort;
  ue_StoreNetwork := λ tr _ userID record,
    match (Sqlite.StoreNetwork userID record (db_after uid (drop (length tr0) tr) d0)).2 with
    | Ok n => inl (nID n)
    | Err e => inr e
    | Panic w => inr (Errorf w)
    end;
  ue_DeleteNetwork := λ tr id, error_of (Sqlite.DeleteNetwork id (db_after uid (drop (length tr0) tr) d0)).2;
  ue_StoreUser := λ tr record, error_of (StoreUser record (db_after uid (drop (length tr0) tr) d0)).2;
  ue_MaxUserNetworks := ue_MaxUserNetworks; ue_renameStore := ue_renameStore; ue_dialTLS := ue_dialTLS
|}.

(** The loop of the user [name] handles an event, over the database of the server. *)
Definition task_user {A} (name : string) (m : uenv → UM A) : TM A := λ s,
  match srv_users (ts_srv s) !! name with
  | None => (s, Panic "invalid memory address or nil pointer dereference")
  | Some u =>
    let uid := uID (us_record u) in
    let '(u', r) := m (db_uenv uid (us_trace u) (ts_db s)) u in
    let acts := drop (length (us_trace u)) (us_trace u') in
    let sv := set_srv_trace (srv_trace (ts_srv s) ++ (SUser name <$> acts))
                (set_srv_users (<[name := u']> (srv_users (ts_srv s))) (ts_srv s)) in
    (MkTask sv (db_after uid acts (ts_db s)) (ts_logs s), r)
  end.

Definition disable_one (name : string) : TM unit :=
  task_user name (λ UE, apply_user_update (UE:=UE) (E0:=E name) None (MkUserUpdate None false None None None (Some false) None)).

(** Every user answers in time. *)
Definition disableInactiveUsers (now : Z) : TM unit :=
  if DisableInactiveUsersDelay cfg =? 0 then skip
  else
    r ← try (task_db (ListInactiveUsernames (now - DisableInactiveUsersDelay cfg)));
    match r with
    | inr _ => fail (Errorf "failed to list inactive users: %v")
    | inl usernames =>
      sv ← gets ts_srv;
      foreach disable_one (filter (λ name, idle sv name = true) usernames)
    end.

(** ** Expired messages *)

Definition deleteExpiredMessages (now : Z) : TM unit :=
  if MessageExpiry cfg =? 0 then skip
  else
    let before := now - MessageExpiry cfg in
    if decide (Driver (MsgStore cfg) = "db") then
      r ← try (task_db (Sqlite.DeleteMessagesBefore before));
      match r with inr _ => fail (Errorf "failed to delete expired messages from db: %w") | inl _ => skip end
    else if decide (Driver (MsgStore cfg) = "fs") then λ s,
      let '(logs, e) := FsStore.DeleteMessagesBefore [Source (MsgStore cfg)] (date_of before) (ts_logs s) in
      (MkTask (ts_srv s) (ts_db s) logs,
       match e with Some (DeleteFailed _) => Err (Errorf "failed to delete expired messages from disk: %w") | _ => Ok tt end)
    else skip.

(** ** Who is inactive *)

(** The last activity of a user, in milliseconds. *)
Definition last_active (r : userRow) : Z :=
  default 0 (ParseServerTime (default (ur_created_at r) (ur_interacted_at r))) / nsPerMs.
Definition times_ok (r : userRow) : Prop :=
  ∃ t, four_digit_year (t / nsPerDay) ∧ default (ur_created_at r) (ur_interacted_at r) = FormatServerTime t.

Lemma last_active_ms r t : four_digit_year (t / nsPerDay) → default (ur_created_at r) (ur_interacted_at r) = FormatServerTime t →
  last_active r = t / nsPerMs.
Proof.
  intros Ht Hr. unfold last_active. rewrite Hr, ParseServerTime_Format by done. cbn. unfold nsPerMs.
  Z.to_euclidean_division_equations; lia.
Qed.

Lemma ListInactiveUsernames_run limit s :
  four_digit_year (limit / nsPerDay) → limit ≠ zeroTime → Forall times_ok (t_User (sq_db s)) → 
  (∃ s' e, ListInactiveUsernames limit s = (s', Err e) ∧ sq_db s' = sq_db s) ∨
  (∃ s' names, ListInactiveUsernames limit s = (s', Ok names) ∧ sq_db s' = sq_db s ∧
    (db_ok (sq_db s) → NoDup names) ∧
    ∀ name, name ∈ names ↔ ∃ r, r ∈ t_User (sq_db s) ∧ ur_username r = name ∧ last_active r < limit / nsPerMs).
Proof.
  intros Hl Hz Hrows. unfold ListInactiveUsernames, SqlTables.query. destruct (en_fault (sq_count s)) as [e|] eqn:Hn.
  { left. unfold step, mbind, M_bind. rewrite Hn. by eexists (MkSql _ _), _. }
  right. erewrite bind_run by (erewrite bind_run by (by apply step_run); reflexivity). eexists (MkSql _ _), _. split_and!; [reflexivity|done| |].
  { intros [((_ & Hu) & _) _]. unfold unique in Hu. assert (∀ l : list userRow, omap (λ r, Some (ur_username r)) l = ur_username <$> l) as Homap by (intros l; induction l as [|r l IH]; [done|cbn; by f_equal]).
    rewrite Homap in Hu. eapply sublist_NoDup; [exact Hu|].
    apply fmap_sublist, sublist_filter. }
  intros name. rewrite list_elem_of_fmap. rewrite Forall_forall in Hrows.
  assert (∀ r, r ∈ t_User (sq_db s) → null_lt (Some (default (ur_created_at r) (ur_interacted_at r))) (sqliteTime_Value limit) = true ↔
    last_active r < limit / nsPerMs) as Hlt.
  { intros r Hr. destruct (Hrows r Hr) as (t & Ht & Heq). rewrite (last_active_ms r t), Heq by done. unfold sqliteTime_Value, IsZero.
    rewrite (proj2 (Z.eqb_neq _ _)), null_lt_server_time, Z.ltb_lt by done. done. }
  split.
  - intros (r & -> & [Hlt' Hr]%list_elem_of_filter). exists r. split_and!; [done|done|]. by apply Hlt.
  - intros (r & Hr & <- & Hact). exists r. split; [done|]. apply list_elem_of_filter. split; [by apply Hlt|done].
Qed.

(** ** What disabling a user does *)

(** The record of the user once disabled. *)
Definition disabled_record (u : dbUser) : dbUser :=
  MkUser (uID u) (uUsername u) (uPassword u) (uNick u) (uRealname u) (uAdmin u) false (uDownstreamInteractedAt u) (uMaxNetworks u).

(** What a network does that is not a store in the database. *)
Definition no_store (a : action) : Prop :=
  match a with Upstream.StoreChannel _ | Upstream.StoreNetwork _ => False | _ => True end.
(** What the update of the networks with the IDs [ids] does. *)
Definition net_act (ids : list Z) (a : uaction) : Prop :=
  match a with
  | UStoreUser _ | UDeleteNetwork _ => False
  | UStoreNetwork record => nID record ≠ 0 ∧ nID record ∈ ids
  | UNet _ a => no_store a
  | _ => True
  end.

Definition net_traced (tr0 : list action) (n : ustate) : Prop := ∃ tr, trace n = tr0 ++ tr ∧ Forall no_store tr.
Definition user_traced (ids : list Z) (record : dbUser) (tr0 : list uaction) (u : userState) : Prop :=
  us_record u = record ∧ ∃ tr, us_trace u = tr0 ++ tr ∧ Forall (net_act ids) tr.

Section network_acts.
Context `{E0 : env} (tr0 : list action).

Ltac pres_more ::=
  match goal with
  | |- preserves _ (forEachDownstream _) => unfold forEachDownstream
  | |- preserves (net_traced _) (modify _) => apply preserves_modify; intros ? Htr; exact Htr
  end.

Lemma nt_emit a : no_store a → preserves (net_traced tr0) (emit a).
Proof.
  intros Ha. apply preserves_modify. intros n (tr & Htr & Hq). exists (tr ++ [a]). cbn. rewrite Htr, <-app_assoc.
  split; [done|]. apply Forall_app. by split; [|constructor].
Qed.
#[local] Hint Extern 2 (preserves (net_traced _) (emit _)) => apply nt_emit; exact I : pres.
#[local] Hint Extern 2 (preserves (net_traced _) (send_dc _ _)) => apply nt_emit; exact I : pres.
Lemma nt_disconnected found : preserves (net_traced tr0) (handleUpstreamDisconnected found).
Proof. unfold handleUpstreamDisconnected, stopRegainNickTimer, abortPendingCommands, abort_reply. pres. Qed.
Lemma nt_updateCasemapping cm : preserves (net_traced tr0) (net_updateCasemapping cm).
Proof. unfold net_updateCasemapping. pres. Qed.
Lemma nt_modify f : (∀ n, trace (f n) = trace n) → preserves (net_traced tr0) (modify f).
Proof. intros Hf. apply preserves_modify. intros n. unfold net_traced. by rewrite Hf. Qed.
End network_acts.

Section user_acts.
Context (UE' : uenv) `{E0 : env} (ids : list Z) (rec : dbUser) (tr0 : list uaction).
Abbreviation ukeeps := (preserves (user_traced ids rec tr0)).

Lemma ut_modify (f : userState → userState) : (∀ s, us_record (f s) = us_record s ∧ us_trace (f s) = us_trace s) → ukeeps (modify f).
Proof. intros Hf. apply preserves_modify. intros s. unfold user_traced. destruct (Hf s) as [-> ->]. done. Qed.
Lemma ut_uemit a : net_act ids a → ukeeps (uemit a).
Proof.
  intros Ha. apply preserves_modify. intros s (Hr & tr & Htr & Hq). split; [done|]. exists (tr ++ [a]). cbn.
  rewrite Htr, <-app_assoc. split; [done|]. apply Forall_app. by split; [|constructor].
Qed.
Lemma ut_ucall {A} a (f : list uaction → A) : net_act ids a → ukeeps (ucall a f).
Proof.
  intros Ha. unfold ucall. apply preserves_bind; [apply preserves_gets|]. intros tr.
  apply preserves_bind; [by apply ut_uemit|]. intros _. apply preserves_ret.
Qed.
#[local] Hint Extern 2 (preserves (user_traced _ _ _) (modify _)) => by apply ut_modify : pres.
#[local] Hint Extern 2 (preserves (user_traced _ _ _) (uemit _)) => apply ut_uemit; exact I : pres.
Lemma ut_notify id attrs : ukeeps (notifyBouncerNetworkState id attrs).
Proof. unfold notifyBouncerNetworkState. pres. Qed.
Lemma ut_addNetwork p : ukeeps (addNetwork p).
Proof. unfold addNetwork. pres. Qed.
Lemma ut_removeNetwork p : ukeeps (removeNetwork p).
Proof. unfold removeNetwork. pres. Qed.
Lemma ut_rebind p q : ukeeps (rebind p q).
Proof. unfold rebind. pres. Qed.
Lemma ut_check_limit b r : ukeeps (check_limit (UE:=UE') b r).
Proof. unfold check_limit. pres. Qed.
Lemma ut_alloc n : ukeeps (alloc n).
Proof. unfold alloc. pres. Qed.
#[local] Hint Resolve ut_notify ut_addNetwork ut_removeNetwork ut_rebind ut_check_limit ut_alloc : pres.

Lemma ut_on_network {A} p (m : env → M A) : (∀ E tr0, preserves (net_traced tr0) (m E)) → ukeeps (on_network p m).
Proof.
  intros Hm s (Hr & trs & Hs & Hqs). unfold on_network. destruct (us_heap s !! p) as [n|]; [|by split; [|exists trs]].
  destruct (Hm (env_at s p) (trace n) n) as (tr & Htr & Hq); [exists []; by rewrite app_nil_r|].
  destruct (m (env_at s p) n) as [n' r]. cbn in *. split; [done|]. exists (trs ++ (UNet p <$> tr)). cbn.
  rewrite Htr, drop_app_length, Hs, app_assoc. split; [done|]. apply Forall_app. split; [done|]. by apply Forall_fmap.
Qed.
#[local] Hint Resolve nt_disconnected nt_updateCasemapping : pres.
#[local] Hint Extern 2 (preserves (net_traced _) (modify _)) => by apply nt_modify : pres.

Ltac pres_more ::=
  match goal with
  | |- preserves _ (on_network _ _) => apply ut_on_network; intros ? ?
  end.

Lemma ut_replaceNetwork p record : ukeeps (replaceNetwork (UE:=UE') p record).
Proof. unfold replaceNetwork. pres. Qed.

Lemma wipe_defaults_nID u r : nID (wipe_defaults u r) = nID r.
Proof. unfold wipe_defaults. repeat case_decide; done. Qed.

Lemma ut_updateNetwork r b : nID r ∈ ids → ukeeps (updateNetwork (UE:=UE') r b).
Proof.
  intros Hr. unfold updateNetwork. case_decide as Hz; [apply preserves_panic|].
  apply preserves_bind; [apply ut_check_limit|]. intros _. apply preserves_bind; [apply preserves_gets|]. intros s.
  cbn zeta. apply preserves_bind; [apply preserves_lift|]. intros _.
  destruct (getNetworkByID _ _) as [p|]; [|apply preserves_panic].
  apply preserves_bind; [apply ut_ucall; cbn; by rewrite wipe_defaults_nID|]. intros [id|e]; [|apply preserves_fail].
  apply preserves_bind; [apply ut_replaceNetwork|]. intros q. pres.
Qed.

Lemma ut_update_all l err : Forall (λ r, nID r ∈ ids) l → ukeeps (update_all (UE:=UE') l err).
Proof.
  intros Hl. revert err. induction Hl as [|r l Hr Hl IH]; intros err; cbn [update_all].
  - pres.
  - apply preserves_bind; [by apply preserves_try, ut_updateNetwork|]. intros o. apply IH.
Qed.
End user_acts.

(** Without a new real name every network is updated. *)
Lemma collect_all `{E0 : env} enabledUpdated l u :
  collect (user_network_update false enabledUpdated) l u = (u, Ok ((λ p, net_record (net_at u p)) <$> l)).
Proof.
  induction l as [|p l IH]; [done|]. cbn [collect]. unfold mbind at 1, M_bind at 1.
  assert (user_network_update false enabledUpdated p u = (u, Ok (Some (net_record (net_at u p))))) as -> by done.
  unfold mbind, M_bind. by rewrite IH.
Qed.

(** Disabling a user stores its record, and then only networks of that user. *)
Lemma apply_update_acts (UE' : uenv) `{E0 : env} u :
  let fs := MkUserUpdate None false None None None (Some false) None in
  let '(u', r) := apply_user_update (UE:=UE') (E0:=E0) None fs u in
  let rec := disabled_record (us_record u) in
  match ue_StoreUser (uenv:=UE') (us_trace u) rec with
  | Some _ => us_trace u' = us_trace u ++ [UStoreUser rec] ∧ ∃ e, r = Err e
  | None => us_record u' = rec ∧ ∃ acts, us_trace u' = us_trace u ++ UStoreUser rec :: acts ∧
              Forall (net_act ((λ p, nID (net_record (net_at u p))) <$> us_networks u)) acts
  end.
Proof.
  cbn zeta. unfold apply_user_update. set (rec := disabled_record (us_record u)).
  set (f := λ u : dbUser, _). set (ids := _ <$> us_networks u).
  assert (let '(u', r) := updateUser (UE:=UE') f u in
    match ue_StoreUser (uenv:=UE') (us_trace u) rec with
    | Some _ => us_trace u' = us_trace u ++ [UStoreUser rec] ∧ ∃ e, r = Err e
    | None => user_traced ids rec (us_trace u ++ [UStoreUser rec]) u'
    end) as Hu.
  { unfold updateUser. rewrite bind_gets. change (f (us_record u)) with (inl rec : dbUser + goerr). cbn iota zeta.
    erewrite bind_run by apply ucall_run. destruct (ue_StoreUser (uenv:=UE') (us_trace u) rec); [split; [reflexivity|eexists; reflexivity]|]. rewrite bind_modify.
    set (u1 := set_us_record rec _). rewrite bind_gets. change (Datatypes.id u1) with u1.
    rewrite (bool_decide_eq_true_2 (uNick (us_record u) = uNick rec)) by done.
    rewrite (bool_decide_eq_true_2 (uRealname (us_record u) = uRealname rec)) by done. cbn [negb when orb].
    unfold mbind at 1, M_bind at 1, skip at 1, mret at 1, M_ret at 1.
    assert (user_traced ids rec (us_trace u ++ [UStoreUser rec]) u1) as H1
      by (split; [done|]; exists []; split; [by rewrite app_nil_r|constructor]).
    set (upd := when _ (records ← _; _)).
    assert (user_traced ids rec (us_trace u ++ [UStoreUser rec]) (upd u1).1) as H2.
    { subst upd. destruct (negb _); [|exact H1]. cbn [when]. unfold mbind, M_bind. rewrite collect_all.
      apply ut_update_all; [|exact H1]. apply Forall_fmap, Forall_forall. intros p Hp. subst ids. cbn.
      change (net_at u1 p) with (net_at u p). apply list_elem_of_fmap. by exists p. }
    unfold mbind at 1, M_bind at 1. destruct (upd u1) as [u2 [[]|e|w]]; [|exact H2..].
    rewrite bind_gets. destruct (negb (uEnabled _)); [|exact H2]. exact H2. }
  unfold mbind at 1, M_bind at 1, try. destruct (updateUser f u) as [u' [[]|e|w]]; cbn in Hu |- *;
    destruct (ue_StoreUser (uenv:=UE') (us_trace u) rec).
  1,3,5: destruct Hu as [? (e' & [=])]; try (split; [assumption|eexists; reflexivity]).
  all: destruct Hu as (Hr & acts & Htr & Ha); split; [exact Hr|]; exists acts;
    (split; [rewrite Htr, <-app_assoc; reflexivity|exact Ha]).
Qed.

(** *** In the database *)

Section db_change.
(** Which users may change, and which networks. *)
Context (P : userRow → userRow → Prop) (Q : Z → Prop).

Definition net_row_change (r r' : networkRow) : Prop :=
  r' = r ∨ Q (nr_id r) ∧ nr_id r' = nr_id r ∧ nr_user r' = nr_user r.
Definition user_row_change (r r' : userRow) : Prop := r' = r ∨ P r r'.

(** The tables of users and networks change as allowed, the others not at all. *)
Record db_change (d d' : sqldb) : Prop := {
  dc_frame : d' = set_User (t_User d') (set_Network (t_Network d') d);
  dc_users : Forall2 user_row_change (t_User d) (t_User d');
  dc_networks : Forall2 net_row_change (t_Network d) (t_Network d')
}.

Lemma Forall2_same {A} (R : A → A → Prop) l : (∀ x, R x x) → Forall2 R l l.
Proof. intros HR. induction l; constructor; auto. Qed.

Lemma Forall2_chain {A} (R : A → A → Prop) l1 l2 l3 :
  (∀ x y z, R x y → R y z → R x z) → Forall2 R l1 l2 → Forall2 R l2 l3 → Forall2 R l1 l3.
Proof.
  intros HR H1. revert l3. induction H1 as [|x y l1 l2 Hxy H1 IH]; intros l3 H2; inversion H2; subst; constructor; eauto.
Qed.

Lemma db_change_refl d : db_change d d.
Proof. by split; [destruct d|apply Forall2_same; left..]. Qed.

Lemma db_change_trans d1 d2 d3 :
  (∀ r1 r2 r3, P r1 r2 → P r2 r3 → P r1 r3) → db_change d1 d2 → db_change d2 d3 → db_change d1 d3.
Proof.
  intros HP [F1 U1 N1] [F2 U2 N2]. split.
  - rewrite F2, F1. by destruct d3, d1.
  - eapply Forall2_chain; [|exact U1|exact U2]. intros x y z [->|Hxy] [->|Hyz]; unfold user_row_change; eauto.
  - eapply Forall2_chain; [|exact N1|exact N2].
    intros x y z [->|(H1 & H2 & H3)] [->|(H4 & H5 & H6)]; unfold net_row_change; [auto..|].
    right. split_and!; [done|congruence|congruence].
Qed.
End db_change.

(** Whether the statement of the goal is accepted. *)
Tactic Notation "exec_split" "as" simple_intropattern(pat) :=
  match goal with |- context [exec ?g] => match goal with s : sqlState |- _ => edestruct (exec_cases g _ s eq_refl) as pat end end.

(** The statements that the update of a user runs. *)
Lemma StoreUser_cases record (s : sqlState) :
  uID record ≠ 0 →
  (sq_db (StoreUser record s).1
     = set_User (update_where (λ r, bool_decide (ur_username r = uUsername record)) (update_user_row record) (t_User (sq_db s))) (sq_db s)
   ∧ (StoreUser record s).2 = Ok record) ∨
  (sq_db (StoreUser record s).1 = sq_db s ∧ ∃ e, (StoreUser record s).2 = Err e).
Proof.
  intros Hid. unfold StoreUser, now. rewrite bind_gets. rewrite decide_True by done.
  exec_split as [[Hrun Hd]|[e Hrun]]; [left|right].
  - erewrite bind_run by exact Hrun. done.
  - unfold mbind, M_bind. rewrite Hrun. eauto.
Qed.

Lemma StoreNetwork_change (P : userRow → userRow → Prop) (Q : Z → Prop) uid record (s : sqlState) :
  nID record ≠ 0 → Q (nID record) → db_change P Q (sq_db s) (sq_db (Sqlite.StoreNetwork uid record s).1).
Proof.
  intros Hid HQ. unfold Sqlite.StoreNetwork. unfold mbind at 1, M_bind at 1, lift.
  destruct (sasl_columns (nSASL record)) as [[sa [[mech pu] pp]]|e|w]; [|apply db_change_refl..].
  rewrite decide_True by done. exec_split as [[Hrun Hd]|[e Hrun]].
  - erewrite bind_run by exact Hrun. cbn. split; [by destruct (sq_db s)|apply Forall2_same; by left|]. cbn.
    clear Hrun Hd. induction (t_Network (sq_db s)) as [|r l IH]; [constructor|]. cbn. constructor; [|exact IH].
    destruct (nr_id r =? nID record) eqn:Heq; [|by left]. right. apply Z.eqb_eq in Heq. rewrite Heq. done.
  - unfold mbind, M_bind. rewrite Hrun. apply db_change_refl.
Qed.

Lemma db_after_networks (P : userRow → userRow → Prop) (Q : Z → Prop) uid ids acts (s : sqlState) :
  (∀ r1 r2 r3, P r1 r2 → P r2 r3 → P r1 r3) → (∀ id, id ∈ ids → Q id) → Forall (net_act ids) acts →
  db_change P Q (sq_db s) (sq_db (db_after uid acts s)) ∧ t_User (sq_db (db_after uid acts s)) = t_User (sq_db s).
Proof.
  intros HP HQ Hacts. revert s. induction Hacts as [|a acts Ha Hacts IH]; intros s; [split; [apply db_change_refl|done]|].
  cbn [db_after foldl]. fold (db_after uid acts (db_step uid s a)). destruct (IH (db_step uid s a)) as [IH1 IH2].
  assert (db_change P Q (sq_db s) (sq_db (db_step uid s a)) ∧ t_User (sq_db (db_step uid s a)) = t_User (sq_db s)) as [H1 H2].
  { destruct a; cbn in Ha |- *; try (split; [apply db_change_refl|done]); [|done..]. destruct Ha as [Hz Hin]. split.
    - apply StoreNetwork_change; auto.
    - pose proof (StoreNetwork_change (λ _ _, False) (λ _, True) uid record s Hz I) as [_ Hu _].
      clear -Hu. induction Hu as [|r r' l l' Hr Hl IH]; [done|]. destruct Hr as [->|[]]. by rewrite IH. }
  split; [eapply db_change_trans; eauto|congruence].
Qed.

(** *** One user *)

(** The rows of the user [name] change to those of a disabled user. *)
Definition row_disabled (sv : server) (r r' : userRow) : Prop :=
  ∃ u, srv_users sv !! ur_username r = Some u ∧ r' = update_user_row (disabled_record (us_record u)) r.
Definition network_of (u : userState) (id : Z) : Prop := ∃ p, p ∈ us_networks u ∧ nID (net_record (net_at u p)) = id.

(** Loaded users are known by their names and come from the database. *)
Definition named (sv : server) : Prop :=
  ∀ name u, srv_users sv !! name = Some u → uUsername (us_record u) = name ∧ uID (us_record u) ≠ 0.

Lemma disable_one_spec sv0 name u s :
  named sv0 → srv_users sv0 !! name = Some u → srv_users (ts_srv s) !! name = Some u →
  let '(s', r) := disable_one name s in
  ts_logs s' = ts_logs s ∧
  (∃ u', srv_users (ts_srv s') = <[name := u']> (srv_users (ts_srv s)) ∧
     (r = Ok tt → us_record u' = disabled_record (us_record u))) ∧
  db_change (λ r r', ur_username r = name ∧ row_disabled sv0 r r') (network_of u) (sq_db (ts_db s)) (sq_db (ts_db s')) ∧
  (r = Ok tt → ∀ r', r' ∈ t_User (sq_db (ts_db s')) → ur_username r' = name → ur_enabled r' = false).
Proof.
  intros Hnamed Hu0 Hu. destruct (Hnamed name u Hu0) as [Hname Hid]. unfold disable_one, task_user. rewrite Hu.
  set (UE' := db_uenv _ _ _). pose proof (apply_update_acts UE' (E0:=E name) u) as Hacts. cbn zeta in Hacts.
  destruct (apply_user_update _ _ u) as [u' r]. set (rec := disabled_record (us_record u)) in *.
  set (P := λ r r', ur_username r = name ∧ row_disabled sv0 r r').
  assert (∀ r1 r2 r3, P r1 r2 → P r2 r3 → P r1 r3) as HP.
  { intros r1 r2 r3 [Hn1 (u1 & Hu1 & ->)] [_ (u2 & Hu2 & ->)]. split; [done|]. exists u1. split; [done|].
    cbn in Hu2. rewrite Hu1 in Hu2. by injection Hu2 as <-. }
  cbn [ts_logs ts_srv ts_db srv_users set_srv_trace set_srv_users].
  assert (ue_StoreUser (uenv:=UE') (us_trace u) rec = error_of (StoreUser rec (ts_db s)).2) as Herr
    by (cbn; by rewrite drop_all).
  rewrite Herr in Hacts. destruct (StoreUser_cases rec (ts_db s) Hid) as [[Hdb Hok]|[Hdb (e & He)]].
  - rewrite Hok in Hacts. destruct Hacts as (Hrec & acts & Htr & Hnet). rewrite Htr, drop_app_length.
    cbn [db_after foldl db_step]. fold (db_after (uID (us_record u)) acts (StoreUser rec (ts_db s)).1).
    assert (db_change P (network_of u) (sq_db (ts_db s)) (sq_db (StoreUser rec (ts_db s)).1)) as H1.
    { rewrite Hdb. split; [by destruct (sq_db (ts_db s))| |apply Forall2_same; by left]. cbn. clear -Hname Hu0.
      induction (t_User (sq_db (ts_db s))) as [|r l IH]; [constructor|]. cbn. constructor; [|exact IH].
      case_bool_decide as Hr; [right|by left]. split; [congruence|]. exists u. split; [|done]. by rewrite Hr; cbn; rewrite Hname. }
    assert (∀ id, id ∈ ((λ p, nID (net_record (net_at u p))) <$> us_networks u) → network_of u id) as Hids
      by (intros id (p & -> & Hp)%list_elem_of_fmap; by exists p).
    destruct (db_after_networks P (network_of u) (uID (us_record u)) _ acts (StoreUser rec (ts_db s)).1 HP Hids Hnet) as [H2 H3].
    split_and!; [done|by exists u'|exact (db_change_trans _ _ _ _ _ HP H1 H2)|]. intros _. rewrite H3, Hdb. cbn.
    intros r' (r0 & -> & _)%list_elem_of_fmap. case_bool_decide as Hr; [done|]. cbn in Hr. congruence.
  - rewrite He in Hacts. destruct Hacts as [Htr (e' & ->)]. rewrite Htr, drop_app_length. cbn [db_after foldl db_step].
    rewrite Hdb. split_and!; [done|by exists u'|apply db_change_refl|done].
Qed.

(** *** The loop *)

Lemma db_change_mono (P1 P2 : userRow → userRow → Prop) (Q1 Q2 : Z → Prop) d d' :
  (∀ r r', P1 r r' → P2 r r') → (∀ id, Q1 id → Q2 id) → db_change P1 Q1 d d' → db_change P2 Q2 d d'.
Proof.
  intros HP HQ [Hf Hu Hn]. split; [done|eapply Forall2_impl; [exact Hu|]|eapply Forall2_impl; [exact Hn|]].
  - intros r r' [->|Hr]; [by left|right; auto].
  - intros r r' [->|(H1 & H2 & H3)]; [by left|right; auto].
Qed.

Lemma db_change_username P Q d d' r' :
  (∀ r r', P r r' → ur_username r' = ur_username r) → db_change P Q d d' → r' ∈ t_User d' →
  ∃ r, r ∈ t_User d ∧ ur_username r' = ur_username r ∧ user_row_change P r r'.
Proof.
  intros HP [_ Hu _] Hr. apply list_elem_of_lookup in Hr as (i & Hi).
  destruct (Forall2_lookup_r _ _ _ _ _ Hu Hi) as (r & Hri & Hc). exists r. split_and!; [by eapply list_elem_of_lookup_2| |done].
  destruct Hc as [->|Hc]; [done|by apply HP].
Qed.

Definition one_of (sv0 : server) (names : list string) (id : Z) : Prop :=
  ∃ name u, name ∈ names ∧ srv_users sv0 !! name = Some u ∧ network_of u id.

Lemma disable_all sv0 names s :
  named sv0 → NoDup names → (∀ name, name ∈ names → is_Some (srv_users sv0 !! name)) →
  (∀ name, name ∈ names → srv_users (ts_srv s) !! name = srv_users sv0 !! name) →
  let '(s', r) := foreach disable_one names s in
  ts_logs s' = ts_logs s ∧
  (∀ name, name ∉ names → srv_users (ts_srv s') !! name = srv_users (ts_srv s) !! name) ∧
  db_change (λ r r', ur_username r ∈ names ∧ row_disabled sv0 r r') (one_of sv0 names) (sq_db (ts_db s)) (sq_db (ts_db s')) ∧
  (r = Ok tt → ∀ name, name ∈ names →
     (∃ u', srv_users (ts_srv s') !! name = Some u' ∧ uEnabled (us_record u') = false) ∧
     ∀ r', r' ∈ t_User (sq_db (ts_db s')) → ur_username r' = name → ur_enabled r' = false).
Proof.
  intros Hnamed. revert s. induction names as [|n names IH]; intros s Hnd Hload Hsame.
  { cbn. split_and!; [done|done|apply db_change_refl|]. by intros _ name []%not_elem_of_nil. }
  apply NoDup_cons in Hnd as [Hn Hnd]. destruct (Hload n) as [u Hu]; [left|].
  assert (srv_users (ts_srv s) !! n = Some u) as Hus by (rewrite Hsame; [done|left]).
  pose proof (disable_one_spec sv0 n u s Hnamed Hu Hus) as Hone. cbn [foreach]. unfold mbind, M_bind.
  destruct (disable_one n s) as [s1 r1]. destruct Hone as (Hlog & (u' & Husers & Hrec) & Hdb & Hrows).
  set (P := λ r r', ur_username r ∈ n :: names ∧ row_disabled sv0 r r').
  assert (∀ r1 r2 r3, P r1 r2 → P r2 r3 → P r1 r3) as HP.
  { intros x1 x2 x3 [Hn1 (u1 & Hu1 & ->)] [_ (u2 & Hu2 & ->)]. split; [done|]. exists u1. split; [done|].
    cbn in Hu2. rewrite Hu1 in Hu2. by injection Hu2 as <-. }
  assert (db_change P (one_of sv0 (n :: names)) (sq_db (ts_db s)) (sq_db (ts_db s1))) as Hdb1.
  { eapply db_change_mono; [| |exact Hdb].
    - intros x x' [Hx ?]. split; [rewrite Hx; left|done].
    - intros id Hid. exists n, u. split_and!; [left|done|done]. }
  destruct r1 as [[]|e|w].
  2,3: split_and!; [done| |done|done]; intros name Hname; rewrite Husers, lookup_insert_ne; [done|];
    intros ->; apply Hname; left.
  specialize (IH s1 Hnd). destruct (foreach disable_one names s1) as [s2 r2].
  destruct IH as (Hlog2 & Hfr2 & Hdb2 & Hok2).
  { intros name Hname. apply Hload. by right. }
  { intros name Hname. rewrite Husers, lookup_insert_ne by (intros ->; done). apply Hsame. by right. }
  assert (db_change P (one_of sv0 (n :: names)) (sq_db (ts_db s1)) (sq_db (ts_db s2))) as Hdb2'.
  { eapply db_change_mono; [| |exact Hdb2].
    - intros x x' [Hx ?]. split; [by right|done].
    - intros id (name & v & Hv & ? & ?). exists name, v. split_and!; [by right|done|done]. }
  split_and!; [congruence| |by eapply db_change_trans|].
  - intros name [Hne Hname]%not_elem_of_cons. rewrite Hfr2, Husers, lookup_insert_ne by done. done.
  - intros -> name [->|Hname]%elem_of_cons; [|by apply Hok2].
    split.
    + exists u'. rewrite Hfr2, Husers, lookup_insert_eq by done. split; [done|]. by rewrite (Hrec eq_refl).
    + intros r' Hr' Hname. eapply db_change_username in Hr' as (r & Hr & Heq & Hc); [| |exact Hdb2].
      * destruct Hc as [->|[_ (v & _ & ->)]]; [|done]. apply (Hrows eq_refl); [done|congruence].
      * by intros x x' [_ (v & _ & ->)].
Qed.

(** C31: Disabling inactive users disables exactly these. [victim name] says that the user is
    loaded without a client and that the last activity recorded for it, or its creation if
    there was none, is longer ago than the configured delay. When the task has run, without
    fault or not, only victims have changed in the server; in the database only rows of
    users and networks have: the row of a user is as before, or that of a victim, stored from
    the record in the server with [Enabled] false; the row of a network is as before, or that
    of a network of a victim, with its ID and owner. The logs are untouched, and without a
    delay nothing changes. When the task reports success all the victims are disabled, in the
    server and in the database. *)
Theorem inactive_users_only now s :
  let d := sq_db (ts_db s) in
  let limit := now - DisableInactiveUsersDelay cfg in
  let victim name :=
    DisableInactiveUsersDelay cfg ≠ 0 ∧ (∃ u, srv_users (ts_srv s) !! name = Some u ∧ us_downstreams u = []) ∧
    ∃ r, r ∈ t_User d ∧ ur_username r = name ∧ last_active r < limit / nsPerMs in
  four_digit_year (limit / nsPerDay) → limit ≠ zeroTime → Forall times_ok (t_User d) → db_ok d → named (ts_srv s) →
  let '(s', res) := disableInactiveUsers now s in
  let d' := sq_db (ts_db s') in
  ts_logs s' = ts_logs s ∧
  (∀ name, srv_users (ts_srv s') !! name ≠ srv_users (ts_srv s) !! name → victim name) ∧
  d' = set_User (t_User d') (set_Network (t_Network d') d) ∧
  Forall2 (λ r r', r' = r ∨ victim (ur_username r) ∧ row_disabled (ts_srv s) r r') (t_User d) (t_User d') ∧
  Forall2 (λ r r', r' = r ∨
      (∃ name u, victim name ∧ srv_users (ts_srv s) !! name = Some u ∧ network_of u (nr_id r)) ∧
      nr_id r' = nr_id r ∧ nr_user r' = nr_user r) (t_Network d) (t_Network d') ∧
  (res = Ok tt → ∀ name, victim name →
     (∃ u', srv_users (ts_srv s') !! name = Some u' ∧ uEnabled (us_record u') = false) ∧
     ∀ r', r' ∈ t_User d' → ur_username r' = name → ur_enabled r' = false).
Proof.
  intros d limit victim Hl Hz Hrows Hok Hnamed. unfold disableInactiveUsers.
  assert (∀ s', sq_db (ts_db s') = d → ts_srv s' = ts_srv s → ts_logs s' = ts_logs s →
    ts_logs s' = ts_logs s ∧ (∀ name, srv_users (ts_srv s') !! name ≠ srv_users (ts_srv s) !! name → victim name) ∧
    db_change (λ r r', victim (ur_username r) ∧ row_disabled (ts_srv s) r r')
      (λ id, ∃ name u, victim name ∧ srv_users (ts_srv s) !! name = Some u ∧ network_of u id) d (sq_db (ts_db s'))) as Hsame.
  { intros s' -> -> ->. split_and!; [done|by intros ? []|apply db_change_refl]. }
  destruct (Z.eqb_spec (DisableInactiveUsersDelay cfg) 0) as [Hd|Hd].
  { destruct (Hsame s eq_refl eq_refl eq_refl) as (H1 & H2 & [H3 H4 H5]). cbn.
    split_and!; [done|done|exact H3|exact H4|exact H5|]. intros _ name [? _]. done. }
  destruct (ListInactiveUsernames_run _ (ts_db s) Hl Hz Hrows)
    as [(d1 & e & Hrun & Hdb)|(d1 & names & Hrun & Hdb & Hnd & Hnames)];
    erewrite bind_run by (unfold try, task_db; fold limit; rewrite Hrun; reflexivity); cbn iota.
  { destruct (Hsame (MkTask (ts_srv s) d1 (ts_logs s)) Hdb eq_refl eq_refl) as (H1 & H2 & [H3 H4 H5]). cbn.
    split_and!; [done|done|exact H3|exact H4|exact H5|done]. }
  rewrite bind_gets. cbn [ts_srv]. set (l := filter (λ name, idle (ts_srv s) name = true) names).
  set (st := MkTask (ts_srv s) d1 (ts_logs s)).
  assert (∀ name, name ∈ l ↔ victim name) as Hvictim.
  { intros name. unfold l. rewrite list_elem_of_filter, Hnames. split.
    - intros [Hi Hr]. split_and!; [done|by apply idle_spec|exact Hr].
    - intros (_ & (u & Hu & Hdn) & Hr). split; [|exact Hr]. unfold idle. rewrite Hu. by apply bool_decide_eq_true. }
  pose proof (disable_all (ts_srv s) l st Hnamed) as Hall. destruct (foreach disable_one l st) as [s' res].
  destruct Hall as (H1 & H2 & H3 & H4).
  { apply NoDup_filter, Hnd, Hok. }
  { intros name (_ & (u & Hu & _) & _)%Hvictim. by eexists. }
  { done. }
  change (sq_db (ts_db st)) with (sq_db d1) in H3. rewrite Hdb in H3. fold d in H3.
  apply (db_change_mono _ (λ r r', victim (ur_username r) ∧ row_disabled (ts_srv s) r r') _
    (λ id, ∃ name u, victim name ∧ srv_users (ts_srv s) !! name = Some u ∧ network_of u id)) in H3 as [F U N].
  - split_and!; [done| |exact F|exact U|exact N|].
    + intros name Hne. apply Hvictim. destruct (decide (name ∈ l)) as [|Hn]; [done|]. by rewrite (H2 name Hn) in Hne.
    + intros Hres name Hv%Hvictim. by apply H4.
  - intros r r' [Hv%Hvictim ?]. done.
  - intros id (name & u & Hv%Hvictim & ? & ?). by exists name, u.
Qed.

(** ** What is deleted *)

(** With the database store, exactly the messages from before the expiry go. *)
Theorem expired_messages_deleted now s :
  Driver (MsgStore cfg) = "db" → MessageExpiry cfg ≠ 0 → (∀ n, en_fault n = None) → db_ok (sq_db (ts_db s)) →
  let before := now - MessageExpiry cfg in
  four_digit_year (before / nsPerDay) → before ≠ zeroTime → Forall row_ok (t_Message (sq_db (ts_db s))) →
  ∃ s', deleteExpiredMessages now s = (s', Ok tt) ∧ ts_srv s' = ts_srv s ∧ ts_logs s' = ts_logs s ∧
    sq_db (ts_db s') = set_Message (filter (λ m, before / nsPerMs ≤ row_ms m) (t_Message (sq_db (ts_db s)))) (sq_db (ts_db s)).
Proof.
  intros Hdrv Hex Hn Hok before Hy Hz Hrows. unfold deleteExpiredMessages. rewrite (proj2 (Z.eqb_neq _ _)) by done.
  rewrite decide_True by done. fold before. set (d := sq_db (ts_db s)) in *.
  assert (filter (λ m, null_lt (Some (mr_time m)) (sqliteTime_Value before) = false) (t_Message d)
    = filter (λ m, before / nsPerMs ≤ row_ms m) (t_Message d)) as Heq.
  { apply filter_iff_in. intros m Hm. rewrite Forall_forall in Hrows. destruct (Hrows m Hm) as [(t & Ht & Hmt) _].
    rewrite (row_ms_stored m t), Hmt by done. unfold sqliteTime_Value, IsZero.
    rewrite (proj2 (Z.eqb_neq _ _)), null_lt_server_time, Z.ltb_ge by done. done. }
  assert (Sqlite.DeleteMessagesBefore before (ts_db s) =
    (MkSql (set_Message (filter (λ m, before / nsPerMs ≤ row_ms m) (t_Message d)) d) (S (sq_count (ts_db s))), Ok tt)) as Hrun.
  { unfold Sqlite.DeleteMessagesBefore. apply exec_run; [apply Hn|fold d; by rewrite Heq|].
    eapply leaf_ok; [exact Hok|shrink|done..]. }
  erewrite bind_run by (unfold try, task_db; rewrite Hrun; reflexivity). by eexists.
Qed.
End tasks.

(** ** Evaluation *)

Definition demo_task_cfg : BasicServer :=
  MkBasic "irc.example.org" "" (MkDriver "memory" "") [] "" [] false (-1) [] (30 * nsPerDay) 0 false false.
(** Alice has a client, bob has none; both were created a year ago. *)
Definition demo_bob : userState :=
  MkUserState (MkUser 2 "bob" "" "" "" true true 0 (-1)) [0%nat]
    {[0%nat := newConnection (set_nID 2 (NewNetwork "irc.example.org")) []]} 1%nat [] [].
Definition demo_task : taskState :=
  MkTask (MkServer {["alice" := set_us_downstreams [MkDown 1 None false false] demo_user_state; "bob" := demo_bob]} false [] [])
    (MkSql demo_db 0) (FDir []).
Definition demo_disable : taskState * res goerr unit :=
  disableInactiveUsers (UE := demo_uenv) (λ _, demo_env) (EN := demo_engine None) demo_task_cfg
    (1735689600 * nsPerSecond) demo_task.

Lemma demo_times : Forall times_ok (t_User demo_db).
Proof.
  repeat (apply Forall_cons; split; [exists (1704067200 * nsPerSecond); split; [split; vm_compute; congruence|by vm_compute]|]).
  constructor.
Qed.

Lemma demo_named : named (ts_srv demo_task).
Proof.
  unfold named, demo_task. cbn [ts_srv srv_users]. intros name u Hu.
  apply lookup_insert_Some in Hu as [[<- <-]|[_ Hu]]; [split; (reflexivity || discriminate)|].
  apply lookup_singleton_Some in Hu as [<- <-]. split; (reflexivity || discriminate).
Qed.

Lemma inactive_users_only_witness :
  demo_disable.2 = Ok tt ∧
  srv_users (ts_srv demo_disable.1) !! "alice" = srv_users (ts_srv demo_task) !! "alice" ∧
  uEnabled <$> (us_record <$> srv_users (ts_srv demo_disable.1) !! "bob") = Some false ∧
  (λ r, (ur_username r, ur_enabled r)) <$> t_User (sq_db (ts_db demo_disable.1)) = [("alice", true); ("bob", false)] ∧
  t_Channel (sq_db (ts_db demo_disable.1)) = t_Channel demo_db ∧
  ∀ r', r' ∈ t_User (sq_db (ts_db demo_disable.1)) → ur_username r' = "bob" → ur_enabled r' = false.
Proof.
  assert (demo_disable.2 = Ok tt) as Hok by (vm_compute; reflexivity).
  pose proof (inactive_users_only (UE := demo_uenv) (λ _, demo_env) (EN := demo_engine None) demo_task_cfg
    (1735689600 * nsPerSecond) demo_task) as Ht. cbn zeta in Ht. fold demo_disable in Ht.
  split; [exact Hok|]. split; [vm_compute; reflexivity|]. split; [vm_compute; reflexivity|]. split; [vm_compute; reflexivity|].
  destruct demo_disable as [s' res]. destruct Ht as (_ & _ & Hf & _ & _ & Hv).
  - split; vm_compute; congruence.
  - vm_compute. discriminate.
  - exact demo_times.
  - exact demo_db_ok.
  - exact demo_named.
  - split; [cbn [fst]; rewrite Hf; reflexivity|]. apply (Hv Hok "bob"). split_and!; [vm_compute; discriminate| |].
    + exists demo_bob. split; reflexivity.
    + eexists. split; [right; left|]. split; [reflexivity|vm_compute; reflexivity].
Defined.
