(* ===== verification/GoPath.v ===== *)
(** * Slash-separated paths (packages path and, on Unix, path/filepath)

    Lexical cleaning, joining and splitting of paths, and the names a system call walks
    through. *)

From S2P Require Import Prelude GoStrings IrcMessage GenMsg GoOs.

Open Scope string_scope.
Open Scope list_scope.

#[local] Arguments reverse : simpl never.

Definition slash : ascii := "/".

(** The texts between the slashes. *)
Fixpoint segments (s : string) : list string :=
  match s with
  | "" => [""]
  | String c s' =>
    if decide (c = slash) then "" :: segments s'
    else match segments s' with d :: l => String c d :: l | [] => [String c ""] end
  end.

(** Without empty names and dots; a double dot takes back the name before it, and stays only
    at the start of a path that is not rooted. [out] holds the names so far, the last first. *)
Fixpoint clean_names (rooted : bool) (out l : list string) : list string :=
  match l with
  | [] => reverse out
  | c :: l =>
    if decide (c = "" ∨ c = ".") then clean_names rooted out l
    else if decide (c = "..") then
      match out with
      | [] => clean_names rooted (if rooted then [] else [".."]) l
      | d :: out' => if decide (d = "..") then clean_names rooted (".." :: out) l else clean_names rooted out' l
      end
    else clean_names rooted (c :: out) l
  end.

Definition IsAbs (s : string) : bool := HasPrefix s "/".

(** The names from the root, or from the working directory, to the file that [s] names. *)
Definition path_of (s : string) : Path := clean_names (IsAbs s) [] (segments s).

(** [path.Clean] and [filepath.Clean] *)
Definition Clean (s : string) : string :=
  if IsAbs s then "/" +:+ Join (path_of s) "/"
  else match path_of s with [] => "." | names => Join names "/" end.

(** [path.Join] and [filepath.Join] *)
Definition path_Join (elems : list string) : string :=
  match filter (λ e, e ≠ "") elems with [] => "" | l => Clean (Join l "/") end.

(** [path.Base] and [filepath.Base] *)
Definition path_Base (s : string) : string :=
  if decide (s = "") then "."
  else
    let s := TrimRight s "/" in
    if decide (s = "") then "/" else default "" (last (segments s)).

(** [path.Ext]: from the last dot of the last name. *)
Definition path_Ext (s : string) : string :=
  let name := default "" (last (segments s)) in
  match LastIndexAny name "." with Some i => str_drop i name | None => "" end.

(** ** Names *)

(** A name of a file that is no way around the tree. *)
Definition plain_name (c : string) : Prop := c ≠ "" ∧ c ≠ "." ∧ c ≠ ".." ∧ str_mem slash c = false.
#[export] Instance plain_name_dec c : Decision (plain_name c).
Proof. unfold plain_name. apply _. Defined.

Lemma segments_nonempty s : segments s ≠ [].
Proof. destruct s as [|c s]; cbn; [done|]. case_decide; [done|]. by destruct (segments s). Qed.

Lemma segments_noslash s : Forall (λ c, str_mem slash c = false) (segments s).
Proof.
  induction s as [|c s IH]; cbn; [by repeat constructor|]. case_decide as Hc; [by constructor|].
  destruct (segments s) as [|d l]; [constructor; [|constructor]|inversion IH; subst; constructor; [|done]];
    cbn; by rewrite bool_decide_eq_false_2 by congruence.
Qed.

Lemma segments_app a b : segments (a +:+ "/" +:+ b) = segments a ++ segments b.
Proof.
  induction a as [|c a IH]; cbn; [done|]. cbn in IH. rewrite IH. case_decide; [done|].
  pose proof (segments_nonempty a). by destruct (segments a).
Qed.

Lemma segments_plain c : str_mem slash c = false → segments c = [c].
Proof.
  induction c as [|d c IH]; [done|]. cbn [str_mem segments]. intros [Hd Hc]%orb_false_iff. apply bool_decide_eq_false in Hd.
  rewrite decide_False by congruence. by rewrite IH.
Qed.

Lemma segments_Join l : l ≠ [] → Forall (λ c, str_mem slash c = false) l → segments (Join l "/") = l.
Proof.
  induction l as [|c l IH]; [done|]. intros _ [Hc Hl]%Forall_cons. destruct (decide (l = [])) as [->|Hne].
  { cbn. by apply segments_plain. }
  rewrite Join_cons, segments_app, IH, segments_plain by done. done.
Qed.

(** ** Cleaning *)

Lemma clean_names_app r out l k :
  clean_names r out (l ++ k) = clean_names r (reverse (clean_names r out l)) k.
Proof.
  revert out. induction l as [|c l IH]; intros out; cbn; [by rewrite reverse_involutive|].
  case_decide; [apply IH|]. case_decide; [|apply IH]. destruct out; [apply IH|]. case_decide; apply IH.
Qed.

Lemma clean_names_plain r out l : Forall plain_name l → clean_names r out l = reverse out ++ l.
Proof.
  revert out. induction l as [|c l IH]; intros out; cbn; [by rewrite app_nil_r|].
  intros [(H1 & H2 & H3 & _) Hl]%Forall_cons. rewrite decide_False by tauto. rewrite decide_False by done.
  rewrite IH by done. by rewrite reverse_cons, <-app_assoc.
Qed.

(** What cleaning leaves: plain names, after double dots if the path is not rooted. *)
Definition cleaned (rooted : bool) (l : list string) : Prop :=
  ∃ k ds, l = replicate k ".." ++ ds ∧ Forall plain_name ds ∧ (rooted = true → k = 0%nat).

Lemma clean_names_cleaned r out l :
  Forall (λ c, str_mem slash c = false) l → cleaned r (reverse out) → cleaned r (clean_names r out l).
Proof.
  revert out. induction l as [|c l IH]; intros out Hl Hout; [done|]. apply Forall_cons in Hl as [Hc Hl]. cbn.
  case_decide as H1; [by apply IH|]. destruct Hout as (k & ds & Hout & Hds & Hk). case_decide as H2.
  - subst c. destruct out as [|d out].
    + apply IH; [done|]. destruct r; [by exists 0%nat, []|by exists 1%nat, []].
    + rewrite reverse_cons in Hout. case_decide as H3.
      * subst d. destruct ds as [|x ds _] using rev_ind.
        -- apply IH; [done|]. exists (S k), []. rewrite app_nil_r in *. rewrite reverse_cons, reverse_cons, Hout.
           split_and!; [by rewrite replicate_S_end|constructor|]. intros Hr. specialize (Hk Hr). subst k. by destruct (reverse out).
        -- rewrite app_assoc in Hout. apply app_inj_tail in Hout as [_ <-]. apply Forall_app in Hds as [_ Hx].
           inversion Hx as [|? ? (_ & _ & Hd & _)]. done.
      * apply IH; [done|]. destruct ds as [|x ds _] using rev_ind.
        -- rewrite app_nil_r in Hout. destruct k as [|k]; [by destruct (reverse out)|]. rewrite replicate_S_end in Hout.
           by apply app_inj_tail in Hout as [_ ->].
        -- rewrite app_assoc in Hout. apply app_inj_tail in Hout as [-> _]. apply Forall_app in Hds as [? _]. by exists k, ds.
  - apply IH; [done|]. exists k, (ds ++ [c]). rewrite reverse_cons, Hout, app_assoc. split_and!; [done| |done].
    apply Forall_app. split; [done|]. repeat constructor; try done; tauto.
Qed.

Lemma path_of_cleaned s : cleaned (IsAbs s) (path_of s).
Proof. apply clean_names_cleaned; [apply segments_noslash|]. by exists 0%nat, []. Qed.

Lemma path_of_rooted s : IsAbs s = true → Forall plain_name (path_of s).
Proof. intros Hs. destruct (path_of_cleaned s) as (k & ds & -> & Hds & Hk). rewrite (Hk Hs). exact Hds. Qed.

Lemma clean_names_dots k : clean_names false [] (replicate k "..") = replicate k "..".
Proof.
  assert (∀ out, Forall (λ c, c = "..") out → clean_names false out (replicate k "..") = reverse out ++ replicate k "..") as Haux.
  { induction k as [|k IH]; intros out Hout; cbn; [by rewrite app_nil_r|].
    rewrite (decide_False (P := _ ∨ _)), (decide_True (P := ".." = "..")) by (done || by intros [?|?]). destruct out as [|d out].
    - rewrite IH by (by repeat constructor). by rewrite reverse_singleton.
    - inversion Hout; subst. rewrite decide_True by done. rewrite IH by (by constructor). by rewrite (reverse_cons (".." :: out)), <-app_assoc. }
  apply Haux. constructor.
Qed.

(** Cleaning twice changes nothing. *)
Lemma clean_names_idemp r l : cleaned r l → clean_names r [] l = l.
Proof.
  intros (k & ds & -> & Hds & Hk). rewrite clean_names_app. destruct r.
  - rewrite Hk by done. cbn. by apply clean_names_plain.
  - rewrite clean_names_dots, clean_names_plain by done. by rewrite reverse_involutive.
Qed.

Lemma cleaned_noslash r l : cleaned r l → Forall (λ c, str_mem slash c = false) l.
Proof.
  intros (k & ds & -> & Hds & _). apply Forall_app. split; [by apply Forall_replicate|].
  eapply Forall_impl; [exact Hds|]. intros c Hc. apply Hc.
Qed.

Lemma IsAbs_cons x s : IsAbs (String x s) = bool_decide (slash = x).
Proof. unfold IsAbs, HasPrefix, slash. cbn [String.prefix]. destruct (ascii_dec "/" x); [rewrite bool_decide_eq_true_2 by done; by destruct s|by rewrite bool_decide_eq_false_2]. Qed.

Lemma IsAbs_slash x : IsAbs ("/" +:+ x) = true.
Proof. change ("/" +:+ x) with (String slash x). rewrite IsAbs_cons. by apply bool_decide_eq_true. Qed.

Lemma IsAbs_Join r l : cleaned r l → l ≠ [] → IsAbs (Join l "/") = false.
Proof.
  intros Hl Hne. destruct l as [|c l]; [done|].
  assert (c ≠ "" ∧ str_mem slash c = false) as [Hc Hs].
  { pose proof (cleaned_noslash r _ Hl) as Hf. inversion Hf; subst. split; [|done]. destruct Hl as ([|k] & ds & Heq & Hds & _).
    - cbn in Heq. subst ds. inversion Hds as [|? ? Hx]; subst. apply Hx.
    - by injection Heq as -> _. }
  destruct c as [|x c]; [done|]. cbn in Hs. apply orb_false_iff in Hs as [Hx _]. apply bool_decide_eq_false in Hx.
  destruct l; [cbn [Join]|rewrite Join_cons by done; change (String x c +:+ ?y) with (String x (c +:+ y))];
    rewrite IsAbs_cons; by apply bool_decide_eq_false.
Qed.

Lemma path_of_slash x : path_of ("/" +:+ x) = clean_names true [] (segments x).
Proof.
  change ("/" +:+ x) with (String slash x). unfold path_of. rewrite IsAbs_cons, bool_decide_eq_true_2 by done.
  cbn [segments]. rewrite decide_True by done. cbn. by rewrite decide_True by (by left).
Qed.

(** The cleaned text names the same file. *)
Lemma path_of_Clean s : path_of (Clean s) = path_of s.
Proof.
  unfold Clean. pose proof (path_of_cleaned s) as Hc. destruct (IsAbs s) eqn:Hs.
  - rewrite path_of_slash. destruct (decide (path_of s = [])) as [->|Hne]; [done|].
    rewrite segments_Join by (try done; by eapply cleaned_noslash). by apply clean_names_idemp.
  - destruct (path_of s) as [|c l]; [done|]. unfold path_of.
    rewrite (IsAbs_Join _ _ Hc), segments_Join by (try done; by eapply cleaned_noslash). by apply clean_names_idemp.
Qed.

(** Joining walks on from the first path. *)
Lemma path_of_Join dir x : dir ≠ "" →
  path_of (path_Join [dir; x]) = clean_names (IsAbs dir) (reverse (path_of dir)) (segments x).
Proof.
  intros Hd. unfold path_Join. rewrite filter_cons_True by done. destruct (decide (x = "")) as [->|Hx].
  - rewrite filter_cons_False by tauto. change (filter _ _) with (@nil string). cbn [Join]. rewrite path_of_Clean. cbn. by rewrite reverse_involutive.
  - rewrite filter_cons_True by done. change (filter _ _) with (@nil string). change (Join [dir; x] "/") with (dir +:+ "/" +:+ x).
    rewrite path_of_Clean. unfold path_of at 1. rewrite segments_app, clean_names_app.
    assert (IsAbs (dir +:+ "/" +:+ x) = IsAbs dir) as ->; [|done].
    destruct dir as [|c dir]; [done|]. change (String c dir +:+ ?y) with (String c (dir +:+ y)). by rewrite !IsAbs_cons.
Qed.

Lemma path_of_Join_plain dir x l : dir ≠ "" → segments x = l → Forall plain_name l → path_of (path_Join [dir; x]) = path_of dir ++ l.
Proof. intros Hd <- Hl. rewrite path_of_Join, clean_names_plain by done. by rewrite reverse_involutive. Qed.

(** ** The last name *)

Lemma TrimRight_end p c : c ≠ "" → str_mem slash c = false → TrimRight (p +:+ c) "/" = p +:+ c.
Proof.
  intros Hc Hs. unfold TrimRight. rewrite str_rev_app. pose proof (str_rev_rev c) as Hrr. rewrite <-str_mem_rev in Hs.
  destruct (str_rev c) as [|x r] eqn:Hr; [by rewrite <-Hrr in Hc|]. cbn in Hs. apply orb_false_iff in Hs as [Hx _].
  apply bool_decide_eq_false in Hx. change (String x r +:+ str_rev p) with (String x (r +:+ str_rev p)). cbn [TrimLeft str_mem].
  rewrite orb_false_r, bool_decide_eq_false_2 by (unfold slash in *; congruence).
  change (String x (r +:+ str_rev p)) with (String x r +:+ str_rev p). by rewrite str_rev_app, str_rev_rev, Hrr.
Qed.

Lemma last_segments p c : str_mem slash c = false → last (segments (p +:+ "/" +:+ c)) = Some c.
Proof. intros Hc. rewrite segments_app, (segments_plain c) by done. by rewrite last_snoc. Qed.

Lemma path_Base_app p c : plain_name c → path_Base (p +:+ "/" +:+ c) = c.
Proof.
  intros (Hc & _ & _ & Hs). unfold path_Base.
  assert (p +:+ "/" +:+ c ≠ "") as Hne by (by destruct p).
  rewrite decide_False by done. assert (TrimRight (p +:+ "/" +:+ c) "/" = p +:+ "/" +:+ c) as ->.
  { rewrite <-str_app_assoc. by apply TrimRight_end. }
  rewrite decide_False by done. by rewrite last_segments.
Qed.

Lemma path_Base_Join dir c : dir ≠ "" → plain_name c → path_Base (path_Join [dir; c]) = c.
Proof.
  intros Hd Hc. assert (path_Join [dir; c] = c ∨ ∃ p, path_Join [dir; c] = p +:+ "/" +:+ c) as [->|[p ->]]; [| |by apply path_Base_app].
  - assert (path_of (dir +:+ "/" +:+ c) = path_of dir ++ [c]) as Hp.
    { rewrite <-path_of_Clean. change (dir +:+ "/" +:+ c) with (Join [dir; c] "/").
      rewrite <-(path_of_Join_plain dir c [c]) by (first [done|by apply segments_plain, Hc|by apply Forall_singleton]).
      unfold path_Join. by rewrite !filter_cons_True by (done || apply Hc). }
    unfold path_Join. rewrite !filter_cons_True by (done || apply Hc). change (filter _ []) with (@nil string).
    change (Join [dir; c] "/") with (dir +:+ "/" +:+ c). unfold Clean. rewrite Hp.
    assert (path_of dir ++ [c] = [c] ∨ path_of dir ≠ []) as [He|Hne] by (destruct (path_of dir); auto).
    + rewrite He. destruct (IsAbs _); [right; by exists ""|by left].
    + right. assert (Join (path_of dir ++ [c]) "/" = Join (path_of dir) "/" +:+ "/" +:+ c) as Hj by (by rewrite Join_app).
      destruct (IsAbs _); [exists ("/" +:+ Join (path_of dir) "/"); by rewrite Hj|]. exists (Join (path_of dir) "/").
      rewrite <-Hj. by destruct (path_of dir).
  - destruct Hc as (Hc & _ & _ & Hs). unfold path_Base. rewrite decide_False by done.
    replace (TrimRight c "/") with c by (symmetry; by apply (TrimRight_end "" c)). rewrite decide_False by done. change ("" +:+ c) with c. by rewrite segments_plain.
Qed.
