(* ===== verification/FileUpload.v ===== *)
(** * File uploads (fileupload/fileupload.go, fileupload/fs.go, fileupload/http.go)

    The HTTP handler that stores files of authenticated users and serves them again, over a
    file system or another HTTP server. Media types, patterns, URLs and random numbers are
    parameters; paths and the file system are those of [GoPath] and [GoOs]. *)

From S2P Require Import Prelude GoStrings GoUnicode GoStrconv IrcMessage GenMsg Base64 Effects Database Downstream SqlTables Sqlite Identd Config Auth GoOs GoPath.

Open Scope string_scope.
Open Scope list_scope.
Open Scope Z_scope.

(** ** Requests and responses *)

(** A header that is absent reads as empty. *)
Record uploadRequest := MkUploadReq {
  uqMethod : string; uqHost : string; uqPath : string; uqRemoteAddr : string; uqOrigin : string; uqAuthorization : string;
  uqContentType : string; uqContentDisposition : string; uqContentLength : Z; uqBody : string;
  uqBroken : bool (* reading fails after the body *)
}.

(** What follows the headers; the file of [http.ServeContent] is sent as far as the ranges and
    conditions of the request ask for it. *)
Inductive content := Text (s : string) | Served (name : string) (modTime : Z) (data : string) | NoContent.

Inductive uploadError := HttpError (code : Z) (contentType body : string) | MaxBytesError | UploadError.

Inductive Uploader := UploaderFS (dir : string) | UploaderHTTP (url : string).
Record Handler := MkHandler { hUploader : option Uploader; hAuth : Authenticator; hHTTPOrigins : list string }.

(** A response of the other server. *)
Record storeResponse := MkStoreResponse { srStatus : Z; srContentType : string; srLocation : string; srBody : string }.

Class uploadenv := MkUploadenv {
  fe_Match : string → string → option bool;
  fe_ParseHost : string → option string;
  fe_TypeByExtension : string → string;
  fe_ExtensionsByType : string → list string;
  fe_DetectContentType : string → string;
  fe_ParseMediaType : string → string * gmap string string * bool;
  fe_FormatMediaType : string → string → string;
  fe_resolve : string → option string;
  fe_rand : nat → nat → string + goerr;
  fe_now : Z;
  fe_close : Path → bool;
  fe_NewRequest : string → option goerr;
  fe_Do : string → list (string * string) → string → storeResponse + uploadError
}.

Record upState := MkUp { up_db : sqlState; up_os : os; up_header : gmap string string; up_out : option (Z * content) }.
Abbreviation UP := (ST upState).

Definition setHeader (k v : string) : UP unit :=
  modify (λ s, MkUp (up_db s) (up_os s) (<[k := v]> (up_header s)) (up_out s)).
Definition respond (code : Z) (c : content) : UP unit :=
  modify (λ s, MkUp (up_db s) (up_os s) (up_header s) (Some (code, c))).
Definition up_sql {A} (m : SQ A) : UP A :=
  λ s, let '(d, r) := m (up_db s) in (MkUp d (up_os s) (up_header s) (up_out s), r).

Definition line_end : string := String (ascii_of_nat 10) "".

(** [http.Error] *)
Definition http_Error (error : string) (code : Z) : UP unit :=
  setHeader "Content-Type" "text/plain; charset=utf-8" ;;
  setHeader "X-Content-Type-Options" "nosniff" ;;
  respond code (Text (error +:+ line_end)).

(** [httpError.Write] *)
Definition httpError_Write (code : Z) (contentType body : string) : UP unit :=
  when (bool_decide (contentType ≠ "")) (setHeader "Content-Type" contentType) ;;
  respond code (Text body).

Definition maxSize : Z := 50 * 1024 * 1024.

Definition inlineMIMETypes : list string :=
  ["application/pdf"; "audio/aac"; "audio/mp4"; "audio/mpeg"; "audio/ogg"; "audio/webm"; "image/apng"; "image/gif";
   "image/jpeg"; "image/png"; "image/webp"; "text/plain"; "video/mp4"; "video/ogg"; "video/webm"].

Definition primaryExts : gmap string string :=
  list_to_map [("audio/aac", "aac"); ("audio/mp4", "mp4"); ("audio/mpeg", "mp3"); ("audio/ogg", "oga"); ("image/jpeg", "jpeg");
               ("text/plain", "txt"); ("video/mp4", "mp4")].

(** [url.PathEscape] *)
Definition path_safe (c : ascii) : bool :=
  let z := byte_val c in
  (97 <=? z) && (z <=? 122) || (65 <=? z) && (z <=? 90) || (48 <=? z) && (z <=? 57) || str_mem c "-_.~$&+:=@".
Definition hex_upper (z : Z) : string := String (byte_of (if z <? 10 then 48 + z else 55 + z)) "".
Fixpoint PathEscape (s : string) : string :=
  match s with
  | "" => ""
  | String c s =>
    (if path_safe c then String c "" else "%" +:+ hex_upper (byte_val c / 16) +:+ hex_upper (byte_val c mod 16)) +:+ PathEscape s
  end.

(** [Request.BasicAuth] *)
Definition parseBasicAuth `{UnicodeTables} (auth : string) : option (string * string) :=
  if (slen auth <? 6)%nat || negb (EqualFold (str_take 6 auth) "Basic ") then None
  else match DecodeString (str_drop 6 auth) with None => None | Some c => Cut c ":" end.

(** [os.OpenFile] with [O_WRONLY|O_CREATE|O_EXCL] *)
Definition os_OpenExcl `{OsFaults} (now : Z) (p : Path) (o : os) : (os * Ino) + errno :=
  if os_fault OpCreate p then inr EIO
  else match lookup_node (os_tree o) p with
       | inl _ => inr EEXIST
       | inr ENOENT =>
         match put_node (os_tree o) p (FFile (os_next o)) with
         | inl t => inl (MkOs t (<[os_next o := MkInode "" now]> (os_inodes o)) (S (os_next o)), os_next o)
         | inr e => inr e
         end
       | inr e => inr e
       end.

Section upload.
Context `{EN : engine} `{SE : search_engine} `{LE : sqlenv} `{UnicodeTables} `{AE : authenv} `{FE : uploadenv} `{OF : OsFaults}.

(** ** The file system *)

(** [fileuploadFS.load]: the name, the time and the contents. *)
Definition fs_load (dir filename : string) (o : os) : (string * Z * string) + uploadError :=
  let path := path_of (path_Join [dir; filename]) in
  match os_Open o path with
  | inr _ => inr (HttpError 404 "" "file not found")
  | inl n =>
    if os_fault OpStat path then inr UploadError
    else match n with
         | FDir _ => inr UploadError
         | FFile i =>
           let basename := path_Base filename in
           let basename := match IndexByte basename "-" with Some k => str_drop (S k) basename | None => basename end in
           inl (basename, i_mtime (inode_at o i), i_data (inode_at o i))
         end
  end.

Definition generateToken (i n : nat) : string + goerr :=
  match fe_rand i n with inr e => inr e | inl b => inl (hex_encode b) end.

Definition upload_suffix (mimeType origBasename : string) : string :=
  if decide (path_Ext origBasename = "" ∧ mimeType ≠ "") then
    match primaryExts !! mimeType with
    | Some ext => "." +:+ ext
    | None => match fe_ExtensionsByType mimeType with [ext] => ext | _ => "" end
    end
  else "".

Definition upload_name (prefix origBasename suffix : string) : string :=
  (if decide (origBasename ≠ "") then prefix +:+ "-" +:+ origBasename else prefix) +:+ suffix.

(** The [n] rounds left of the loop that looks for a free name, the first being round [i]. *)
Fixpoint pick_file (n i : nat) (dir origBasename suffix : string) (o : os) : os * ((string * Ino) + uploadError) :=
  match n with
  | O => (o, inr UploadError)
  | S n =>
    let tokenLen := if decide (origBasename ≠ "" ∧ i = 0%nat) then 4%nat else 8%nat in
    match generateToken i tokenLen with
    | inr _ => (o, inr UploadError)
    | inl prefix =>
      let name := path_Join [dir; upload_name prefix origBasename suffix] in
      match os_OpenExcl fe_now (path_of name) o with
      | inl (o', ino) => (o', inl (name, ino))
      | inr EEXIST => pick_file n (S i) dir origBasename suffix o
      | inr _ => (o, inr UploadError)
      end
    end
  end.

(** What [http.MaxBytesReader] lets through, and whether there was more. *)
Definition limited (body : string) : string * bool :=
  if Z.of_nat (slen body) <=? maxSize then (body, false) else (str_take (Z.to_nat maxSize) body, true).

(** [fileuploadFS.store] *)
Definition fs_store (dir body : string) (broken : bool) (username mimeType origBasename : string) (o : os) : os * (string + uploadError) :=
  let suffix := upload_suffix mimeType origBasename in
  let udir := path_Join [dir; username] in
  match os_MkdirAll (path_of udir) o with
  | inr _ => (o, inr UploadError)
  | inl o =>
    match pick_file 100 0 udir origBasename suffix o with
    | (o, inr e) => (o, inr e)
    | (o, inl (name, ino)) =>
      if os_fault OpWrite (path_of name) then (o, inr UploadError)
      else
        let '(data, over) := limited body in
        let o := os_write fe_now ino data o in
        if (over : bool) then (o, inr MaxBytesError)
        else if broken then (o, inr UploadError)
        else if fe_close (path_of name) then (o, inr UploadError)
        else (o, inl (PathEscape username +:+ "/" +:+ PathEscape (path_Base name)))
    end
  end.

(** ** Another server *)

(** [fileuploadHTTP.store] *)
Definition http_store (url body username mimeType origBasename : string) : string + uploadError :=
  match fe_NewRequest url with
  | Some _ => inr UploadError
  | None =>
    let header :=
      [("User-Agent", "soju")] ++
      (if decide (origBasename ≠ "") then [("Content-Disposition", fe_FormatMediaType "attachment" origBasename)] else []) ++
      (if decide (mimeType ≠ "") then [("Content-Type", mimeType)] else []) ++
      [("Soju-Username", username)] in
    match fe_Do url header body with
    | inr e => inr e
    | inl res =>
      if (400 <=? srStatus res) && (srStatus res <? 600) then inr (HttpError (srStatus res) (srContentType res) (srBody res))
      else if negb (srStatus res =? 201) then inr UploadError
      else if decide (srLocation res = "") then inr UploadError else inl (srLocation res)
    end
  end.

Definition load (u : Uploader) (filename : string) (o : os) : (string * Z * string) + uploadError :=
  match u with UploaderFS dir => fs_load dir filename o | UploaderHTTP _ => inr UploadError end.
Definition store (u : Uploader) (req : uploadRequest) (username mimeType basename : string) (o : os) : os * (string + uploadError) :=
  match u with
  | UploaderFS dir => fs_store dir (uqBody req) (uqBroken req) username mimeType basename o
  | UploaderHTTP url => (o, http_store url (uqBody req) username mimeType basename)
  end.

(** ** The handler *)

(** A pattern that does not parse panics. *)
Fixpoint checkOrigin (origins : list string) (reqOrigin : string) : UP bool :=
  match origins with
  | [] => mret false
  | origin :: origins =>
    match fe_Match origin reqOrigin with
    | None => panic "path.ErrBadPattern"
    | Some true => mret true
    | Some false => checkOrigin origins reqOrigin
    end
  end.

(** [setCORS]; the error is the text of the response. *)
Definition setCORS (h : Handler) (req : uploadRequest) : UP (option string) :=
  setHeader "Access-Control-Allow-Credentials" "true" ;;
  setHeader "Access-Control-Allow-Headers" "Authorization, Content-Type, Content-Disposition" ;;
  setHeader "Access-Control-Expose-Headers" "Location, Content-Disposition" ;;
  if decide (uqOrigin req = "") then mret None
  else match fe_ParseHost (uqOrigin req) with
  | None => mret (Some "invalid Origin header field: %v")
  | Some host =>
    ok ← (if EqualFold host (uqHost req) then mret true else checkOrigin (hHTTPOrigins h) host);
    if (ok : bool) then
      setHeader "Access-Control-Allow-Origin" (uqOrigin req) ;;
      setHeader "Vary" "Origin" ;;
      mret None
    else mret (Some "unauthorized Origin")
  end.

Definition fetch (u : Uploader) (req : uploadRequest) : UP unit :=
  let prefix := "/uploads/" in
  if negb (HasPrefix (uqPath req) prefix) then http_Error "invalid path" 404
  else
    let filename := str_drop 1 (path_Join ["/"; TrimPrefix (uqPath req) prefix]) in
    if decide (filename = "") then http_Error "invalid path" 404
    else
      o ← gets up_os;
      match load u filename o with
      | inr (HttpError code contentType body) => httpError_Write code contentType body
      | inr _ => http_Error "failed to open file" 404
      | inl (basename, modTime, data) =>
        let contentType :=
          let t := fe_TypeByExtension (path_Ext basename) in
          if decide (t = "") then fe_DetectContentType (str_take 512 data) else t in
        when (bool_decide (contentType ≠ "")) (setHeader "Content-Type" contentType) ;;
        let mimeType := (fe_ParseMediaType contentType).1.1 in
        let mode := if decide (mimeType ∈ inlineMIMETypes) then "inline" else "attachment" in
        setHeader "Content-Disposition" (fe_FormatMediaType mode basename) ;;
        respond 200 (Served basename modTime data)
      end.

(** The account in the name of a client, before its network and client names. *)
Definition account_name (username : string) : string :=
  match IndexAny username "/@" with Some (S i) => str_take (S i) username | _ => username end.

(** The user of the credentials in a request, or the response that refuses them. *)
Definition upload_user (h : Handler) (req : uploadRequest) : UP (string + (string * Z)) :=
  let authz := uqAuthorization req in
  let addr := Some (uqRemoteAddr req) in
  let failed e := (match e with AuthError m => m | OtherError => "authentication failed" end, 403) in
  if decide (authz = "") then mret (inr ("missing Authorization header", 401))
  else
    let '(scheme, param) := default (authz, "") (Cut authz " ") in
    let scheme := ToLower scheme in
    if decide (scheme = "basic") then
      match Plain (hAuth h) with
      | None => mret (inr ("Basic scheme in Authorization header not supported", 400))
      | Some plain =>
        match parseBasicAuth authz with
        | None => mret (inr ("invalid Authorization header", 400))
        | Some (username, password) =>
          let username := account_name username in
          r ← up_sql (AuthPlain plain addr username password);
          mret (match r with None => inl username | Some e => inr (failed e) end)
        end
      end
    else if decide (scheme = "bearer") then
      match OAuthBearer (hAuth h) with
      | None => mret (inr ("Bearer scheme in Authorization header not supported", 400))
      | Some oauth => mret (match AuthOAuthBearer oauth addr param with inl username => inl username | inr e => inr (failed e) end)
      end
    else mret (inr ("unsupported Authorization header scheme", 400)).

(** The media type of the upload. *)
Definition upload_type (req : uploadRequest) : string + (string * Z) :=
  if decide (uqContentType req = "") then inl ""
  else
    let '(mimeType, params, failed) := fe_ParseMediaType (uqContentType req) in
    if (failed : bool) then inr ("failed to parse Content-Type", 400)
    else
      let mimeType := if decide (mimeType = "application/octet-stream") then "" else mimeType in
      if decide (ToLower (default "" (params !! "charset")) ∈ [""; "utf-8"; "us-ascii"]) then inl mimeType
      else inr ("unsupported charset", 415).

(** The name the client gives it. *)
Definition upload_basename (req : uploadRequest) : string + (string * Z) :=
  if decide (uqContentDisposition req = "") then inl ""
  else
    let '(_, params, failed) := fe_ParseMediaType (uqContentDisposition req) in
    if (failed : bool) then inr ("failed to parse Content-Disposition", 400)
    else inl (path_Base (default "" (params !! "filename"))).

Definition store_failed (e : uploadError) : UP unit :=
  match e with
  | HttpError code contentType body => httpError_Write code contentType body
  | MaxBytesError =>
    setHeader "Connection" "close" ;;
    setHeader "Upload-Limit" ("maxsize=" +:+ FormatInt maxSize) ;;
    http_Error "failed to write file" 413
  | UploadError => http_Error "failed to write file" 500
  end.

Definition store_file (u : Uploader) (req : uploadRequest) (username mimeType basename : string) : UP (string + uploadError) :=
  if maxSize <? uqContentLength req then mret (inr MaxBytesError)
  else λ s, let '(o, r) := store u req username mimeType basename (up_os s) in (MkUp (up_db s) o (up_header s) (up_out s), Ok r).

(** [Handler.store] *)
Definition handle_store (h : Handler) (u : Uploader) (req : uploadRequest) : UP unit :=
  if decide (uqPath req ≠ "/uploads") then http_Error "invalid path" 404
  else
    r ← upload_user h req;
    match r with
    | inr (error, code) => http_Error error code
    | inl username =>
      match upload_type req with
      | inr (error, code) => http_Error error code
      | inl mimeType =>
        match upload_basename req with
        | inr (error, code) => http_Error error code
        | inl basename =>
          r ← store_file u req username mimeType basename;
          match r with
          | inr e => store_failed e
          | inl out =>
            match fe_resolve out with
            | None => http_Error "failed to write file" 500
            | Some out => setHeader "Location" out ;; respond 201 NoContent
            end
          end
        end
      end
    end.

(** [Handler.ServeHTTP] *)
Definition upload_ServeHTTP (h : Handler) (req : uploadRequest) : UP unit :=
  setHeader "Content-Security-Policy" "sandbox; default-src 'none'; script-src 'none'; media-src 'self';" ;;
  e ← setCORS h req;
  match e with
  | Some error => http_Error error 403
  | None =>
    match hUploader h with
    | None => http_Error "404 page not found" 404
    | Some u =>
      if decide (uqMethod req = "OPTIONS") then respond 204 NoContent
      else if decide (uqMethod req ∈ ["HEAD"; "GET"]) then fetch u req
      else if decide (uqMethod req = "POST") then handle_store h u req
      else http_Error "only OPTIONS, HEAD, GET and POST are allowed" 405
    end
  end.
End upload.
