(* ===== verification/FileUploadSafe.v ===== *)
(** * Uploads stay in their directory and come back

    What a request can read and write of the file system, and that a file that was stored is
    served again. The second part has examples. *)

From S2P Require Import Prelude GoStrings GoUnicode GoStrconv IrcMessage Effects Base64 GenMsg Database Downstream GoOs ZncLog FsAppend SqlTables Sqlite SqliteDelete SqlExamples Identd Config Auth GoPath FileUpload.

Open Scope string_scope.
Open Scope list_scope.
Open Scope Z_scope.

(** ** Creating a file *)

Lemma lookup_err_app n p q e : lookup_node n p = inr e → lookup_node n (p ++ q) = inr e.
Proof.
  revert n. induction p as [|c p IH]; intros n; cbn; [done|]. destruct n as [i|es]; [done|].
  destruct (entry c es); [apply IH|done].
Qed.
Lemma lookup_file_app n p q i : lookup_node n p = inl (FFile i) → q ≠ [] → lookup_node n (p ++ q) = inr ENOTDIR.
Proof.
  revert n. induction p as [|c p IH]; intros n; cbn; [intros [= ->]; by destruct q|]. destruct n as [j|es]; [done|].
  destruct (entry c es); [apply IH|done].
Qed.

(** Below a path that did not exist, there is only the new node. *)
Lemma put_new_files n p x n' q j :
  lookup_node n p = inr ENOENT → put_node n p (FFile x) = inl n' → q ≠ p →
  lookup_node n' q = inl (FFile j) ↔ lookup_node n q = inl (FFile j).
Proof.
  intros Hn Hput Hq. pose proof (lookup_put_eq _ _ _ _ Hput) as Heq.
  destruct (decide (p `prefix_of` q)) as [[r ->]|Hpre].
  { assert (r ≠ []) as Hr by (intros ->; by rewrite app_nil_r in Hq).
    by rewrite (lookup_file_app _ _ _ _ Heq Hr), (lookup_err_app _ _ _ _ Hn). }
  destruct (decide (q `prefix_of` p)) as [[r ->]|Hsuf]; [|by rewrite (lookup_put_ne _ _ _ _ _ Hput)].
  assert (r ≠ []) as Hr by (intros ->; by rewrite app_nil_r in Hpre).
  split; intros Hl; exfalso.
  - by rewrite (lookup_file_app _ _ _ _ Hl Hr) in Heq.
  - by rewrite (lookup_file_app _ _ _ _ Hl Hr) in Hn.
Qed.

Lemma put_new_dirs n p x n' q es :
  put_node n p (FFile x) = inl n' → lookup_node n' q = inl (FDir es) → ∃ es', lookup_node n q = inl (FDir es').
Proof.
  revert n n' q. induction p as [|c p IH]; intros n n' q; cbn [put_node].
  { intros [= <-]. destruct q; by cbn. }
  destruct n as [i|es0]; [done|]. destruct q as [|d q]; [by eexists|]. destruct p as [|c' p].
  - intros [= <-]. cbn. destruct (decide (c = d)) as [->|Hne]; [rewrite entry_set_eq; by destruct q|].
    rewrite entry_set_ne by done. destruct (entry d es0); [by eexists|done].
  - destruct (entry c es0) as [m|] eqn:Hc; [|done]. destruct (put_node m (c' :: p) (FFile x)) as [m'|e] eqn:Hm; [|done].
    intros [= <-]. cbn. destruct (decide (c = d)) as [->|Hne].
    + rewrite entry_set_eq, Hc. by eapply IH.
    + rewrite entry_set_ne by done. destruct (entry d es0); [by eexists|done].
Qed.

Lemma os_OpenExcl_spec `{OsFaults} now p o o' i :
  os_OpenExcl now p o = inl (o', i) →
  lookup_node (os_tree o) p = inr ENOENT ∧ i = os_next o ∧ put_node (os_tree o) p (FFile i) = inl (os_tree o') ∧
  os_inodes o' = <[i := MkInode "" now]> (os_inodes o) ∧ os_next o' = S i.
Proof.
  unfold os_OpenExcl. destruct (os_fault OpCreate p); [done|]. destruct (lookup_node (os_tree o) p) as [|[]]; try done.
  destruct (put_node (os_tree o) p (FFile (os_next o))) eqn:Hp; [|done]. by intros [= <- <-].
Qed.

(** ** Names of uploads *)

Lemma hex_encode_chars c s : c ∈ ["/"%char; "-"%char; "."%char] → str_mem c (hex_encode s) = false.
Proof.
  intros Hc. induction s as [|d s IH]; [done|]. cbn [hex_encode]. rewrite !str_mem_app, IH, orb_false_r. revert Hc. clear.
  rewrite !elem_of_cons. intros [->|[->|[->|Hn]]]; [..|by apply not_elem_of_nil in Hn]; destruct d as [[] [] [] [] [] [] [] []]; vm_compute; reflexivity.
Qed.

(** What an upload may be called by its client. *)
Definition base_ok (b : string) : Prop := b = "/" ∨ str_mem slash b = false.

Lemma path_Base_ok x : base_ok (path_Base x).
Proof.
  unfold path_Base. case_decide; [by right|]. case_decide; [by left|]. right.
  pose proof (segments_noslash (TrimRight x "/")) as Hs. rewrite Forall_forall in Hs.
  destruct (last (segments (TrimRight x "/"))) as [c|] eqn:Hl; [|done]. apply last_Some_elem_of in Hl. by apply Hs.
Qed.

Lemma clean_names_skip r out l : Forall (λ c, c = "" ∨ plain_name c) l → clean_names r out l = reverse out ++ filter (λ c, c ≠ "") l.
Proof.
  revert out. induction l as [|c l IH]; intros out; cbn [clean_names]; [by rewrite app_nil_r|].
  intros [[->|(H1 & H2 & H3 & _)] Hl]%Forall_cons.
  - rewrite decide_True by (by left). rewrite IH by done. by rewrite filter_cons_False by tauto.
  - rewrite decide_False by tauto. rewrite decide_False by done. rewrite IH by done.
    by rewrite filter_cons_True, reverse_cons, <-app_assoc by done.
Qed.

(** A token, a hyphen or nothing, and an ending make a plain name. *)
Lemma token_plain bytes rest :
  str_mem slash rest = false → (rest = "" ∨ plain_name rest) → hex_encode bytes +:+ rest = "" ∨ plain_name (hex_encode bytes +:+ rest).
Proof.
  intros Hs Hr. destruct (hex_encode bytes) as [|d t] eqn:Hh; [done|]. right.
  assert (str_mem "."%char (String d t) = false ∧ str_mem slash (String d t) = false) as [Hd Ht]
    by (rewrite <-Hh; split; apply hex_encode_chars; set_solver).
  cbn in Hd. apply orb_false_iff in Hd as [Hd _]. apply bool_decide_eq_false in Hd.
  split_and!; [done|..|by rewrite str_mem_app, Ht]; intros [= ? _]; congruence.
Qed.

Lemma dash_plain bytes rest : str_mem slash rest = false → plain_name (hex_encode bytes +:+ "-" +:+ rest).
Proof.
  intros Hs. assert (str_mem "-"%char (hex_encode bytes +:+ "-" +:+ rest) = true) as Hm.
  { rewrite !str_mem_app. apply orb_true_iff. right. apply orb_true_iff. by left. }
  split_and!; try (intros Heq; rewrite Heq in Hm; by vm_compute in Hm).
  rewrite !str_mem_app. rewrite (hex_encode_chars slash) by set_solver. cbn. done.
Qed.

Lemma upload_name_segments bytes orig suffix :
  base_ok orig → (suffix = "" ∨ plain_name suffix) → Forall (λ c, c = "" ∨ plain_name c) (segments (upload_name (hex_encode bytes) orig suffix)).
Proof.
  intros Hb Hs. assert (str_mem slash suffix = false) as Hss by (destruct Hs as [->|(_ & _ & _ & ?)]; done).
  unfold upload_name. case_decide as Ho; [|subst].
  - destruct Hb as [->|Hb].
    + replace ((hex_encode bytes +:+ "-" +:+ "/") +:+ suffix) with ((hex_encode bytes +:+ "-") +:+ "/" +:+ suffix) by (by rewrite !str_app_assoc).
      rewrite segments_app. apply Forall_app. rewrite (segments_plain (_ +:+ _)) by (rewrite str_mem_app, (hex_encode_chars slash); [done|set_solver]).
      rewrite (segments_plain suffix) by done. split; (constructor; [|constructor]); [right; by apply (dash_plain bytes "")|done].
    + replace ((hex_encode bytes +:+ "-" +:+ orig) +:+ suffix) with (hex_encode bytes +:+ "-" +:+ (orig +:+ suffix)) by (by rewrite !str_app_assoc).
      assert (plain_name (hex_encode bytes +:+ "-" +:+ (orig +:+ suffix))) as Hp by (apply dash_plain; by rewrite str_mem_app, Hb).
      rewrite segments_plain by apply Hp. constructor; [by right|constructor].
  - rewrite segments_plain by (by rewrite str_mem_app, (hex_encode_chars slash) by set_solver). constructor; [by apply token_plain|constructor].
Qed.

Section safe.
Context `{EN : engine} `{SE : search_engine} `{LE : sqlenv} `{UnicodeTables} `{AE : authenv} `{FE : uploadenv} `{OF : OsFaults}.

(** Extensions begin with a dot. *)
Class extension_laws : Prop := extension_plain : ∀ t e, e ∈ fe_ExtensionsByType t → plain_name e.

Lemma upload_suffix_plain `{extension_laws} mimeType orig : upload_suffix mimeType orig = "" ∨ plain_name (upload_suffix mimeType orig).
Proof.
  unfold upload_suffix. case_decide; [|by left]. destruct (primaryExts !! mimeType) as [ext|] eqn:He.
  - right.
    assert (Forall (λ kv, plain_name ("." +:+ kv.2)) (map_to_list primaryExts)) as Hall by (refine (bool_decide_unpack _ _); vm_compute; exact I).
    rewrite Forall_forall in Hall. by apply (Hall (mimeType, ext)), elem_of_map_to_list.
  - destruct (fe_ExtensionsByType mimeType) as [|e [|]] eqn:Hx; [by left| |by left]. right. apply (extension_plain mimeType). rewrite Hx. by left.
Qed.

(** ** What a file system looks like after an upload *)

(** No file changed or moved; at most one is new, below [d], with a part of the body in it; and
    the only new directories are on the way to it. *)
Record uploaded (o o' : os) (d : Path) (body : string) : Prop := {
  ul_keep q i : lookup_node (os_tree o) q = inl (FFile i) → lookup_node (os_tree o') q = inl (FFile i) ∧ inode_at o' i = inode_at o i;
  ul_new q i : lookup_node (os_tree o') q = inl (FFile i) → lookup_node (os_tree o) q = inl (FFile i) ∨
    i = os_next o ∧ (∃ names, names ≠ [] ∧ Forall plain_name names ∧ q = d ++ names) ∧
    ∃ rest, body = i_data (inode_at o' i) +:+ rest ∧ Z.of_nat (slen (i_data (inode_at o' i))) ≤ maxSize;
  ul_dirs q es : lookup_node (os_tree o') q = inl (FDir es) → (∃ es', lookup_node (os_tree o) q = inl (FDir es')) ∨ q `prefix_of` d;
  ul_wf : os_wf o'
}.

Lemma uploaded_refl o d body : os_wf o → uploaded o o d body.
Proof. intros Hwf. split; [done|by left|eauto|done]. Qed.

Lemma pick_file_spec n i udir orig suffix o :
  match pick_file n i udir orig suffix o with
  | (o', inr _) => o' = o
  | (o', inl (name, ino)) => ∃ bytes, name = path_Join [udir; upload_name (hex_encode bytes) orig suffix] ∧
      os_OpenExcl fe_now (path_of name) o = inl (o', ino)
  end.
Proof.
  revert i. induction n as [|n IH]; intros i; cbn; [done|]. unfold generateToken. destruct (fe_rand _ _) as [bytes|]; [|done].
  destruct (os_OpenExcl fe_now _ o) as [[o' ino]|[]] eqn:Ho; try done; [by exists bytes|apply IH].
Qed.

Lemma path_Join_nonempty a b : a ≠ "" → path_Join [a; b] ≠ "".
Proof.
  intros Ha. unfold path_Join. rewrite filter_cons_True by done. unfold Clean. destruct (IsAbs _); [done|].
  set (s := Join _ _). pose proof (path_of_cleaned s) as (k & ds & Heq & Hds & _). destruct (path_of s) as [|c l]; [done|].
  assert (c ≠ "") as Hc. { destruct k; cbn in Heq; [subst ds; inversion Hds as [|? ? Hx]; apply Hx|by injection Heq as -> _]. }
  destruct l; [done|]. rewrite Join_cons by done. by destruct c.
Qed.

(** The directory of a user, and the names below it. *)
Lemma user_path dir username : dir ≠ "" → plain_name username → path_of (path_Join [dir; username]) = path_of dir ++ [username].
Proof.
  intros Hd Hu. apply path_of_Join_plain; [done|by apply segments_plain, Hu|by apply Forall_singleton].
Qed.
Lemma upload_path `{extension_laws} udir bytes orig mimeType :
  udir ≠ "" → base_ok orig →
  ∃ names, Forall plain_name names ∧
    path_of (path_Join [udir; upload_name (hex_encode bytes) orig (upload_suffix mimeType orig)]) = path_of udir ++ names.
Proof.
  intros Hd Hb. eexists. rewrite path_of_Join by done.
  rewrite clean_names_skip by (apply upload_name_segments; [done|apply upload_suffix_plain]). rewrite reverse_involutive. split; [|done].
  apply Forall_forall. intros c [Hc Hin]%list_elem_of_filter.
  pose proof (upload_name_segments bytes orig (upload_suffix mimeType orig) Hb (upload_suffix_plain _ _)) as Hs.
  rewrite Forall_forall in Hs. by destruct (Hs c Hin).
Qed.

Lemma inode_at_write now i data o j :
  inode_at (os_write now i data o) j = if decide (i = j) then MkInode (i_data (inode_at o i) +:+ data) now else inode_at o j.
Proof. unfold inode_at at 1, os_write. cbn. case_decide; [subst; by rewrite lookup_insert_eq|by rewrite lookup_insert_ne]. Qed.

Lemma limited_prefix body : ∃ rest, body = (limited body).1 +:+ rest ∧ Z.of_nat (slen (limited body).1) ≤ maxSize.
Proof.
  unfold limited. destruct (Z.leb_spec (Z.of_nat (slen body)) maxSize); cbn.
  - exists "". by rewrite str_app_nil_r.
  - exists (str_drop (Z.to_nat maxSize) body). split; [by rewrite str_take_drop|]. rewrite slen_take. unfold maxSize in *. lia.
Qed.

Lemma mkdir_uploaded o d o1 body : os_wf o → os_MkdirAll d o = inl o1 → uploaded o o1 d body.
Proof.
  intros [Hf Hi]. unfold os_MkdirAll. destruct (os_fault OpMkdir d); [done|]. destruct (mkdir_all (os_tree o) d) as [t|] eqn:Ht; [|done].
  intros [= <-]. split; cbn.
  - intros q i Hq. split; [by eapply lookup_mkdir_file|done].
  - intros q i Hq. left. by eapply lookup_mkdir_new.
  - intros q es Hq. by eapply mkdir_all_dir.
  - split; cbn.
    + intros p i Hp. eapply Hf, lookup_mkdir_new; done.
    + intros p q i Hp Hq. eapply Hi; eapply lookup_mkdir_new; done.
Qed.

(** A new file below the directory, whatever part of the body is in it. *)
Lemma created_uploaded o o1 o2 o3 d names ino body :
  os_wf o → os_MkdirAll d o = inl o1 → os_OpenExcl fe_now (d ++ names) o1 = inl (o2, ino) → Forall plain_name names →
  os_tree o3 = os_tree o2 → os_next o3 = os_next o2 → (∀ j, j ≠ ino → inode_at o3 j = inode_at o j) →
  (∃ rest, body = i_data (inode_at o3 ino) +:+ rest ∧ Z.of_nat (slen (i_data (inode_at o3 ino))) ≤ maxSize) →
  uploaded o o3 d body.
Proof.
  intros Hwf Hmk Hop Hnames Htree Hnext Hdata Hbody. pose proof (mkdir_uploaded o d o1 body Hwf Hmk) as [Hk1 Hn1 Hd1 Hwf1].
  assert (os_next o1 = os_next o) as Hnx.
  { revert Hmk. unfold os_MkdirAll. destruct (os_fault OpMkdir d); [done|]. by destruct (mkdir_all _ _); [intros [= <-]|]. }
  assert (∃ es, lookup_node (os_tree o1) d = inl (FDir es)) as [es Hes].
  { revert Hmk. unfold os_MkdirAll. destruct (os_fault OpMkdir d); [done|]. destruct (mkdir_all _ _) as [t|] eqn:Ht; [|done].
    intros [= <-]. by eapply lookup_mkdir_all. }
  destruct (os_OpenExcl_spec _ _ _ _ _ Hop) as (Hnone & -> & Hput & _ & Hnx2). rewrite <-Htree in Hput.
  pose proof (lookup_put_eq _ _ _ _ Hput) as Hat.
  assert (names ≠ []) as Hne by (intros ->; rewrite app_nil_r in Hnone; congruence).
  assert (∀ q j, lookup_node (os_tree o3) q = inl (FFile j) → q = d ++ names ∧ j = os_next o1 ∨ lookup_node (os_tree o1) q = inl (FFile j)) as Hfiles.
  { intros q j Hq. destruct (decide (q = d ++ names)) as [->|Hqn]; [left; split; congruence|right; by apply (put_new_files _ _ _ _ _ _ Hnone Hput)]. }
  destruct Hwf1 as [Hf Hi]. split.
  - intros q i Hq. destruct (Hk1 q i Hq) as [Hq1 _]. pose proof (Hf _ _ Hq1). split; [|apply Hdata; lia].
    apply (put_new_files _ _ _ _ _ _ Hnone Hput); [intros ->; congruence|done].
  - intros q i Hq. destruct (Hfiles q i Hq) as [[-> ->]|Hq1]; [right|].
    + split_and!; [done|by exists names|done].
    + destruct (Hn1 q i Hq1) as [|(-> & _)]; [by left|]. pose proof (Hf _ _ Hq1). lia.
  - intros q es' Hq. destruct (put_new_dirs _ _ _ _ _ _ Hput Hq) as [es1 Hq1]. by eapply Hd1.
  - split.
    + intros p i Hp. rewrite Hnext, Hnx2. destruct (Hfiles p i Hp) as [[_ ->]|Hp1]; [lia|]. pose proof (Hf _ _ Hp1). lia.
    + intros p q i Hp Hq. destruct (Hfiles p i Hp) as [[-> ->]|Hp1], (Hfiles q _ Hq) as [[-> ?]|Hq1]; subst;
        [done|pose proof (Hf _ _ Hq1); lia|pose proof (Hf _ _ Hp1); lia|by eapply Hi].
Qed.

Lemma os_MkdirAll_inode d o o1 j : os_MkdirAll d o = inl o1 → inode_at o1 j = inode_at o j.
Proof.
  unfold os_MkdirAll. destruct (os_fault OpMkdir d); [done|]. by destruct (mkdir_all _ _); [intros [= <-]|].
Qed.

Lemma os_MkdirAll_next d o o1 : os_MkdirAll d o = inl o1 → os_next o1 = os_next o.
Proof.
  unfold os_MkdirAll. destruct (os_fault OpMkdir d); [done|]. by destruct (mkdir_all _ _); [intros [= <-]|].
Qed.

Lemma os_MkdirAll_dir d o o1 : os_MkdirAll d o = inl o1 → ∃ es, lookup_node (os_tree o1) d = inl (FDir es).
Proof.
  unfold os_MkdirAll. destruct (os_fault OpMkdir d); [done|]. destruct (mkdir_all _ _) as [t|] eqn:Ht; [|done].
  intros [= <-]. by eapply lookup_mkdir_all.
Qed.

Lemma fs_store_spec `{extension_laws} dir body broken username mimeType orig o :
  os_wf o → dir ≠ "" → base_ok orig →
  let udir := path_of (path_Join [dir; username]) in
  let '(o', r) := fs_store dir body broken username mimeType orig o in
  uploaded o o' udir body ∧
  ∀ out, r = inl out → Z.of_nat (slen body) ≤ maxSize ∧ ∃ bytes name ino,
    name = path_Join [path_Join [dir; username]; upload_name (hex_encode bytes) orig (upload_suffix mimeType orig)] ∧
    out = PathEscape username +:+ "/" +:+ PathEscape (path_Base name) ∧
    (∃ names, names ≠ [] ∧ Forall plain_name names ∧ path_of name = udir ++ names) ∧
    lookup_node (os_tree o') (path_of name) = inl (FFile ino) ∧ inode_at o' ino = MkInode body fe_now ∧ ino = os_next o.
Proof.
  intros Hwf Hd Hb udir. unfold fs_store. fold udir.
  destruct (os_MkdirAll _ o) as [o1|e] eqn:Hmk; [|split; [by apply uploaded_refl|done]].
  pose proof (pick_file_spec 100 0 (path_Join [dir; username]) orig (upload_suffix mimeType orig) o1) as Hpick.
  destruct (pick_file 100 0 _ _ _ o1) as [o2 [[name ino]|e]]; [|subst o2; split; [by eapply mkdir_uploaded|done]].
  destruct Hpick as (bytes & -> & Hop). set (name := path_Join [path_Join _; _]) in *.
  assert (path_Join [dir; username] ≠ "") as Hne by (by apply path_Join_nonempty).
  destruct (upload_path (path_Join [dir; username]) bytes orig mimeType Hne Hb) as (names & Hnames & Hp). fold name in Hp.
  fold udir in Hp. pose proof Hop as Hop'. rewrite Hp in Hop'.
  destruct (os_OpenExcl_spec _ _ _ _ _ Hop) as (Hnone & Hino & Hput & Hinodes & _).
  assert (names ≠ []) as Hnn.
  { intros ->. rewrite Hp, app_nil_r in Hnone. destruct (os_MkdirAll_dir _ _ _ Hmk) as [es Hes]. congruence. }
  assert (inode_at o2 ino = MkInode "" fe_now) as Hnew by (unfold inode_at; rewrite Hinodes; by rewrite lookup_insert_eq).
  assert (∀ j, j ≠ ino → inode_at o2 j = inode_at o j) as Hold.
  { intros j Hj. rewrite <-(os_MkdirAll_inode _ _ _ j Hmk). unfold inode_at. rewrite Hinodes. by rewrite lookup_insert_ne. }
  destruct (os_fault OpWrite (path_of name)).
  { split; [|done]. eapply created_uploaded; try done. exists body. rewrite Hnew. cbn. split; [done|unfold maxSize; lia]. }
  destruct (limited_prefix body) as (rest & Hrest & Hlen). destruct (limited body) as [data over] eqn:Hl. cbn [fst] in *.
  assert (uploaded o (os_write fe_now ino data o2) udir body) as Hup.
  { eapply created_uploaded; try done.
    - intros j Hj. rewrite inode_at_write, decide_False by done. by apply Hold.
    - exists rest. rewrite inode_at_write, decide_True, Hnew by done. cbn. done. }
  destruct over; [split; [done|by intros]|]. destruct broken; [split; [done|by intros]|].
  destruct (fe_close (path_of name)); [split; [done|by intros]|]. split; [done|]. intros out [= <-].
  unfold limited in Hl. destruct (Z.leb_spec (Z.of_nat (slen body)) maxSize); [|done]. injection Hl as <-. split; [done|].
  exists bytes, name, ino. split_and!; [done|done|by exists names|by eapply lookup_put_eq| |].
  - rewrite inode_at_write, decide_True, Hnew by done. done.
  - rewrite Hino. by apply (os_MkdirAll_next _ _ _ Hmk).
Qed.

(** ** The handler *)

(** The request authenticates as a user. *)
Definition credentials (h : Handler) (req : uploadRequest) (username : string) (d d' : sqlState) : Prop :=
  (∃ plain name password, Plain (hAuth h) = Some plain ∧ parseBasicAuth (uqAuthorization req) = Some (name, password) ∧
     username = account_name name ∧ AuthPlain plain (Some (uqRemoteAddr req)) username password d = (d', Ok None)) ∨
  (∃ oauth token, OAuthBearer (hAuth h) = Some oauth ∧ AuthOAuthBearer oauth (Some (uqRemoteAddr req)) token = inl username ∧ d' = d ∧
     ∃ scheme, default (uqAuthorization req, "") (Cut (uqAuthorization req) " ") = (scheme, token)).

Lemma upload_user_spec h req s :
  let '(s', r) := upload_user h req s in
  up_os s' = up_os s ∧ up_out s' = up_out s ∧
  (∀ u, r = Ok (inl u) → credentials h req u (up_db s) (up_db s')) ∧ (∀ e code, r = Ok (inr (e, code)) → code ≠ 201).
Proof.
  unfold upload_user. case_decide; [by split_and!; intros; simplify_eq|].
  destruct (default _ (Cut _ _)) as [scheme param] eqn:Hcut. case_decide.
  - destruct (Plain (hAuth h)) as [plain|] eqn:Hp; [|by split_and!; intros; simplify_eq].
    destruct (parseBasicAuth _) as [[name password]|] eqn:Hb; [|by split_and!; intros; simplify_eq].
    unfold up_sql, mbind, M_bind. destruct (AuthPlain plain _ (account_name name) password (up_db s)) as [d [[e|]|e|w]] eqn:Ha; cbn;
      split_and!; try done; intros; simplify_eq; try (by destruct e).
    left. by exists plain, name, password.
  - case_decide; [|by split_and!; intros; simplify_eq].
    destruct (OAuthBearer (hAuth h)) as [oauth|] eqn:Ho; [|by split_and!; intros; simplify_eq].
    destruct (AuthOAuthBearer oauth _ param) as [username|e] eqn:Ha; split_and!; try done; intros; simplify_eq; try (by destruct e).
    right. exists oauth, param. split_and!; [done..|by exists scheme].
Qed.

(** A response that sends no file. *)
Definition status (s : upState) : option Z := fst <$> up_out s.
Definition unserved (s : upState) : Prop := ∀ code name t data, up_out s ≠ Some (code, Served name t data).

Lemma http_Error_spec error code s :
  ∃ hd, http_Error error code s = (MkUp (up_db s) (up_os s) hd (Some (code, Text (error +:+ line_end))), Ok tt).
Proof. by eexists. Qed.

Lemma fs_store_error dir body broken username mimeType orig o o' e :
  fs_store dir body broken username mimeType orig o = (o', inr e) → e = UploadError ∨ e = MaxBytesError.
Proof.
  assert (∀ n i udir suffix o o' e, pick_file n i udir orig suffix o = (o', inr e) → e = UploadError) as Hpick.
  { induction n as [|n IH]; intros i udir suffix o1 o1' e1; cbn; [by intros [= _ <-]|].
    destruct (generateToken i _); [|by intros [= _ <-]]. destruct (os_OpenExcl _ _ o1) as [[]|[]]; try by intros [= _ <-]. apply IH. }
  unfold fs_store. destruct (os_MkdirAll _ o) as [o1|]; [|intros [= _ <-]; by left].
  destruct (pick_file _ _ _ _ _ o1) as [o2 [[name ino]|e2]] eqn:Hp; [|intros [= _ <-]; left; by eapply Hpick].
  destruct (limited body) as [data []]; repeat case_match; intros; simplify_eq; auto.
Qed.

Lemma handle_store_spec h dir req s :
  up_out s = None →
  let '(s', r) := handle_store h (UploaderFS dir) req s in
  unserved s' ∧
  ((up_os s' = up_os s ∧ status s' ≠ Some 201) ∨
   ∃ username mimeType basename res, credentials h req username (up_db s) (up_db s') ∧
     upload_type req = inl mimeType ∧ upload_basename req = inl basename ∧
     fs_store dir (uqBody req) (uqBroken req) username mimeType basename (up_os s) = (up_os s', res) ∧
     (status s' = Some 201 → ∃ out, res = inl out ∧ up_header s' !! "Location" = fe_resolve out ∧ is_Some (fe_resolve out))).
Proof.
  intros Hout. unfold handle_store. case_decide; [by split; [|left]|].
  pose proof (upload_user_spec h req s) as Hu. unfold mbind, M_bind.
  destruct (upload_user h req s) as [s1 [[username|[error code]]|e|w]]; destruct Hu as (Ho & Hn & Hc & He).
  2: { split; [done|]. left. split; [done|]. cbn. intros [= Hcode]. by apply (He error code). }
  2,3: split; [intros ???? Hx; by rewrite Hn, Hout in Hx|left; split; [done|by unfold status; rewrite Hn, Hout]].
  specialize (Hc username eq_refl). clear He.
  assert (∀ e code s2, code ≠ 201 → up_os s2 = up_os s → unserved (http_Error e code s2).1 ∧
    up_os (http_Error e code s2).1 = up_os s ∧ status (http_Error e code s2).1 ≠ Some 201) as Herr by (by intros ?????; split_and!; [..|intros [= ->]]).
  destruct (upload_type req) as [mimeType|[e c]] eqn:Hty.
  2: { assert (c ≠ 201) by (revert Hty; unfold upload_type; repeat case_match; intros; by simplify_eq). split; [by apply Herr|left; by apply Herr]. }
  destruct (upload_basename req) as [basename|[e c]] eqn:Hba.
  2: { assert (c ≠ 201) by (revert Hba; unfold upload_basename; repeat case_match; intros; by simplify_eq). split; [by apply Herr|left; by apply Herr]. }
  unfold store_file. destruct (maxSize <? uqContentLength req); [split; [done|left; by split]|]. cbn [store].
  destruct (fs_store _ _ _ _ _ _ _) as [o res] eqn:Hst. rewrite Ho in Hst. pose proof Hst as Hst'.
  destruct res as [out|e]; [destruct (fe_resolve out) as [loc|] eqn:Hr|destruct (fs_store_error _ _ _ _ _ _ _ _ _ Hst) as [->| ->]];
    (split; [done|right; eexists _, _, _, _; split_and!; [exact Hc|done|done|exact Hst'|]]); try done.
  intros _. exists out. rewrite Hr. split_and!; [done|cbn; by rewrite lookup_insert_eq|done].
Qed.

(** Only the headers change before a request is looked at. *)
Definition same_but_headers (s s' : upState) : Prop := up_db s' = up_db s ∧ up_os s' = up_os s ∧ up_out s' = up_out s.

Lemma checkOrigin_pure l origin s : ∃ r, checkOrigin l origin s = (s, r).
Proof.
  induction l as [|o l IH]; cbn; [by eexists|]. destruct (fe_Match o origin) as [[]|]; [by eexists|done|by eexists].
Qed.
Lemma setCORS_spec h req s : same_but_headers s (setCORS h req s).1.
Proof.
  unfold setCORS. unfold setHeader, mbind, M_bind, modify. case_decide; [done|]. destruct (fe_ParseHost _); [|done].
  destruct (EqualFold _ _); [done|]. destruct (checkOrigin_pure (hHTTPOrigins h) s0
    (MkUp (up_db s) (up_os s) (<["Access-Control-Expose-Headers" := "Location, Content-Disposition"]>
      (<["Access-Control-Allow-Headers" := "Authorization, Content-Type, Content-Disposition"]>
        (<["Access-Control-Allow-Credentials" := "true"]> (up_header s)))) (up_out s))) as [r Hr].
  cbn in *. rewrite Hr. by destruct r as [[]| |].
Qed.

(** The names that a request for a file walks through. *)
Definition request_names (req : uploadRequest) : list string := clean_names true [] (segments (TrimPrefix (uqPath req) "/uploads/")).

Lemma request_names_plain req : Forall plain_name (request_names req).
Proof.
  destruct (clean_names_cleaned true [] (segments (TrimPrefix (uqPath req) "/uploads/"))) as (k & ds & Heq & Hds & Hk).
  - apply segments_noslash.
  - by exists 0%nat, [].
  - unfold request_names. rewrite Heq, Hk by done. exact Hds.
Qed.

Lemma fetch_filename req : str_drop 1 (path_Join ["/"; TrimPrefix (uqPath req) "/uploads/"]) = Join (request_names req) "/".
Proof.
  unfold request_names. set (x := TrimPrefix _ _). unfold path_Join. rewrite filter_cons_True by done.
  destruct (decide (x = "")) as [->|Hx]; [done|]. rewrite filter_cons_True by done. change (filter _ []) with (@nil string).
  change (Join ["/"; x] "/") with ("/" +:+ ("/" +:+ x)). unfold Clean. rewrite IsAbs_slash, path_of_slash.
  change (str_drop 1 ("/" +:+ ?y)) with y. done.
Qed.

Lemma fetch_spec dir req s :
  dir ≠ "" → up_out s = None →
  let '(s', r) := fetch (UploaderFS dir) req s in
  up_db s' = up_db s ∧ up_os s' = up_os s ∧
  ∀ code name t data, up_out s' = Some (code, Served name t data) →
    request_names req ≠ [] ∧ fs_load dir (Join (request_names req) "/") (up_os s) = inl (name, t, data) ∧
    ∃ i, lookup_node (os_tree (up_os s)) (path_of dir ++ request_names req) = inl (FFile i) ∧ inode_at (up_os s) i = MkInode data t.
Proof.
  intros Hd Hout. unfold fetch. destruct (negb _); [done|]. rewrite fetch_filename.
  destruct (decide (request_names req = [])) as [Hnil|Hne]; [by rewrite Hnil, decide_True|].
  case_decide as Hj; [done|]. rewrite bind_gets. cbn [load].
  destruct (fs_load dir _ (up_os s)) as [[[name t] data]|[]] eqn:Hl; try done; [|by unfold httpError_Write; destruct (bool_decide _)].
  assert (∃ i, lookup_node (os_tree (up_os s)) (path_of dir ++ request_names req) = inl (FFile i) ∧ inode_at (up_os s) i = MkInode data t) as Hi.
  { revert Hl. unfold fs_load, os_Open.
    rewrite (path_of_Join_plain dir _ (request_names req)) by
      (first [done|apply request_names_plain|apply segments_Join; [done|eapply Forall_impl; [apply request_names_plain|intros c Hc; apply Hc]]]).
    destruct (os_fault OpOpen _); [done|]. destruct (lookup_node _ _) as [[i|]|]; [| |done].
    - destruct (os_fault OpStat _); [done|]. intros [= _ <- <-]. exists i. by destruct (inode_at _ _).
    - by destruct (os_fault OpStat _). }
  match goal with |- context [when ?b _] => destruct b end; cbn; split_and!; try done; intros ???? [= _ <- <- <-]; done.
Qed.

(** A request is refused at once, or fetches a file, or stores one. *)
Lemma ServeHTTP_run h u req s :
  hUploader h = Some u → up_out s = None →
  ∃ s2, same_but_headers s s2 ∧
    let '(s', r) := upload_ServeHTTP h req s in
    (up_db s' = up_db s ∧ up_os s' = up_os s ∧ unserved s' ∧ status s' ≠ Some 201) ∨
    (uqMethod req ∈ ["HEAD"; "GET"] ∧ upload_ServeHTTP h req s = fetch u req s2) ∨
    (uqMethod req = "POST" ∧ upload_ServeHTTP h req s = handle_store h u req s2).
Proof.
  intros Hup Hout. unfold upload_ServeHTTP. set (s1 := MkUp (up_db s) (up_os s)
    (<["Content-Security-Policy" := "sandbox; default-src 'none'; script-src 'none'; media-src 'self';"]> (up_header s)) (up_out s)).
  erewrite (bind_run _ _ s s1) by reflexivity. pose proof (setCORS_spec h req s1) as Hcors. unfold mbind, M_bind.
  destruct (setCORS h req s1) as [s2 [[e|]|e|w]]; destruct Hcors as (H1 & H2 & H3); cbn [fst] in *; subst s1; cbn in H1, H2, H3;
    exists s2; (split; [done|]).
  1: by left.
  2,3: left; split_and!; try done; [by intros ????; rewrite H3, Hout|by unfold status; rewrite H3, Hout].
  rewrite Hup. repeat case_decide; [by left| | |by left].
  - destruct (fetch u req s2) eqn:Hf. right; left. by split.
  - destruct (handle_store h u req s2) eqn:Hf. right; right. by split.
Qed.

(** Without an origin a GET is a fetch. *)
Lemma ServeHTTP_get h u req s :
  hUploader h = Some u → uqMethod req = "GET" → uqOrigin req = "" →
  ∃ s2, same_but_headers s s2 ∧ upload_ServeHTTP h req s = fetch u req s2.
Proof.
  intros Hup Hm Ho. unfold upload_ServeHTTP, setCORS. rewrite Hm, Hup, Ho.
  eexists (MkUp (up_db s) (up_os s) _ (up_out s)). split; [done|reflexivity].
Qed.

Lemma upload_basename_ok req b : upload_basename req = inl b → base_ok b.
Proof.
  unfold upload_basename. case_decide; [intros [= <-]; by right|]. repeat case_match; [done|]. intros [= <-]. apply path_Base_ok.
Qed.

(** C28: Uploads stay in their directory. With the file system behind it, a request that is not a
    POST changes nothing; the only files it is sent are those below the upload directory, at
    the plain names its path walks through, however many dots and slashes it holds. A POST
    changes something only with credentials that a back end accepted, and then no file that was
    there before changes: at most one new file, of at most 50 MiB of the body, appears below the
    directory that the upload directory and the name of that user, joined, make. That is the
    user's own directory below the upload directory when the name is one path element (not
    empty, [.] or [..], and without a slash), which the code does not check: for [..] see
    [upload_escapes]. *)
Theorem uploads_confined `{extension_laws} h dir req s :
  hUploader h = Some (UploaderFS dir) → dir ≠ "" → os_wf (up_os s) → up_out s = None →
  let s' := (upload_ServeHTTP h req s).1 in
  (∀ code name t data, up_out s' = Some (code, Served name t data) → uqMethod req ≠ "POST" ∧ request_names req ≠ [] ∧
     ∃ i, lookup_node (os_tree (up_os s)) (path_of dir ++ request_names req) = inl (FFile i) ∧ inode_at (up_os s) i = MkInode data t) ∧
  ((up_db s' = up_db s ∧ up_os s' = up_os s) ∨ uqMethod req = "POST" ∧ up_os s' = up_os s ∨
   uqMethod req = "POST" ∧ ∃ username, credentials h req username (up_db s) (up_db s') ∧
     uploaded (up_os s) (up_os s') (path_of (path_Join [dir; username])) (uqBody req) ∧
     (plain_name username → path_of (path_Join [dir; username]) = path_of dir ++ [username])).
Proof.
  intros Hup Hd Hwf Hout. destruct (ServeHTTP_run h _ req s Hup Hout) as (s2 & (H1 & H2 & H3) & Hrun). rewrite Hout in H3. cbn zeta.
  destruct (upload_ServeHTTP h req s) as [s' r]. cbn [fst].
  destruct Hrun as [(Hdb & Hos & Huns & _)|[[Hm Hf]|[Hm Hs]]].
  - split; [intros ???? Hx; by apply Huns in Hx|by left].
  - pose proof (fetch_spec dir req s2 Hd H3) as Hspec. rewrite <-Hf in Hspec. destruct Hspec as (Hdb & Hos & Hserved).
    rewrite H1 in Hdb. rewrite H2 in Hos, Hserved. split; [|by left]. intros code name t data Hs.
    destruct (Hserved _ _ _ _ Hs) as (? & _ & ?). split_and!; [|done..]. intros Hp. rewrite Hp in Hm. set_solver.
  - pose proof (handle_store_spec h dir req s2 H3) as Hspec. rewrite <-Hs in Hspec. destruct Hspec as [Huns Hspec].
    split; [intros ???? Hx; by apply Huns in Hx|]. rewrite H1, H2 in Hspec.
    destruct Hspec as [[Hos _]|(username & mimeType & basename & res & Hc & _ & Hb & Hst & _)]; [by right; left|].
    right; right. split; [done|]. exists username. split; [done|]. split; [|by apply user_path].
    pose proof (fs_store_spec dir (uqBody req) (uqBroken req) username mimeType basename (up_os s) Hwf Hd (upload_basename_ok _ _ Hb)) as Hspec.
    rewrite Hst in Hspec. apply Hspec.
Qed.

(** ** What was stored is served *)

Lemma fs_load_plain dir username fname o i :
  dir ≠ "" → plain_name username → plain_name fname → (∀ op p, os_fault op p = false) →
  lookup_node (os_tree o) (path_of dir ++ [username; fname]) = inl (FFile i) →
  fs_load dir (Join [username; fname] "/") o =
  inl (match IndexByte fname "-" with Some k => str_drop (S k) fname | None => fname end, i_mtime (inode_at o i), i_data (inode_at o i)).
Proof.
  intros Hd Hu Hf Hnf Hl. unfold fs_load, os_Open.
  assert (Forall plain_name [username; fname]) as Hpl by (by apply Forall_cons; split; [|apply Forall_singleton]).
  rewrite (path_of_Join_plain dir _ [username; fname]) by
    (first [done|apply segments_Join; [done|eapply Forall_impl; [exact Hpl|intros c Hc; apply Hc]]]).
  rewrite !Hnf, Hl. change (Join [username; fname] "/") with (username +:+ "/" +:+ fname). by rewrite path_Base_app.
Qed.

Lemma fetch_plain dir username fname req s i :
  dir ≠ "" → plain_name username → plain_name fname → (∀ op p, os_fault op p = false) →
  uqPath req = "/uploads/" +:+ username +:+ "/" +:+ fname →
  lookup_node (os_tree (up_os s)) (path_of dir ++ [username; fname]) = inl (FFile i) →
  up_out (fetch (UploaderFS dir) req s).1 =
  Some (200, Served (match IndexByte fname "-" with Some k => str_drop (S k) fname | None => fname end)
               (i_mtime (inode_at (up_os s) i)) (i_data (inode_at (up_os s) i))).
Proof.
  intros Hd Hu Hf Hnf Hp Hl. unfold fetch. rewrite fetch_filename.
  assert (Forall plain_name [username; fname]) as Hpl by (by apply Forall_cons; split; [|apply Forall_singleton]).
  assert (HasPrefix (uqPath req) "/uploads/" = true) as Hpre by (apply HasPrefix_spec; by eexists).
  assert (request_names req = [username; fname]) as ->.
  { unfold request_names, TrimPrefix. rewrite Hpre, Hp. change (str_drop _ _) with (username +:+ "/" +:+ fname).
    rewrite segments_app, !segments_plain by (first [apply Hu|apply Hf]). by apply (clean_names_plain true []). }
  rewrite Hpre. cbn [negb]. rewrite decide_False by (change (Join [username; fname] "/") with (username +:+ "/" +:+ fname); by destruct username).
  rewrite bind_gets. cbn [load]. erewrite fs_load_plain by done.
  match goal with |- context [when ?b _] => destruct b end; done.
Qed.

(** The name of a new file, when the client gave a name that is not a slash. *)
Lemma upload_file_name `{extension_laws} dir username bytes orig mimeType name :
  dir ≠ "" → plain_name username → base_ok orig → orig ≠ "/" →
  let fname := upload_name (hex_encode bytes) orig (upload_suffix mimeType orig) in
  name = path_Join [path_Join [dir; username]; fname] →
  (∃ names, names ≠ [] ∧ Forall plain_name names ∧ path_of name = (path_of dir ++ [username]) ++ names) →
  plain_name fname ∧ path_Base name = fname ∧ path_of name = path_of dir ++ [username; fname].
Proof.
  intros Hd Hu [|Hb] Hs fname -> (names & Hne & _ & Hp); [done|].
  assert (path_Join [dir; username] ≠ "") as Hud by (by apply path_Join_nonempty).
  pose proof (upload_suffix_plain mimeType orig) as Hsuf.
  assert (str_mem slash fname = false) as Hslash.
  { assert (str_mem slash (upload_suffix mimeType orig) = false) as Hss by (destruct Hsuf as [->|(_ & _ & _ & ?)]; done).
    unfold fname, upload_name. rewrite str_mem_app, Hss, orb_false_r. case_decide; [|by rewrite hex_encode_chars by set_solver].
    rewrite !str_mem_app, Hb, orb_false_r, (hex_encode_chars slash) by set_solver. done. }
  pose proof (upload_name_segments bytes orig _ (or_intror Hb) Hsuf) as Hseg. fold fname in Hseg.
  rewrite segments_plain in Hseg by done. apply Forall_singleton in Hseg as [He|Hf].
  { rewrite He, path_of_Join in Hp by done. cbn in Hp. rewrite reverse_involutive, user_path in Hp by done.
    destruct Hne. apply (app_inv_head (path_of dir ++ [username])). by rewrite app_nil_r. }
  split_and!; [done|by apply path_Base_Join|].
  rewrite (path_of_Join_plain _ fname [fname]) by (first [done|by apply segments_plain|by apply Forall_singleton]).
  rewrite user_path by done. by rewrite <-app_assoc.
Qed.

Lemma str_drop_after a c b : str_drop (S (slen a)) (a +:+ String c b) = b.
Proof. induction a as [|x a IH]; [done|]. exact IH. Qed.

End safe.

(** * Uploads evaluated

    An upload and a download of a bouncer with two users, and two uploads whose names turn out
    otherwise than meant. *)

Definition upload_demo_env : uploadenv := {|
  fe_Match p s := Some (bool_decide (p = s));
  fe_ParseHost s := Some s;
  fe_TypeByExtension e := if decide (e = ".txt") then "text/plain; charset=utf-8" else "";
  fe_ExtensionsByType t := if decide (t = "application/zip") then [".zip"] else [];
  fe_DetectContentType _ := "application/octet-stream";
  fe_ParseMediaType s :=
    if decide (s = "attachment; filename=notes.txt") then ("attachment", {["filename" := "notes.txt"]}, false)
    else if decide (s = "text/plain; charset=utf-8") then ("text/plain", {["charset" := "utf-8"]}, false) else (s, ∅, false);
  fe_FormatMediaType mode name := mode +:+ "; filename=" +:+ name;
  fe_resolve out := Some ("/uploads/" +:+ out);
  fe_rand _ n := inl (str_take n "abcdefgh");
  fe_now := 5; fe_close _ := false; fe_NewRequest _ := None; fe_Do _ _ _ := inr UploadError
|}.
Definition token_demo_env : authenv := {|
  ae_compare h p := if decide (str_drop 2 h = p) then None else Some (Errorf "mismatch");
  ae_cost h := inl 10; ae_generate p := inl ("9$" +:+ p); ae_NewRequest _ := None; ae_Do _ := inl (MkResponse 200 "{}");
  ae_introspection _ := inl (true, ".."); ae_server _ := inr (Errorf "json");
  ae_ParseURL _ := inr (Errorf "url"); ae_URLString _ := ""; ae_JoinPath a b := a +:+ b; ae_QueryEscape s := s; ae_pam := None
|}.

#[local] Existing Instances latin1_tables demo_search demo_codec upload_demo_env token_demo_env.
#[local] Instance upload_no_faults : OsFaults := no_faults.
#[local] Instance upload_demo_engine : engine := demo_engine None.

Lemma upload_demo_extensions : extension_laws.
Proof.
  intros t e. cbn. case_decide; [|by intros Hn%not_elem_of_nil]. intros ->%list_elem_of_singleton.
  refine (bool_decide_unpack _ _). vm_compute. exact I.
Qed.

Definition upload_handler : Handler :=
  MkHandler (Some (UploaderFS "/var/uploads"))
    (MkAuthenticator (Some PlainInternal) (Some (MkOAuth2 (MkAuthURL None "" "") "" ""))) [].
Definition upload_state : upState :=
  MkUp (MkSql demo_users 0) (MkOs (FDir [("secret", FFile 0%nat); ("var", FDir [])]) {[0%nat := MkInode "secret" 1]} 1%nat) ∅ None.
Definition post (authz contentType disposition body : string) : uploadRequest :=
  MkUploadReq "POST" "irc.example.org" "/uploads" "192.0.2.1:4000" "" authz contentType disposition (Z.of_nat (slen body)) body false.
Definition get (path : string) : uploadRequest :=
  MkUploadReq "GET" "irc.example.org" path "192.0.2.1:4000" "" "" "" "" 0 "" false.
Definition basic_alice : string := "Basic " +:+ EncodeToString "alice/libera@phone:sesame".
Definition notes : uploadRequest := post basic_alice "" "attachment; filename=notes.txt" "hello".

Lemma upload_state_wf : os_wf (up_os upload_state).
Proof.
  assert (∀ p i, lookup_node (os_tree (up_os upload_state)) p = inl (FFile i) → p = ["secret"] ∧ i = 0%nat) as Hone.
  { intros [|c p] i; [done|]. cbn. repeat case_decide; subst; [|destruct p; done|done]. destruct p; [|done]. by intros [= <-]. }
  split; [intros p i Hp; destruct (Hone _ _ Hp) as [_ ->]; cbn; lia|].
  intros p q i [-> _]%Hone [-> _]%Hone. done.
Qed.

Lemma alice_uploads :
  let s' := (upload_ServeHTTP upload_handler notes upload_state).1 in
  up_out s' = Some (201, NoContent) ∧ up_header s' !! "Location" = Some "/uploads/alice/61626364-notes.txt" ∧
  up_out (upload_ServeHTTP upload_handler (get "/uploads/bob/.././/alice/61626364-notes.txt") (MkUp (up_db s') (up_os s') ∅ None)).1
    = Some (200, Served "notes.txt" 5 "hello").
Proof. by vm_compute. Qed.

Lemma uploads_confined_witness :
  up_out (upload_ServeHTTP upload_handler (get "/uploads/../../../secret") upload_state).1 = Some (404, Text "file not found") ∧
  up_os (upload_ServeHTTP upload_handler (get "/uploads/../../../secret") upload_state).1 = up_os upload_state.
Proof.
  split; [by vm_compute|].
  destruct (uploads_confined (H0 := upload_demo_extensions) upload_handler "/var/uploads" (get "/uploads/../../../secret") upload_state
    eq_refl ltac:(discriminate) upload_state_wf eq_refl) as [_ [[_ Hos]|[[Hm _]|[Hm _]]]]; [exact Hos|discriminate Hm|discriminate Hm].
Defined.


(** The name of the user is joined to the upload directory as it is: a token for a user called
    [..] stores files beside the directory. *)
Lemma upload_escapes :
  let s' := (upload_ServeHTTP upload_handler (post "Bearer token" "" "attachment; filename=notes.txt" "hello") upload_state).1 in
  up_out s' = Some (201, NoContent) ∧ lookup_node (os_tree (up_os s')) ["var"; "61626364-notes.txt"] = inl (FFile 1%nat).
Proof. by vm_compute. Qed.

(** A Content-Disposition header without a file name makes the name a dot: the file has a short
    token and, in spite of its media type, no ending. *)
Lemma upload_without_name :
  let s' := (upload_ServeHTTP upload_handler (post basic_alice "text/plain; charset=utf-8" "inline" "hello") upload_state).1 in
  up_header s' !! "Location" = Some "/uploads/alice/61626364-.".
Proof. by vm_compute. Qed.
