(* ===== verification/Conn.v ===== *)
(** * Connections (conn.go)

    A connection is shared by the goroutine that writes its messages and by any number of
    goroutines that send messages, shut it down or close it. Each of them is a program counter,
    and a run is any interleaving of their steps: an access to the atomic flag, a channel
    operation, a write. Which case a select takes, whether a write succeeds and when a context
    ends are choices of the run. *)

From S2P Require Import Prelude GoStrings IrcMessage.

Open Scope string_scope.
Open Scope list_scope.

(** Where a goroutine is in [SendMessage], [Shutdown] or [Close]. *)
Inductive pc :=
| SendCheck (m : Message) | SendSelect (m : Message)
| ShutdownCheck | ShutdownSelect
| CloseSwap | CloseConn | CloseChannel
| Returned.

(** The writing goroutine, in its loop or in the [Close] after it. *)
Inductive wpc := WSelect | WLimit (m : Message) | WWrite (m : Message) | WSwap | WConn | WChannel | WReturned.

(** Why it left the loop. *)
Inductive cause := GotNil | SawClosed | LimitFailed (m : Message) | WriteFailed (m : Message).

(** The fields of [conn]; the messages queued so far, those written, and why the writer stopped
    are the history of the run. [None] in the queue is nil. *)
Record conn := MkConn {
  c_closed : bool; c_closedCh : bool; c_socketClosed : bool; c_outgoing : list (option Message); c_writer : wpc;
  c_panicked : bool; c_queued : list (option Message); c_written : list Message; c_cause : option cause
}.

Definition set_closed (b : bool) (c : conn) : conn :=
  MkConn b (c_closedCh c) (c_socketClosed c) (c_outgoing c) (c_writer c) (c_panicked c) (c_queued c) (c_written c) (c_cause c).
Definition set_writer (w : wpc) (c : conn) : conn :=
  MkConn (c_closed c) (c_closedCh c) (c_socketClosed c) (c_outgoing c) w (c_panicked c) (c_queued c) (c_written c) (c_cause c).

Definition outgoingSize : nat := 64.

(** [newConn], with its writer started. *)
Definition newConn : conn := MkConn false false false [] WSelect false [] [] None.

(** The choices of a run. *)
Inductive choice := TakeQueue | TakeClosed | TakeContext | Succeed | Failing.
#[export] Instance choice_eq_dec : EqDecision choice.
Proof. solve_decision. Defined.

(** A send on the channel, when it has room. *)
Definition enqueue (m : option Message) (c : conn) : option conn :=
  if (length (c_outgoing c) <? outgoingSize)%nat
  then Some (MkConn (c_closed c) (c_closedCh c) (c_socketClosed c) (c_outgoing c ++ [m]) (c_writer c) (c_panicked c)
               (c_queued c ++ [m]) (c_written c) (c_cause c))
  else None.

(** The three parts of [Close]: whether it was closed already, the socket, the channel; closing
    the channel again panics. *)
Definition close_socket (c : conn) : conn :=
  MkConn (c_closed c) (c_closedCh c) true (c_outgoing c) (c_writer c) (c_panicked c) (c_queued c) (c_written c) (c_cause c).
Definition close_channel (c : conn) : conn :=
  MkConn (c_closed c) true (c_socketClosed c) (c_outgoing c) (c_writer c) (c_panicked c || c_closedCh c) (c_queued c) (c_written c) (c_cause c).

(** One step of a goroutine other than the writer; [None] when it has to wait, has returned, or
    has no such choice. *)
Definition caller_step (p : pc) (ch : choice) (c : conn) : option (conn * pc) :=
  match p with
  | SendCheck m => match ch with Succeed => Some (c, if c_closed c then Returned else SendSelect m) | _ => None end
  | SendSelect m =>
    match ch with
    | TakeQueue => (λ c', (c', Returned)) <$> enqueue (Some m) c
    | TakeClosed => if c_closedCh c then Some (c, Returned) else None
    | TakeContext => Some (c, Returned)
    | _ => None
    end
  | ShutdownCheck => match ch with Succeed => Some (c, if c_closed c then Returned else ShutdownSelect) | _ => None end
  | ShutdownSelect =>
    match ch with
    | TakeQueue => (λ c', (c', Returned)) <$> enqueue None c
    | TakeClosed => if c_closedCh c then Some (c, Returned) else None
    | TakeContext => Some (c, CloseSwap)
    | _ => None
    end
  | CloseSwap => match ch with Succeed => Some (set_closed true c, if c_closed c then Returned else CloseConn) | _ => None end
  | CloseConn => match ch with Succeed => Some (close_socket c, CloseChannel) | _ => None end
  | CloseChannel => match ch with Succeed => Some (close_channel c, Returned) | _ => None end
  | Returned => None
  end.

(** The writer leaves its loop. *)
Definition stop_writer (why : cause) (c : conn) : conn :=
  MkConn (c_closed c) (c_closedCh c) (c_socketClosed c) (c_outgoing c) WSwap (c_panicked c) (c_queued c) (c_written c) (Some why).
Definition take_outgoing (l : list (option Message)) (c : conn) : conn :=
  MkConn (c_closed c) (c_closedCh c) (c_socketClosed c) l (c_writer c) (c_panicked c) (c_queued c) (c_written c) (c_cause c).
Definition write (m : Message) (c : conn) : conn :=
  MkConn (c_closed c) (c_closedCh c) (c_socketClosed c) (c_outgoing c) WSelect (c_panicked c) (c_queued c) (c_written c ++ [m]) (c_cause c).

(** One step of the writer. The limiter only fails when its context ends, which is when the
    connection has been closed; a write can fail at any time, and does on a closed socket. *)
Definition writer_step (ch : choice) (c : conn) : option conn :=
  match c_writer c with
  | WSelect =>
    match ch with
    | TakeQueue =>
      match c_outgoing c with
      | [] => None
      | Some m :: l => Some (set_writer (WLimit m) (take_outgoing l c))
      | None :: l => Some (stop_writer GotNil (take_outgoing l c))
      end
    | TakeClosed => if c_closedCh c then Some (stop_writer SawClosed c) else None
    | _ => None
    end
  | WLimit m =>
    match ch with
    | Succeed => Some (set_writer (WWrite m) c)
    | Failing => if c_closedCh c then Some (stop_writer (LimitFailed m) c) else None
    | _ => None
    end
  | WWrite m =>
    match ch with
    | Succeed => if c_socketClosed c then None else Some (write m c)
    | Failing => Some (stop_writer (WriteFailed m) c)
    | _ => None
    end
  | WSwap => match ch with Succeed => Some (set_writer (if c_closed c then WReturned else WConn) (set_closed true c)) | _ => None end
  | WConn => match ch with Succeed => Some (set_writer WChannel (close_socket c)) | _ => None end
  | WChannel => match ch with Succeed => Some (set_writer WReturned (close_channel c)) | _ => None end
  | WReturned => None
  end.

(** ** Interleavings *)

Definition system : Type := conn * list pc.

(** A choice of a caller that is not the end of its context, which may never come. *)
Inductive caller_moves (ch : choice) : system → system → Prop :=
| caller_moves_intro c c' ps i p p' : ps !! i = Some p → caller_step p ch c = Some (c', p') → caller_moves ch (c, ps) (c', <[i := p']> ps).
Inductive writer_moves (ch : choice) : system → system → Prop :=
| writer_moves_intro c c' ps : writer_step ch c = Some c' → writer_moves ch (c, ps) (c', ps).
Definition step (x y : system) : Prop := ∃ ch, caller_moves ch x y ∨ writer_moves ch x y.

(** A goroutine calls a method of the connection. *)
Inductive called : system → system → Prop :=
| called_intro c ps p : (∃ m, p = SendCheck m) ∨ p = ShutdownCheck ∨ p = CloseSwap → called (c, ps) (c, ps ++ [p]).

Definition reachable : system → Prop := rtc (λ x y, step x y ∨ called x y) (newConn, []).

(** A run along a schedule: who moves, and its choice. *)
Inductive move := Send (m : Message) | Shutdown | Close | Caller (i : nat) (ch : choice) | Writer (ch : choice).
Definition run_move (x : system) (mv : move) : option system :=
  let '(c, ps) := x in
  match mv with
  | Send m => Some (c, ps ++ [SendCheck m])
  | Shutdown => Some (c, ps ++ [ShutdownCheck])
  | Close => Some (c, ps ++ [CloseSwap])
  | Caller i ch => p ← ps !! i; '(c', p') ← caller_step p ch c; Some (c', <[i := p']> ps)
  | Writer ch => c' ← writer_step ch c; Some (c', ps)
  end.
Fixpoint run (x : system) (l : list move) : option system :=
  match l with [] => Some x | mv :: l => y ← run_move x mv; run y l end.

Lemma run_reachable x l y : reachable x → run x l = Some y → reachable y.
Proof.
  revert x. induction l as [|mv l IH]; intros x Hx; cbn; [by intros [= <-]|].
  intros (z & Hz & Hl)%bind_Some. refine (IH z _ Hl). eapply rtc_r; [exact Hx|]. destruct x as [c ps].
  destruct mv as [m| | |i ch|ch]; cbn in Hz.
  1-3: injection Hz as <-; right; constructor; eauto.
  - apply bind_Some in Hz as (p & Hp & ([c' p'] & Hs & [= <-])%bind_Some). left. exists ch. left. by econstructor.
  - apply bind_Some in Hz as (c' & Hs & [= <-]). left. exists ch. right. by constructor.
Qed.

(** ** What every interleaving keeps *)

(** The goroutines inside [Close]. *)
Definition closing (p : pc) : nat := match p with CloseConn | CloseChannel => 1 | _ => 0 end.
Definition writer_closing (w : wpc) : nat := match w with WConn | WChannel => 1 | _ => 0 end.
Fixpoint total {A} (f : A → nat) (l : list A) : nat := match l with [] => 0 | x :: l => f x + total f l end.
Definition closers (x : system) : nat := (total closing x.2 + writer_closing (c_writer x.1))%nat.

(** The message the writer holds, and the one it gave up when it stopped. *)
Definition in_flight (w : wpc) : list (option Message) := match w with WLimit m | WWrite m => [Some m] | _ => [] end.
Definition given_up (why : option cause) : list (option Message) :=
  match why with Some GotNil => [None] | Some (LimitFailed m) | Some (WriteFailed m) => [Some m] | _ => [] end.
Definition in_loop (w : wpc) : bool := match w with WSelect | WLimit _ | WWrite _ => true | _ => false end.

Record conn_ok (x : system) : Prop := {
  ok_fifo : c_queued x.1 = (Some <$> c_written x.1) ++ in_flight (c_writer x.1) ++ given_up (c_cause x.1) ++ c_outgoing x.1;
  ok_size : (length (c_outgoing x.1) ≤ outgoingSize)%nat;
  ok_closers : closers x = (if c_closed x.1 && negb (c_closedCh x.1) then 1 else 0)%nat;
  ok_channel : c_closedCh x.1 = true → c_closed x.1 = true;
  ok_panic : c_panicked x.1 = false;
  ok_cause : c_cause x.1 = None ↔ in_loop (c_writer x.1) = true;
  ok_stopped : c_writer x.1 = WReturned → c_closed x.1 = true;
  ok_socket : c_closedCh x.1 = true ∨ c_writer x.1 = WChannel ∨ CloseChannel ∈ x.2 → c_socketClosed x.1 = true
}.

Lemma total_insert {A} (f : A → nat) l i x y : l !! i = Some x → (total f (<[i := y]> l) + f x = total f l + f y)%nat.
Proof.
  revert i. induction l as [|z l IH]; intros [|i] Hi; [done..| |].
  - injection Hi as ->. cbn. lia.
  - specialize (IH i Hi). change (<[S i := y]> (z :: l)) with (z :: <[i := y]> l). cbn [total]. lia.
Qed.
Lemma total_lookup {A} (f : A → nat) l i x : l !! i = Some x → (f x ≤ total f l)%nat.
Proof.
  revert i. induction l as [|z l IH]; intros [|i]; cbn; [done..|intros [= ->]; lia|]. intros Hi. specialize (IH i Hi). lia.
Qed.
Lemma total_snoc {A} (f : A → nat) l x : total f (l ++ [x]) = (total f l + f x)%nat.
Proof. induction l as [|z l IH]; cbn; lia. Qed.

Lemma conn_ok_new : conn_ok (newConn, []).
Proof. split; cbn; try done; [unfold outgoingSize; lia|intros [|[|Hn%not_elem_of_nil]]; done]. Qed.

Lemma conn_ok_called x y : called x y → conn_ok x → conn_ok y.
Proof.
  intros [c ps p Hp] []. assert (closing p = 0%nat) as Hc by (by destruct Hp as [[m ->]|[->| ->]]).
  split; try done.
  - revert ok_closers0. unfold closers. cbn. rewrite total_snoc. lia.
  - cbn in *. intros Hx. apply ok_socket0. rewrite elem_of_app, list_elem_of_singleton in Hx.
    destruct Hx as [|[|[|Hpc]]]; auto. exfalso. subst p. by destruct Hp as [[m ?]|[?|?]].
Qed.

Ltac conn_case :=
  repeat match goal with
  | H : Some _ = Some _ |- _ => injection H as H
  | H : _ <$> _ = Some _ |- _ => apply fmap_Some in H as (? & ? & ?)
  | H : (match ?t with _ => _ end) = Some _ |- _ => destruct t eqn:?; try discriminate H
  end; simplify_eq.

(** Case analysis on the two flags. *)
Ltac conn_flags c Hch Hpa :=
  destruct (c_closed c) eqn:?, (c_closedCh c) eqn:?; cbn in *;
  first [done | lia | by specialize (Hch eq_refl) | congruence | by rewrite Hpa].

Lemma conn_ok_caller ch x y : caller_moves ch x y → conn_ok x → conn_ok y.
Proof.
  intros [c c' ps i p p' Hi Hs] [Hf Hsz Hcl Hch Hpa Hca Hst Hso]. cbn in *.
  assert (c_closedCh c' = true ∨ c_writer c' = WChannel ∨ CloseChannel ∈ <[i := p']> ps → c_socketClosed c' = true) as Hso'.
  { intros Hx. assert (CloseChannel ∈ <[i := p']> ps → p' = CloseChannel ∨ CloseChannel ∈ ps) as Hin.
    { intros [j Hj]%list_elem_of_lookup. destruct (decide (i = j)) as [->|Hne].
      - rewrite list_lookup_insert_eq in Hj by (by eapply lookup_lt_Some). left. by injection Hj.
      - rewrite list_lookup_insert_ne in Hj by done. right. by eapply list_elem_of_lookup_2. }
    assert (p = CloseChannel → c_socketClosed c = true) as Hp
      by (intros ->; apply Hso; right; right; by eapply list_elem_of_lookup_2).
    destruct p; cbn in Hs; unfold enqueue in Hs; conn_case; cbn in *; try done; try (by apply Hp);
      apply Hso; destruct Hx as [|[|[Hpp|]%Hin]]; auto; by destruct (c_closed _). }
  pose proof (total_insert closing ps i p p' Hi) as Hsum. pose proof (total_lookup closing ps i p Hi) as Hle.
  unfold closers in *. cbn in *.
  assert (c_queued c' = (Some <$> c_written c') ++ in_flight (c_writer c') ++ given_up (c_cause c') ++ c_outgoing c' ∧
    (length (c_outgoing c') ≤ outgoingSize)%nat) as [? ?].
  { destruct p; cbn in Hs; unfold enqueue in Hs; conn_case; cbn; try done; bool_to_prop; rewrite Hf, <-!app_assoc; (split; [done|]);
      rewrite length_app; cbn; lia. }
  split; cbn; try done.
  all: destruct p; cbn in Hs, Hsum, Hle; unfold enqueue in Hs; conn_case; cbn in *; try done; try lia.
  all: first [conn_flags c Hch Hpa|conn_flags c' Hch Hpa].
Qed.

Lemma conn_ok_writer ch x y : writer_moves ch x y → conn_ok x → conn_ok y.
Proof.
  intros [c c' ps Hs] [Hf Hsz Hcl Hch Hpa Hca Hst Hso]. unfold closers in *. cbn in *. unfold writer_step in Hs.
  assert (in_loop (c_writer c) = true → given_up (c_cause c) = []) as Hgu by (intros Hl; apply Hca in Hl; by rewrite Hl).
  split; cbn.
  - destruct (c_writer c) eqn:Hw; cbn in *; conn_case; cbn in *; rewrite ?Hf, ?Hgu, ?fmap_app by done; cbn; rewrite <-?app_assoc; try done.
    all: by destruct (c_closed c).
  - destruct (c_writer c) eqn:Hw; cbn in *; conn_case; cbn in *; rewrite ?length_app; try done; lia.
  - destruct (c_writer c) eqn:Hw; cbn in *; conn_case; cbn in *; try done; try lia.
    all: conn_flags c Hch Hpa.
  - destruct (c_writer c) eqn:Hw; cbn in *; conn_case; cbn in *; try done.
    all: conn_flags c Hch Hpa.
  - destruct (c_writer c) eqn:Hw; cbn in *; conn_case; cbn in *; try done.
    all: conn_flags c Hch Hpa.
  - destruct (c_writer c) eqn:Hw; cbn in *; conn_case; cbn in *; try done; by destruct (c_closed c).
  - destruct (c_writer c) eqn:Hw; cbn in *; conn_case; cbn in *; try done.
    all: conn_flags c Hch Hpa.
  - intros Hx. destruct (c_writer c) eqn:Hw; cbn in *; conn_case; cbn in *; try done; auto.
    all: first [apply Hso|exfalso; enough (false = true) by done; apply Hso]; destruct Hx as [|[|]]; auto; by destruct (c_closed c).
Qed.

Lemma conn_ok_reachable x : reachable x → conn_ok x.
Proof.
  apply (rtc_ind_r _ (newConn, [])); [apply conn_ok_new|].
  intros y z _ [[ch [Hm|Hm]]|Hc] Hy; [by eapply conn_ok_caller|by eapply conn_ok_writer|by eapply conn_ok_called].
Qed.

(** ** Runs end *)

(** How many steps a goroutine can still take, counting those of the writer for what it queues. *)
Definition pc_weight (p : pc) : nat :=
  match p with
  | SendCheck _ | ShutdownCheck => 5 | SendSelect _ | ShutdownSelect => 4
  | CloseSwap => 3 | CloseConn => 2 | CloseChannel => 1 | Returned => 0
  end.
Definition wpc_weight (w : wpc) : nat :=
  match w with WSelect => 4 | WLimit _ => 6 | WWrite _ => 5 | WSwap => 3 | WConn => 2 | WChannel => 1 | WReturned => 0 end.
Definition weight (x : system) : nat := (total pc_weight x.2 + wpc_weight (c_writer x.1) + 3 * length (c_outgoing x.1))%nat.

Lemma step_weight x y : step x y → (weight y < weight x)%nat.
Proof.
  intros [ch [[c c' ps i p p' Hi Hs]|[c c' ps Hs]]]; unfold weight; cbn.
  - pose proof (total_insert pc_weight ps i p p' Hi). destruct p; cbn in Hs; unfold enqueue in Hs; conn_case; cbn in *;
      rewrite ?length_app; cbn; try lia; destruct (c_closed _); cbn in *; lia.
  - unfold writer_step in Hs. destruct (c_writer c) eqn:Hw; conn_case; cbn; rewrite ?Hw; cbn; try lia. destruct (c_closed c); cbn; lia.
Qed.

(** A goroutine that has not returned is not stuck, unless it waits for room in the channel. *)
Definition waiting (x : system) : Prop := ¬ ∃ y ch, ch ≠ TakeContext ∧ (caller_moves ch x y ∨ writer_moves ch x y).

Lemma caller_moves_intro' c c' ps i p p' ch :
  waiting (c, ps) → ps !! i = Some p → ch ≠ TakeContext → caller_step p ch c = Some (c', p') → False.
Proof. intros Hw Hi Hch Hs. apply Hw. exists (c', <[i := p']> ps), ch. split; [done|]. left. by econstructor. Qed.
Lemma writer_moves_intro' c c' ps ch : waiting (c, ps) → ch ≠ TakeContext → writer_step ch c = Some c' → False.
Proof. intros Hw Hch Hs. apply Hw. exists (c', ps), ch. split; [done|]. right. by constructor. Qed.

Lemma closer_exists ps : (0 < total closing ps)%nat → ∃ i p, ps !! i = Some p ∧ (p = CloseConn ∨ p = CloseChannel).
Proof.
  induction ps as [|p ps IH]; cbn; [lia|]. intros Hp.
  destruct (closing p) as [|k] eqn:Hc.
  - destruct (IH ltac:(lia)) as (i & q & Hi & Hq). by exists (S i), q.
  - exists 0%nat, p. split; [done|]. destruct p; try discriminate Hc; auto.
Qed.

(** Nobody is left inside [Close]. *)
Lemma waiting_not_closing c ps : waiting (c, ps) → closers (c, ps) = 0%nat.
Proof.
  intros Hw. unfold closers. cbn.
  assert (writer_closing (c_writer c) = 0%nat) as ->.
  { destruct (c_writer c) eqn:Hc; try done; exfalso; eapply (writer_moves_intro' _ _ _ Succeed Hw);
      [done|unfold writer_step; by rewrite Hc|done|unfold writer_step; by rewrite Hc]. }
  destruct (total closing ps) as [|k] eqn:Hk; [done|]. exfalso.
  destruct (closer_exists ps ltac:(lia)) as (i & p & Hi & [->| ->]); by eapply (caller_moves_intro' _ _ _ _ _ _ Succeed Hw Hi).
Qed.

(** ** Theorems *)

(** C26: Messages are written in the order they were queued, each once, and a shutdown loses none
    of them. However the goroutines that send, shut down and close a connection interleave with
    its writer, the channel is never closed twice and never holds more than its size; what has
    been written is always the beginning of what was queued; while the writer runs, the rest is
    what it holds and what is in the channel; and when it stopped because a shutdown reached
    it, everything queued before the shutdown has been written. *)
Theorem conn_fifo x :
  reachable x →
  c_panicked x.1 = false ∧ (length (c_outgoing x.1) ≤ outgoingSize)%nat ∧
  (∃ rest, c_queued x.1 = (Some <$> c_written x.1) ++ rest) ∧
  (c_cause x.1 = None → c_queued x.1 = (Some <$> c_written x.1) ++ in_flight (c_writer x.1) ++ c_outgoing x.1) ∧
  (c_cause x.1 = Some GotNil → c_queued x.1 = (Some <$> c_written x.1) ++ None :: c_outgoing x.1).
Proof.
  intros [Hf Hsz _ _ Hpa Hca _ _]%conn_ok_reachable. split_and!; [done|done|by eexists| |]; intros Hc; rewrite Hf, Hc; [done|].
  rewrite Hc in Hca. destruct (c_writer x.1); try done; discriminate (proj2 Hca eq_refl).
Qed.

(** C27: Sending, shutting down and closing always end. From any state of a connection, the
    goroutines that are using it can take only a bounded number of steps; and when none of them
    can take one, even though no context has ended, all calls have returned, and the connection
    is either open with everything that was queued written, or closed with its socket and its
    writer stopped. *)
Theorem conn_calls_end x :
  reachable x →
  (∀ n y, nsteps step n x y → (n ≤ weight x)%nat) ∧
  (waiting x → Forall (eq Returned) x.2 ∧
     ((c_closed x.1 = false ∧ c_writer x.1 = WSelect ∧ c_queued x.1 = Some <$> c_written x.1) ∨
      (c_closed x.1 = true ∧ c_writer x.1 = WReturned ∧ c_socketClosed x.1 = true))).
Proof.
  intros Hx%conn_ok_reachable. split.
  { clear Hx. intros n. revert x. induction n as [|n IH]; intros x y Hn; [lia|]. inversion Hn as [|? ? z ? Hs Hr]; subst.
    apply step_weight in Hs. apply IH in Hr. lia. }
  destruct x as [c ps]. intros Hw. pose proof (waiting_not_closing c ps Hw) as Hz. destruct Hx as [Hf Hsz Hcl Hch Hpa Hca Hst Hso].
  rewrite Hz in Hcl. cbn in *.
  assert (c_closed c = c_closedCh c) as Hflags by (destruct (c_closed c), (c_closedCh c); auto; first [discriminate Hcl|discriminate (Hch eq_refl)]).
  assert ((c_closedCh c = false ∧ c_writer c = WSelect ∧ c_outgoing c = []) ∨ (c_closedCh c = true ∧ c_writer c = WReturned)) as Hwr.
  { pose proof (λ ch c', writer_moves_intro' c c' ps ch Hw) as Hm. unfold writer_step in Hm. destruct (c_writer c) eqn:Hc.
    - destruct (c_closedCh c); [by destruct (Hm TakeClosed _ ltac:(done) eq_refl)|]. left.
      destruct (c_outgoing c) as [|[m|] l]; [done|by destruct (Hm TakeQueue _ ltac:(done) eq_refl)..].
    - by destruct (Hm Succeed _ ltac:(done) eq_refl).
    - by destruct (Hm Failing _ ltac:(done) eq_refl).
    - by destruct (Hm Succeed _ ltac:(done) eq_refl).
    - by destruct (Hm Succeed _ ltac:(done) eq_refl).
    - by destruct (Hm Succeed _ ltac:(done) eq_refl).
    - right. rewrite <-Hflags. auto. }
  split.
  - apply Forall_lookup. intros i p Hi. pose proof (λ ch c' p', caller_moves_intro' c c' ps i p p' ch Hw Hi) as Hm.
    destruct p; cbn in Hm; try (by destruct (Hm Succeed _ _ ltac:(done) eq_refl)); [| |done];
      (destruct Hwr as [(Hc & _ & Ho)|[Hc _]];
       [unfold enqueue in Hm; rewrite Ho in Hm; cbn in Hm; by destruct (Hm TakeQueue _ _ ltac:(done) eq_refl)
       |rewrite Hc in Hm; by destruct (Hm TakeClosed _ _ ltac:(done) eq_refl)]).
  - rewrite Hflags. destruct Hwr as [(Hc & Hwc & Ho)|[Hc Hwc]]; [left|right; split_and!; auto].
    rewrite Hwc in *. cbn in Hca. rewrite (proj2 Hca eq_refl) in Hf. rewrite Ho in Hf. cbn in Hf. rewrite app_nil_r in Hf. by split_and!.
Qed.

(** ** Runs *)

(** Two messages and a shutdown, sent while the first is written. *)
Definition hello : Message := mkMessage ∅ None "PING" ["1"].
Definition bye : Message := mkMessage ∅ None "QUIT" [].
Definition demo_schedule : list move :=
  [Send hello; Caller 0 Succeed; Caller 0 TakeQueue; Writer TakeQueue; Send bye; Shutdown; Caller 1 Succeed; Writer Succeed;
   Caller 1 TakeQueue; Caller 2 Succeed; Caller 2 TakeQueue; Writer Succeed; Close; Writer TakeQueue; Writer Succeed; Writer Succeed;
   Writer TakeQueue; Writer Succeed; Caller 3 Succeed; Writer Succeed; Writer Succeed].

Lemma conn_fifo_witness :
  ∃ x, run (newConn, []) demo_schedule = Some x ∧ c_written x.1 = [hello; bye] ∧
    c_queued x.1 = (Some <$> c_written x.1) ++ None :: c_outgoing x.1.
Proof.
  eexists. split; [vm_compute; reflexivity|]. split; [reflexivity|].
  apply conn_fifo; [|reflexivity]. eapply run_reachable with (l := demo_schedule); [apply rtc_refl|vm_compute; reflexivity].
Defined.

Lemma conn_calls_end_witness :
  ∃ x, run (newConn, []) demo_schedule = Some x ∧ waiting x ∧ Forall (eq Returned) x.2.
Proof.
  eexists. split; [vm_compute; reflexivity|].
  match goal with |- waiting ?x ∧ _ => assert (waiting x) as Hw; [|assert (reachable x) as Hr] end.
  - intros ([c' ps'] & ch & Hch & [Hm|Hm]).
    + inversion Hm as [? ? ? i p p' Hi Hs]; subst. destruct i as [|[|[|[|i]]]]; cbn in Hi; simplify_eq; by destruct ch.
    + inversion Hm as [? ? ? Hs]; subst. by destruct ch.
  - eapply run_reachable with (l := demo_schedule); [apply rtc_refl|vm_compute; reflexivity].
  - split; [exact Hw|]. apply (conn_calls_end _ Hr). exact Hw.
Defined.
