(* ===== verification/Websocket.v ===== *)
(** * Kinds of connections (conn.go, server.go)

    TCP, TLS and WebSocket connections: what they take from a proxy in front of the bouncer, the
    certificates they show, and the text they send; and the loops that accept them. *)

From S2P Require Import Prelude GoStrings GoUnicode IrcMessage GenMsg Base64 Identd Config ServerRun.

Open Scope string_scope.
Open Scope list_scope.
Open Scope Z_scope.

(** ** WebSocket connections *)

(** A certificate is its encoding. *)
Record wsRequest := MkWsRequest { wrRemoteAddr : string; wrHeader : string → string; wrTLS : option (list string) }.

(** [we_params] are the parameters that [mime.ParseMediaType] finds, none after an error. *)
Class wsenv := MkWsenv {
  we_params : string → gmap string string;
  we_ParseCertificate : string → option string;
  we_ParseIP : string → option IP;
  we_MessageString : Message → string;
  we_ParseMessage : string → Message + goerr
}.

Section ws.
Context `{WE : wsenv}.

Record websocketIRCConn := MkWs { wcReq : wsRequest; wcAcceptProxy : bool }.
Definition newWebsocketIRCConn := MkWs.

Definition parseForwarded (h : string → string) : gmap string string :=
  let forwarded := h "Forwarded" in
  if decide (forwarded = "") then
    {["for" := h "X-Forwarded-For"; "proto" := h "X-Forwarded-Proto"; "host" := h "X-Forwarded-Host"]}
  else we_params ("hack; " +:+ forwarded).

Definition ws_RemoteAddr (wic : websocketIRCConn) : string :=
  let remoteAddr := wrRemoteAddr (wcReq wic) in
  if wcAcceptProxy wic then
    let f := default "" (parseForwarded (wrHeader (wcReq wic)) !! "for") in
    if decide (f ≠ "") then f else remoteAddr
  else remoteAddr.

(** The certificate in the Client-Cert header, a byte sequence between colons. *)
Definition parseClientCert (s : string) : option string :=
  let prefixOK := HasPrefix s ":" in
  let s := TrimPrefix s ":" in
  let suffixOK := HasSuffix s ":" in
  let s := TrimSuffix s ":" in
  if negb prefixOK || negb suffixOK then None else b ← DecodeString s; we_ParseCertificate b.

Definition first_certificate (tls : option (list string)) : option string := certs ← tls; head certs.

Definition ws_GetPeerCertificate (wic : websocketIRCConn) : option string :=
  let clientCert := wrHeader (wcReq wic) "Client-Cert" in
  if decide (clientCert ≠ "" ∧ wcAcceptProxy wic = true) then parseClientCert clientCert
  else first_certificate (wrTLS (wcReq wic)).

(** What [WriteMessage] gives to the library. *)
Definition ws_text (m : Message) : string := ToValidUTF8 (we_MessageString m) (EncodeRune RuneError).

(** [ReadMessage]: the text of a frame, or an error with the status of a close frame, 1000 and
    1001 being a normal end. [None] is the end of the stream. *)
Definition ws_ReadMessage (frame : string + (Z * goerr)) : option (Message + goerr) :=
  match frame with
  | inr (status, e) => if (status =? 1000) || (status =? 1001) then None else Some (inr e)
  | inl b => Some (we_ParseMessage b)
  end.

(** ** TCP connections *)

(** The header of the PROXY protocol, with the client certificate of its TLS part. *)
Record proxyHeader := MkProxyHeader { phTLVs : option (option (option string)) }.
Inductive netConn := TCPConn | TLSConn (certs : list string) | ProxyConn (header : option proxyHeader) (raw : netConn).

(** [None] without a certificate or with one that does not parse. *)
Definition certFromProxyprotoHeader (h : proxyHeader) : option string :=
  ssl ← phTLVs h; cert ← ssl; raw ← cert; we_ParseCertificate raw.

Definition net_GetPeerCertificate (c : netConn) : option string :=
  match c with
  | ProxyConn (Some header) _ => certFromProxyprotoHeader header
  | ProxyConn None (TLSConn certs) | TLSConn certs => head certs
  | _ => None
  end.

(** ** Accepting *)

(** [Server.serve]: the connections that are served, and how the loop ends, when it does: the
    listener was closed, or failed. *)
Inductive listened (C : Type) := Listened (c : accepted C) | ListenerClosed.
Arguments Listened {C} _.
Arguments ListenerClosed {C}.

Fixpoint serve {C} (l : list (listened C)) : list C * option (option goerr) :=
  match l with
  | [] => ([], None)
  | ListenerClosed :: _ => ([], Some None)
  | Listened (AcceptError true) :: l => serve l
  | Listened (AcceptError false) :: _ => ([], Some (Some (Errorf "failed to accept connection: %v")))
  | Listened (Conn c) :: l => let '(cs, r) := serve l in (c :: cs, r)
  end.

(** [Server.ServeHTTP], after the WebSocket handshake. *)
Definition accept_proxy (cfg : BasicServer) (remoteAddr : string) : bool :=
  match SplitHostPort remoteAddr with
  | Some (host, _) => match we_ParseIP host with Some ip => IPSet_Contains (AcceptProxyIPs cfg) ip | None => false end
  | None => false
  end.
Definition ServeHTTP (cfg : BasicServer) (req : wsRequest) : websocketIRCConn :=
  newWebsocketIRCConn req (accept_proxy cfg (wrRemoteAddr req)).

(** ** Text is UTF-8 *)

(** Whatever a message holds, its WebSocket frame is UTF-8 text, and text that is UTF-8
    already is sent as it is. *)
Theorem ws_text_valid m :
  (∃ rs, Forall (λ r, ValidRune r = true) rs ∧ ws_text m = of_runes rs) ∧
  ∀ rs, Forall (λ r, ValidRune r = true) rs → we_MessageString m = of_runes rs → ws_text m = we_MessageString m.
Proof.
  split; [apply ToValidUTF8_runes|]. intros rs Hrs Hm. unfold ws_text. rewrite Hm. by apply ToValidUTF8_id.
Qed.

(** ** Proxies *)

(** C30: Headers of strangers are ignored. What the address and the certificate of a WebSocket
    client are taken to be depends on the headers of its request only when the request came
    from an address in the accept-proxy-ip list of the configuration; otherwise they are those
    of the connection the request came over. *)
Theorem untrusted_headers_ignored cfg req :
  (∀ host port ip, SplitHostPort (wrRemoteAddr req) = Some (host, port) → we_ParseIP host = Some ip →
     IPSet_Contains (AcceptProxyIPs cfg) ip = false) →
  ws_RemoteAddr (ServeHTTP cfg req) = wrRemoteAddr req ∧
  ws_GetPeerCertificate (ServeHTTP cfg req) = first_certificate (wrTLS req).
Proof.
  intros Hno. assert (accept_proxy cfg (wrRemoteAddr req) = false) as Ha.
  { unfold accept_proxy. destruct (SplitHostPort _) as [[host port]|]; [|done]. destruct (we_ParseIP host) eqn:Hip; [|done]. by eapply Hno. }
  unfold ws_RemoteAddr, ws_GetPeerCertificate, ServeHTTP, newWebsocketIRCConn. cbn. rewrite Ha. split; [done|].
  by rewrite decide_False by (by intros [_ ?]).
Qed.

(** Behind a trusted proxy they are what the proxy says, a certificate that does not parse
    being none at all. *)
Lemma trusted_headers cfg req addr :
  accept_proxy cfg (wrRemoteAddr req) = true → wrHeader req "Forwarded" = "" → wrHeader req "X-Forwarded-For" = addr → addr ≠ "" →
  wrHeader req "Client-Cert" ≠ "" →
  ws_RemoteAddr (ServeHTTP cfg req) = addr ∧ ws_GetPeerCertificate (ServeHTTP cfg req) = parseClientCert (wrHeader req "Client-Cert").
Proof.
  intros Ha Hf Hx Hne Hc. unfold ws_RemoteAddr, ws_GetPeerCertificate, ServeHTTP, newWebsocketIRCConn. cbn. rewrite Ha.
  unfold parseForwarded. rewrite (decide_True (P := wrHeader req "Forwarded" = "")) by done. rewrite lookup_insert_eq. cbn.
  rewrite Hx, (decide_True (P := addr ≠ "")) by done. by rewrite decide_True.
Qed.

(** A certificate in the header is the one that was encoded there. *)
Lemma parseClientCert_encode der : parseClientCert (":" +:+ EncodeToString der +:+ ":") = we_ParseCertificate der.
Proof.
  unfold parseClientCert. assert (HasPrefix (":" +:+ EncodeToString der +:+ ":") ":" = true) as Hp by (apply HasPrefix_spec; by eexists).
  unfold TrimPrefix. rewrite Hp. change (str_drop _ (":" +:+ ?x)) with x. rewrite HasSuffix_app, TrimSuffix_app. cbn.
  by rewrite DecodeString_EncodeToString.
Qed.

(** ** The accept loop *)

(** Every connection up to the first lasting error is served, in order. *)
Lemma serve_all {C} (l : list (option C)) :
  serve (((λ o, Listened match o with Some c => Conn c | None => AcceptError true end) <$> l) ++ [ListenerClosed]) = (omap id l, Some None).
Proof. induction l as [|[c|] l IH]; [done| |exact IH]. cbn in *. by rewrite IH. Qed.
End ws.

(** ** Evaluation *)

Definition demo_wsenv : wsenv := {|
  we_params _ := {["for" := "203.0.113.9:1234"]};
  we_ParseCertificate s := if decide (s = "") then None else Some s;
  we_ParseIP s := if decide (s = "127.0.0.1") then Some [127; 0; 0; 1] else if decide (s = "192.0.2.1") then Some [192; 0; 2; 1] else None;
  we_MessageString m := Command m; we_ParseMessage s := inl (msg s [])
|}.
#[local] Existing Instance demo_wsenv.

Definition demo_ws_cfg : BasicServer := MkBasic "irc.example.org" "" (MkDriver "memory" "") [] "" loopbackIPs false (-1) [] 0 0 false false.
Definition demo_ws_req (addr : string) : wsRequest :=
  MkWsRequest addr (λ k, if decide (k = "Forwarded") then "for=203.0.113.9:1234" else if decide (k = "Client-Cert") then ":Y2VydA==:" else "")
    (Some ["own"]).

Lemma demo_trusted :
  let c := ServeHTTP demo_ws_cfg (demo_ws_req "127.0.0.1:5000") in
  ws_RemoteAddr c = "203.0.113.9:1234" ∧ ws_GetPeerCertificate c = Some "cert".
Proof. by vm_compute. Qed.

Lemma untrusted_headers_ignored_witness :
  let c := ServeHTTP demo_ws_cfg (demo_ws_req "192.0.2.1:5000") in
  ws_RemoteAddr c = "192.0.2.1:5000" ∧ ws_GetPeerCertificate c = Some "own".
Proof.
  apply (untrusted_headers_ignored demo_ws_cfg (demo_ws_req "192.0.2.1:5000")).
  intros host port ip [= <- <-]. vm_compute. by intros [= <-].
Defined.
